(* ===== verification/_CoqProject ===== *)
-Q . S2P
Prelude.v
JsNum.v
JsMap.v
JsString.v
JsFloat.v
JsValue.v
SchemaUri.v
QueryTypes.v
Samples.v
QueryDomain.v
OracleRegistry.v
QueryVerification.v
PreimageStore.v
EventLoop.v
QueryService.v
QueryServiceSpec.v
QuerySettlement.v
CashuTypes.v
RedeemSwap.v
CashuClient.v
CashuClientSpec.v
CashuEscrow.v
CashuEscrowSpec.v
JsonCodec.v
Nostr.v
NostrEvents.v
Sidecar.v
FrostCli.v
ReplayGuard.v
Tlsn.v
TlsnSpec.v
Verifier.v
FrostSigner.v
FrostSignerSpec.v
FrostCoordinator.v
FrostSigning.v
FrostSigningSpec.v
OracleNostr.v
OracleNostrSpec.v
RelayClient.v
Provider.v
ProviderSpec.v
Customer.v
CustomerSpec.v
UrlValidation.v
Exif.v
Geo.v
ExifCheck.v
C2pa.v
Proofmode.v
IntegrityStore.v
Blossom.v
PhotoIntegrity.v
Attachments.v
Upload.v
Storage.v
PreimageFile.v
FrostServer.v
OracleEvents.v
Config.v
CashuWallet.v
Identity.v
ProviderServe.v
FrostBootstrap.v
Runtime.v
MemoryRelay.v
Simulation.v
SimulationSpec.v
Regex.v
Patterns.v
LintScan.v
ArchLint.v
ShipGate.v
LintInvariants.v
LintTypes.v
RepoChecks.v
ServiceFixture.v
Startup.v
TestSupport.v
BuildScripts.v
