(* ===== verification/Prelude.v ===== *)
(** * Anchr: a verification development

    Anchr is a paid-request protocol: a customer publishes a request, a provider
    answers it with data and a proof, an oracle checks the proof, and the
    provider is paid from an escrow (a Cashu token locked by a hash or by a FROST
    group key) when the check passes.  The development models the TypeScript
    packages under [packages/protocol] and [packages/sdk], the examples, and the
    repository's scripts as executable definitions and proves what makes them
    correct.

    ** Parts and files

    A file [XSpec] holds the theorems about the model in [X]; elsewhere model and
    theorems share a file.  Paths are relative to [packages/sdk/src] unless they
    begin with [protocol/], [scripts/], [examples/] or [e2e/].

    Shared ground:
    - [Prelude] (this file): exceptions and fallible results, the [===] notation,
      record update, truthiness, shared tactics and lemmas;
    - [JsNum], [JsString], [JsMap], [JsValue], [JsFloat]: the parts of JavaScript
      the code computes with - numbers (exact dyadic values with [NaN] and
      infinities), strings, insertion-ordered [Map]s, dynamic values with their
      JSON normal form, rounded arithmetic and formatting; [JsonCodec] gives a codec
      that satisfies the law of [JSON];
    - [EventLoop]: an asynchronous function as a resumption that suspends at each
      [await]; [loop_steps] interleaves any number of them over shared state,
      [outcome R] runs one of them while the rest of the program changes the state
      by [R] at each suspension (rely-guarantee); its ghost logs are those in which
      every entry must be justified by the entries before it; [Samples]: concrete
      data of the witnesses.

    Requests and their settlement:
    - [SchemaUri] ([protocol/src/schema.ts]), [QueryTypes] ([requests/domain/types.ts],
      [oracle-types.ts], [values.ts]): data;
    - [QueryDomain] ([requests/domain]): the query aggregate, one definition per
      operation, and its state machine [domain_step];
    - [OracleRegistry] ([adapters/oracle-client/registry.ts]) and the interface
      [RegistryLaws] its clients are proved against; [QueryVerification]
      ([requests/application/query-verification.ts], [verification-orchestration.ts]);
    - [QueryService], [QueryServiceSpec], [QuerySettlement] ([requests/application]):
      every method of the query service as a call of the event loop.

    Payments:
    - [PreimageStore], [PreimageFile] ([payments/cashu/preimage-store.ts]): hash
      commitments in memory and on disk;
    - [CashuTypes], [RedeemSwap], [CashuClient] ([adapters/cashu.ts],
      [payments/cashu/redeem-swap.ts], [cashu-htlc-options.ts]): payment locks, the
      provider's acceptance gate, redemption and its recovery; [CashuEscrow]
      ([cashu-escrow.ts], the two escrow providers, [cashu-escrow-helpers.ts]);
      [CashuWallet] ([cashu-wallet.ts]): minting;
    - FROST ([payments/frost], [adapters/oracle-service], [scripts]): [FrostCli] (data
      and the command line bridge), [FrostSigner] (signer rounds and their routes),
      [FrostCoordinator] (sessions), [FrostSigning] (the coordinator across peers),
      [FrostServer] (the server with every route), [FrostBootstrap] (configuration
      files and distributed key generation).

    Actors and transport:
    - [Nostr], [NostrEvents] ([protocol/src/nostr.ts], [events.ts]): signed events,
      encryption and the eight payload formats; [Identity] (keys, signers, publishing);
    - [RelayClient] ([adapters/relay-wait.ts], [oracle.ts]): waiting with a deadline;
    - [Customer] ([customer.ts]), [Provider] and [ProviderServe] ([provider.ts]),
      [OracleNostr] ([adapters/nostr/oracle-service.ts], [oracle-handlers.ts],
      [hash-responder.ts], [events/dm.ts]): the three roles; [OracleEvents]:
      announcements, discovery and attestations.

    Evidence:
    - [Verifier] ([proofs/verification], [schema.ts]): bundles and the verifier core;
      [Tlsn] with [Sidecar] and [ReplayGuard] ([proofs/tlsn-validation.ts]): TLSNotary
      presentations;
    - [Exif], [ExifCheck], [Geo], [C2pa], [Proofmode], [IntegrityStore],
      [PhotoIntegrity] ([proofs]): photos, from the bytes of a JPEG to the verdict;
    - [UrlValidation], [Attachments], [Blossom], [Upload] ([attachments]): references,
      the guard on URLs, encrypted blobs and the upload pipeline.

    Platform ([internal/runtime]): [Storage] ([fs.ts], [adapters/storage.ts]), [Config]
    ([config.ts], the levels of [logger.ts]), [Runtime] ([process.ts], [which.ts],
    [env.ts], [runtime.ts], the pipeline of [logger.ts]); [Startup]: construction of
    the Cashu client and the provider, the oracle service from the environment, the
    peer process ([adapters/oracle-service/server-entry.ts]).

    The whole system, run:
    - [MemoryRelay] ([testing/relay.ts], [testing/cashu.ts]) and [Simulation]
      ([examples/paid-request-simulation]): customer, provider and oracle over one
      relay, in rounds until nothing new is published;
    - [ServiceFixture] ([testing/oracle-registry.ts], [testing/protocol-helpers.ts]):
      the escrow flow of the query service with the mock port;
    - [TestSupport] ([examples/quick-start], [e2e/helpers/regtest.ts],
      [testing/helpers.ts], [testing/attachments.ts]).

    The repository's own checks ([scripts]):
    - [Regex]: the regular expressions of the source as syntax, a backtracking matcher
      and its specification; [Patterns]: the patterns of the protocol code, and that
      the recognizers used elsewhere are those patterns;
    - [LintScan] (the six line lints), [ArchLint] ([arch-lint.ts]), [ShipGate]
      ([silent-bypass-verify.ts], [arch-lint-llm-verify.ts]), [LintInvariants]
      ([lint-invariants.ts]), [LintTypes] ([lint-types.ts]), [RepoChecks] ([lint-fmt.ts],
      [check-proof-schema-pages.ts], [arch-lint-candidates.ts]);
    - [BuildScripts] (the [build-bundle.ts] and [fix-dts-imports.ts] of the SDK's own
      scripts): the bundle's resolver and the rewriting of declaration files.

    Customer, provider and oracle interact only through events and payment locks:
    [CustomerSpec.exchange_terms_agree] connects the two clients; the query service
    reaches registries, escrow providers and preimage stores through ports, and the
    theorems about it are stated for every implementation of them.

    ** What the theorems show

    - Lifecycle ([QueryDomain]): status, payment status and escrow mode stay
      consistent over every sequence of operations; terminal states absorb; the
      aggregate refines a one-shot payment contract; terms never change.
    - Concurrency ([QueryServiceSpec], [QuerySettlement]): under every interleaving
      at the await points stored queries stay consistent, approvals are backed by
      a passing verification and releases go only to the bound provider; run
      alone, the handlers refine the aggregate.  The same model shows what
      interleaving breaks: a cancellation can be overwritten.
    - Roles: an oracle releases a preimage or signature only after a passing
      verification and to the selected provider, and the preimage opens a hash it
      issued for that request; a provider works only for a lock
      that pays it and redeems with the oracle's preimage; a customer that fails
      after creating a lock gets its recovery material; what one sends is what the
      other checks; stopping a provider closes its subscription.
    - Payments: the gate accepts exactly the documented locks; retry flags of a
      failed redemption are sound; recovered proofs are registered; fees are exact
      ceilings; a token is minted only for a paid invoice and the wait for it ends;
      the file-backed preimage store behaves as the one in memory and survives a
      stop at any step.
    - FROST: nonces are used once and for a verified message; a signature needs a
      threshold of distinct signers; the server finalizes only at the threshold and
      serves nothing but two public routes without its key; key generation hands
      every package to its addressee.
    - Evidence: quorum thresholds and distinct oracles; the verifier, the TLSNotary
      check and the photo check fail closed; a presentation is accepted once when
      validations do not overlap; the EXIF scan ends, and reads back what an encoder
      writes; URLs accepted for fetching are public, in the ranges the code lists.
    - End to end: an honest exchange over one relay completes, with the provider paid
      and the customer holding the verified answer; an honest escrow driven through
      the service's handlers settles and reveals its preimage; the quick start reads
      its own notice back.
    - Platform: a binary file holds the bytes of the view that was written; the events
      of the browser open a database as the state store expects; a regtest run starts
      exactly when both probes succeed, in whatever order they progress.
    - Start-up: a client's wallet is loaded once, for better or worse; a constructed
      provider is well configured; the key of the environment guards the peer process.
    - Repository checks: each lint passes exactly when its rule holds of every line or
      import it is asked about; the walk over the portable graph visits what is
      reachable and ends; a recorded review vouches for one diff only; rewriting a
      declaration file changes the workspace imports and nothing else.
    - Formats: builders and parsers round-trip under the laws of encryption and
      JSON, and parsers accept only attributed, public or addressed payloads.

    Theorems that exhibit a defect (an overlapping replacement of a file, a share
    counted in another query's session, and so on) evaluate the model at the input
    that shows it.

    ** Modelling choices

    Strings are byte strings.  Numbers are exact outside the photo code: additions
    and products are not rounded to 53 bits (amounts and times stay far below
    that); [JsFloat] rounds to the nearest double, with unbounded exponents and
    without a signed zero.  Clocks, randomness, oracles, mints, wallets, relays,
    processes, the URL parser, JSON, NIP-44, signatures and hashes are parameters
    (classes [UrlApi], [JSON], [NostrLib], [Noble], [CashuLib], [WebCrypto], record
    [Wallet] and the ports of each component), with laws as named hypotheses where
    a theorem needs them and a concrete instance that satisfies them.  Files are
    inodes with failing steps.

    Loops are structural except these.  [scan_segments] gets one unit of fuel per
    byte of the image and one more, and the scan theorem shows that this is enough.
    [generateNonce] takes a supply of random batches and its theorem is stated for
    every supply that suffices.  The poll loop of [createBountyToken] takes fuel, and
    [bounty_terminates] says how much a clock that advances needs.  The star of a
    regular expression gets the length of the rest of the text, enough because an
    iteration that consumes nothing is refused, as [run_spec] shows; the parser of
    patterns and the search for all matches get the length of their input in the same
    way.  [portable_loop] gets the number of entry points and imports, enough by
    [portable_walk_exact]; [chunk_loop] the length of its list.

    Not modelled: what third-party code does (the relay pool, mints, the FROST,
    TLSNotary and C2PA binaries, [unzip] and [gpg], the IndexedDB engine beyond its
    request protocol, the bundler); the text of log lines at most calls; the generated
    code of the documentation site; the end-to-end scenarios against live services;
    and the files that only re-export. *)

From stdpp Require Export base gmap strings list sorting.
From Stdlib Require Export ZArith Lia.

(** ** Notation scope of the development *)
Declare Scope js_scope.
Delimit Scope js_scope with js.
Global Open Scope js_scope.
Global Open Scope string_scope.
Global Open Scope list_scope.

(** [===] of the source on types whose JavaScript identity is structural. *)
Notation "x === y" := (bool_decide (x = y)) (at level 70, no associativity) : js_scope.
Notation "x !== y" := (negb (bool_decide (x = y))) (at level 70, no associativity) : js_scope.

(** ** Exceptions and fallible results

    [throw new C(m)] is [Throw {| exn_class := C; exn_message := m |}]; a
    promise that rejects is the same value on the awaiting side. *)
Record exn := mkExn { exn_class : string; exn_message : string }.

Inductive res (A : Type) : Type :=
| Ok (a : A)
| Throw (e : exn).
Arguments Ok {A} a.
Arguments Throw {A} e.

Global Instance res_ret : MRet res := @Ok.
Global Instance res_bind : MBind res :=
  fun A B f r => match r with Ok a => f a | Throw e => Throw e end.

Definition is_ok {A} (r : res A) : bool :=
  match r with Ok _ => true | Throw _ => false end.

Definition res_option {A} (r : res A) : option A :=
  match r with Ok a => Some a | Throw _ => None end.

(** [throw_if b e; k] is [if (b) throw e; k]. *)
Definition throw_if (b : bool) (cls msg : string) : res unit :=
  if b then Throw (mkExn cls msg) else Ok tt.

Global Instance exn_eq_dec : EqDecision exn.
Proof. solve_decision. Defined.

(** ** Record update, written as the source's object spread *)
Class Setter {R E : Type} (getter : R -> E) := setter : (E -> E) -> R -> R.
Notation "r <| proj := v |>" := (setter (getter := proj) (fun _ => v) r)
  (at level 1, left associativity, format "r  <| proj  :=  v |>") : js_scope.

(** The double-quote character as a string. *)
Definition dquote : string := String.String (Ascii.ascii_of_nat 34) "".

(** ** Truthiness and nullish operators of optional values *)
Definition str_truthy (s : string) : bool := s !== "".

(** [o] with a falsy (empty) string read as absent: the test [if (o)]. *)
Definition truthy (o : option string) : option string :=
  match o with Some s => if str_truthy s then Some s else None | None => None end.

(** [a ?? b] on optional values. *)
Definition nullish {A} (a b : option A) : option A :=
  match a with Some _ => a | None => b end.

Definition opt_default {A} (d : A) (o : option A) : A :=
  match o with Some a => a | None => d end.

(** [xs.join(sep)] *)
Fixpoint js_join (sep : string) (l : list string) : string :=
  match l with
  | [] => ""
  | [x] => x
  | x :: xs => x +:+ sep +:+ js_join sep xs
  end.

(** [for (let i = 0; i < xs.length; i++) f(i, xs[i])] where [f] may throw. *)
Fixpoint for_each {A} (f : nat -> A -> res unit) (i : nat) (l : list A) : res unit :=
  match l with
  | [] => Ok tt
  | x :: l' => match f i x with Ok _ => for_each f (S i) l' | Throw e => Throw e end
  end.

(** ** Tactics

    [walk] follows the guards of a handler: it splits every match and
    conditional of the goal, substitutes, and discards contradictory branches. *)
Ltac bool_to_prop :=
  repeat match goal with
  | H : bool_decide _ = true |- _ => apply bool_decide_eq_true_1 in H
  | H : bool_decide _ = false |- _ => apply bool_decide_eq_false_1 in H
  | H : negb _ = true |- _ => apply negb_true_iff in H
  | H : negb _ = false |- _ => apply negb_false_iff in H
  | H : _ && _ = true |- _ => apply andb_true_iff in H; destruct H
  | H : _ || _ = false |- _ => apply orb_false_iff in H; destruct H
  end.

Ltac walk_in H :=
  repeat (match type of H with
          | context [match ?x with _ => _ end] => destruct x eqn:?; try discriminate H
          end; simpl in H);
  try discriminate H.

Ltac walk := repeat (case_match; simplify_eq/=); bool_to_prop; simplify_eq/=.

Create HintDb anchr discriminated.

(** ** Shared lemmas *)
Lemma bind_Ok {A B} (r : res A) (f : A -> res B) (b : B) :
  (r ≫= f) = Ok b <-> exists a, r = Ok a /\ f a = Ok b.
Proof. destruct r; simpl; naive_solver. Qed.

Lemma throw_if_Ok (b : bool) cls msg u : throw_if b cls msg = Ok u <-> b = false.
Proof. destruct b, u; simpl; naive_solver. Qed.

Lemma throw_if_then_Ok {B} (b : bool) cls msg (k : unit -> res B) r :
  (throw_if b cls msg ≫= k) = Ok r <-> b = false /\ k tt = Ok r.
Proof. destruct b; simpl; naive_solver. Qed.

Lemma throw_if_Ok_tt (b : bool) cls msg : throw_if b cls msg = Ok tt <-> b = false.
Proof. by destruct b. Qed.

Lemma bind_unit_Ok {B} (r : res unit) (k : res B) b :
  (r ≫= fun _ => k) = Ok b <-> r = Ok tt /\ k = Ok b.
Proof. rewrite bind_Ok. split; [intros ([] & ? & ?); done|intros [? ?]; by exists tt]. Qed.

Lemma for_each_Ok {A} (f : nat -> A -> res unit) i l :
  for_each f i l = Ok tt <-> forall j x, l !! j = Some x -> f (i + j) x = Ok tt.
Proof.
  revert i. induction l as [|x l IH]; intros i; simpl; [by split|]. split.
  - destruct (f i x) as [[]|] eqn:E; [|done]. rewrite IH. intros H [|j] y Hy; simplify_eq/=.
    + by rewrite Nat.add_0_r.
    + rewrite <- Nat.add_succ_comm. by apply H.
  - intros H. pose proof (H 0 x eq_refl) as H0. rewrite Nat.add_0_r in H0. rewrite H0. apply IH.
    intros j y Hy. specialize (H (S j) y Hy). by rewrite <- Nat.add_succ_comm in H.
Qed.

(** When the body does not read the index. *)
Lemma for_each_Forall {A} (f : A -> res unit) i l :
  for_each (fun _ => f) i l = Ok tt <-> Forall (fun x => f x = Ok tt) l.
Proof. rewrite for_each_Ok, Forall_lookup. done. Qed.

Lemma truthy_Some o s : truthy o = Some s <-> o = Some s /\ s <> "".
Proof.
  unfold truthy, str_truthy. destruct o as [t|]; [|naive_solver].
  destruct (bool_decide_reflect (t = "")); simpl; naive_solver.
Qed.

Lemma truthy_None o : truthy o = None <-> o = None \/ o = Some "".
Proof.
  unfold truthy, str_truthy. destruct o as [t|]; [|naive_solver].
  destruct (bool_decide_reflect (t = "")); simpl; naive_solver.
Qed.

Lemma filter_length_le {A} (P : A -> Prop) `{forall x, Decision (P x)} (l : list A) :
  length (filter P l) <= length l.
Proof. induction l; [done|]. rewrite filter_cons. case_decide; simpl; lia. Qed.

#[export] Hint Resolve filter_length_le : anchr.
