(* ===== verification/JsNum.v ===== *)
(** * JavaScript numbers

    A [number] is NaN, an infinity, or a finite dyadic rational [m / 2^e]
    (every finite IEEE double is one).  Comparisons are those of the language:
    every comparison with NaN is false.  Arithmetic on finite values is exact;
    the amounts, timestamps and counters the code computes with are integers
    below 2^53, where double arithmetic is exact too. *)

From S2P Require Import Prelude.

Local Open Scope Z_scope.

Inductive number : Type :=
| NaN
| Infinity (negative : bool)
| Finite (m : Z) (e : N).

Global Instance number_eq_dec : EqDecision number.
Proof. solve_decision. Defined.

(** An integer value, as produced by [Date.now()] or a literal. *)
Definition num (z : Z) : number := Finite z 0.

Definition pow2 (e : N) : Z := 2 ^ Z.of_N e.

(** Order of two numbers, [None] when one of them is NaN. *)
Definition ncompare (x y : number) : option comparison :=
  match x, y with
  | NaN, _ | _, NaN => None
  | Infinity a, Infinity b =>
      Some (if Bool.eqb a b then Eq else if a then Lt else Gt)
  | Infinity a, Finite _ _ => Some (if a then Lt else Gt)
  | Finite _ _, Infinity b => Some (if b then Gt else Lt)
  | Finite m e, Finite n f => Some (m * pow2 f ?= n * pow2 e)
  end.

Definition nlt (x y : number) : bool :=
  match ncompare x y with Some Lt => true | _ => false end.
Definition ngt (x y : number) : bool :=
  match ncompare x y with Some Gt => true | _ => false end.
Definition nle (x y : number) : bool :=
  match ncompare x y with Some Lt | Some Eq => true | _ => false end.
Definition nge (x y : number) : bool :=
  match ncompare x y with Some Gt | Some Eq => true | _ => false end.
Definition neqn (x y : number) : bool :=
  match ncompare x y with Some Eq => true | _ => false end.

(** [Number.isFinite], [Number.isInteger], and the truthiness of a number. *)
Definition isFinite (x : number) : bool :=
  match x with Finite _ _ => true | _ => false end.
Definition isInteger (x : number) : bool :=
  match x with Finite m e => (m mod pow2 e =? 0) | _ => false end.
Definition num_truthy (x : number) : bool :=
  match x with NaN => false | Infinity _ => true | Finite m _ => negb (m =? 0) end.

Definition nneg (x : number) : number :=
  match x with
  | NaN => NaN | Infinity a => Infinity (negb a) | Finite m e => Finite (- m) e
  end.

Definition nadd (x y : number) : number :=
  match x, y with
  | NaN, _ | _, NaN => NaN
  | Infinity a, Infinity b => if Bool.eqb a b then Infinity a else NaN
  | Infinity a, Finite _ _ => Infinity a
  | Finite _ _, Infinity b => Infinity b
  | Finite m e, Finite n f =>
      if N.eqb e f then Finite (m + n) e
      else Finite (m * pow2 f + n * pow2 e) (e + f)
  end.

Definition nsub (x y : number) : number := nadd x (nneg y).

Definition nmul (x y : number) : number :=
  match x, y with
  | NaN, _ | _, NaN => NaN
  | Infinity a, Infinity b => Infinity (xorb a b)
  | Infinity a, Finite m _ | Finite m _, Infinity a =>
      if m =? 0 then NaN else Infinity (xorb a (m <? 0))
  | Finite m e, Finite n f => Finite (m * n) (e + f)
  end.

(** [Math.floor] and [Math.ceil] *)
Definition nfloor (x : number) : number :=
  match x with Finite m e => num (m / pow2 e) | _ => x end.
Definition nceil (x : number) : number :=
  match x with Finite m e => num (- ((- m) / pow2 e)) | _ => x end.

(** [Math.floor(x / d)] and [Math.ceil(x / d)] for a positive integer literal [d]. *)
Definition nfloor_div (x : number) (d : Z) : number :=
  match x with Finite m e => num (m / (pow2 e * d)) | _ => x end.
Definition nceil_div (x : number) (d : Z) : number :=
  match x with Finite m e => num (- ((- m) / (pow2 e * d))) | _ => x end.

(** [Math.round(x / d)]: ties go up. *)
Definition nround_div (x : number) (d : Z) : number :=
  nfloor_div (nadd (nmul (num 2) x) (num d)) (2 * d).

(** [xs.reduce((a, p) => a + p.amount, 0)] on a list of amounts. *)
Definition nsum (l : list number) : number := fold_left nadd l (num 0).

(** The representation in lowest terms: equal numbers become equal terms, which
    is how a [Map] compares number keys. *)
Fixpoint halve (m : Z) (e : nat) : number :=
  match e with
  | O => Finite m 0
  | S e' => if Z.even m then halve (m / 2) e' else Finite m (N.of_nat e)
  end.
Definition ncanon (x : number) : number :=
  match x with Finite m e => halve m (N.to_nat e) | _ => x end.

Notation "x <ₙ y" := (nlt x y) (at level 70, no associativity) : js_scope.
Notation "x >ₙ y" := (ngt x y) (at level 70, no associativity) : js_scope.
Notation "x ≤ₙ y" := (nle x y) (at level 70, no associativity) : js_scope.
Notation "x ≥ₙ y" := (nge x y) (at level 70, no associativity) : js_scope.
Notation "x =ₙ y" := (neqn x y) (at level 70, no associativity) : js_scope.

(** ** Lemmas *)

Lemma pow2_pos e : 0 < pow2 e.
Proof. unfold pow2. apply Z.pow_pos_nonneg; lia. Qed.

Lemma nlt_num a b : (num a <ₙ num b) = (a <? b).
Proof. unfold nlt, ncompare, num, pow2. simpl. rewrite !Z.mul_1_r. unfold Z.ltb. by destruct (a ?= b). Qed.

Lemma ngt_num a b : (num a >ₙ num b) = (b <? a).
Proof.
  unfold ngt, ncompare, num, pow2. simpl. rewrite !Z.mul_1_r. unfold Z.ltb.
  rewrite (Z.compare_antisym a b). by destruct (a ?= b).
Qed.

Lemma nle_num a b : (num a ≤ₙ num b) = (a <=? b).
Proof. unfold nle, ncompare, num, pow2. simpl. rewrite !Z.mul_1_r. unfold Z.leb. by destruct (a ?= b). Qed.

Lemma nge_num a b : (num a ≥ₙ num b) = (b <=? a).
Proof.
  unfold nge, ncompare, num, pow2. simpl. rewrite !Z.mul_1_r. unfold Z.leb.
  rewrite (Z.compare_antisym a b). by destruct (a ?= b).
Qed.

Lemma neqn_num a b : (num a =ₙ num b) = (a =? b).
Proof.
  unfold neqn, ncompare, num, pow2. simpl. rewrite !Z.mul_1_r.
  destruct (Z.compare_spec a b), (Z.eqb_spec a b); lia || done.
Qed.

Lemma nadd_num a b : nadd (num a) (num b) = num (a + b).
Proof. done. Qed.

Lemma nsub_num a b : nsub (num a) (num b) = num (a - b).
Proof. done. Qed.

Lemma nfloor_div_num a d : nfloor_div (num a) d = num (a / d).
Proof. unfold nfloor_div, num, pow2. by rewrite Z.pow_0_r, Z.mul_1_l. Qed.

Lemma isInteger_num a : isInteger (num a) = true.
Proof. unfold isInteger, num, pow2. simpl. by rewrite Z.mod_1_r. Qed.

Lemma isInteger_isFinite x : isInteger x = true -> isFinite x = true.
Proof. by destruct x. Qed.

Lemma ncompare_finite_trans x y z :
  isFinite x = true -> isFinite y = true -> isFinite z = true ->
  (x <ₙ y) = false -> (y <ₙ z) = false -> (x <ₙ z) = false.
Proof.
  destruct x as [| |m e], y as [| |n f], z as [| |p g]; try done; intros _ _ _.
  unfold nlt, ncompare.
  pose proof (pow2_pos e). pose proof (pow2_pos f). pose proof (pow2_pos g).
  destruct (Z.compare_spec (m * pow2 f) (n * pow2 e)); try done;
  destruct (Z.compare_spec (n * pow2 g) (p * pow2 f)); try done;
  destruct (Z.compare_spec (m * pow2 g) (p * pow2 e)); try done; intros; exfalso; nia.
Qed.

Lemma nlt_asym x y : (x <ₙ y) = true -> (y <ₙ x) = false.
Proof.
  destruct x as [|[]|m e], y as [|[]|n f]; try done. unfold nlt, ncompare.
  rewrite (Z.compare_antisym (m * pow2 f)). by destruct (m * pow2 f ?= n * pow2 e).
Qed.

Lemma nlt_irrefl x : (x <ₙ x) = false.
Proof. destruct x as [|[]|m e]; try done. unfold nlt, ncompare. by rewrite Z.compare_refl. Qed.

Lemma neqn_refl x : isFinite x = true -> (x =ₙ x) = true.
Proof. destruct x as [|[]|m e]; try done. intros _. unfold neqn, ncompare. by rewrite Z.compare_refl. Qed.

(** On integers a sum folds as on [Z]. *)
Lemma nsum_num (l : list Z) : nsum (num <$> l) = num (foldr Z.add 0 l).
Proof.
  unfold nsum.
  assert (H : forall acc, fold_left nadd (num <$> l) (num acc) = num (acc + foldr Z.add 0 l)).
  { induction l as [|x l IH]; intros acc; rewrite ?fmap_cons; cbn [fold_left foldr].
    - simpl. by rewrite Z.add_0_r.
    - rewrite nadd_num, IH. f_equal. lia. }
  apply H.
Qed.

#[export] Hint Rewrite nlt_num ngt_num nle_num nge_num neqn_num nadd_num nsub_num
  nfloor_div_num isInteger_num : js_num.

Ltac num_norm := autorewrite with js_num in *.
