(* ===== verification/JsMap.v ===== *)
(** * The JavaScript [Map]

    An insertion-ordered map: [set] on a present key keeps its position, [set]
    on a fresh key appends, iteration follows insertion order.  The order is
    observable through [values()], the eviction loops and [keys().next()], so
    the model keeps it; [jm_to_gmap] is the abstraction to a finite map, and
    every operation is a refinement of the finite-map operation. *)

From S2P Require Import Prelude.

(** The entries of a [Map] in insertion order. *)
Notation jsmap K V := (list (K * V)) (only parsing).

Section jsmap.
Context {K V : Type} `{EqDecision K}.

Definition jm_empty : jsmap K V := [].

Fixpoint jm_get (k : K) (m : jsmap K V) : option V :=
  match m with
  | [] => None
  | (k', v) :: m' => if bool_decide (k = k') then Some v else jm_get k m'
  end.

Definition jm_has (k : K) (m : jsmap K V) : bool :=
  match jm_get k m with Some _ => true | None => false end.

Fixpoint jm_set (k : K) (v : V) (m : jsmap K V) : jsmap K V :=
  match m with
  | [] => [(k, v)]
  | (k', v') :: m' =>
      if bool_decide (k = k') then (k', v) :: m' else (k', v') :: jm_set k v m'
  end.

Definition jm_delete (k : K) (m : jsmap K V) : jsmap K V :=
  filter (fun kv => kv.1 <> k) m.

Definition jm_keys (m : jsmap K V) : list K := m.*1.
Definition jm_values (m : jsmap K V) : list V := m.*2.
Definition jm_size (m : jsmap K V) : nat := length m.

(** Keys of a [Map] are unique. *)
Definition jm_wf (m : jsmap K V) : Prop := NoDup (jm_keys m).

Lemma jm_get_set k j v m :
  jm_get j (jm_set k v m) = if bool_decide (j = k) then Some v else jm_get j m.
Proof.
  induction m as [|[k' v'] m IH]; simpl.
  - done.
  - repeat case_bool_decide; simplify_eq/=; repeat case_bool_decide; naive_solver.
Qed.

Lemma jm_has_set k j v m : jm_has j (jm_set k v m) = bool_decide (j = k) || jm_has j m.
Proof. unfold jm_has. rewrite jm_get_set. by case_bool_decide. Qed.

Lemma jm_get_set_eq k v m : jm_get k (jm_set k v m) = Some v.
Proof. rewrite jm_get_set. by case_bool_decide. Qed.

Lemma jm_get_set_ne k j v m : j <> k -> jm_get j (jm_set k v m) = jm_get j m.
Proof. intros. rewrite jm_get_set. by case_bool_decide. Qed.

Lemma jm_delete_cons k k' v m :
  jm_delete k ((k', v) :: m) =
  if bool_decide (k' = k) then jm_delete k m else (k', v) :: jm_delete k m.
Proof.
  unfold jm_delete. rewrite filter_cons. case_decide; case_bool_decide; done.
Qed.

Lemma jm_get_delete k j m :
  jm_get j (jm_delete k m) = if bool_decide (j = k) then None else jm_get j m.
Proof.
  induction m as [|[k' v'] m IH].
  - simpl. by case_bool_decide.
  - rewrite jm_delete_cons. repeat (case_bool_decide; simplify_eq/=); done.
Qed.

Lemma jm_delete_absent k m : k ∉ jm_keys m -> jm_delete k m = m.
Proof.
  induction m as [|[k' v] m IH]; [done|]. simpl. intros [Hne Hk]%not_elem_of_cons.
  rewrite jm_delete_cons, bool_decide_false by done. by rewrite IH.
Qed.

(** Setting or deleting a key in the middle of a map with unique keys. *)
Lemma jm_set_middle m1 m2 k v v' :
  k ∉ jm_keys m1 -> jm_set k v' (m1 ++ (k, v) :: m2) = m1 ++ (k, v') :: m2.
Proof.
  induction m1 as [|[k1 v1] m1 IH]; simpl; intros Hk; [by rewrite bool_decide_true|].
  apply not_elem_of_cons in Hk as [Hne Hk]. rewrite bool_decide_false by done. by rewrite IH.
Qed.

Lemma jm_delete_middle m1 m2 k v :
  jm_wf (m1 ++ (k, v) :: m2) -> jm_delete k (m1 ++ (k, v) :: m2) = m1 ++ m2.
Proof.
  unfold jm_wf, jm_keys. rewrite fmap_app, fmap_cons, NoDup_app, NoDup_cons. simpl. intros (_ & H1 & H2 & _).
  unfold jm_delete. rewrite filter_app. fold (jm_delete k m1). fold (jm_delete k ((k, v) :: m2)).
  rewrite jm_delete_cons, bool_decide_true by done.
  rewrite !jm_delete_absent; [done|done|]. intros Hin. apply (H1 k Hin). left.
Qed.

Lemma jm_get_Some_in k v m : jm_get k m = Some v -> (k, v) ∈ m.
Proof.
  induction m as [|[k' v'] m IH]; simpl; [done|].
  case_bool_decide; intros; simplify_eq.
  - left.
  - right. auto.
Qed.

Lemma jm_get_in k v m : jm_wf m -> jm_get k m = Some v <-> (k, v) ∈ m.
Proof.
  intros Hwf. split; [apply jm_get_Some_in|].
  induction m as [|[k' v'] m IH]; simpl.
  - by intros ?%not_elem_of_nil.
  - apply NoDup_cons in Hwf as [Hni Hwf]. fold (jm_keys m) in Hni.
    rewrite elem_of_cons. case_bool_decide as Hk.
    + subst. intros [?|Hin]; [naive_solver|].
      exfalso. apply Hni. apply list_elem_of_fmap. by exists (k', v).
    + intros [?|?]; [naive_solver|]. by apply IH.
Qed.

Lemma jm_get_values k v m : jm_get k m = Some v -> v ∈ jm_values m.
Proof.
  intros H%jm_get_Some_in. apply list_elem_of_fmap. by exists (k, v).
Qed.

Lemma jm_get_None k m : jm_get k m = None <-> k ∉ jm_keys m.
Proof.
  induction m as [|[k' v'] m IH]; simpl.
  - split; [intros _ ?%not_elem_of_nil|]; done.
  - rewrite not_elem_of_cons. case_bool_decide; naive_solver.
Qed.

Lemma jm_keys_set k v m :
  jm_keys (jm_set k v m) = if jm_has k m then jm_keys m else jm_keys m ++ [k].
Proof.
  unfold jm_has. induction m as [|[k' v'] m IH]; simpl; [done|].
  case_bool_decide; simpl; [done|]. rewrite IH. by destruct (jm_get k m).
Qed.

Lemma jm_wf_set k v m : jm_wf m -> jm_wf (jm_set k v m).
Proof.
  unfold jm_wf. rewrite jm_keys_set. unfold jm_has.
  destruct (jm_get k m) eqn:E; [done|]. intros. apply NoDup_app.
  split_and!; [done| |apply NoDup_singleton].
  intros x Hx Hk%list_elem_of_singleton. subst. by apply jm_get_None in E.
Qed.

Lemma jm_wf_delete k m : jm_wf m -> jm_wf (jm_delete k m).
Proof.
  unfold jm_wf, jm_keys, jm_delete. intros Hwf.
  eapply sublist_NoDup; [done|]. apply fmap_sublist, sublist_filter.
Qed.

Lemma jm_wf_empty : jm_wf jm_empty.
Proof. apply NoDup_nil_2. Qed.

Lemma jm_size_set k v m :
  jm_size (jm_set k v m) = if jm_has k m then jm_size m else S (jm_size m).
Proof.
  unfold jm_size, jm_has. induction m as [|[k' v'] m IH]; simpl; [done|].
  case_bool_decide; simpl; [done|]. rewrite IH. by destruct (jm_get k m).
Qed.

Lemma jm_delete_size_le k m : (jm_size (jm_delete k m) <= jm_size m)%nat.
Proof. apply filter_length_le. Qed.

(** Values as multisets: setting adds at most the new value, deleting a
    present key removes its value. *)
Lemma jm_values_set k v m : jm_values (jm_set k v m) ⊆+ v :: jm_values m.
Proof.
  induction m as [|[k' v'] m IH]; simpl; [done|]. case_bool_decide; simpl.
  - apply submseteq_skip, submseteq_cons. done.
  - etrans; [apply submseteq_skip, IH|]. apply submseteq_swap.
Qed.

Lemma jm_values_delete k v m : jm_get k m = Some v -> v :: jm_values (jm_delete k m) ⊆+ jm_values m.
Proof.
  induction m as [|[k' v'] m IH]; simpl; [done|]. rewrite jm_delete_cons. case_bool_decide as Hk.
  - intros ?; simplify_eq. rewrite bool_decide_true by done. apply submseteq_skip.
    apply sublist_submseteq. unfold jm_values, jm_delete. apply fmap_sublist, sublist_filter.
  - intros Hm. rewrite bool_decide_false by congruence. simpl.
    etrans; [apply submseteq_swap|]. by apply submseteq_skip, IH.
Qed.

(** Deleting the key at the front removes exactly the front entry. *)
Lemma jm_delete_head k v m : jm_wf ((k, v) :: m) -> jm_delete k ((k, v) :: m) = m.
Proof.
  intros Hwf. apply NoDup_cons in Hwf as [Hni _]. rewrite jm_delete_cons.
  rewrite bool_decide_true by done.
  induction m as [|[k' v'] m IH]; [done|].
  apply not_elem_of_cons in Hni as [? ?].
  rewrite jm_delete_cons, bool_decide_false by done. f_equal. by apply IH.
Qed.
End jsmap.

(** ** Refinement of finite maps *)
Section refinement.
Context {K V : Type} `{Countable K}.

Fixpoint jm_to_gmap (m : jsmap K V) : gmap K V :=
  match m with [] => ∅ | (k, v) :: m' => <[k := v]> (jm_to_gmap m') end.

Lemma jm_get_refines k (m : jsmap K V) : jm_to_gmap m !! k = jm_get k m.
Proof.
  induction m as [|[k' v'] m IH]; simpl; [done|].
  rewrite lookup_insert. case_decide; case_bool_decide; naive_solver.
Qed.

Lemma jm_set_refines k v (m : jsmap K V) :
  jm_to_gmap (jm_set k v m) = <[k := v]> (jm_to_gmap m).
Proof.
  apply map_eq; intros j. rewrite jm_get_refines, jm_get_set, lookup_insert, jm_get_refines.
  case_bool_decide; case_decide; naive_solver.
Qed.

Lemma jm_delete_refines k (m : jsmap K V) :
  jm_to_gmap (jm_delete k m) = delete k (jm_to_gmap m).
Proof.
  apply map_eq; intros j. rewrite jm_get_refines, jm_get_delete, lookup_delete, jm_get_refines.
  case_bool_decide; case_decide; naive_solver.
Qed.

Lemma jm_size_refines (m : jsmap K V) : jm_wf m -> size (jm_to_gmap m) = jm_size m.
Proof.
  induction m as [|[k v] m IH]; simpl; intros Hwf; [apply map_size_empty|].
  apply NoDup_cons in Hwf as [Hni Hwf]. rewrite map_size_insert_None.
  - by rewrite IH.
  - rewrite jm_get_refines. by apply jm_get_None.
Qed.
End refinement.

#[export] Hint Resolve jm_wf_set jm_wf_delete jm_wf_empty jm_get_set_eq : anchr.
#[export] Hint Rewrite @jm_get_set @jm_get_delete : jsmap.
