(* ===== verification/JsString.v ===== *)
(** * JavaScript strings

    Strings are sequences of code units; the model keeps the Latin-1 range
    (every string the protocol inspects - keys, hashes, tags, URLs, statuses -
    is ASCII).  The operations are those the source calls. *)

From S2P Require Import Prelude JsNum.
From stdpp Require Export pretty.

Definition chars (s : string) : list Ascii.ascii := String.list_ascii_of_string s.
Definition of_chars (l : list Ascii.ascii) : string := String.string_of_list_ascii l.

Lemma of_chars_chars s : of_chars (chars s) = s.
Proof. apply String.string_of_list_ascii_of_string. Qed.

Lemma chars_of_chars l : chars (of_chars l) = l.
Proof. apply String.list_ascii_of_string_of_list_ascii. Qed.

Definition code (c : Ascii.ascii) : nat := Ascii.nat_of_ascii c.

(** White space removed by [trim]: TAB..CR, SPACE, NBSP. *)
Definition is_space (c : Ascii.ascii) : bool :=
  let n := code c in
  (Nat.leb 9 n && Nat.leb n 13) || Nat.eqb n 32 || Nat.eqb n 160.

Fixpoint drop_space (l : list Ascii.ascii) : list Ascii.ascii :=
  match l with
  | [] => []
  | c :: l' => if is_space c then drop_space l' else l
  end.

Definition trim (s : string) : string :=
  of_chars (rev (drop_space (rev (drop_space (chars s))))).

(** [s.trim().length === 0] *)
Definition is_blank (s : string) : bool := forallb is_space (chars s).

Definition startsWith (p s : string) : bool := String.prefix p s.

(** [s.slice(n)] *)
Fixpoint slice (n : nat) (s : string) : string :=
  match n, s with
  | O, _ => s
  | S n', String.String _ s' => slice n' s'
  | S _, String.EmptyString => String.EmptyString
  end.

(** [s.includes(sub)] *)
Fixpoint includes (sub s : string) : bool :=
  String.prefix sub s ||
  match s with String.String _ s' => includes sub s' | String.EmptyString => false end.

Definition lower_char (c : Ascii.ascii) : Ascii.ascii :=
  let n := code c in
  if Nat.leb 65 n && Nat.leb n 90 then Ascii.ascii_of_nat (n + 32) else c.

Fixpoint toLowerCase (s : string) : string :=
  match s with
  | String.EmptyString => String.EmptyString
  | String.String c s' => String.String (lower_char c) (toLowerCase s')
  end.

Definition is_hex_char (c : Ascii.ascii) : bool :=
  let n := code c in
  (Nat.leb 48 n && Nat.leb n 57) || (Nat.leb 65 n && Nat.leb n 70) ||
  (Nat.leb 97 n && Nat.leb n 102).

(** The test [/^[0-9a-fA-F]{64}$/]. *)
Definition is_hex64 (s : string) : bool :=
  Nat.eqb (String.length s) 64 && forallb is_hex_char (chars s).

(** [s.padStart(n, "0")] *)
Definition padStart0 (n : nat) (s : string) : string :=
  of_chars (repeat (Ascii.ascii_of_nat 48) (n - String.length s) ++ chars s).

Definition strip_trailing_zeros (s : string) : string :=
  of_chars (rev ((fix go l := match l with
                              | [] => []
                              | c :: l' => if Nat.eqb (code c) 48 then go l' else l
                              end) (rev (chars s)))).

(** ** Lemmas *)

Lemma chars_app s t : chars (s +:+ t) = chars s ++ chars t.
Proof. induction s as [|c s IH]; [done|]. simpl. by rewrite IH. Qed.

Lemma toLowerCase_length s : String.length (toLowerCase s) = String.length s.
Proof. induction s as [|c s IH]; simpl; [done|]. by rewrite IH. Qed.

Lemma lower_char_idem c : lower_char (lower_char c) = lower_char c.
Proof. destruct c as [[] [] [] [] [] [] [] []]; vm_compute; reflexivity. Qed.

Lemma toLowerCase_idem s : toLowerCase (toLowerCase s) = toLowerCase s.
Proof. induction s as [|c s IH]; simpl; [done|]. by rewrite lower_char_idem, IH. Qed.

Lemma lower_char_hex c : is_hex_char c = true -> is_hex_char (lower_char c) = true.
Proof. destruct c as [[] [] [] [] [] [] [] []]; vm_compute; congruence. Qed.

Lemma is_hex64_lower s : is_hex64 s = true -> is_hex64 (toLowerCase s) = true.
Proof.
  unfold is_hex64. rewrite toLowerCase_length, !andb_true_iff. intros [-> H]. split; [done|].
  clear -H. induction s as [|c s IH]; [done|]. simpl in *.
  apply andb_true_iff in H as [H1 H2]. rewrite lower_char_hex by done. by apply IH.
Qed.

Lemma drop_space_blank l : forallb is_space l = true -> drop_space l = [].
Proof. induction l as [|c l IH]; simpl; [done|]. destruct (is_space c); [|done]. apply IH. Qed.

Lemma drop_space_nil l : drop_space l = [] -> forallb is_space l = true.
Proof. induction l as [|c l IH]; simpl; [done|]. by destruct (is_space c). Qed.

Lemma drop_space_head l c l' : drop_space l = c :: l' -> is_space c = false.
Proof.
  induction l as [|d l IH]; simpl; [done|].
  destruct (is_space d) eqn:E; [done|]. intros ?. by simplify_eq.
Qed.

(** [is_blank] is the emptiness of the trimmed string. *)
Lemma is_blank_trim s : is_blank s = true <-> trim s = "".
Proof.
  unfold is_blank, trim. split.
  - intros H. by rewrite (drop_space_blank _ H).
  - intros H. apply drop_space_nil.
    destruct (drop_space (chars s)) as [|c l] eqn:E; [done|]. exfalso.
    apply drop_space_head in E.
    assert (Hn : drop_space (rev (c :: l)) = []).
    { destruct (drop_space (rev (c :: l))) as [|d l'] eqn:F; [done|].
      simpl in H. unfold of_chars in H.
      apply (f_equal String.list_ascii_of_string) in H.
      rewrite String.list_ascii_of_string_of_list_ascii in H.
      by apply (f_equal length) in H; rewrite length_app in H; simpl in H; lia. }
    apply drop_space_nil in Hn. simpl in Hn. rewrite forallb_app in Hn.
    simpl in Hn. rewrite E in Hn. by rewrite andb_false_r in Hn.
Qed.

Lemma is_blank_empty : is_blank "" = true.
Proof. done. Qed.

(** [new TextEncoder().encode(s)]: strings are kept as their UTF-8 bytes. *)
Definition utf8 (s : string) : list Z := (fun c => Z.of_nat (code c)) <$> chars s.

(** [s.toUpperCase()] on ASCII letters. *)
Definition upper_char (c : Ascii.ascii) : Ascii.ascii :=
  if (Nat.leb 97 (code c) && Nat.leb (code c) 122)%bool
  then Ascii.ascii_of_nat (code c - 32) else c.
Definition toUpperCase (s : string) : string := of_chars (upper_char <$> chars s).

(** [btoa] of a byte string: base64 with padding. *)
Definition b64_alphabet := "ABCDEFGHIJKLMNOPQRSTUVWXYZabcdefghijklmnopqrstuvwxyz0123456789+/".
Definition b64_char (n : Z) : Ascii.ascii :=
  match String.get (Z.to_nat n) b64_alphabet with Some c => c | None => Ascii.ascii_of_nat 61 end.
Definition b64_pad : Ascii.ascii := Ascii.ascii_of_nat 61.

Fixpoint b64_chars (l : list Z) : list Ascii.ascii :=
  match l with
  | a :: b :: c :: l' =>
      [b64_char (a / 4); b64_char ((a mod 4) * 16 + b / 16); b64_char ((b mod 16) * 4 + c / 64);
       b64_char (c mod 64)] ++ b64_chars l'
  | [a; b] => [b64_char (a / 4); b64_char ((a mod 4) * 16 + b / 16); b64_char ((b mod 16) * 4); b64_pad]
  | [a] => [b64_char (a / 4); b64_char ((a mod 4) * 16); b64_pad; b64_pad]
  | [] => []
  end%Z.
Definition btoa (l : list Z) : string := of_chars (b64_chars l).

Example btoa_ex : btoa [77; 97; 110; 77]%Z = "TWFuTQ==".
Proof. reflexivity. Qed.

(** ** [Number(s)]

    Decimal literals are rounded to the nearest double (53 significant bits,
    ties to even; the exponent range is not bounded). *)
Fixpoint digits_value (base : Z) (digit : Ascii.ascii -> option Z) (acc : Z) (l : list Ascii.ascii) : option Z :=
  match l with
  | [] => Some acc
  | c :: l' => match digit c with
               | Some d => if (d <? base)%Z then digits_value base digit (base * acc + d)%Z l' else None
               | None => None
               end
  end.

Definition digit_of (c : Ascii.ascii) : option Z :=
  let n := Z.of_nat (code c) in
  (if (48 <=? n) && (n <=? 57) then Some (n - 48)
   else if (65 <=? n) && (n <=? 90) then Some (n - 55)
   else if (97 <=? n) && (n <=? 122) then Some (n - 87)
   else None)%Z.

Definition is_decimal (c : Ascii.ascii) : bool := Nat.leb 48 (code c) && Nat.leb (code c) 57.

(** The longest prefix of decimal digits. *)
Fixpoint take_decimal (l : list Ascii.ascii) : list Ascii.ascii * list Ascii.ascii :=
  match l with
  | c :: l' => if is_decimal c then let '(a, b) := take_decimal l' in (c :: a, b) else ([], l)
  | [] => ([], [])
  end.

Definition decimal_value (l : list Ascii.ascii) : Z := opt_default 0%Z (digits_value 10 digit_of 0 l).

(** [n / d] for positive [d], rounded to a double. *)
Definition round_ratio (n d : Z) : number :=
  if (n =? 0)%Z then num 0 else
  let s := (53 - (Z.log2 n - Z.log2 d))%Z in
  let n' := if (0 <=? s)%Z then (n * 2 ^ s)%Z else n in
  let d' := if (0 <=? s)%Z then d else (d * 2 ^ (- s))%Z in
  let q0 := (n' / d')%Z in
  let extra := (if 2 ^ 53 <=? q0 then 2 ^ (Z.log2 q0 - 52) else 1)%Z in
  let q := ((n' / (d' * extra)))%Z in
  let r := (n' - q * (d' * extra))%Z in
  let up := (if 2 * r <? d' * extra then 0 else if d' * extra <? 2 * r then 1 else q mod 2)%Z in
  let m := ((q + up) * extra)%Z in
  if (0 <=? s)%Z then ncanon (Finite m (Z.to_N s)) else num (m * 2 ^ (- s))%Z.

Definition scaled (m k : Z) : number :=
  if (0 <=? k)%Z then round_ratio (m * 10 ^ k) 1 else round_ratio m (10 ^ (- k)).

(** [e[+-]digits], at the end of a decimal literal. *)
Definition exponent_value (l : list Ascii.ascii) : option Z :=
  match l with
  | [] => Some 0%Z
  | c :: l' =>
      if negb (Nat.eqb (code c) 101 || Nat.eqb (code c) 69) then None
      else
        let '(sign, ds) := match l' with
                           | d :: l'' => if Nat.eqb (code d) 45 then ((-1)%Z, l'')
                                         else if Nat.eqb (code d) 43 then (1%Z, l'') else (1%Z, l')
                           | [] => (1%Z, [])
                           end in
        match take_decimal ds with
        | ((_ :: _) as e, []) => Some (sign * decimal_value e)%Z
        | _ => None
        end
  end.

Definition unsigned_decimal (l : list Ascii.ascii) : number :=
  if of_chars l === "Infinity" then Infinity false
  else
    let '(int, rest) := take_decimal l in
    let '(frac, rest') := match rest with
                          | c :: r => if Nat.eqb (code c) 46 then take_decimal r else ([], rest)
                          | [] => ([], [])
                          end in
    match int ++ frac, exponent_value rest' with
    | (_ :: _) as ds, Some e => scaled (decimal_value ds) (e - Z.of_nat (length frac))
    | _, _ => NaN
    end.

Definition js_Number (s : string) : number :=
  let l := chars (trim s) in
  let radix b ds := match ds with
                    | [] => NaN
                    | _ => match digits_value b digit_of 0 ds with Some z => round_ratio z 1 | None => NaN end
                    end in
  match l with
  | [] => num 0
  | z :: x :: ds =>
      if Nat.eqb (code z) 48 && (Nat.eqb (code x) 120 || Nat.eqb (code x) 88) then radix 16%Z ds
      else if Nat.eqb (code z) 48 && (Nat.eqb (code x) 111 || Nat.eqb (code x) 79) then radix 8%Z ds
      else if Nat.eqb (code z) 48 && (Nat.eqb (code x) 98 || Nat.eqb (code x) 66) then radix 2%Z ds
      else if Nat.eqb (code z) 45 then nneg (unsigned_decimal (x :: ds))
      else if Nat.eqb (code z) 43 then unsigned_decimal (x :: ds)
      else unsigned_decimal l
  | _ => unsigned_decimal l
  end.

Example js_Number_ex :
  map js_Number ["12"; " 0x1F "; "-3"; "2.5"; ""; "1e3"; "1a"; "."; "Infinity"; "9007199254740993"] =
  [num 12; num 31; num (-3); Finite 5 1; num 0; num 1000; NaN; NaN; Infinity false; num 9007199254740992].
Proof. vm_compute. reflexivity. Qed.

(** 0.1 is the double 3602879701896397 / 2^55. *)
Example js_Number_tenth : js_Number "0.1" = Finite 3602879701896397 55.
Proof. vm_compute. reflexivity. Qed.

(** [s.slice(0, n)] *)
Definition slice0 (n : nat) (s : string) : string := String.substring 0 n s.

(** ** [String(n)]

    The shortest decimal that reads back as the same double, laid out as the
    language specifies; a value that is no double keeps its exact expansion. *)
Definition exact_decimal (a : Z) (e : N) : string :=
  let frac := strip_trailing_zeros
                (padStart0 (N.to_nat e) (pretty ((a mod pow2 e) * 5 ^ Z.of_N e)%Z)) in
  pretty (a / pow2 e)%Z +:+ (if frac === "" then "" else "." +:+ frac).

(** [j] with [10^-j <= a / 2^e], at most [fuel] of them tried. *)
Fixpoint leading_zeros (fuel : nat) (a d : Z) : Z :=
  match fuel with
  | O => 0
  | S fuel' => if (d <=? a)%Z then 0 else 1 + leading_zeros fuel' (10 * a) d
  end%Z.

(** The position [n] of the decimal point: [10^(n-1) <= a / 2^e < 10^n]. *)
Definition point_position (a : Z) (e : N) : Z :=
  let int := (a / pow2 e)%Z in
  if (0 <? int)%Z then Z.of_nat (String.length (pretty int))
  else (1 - leading_zeros (N.to_nat e) a (pow2 e))%Z.

(** The nearest [k]-digit decimal [s * 10^(n-k)]. *)
Definition nearest_digits (a : Z) (e : N) (n k : Z) : Z :=
  (let p := k - n in
   let num := if 0 <=? p then a * 10 ^ p else a in
   let den := if 0 <=? p then pow2 e else pow2 e * 10 ^ (- p) in
   (2 * num + den) / (2 * den))%Z.

Fixpoint shortest_digits (fuel : nat) (a : Z) (e : N) (n k : Z) : option (Z * Z) :=
  match fuel with
  | O => None
  | S fuel' =>
      let s := nearest_digits a e n k in
      if bool_decide (ncanon (scaled s (n - k)) = ncanon (Finite a e))
      then Some (if (s =? 10 ^ k)%Z then (1, n + 1)%Z else (s, n))
      else shortest_digits fuel' a e n (k + 1)%Z
  end.

Definition zeros (n : Z) : string := of_chars (repeat (Ascii.ascii_of_nat 48) (Z.to_nat n)).

Definition layout_digits (d : string) (n : Z) : string :=
  let k := Z.of_nat (String.length d) in
  (if (k <=? n) && (n <=? 21) then d +:+ zeros (n - k)
   else if (0 <? n) && (n <=? 21) then slice0 (Z.to_nat n) d +:+ "." +:+ slice (Z.to_nat n) d
   else if (-6 <? n) && (n <=? 0) then "0." +:+ zeros (- n) +:+ d
   else
     let exp := (if 0 <=? n - 1 then "+" else "-") +:+ pretty (Z.abs (n - 1)) in
     slice0 1 d +:+ (if k =? 1 then "" else "." +:+ slice 1 d) +:+ "e" +:+ exp)%Z.

Definition positive_to_string (a : Z) (e : N) : string :=
  if (N.eqb e 0 && (a <? 2 ^ 53)%Z)%bool then pretty a
  else
    match shortest_digits 17 a e (point_position a e) 1 with
    | Some (s, n) => layout_digits (pretty s) n
    | None => exact_decimal a e
    end.

Definition number_to_string (n : number) : string :=
  match n with
  | NaN => "NaN"
  | Infinity true => "-Infinity"
  | Infinity false => "Infinity"
  | Finite m e =>
      if (m =? 0)%Z then "0"
      else (if (m <? 0)%Z then "-" else "") +:+ positive_to_string (Z.abs m) e
  end.

Example number_to_string_ex :
  map number_to_string [num 42; Finite (-5) 3; Finite 33 4; js_Number "0.1"; js_Number "1e21"; js_Number "123e-9";
                        js_Number "0.00001"; num 0; NaN; js_Number "100000000000000000000"; js_Number "4.35"] =
  ["42"; "-0.625"; "2.0625"; "0.1"; "1e+21"; "1.23e-7"; "0.00001"; "0"; "NaN"; "100000000000000000000"; "4.35"].
Proof. vm_compute. reflexivity. Qed.
