(* ===== verification/JsFloat.v ===== *)
(** * Floating-point arithmetic and formatting

    The operations of the language the photo checks use on fractional values:
    the four operations rounded to the nearest double, [Math.round],
    [Number.prototype.toFixed] and [parseFloat].  As elsewhere the exponent
    range of doubles is not bounded and zero has no sign; the approximated
    functions of [Math] are an interface. *)

From S2P Require Import Prelude JsNum JsString.

(** ** Rounded arithmetic *)
Definition fround (x : number) : number :=
  match x with
  | Finite m e => if (m <? 0)%Z then nneg (round_ratio (- m) (pow2 e)) else round_ratio m (pow2 e)
  | _ => x
  end.

Definition fadd (x y : number) : number := fround (nadd x y).
Definition fsub (x y : number) : number := fround (nsub x y).
Definition fmul (x y : number) : number := fround (nmul x y).

Definition fdiv (x y : number) : number :=
  match x, y with
  | NaN, _ | _, NaN | Infinity _, Infinity _ => NaN
  | Infinity a, Finite n _ => Infinity (xorb a (n <? 0)%Z)
  | Finite _ _, Infinity _ => num 0
  | Finite m e, Finite n f =>
      if (n =? 0)%Z then (if (m =? 0)%Z then NaN else Infinity (m <? 0)%Z)
      else
        let q := round_ratio (Z.abs m * pow2 f) (Z.abs n * pow2 e) in
        if xorb (m <? 0)%Z (n <? 0)%Z then nneg q else q
  end.

(** [Math.round], [Math.abs] *)
Definition nround (x : number) : number := nround_div x 1.
Definition nabs (x : number) : number :=
  match x with Finite m e => Finite (Z.abs m) e | Infinity _ => Infinity false | NaN => NaN end.

(** The approximated functions of [Math]; [x ** 2] is [Math_pow x 2]. *)
Class MathApi := {
  Math_sin : number -> number;
  Math_cos : number -> number;
  Math_sqrt : number -> number;
  Math_atan2 : number -> number -> number;
  Math_pow : number -> Z -> number;
}.

(** [Math.PI], the double nearest to pi. *)
Definition Math_PI : number := Finite 884279719003555 48.

(** ** [toFixed]

    The nearest multiple of [10^-f], the larger of two at the same distance. *)
Definition toFixed_abs (f : nat) (m : Z) (e : N) : string :=
  let p := (10 ^ Z.of_nat f)%Z in
  let n := ((2 * m * p + pow2 e) / (2 * pow2 e))%Z in
  match f with
  | 0%nat => pretty n
  | _ => pretty (n / p)%Z +:+ "." +:+ padStart0 f (pretty (n mod p)%Z)
  end.

Definition toFixed (f : nat) (x : number) : string :=
  match x with
  | Finite m e =>
      if (10 ^ 21 * pow2 e <=? Z.abs m)%Z then number_to_string x
      else (if (m <? 0)%Z then "-" else "") +:+ toFixed_abs f (Z.abs m) e
  | _ => number_to_string x
  end.

Example toFixed_ex :
  map (toFixed 1) [js_Number "12.35"; Finite 5 2; num (-3); NaN; js_Number "0.04"; js_Number "1e21"; Finite (-1) 5] =
  ["12.3"; "1.3"; "-3.0"; "NaN"; "0.0"; "1e+21"; "-0.0"].
Proof. vm_compute. reflexivity. Qed.

(** ** [parseFloat]

    The longest prefix of the text, leading white space dropped, that is a
    decimal literal. *)
Definition exponent_prefix (l : list Ascii.ascii) : Z :=
  match l with
  | c :: l' =>
      if negb (Nat.eqb (code c) 101 || Nat.eqb (code c) 69) then 0%Z
      else
        let '(sign, ds) := match l' with
                           | d :: l'' => if Nat.eqb (code d) 45 then ((-1)%Z, l'')
                                         else if Nat.eqb (code d) 43 then (1%Z, l'') else (1%Z, l')
                           | [] => (1%Z, [])
                           end in
        (sign * decimal_value (fst (take_decimal ds)))%Z
  | [] => 0%Z
  end.

Definition unsigned_prefix (l : list Ascii.ascii) : number :=
  if startsWith "Infinity" (of_chars l) then Infinity false
  else
    let '(int, rest) := take_decimal l in
    let '(frac, rest') := match rest with
                          | c :: r => if Nat.eqb (code c) 46 then take_decimal r else ([], rest)
                          | [] => ([], [])
                          end in
    match int ++ frac with
    | [] => NaN
    | ds => scaled (decimal_value ds) (exponent_prefix rest' - Z.of_nat (length frac))
    end.

Definition parseFloat (s : string) : number :=
  match drop_space (chars s) with
  | c :: l => if Nat.eqb (code c) 45 then nneg (unsigned_prefix l)
              else if Nat.eqb (code c) 43 then unsigned_prefix l else unsigned_prefix (c :: l)
  | [] => NaN
  end.

Example parseFloat_ex :
  map parseFloat [" 2.5km"; "-3,4"; "1e3x"; "1e"; "."; ".5"; "5."; "abc"; "-Infinity!"; "+7"] =
  [Finite 5 1; num (-3); num 1000; num 1; NaN; Finite 1 1; num 5; NaN; Infinity true; num 7].
Proof. vm_compute. reflexivity. Qed.

(** ** Signs *)
Lemma nneg_invol x : nneg (nneg x) = x.
Proof. destruct x as [|b|m e]; simpl; f_equal; [apply negb_involutive|lia]. Qed.

Lemma fround_nneg x : fround (nneg x) = nneg (fround x).
Proof.
  destruct x as [| |m e]; [done|done|]. simpl. destruct (Z.ltb_spec m 0), (Z.ltb_spec (- m) 0); try lia.
  - by rewrite nneg_invol.
  - by rewrite Z.opp_involutive.
  - assert (m = 0%Z) as -> by lia. done.
Qed.

Lemma nsub_swap x y : nsub x y = nneg (nsub y x).
Proof.
  unfold nsub. destruct x as [|a|m e], y as [|b|n f]; try done; simpl.
  - by destruct a, b.
  - by rewrite negb_involutive.
  - rewrite N.eqb_sym. destruct (N.eqb_spec f e) as [->|]; simpl; f_equal; lia.
Qed.

Lemma nmul_comm x y : nmul x y = nmul y x.
Proof.
  destruct x as [|a|m e], y as [|b|n f]; try done; simpl; [by rewrite xorb_comm|]. f_equal; lia.
Qed.

Lemma fsub_swap x y : fsub x y = nneg (fsub y x).
Proof. unfold fsub. by rewrite nsub_swap, fround_nneg. Qed.

Lemma nmul_nneg x y : nmul (nneg x) y = nneg (nmul x y).
Proof.
  destruct x as [|a|m e], y as [|b|n f]; try done; simpl.
  - by destruct a, b.
  - destruct (Z.eqb_spec n 0); [done|]. simpl. by destruct a, (n <? 0)%Z.
  - destruct (Z.eqb_spec m 0), (Z.eqb_spec (- m) 0); try lia; [done|]. simpl. f_equal.
    destruct (Z.ltb_spec m 0), (Z.ltb_spec (- m) 0), b; try lia; done.
  - f_equal; lia.
Qed.

Lemma fmul_nneg x y : fmul (nneg x) y = nneg (fmul x y).
Proof. unfold fmul. by rewrite nmul_nneg, fround_nneg. Qed.

Lemma fmul_comm x y : fmul x y = fmul y x.
Proof. unfold fmul. by rewrite nmul_comm. Qed.

Lemma round_ratio_0 d : round_ratio 0 d = num 0.
Proof. done. Qed.

(** Division by a positive number. *)
Lemma fdiv_nneg x n f : (0 < n)%Z -> fdiv (nneg x) (Finite n f) = nneg (fdiv x (Finite n f)).
Proof.
  intros Hn. destruct x as [|a|m e]; simpl; [done| |].
  - by destruct a, (n <? 0)%Z.
  - destruct (Z.eqb_spec n 0); [lia|]. destruct (Z.ltb_spec n 0); [lia|]. rewrite !xorb_false_r, Z.abs_opp.
    destruct (Z.ltb_spec m 0), (Z.ltb_spec (- m) 0); try lia; rewrite ?nneg_invol; try done.
    assert (m = 0%Z) as -> by lia. done.
Qed.
