(* ===== verification/JsValue.v ===== *)
(** * JavaScript values of type [unknown]

    Payload fields the source types as [unknown] or [Record<string, unknown>]:
    the dynamic values with the observations the code makes on them ([typeof],
    property reads, [in], [Array.isArray]), and the interface of the JSON codec
    ([JSON.parse], [JSON.stringify]) with the round-trip law the code relies on. *)

From S2P Require Import Prelude JsNum JsString.

Inductive jsval : Type :=
| VUndef
| VNull
| VBool (b : bool)
| VNum (n : number)
| VStr (s : string)
| VArr (l : list jsval)
| VObj (o : list (string * jsval))
| VFun.

(** ** Observations *)

(** [typeof v === "object" && v !== null]: objects and arrays. *)
Definition isRecord (v : jsval) : bool :=
  match v with VObj _ | VArr _ => true | _ => false end.

Definition isArray (v : jsval) : option (list jsval) :=
  match v with VArr l => Some l | _ => None end.

Fixpoint assoc (k : string) (o : list (string * jsval)) : option jsval :=
  match o with
  | [] => None
  | (k', v) :: o' => if k === k' then Some v else assoc k o'
  end.

(** [v.k] for a named (non-index) property of a non-nullish value, and [v?.k]. *)
Definition prop (k : string) (v : jsval) : jsval :=
  match v with VObj o => opt_default VUndef (assoc k o) | _ => VUndef end.

(** [k in v] *)
Definition has_prop (k : string) (v : jsval) : bool :=
  match v with VObj o => match assoc k o with Some _ => true | None => false end | _ => false end.

(** [v[i]] on an array, [undefined] out of range. *)
Definition index (i : nat) (l : list jsval) : jsval := opt_default VUndef (l !! i).

Definition as_string (v : jsval) : option string :=
  match v with VStr s => Some s | _ => None end.
Definition as_number (v : jsval) : option number :=
  match v with VNum n => Some n | _ => None end.
Definition is_undef (v : jsval) : bool := match v with VUndef => true | _ => false end.
Definition is_fun (v : jsval) : bool := match v with VFun => true | _ => false end.

(** [v === "s"] and [v === n] *)
Definition eq_str (v : jsval) (s : string) : bool :=
  match v with VStr t => t === s | _ => false end.
Definition eq_num (v : jsval) (n : number) : bool :=
  match v with VNum m => m =ₙ n | _ => false end.

Definition is_str (v : jsval) : bool := match v with VStr _ => true | _ => false end.
Definition is_num (v : jsval) : bool := match v with VNum _ => true | _ => false end.

(** An array all of whose entries are strings: [v.every((x) => typeof x === "string")]. *)
Fixpoint all_strings (l : list jsval) : option (list string) :=
  match l with
  | [] => Some []
  | VStr s :: l' => match all_strings l' with Some r => Some (s :: r) | None => None end
  | _ => None
  end.

Definition as_string_array (v : jsval) : option (list string) :=
  match v with VArr l => all_strings l | _ => None end.

(** Truthiness, [x ?? d], and [v[i]] on any value ([None]: a TypeError). *)
Definition js_truthy (v : jsval) : bool :=
  match v with
  | VUndef | VNull => false
  | VBool b => b
  | VNum n => num_truthy n
  | VStr s => str_truthy s
  | VArr _ | VObj _ | VFun => true
  end.

Definition or_default (d x : jsval) : jsval := match x with VUndef | VNull => d | _ => x end.

Definition get_index (i : nat) (v : jsval) : option jsval :=
  match v with
  | VUndef | VNull => None
  | VArr l => Some (index i l)
  | VObj o => Some (opt_default VUndef (assoc (pretty i) o))
  | VStr s => Some match chars s !! i with Some c => VStr (of_chars [c]) | None => VUndef end
  | _ => Some VUndef
  end.

(** [{...v}]: the own enumerable properties of an object or array. *)
Definition own_fields (v : jsval) : list (string * jsval) :=
  match v with
  | VObj o => o
  | VArr l => imap (fun i x => (pretty i, x)) l
  | _ => []
  end.

(** [{...o, k: v}]: an existing key keeps its position. *)
Fixpoint set_field (k : string) (v : jsval) (o : list (string * jsval)) : list (string * jsval) :=
  match o with
  | [] => [(k, v)]
  | (k', v') :: o' => if k === k' then (k, v) :: o' else (k', v') :: set_field k v o'
  end.

(** A value interpolated into a template string. *)
Fixpoint js_string (v : jsval) : string :=
  match v with
  | VUndef => "undefined"
  | VNull => "null"
  | VBool b => if b then "true" else "false"
  | VNum n => number_to_string n
  | VStr s => s
  | VArr l => js_join "," (map (fun x => match x with VUndef | VNull => "" | _ => js_string x end) l)
  | VObj _ => "[object Object]"
  | VFun => "function"
  end.

(** [undefined] stands for an absent optional field. *)
Definition opt_field (v : option jsval) : jsval := opt_default VUndef v.
Definition str_field (s : option string) : jsval :=
  match s with Some x => VStr x | None => VUndef end.

(** ** The JSON codec

    [JSON.stringify] drops properties whose value is [undefined] (or a
    function), writes such array entries and non-finite numbers as [null]. *)
Fixpoint json_norm (v : jsval) : jsval :=
  match v with
  | VNum n => if isFinite n then v else VNull
  | VArr l => VArr (map (fun x => match x with VUndef | VFun => VNull | _ => json_norm x end) l)
  | VObj o =>
      VObj ((fix go (o : list (string * jsval)) : list (string * jsval) :=
               match o with
               | [] => []
               | (k, x) :: o' =>
                   match x with VUndef | VFun => go o' | _ => (k, json_norm x) :: go o' end
               end) o)
  | _ => v
  end.

Class JSON := {
  JSON_parse : string -> option jsval;
  JSON_stringify : jsval -> string;
}.

(** Values that a document carries faithfully.  A double in lowest terms is printed
    and read back as itself.  The keys of an object are distinct, since [JSON.parse]
    keeps the last of equal ones; none is an array index, since those are moved to
    the front of an object; and none is [toJSON], which would be called. *)
Definition json_number (n : number) : bool :=
  match n with
  | Finite m e => bool_decide (ncanon n = n) && (Z.abs m <? 2 ^ 53)%Z && (e <=? 1074)%N
  | _ => true
  end.

Definition digit_char (c : Ascii.ascii) : bool := Nat.leb 48 (code c) && Nat.leb (code c) 57.

(** A decimal of at most ten digits without a leading zero: every array index is one. *)
Definition index_key (k : string) : bool :=
  Nat.leb (String.length k) 10 && forallb digit_char (chars k) &&
  match chars k with [] => false | [_] => true | c :: _ => negb (Nat.eqb (code c) 48) end.

Definition json_keys (keys : list string) : bool :=
  bool_decide (NoDup keys) && forallb (fun k => negb (index_key k) && (k !== "toJSON")) keys.

Fixpoint json_safe (v : jsval) : bool :=
  match v with
  | VNum n => json_number n
  | VArr l => forallb json_safe l
  | VObj o => json_keys (map fst o) && forallb (fun kv => json_safe kv.2) o
  | _ => true
  end.
Definition json_ok (v : jsval) : Prop := json_safe v = true.

(** What the code relies on: a stringified object or array of such values parses
    back to what serialization keeps of it. *)
Class JSONLaws (J : JSON) := {
  parse_stringify v : json_ok v -> isRecord v = true ->
    JSON_parse (JSON_stringify v) = Some (json_norm v);
}.

(** ** Lemmas *)
Definition keep_field (v : jsval) : bool :=
  match v with VUndef | VFun => false | _ => true end.

Lemma json_norm_obj_cons k x o :
  json_norm (VObj ((k, x) :: o)) =
  match json_norm (VObj o) with
  | VObj o' => VObj (if keep_field x then (k, json_norm x) :: o' else o')
  | w => w
  end.
Proof. by destruct x. Qed.

Lemma json_norm_obj_nil : json_norm (VObj []) = VObj [].
Proof. done. Qed.

Lemma all_strings_map (l : list string) : all_strings (VStr <$> l) = Some l.
Proof. induction l as [|s l IH]; [done|]. by rewrite fmap_cons; simpl; rewrite IH. Qed.

Lemma eq_str_true v s : eq_str v s = true <-> v = VStr s.
Proof. destruct v; simpl; try (split; congruence). rewrite bool_decide_eq_true. naive_solver. Qed.
