(* ===== verification/SchemaUri.v ===== *)
(** * Proof Schema URLs

    [packages/protocol/src/schema.ts].  URL parsing is the platform's [URL]
    class, reached through the interface [UrlApi]; the shape rules applied to
    the parsed parts are modelled as the source writes them. *)

From S2P Require Import Prelude JsString.

Record UrlParts := mkUrlParts {
  url_protocol : string;
  url_username : string;
  url_password : string;
  url_hostname : string;
  url_pathname : string;
  url_search : string;
  url_hash : string;
}.

(** [new URL(s)]: [None] when the constructor throws. *)
Class UrlApi := URL_parse : string -> option UrlParts.

Definition is_slug_char (c : Ascii.ascii) : bool :=
  let n := code c in
  (Nat.leb 97 n && Nat.leb n 122) || (Nat.leb 48 n && Nat.leb n 57) || Nat.eqb n 45.

Definition is_digit (c : Ascii.ascii) : bool :=
  let n := code c in Nat.leb 48 n && Nat.leb n 57.

(** Longest prefix whose characters satisfy [p], and the rest: the greedy
    matching of a character class followed by a character outside it. *)
Fixpoint span (p : Ascii.ascii -> bool) (l : list Ascii.ascii)
    : list Ascii.ascii * list Ascii.ascii :=
  match l with
  | [] => ([], [])
  | c :: l' => if p c then let '(a, b) := span p l' in (c :: a, b) else ([], l)
  end.

(** The pattern [/^\/spec\/proof\/[a-z0-9-]+\/v\d+$/]. *)
Definition schema_path_matches (path : string) : bool :=
  startsWith "/spec/proof/" path &&
  match span is_slug_char (chars (slice 12 path)) with
  | ([], _) => false
  | (_, rest) =>
      startsWith "/v" (of_chars rest) &&
      match span is_digit (chars (slice 2 (of_chars rest))) with
      | (_ :: _, []) => true
      | _ => false
      end
  end.

Definition isSchemaUri `{U : UrlApi} (value : string) : bool :=
  match URL_parse value with
  | None => false
  | Some url =>
      (url_protocol url === "https:") &&
      negb ((url_username url !== "") || (url_password url !== "")) &&
      negb ((url_search url !== "") || (url_hash url !== "")) &&
      schema_path_matches (url_pathname url)
  end.

Definition ProofSchema_TlsnV1 := "https://anchr-spec.org/spec/proof/tlsn/v1".
Definition ProofSchema_C2paImageV1 := "https://anchr-spec.org/spec/proof/c2pa-image/v1".

Example schema_path_ex :
  map schema_path_matches
    ["/spec/proof/tlsn/v1"; "/spec/proof/c2pa-image/v12"; "/spec/proof//v1";
     "/spec/proof/TLSN/v1"; "/spec/proof/tlsn/v"; "/spec/proof/tlsn/v1/"; "/spec/proof/tlsn/w1"] =
  [true; true; false; false; false; false; false].
Proof. reflexivity. Qed.
