(* ===== verification/QueryTypes.v ===== *)
(** * Data model of the request lifecycle

    [packages/sdk/src/requests/domain/types.ts], [oracle-types.ts],
    [values.ts] and [proofs/verification/contract.ts]: the Query aggregate and
    the value objects it is made of, field for field. *)

From S2P Require Import Prelude JsNum JsMap JsString JsValue.

(** ** Enumerations *)
Inductive QueryStatus :=
| pending | awaiting_offers | provider_selected | processing | verifying
| approved | rejected | expired.

Inductive PaymentStatus :=
| none | escrow_pending | escrow_locked | escrow_swapped | locked | released | cancelled.

Inductive CustomerType := customer_agent | customer_human | customer_app.
Inductive ExecutorType := exec_human | exec_agent | exec_service.
Inductive SubmissionChannel := channel_adapter.
Inductive PaymentLockType := lock_htlc | lock_p2pk_frost.
Inductive AttachmentStorageKind := storage_blossom | storage_external.

Global Instance QueryStatus_eq_dec : EqDecision QueryStatus.
Proof. solve_decision. Defined.
Global Instance PaymentStatus_eq_dec : EqDecision PaymentStatus.
Proof. solve_decision. Defined.
Global Instance CustomerType_eq_dec : EqDecision CustomerType.
Proof. solve_decision. Defined.
Global Instance ExecutorType_eq_dec : EqDecision ExecutorType.
Proof. solve_decision. Defined.
Global Instance PaymentLockType_eq_dec : EqDecision PaymentLockType.
Proof. solve_decision. Defined.

(** The status literals, as they are interpolated into messages. *)
Definition status_str (s : QueryStatus) : string :=
  match s with
  | pending => "pending"
  | awaiting_offers => "awaiting_offers"
  | provider_selected => "provider_selected"
  | processing => "processing"
  | verifying => "verifying"
  | approved => "approved"
  | rejected => "rejected"
  | expired => "expired"
  end.

(** ** Value objects *)
Record AttachmentRef := mkAttachmentRef {
  att_id : string;
  att_uri : string;
  att_mime_type : string;
  att_storage_kind : AttachmentStorageKind;
  att_filename : option string;
  att_size_bytes : option number;
  att_blossom_hash : option string;
  att_blossom_servers : option (list string);
}.

Record BlossomKeyMaterial := mkBlossomKeyMaterial {
  encrypt_key : string;
  encrypt_iv : string;
}.
Notation BlossomKeyMap := (list (string * BlossomKeyMaterial)) (only parsing).

Record QueryInput := mkQueryInput {
  in_description : string;
  in_schema : option string;
  in_location_hint : option string;
  in_verification_requirements : option (list string);
  in_schema_requirement : option jsval;
}.

Record QueryResult := mkQueryResult {
  res_attachments : list AttachmentRef;
  res_notes : option string;
  res_schema_evidence : option jsval;
}.

Record CustomerMeta := mkCustomerMeta {
  customer_type : CustomerType;
  customer_id : option string;
  client_name : option string;
}.

Record SubmissionMeta := mkSubmissionMeta {
  executor_type : ExecutorType;
  channel : SubmissionChannel;
}.

Record PaymentLockInfo := mkPaymentLockInfo {
  lock_amount_sats : number;
  lock_escrow_token : option string;
}.

(** The escrow union is discriminated by [type]; the settlement key of each
    variant (hash or group key) travels with the discriminant. *)
Inductive EscrowType :=
| htlc (hash : string)
| p2pk_frost (group_pubkey : string).

Record EscrowInfo := mkEscrowInfo {
  esc_type : EscrowType;
  esc_oracle_pubkeys : list string;
  esc_customer_pubkey : string;
  esc_provider_pubkey : option string;
  esc_locktime : number;
  esc_escrow_token : option string;
  esc_verified_sats : option number;
  esc_escrow_ref : option string;
}.

Record OfferInfo := mkOfferInfo {
  off_provider_pubkey : string;
  off_amount_sats : option number;
  off_event_id : string;
  off_received_at : number;
}.

Record QuorumConfig := mkQuorumConfig { min_approvals : number }.

Record VerificationDetail := mkVerificationDetail {
  vd_passed : bool;
  vd_checks : list string;
  vd_failures : list string;
  vd_warnings : option (list string);
  vd_schema_verdict : option jsval;
}.

Record OracleAttestationRecord := mkAttestationRecord {
  rec_oracle_id : string;
  rec_passed : bool;
  rec_checks : list string;
  rec_failures : list string;
  rec_attested_at : number;
  rec_schema_verdict : option jsval;
}.

Record OracleAttestation := mkAttestation {
  oa_oracle_id : string;
  oa_query_id : string;
  oa_passed : bool;
  oa_checks : list string;
  oa_failures : list string;
  oa_attested_at : number;
  oa_schema_verdict : option jsval;
}.

Record OracleInfo := mkOracleInfo {
  oi_id : string;
  oi_name : string;
  oi_endpoint : option string;
  oi_fee_ppm : number;
  oi_supported_schemas : option (list string);
  oi_supported_payment_lock_types : option (list PaymentLockType);
  oi_min_amount_sats : option number;
  oi_max_amount_sats : option number;
  oi_description : option string;
}.

(** ** The Query aggregate *)
Record Query := mkQuery {
  q_id : string;
  q_schema : option string;
  q_status : QueryStatus;
  q_description : string;
  q_location_hint : option string;
  q_challenge_nonce : option string;
  q_verification_requirements : list string;
  q_created_at : number;
  q_expires_at : number;
  q_customer_meta : option CustomerMeta;
  q_payment_lock : option PaymentLockInfo;
  q_oracle_ids : option (list string);
  q_assigned_oracle_id : option string;
  q_submitted_at : option number;
  q_result : option QueryResult;
  q_verification : option VerificationDetail;
  q_submission_meta : option SubmissionMeta;
  q_payment_status : PaymentStatus;
  q_escrow : option EscrowInfo;
  q_offers : option (list OfferInfo);
  q_nostr_event_id : option string;
  q_blossom_keys : option BlossomKeyMap;
  q_schema_requirement : option jsval;
  q_quorum : option QuorumConfig;
  q_attestations : option (list OracleAttestationRecord);
}.

(** An Oracle: its metadata and its (remote, fallible) verification entry. *)
Record Oracle := mkOracle {
  o_info : OracleInfo;
  o_verify : Query -> QueryResult -> option BlossomKeyMap -> res OracleAttestation;
}.

(** Field updates used by the object spreads [{...query, field: v}]. *)
Global Instance set_q_status : Setter q_status :=
  fun f r => mkQuery (q_id r) (q_schema r) (f (q_status r)) (q_description r)
    (q_location_hint r) (q_challenge_nonce r) (q_verification_requirements r) (q_created_at r)
    (q_expires_at r) (q_customer_meta r) (q_payment_lock r) (q_oracle_ids r)
    (q_assigned_oracle_id r) (q_submitted_at r) (q_result r) (q_verification r)
    (q_submission_meta r) (q_payment_status r) (q_escrow r) (q_offers r) (q_nostr_event_id r)
    (q_blossom_keys r) (q_schema_requirement r) (q_quorum r) (q_attestations r).
Global Instance set_q_assigned_oracle_id : Setter q_assigned_oracle_id :=
  fun f r => mkQuery (q_id r) (q_schema r) (q_status r) (q_description r) (q_location_hint
    r) (q_challenge_nonce r) (q_verification_requirements r) (q_created_at r) (q_expires_at r)
    (q_customer_meta r) (q_payment_lock r) (q_oracle_ids r) (f (q_assigned_oracle_id r))
    (q_submitted_at r) (q_result r) (q_verification r) (q_submission_meta r) (q_payment_status
    r) (q_escrow r) (q_offers r) (q_nostr_event_id r) (q_blossom_keys r) (q_schema_requirement
    r) (q_quorum r) (q_attestations r).
Global Instance set_q_submitted_at : Setter q_submitted_at :=
  fun f r => mkQuery (q_id r) (q_schema r) (q_status r) (q_description r) (q_location_hint
    r) (q_challenge_nonce r) (q_verification_requirements r) (q_created_at r) (q_expires_at r)
    (q_customer_meta r) (q_payment_lock r) (q_oracle_ids r) (q_assigned_oracle_id r) (f
    (q_submitted_at r)) (q_result r) (q_verification r) (q_submission_meta r)
    (q_payment_status r) (q_escrow r) (q_offers r) (q_nostr_event_id r) (q_blossom_keys r)
    (q_schema_requirement r) (q_quorum r) (q_attestations r).
Global Instance set_q_result : Setter q_result :=
  fun f r => mkQuery (q_id r) (q_schema r) (q_status r) (q_description r) (q_location_hint
    r) (q_challenge_nonce r) (q_verification_requirements r) (q_created_at r) (q_expires_at r)
    (q_customer_meta r) (q_payment_lock r) (q_oracle_ids r) (q_assigned_oracle_id r)
    (q_submitted_at r) (f (q_result r)) (q_verification r) (q_submission_meta r)
    (q_payment_status r) (q_escrow r) (q_offers r) (q_nostr_event_id r) (q_blossom_keys r)
    (q_schema_requirement r) (q_quorum r) (q_attestations r).
Global Instance set_q_verification : Setter q_verification :=
  fun f r => mkQuery (q_id r) (q_schema r) (q_status r) (q_description r) (q_location_hint
    r) (q_challenge_nonce r) (q_verification_requirements r) (q_created_at r) (q_expires_at r)
    (q_customer_meta r) (q_payment_lock r) (q_oracle_ids r) (q_assigned_oracle_id r)
    (q_submitted_at r) (q_result r) (f (q_verification r)) (q_submission_meta r)
    (q_payment_status r) (q_escrow r) (q_offers r) (q_nostr_event_id r) (q_blossom_keys r)
    (q_schema_requirement r) (q_quorum r) (q_attestations r).
Global Instance set_q_submission_meta : Setter q_submission_meta :=
  fun f r => mkQuery (q_id r) (q_schema r) (q_status r) (q_description r) (q_location_hint
    r) (q_challenge_nonce r) (q_verification_requirements r) (q_created_at r) (q_expires_at r)
    (q_customer_meta r) (q_payment_lock r) (q_oracle_ids r) (q_assigned_oracle_id r)
    (q_submitted_at r) (q_result r) (q_verification r) (f (q_submission_meta r))
    (q_payment_status r) (q_escrow r) (q_offers r) (q_nostr_event_id r) (q_blossom_keys r)
    (q_schema_requirement r) (q_quorum r) (q_attestations r).
Global Instance set_q_payment_status : Setter q_payment_status :=
  fun f r => mkQuery (q_id r) (q_schema r) (q_status r) (q_description r) (q_location_hint
    r) (q_challenge_nonce r) (q_verification_requirements r) (q_created_at r) (q_expires_at r)
    (q_customer_meta r) (q_payment_lock r) (q_oracle_ids r) (q_assigned_oracle_id r)
    (q_submitted_at r) (q_result r) (q_verification r) (q_submission_meta r) (f
    (q_payment_status r)) (q_escrow r) (q_offers r) (q_nostr_event_id r) (q_blossom_keys r)
    (q_schema_requirement r) (q_quorum r) (q_attestations r).
Global Instance set_q_escrow : Setter q_escrow :=
  fun f r => mkQuery (q_id r) (q_schema r) (q_status r) (q_description r) (q_location_hint
    r) (q_challenge_nonce r) (q_verification_requirements r) (q_created_at r) (q_expires_at r)
    (q_customer_meta r) (q_payment_lock r) (q_oracle_ids r) (q_assigned_oracle_id r)
    (q_submitted_at r) (q_result r) (q_verification r) (q_submission_meta r) (q_payment_status
    r) (f (q_escrow r)) (q_offers r) (q_nostr_event_id r) (q_blossom_keys r)
    (q_schema_requirement r) (q_quorum r) (q_attestations r).
Global Instance set_q_offers : Setter q_offers :=
  fun f r => mkQuery (q_id r) (q_schema r) (q_status r) (q_description r) (q_location_hint
    r) (q_challenge_nonce r) (q_verification_requirements r) (q_created_at r) (q_expires_at r)
    (q_customer_meta r) (q_payment_lock r) (q_oracle_ids r) (q_assigned_oracle_id r)
    (q_submitted_at r) (q_result r) (q_verification r) (q_submission_meta r) (q_payment_status
    r) (q_escrow r) (f (q_offers r)) (q_nostr_event_id r) (q_blossom_keys r)
    (q_schema_requirement r) (q_quorum r) (q_attestations r).
Global Instance set_q_blossom_keys : Setter q_blossom_keys :=
  fun f r => mkQuery (q_id r) (q_schema r) (q_status r) (q_description r) (q_location_hint
    r) (q_challenge_nonce r) (q_verification_requirements r) (q_created_at r) (q_expires_at r)
    (q_customer_meta r) (q_payment_lock r) (q_oracle_ids r) (q_assigned_oracle_id r)
    (q_submitted_at r) (q_result r) (q_verification r) (q_submission_meta r) (q_payment_status
    r) (q_escrow r) (q_offers r) (q_nostr_event_id r) (f (q_blossom_keys r))
    (q_schema_requirement r) (q_quorum r) (q_attestations r).
Global Instance set_q_attestations : Setter q_attestations :=
  fun f r => mkQuery (q_id r) (q_schema r) (q_status r) (q_description r) (q_location_hint
    r) (q_challenge_nonce r) (q_verification_requirements r) (q_created_at r) (q_expires_at r)
    (q_customer_meta r) (q_payment_lock r) (q_oracle_ids r) (q_assigned_oracle_id r)
    (q_submitted_at r) (q_result r) (q_verification r) (q_submission_meta r) (q_payment_status
    r) (q_escrow r) (q_offers r) (q_nostr_event_id r) (q_blossom_keys r) (q_schema_requirement
    r) (q_quorum r) (f (q_attestations r)).
Global Instance set_esc_provider_pubkey : Setter esc_provider_pubkey :=
  fun f r => mkEscrowInfo (esc_type r) (esc_oracle_pubkeys r) (esc_customer_pubkey r) (f
    (esc_provider_pubkey r)) (esc_locktime r) (esc_escrow_token r) (esc_verified_sats r)
    (esc_escrow_ref r).
Global Instance set_esc_escrow_token : Setter esc_escrow_token :=
  fun f r => mkEscrowInfo (esc_type r) (esc_oracle_pubkeys r) (esc_customer_pubkey r)
    (esc_provider_pubkey r) (esc_locktime r) (f (esc_escrow_token r)) (esc_verified_sats r)
    (esc_escrow_ref r).
Global Instance set_esc_verified_sats : Setter esc_verified_sats :=
  fun f r => mkEscrowInfo (esc_type r) (esc_oracle_pubkeys r) (esc_customer_pubkey r)
    (esc_provider_pubkey r) (esc_locktime r) (esc_escrow_token r) (f (esc_verified_sats r))
    (esc_escrow_ref r).
Global Instance set_esc_escrow_ref : Setter esc_escrow_ref :=
  fun f r => mkEscrowInfo (esc_type r) (esc_oracle_pubkeys r) (esc_customer_pubkey r)
    (esc_provider_pubkey r) (esc_locktime r) (esc_escrow_token r) (esc_verified_sats r) (f
    (esc_escrow_ref r)).

(** ** Query-independent verification contract *)
Record VerificationRequirement := mkVerificationRequirement {
  vr_id : string;
  vr_schema : option string;
  vr_factors : list string;
  vr_description : option string;
  vr_challenge_nonce : option string;
  vr_schema_requirement : option jsval;
  vr_escrow_token_hash : option string;
}.

Record VerificationInput := mkVerificationInput {
  vi_attachments : list AttachmentRef;
  vi_schema_evidence : option jsval;
}.
