(* ===== verification/Samples.v ===== *)
(** * Concrete data

    Small concrete inputs shared by the examples and witnesses: a URL parser
    for plain HTTPS URLs, an escrow, a query, an attestation. *)

From S2P Require Import Prelude JsNum JsMap JsString JsValue SchemaUri QueryTypes.

(** [https://host/path] without credentials, query or fragment. *)
Definition plain_url (s : string) : option UrlParts :=
  if startsWith "https://" s then
    let '(host, path) := span (fun c => negb (Nat.eqb (code c) 47)) (chars (slice 8 s)) in
    Some (mkUrlParts "https:" "" "" (of_chars host) (of_chars path) "" "")
  else None.

Definition sample_urls : UrlApi := plain_url.

Example sample_urls_ex :
  isSchemaUri (U := sample_urls) ProofSchema_TlsnV1 = true /\
  isSchemaUri (U := sample_urls) "http://anchr-spec.org/spec/proof/tlsn/v1" = false.
Proof. split; reflexivity. Qed.

Definition sample_escrow : EscrowInfo := {|
  esc_type := htlc "h1";
  esc_oracle_pubkeys := ["oracle-1"];
  esc_customer_pubkey := "customer-1";
  esc_provider_pubkey := None;
  esc_locktime := num 5000;
  esc_escrow_token := None;
  esc_verified_sats := None;
  esc_escrow_ref := None;
|}.

Definition sample_query (id : string) (st : QueryStatus) (pay : PaymentStatus)
    (esc : option EscrowInfo) : Query := {|
  q_id := id;
  q_schema := Some ProofSchema_TlsnV1;
  q_status := st;
  q_description := "sample";
  q_location_hint := None;
  q_challenge_nonce := None;
  q_verification_requirements := [];
  q_created_at := num 1000;
  q_expires_at := num 601000;
  q_customer_meta := None;
  q_payment_lock := Some (mkPaymentLockInfo (num 100) None);
  q_oracle_ids := Some ["oracle-1"];
  q_assigned_oracle_id := None;
  q_submitted_at := None;
  q_result := None;
  q_verification := None;
  q_submission_meta := None;
  q_payment_status := pay;
  q_escrow := esc;
  q_offers := None;
  q_nostr_event_id := None;
  q_blossom_keys := None;
  q_schema_requirement := None;
  q_quorum := None;
  q_attestations := None;
|}.

Definition sample_result : QueryResult := mkQueryResult [] (Some "done") None.

Definition sample_input : QueryInput :=
  mkQueryInput "fetch a price" (Some ProofSchema_TlsnV1) None None None.

Definition sample_attestation (oid : string) (passed : bool) : OracleAttestation :=
  mkAttestation oid "q1" passed ["check"] (if passed then [] else ["bad proof"]) (num 2000) None.

Definition sample_info (oid : string) : OracleInfo :=
  mkOracleInfo oid oid None (num 0) None None None None None.

Definition sample_oracle (oid : string) (passed : bool) : Oracle :=
  mkOracle (sample_info oid) (fun _ _ _ => Ok (sample_attestation oid passed)).
