(* ===== verification/QueryDomain.v ===== *)
(** * The request domain layer

    [packages/sdk/src/requests/domain/]: the transition tables
    ([query-transitions.ts]), the value-object validators ([value-objects.ts]),
    the challenge nonce ([challenge.ts]) and the Query aggregate
    ([query-aggregate.ts]).  Every operation is a pure function that returns
    the next Query or an error message, as in the source. *)

From S2P Require Import Prelude JsNum JsMap JsString JsValue SchemaUri QueryTypes Samples.

(** ** Transition tables *)
Definition SIMPLE_TRANSITIONS (from : QueryStatus) : option (list QueryStatus) :=
  match from with
  | pending => Some [approved; rejected; expired]
  | _ => None
  end.

Definition ESCROW_TRANSITIONS (from : QueryStatus) : option (list QueryStatus) :=
  match from with
  | awaiting_offers => Some [provider_selected; expired]
  | provider_selected => Some [processing; expired]
  | processing => Some [verifying; expired]
  | verifying => Some [approved; rejected; expired]
  | _ => None
  end.

Definition TERMINAL_STATUSES := [approved; rejected; expired].
Definition OPEN_STATUSES := [pending; awaiting_offers; provider_selected; processing].
Definition EXPIRABLE_STATUSES :=
  [pending; awaiting_offers; provider_selected; processing; verifying].

Definition status_in (l : list QueryStatus) (s : QueryStatus) : bool := bool_decide (s ∈ l).

Definition isValidTransition (from to : QueryStatus) (isHtlc : bool) : bool :=
  match (if isHtlc then ESCROW_TRANSITIONS else SIMPLE_TRANSITIONS) from with
  | Some l => status_in l to
  | None => false
  end.

Definition isExpirable (s : QueryStatus) : bool := status_in EXPIRABLE_STATUSES s.
Definition isTerminal (s : QueryStatus) : bool := status_in TERMINAL_STATUSES s.
Definition isOpenStatus (s : QueryStatus) : bool := status_in OPEN_STATUSES s.

(** ** Value-object validation: [Some msg] is the error string, [None] valid *)
Definition MIN_ESCROW_LOCKTIME_SECS : number := num 600.

Definition validateBountyInfo (input : PaymentLockInfo) : option string :=
  if negb (isFinite (lock_amount_sats input)) then
    Some "amount_sats must be a finite number"
  else if lock_amount_sats input ≤ₙ num 0 then Some "amount_sats must be positive"
  else if negb (isInteger (lock_amount_sats input)) then
    Some "amount_sats must be an integer"
  else None.

Definition validateEscrowLocktime (locktime nowSecs minSecs : number) : option string :=
  if negb (isFinite locktime) then Some "locktime must be a finite number"
  else
    let remaining := nsub locktime nowSecs in
    if remaining <ₙ minSecs then
      Some ("escrow locktime must be at least " +:+ number_to_string minSecs +:+
            "s in the future (got " +:+ number_to_string remaining +:+ "s)")
    else None.

Definition validateQueryInput `{U : UrlApi} (input : QueryInput) : option string :=
  if negb (str_truthy (in_description input)) || is_blank (in_description input) then
    Some "description must not be empty"
  else
    match in_schema input with
    | Some s => if isSchemaUri s then None
                else Some "schema must be a valid Proof Schema URL"
    | None => None
    end.

Definition validateOfferInfo (offer : OfferInfo) : option string :=
  if negb (str_truthy (off_provider_pubkey offer)) || is_blank (off_provider_pubkey offer) then
    Some "provider_pubkey must not be empty"
  else if negb (str_truthy (off_event_id offer)) || is_blank (off_event_id offer) then
    Some "offer_event_id must not be empty"
  else None.

(** ** Challenge nonce: rejection sampling over random bytes

    [rng i n] is the result of the [i]-th call [randomBytes(n)]; the source
    loops until enough bytes were accepted, the model takes the number of
    rounds as fuel. *)
Definition NONCE_CHARS := "ABCDEFGHJKLMNPQRTUVWXY2346789".
Definition nonce_char_count : Z := Z.of_nat (String.length NONCE_CHARS).
Definition nonce_limit : Z := (256 - 256 mod nonce_char_count)%Z.

Definition nonce_char (b : Z) : string :=
  match String.get (Z.to_nat (b mod nonce_char_count)) NONCE_CHARS with
  | Some c => String.String c ""
  | None => "undefined"
  end.

Definition nonce_round (length : nat) (bytes : list Z) (result : string) : string :=
  fold_left (fun acc b =>
    if (b <? nonce_limit)%Z && Nat.ltb (String.length acc) length
    then acc +:+ nonce_char b else acc) bytes result.

Fixpoint generateNonce_loop (fuel : nat) (rng : nat -> nat -> list Z) (i length : nat)
    (result : string) : option string :=
  if Nat.ltb (String.length result) length then
    match fuel with
    | O => None
    | S fuel' =>
        let bytes := rng i (length - String.length result)%nat in
        generateNonce_loop fuel' rng (S i) length (nonce_round length bytes result)
    end
  else Some result.

Definition generateNonce (fuel : nat) (rng : nat -> nat -> list Z) (length : nat)
    : option string := generateNonce_loop fuel rng 0 length "".

(** ** Domain ports: the values the injected services return during one call *)
Record DomainServices := mkDomainServices {
  svc_now : number;
  svc_newQueryId : string;
  svc_newChallengeNonce : string;
}.

(** [createDefaultIdGenerator(clock).newQueryId()] on eight random bytes. *)
Definition hex_digit (n : Z) : Ascii.ascii :=
  Ascii.ascii_of_nat (Z.to_nat (if (n <? 10)%Z then 48 + n else 87 + n)).
Definition byte_hex (b : Z) : string :=
  of_chars [hex_digit (b / 16); hex_digit (b mod 16)].
Definition newQueryId (clockNow : number) (bytes : list Z) : string :=
  "query_" +:+ number_to_string clockNow +:+ "_" +:+ js_join "" (byte_hex <$> bytes).

(** ** The aggregate *)
Definition DEFAULT_QUERY_SCHEMA := "https://anchr-spec.org/spec/proof/photo/v1".

Inductive TransitionResult :=
| TOk (query : Query)
| TErr (error : string).

Record CreateQueryAggregateOptions := mkCreateOptions {
  co_ttlMs : number;
  co_customerMeta : option CustomerMeta;
  co_payment_lock : option PaymentLockInfo;
  co_oracleIds : option (list string);
  co_escrow : option EscrowInfo;
  co_nostrEventId : option string;
  co_quorum : option QuorumConfig;
}.

(** The locktime guard: [if (options.escrow?.locktime) { ... }]. *)
Definition escrow_locktime_error (escrow : option EscrowInfo) (now : number) : option string :=
  match escrow with
  | Some e =>
      if num_truthy (esc_locktime e) then
        validateEscrowLocktime (esc_locktime e) (nfloor_div now 1000) MIN_ESCROW_LOCKTIME_SECS
      else None
  | None => None
  end.

Definition createQueryAggregate `{U : UrlApi} (input : QueryInput)
    (options : CreateQueryAggregateOptions) (services : DomainServices) : TransitionResult :=
  match validateQueryInput input with
  | Some e => TErr e
  | None =>
  let now := svc_now services in
  match escrow_locktime_error (co_escrow options) now with
  | Some e => TErr e
  | None =>
  let requirements := opt_default [] (in_verification_requirements input) in
  let needsNonce := bool_decide ("nonce" ∈ requirements) in
  let nonce := if needsNonce then Some (svc_newChallengeNonce services) else None in
  let isEscrow := match co_escrow options with Some _ => true | None => false end in
  TOk {|
    q_id := svc_newQueryId services;
    q_schema := nullish (in_schema input) (Some DEFAULT_QUERY_SCHEMA);
    q_status := if isEscrow then awaiting_offers else pending;
    q_description := in_description input;
    q_location_hint := in_location_hint input;
    q_challenge_nonce := nonce;
    q_verification_requirements := requirements;
    q_created_at := now;
    q_expires_at := nadd now (co_ttlMs options);
    q_customer_meta := co_customerMeta options;
    q_payment_lock := co_payment_lock options;
    q_oracle_ids := co_oracleIds options;
    q_assigned_oracle_id := None;
    q_submitted_at := None;
    q_result := None;
    q_verification := None;
    q_submission_meta := None;
    q_payment_status := if isEscrow then escrow_locked else locked;
    q_escrow := co_escrow options;
    q_offers := if isEscrow then Some [] else None;
    q_nostr_event_id := co_nostrEventId options;
    q_blossom_keys := None;
    q_schema_requirement := in_schema_requirement input;
    q_quorum := co_quorum options;
    q_attestations := None;
  |}
  end end.

(** [attestations?.[0]?.oracle_id] *)
Definition first_oracle (attestations : option (list OracleAttestationRecord)) : option string :=
  match attestations with Some (a :: _) => Some (rec_oracle_id a) | _ => None end.

(** [query.quorum ? attestations : undefined] *)
Definition quorum_attestations (query : Query)
    (attestations : option (list OracleAttestationRecord)) :=
  match q_quorum query with Some _ => attestations | None => None end.

Definition submitResult (query : Query) (result : QueryResult) (verification : VerificationDetail)
    (meta : SubmissionMeta) (oracleId : option string)
    (attestations : option (list OracleAttestationRecord))
    (blossomKeys : option BlossomKeyMap) (clockNow : number) : TransitionResult :=
  match q_escrow query with
  | Some _ => TErr "Use the escrow-mode functions for queries with an escrow"
  | None =>
  if q_status query !== pending then
    TErr ("Query is " +:+ status_str (q_status query) +:+ ", not pending")
  else if q_expires_at query <ₙ clockNow then
    TOk (query <| q_status := expired |> <| q_payment_status := cancelled |>)
  else
    let newStatus := if vd_passed verification then approved else rejected in
    let paymentStatus := if vd_passed verification then released else cancelled in
    let firstOracle := nullish (first_oracle attestations) oracleId in
    TOk (query <| q_status := newStatus |>
               <| q_submitted_at := Some clockNow |>
               <| q_result := Some result |>
               <| q_verification := Some verification |>
               <| q_submission_meta := Some meta |>
               <| q_payment_status := paymentStatus |>
               <| q_assigned_oracle_id := firstOracle |>
               <| q_blossom_keys := blossomKeys |>
               <| q_attestations := quorum_attestations query attestations |>)
  end.

Definition expireQuery (query : Query) (now : number) : TransitionResult :=
  if negb (isExpirable (q_status query)) then
    TErr ("Query is " +:+ status_str (q_status query) +:+ ", cannot expire")
  else if q_expires_at query ≥ₙ now then TErr "Query has not expired yet"
  else TOk (query <| q_status := expired |> <| q_payment_status := cancelled |>).

Definition cancelQuery (query : Query) : TransitionResult :=
  if negb (isOpenStatus (q_status query)) then
    TErr ("Query is already " +:+ status_str (q_status query))
  else TOk (query <| q_status := rejected |> <| q_payment_status := cancelled |>).

(** ** Escrow path *)
Definition addOffer (query : Query) (offer : OfferInfo) : TransitionResult :=
  match q_escrow query with
  | None => TErr "Not an escrow query"
  | Some _ =>
  if q_status query !== awaiting_offers then
    TErr ("Query is " +:+ status_str (q_status query) +:+ ", not awaiting_offers")
  else match validateOfferInfo offer with
  | Some e => TErr e
  | None => TOk (query <| q_offers := Some (opt_default [] (q_offers query) ++ [offer]) |>)
  end end.

(** Each field of the partial update: [None] is an absent property,
    [Some None] a property explicitly set to [undefined]. *)
Record EscrowSelectionUpdates := mkSelectionUpdates {
  up_escrow_token : option (option string);
  up_verified_escrow_sats : option (option number);
  up_escrow_ref : option (option string);
  up_provider_pubkey : option (option string);
}.

Definition no_updates : EscrowSelectionUpdates := mkSelectionUpdates None None None None.

(** [{...query.escrow, provider_pubkey, ...escrowUpdates}] *)
Definition apply_updates (e : EscrowInfo) (providerPubkey : string)
    (u : EscrowSelectionUpdates) : EscrowInfo :=
  e <| esc_provider_pubkey := opt_default (Some providerPubkey) (up_provider_pubkey u) |>
    <| esc_escrow_token := opt_default (esc_escrow_token e) (up_escrow_token u) |>
    <| esc_verified_sats := opt_default (esc_verified_sats e) (up_verified_escrow_sats u) |>
    <| esc_escrow_ref := opt_default (esc_escrow_ref e) (up_escrow_ref u) |>.

Definition selectProvider (query : Query) (providerPubkey : string)
    (escrowUpdates : EscrowSelectionUpdates) : TransitionResult :=
  match q_escrow query with
  | None => TErr "Not an escrow query"
  | Some e =>
  if negb (isValidTransition (q_status query) provider_selected true) then
    TErr ("Query is " +:+ status_str (q_status query) +:+ ", not awaiting_offers")
  else
    TOk (query <| q_status := provider_selected |>
               <| q_escrow := Some (apply_updates e providerPubkey escrowUpdates) |>
               <| q_payment_status :=
                    match truthy (opt_default None (up_escrow_token escrowUpdates)) with
                    | Some _ => escrow_swapped
                    | None => q_payment_status query
                    end |>)
  end.

Definition beginWork (query : Query) : TransitionResult :=
  match q_escrow query with
  | None => TErr "Not an escrow query"
  | Some _ =>
  if negb (isValidTransition (q_status query) processing true) then
    TErr ("Query is " +:+ status_str (q_status query) +:+ ", not provider_selected")
  else TOk (query <| q_status := processing |>)
  end.

Definition recordResult (query : Query) (result : QueryResult) (providerPubkey : string)
    (blossomKeys : option BlossomKeyMap) (clockNow : number) : TransitionResult :=
  match q_escrow query with
  | None => TErr "Not an escrow query"
  | Some e =>
  if negb (isValidTransition (q_status query) verifying true) then
    TErr ("Query is " +:+ status_str (q_status query) +:+ ", not processing")
  else if match truthy (esc_provider_pubkey e) with
          | Some pk => pk !== providerPubkey
          | None => false
          end then
    TErr "Provider pubkey does not match selected provider"
  else
    TOk (query <| q_status := verifying |>
               <| q_result := Some result |>
               <| q_submitted_at := Some clockNow |>
               <| q_submission_meta := Some (mkSubmissionMeta exec_human channel_adapter) |>
               <| q_blossom_keys := blossomKeys |>)
  end.

Definition completeVerification (query : Query) (passed : bool)
    (verification : option VerificationDetail) (oracleId : option string)
    (attestations : option (list OracleAttestationRecord)) : TransitionResult :=
  match q_escrow query with
  | None => TErr "Not an escrow query"
  | Some _ =>
  let target := if passed then approved else rejected in
  if negb (isValidTransition (q_status query) target true) then
    TErr ("Query is " +:+ status_str (q_status query) +:+ ", not verifying")
  else
    let paymentStatus := if passed then released else cancelled in
    TOk (query <| q_status := target |>
               <| q_payment_status := paymentStatus |>
               <| q_verification := nullish verification (q_verification query) |>
               <| q_assigned_oracle_id := nullish oracleId (first_oracle attestations) |>
               <| q_attestations := quorum_attestations query attestations |>)
  end.

(** * Specification

    ** Operations as a labelled transition system *)
Inductive domain_op :=
| OpSubmitResult (r : QueryResult) (v : VerificationDetail) (m : SubmissionMeta)
    (oid : option string) (atts : option (list OracleAttestationRecord))
    (bk : option BlossomKeyMap) (now : number)
| OpExpire (now : number)
| OpCancel
| OpAddOffer (o : OfferInfo)
| OpSelectProvider (pk : string) (u : EscrowSelectionUpdates)
| OpBeginWork
| OpRecordResult (r : QueryResult) (pk : string) (bk : option BlossomKeyMap) (now : number)
| OpCompleteVerification (passed : bool) (v : option VerificationDetail)
    (oid : option string) (atts : option (list OracleAttestationRecord)).

Definition run_op (op : domain_op) (q : Query) : TransitionResult :=
  match op with
  | OpSubmitResult r v m oid atts bk now => submitResult q r v m oid atts bk now
  | OpExpire now => expireQuery q now
  | OpCancel => cancelQuery q
  | OpAddOffer o => addOffer q o
  | OpSelectProvider pk u => selectProvider q pk u
  | OpBeginWork => beginWork q
  | OpRecordResult r pk bk now => recordResult q r pk bk now
  | OpCompleteVerification p v oid atts => completeVerification q p v oid atts
  end.

Definition domain_step (q q' : Query) : Prop := exists op, run_op op q = TOk q'.
Definition domain_steps : Query -> Query -> Prop := rtc domain_step.

(** The verification verdict an operation carries, when it carries one. *)
Definition op_verdict (op : domain_op) : option bool :=
  match op with
  | OpSubmitResult _ v _ _ _ _ _ => Some (vd_passed v)
  | OpCompleteVerification p _ _ _ => Some p
  | _ => None
  end.

(** ** Well-formedness: status, payment status and escrow mode agree *)
Definition payment_ok (s : QueryStatus) (p : PaymentStatus) (isEscrow : bool) : bool :=
  match s with
  | approved => p === released
  | rejected | expired => p === cancelled
  | pending => negb isEscrow && (p === locked)
  | awaiting_offers | provider_selected | processing | verifying =>
      isEscrow && ((p === escrow_locked) || (p === escrow_swapped))
  end.

Definition is_escrow (q : Query) : bool :=
  match q_escrow q with Some _ => true | None => false end.

Definition query_ok (q : Query) : bool :=
  payment_ok (q_status q) (q_payment_status q) (is_escrow q).

(** ** Abstract specification of the payment: a one-shot contract *)
Inductive PayState := Held | Paid | Returned.

Global Instance PayState_eq_dec : EqDecision PayState.
Proof. solve_decision. Defined.

(** Funds leave [Held] once; to the Provider only on a passing verdict. *)
Inductive pay_step : PayState -> option bool -> PayState -> Prop :=
| pay_hold v : v = None -> pay_step Held v Held
| pay_release : pay_step Held (Some true) Paid
| pay_return v : pay_step Held v Returned.

Definition pay_of (p : PaymentStatus) : PayState :=
  match p with
  | released => Paid
  | cancelled => Returned
  | _ => Held
  end.
Definition pay_view (q : Query) : PayState := pay_of (q_payment_status q).

(** Position of a status in the lifecycle. *)
Definition rank (s : QueryStatus) : nat :=
  match s with
  | pending | awaiting_offers => 0
  | provider_selected => 1
  | processing => 2
  | verifying => 3
  | approved | rejected | expired => 4
  end.

(** * Proofs *)

(** Case analysis of one operation on one query. *)
Ltac op_cases H :=
  match type of H with
  | run_op ?op ?q = TOk ?q' =>
      destruct op; simpl in H;
      unfold submitResult, expireQuery, cancelQuery, addOffer, selectProvider, beginWork,
        recordResult, completeVerification in H;
      repeat case_match; simplify_eq/=
  end.

Lemma step_nonterminal op q q' :
  run_op op q = TOk q' -> isTerminal (q_status q) = false.
Proof.
  intros H. op_cases H;
  destruct (q_status q) eqn:E; try done;
  rewrite ?E in *; bool_to_prop; done.
Qed.

Lemma step_query_ok op q q' :
  query_ok q = true -> run_op op q = TOk q' -> query_ok q' = true.
Proof.
  intros Hok H. pose proof (step_nonterminal _ _ _ H) as Hnt.
  unfold query_ok, is_escrow in *. op_cases H; simplify_eq/=;
  repeat match goal with E : q_escrow q = _ |- _ => rewrite E in Hok end;
  destruct (q_status q) eqn:Es; simpl in *; try done; bool_to_prop; try done;
  try (by destruct (q_payment_status q)).
Qed.

Lemma create_query_ok `{U : UrlApi} input opts svc q :
  createQueryAggregate input opts svc = TOk q -> query_ok q = true.
Proof.
  unfold createQueryAggregate, query_ok, is_escrow. intros. repeat case_match; by simplify_eq/=.
Qed.

Lemma steps_query_ok q q' : query_ok q = true -> domain_steps q q' -> query_ok q' = true.
Proof. intros Hok. induction 1 as [|q1 q2 q3 [op H] _ IH]; eauto using step_query_ok. Qed.

(** The part of an escrow that provider selection must not touch. *)
Definition escrow_terms (e : EscrowInfo) : EscrowType * list string * string * number :=
  (esc_type e, esc_oracle_pubkeys e, esc_customer_pubkey e, esc_locktime e).

Definition query_terms (q : Query) :=
  (q_id q, q_schema q, q_verification_requirements q, q_challenge_nonce q, q_created_at q,
   q_expires_at q, q_oracle_ids q, q_quorum q, q_schema_requirement q, q_payment_lock q,
   escrow_terms <$> q_escrow q).

Lemma step_terms op q q' : run_op op q = TOk q' -> query_terms q' = query_terms q.
Proof.
  intros H. unfold query_terms. op_cases H; try done;
  repeat match goal with E : q_escrow q = _ |- _ => rewrite E end; done.
Qed.

Lemma steps_terms q q' : domain_steps q q' -> query_terms q' = query_terms q.
Proof. induction 1 as [|q1 q2 q3 [op H] _ IH]; [done|]. rewrite IH. by eapply step_terms. Qed.

(** Selection is over: offers are no longer taken and the bound key is fixed. *)
Definition bound_to (pk : string) (q : Query) : Prop :=
  q_status q <> awaiting_offers /\ exists e, q_escrow q = Some e /\ esc_provider_pubkey e = Some pk.

Lemma step_bound_to pk op q q' : bound_to pk q -> run_op op q = TOk q' -> bound_to pk q'.
Proof.
  intros [Hs (e & He & Hpk)] H. unfold bound_to. op_cases H; bool_to_prop; try done;
  repeat case_match; try (split; [done|]; by exists e).
  all: exfalso; unfold isValidTransition in *; by destruct (q_status q).
Qed.

Lemma steps_bound_to pk q q' : bound_to pk q -> domain_steps q q' -> bound_to pk q'.
Proof. intros Hb. induction 1 as [|q1 q2 q3 [op H] _ IH]; eauto using step_bound_to. Qed.

Lemma select_bound_to q pk u q' :
  up_provider_pubkey u = None -> selectProvider q pk u = TOk q' -> bound_to pk q'.
Proof.
  intros Hu H. unfold selectProvider in H. repeat case_match; simplify_eq/=;
  (split; [done|]); eexists; (split; [done|]); simpl; by rewrite Hu.
Qed.

Lemma bound_to_recordResult pk q r pk' bk now q' :
  pk <> "" -> bound_to pk q -> recordResult q r pk' bk now = TOk q' -> pk' = pk.
Proof.
  intros Hne [_ (e & He & Hpk)] H. unfold recordResult in H. rewrite He, Hpk in H.
  assert (Ht : truthy (Some pk) = Some pk) by (by apply truthy_Some).
  rewrite Ht in H. repeat case_match; simplify_eq/=. by bool_to_prop.
Qed.

Lemma step_rank op q q' :
  run_op op q = TOk q' ->
  (exists o, op = OpAddOffer o) /\ q_status q' = q_status q \/ rank (q_status q) < rank (q_status q').
Proof.
  intros H. op_cases H; try (left; by eauto); right; bool_to_prop; simplify_eq/=;
  unfold isValidTransition, isExpirable, isOpenStatus in *;
  destruct (q_status q); try done; simpl; lia.
Qed.

(** A run of operations, each of which succeeds. *)
Fixpoint run_ops (ops : list domain_op) (q : Query) : option Query :=
  match ops with
  | [] => Some q
  | op :: ops' => match run_op op q with TOk q' => run_ops ops' q' | TErr _ => None end
  end.

Definition is_offer (op : domain_op) : bool := match op with OpAddOffer _ => true | _ => false end.

Lemma run_ops_rank ops q q' :
  run_ops ops q = Some q' ->
  length (List.filter (fun op => negb (is_offer op)) ops) + rank (q_status q) <= rank (q_status q').
Proof.
  revert q. induction ops as [|op ops IH]; intros q; simpl; [intros; simplify_eq; lia|].
  destruct (run_op op q) as [q1|] eqn:E; [|done]. intros H%IH.
  pose proof (step_rank _ _ _ E) as [[[o ->] Hs]|Hr]; simpl.
  - rewrite Hs in H. lia.
  - destruct (is_offer op); simpl in *; lia.
Qed.

Lemma step_tables op q q' :
  query_ok q = true -> run_op op q = TOk q' ->
  (exists o, op = OpAddOffer o) /\ q_status q' = q_status q \/
  op = OpCancel /\ isOpenStatus (q_status q) = true /\ q_status q' = rejected \/
  isValidTransition (q_status q) (q_status q') (is_escrow q) = true.
Proof.
  intros Hok H. unfold query_ok, is_escrow in *. op_cases H; try (left; by eauto);
  bool_to_prop; simplify_eq/=; try (right; left; by eauto); right; right;
  repeat match goal with E : q_escrow q = _ |- _ => rewrite E in * end;
  repeat match goal with E : q_status q = _ |- _ => rewrite E in * end; try done;
  destruct (q_escrow q); destruct (q_status q); done.
Qed.

Lemma step_pay op q q' :
  query_ok q = true -> run_op op q = TOk q' ->
  pay_step (pay_view q) (op_verdict op) (pay_view q').
Proof.
  intros Hok H. pose proof (step_nonterminal _ _ _ H) as Hnt.
  assert (Hheld : pay_of (q_payment_status q) = Held).
  { unfold query_ok in *. destruct (q_status q), (q_payment_status q), (is_escrow q); done. }
  unfold pay_view. rewrite Hheld. op_cases H; rewrite ?Hheld;
  repeat match goal with E : vd_passed _ = _ |- _ => rewrite E end; by constructor.
Qed.

(** ** Challenge nonce *)
Lemma string_get_chars n s : String.get n s = chars s !! n.
Proof. revert n. induction s as [|c s IH]; intros [|n]; simpl; try done. Qed.

Lemma string_length_app s t : String.length (s +:+ t) = String.length s + String.length t.
Proof. induction s; simpl; auto. Qed.

Lemma nonce_char_spec b :
  exists c, nonce_char b = String.String c "" /\ c ∈ chars NONCE_CHARS.
Proof.
  unfold nonce_char. rewrite string_get_chars.
  assert (Hb : (0 <= b mod nonce_char_count < 29)%Z).
  { change nonce_char_count with 29%Z. by apply Z.mod_pos_bound. }
  destruct (chars NONCE_CHARS !! Z.to_nat (b mod nonce_char_count)) as [c|] eqn:E.
  - exists c. split; [done|]. by eapply list_elem_of_lookup_2.
  - apply lookup_ge_None in E. change (length (chars NONCE_CHARS)) with 29 in E. lia.
Qed.

(** What the loop maintains of the accumulated string. *)
Definition nonce_inv (len : nat) (s : string) : Prop :=
  String.length s <= len /\ Forall (fun c => c ∈ chars NONCE_CHARS) (chars s).

Lemma nonce_round_inv len bytes s : nonce_inv len s -> nonce_inv len (nonce_round len bytes s).
Proof.
  revert s. induction bytes as [|b bytes IH]; intros s Hs; simpl; [done|].
  apply IH. destruct (_ <? _)%Z; simpl; [|done]. destruct (Nat.ltb_spec (String.length s) len); [|done].
  destruct Hs as [Hl Hc]. destruct (nonce_char_spec b) as (c & -> & Hin). split.
  - rewrite string_length_app. simpl. lia.
  - rewrite chars_app. apply Forall_app. split; [done|]. apply Forall_singleton, Hin.
Qed.

Lemma nonce_round_mono len bytes s : String.length s <= String.length (nonce_round len bytes s).
Proof.
  revert s. induction bytes as [|b bytes IH]; intros s; simpl; [done|].
  etransitivity; [|apply IH]. destruct (_ && _); [|done]. rewrite string_length_app. lia.
Qed.

(** One accepted byte makes the accumulated string longer. *)
Lemma nonce_round_progress len bytes s :
  (exists b, b ∈ bytes /\ (b < nonce_limit)%Z) -> String.length s < len ->
  String.length s < String.length (nonce_round len bytes s).
Proof.
  revert s. induction bytes as [|b bytes IH]; intros s (x & Hx & Hlt) Hs; simpl.
  { by apply not_elem_of_nil in Hx. }
  destruct (Z.ltb_spec b nonce_limit); simpl.
  - apply Nat.ltb_lt in Hs. rewrite Hs.
    eapply Nat.lt_le_trans; [|apply nonce_round_mono].
    destruct (nonce_char_spec b) as (c & -> & _). rewrite string_length_app. simpl. lia.
  - apply elem_of_cons in Hx as [->|Hx]; [lia|]. apply IH; eauto.
Qed.

Lemma generateNonce_loop_spec rng len fuel i s :
  (forall i n, 0 < n -> exists b, b ∈ rng i n /\ (b < nonce_limit)%Z) ->
  nonce_inv len s -> len <= fuel + String.length s ->
  exists r, generateNonce_loop fuel rng i len s = Some r /\ nonce_inv len r /\ String.length r = len.
Proof.
  intros Hrng. revert i s. induction fuel as [|fuel IH]; intros i s Hs Hf; simpl;
  destruct (Nat.ltb_spec (String.length s) len) as [Hlt|Hge].
  - lia.
  - exists s. destruct Hs as [? ?]. split_and!; [done|done|lia].
  - apply IH; [by apply nonce_round_inv|].
    pose proof (nonce_round_progress len (rng i (len - String.length s)) s
                  ltac:(apply Hrng; lia) Hlt). lia.
  - exists s. destruct Hs as [? ?]. split_and!; [done|done|lia].
Qed.

(** * Properties *)

(** C22: Lifecycle invariant: a query created by the aggregate and transformed by
    any sequence of its operations keeps status, payment status and escrow
    mode consistent: released exactly when approved, cancelled exactly when
    rejected or expired, held funds otherwise. *)
Theorem lifecycle_invariant `{U : UrlApi} input opts svc q0 q :
  createQueryAggregate input opts svc = TOk q0 -> domain_steps q0 q -> query_ok q = true.
Proof. eauto using steps_query_ok, create_query_ok. Qed.

(** Terminal states admit no further operation of the aggregate. *)
Theorem terminal_absorbing q q' :
  isTerminal (q_status q) = true -> domain_steps q q' -> q' = q.
Proof.
  intros Ht Hs. inversion Hs as [|? q1 ? [op H] _]; [done|]. subst.
  apply step_nonterminal in H. congruence.
Qed.

(** Every successful operation follows the transition tables; cancellation,
    which the tables do not list for escrow queries, only leaves open states. *)
Theorem transitions_follow_tables op q q' :
  query_ok q = true -> run_op op q = TOk q' ->
  (exists o, op = OpAddOffer o) /\ q_status q' = q_status q \/
  op = OpCancel /\ isOpenStatus (q_status q) = true /\ q_status q' = rejected \/
  isValidTransition (q_status q) (q_status q') (is_escrow q) = true.
Proof. apply step_tables. Qed.

(** Bounded lifecycle: apart from recording offers, at most four operations
    of any run succeed, each moving the status strictly forward. *)
Theorem lifecycle_terminates ops q q' :
  run_ops ops q = Some q' ->
  length (List.filter (fun op => negb (is_offer op)) ops) <= 4 - rank (q_status q).
Proof.
  intros H%run_ops_rank. assert (rank (q_status q') <= 4) by (destruct (q_status q'); simpl; lia). lia.
Qed.

(** C23: Payment refinement: every operation simulates a step of the one-shot
    payment contract; funds are released only on a passing verdict. *)
Theorem payment_refines_contract op q q' :
  query_ok q = true -> run_op op q = TOk q' ->
  pay_step (pay_view q) (op_verdict op) (pay_view q').
Proof. apply step_pay. Qed.

(** Provider binding: after a provider with a non-empty key is selected, a
    result is accepted from that key only, whatever happens in between. *)
Theorem provider_binding q pk u q1 q2 r pk' bk now q3 :
  pk <> "" -> up_provider_pubkey u = None ->
  selectProvider q pk u = TOk q1 -> domain_steps q1 q2 ->
  recordResult q2 r pk' bk now = TOk q3 -> pk' = pk.
Proof. eauto using bound_to_recordResult, steps_bound_to, select_bound_to. Qed.

(** The terms of a query - identity, deadline, oracle set, quorum, and of its
    escrow the type with hash or group key, refund key and locktime - never change. *)
Theorem terms_immutable q q' : domain_steps q q' -> query_terms q' = query_terms q.
Proof. apply steps_terms. Qed.

(** An escrow query is created only with a locktime that is finite and at least
    [MIN_ESCROW_LOCKTIME_SECS] away, provided the locktime is truthy. *)
Theorem escrow_locktime_floor `{U : UrlApi} input opts svc q e :
  createQueryAggregate input opts svc = TOk q -> co_escrow opts = Some e ->
  num_truthy (esc_locktime e) = true ->
  isFinite (esc_locktime e) = true /\
  (nsub (esc_locktime e) (nfloor_div (svc_now svc) 1000) <ₙ MIN_ESCROW_LOCKTIME_SECS) = false.
Proof.
  unfold createQueryAggregate, escrow_locktime_error, validateEscrowLocktime.
  intros H He Ht. rewrite He, Ht in H. repeat case_match; simplify_eq/=; by bool_to_prop.
Qed.

(** A falsy locktime (zero or NaN) skips the locktime check altogether. *)
Theorem falsy_locktime_accepted `{U : UrlApi} input opts svc e :
  validateQueryInput input = None -> co_escrow opts = Some e ->
  num_truthy (esc_locktime e) = false ->
  exists q, createQueryAggregate input opts svc = TOk q /\ q_escrow q = Some e.
Proof.
  intros Hi He Hl. unfold createQueryAggregate, escrow_locktime_error.
  rewrite Hi, He, Hl. by eexists.
Qed.

(** Nonce generation: as long as every batch of random bytes contains one below
    the rejection limit, [length] rounds suffice, and the nonce has exactly the
    requested length over the unambiguous alphabet. *)
Theorem generateNonce_correct rng len :
  (forall i n, 0 < n -> exists b, b ∈ rng i n /\ (b < nonce_limit)%Z) ->
  exists s, generateNonce len rng len = Some s /\ String.length s = len /\
    Forall (fun c => c ∈ chars NONCE_CHARS) (chars s).
Proof.
  intros H. destruct (generateNonce_loop_spec rng len len 0 "" H) as (r & Hr & [_ ?] & ?).
  - split; [simpl; lia|constructor].
  - simpl. lia.
  - by exists r.
Qed.

(** Rejection sampling is unbiased: each of the 29 characters is hit by exactly
    eight of the accepted byte values. *)
Theorem nonce_unbiased :
  Forall (fun c =>
    length (List.filter (fun b => (b <? nonce_limit)%Z && (nonce_char b === String.String c ""))
      (Z.of_nat <$> seq 0 256)) = 8) (chars NONCE_CHARS).
Proof.
  let l := eval vm_compute in (chars NONCE_CHARS) in change (chars NONCE_CHARS) with l.
  repeat (apply Forall_cons; split; [vm_compute; reflexivity|]). apply Forall_nil_2.
Qed.

(** * Witnesses *)
Section witnesses.
Local Existing Instance sample_urls.

Definition sample_options : CreateQueryAggregateOptions :=
  mkCreateOptions (num 600000) None None None (Some sample_escrow) None None.
Definition sample_services : DomainServices := mkDomainServices (num 1000000) "q1" "NONCE1".
Definition sample_created : Query :=
  match createQueryAggregate sample_input sample_options sample_services with
  | TOk q => q
  | TErr _ => sample_query "" pending none None
  end.
Definition sample_selected : Query :=
  match selectProvider sample_created "prov" no_updates with TOk q => q | TErr _ => sample_created end.
Definition sample_processing : Query :=
  match beginWork sample_selected with TOk q => q | TErr _ => sample_created end.

Lemma select_step : domain_step sample_created sample_selected.
Proof. by exists (OpSelectProvider "prov" no_updates). Defined.
Lemma begin_step : domain_step sample_selected sample_processing.
Proof. by exists OpBeginWork. Defined.

Lemma lifecycle_invariant_witness : query_ok sample_processing = true.
Proof.
  apply (lifecycle_invariant sample_input sample_options sample_services sample_created);
    [reflexivity|].
  eapply rtc_l; [apply select_step|]. eapply rtc_l; [apply begin_step|]. apply rtc_refl.
Defined.

Lemma terminal_absorbing_witness :
  sample_query "q" approved released None = sample_query "q" approved released None.
Proof. apply terminal_absorbing; [reflexivity|]. apply rtc_refl. Defined.

Lemma transitions_follow_tables_witness :
  (exists o, OpBeginWork = OpAddOffer o) /\ q_status sample_processing = q_status sample_selected \/
  OpBeginWork = OpCancel /\ isOpenStatus (q_status sample_selected) = true /\
    q_status sample_processing = rejected \/
  isValidTransition (q_status sample_selected) (q_status sample_processing)
    (is_escrow sample_selected) = true.
Proof. apply (transitions_follow_tables OpBeginWork sample_selected); reflexivity. Defined.

Lemma lifecycle_terminates_witness :
  length (List.filter (fun op => negb (is_offer op))
    [OpSelectProvider "prov" no_updates; OpBeginWork]) <= 4.
Proof.
  apply (lifecycle_terminates [OpSelectProvider "prov" no_updates; OpBeginWork]
           sample_created sample_processing).
  reflexivity.
Defined.

Lemma payment_refines_contract_witness :
  pay_step Held None (pay_view sample_processing).
Proof. apply (payment_refines_contract OpBeginWork sample_selected); reflexivity. Defined.

Lemma provider_binding_witness : "prov" = "prov".
Proof.
  eapply (provider_binding sample_created "prov" no_updates sample_selected sample_processing
           sample_result "prov" None (num 2000000)); [done|reflexivity|reflexivity| |reflexivity].
  eapply rtc_l; [apply begin_step|]. apply rtc_refl.
Defined.

Lemma terms_immutable_witness : query_terms sample_processing = query_terms sample_created.
Proof.
  apply terms_immutable.
  eapply rtc_l; [apply select_step|]. eapply rtc_l; [apply begin_step|]. apply rtc_refl.
Defined.

Lemma escrow_locktime_floor_witness :
  isFinite (num 5000) = true /\
  (nsub (num 5000) (nfloor_div (num 1000000) 1000) <ₙ MIN_ESCROW_LOCKTIME_SECS) = false.
Proof.
  apply (escrow_locktime_floor sample_input sample_options sample_services sample_created
           sample_escrow); reflexivity.
Defined.

Definition zero_locktime_escrow : EscrowInfo :=
  mkEscrowInfo (htlc "h1") ["oracle-1"] "customer-1" None (num 0) None None None.

Lemma falsy_locktime_accepted_witness :
  exists q, createQueryAggregate sample_input
    (mkCreateOptions (num 600000) None None None (Some zero_locktime_escrow) None None)
    sample_services = TOk q /\ q_escrow q = Some zero_locktime_escrow.
Proof. apply falsy_locktime_accepted; reflexivity. Defined.

Lemma generateNonce_correct_witness :
  exists s, generateNonce 6 (fun _ n => repeat 30%Z n) 6 = Some s /\ String.length s = 6 /\
    Forall (fun c => c ∈ chars NONCE_CHARS) (chars s).
Proof.
  apply generateNonce_correct. intros i n Hn. exists 30%Z. split.
  - destruct n; [lia|]. simpl. left.
  - reflexivity.
Defined.
End witnesses.
