(* ===== verification/OracleRegistry.v ===== *)
(** * The Oracle registry

    [packages/sdk/src/adapters/oracle-client/registry.ts]: an insertion-ordered
    map from oracle id to oracle, and the resolution policy.  [OracleRegistryOps]
    is the port the request engine is written against
    ([requests/application/ports.ts]); its laws are what the quorum logic needs. *)

From S2P Require Import Prelude JsNum JsMap JsString JsValue QueryTypes Samples.

Notation OracleMap := (jsmap string Oracle) (only parsing).

Definition registry_get (m : OracleMap) (id : string) : option Oracle := jm_get id m.

Definition registry_list (m : OracleMap) : list OracleInfo := o_info <$> jm_values m.

Definition registry_register (m : OracleMap) (oracle : Oracle) : OracleMap :=
  jm_set (oi_id (o_info oracle)) oracle m.

(** [acceptableIds?.length] as a truthiness test: the list when it is non-empty. *)
Definition nonempty (acceptableIds : option (list string)) : option (list string) :=
  match acceptableIds with Some (x :: l) => Some (x :: l) | _ => None end.

Definition registry_resolve (m : OracleMap) (oracleId : option string)
    (acceptableIds : option (list string)) : option Oracle :=
  match truthy oracleId with
  | Some id =>
      match nonempty acceptableIds with
      | Some ids => if bool_decide (id ∈ ids) then registry_get m id else None
      | None => registry_get m id
      end
  | None =>
      match acceptableIds with
      | Some [id] => registry_get m id
      | _ => None
      end
  end.

(** The two loops of [resolveMultiple]: stop once [result.length >= count]. *)
Fixpoint resolve_ids (m : OracleMap) (ids : list string) (count : number) (result : list Oracle)
    : list Oracle :=
  match ids with
  | [] => result
  | id :: ids' =>
      if num (Z.of_nat (length result)) ≥ₙ count then result
      else match registry_get m id with
           | Some o => resolve_ids m ids' count (result ++ [o])
           | None => resolve_ids m ids' count result
           end
  end.

Fixpoint take_oracles (os : list Oracle) (count : number) (result : list Oracle) : list Oracle :=
  match os with
  | [] => result
  | o :: os' =>
      if num (Z.of_nat (length result)) ≥ₙ count then result
      else take_oracles os' count (result ++ [o])
  end.

Definition registry_resolveMultiple (m : OracleMap) (acceptableIds : option (list string))
    (count : number) : list Oracle :=
  match nonempty acceptableIds with
  | Some ids => resolve_ids m ids count []
  | None => take_oracles (jm_values m) count []
  end.

(** ** The port *)
Record OracleRegistryOps := mkRegistryOps {
  reg_resolve : option string -> option (list string) -> option Oracle;
  reg_resolveMultiple : option (list string) -> number -> list Oracle;
}.

Definition registry_ops (m : OracleMap) : OracleRegistryOps :=
  mkRegistryOps (registry_resolve m) (registry_resolveMultiple m).

(** What the engine may assume of a registry: an oracle it resolves carries
    the id it was resolved under, and an acceptable-id list is respected. *)
Class RegistryLaws (ops : OracleRegistryOps) := {
  resolve_respects oid ids o :
    reg_resolve ops oid (Some ids) = Some o -> ids <> [] -> oi_id (o_info o) ∈ ids;
  resolveMultiple_respects ids count o :
    o ∈ reg_resolveMultiple ops (Some ids) count -> ids <> [] -> oi_id (o_info o) ∈ ids;
}.

(** Every entry is stored under its own id. *)
Definition registry_ok (m : OracleMap) : Prop :=
  jm_wf m /\ forall id o, jm_get id m = Some o -> oi_id (o_info o) = id.

(** * Proofs *)
Lemma registry_ok_empty : registry_ok [].
Proof. split; [apply jm_wf_empty|done]. Qed.

Lemma registry_ok_register m o : registry_ok m -> registry_ok (registry_register m o).
Proof.
  intros [Hwf Hid]. split; [by apply jm_wf_set|].
  intros id o'. unfold registry_register. rewrite jm_get_set. case_bool_decide; naive_solver.
Qed.

Lemma nonempty_Some ids : ids <> [] -> nonempty (Some ids) = Some ids.
Proof. by destruct ids. Qed.

Lemma resolve_ids_in m ids count acc o :
  registry_ok m -> o ∈ resolve_ids m ids count acc -> o ∈ acc \/ oi_id (o_info o) ∈ ids.
Proof.
  intros [_ Hid]. revert acc. induction ids as [|id ids IH]; intros acc; simpl; [auto|].
  case_match; [auto|]. unfold registry_get.
  destruct (jm_get id m) as [o'|] eqn:E; intros Hin%IH; rewrite elem_of_cons; [|tauto].
  rewrite elem_of_app, list_elem_of_singleton in Hin.
  destruct Hin as [[?| ->]|?]; [tauto| |tauto]. right. left. by apply Hid in E.
Qed.

Lemma resolve_ids_app m ids count acc :
  exists l, resolve_ids m ids count acc = acc ++ l /\
    (forall o, o ∈ l -> exists id, id ∈ ids /\ jm_get id m = Some o) /\ length l <= length ids.
Proof.
  revert acc. induction ids as [|id ids IH]; intros acc; simpl.
  - exists []. rewrite app_nil_r. split_and!; [done| |done]. by intros o ?%not_elem_of_nil.
  - case_match; [exists []; rewrite app_nil_r; split_and!; [done|by intros o ?%not_elem_of_nil|simpl; lia]|].
    unfold registry_get. destruct (jm_get id m) as [o'|] eqn:E.
    + destruct (IH (acc ++ [o'])) as (l & -> & Hl & Hlen). exists (o' :: l).
      rewrite <- app_assoc. split_and!; [done| |simpl; lia].
      intros o [->|Ho]%elem_of_cons; [exists id; split; [left|done]|].
      destruct (Hl _ Ho) as (i & ? & ?). exists i. split; [by right|done].
    + destruct (IH acc) as (l & -> & Hl & Hlen). exists l. split_and!; [done| |simpl; lia].
      intros o Ho. destruct (Hl _ Ho) as (i & ? & ?). exists i. split; [by right|done].
Qed.

(** Bounded: never more than [count] oracles beyond what was there. *)
Lemma resolve_ids_bound m ids k acc :
  length acc <= k -> length (resolve_ids m ids (num (Z.of_nat k)) acc) <= k.
Proof.
  revert acc. induction ids as [|id ids IH]; intros acc Hk; simpl; [done|].
  rewrite nge_num. destruct (Z.leb_spec (Z.of_nat k) (Z.of_nat (length acc))); [done|].
  destruct (registry_get m id); apply IH; rewrite ?length_app; simpl; lia.
Qed.

Lemma take_oracles_take os k acc :
  length acc <= k ->
  take_oracles os (num (Z.of_nat k)) acc = acc ++ take (k - length acc) os.
Proof.
  revert acc. induction os as [|o os IH]; intros acc Hk; simpl.
  - by rewrite take_nil, app_nil_r.
  - rewrite nge_num. destruct (Z.leb_spec (Z.of_nat k) (Z.of_nat (length acc))).
    + replace (k - length acc) with 0 by lia. by rewrite app_nil_r.
    + rewrite IH by (rewrite length_app; simpl; lia). rewrite length_app. simpl.
      replace (k - length acc) with (S (k - (length acc + 1))) by lia.
      by rewrite <- app_assoc.
Qed.

Lemma registry_laws m : registry_ok m -> RegistryLaws (registry_ops m).
Proof.
  intros Hok. constructor; simpl.
  - intros oid ids o H Hne. unfold registry_resolve, registry_get in H.
    rewrite nonempty_Some in H by done. destruct Hok as [_ Hid].
    destruct (truthy oid) as [id|].
    + case_bool_decide; [|done]. apply Hid in H as Hi. by subst.
    + destruct ids as [|i [|j l]]; try done. apply Hid in H. subst. left.
  - intros ids count o H Hne. unfold registry_resolveMultiple in H.
    rewrite nonempty_Some in H by done.
    apply resolve_ids_in in H as [?%not_elem_of_nil|?]; done.
Qed.

Lemma resolve_ids_ids m ids count acc :
  registry_ok m ->
  exists l, resolve_ids m ids count acc = acc ++ l /\ ((fun o => oi_id (o_info o)) <$> l) `sublist_of` ids.
Proof.
  intros [_ Hid]. revert acc. induction ids as [|id ids IH]; intros acc; simpl.
  - exists []. by rewrite app_nil_r.
  - case_match; [exists []; rewrite app_nil_r; split; [done|apply sublist_nil_l]|].
    unfold registry_get. destruct (jm_get id m) as [o'|] eqn:E.
    + destruct (IH (acc ++ [o'])) as (l & -> & Hl). exists (o' :: l).
      rewrite <- app_assoc. split; [done|]. rewrite fmap_cons, (Hid _ _ E). by apply sublist_skip.
    + destruct (IH acc) as (l & -> & Hl). exists l. split; [done|]. by apply sublist_cons.
Qed.

Lemma resolveMultiple_nodup m ids count :
  registry_ok m -> ids <> [] -> NoDup ids ->
  NoDup ((fun o => oi_id (o_info o)) <$> registry_resolveMultiple m (Some ids) count).
Proof.
  intros Hok Hne Hnd. unfold registry_resolveMultiple. rewrite nonempty_Some by done.
  destruct (resolve_ids_ids m ids count [] Hok) as (l & -> & Hsub). simpl.
  by eapply sublist_NoDup.
Qed.

(** * Properties *)

(** A registry built by registrations alone satisfies the port's laws:
    resolution never leaves the customer's non-empty acceptable set, whatever
    oracle id the provider asks for. *)
Theorem registry_built_satisfies_laws (os : list Oracle) :
  RegistryLaws (registry_ops (fold_left registry_register os [])).
Proof.
  apply registry_laws.
  assert (H : forall m, registry_ok m -> registry_ok (fold_left registry_register os m)).
  { induction os as [|o os IH]; intros m Hm; simpl; [done|]. by apply IH, registry_ok_register. }
  apply H, registry_ok_empty.
Qed.

(** [resolveMultiple] with no acceptable list returns the [count] oldest
    registrations in registration order; with a list, at most [count] oracles,
    each registered under a listed id. *)
Theorem resolveMultiple_spec m k :
  registry_resolveMultiple m None (num (Z.of_nat k)) = take k (jm_values m) /\
  forall ids, ids <> [] ->
    let r := registry_resolveMultiple m (Some ids) (num (Z.of_nat k)) in
    length r <= k /\ forall o, o ∈ r -> exists id, id ∈ ids /\ registry_get m id = Some o.
Proof.
  split.
  - unfold registry_resolveMultiple. simpl. rewrite take_oracles_take by (simpl; lia).
    simpl. by rewrite Nat.sub_0_r.
  - intros ids Hne. unfold registry_resolveMultiple. rewrite nonempty_Some by done. split.
    + apply resolve_ids_bound. simpl. lia.
    + destruct (resolve_ids_app m ids (num (Z.of_nat k)) []) as (l & -> & Hl & _). done.
Qed.
