(* ===== verification/QueryVerification.v ===== *)
(** * Oracle verification of a submitted result

    [packages/sdk/src/requests/application/query-verification.ts] and
    [verification-orchestration.ts]: single-oracle verification, m-of-n quorum
    verification and the finalized query record.  Oracles are reached through
    resolver callbacks; an oracle call may reject, which rejects the whole
    verification. *)

From S2P Require Import Prelude JsNum JsMap JsString JsValue QueryTypes Samples.
From S2P Require Import QueryDomain OracleRegistry.

Record QuorumVerificationResult := mkQvr {
  qv_passed : bool;
  qv_attestations : list OracleAttestationRecord;
  qv_verification : VerificationDetail;
}.

Notation OracleResolver := (option string -> option (list string) -> option Oracle) (only parsing).
Notation MultiOracleResolver := (option (list string) -> number -> list Oracle) (only parsing).

Definition toAttestationRecord (a : OracleAttestation) : OracleAttestationRecord :=
  mkAttestationRecord (oa_oracle_id a) (oa_passed a) (oa_checks a) (oa_failures a)
    (oa_attested_at a) (oa_schema_verdict a).

(** A refusal: not passed, no attestation, one failure line. *)
Definition refusal (failure : string) : QuorumVerificationResult :=
  mkQvr false [] (mkVerificationDetail false [] [failure] None None).

Definition verifySingleOracle (query : Query) (result : QueryResult)
    (resolveOracle : OracleResolver) (effectiveOracleId : option string)
    (blossomKeys : option BlossomKeyMap) : res QuorumVerificationResult :=
  match resolveOracle effectiveOracleId (q_oracle_ids query) with
  | None =>
      Ok (refusal
        match truthy effectiveOracleId with
        | Some id => "Oracle " +:+ dquote +:+ id +:+ dquote +:+
                     " is not available or not accepted for this query"
        | None => "No oracle available for this query"
        end)
  | Some oracle =>
      att ← o_verify oracle query result blossomKeys;
      Ok (mkQvr (oa_passed att) [toAttestationRecord att]
            (mkVerificationDetail (oa_passed att) (oa_checks att) (oa_failures att) None
               (oa_schema_verdict att)))
  end.

(** [Promise.all(oracles.map((o) => o.verify(...)))] *)
Definition verify_all (oracles : list Oracle) (query : Query) (result : QueryResult)
    (blossomKeys : option BlossomKeyMap) : res (list OracleAttestation) :=
  mapM (fun o => o_verify o query result blossomKeys) oracles.

Definition pass_count (records : list OracleAttestationRecord) : nat :=
  length (List.filter rec_passed records).

Definition verifyQuorum (query : Query) (quorum : QuorumConfig) (result : QueryResult)
    (resolveMultiple : option MultiOracleResolver) (blossomKeys : option BlossomKeyMap)
    : res QuorumVerificationResult :=
  match resolveMultiple with
  | None => Ok (refusal "No oracle registry with resolveMultiple support")
  | Some resolveMultiple =>
      let needed := nadd (min_approvals quorum) (num 2) in
      let oracles := resolveMultiple (q_oracle_ids query) needed in
      if num (Z.of_nat (length oracles)) <ₙ min_approvals quorum then
        Ok (refusal ("Need " +:+ number_to_string (min_approvals quorum) +:+
                     " oracles but only " +:+ pretty (length oracles) +:+ " available"))
      else
        rawAtts ← verify_all oracles query result blossomKeys;
        let records := toAttestationRecord <$> rawAtts in
        let passCount := pass_count records in
        let passed := num (Z.of_nat passCount) ≥ₙ min_approvals quorum in
        let firstPass := List.find rec_passed records in
        let allChecks := concat (rec_checks <$> records) in
        let allFailures := concat (rec_failures <$> records) in
        Ok (mkQvr passed records
              (mkVerificationDetail passed allChecks allFailures None
                 (firstPass ≫= rec_schema_verdict)))
  end.

Definition effective_oracle_id (query : Query) (oracleId : option string) : option string :=
  match nonempty (q_oracle_ids query) with Some _ => oracleId | None => None end.

Definition verifyWithQuorum (query : Query) (result : QueryResult)
    (resolveOracle : OracleResolver) (resolveMultiple : option MultiOracleResolver)
    (blossomKeys : option BlossomKeyMap) (oracleId : option string)
    : res QuorumVerificationResult :=
  match q_quorum query with
  | None =>
      verifySingleOracle query result resolveOracle (effective_oracle_id query oracleId)
        blossomKeys
  | Some quorum => verifyQuorum query quorum result resolveMultiple blossomKeys
  end.

(** ** Finalization: [verifyAndFinalize] once the verification has settled *)
Definition finalize (query : Query) (v : QuorumVerificationResult) : Query :=
  query <| q_status := if qv_passed v then approved else rejected |>
        <| q_payment_status := if qv_passed v then released else cancelled |>
        <| q_verification := Some (qv_verification v) |>
        <| q_assigned_oracle_id := first_oracle (Some (qv_attestations v)) |>
        <| q_attestations := quorum_attestations query (Some (qv_attestations v)) |>.

Definition verifyAndFinalize (query : Query) (normalizedResult : QueryResult)
    (oracleResolver : OracleResolver) (multiOracleResolver : option MultiOracleResolver)
    (blossomKeys : option BlossomKeyMap) (oracleId : option string)
    : res (QuorumVerificationResult * Query) :=
  v ← verifyWithQuorum query normalizedResult oracleResolver multiOracleResolver
        blossomKeys oracleId;
  Ok (v, finalize query v).

(** * Proofs *)

(** A record was obtained by asking the oracle [o]. *)
Definition attested_by (q : Query) (r : QueryResult) (bk : option BlossomKeyMap)
    (a : OracleAttestationRecord) (o : Oracle) : Prop :=
  exists att, o_verify o q r bk = Ok att /\ a = toAttestationRecord att.

Lemma verify_all_Ok oracles q r bk atts :
  verify_all oracles q r bk = Ok atts ->
  Forall2 (attested_by q r bk) (toAttestationRecord <$> atts) oracles.
Proof.
  unfold verify_all. revert atts. induction oracles as [|o os IH]; intros atts; simpl.
  - intros H. inversion H; subst. constructor.
  - intros (a & Ha & (l & Hl & H)%bind_Ok)%bind_Ok. inversion H; subst.
    rewrite fmap_cons. constructor; [by exists a|by apply IH].
Qed.

Lemma pass_count_zero records : pass_count records = 0 <-> Forall (fun a => rec_passed a = false) records.
Proof.
  unfold pass_count. induction records as [|a l IH]; simpl; [split; [constructor|done]|].
  rewrite Forall_cons, <- IH. destruct (rec_passed a); simpl; naive_solver.
Qed.

Lemma single_Ok q r res_o oid bk v :
  verifySingleOracle q r res_o oid bk = Ok v ->
  match res_o oid (q_oracle_ids q) with
  | None => qv_passed v = false /\ qv_attestations v = []
  | Some o => exists att, o_verify o q r bk = Ok att /\
                qv_passed v = oa_passed att /\ qv_attestations v = [toAttestationRecord att]
  end.
Proof.
  unfold verifySingleOracle. destruct (res_o _ _) as [o|].
  - intros (att & Ha & H)%bind_Ok. inversion H; subst. by exists att.
  - intros H. by inversion H; subst.
Qed.

Lemma quorum_Ok q m r resM bk v :
  verifyQuorum q m r resM bk = Ok v ->
  qv_passed v = false /\ qv_attestations v = [] \/
  exists rm, resM = Some rm /\
    let os := rm (q_oracle_ids q) (nadd (min_approvals m) (num 2)) in
    (num (Z.of_nat (length os)) <ₙ min_approvals m) = false /\
    Forall2 (attested_by q r bk) (qv_attestations v) os /\
    qv_passed v = (num (Z.of_nat (pass_count (qv_attestations v))) ≥ₙ min_approvals m) /\
    vd_passed (qv_verification v) = qv_passed v.
Proof.
  unfold verifyQuorum. destruct resM as [rm|]; [|intros H; left; by inversion H; subst].
  destruct (_ <ₙ _) eqn:E; [intros H; left; by inversion H; subst|].
  intros (atts & Ha & H)%bind_Ok. inversion H; subst. right. exists rm.
  split_and!; try done. by apply verify_all_Ok.
Qed.

(** The verdict carried to the query is the verdict. *)
Lemma verify_detail_passed q r ro rm bk oid v :
  verifyWithQuorum q r ro rm bk oid = Ok v -> vd_passed (qv_verification v) = qv_passed v.
Proof.
  unfold verifyWithQuorum, verifySingleOracle, verifyQuorum. intros H.
  repeat case_match; try (by inversion H; subst);
    apply bind_Ok in H as (x & _ & H); by inversion H; subst.
Qed.

Lemma finalize_ok q v : query_ok (finalize q v) = true.
Proof. unfold query_ok, payment_ok, finalize. simpl. by destruct (qv_passed v). Qed.

(** The oracles behind the passing records, in order. *)
Lemma passing_oracles q r bk records os :
  Forall2 (attested_by q r bk) records os ->
  exists os', os' `sublist_of` os /\ length os' = pass_count records /\
    Forall (fun o => exists att, o_verify o q r bk = Ok att /\ oa_passed att = true) os'.
Proof.
  unfold pass_count. induction 1 as [|a o l os (att & Hv & ->) _ (os' & Hs & Hlen & Hall)]; simpl.
  - exists []. by split_and!.
  - destruct (oa_passed att) eqn:E; simpl.
    + exists (o :: os'). split_and!; [by apply sublist_skip|simpl; lia|].
      constructor; [by exists att|done].
    + exists os'. split_and!; [by apply sublist_cons|done|done].
Qed.

Lemma resolveMultiple_get m ids count o :
  registry_ok m -> ids <> [] -> o ∈ registry_resolveMultiple m (Some ids) count ->
  oi_id (o_info o) ∈ ids /\ registry_get m (oi_id (o_info o)) = Some o.
Proof.
  intros Hok Hne. unfold registry_resolveMultiple. rewrite nonempty_Some by done.
  destruct (resolve_ids_app m ids count []) as (l & -> & Hl & _). simpl. intros Ho.
  destruct (Hl _ Ho) as (id & Hin & Hg). destruct Hok as [_ Hid].
  pose proof (Hid _ _ Hg). by subst.
Qed.

(** * Properties *)

(** C25: Quorum threshold: a settled quorum verification passes exactly when at
    least [k] of the collected attestations pass, and the verdict carried to
    the query is the same. *)
Theorem quorum_threshold q m k r resO resM bk oid v :
  q_quorum q = Some m -> min_approvals m = num (Z.of_nat k) -> 0 < k ->
  verifyWithQuorum q r resO resM bk oid = Ok v ->
  (qv_passed v = true <-> k <= pass_count (qv_attestations v)) /\
  vd_passed (qv_verification v) = qv_passed v.
Proof.
  intros Hq Hk Hpos. unfold verifyWithQuorum. rewrite Hq.
  intros H. pose proof (quorum_Ok _ _ _ _ _ _ H) as [[Hp Ha]|(rm & _ & _ & _ & Hp & Hv)].
  - rewrite Hp, Ha. split; [split; [done|]; cbn; intros; lia|].
    rewrite <- Hp. eapply (verify_detail_passed q r resO resM bk oid). unfold verifyWithQuorum. by rewrite Hq.
  - split; [|done]. rewrite Hp, Hk, nge_num, Z.leb_le. lia.
Qed.

(** Customer whitelist: with a non-empty acceptable-oracle list and a lawful
    registry, every attestation was produced by an oracle of the list. *)
Theorem attestations_from_whitelist ops `{RegistryLaws ops} q ids r bk oid v :
  q_oracle_ids q = Some ids -> ids <> [] ->
  verifyWithQuorum q r (reg_resolve ops) (Some (reg_resolveMultiple ops)) bk oid = Ok v ->
  Forall (fun a => exists o, oi_id (o_info o) ∈ ids /\ attested_by q r bk a o) (qv_attestations v).
Proof.
  intros Hids Hne. unfold verifyWithQuorum. destruct (q_quorum q) as [m|].
  - intros [[_ ->]|(rm & Hrm & _ & Hall & _)]%quorum_Ok; [constructor|]. simplify_eq.
    rewrite Hids in Hall. apply Forall_forall. intros a Ha.
    apply list_elem_of_lookup in Ha as [i Hi].
    destruct (Forall2_lookup_l _ _ _ _ _ Hall Hi) as (o & Ho & Hat).
    exists o. split; [|done]. eapply resolveMultiple_respects; [|done].
    by eapply list_elem_of_lookup_2.
  - intros Hv%single_Ok. rewrite Hids in Hv. case_match eqn:Ho; [|by destruct Hv as [_ ->]].
    destruct Hv as (att & Hatt & _ & ->). apply Forall_singleton. eexists. split.
    + by eapply resolve_respects.
    + by exists att.
Qed.

(** A provider-supplied oracle id has no influence on a query that names no
    acceptable oracles. *)
Theorem provider_oracle_id_ignored q r resO resM bk oid :
  nonempty (q_oracle_ids q) = None ->
  verifyWithQuorum q r resO resM bk oid = verifyWithQuorum q r resO resM bk None.
Proof. intros H. unfold verifyWithQuorum, effective_oracle_id. by rewrite H. Qed.

(** Distinct approvals: when the acceptable list has no duplicates, a passing
    quorum is backed by at least [k] different registered oracles of the list,
    each of which really returned a passing attestation. *)
Theorem quorum_distinct_oracles m ids q qc k r resO bk oid v :
  registry_ok m -> q_oracle_ids q = Some ids -> ids <> [] -> NoDup ids ->
  q_quorum q = Some qc -> min_approvals qc = num (Z.of_nat k) ->
  verifyWithQuorum q r resO (Some (registry_resolveMultiple m)) bk oid = Ok v ->
  qv_passed v = true ->
  exists l, NoDup l /\ k <= length l /\
    Forall (fun id => id ∈ ids /\ exists o att, registry_get m id = Some o /\
              o_verify o q r bk = Ok att /\ oa_passed att = true) l.
Proof.
  intros Hok Hids Hne Hnd Hq Hk. unfold verifyWithQuorum. rewrite Hq.
  intros [[-> _]|(rm & Hrm & _ & Hall & -> & _)]%quorum_Ok; [done|].
  rewrite Hk, nge_num, Z.leb_le. intros Hp. simplify_eq. rewrite Hids in Hall.
  destruct (passing_oracles _ _ _ _ _ Hall) as (os' & Hsub & Hlen & Hpass).
  exists ((fun o => oi_id (o_info o)) <$> os'). split_and!.
  - eapply sublist_NoDup; [by apply resolveMultiple_nodup|]. by apply fmap_sublist.
  - rewrite length_fmap. lia.
  - apply Forall_fmap, Forall_forall. intros o Ho. simpl.
    destruct (resolveMultiple_get m ids _ o Hok Hne (elem_of_sublist _ _ _ Ho Hsub)).
    split; [done|]. rewrite Forall_forall in Hpass. destruct (Hpass _ Ho) as (att & ? & ?).
    by exists o, att.
Qed.

(** * Witnesses *)
Definition sample_registry : OracleMap :=
  fold_left registry_register
    [sample_oracle "o1" true; sample_oracle "o2" false; sample_oracle "o3" true] [].

Lemma sample_registry_ok : registry_ok sample_registry.
Proof. repeat apply registry_ok_register. apply registry_ok_empty. Defined.

Definition quorum_query : Query :=
  mkQuery "q1" None pending "d" None None [] (num 0) (num 10) None None
    (Some ["o1"; "o2"; "o3"]) None None None None None locked None None None None None
    (Some (mkQuorumConfig (num 2))) None.

Definition sample_verdict : QuorumVerificationResult :=
  match verifyWithQuorum quorum_query sample_result (registry_resolve sample_registry)
          (Some (registry_resolveMultiple sample_registry)) None None with
  | Ok v => v
  | Throw _ => refusal ""
  end.

Lemma quorum_threshold_witness :
  (qv_passed sample_verdict = true <-> 2 <= pass_count (qv_attestations sample_verdict)) /\
  vd_passed (qv_verification sample_verdict) = qv_passed sample_verdict.
Proof.
  apply (quorum_threshold quorum_query (mkQuorumConfig (num 2)) 2 sample_result
           (registry_resolve sample_registry) (Some (registry_resolveMultiple sample_registry))
           None None); [reflexivity|reflexivity|lia|reflexivity].
Defined.

Lemma attestations_from_whitelist_witness :
  Forall (fun a => exists o, oi_id (o_info o) ∈ ["o1"; "o2"; "o3"] /\
            attested_by quorum_query sample_result None a o) (qv_attestations sample_verdict).
Proof.
  pose proof (registry_laws _ sample_registry_ok) as HL.
  apply (attestations_from_whitelist (registry_ops sample_registry) quorum_query
           ["o1"; "o2"; "o3"] sample_result None None); [reflexivity|done|reflexivity].
Defined.

Lemma provider_oracle_id_ignored_witness :
  verifyWithQuorum (sample_query "q1" pending locked None) sample_result
    (fun _ _ => None) None None (Some "evil") = Ok (refusal
      ("Oracle " +:+ dquote +:+ "evil" +:+ dquote +:+
       " is not available or not accepted for this query")) /\
  verifyWithQuorum (mkQuery "q1" None pending "d" None None [] (num 0) (num 10) None None
    None None None None None None locked None None None None None None None) sample_result
    (registry_resolve sample_registry) None None (Some "o1") =
  verifyWithQuorum (mkQuery "q1" None pending "d" None None [] (num 0) (num 10) None None
    None None None None None None locked None None None None None None None) sample_result
    (registry_resolve sample_registry) None None None.
Proof. split; [reflexivity|]. apply provider_oracle_id_ignored. reflexivity. Defined.

Lemma quorum_distinct_oracles_witness :
  exists l, NoDup l /\ 2 <= length l /\
    Forall (fun id => id ∈ ["o1"; "o2"; "o3"] /\ exists o att,
      registry_get sample_registry id = Some o /\
      o_verify o quorum_query sample_result None = Ok att /\ oa_passed att = true) l.
Proof.
  apply (quorum_distinct_oracles sample_registry ["o1"; "o2"; "o3"] quorum_query
           (mkQuorumConfig (num 2)) 2 sample_result (fun _ _ => None) None None sample_verdict);
    [apply sample_registry_ok|reflexivity|done| |reflexivity|reflexivity|reflexivity|reflexivity].
  apply (bool_decide_unpack _). reflexivity.
Defined.
