(* ===== verification/PreimageStore.v ===== *)
(** * The HTLC preimage store and hash issuance

    [packages/sdk/src/payments/cashu/preimage-store.ts]: the in-memory store of
    preimage/hash pairs the Oracle keeps, and [issueQueryHash], the get-or-create
    rule "one hash per query id".  SHA-256 and the hex encoder are those of
    [@noble/hashes], reached through the interface [Noble]. *)

From S2P Require Import Prelude JsNum JsMap JsString.

Class Noble := {
  sha256 : list Z -> list Z;
  bytesToHex : list Z -> string;
}.

(** ** The source's hex decoder: [preimage.match(/.{2}/g)!.map((b) => parseInt(b, 16))] *)
Definition hex_val (c : Ascii.ascii) : option Z :=
  let n := Z.of_nat (code c) in
  (if (48 <=? n) && (n <=? 57) then Some (n - 48)
   else if (65 <=? n) && (n <=? 70) then Some (n - 55)
   else if (97 <=? n) && (n <=? 102) then Some (n - 87)
   else None)%Z.

Definition is_newline (c : Ascii.ascii) : bool := Nat.eqb (code c) 10 || Nat.eqb (code c) 13.

(** [parseInt] of two characters in base 16, stored into a [Uint8Array] slot
    (NaN is stored as 0, a negative value wraps). *)
Definition parse_pair (a b : Ascii.ascii) : Z :=
  match hex_val a with
  | Some h =>
      match hex_val b with
      | Some l => 16 * h + l
      | None => if (h =? 0) && (Nat.eqb (code b) 120 || Nat.eqb (code b) 88) then 0 else h
      end
  | None =>
      match hex_val b with
      | Some l =>
          if is_space a || Nat.eqb (code a) 43 then l
          else if Nat.eqb (code a) 45 then (- l) mod 256 else 0
      | None => 0
      end
  end%Z.

(** Successive non-overlapping matches of two non-newline characters. *)
Fixpoint hex_pairs (l : list Ascii.ascii) : list Z :=
  match l with
  | a :: ((b :: l') as t) =>
      if is_newline a then hex_pairs t
      else if is_newline b then hex_pairs l'
      else parse_pair a b :: hex_pairs l'
  | _ => []
  end.

Section store.
Context `{N : Noble}.

Record PreimageEntry := mkPreimageEntry {
  pe_hash : string;
  pe_preimage : string;
  pe_created_at : number;
}.

Notation Entries := (jsmap string PreimageEntry).

(** [createPreimage] on the 32 random bytes [raw]. *)
Definition createPreimage (raw : list Z) : string * string :=
  (bytesToHex raw, bytesToHex (sha256 raw)).

(** [None]: the [match] found nothing and [null.map] throws a TypeError. *)
Definition verifyPreimageHash (preimage hash : string) : res bool :=
  match hex_pairs (chars preimage) with
  | [] => Throw (mkExn "TypeError" "Cannot read properties of null (reading 'map')")
  | raw => Ok (bytesToHex (sha256 raw) === hash)
  end.

Definition ps_create (s : Entries) (raw : list Z) (now : number) : PreimageEntry * Entries :=
  let '(preimage, hash) := createPreimage raw in
  let entry := mkPreimageEntry hash preimage now in
  (entry, jm_set hash entry s).

Definition ps_getPreimage (s : Entries) (hash : string) : option string :=
  pe_preimage <$> jm_get hash s.

Definition ps_has (s : Entries) (hash : string) : bool := jm_has hash s.

Definition ps_verify (s : Entries) (hash preimage : string) : res bool :=
  match jm_get hash s with
  | None => Ok false
  | Some entry => verifyPreimageHash preimage (pe_hash entry)
  end.

Definition ps_delete (s : Entries) (hash : string) : Entries := jm_delete hash s.

(** ** [issueQueryHash], split at its [await] *)
Record IssueState := mkIssueState {
  is_entries : Entries;
  is_hashes : jsmap string string;  (* queryHashMap *)
}.

Record IssueResult := mkIssueResult { ir_hash : string; ir_created : bool }.

(** Up to the [await]: answer from the map, or go on to create. *)
Definition issue_begin (st : IssueState) (queryId : string) : option IssueResult :=
  match jm_get queryId (is_hashes st) with
  | Some existing => Some (mkIssueResult existing false)
  | None => None
  end.

(** [preimageStore.create()] of the in-memory store: the entry is there when the call
    returns, before the caller is resumed. *)
Definition issue_create (st : IssueState) (raw : list Z) (now : number) : PreimageEntry * IssueState :=
  let '(entry, entries') := ps_create (is_entries st) raw now in (entry, mkIssueState entries' (is_hashes st)).

(** After the [await]. *)
Definition issue_record (st : IssueState) (queryId : string) (entry : PreimageEntry) : IssueResult * IssueState :=
  (mkIssueResult (pe_hash entry) true, mkIssueState (is_entries st) (jm_set queryId (pe_hash entry) (is_hashes st))).

(** Both segments, with nothing in between. *)
Definition issue_end (st : IssueState) (queryId : string) (raw : list Z) (now : number)
    : IssueResult * IssueState :=
  let '(entry, st') := issue_create st raw now in issue_record st' queryId entry.

Definition issueQueryHash (st : IssueState) (queryId : string) (raw : list Z) (now : number)
    : IssueResult * IssueState :=
  match issue_begin st queryId with
  | Some r => (r, st)
  | None => issue_end st queryId raw now
  end.

(** ** Invariants *)
Definition is_byte (b : Z) : Prop := (0 <= b < 256)%Z.

(** The laws of the hashing library the store relies on: the hex encoder is
    inverted by the source's pair decoder, and a digest is not empty. *)
Class NobleLaws := {
  hex_decode raw : Forall is_byte raw -> hex_pairs (chars (bytesToHex raw)) = raw;
}.

(** Every entry is keyed by the hash of its own preimage. *)
Definition entry_ok (h : string) (e : PreimageEntry) : Prop :=
  pe_hash e = h /\ exists raw, Forall is_byte raw /\ raw <> [] /\
    pe_preimage e = bytesToHex raw /\ h = bytesToHex (sha256 raw).

Definition entries_ok (s : Entries) : Prop :=
  forall h e, jm_get h s = Some e -> entry_ok h e.

(** Every issued hash is backed by a stored preimage. *)
Definition issue_ok (st : IssueState) : Prop :=
  entries_ok (is_entries st) /\
  forall q h, jm_get q (is_hashes st) = Some h -> jm_has h (is_entries st) = true.

Lemma entries_ok_create s raw now :
  Forall is_byte raw -> raw <> [] -> entries_ok s -> entries_ok (ps_create s raw now).2.
Proof.
  intros Hb Hne Hs h e. simpl. rewrite jm_get_set. case_bool_decide; [|by apply Hs].
  intros. simplify_eq. split; [done|]. by exists raw.
Qed.

Lemma entries_ok_delete s h : entries_ok s -> entries_ok (ps_delete s h).
Proof.
  intros Hs h' e. unfold ps_delete. rewrite jm_get_delete. case_bool_decide; [done|apply Hs].
Qed.

Lemma issue_ok_end st qid raw now :
  Forall is_byte raw -> raw <> [] -> issue_ok st -> issue_ok (issue_end st qid raw now).2.
Proof.
  intros Hb Hne [He Hh]. split; [by apply (entries_ok_create _ _ now)|].
  intros q h. simpl. unfold jm_has. rewrite !jm_get_set.
  case_bool_decide; intros; simplify_eq.
  - by rewrite bool_decide_true.
  - case_bool_decide; [done|]. by apply (Hh q).
Qed.

Lemma issue_ok_preserved st qid raw now :
  Forall is_byte raw -> raw <> [] -> issue_ok st -> issue_ok (issueQueryHash st qid raw now).2.
Proof.
  intros. unfold issueQueryHash, issue_begin. destruct (jm_get _ _); [done|]. by apply issue_ok_end.
Qed.

Lemma issue_lookup st qid raw now :
  jm_get qid (is_hashes (issueQueryHash st qid raw now).2) = Some (ir_hash (issueQueryHash st qid raw now).1).
Proof.
  unfold issueQueryHash, issue_begin. destruct (jm_get qid (is_hashes st)) eqn:E; simpl; [done|].
  by rewrite jm_get_set_eq.
Qed.

(** ** Properties *)

(** Commitment: the hash returned for a query is backed by a stored preimage
    that hashes to it, and [verify] accepts exactly that preimage; the
    invariant holds of every state reached by issuing hashes. *)
Theorem issued_hash_is_commitment `{!NobleLaws} st qid raw now :
  Forall is_byte raw -> raw <> [] -> issue_ok st ->
  let '(r, st') := issueQueryHash st qid raw now in
  issue_ok st' /\
  exists p, ps_getPreimage (is_entries st') (ir_hash r) = Some p /\
    ps_verify (is_entries st') (ir_hash r) p = Ok true.
Proof.
  intros Hb Hne Hok.
  pose proof (issue_ok_preserved st qid raw now Hb Hne Hok) as Hok'.
  pose proof (issue_lookup st qid raw now) as Hl.
  destruct (issueQueryHash st qid raw now) as [r st']. simpl in *. split; [done|].
  destruct Hok' as [He Hh]. apply Hh in Hl. unfold jm_has in Hl.
  unfold ps_getPreimage, ps_verify.
  destruct (jm_get (ir_hash r) (is_entries st')) as [e|] eqn:E; [|done].
  destruct (He _ _ E) as (Hhash & raw' & Hb' & Hne' & Hp & Hr).
  exists (pe_preimage e). split; [done|]. unfold verifyPreimageHash.
  rewrite Hp, hex_decode by done. destruct raw'; [done|].
  by rewrite bool_decide_true by congruence.
Qed.

(** Idempotence: a repeated request for the same query returns the same hash,
    reports that nothing was created, and changes nothing. *)
Theorem issueQueryHash_idempotent st qid raw1 now1 raw2 now2 :
  let '(r1, st1) := issueQueryHash st qid raw1 now1 in
  issueQueryHash st1 qid raw2 now2 = (mkIssueResult (ir_hash r1) false, st1).
Proof.
  pose proof (issue_lookup st qid raw1 now1) as Hl.
  destruct (issueQueryHash st qid raw1 now1) as [r1 st1]. simpl in *.
  unfold issueQueryHash, issue_begin. by rewrite Hl.
Qed.

(** Interleaved at the [await], two first requests for one query id receive
    different commitments whenever their random preimages hash differently,
    and only the later one stays recorded. *)
Theorem issueQueryHash_interleaved st qid raw1 now1 raw2 now2 :
  issue_begin st qid = None ->
  bytesToHex (sha256 raw1) <> bytesToHex (sha256 raw2) ->
  let '(entry1, st1) := issue_create st raw1 now1 in
  let '(entry2, st2) := issue_create st1 raw2 now2 in
  let '(r1, st3) := issue_record st2 qid entry1 in
  let '(r2, st4) := issue_record st3 qid entry2 in
  issue_begin st1 qid = None /\ ir_hash r1 <> ir_hash r2 /\ jm_get qid (is_hashes st4) = Some (ir_hash r2).
Proof. intros Hb Hne. simpl. split_and!; [exact Hb|done|]. by rewrite jm_get_set_eq. Qed.
End store.

(** ** A concrete hashing library, for the witnesses *)
Definition hex_char (n : Z) : Ascii.ascii :=
  Ascii.ascii_of_nat (Z.to_nat (if (n <? 10)%Z then 48 + n else 87 + n)).

Fixpoint hex_string (l : list Z) : string :=
  match l with
  | [] => ""
  | b :: l' => String.String (hex_char (b / 16)) (String.String (hex_char (b mod 16)) (hex_string l'))
  end.

(** Digest: length, first byte, and a constant; enough to be a function. *)
Definition toy_noble : Noble :=
  {| sha256 := fun raw => Z.of_nat (length raw) mod 256 :: (foldr Z.add 0 raw) mod 256 :: [7] ;
     bytesToHex := hex_string |}%Z.

Lemma hex_char_pair b : is_byte b ->
  is_newline (hex_char (b / 16)) = false /\ is_newline (hex_char (b mod 16)) = false /\
  parse_pair (hex_char (b / 16)) (hex_char (b mod 16)) = b.
Proof.
  intros [H1 H2].
  assert (Hall : forallb (fun n =>
    let b := Z.of_nat n in
    negb (is_newline (hex_char (b / 16))) && negb (is_newline (hex_char (b mod 16))) &&
    Z.eqb (parse_pair (hex_char (b / 16)) (hex_char (b mod 16))) b) (seq 0 256) = true)
    by (vm_compute; reflexivity).
  rewrite forallb_forall in Hall. specialize (Hall (Z.to_nat b)).
  rewrite Z2Nat.id in Hall by lia.
  assert (Hin : In (Z.to_nat b) (seq 0 256)) by (apply in_seq; lia).
  specialize (Hall Hin). rewrite !andb_true_iff, !negb_true_iff, Z.eqb_eq in Hall. tauto.
Qed.

Lemma toy_noble_laws : NobleLaws (N := toy_noble).
Proof.
  constructor. intros raw. induction 1 as [|b raw Hb _ IH]; [done|].
  simpl. destruct (hex_char_pair b Hb) as (-> & -> & ->). by rewrite <- IH at 2.
Qed.

Lemma issued_hash_is_commitment_witness :
  let '(r, st') := issueQueryHash (N := toy_noble) (mkIssueState [] []) "q1" [1; 255]%Z (num 0) in
  issue_ok (N := toy_noble) st' /\
  exists p, ps_getPreimage (is_entries st') (ir_hash r) = Some p /\
    ps_verify (N := toy_noble) (is_entries st') (ir_hash r) p = Ok true.
Proof.
  apply (issued_hash_is_commitment (N := toy_noble) (H := toy_noble_laws)).
  - repeat constructor; done.
  - done.
  - split; done.
Defined.

Lemma issueQueryHash_interleaved_witness :
  let '(entry1, st1) := issue_create (N := toy_noble) (mkIssueState [] []) [1]%Z (num 0) in
  let '(entry2, st2) := issue_create (N := toy_noble) st1 [2]%Z (num 1) in
  let '(r1, st3) := issue_record st2 "q1" entry1 in
  let '(r2, st4) := issue_record st3 "q1" entry2 in
  issue_begin st1 "q1" = None /\ ir_hash r1 <> ir_hash r2 /\ jm_get "q1" (is_hashes st4) = Some (ir_hash r2).
Proof.
  apply (issueQueryHash_interleaved (N := toy_noble) (mkIssueState [] []) "q1" [1]%Z (num 0) [2]%Z (num 1));
    [reflexivity|]. vm_compute. discriminate.
Defined.
