(* ===== verification/EventLoop.v ===== *)
(** * Asynchronous handlers and the event loop

    A handler of the source is an [async] function: it runs synchronously up to
    its first [await], and every later segment runs without interruption in
    whatever shared state it finds when it is resumed.  [task] is a promise of
    such a handler: settled, or waiting with the segment to run next.  [resolves]
    is the outcome of a task under arbitrary interference, [run_alone] its
    outcome without any, and [loop_step] the scheduler that interleaves the
    segments of all outstanding tasks with new calls. *)

From S2P Require Import Prelude.

Section tasks.
Context {S : Type}.

Inductive task (A : Type) : Type :=
| Settled (r : res A)
| Await (k : S -> S * task A).

(** An [async] function applied to its arguments, before it is run. *)
Notation call A := (S -> S * task A).
End tasks.

Arguments task S A : clear implicits.
Arguments Settled {S A} r.
Arguments Await {S A} k.
Notation call S A := (S -> S * task S A) (only parsing).

(** Structural induction: the task left by a segment is smaller. *)
Definition task_induction {S A} (P : task S A -> Prop)
    (Hs : forall r, P (Settled r)) (Ha : forall f, (forall s, P (f s).2) -> P (Await f)) :
    forall t, P t :=
  fix go t :=
    match t with
    | Settled r => Hs r
    | Await f => Ha f (fun s => match f s as p return P p.2 with (_, t') => go t' end)
    end.

Section operations.
Context {S : Type}.

(** [return v], [throw e] and a synchronous prefix that returns. *)
Definition ret {A} (a : A) : call S A := fun s => (s, Settled (Ok a)).
Definition fail {A} (e : exn) : call S A := fun s => (s, Settled (Throw e)).

(** [const a = await t; k(a)]: control goes back to the loop even when [t] is
    already settled; a rejection propagates. *)
Fixpoint tbind {A B} (t : task S A) (k : A -> call S B) : task S B :=
  match t with
  | Settled (Ok a) => Await (k a)
  | Settled (Throw e) => Settled (Throw e)
  | Await f => Await (fun s => let '(s', t') := f s in (s', tbind t' k))
  end.

(** [const a = await c(...); k(a)] where [c] is called here and now. *)
Definition await {A B} (c : call S A) (k : A -> call S B) : call S B :=
  fun s => let '(s', t) := c s in (s', tbind t k).

(** [try { return await c() } catch (e) { h(e) }]: the handler runs in the
    segment in which the rejection arrives. *)
Fixpoint tcatch {A} (t : task S A) (h : exn -> call S A) : call S A := fun s =>
  match t with
  | Settled (Ok a) => (s, Settled (Ok a))
  | Settled (Throw e) => h e s
  | Await f => (s, Await (fun s1 => let '(s2, t2) := f s1 in tcatch t2 h s2))
  end.

Definition try_catch {A} (c : call S A) (h : exn -> call S A) : call S A :=
  fun s => let '(s', t) := c s in tcatch t h s'.

(** [try { x = await c() } catch { return }], up to the early return: [None]
    when [c] was rejected. *)
Fixpoint tattempt {A} (t : task S A) : task S (option A) :=
  match t with
  | Settled (Ok a) => Settled (Ok (Some a))
  | Settled (Throw _) => Settled (Ok None)
  | Await f => Await (fun s => let '(s', t') := f s in (s', tattempt t'))
  end.

Definition attempt {A} (c : call S A) : call S (option A) := fun s => let '(s', t) := c s in (s', tattempt t).

(** [.catch(h)] on a settled external result. *)
Definition catch_with {A} (r : res A) (d : A) : res A :=
  match r with Ok a => Ok a | Throw _ => Ok d end.

(** ** Outcomes *)

(** The outcome when the task is resumed in states that satisfy [R] only. *)
Inductive resolves {A} (R : S -> Prop) : task S A -> res A -> Prop :=
| resolves_settled r : resolves R (Settled r) r
| resolves_await f s s' t r :
    R s -> f s = (s', t) -> resolves R t r -> resolves R (Await f) r.

(** The possible outcomes of a call made in state [s]. *)
Definition outcome {A} (R : S -> Prop) (c : call S A) (s : S) (r : res A) : Prop :=
  resolves R (c s).2 r.

(** The outcome and final state when nothing else runs. *)
Fixpoint run_alone {A} (t : task S A) (s : S) : S * res A :=
  match t with
  | Settled r => (s, r)
  | Await f => let '(s', t') := f s in run_alone t' s'
  end.

Definition run_call {A} (c : call S A) (s : S) : S * res A :=
  let '(s', t) := c s in run_alone t s'.

(** ** Preservation of a state invariant, segment by segment *)
Fixpoint task_ok {A} (I : S -> Prop) (t : task S A) : Prop :=
  match t with
  | Settled _ => True
  | Await f => forall s, I s -> I (f s).1 /\ task_ok I (f s).2
  end.

Definition call_ok {A} (I : S -> Prop) (c : call S A) : Prop :=
  forall s, I s -> I (c s).1 /\ task_ok I (c s).2.

(** ** The scheduler: shared state and outstanding tasks *)
Record loop (A : Type) := mkLoop { lp_state : S; lp_tasks : list (task S A) }.
Global Arguments mkLoop {A}.
Global Arguments lp_state {A}.
Global Arguments lp_tasks {A}.

(** [calls] are the requests the outside may issue, [env] what the outside
    does to the shared state (the clock). *)
Inductive loop_step {A} (calls : call S A -> Prop) (env : S -> S -> Prop) : loop A -> loop A -> Prop :=
| loop_call c s s' t ts :
    calls c -> c s = (s', t) -> loop_step calls env (mkLoop s ts) (mkLoop s' (ts ++ [t]))
| loop_resume i f s s' t ts :
    ts !! i = Some (Await f) -> f s = (s', t) ->
    loop_step calls env (mkLoop s ts) (mkLoop s' (<[i := t]> ts))
| loop_env s s' ts : env s s' -> loop_step calls env (mkLoop s ts) (mkLoop s' ts).

Definition loop_steps {A} (calls : call S A -> Prop) (env : S -> S -> Prop) : loop A -> loop A -> Prop :=
  rtc (loop_step calls env).
End operations.

Arguments await {S A B} c k s : simpl never.
Arguments outcome {S A} R c s r : simpl never.

Section lemmas.
Context {S : Type}.
Implicit Types (I R : S -> Prop).

Lemma ret_ok {A} I (a : A) : call_ok I (ret a).
Proof. intros s Hs. done. Qed.

Lemma task_ok_bind {A B} I (t : task S A) (k : A -> call S B) :
  task_ok I t -> (forall a, call_ok I (k a)) -> task_ok I (tbind t k).
Proof.
  intros Ht Hk. induction t as [[a|e]|f IH] using task_induction; simpl in *; [apply Hk|done|].
  intros s Hs. specialize (IH s). specialize (Ht s Hs) as [H1 H2].
  destruct (f s) as [s' t']. simpl in *. auto.
Qed.

Lemma call_ok_await {A B} I (c : call S A) (k : A -> call S B) :
  call_ok I c -> (forall a, call_ok I (k a)) -> call_ok I (await c k).
Proof.
  intros Hc Hk s Hs. unfold await. specialize (Hc s Hs) as [H1 H2].
  destruct (c s) as [s' t]. simpl in *. auto using task_ok_bind.
Qed.

Lemma resolves_Settled {A} R (r r' : res A) : resolves R (Settled r) r' -> r' = r.
Proof. intros H. by inversion H. Qed.

Lemma resolves_bind {A B} R (t : task S A) (k : A -> call S B) r :
  resolves R (tbind t k) r ->
  (exists e, resolves R t (Throw e) /\ r = Throw e) \/
  exists a s s' t', resolves R t (Ok a) /\ R s /\ k a s = (s', t') /\ resolves R t' r.
Proof.
  revert r. induction t as [[a|e]|f IH] using task_induction; intros r H; simpl in H.
  - inversion H; subst. right. do 4 eexists. split; [apply resolves_settled|done].
  - inversion H; subst. left. eauto using resolves_settled.
  - inversion H as [|? s s1 t1 ? HR E Hr]; subst. destruct (f s) as [s2 t2] eqn:Ef. simplify_eq.
    specialize (IH s). rewrite Ef in IH. destruct (IH _ Hr) as [(e & He & ->)|(a & s3 & s4 & t4 & Ha & H3 & H4)].
    + left. exists e. split; [by eapply (resolves_await _ _ s)|done].
    + right. exists a, s3, s4, t4. split; [by eapply (resolves_await _ _ s)|done].
Qed.

Lemma outcome_ret {A} R (a : A) s r : outcome R (ret a) s r -> r = Ok a.
Proof. apply resolves_Settled. Qed.

Lemma outcome_settled {A} R (f : S -> S) (x : S -> res A) s r :
  outcome R (fun s => (f s, Settled (x s))) s r -> r = x s.
Proof. apply resolves_Settled. Qed.

(** Fewer states to be resumed in, fewer outcomes. *)
Lemma resolves_anywhere {A} R (t : task S A) r : resolves R t r -> resolves (fun _ => True) t r.
Proof. induction 1; [constructor|]. by eapply resolves_await. Qed.

(** An awaiting call that answers got an answer, and went on in some state. *)
Lemma outcome_await {A B} R (c : call S A) (k : A -> call S B) s b :
  outcome R (await c k) s (Ok b) ->
  exists a s', outcome R c s (Ok a) /\ R s' /\ outcome R (k a) s' (Ok b).
Proof.
  unfold outcome, await. destruct (c s) as [s1 t]. simpl.
  intros [(e & _ & ?)|(a & s2 & s3 & t' & Ha & HR & E & Hr)]%resolves_bind; [done|].
  exists a, s2. by rewrite E.
Qed.

(** A failing sequence failed in its first or in its second part. *)
Lemma outcome_await_Throw {A B} R (c : call S A) (k : A -> call S B) s e :
  outcome R (await c k) s (Throw e) ->
  outcome R c s (Throw e) \/ exists a s', outcome R c s (Ok a) /\ R s' /\ outcome R (k a) s' (Throw e).
Proof.
  unfold outcome, await. destruct (c s) as [s1 t]. simpl.
  intros [(e' & He & ?)|(a & s2 & s3 & t' & Ha & HR & E & Hr)]%resolves_bind; [left; congruence|].
  right. exists a, s2. by rewrite E.
Qed.

(** A guarded call answers by itself, or by its handler after a failure. *)
Lemma outcome_try R {A} (c : call S A) (h : exn -> call S A) s r :
  outcome R (try_catch c h) s r ->
  (exists a, r = Ok a /\ outcome R c s (Ok a)) \/ exists e s', outcome R c s (Throw e) /\ outcome R (h e) s' r.
Proof.
  unfold outcome, try_catch. destruct (c s) as [s1 t]. simpl. revert s1.
  induction t as [[a|e]|f IH] using task_induction; intros s1 Hr; simpl in Hr.
  - apply resolves_Settled in Hr as ->. left. eauto using resolves_settled.
  - right. exists e, s1. eauto using resolves_settled.
  - inversion Hr as [|? s2 s3 t3 ? HR E Hr']; subst. specialize (IH s2). destruct (f s2) as [s4 t4] eqn:Ef. simpl in IH.
    destruct (IH s4) as [(a & -> & Ha)|(e & s' & He & Hh)]; [by rewrite E| |].
    + left. exists a. split; [done|]. by eapply (resolves_await _ _ s2).
    + right. exists e, s'. split; [|done]. by eapply (resolves_await _ _ s2).
Qed.

Lemma outcome_attempt R {A} (c : call S A) s r :
  outcome R (attempt c) s r -> exists o, r = Ok o /\ forall a, o = Some a -> outcome R c s (Ok a).
Proof.
  unfold outcome, attempt. destruct (c s) as [s1 t]. simpl.
  induction t as [[a|e]|f IH] using task_induction; intros Hr; simpl in Hr.
  - apply resolves_Settled in Hr as ->. eexists. split; [done|]. intros a' [= <-]. constructor.
  - apply resolves_Settled in Hr as ->. by eexists.
  - inversion Hr as [|? s2 s3 t3 ? HR E Hr']; subst. specialize (IH s2). destruct (f s2) as [s4 t4] eqn:Ef. simplify_eq.
    destruct (IH Hr') as (o & -> & Ho). exists o. split; [done|]. intros a Ha. eapply (resolves_await _ _ s2); [done|exact Ef|by apply Ho].
Qed.

(** Running alone is one of the interleavings. *)
Lemma run_alone_resolves {A} (t : task S A) s : resolves (fun _ => True) t (run_alone t s).2.
Proof.
  revert s. induction t as [r|f IH] using task_induction; intros s; simpl; [constructor|].
  specialize (IH s). destruct (f s) as [s' t'] eqn:E. by eapply resolves_await.
Qed.

Lemma run_call_outcome {A} (c : call S A) s r :
  (run_call c s).2 = r -> outcome (fun _ => True) c s r.
Proof. unfold run_call, outcome. intros <-. destruct (c s). apply run_alone_resolves. Qed.

(** Without interference [await] is sequential composition. *)
Lemma run_call_await {A B} (c : call S A) (k : A -> call S B) s :
  run_call (await c k) s =
  match run_call c s with
  | (s', Ok a) => run_call (k a) s'
  | (s', Throw e) => (s', Throw e)
  end.
Proof.
  unfold run_call, await. destruct (c s) as [s1 t]. clear c s. revert s1.
  induction t as [[a|e]|f IH] using task_induction; intros s1; simpl; [done..|].
  specialize (IH s1). destruct (f s1) as [s2 t2]. apply IH.
Qed.

Lemma run_alone_ok {A} I (t : task S A) s : I s -> task_ok I t -> I (run_alone t s).1.
Proof.
  revert s. induction t as [r|f IH] using task_induction; intros s Hs Ht; simpl in *; [done|].
  specialize (IH s). specialize (Ht s Hs) as [H1 H2]. destruct (f s). by apply IH.
Qed.

(** Rely/guarantee: an invariant kept by every segment of every allowed call
    and by the environment holds in every reachable configuration. *)
Lemma loop_invariant {A} I (calls : call S A -> Prop) env s0 lp :
  (forall c, calls c -> call_ok I c) -> (forall s s', env s s' -> I s -> I s') -> I s0 ->
  loop_steps calls env (mkLoop s0 []) lp ->
  I (lp_state lp) /\ Forall (task_ok I) (lp_tasks lp).
Proof.
  intros Hc He H0 Hsteps.
  assert (Hgen : forall l l', loop_steps calls env l l' ->
    I (lp_state l) /\ Forall (task_ok I) (lp_tasks l) ->
    I (lp_state l') /\ Forall (task_ok I) (lp_tasks l')).
  { clear Hsteps. induction 1 as [|l1 l2 l3 Hstep _ IH]; [done|]. intros [HI Hts]. apply IH. clear IH.
    destruct Hstep as [c s s' t ts Hcall E|i f s s' t ts Hi E|s s' ts Henv]; simpl in *.
    - destruct (Hc _ Hcall _ HI) as [H1 H2]. rewrite E in H1, H2. split; [done|].
      apply Forall_app. auto.
    - destruct (Forall_lookup_1 _ _ _ _ Hts Hi s HI) as [H1 H2]. rewrite E in H1, H2.
      split; [done|]. by apply Forall_insert.
    - split; [by eapply He|done]. }
  apply (Hgen _ _ Hsteps). simpl. by split; [|constructor].
Qed.
End lemmas.

(** ** Calls on a part of the state

    [zoom get put c] runs [c] on the component [get s] of the state. *)
Section zoom.
Context {S E : Type} (get : S -> E) (put : E -> S -> S).

Fixpoint zoom_task {A} (t : task E A) : task S A :=
  match t with
  | Settled r => Settled r
  | Await k => Await (fun s => let '(e, t') := k (get s) in (put e s, zoom_task t'))
  end.

Definition zoom {A} (c : call E A) : call S A := fun s =>
  let '(e, t) := c (get s) in (put e s, zoom_task t).

Lemma zoom_ok {A} (I : S -> Prop) (c : call E A) : (forall e s, I s -> I (put e s)) -> call_ok I (zoom c).
Proof.
  intros Hput s Hs. unfold zoom. destruct (c (get s)) as [e t]. simpl. split; [by apply Hput|]. clear -Hput.
  induction t as [r|k IH] using task_induction; simpl; [done|]. intros s Hs. specialize (IH (get s)).
  destruct (k (get s)) as [e t]. simpl in *. auto.
Qed.

Lemma outcome_zoom {A} R (c : call E A) s r :
  outcome R (zoom c) s r -> outcome (fun e => exists s, R s /\ get s = e) c (get s) r.
Proof.
  unfold outcome, zoom. destruct (c (get s)) as [e t]. simpl. clear.
  induction t as [r'|k IH] using task_induction; simpl.
  - intros H%resolves_Settled. subst. constructor.
  - intros H. inversion H as [|? s0 s1 t1 ? HR Ht Hr]; subst. specialize (IH (get s0)).
    destruct (k (get s0)) as [e t'] eqn:Ek. simplify_eq/=. eapply resolves_await; [by exists s0|done|by apply IH].
Qed.
End zoom.

(** ** Rely-guarantee reasoning

    [G s s'] is how the shared state may evolve by any step of any task or of
    the outside.  [call_wp c s Q]: called in [s], every segment of [c] keeps to
    [G], assuming that others do between segments, and when [c] returns [a] in
    state [s'] then [Q a s'] holds. *)
Section rely_guarantee.
Context {S : Type} (G : S -> S -> Prop).

Fixpoint task_wp {A} (t : task S A) (s0 : S) (Q : A -> S -> Prop) : Prop :=
  match t with
  | Settled (Ok a) => Q a s0
  | Settled (Throw _) => True
  | Await f => forall s, G s0 s -> G s (f s).1 /\ task_wp (f s).2 (f s).1 Q
  end.

Definition call_wp {A} (c : call S A) (s : S) (Q : A -> S -> Prop) : Prop :=
  G s (c s).1 /\ task_wp (c s).2 (c s).1 Q.

Lemma task_wp_bind {A B} (t : task S A) (k : A -> call S B) s Q :
  task_wp t s (fun a s1 => forall s2, G s1 s2 -> call_wp (k a) s2 Q) -> task_wp (tbind t k) s Q.
Proof.
  revert s. induction t as [[a|e]|f IH] using task_induction; intros s H; simpl in *; [done|done|].
  intros s1 H1. specialize (IH s1). specialize (H s1 H1) as [HG H]. destruct (f s1) as [s2 t2]. simpl in *. auto.
Qed.

Lemma wp_await {A B} (c : call S A) (k : A -> call S B) s Q :
  call_wp c s (fun a s1 => forall s2, G s1 s2 -> call_wp (k a) s2 Q) -> call_wp (await c k) s Q.
Proof.
  intros [H1 H2]. unfold call_wp, await. destruct (c s) as [s1 t]. simpl in *. split; [done|].
  by apply task_wp_bind.
Qed.

Lemma task_wp_mono {A} (t : task S A) s (Q Q' : A -> S -> Prop) :
  (forall a s, Q a s -> Q' a s) -> task_wp t s Q -> task_wp t s Q'.
Proof.
  intros HQ. revert s. induction t as [[a|e]|f IH] using task_induction; intros s H; simpl in *; auto.
  intros s1 H1. destruct (H s1 H1) as [HG H2]. split; [done|]. by apply (IH s1).
Qed.

Lemma wp_mono {A} (c : call S A) s (Q Q' : A -> S -> Prop) :
  (forall a s, Q a s -> Q' a s) -> call_wp c s Q -> call_wp c s Q'.
Proof. intros HQ [H1 H2]. split; [done|]. by eapply task_wp_mono. Qed.

Lemma wp_ret `{!Reflexive G} {A} (a : A) s (Q : A -> S -> Prop) : Q a s -> call_wp (ret a) s Q.
Proof. intros HQ. by split. Qed.

Lemma wp_fail `{!Reflexive G} {A} e s (Q : A -> S -> Prop) : call_wp (fail e) s Q.
Proof. by split. Qed.

(** A segment that changes the state and returns. *)
Lemma wp_segment {A} (f : S -> S) (r : S -> res A) s (Q : A -> S -> Prop) :
  G s (f s) -> (forall a, r s = Ok a -> Q a (f s)) -> call_wp (fun s => (f s, Settled (r s))) s Q.
Proof. intros HG HQ. split; [done|]. simpl. destruct (r s); [by apply HQ|done]. Qed.

(** What was known before a call is known after it, up to [G]. *)
Lemma task_wp_frame `{!PreOrder G} {A} (t : task S A) s0 s Q :
  G s0 s -> task_wp t s Q -> task_wp t s (fun a s1 => Q a s1 /\ G s0 s1).
Proof.
  revert s. induction t as [[a|e]|f IH] using task_induction; intros s H0 H; simpl in *; [done|done|].
  intros s1 H1. destruct (H s1 H1) as [HG H2]. split; [done|]. apply (IH s1); [by etrans; [|etrans]|done].
Qed.

(** Sequencing: the continuation starts in a later state than the call. *)
Lemma wp_seq `{!PreOrder G} {A B} (c : call S A) (k : A -> call S B) s Q1 Q :
  call_wp c s Q1 ->
  (forall a s1 s2, G s s2 -> Q1 a s1 -> G s1 s2 -> call_wp (k a) s2 Q) -> call_wp (await c k) s Q.
Proof.
  intros [H1 H2] Hk. apply wp_await. split; [done|].
  apply (task_wp_frame _ s) in H2; [|done]. eapply task_wp_mono; [|exact H2].
  simpl. intros a s1 [HQ HG] s2 Hs2. eapply (Hk a s1); [by etrans|done|done].
Qed.

(** The handler of a guarded call starts in a later state. *)
Lemma wp_try `{!PreOrder G} {A} (c : call S A) (h : exn -> call S A) s Q :
  call_wp c s Q -> (forall e s', G s s' -> call_wp (h e) s' Q) -> call_wp (try_catch c h) s Q.
Proof.
  intros [H1 H2] Hh. unfold call_wp, try_catch. destruct (c s) as [s1 t]. simpl in H1, H2.
  assert (Hgen : forall s1, G s s1 -> task_wp t s1 Q -> G s1 (tcatch t h s1).1 /\ task_wp (tcatch t h s1).2 (tcatch t h s1).1 Q).
  { clear s1 H1 H2. induction t as [[a|e]|f IH] using task_induction; intros s1 H1 H2; simpl in *; [done|by apply Hh|].
    split; [done|]. intros s2 Hs2. destruct (H2 s2 Hs2) as [HG H3]. specialize (IH s2). destruct (f s2) as [s3 t3]. simpl in *.
    destruct (IH s3) as [H4 H5]; [by etrans; [|etrans]|done|]. split; [by etrans|done]. }
  destruct (Hgen s1 H1 H2) as [H3 H4]. destruct (tcatch t h s1). simpl in *. split; [by etrans|done].
Qed.

Lemma wp_attempt {A} (c : call S A) s (Q : A -> S -> Prop) :
  call_wp c s Q -> call_wp (attempt c) s (fun o s' => match o with Some a => Q a s' | None => True end).
Proof.
  intros [H1 H2]. unfold call_wp, attempt. destruct (c s) as [s1 t]. simpl in *. split; [done|]. clear H1.
  revert s1 H2. induction t as [[a|e]|f IH] using task_induction; intros s1 H2; simpl in *; [done|done|].
  intros s2 Hs2. destruct (H2 s2 Hs2) as [H3 H4]. specialize (IH s2). destruct (f s2) as [s3 t3]. simpl in *. auto.
Qed.

(** Calls on a component whose updates keep to [G]. *)
Lemma wp_zoom `{!Reflexive G} {E A} (get : S -> E) put (c : call E A) s :
  (forall e s, G s (put e s)) -> call_wp (zoom get put c) s (fun _ _ => True).
Proof.
  intros Hput. unfold call_wp, zoom. destruct (c (get s)) as [e t]. simpl. split; [done|].
  generalize (put e s). clear -Hput. induction t as [[a|er]|k IH] using task_induction; intros s; simpl; [done|done|].
  intros s1 _. specialize (IH (get s1)). destruct (k (get s1)) as [e1 t1]. simpl in *. auto.
Qed.

(** ... and what it answers is an outcome of the call on the component. *)
Lemma wp_zoom_outcome `{!Reflexive G} {E A} (get : S -> E) put (c : call E A) s :
  (forall e s, G s (put e s)) -> call_wp (zoom get put c) s (fun a _ => outcome (fun _ => True) c (get s) (Ok a)).
Proof.
  intros Hput. unfold call_wp, zoom, outcome. destruct (c (get s)) as [e t]. simpl. split; [done|].
  generalize (put e s). clear -Hput. induction t as [[a|er]|k IH] using task_induction; intros s; simpl; [constructor|done|].
  intros s1 _. specialize (IH (get s1)). destruct (k (get s1)) as [e1 t1] eqn:Ek. simpl in *. split; [done|].
  eapply task_wp_mono; [|apply IH]. intros a s2 Ha. by eapply (resolves_await _ _ (get s1)).
Qed.

(** Every schedule of calls that keep to [G] evolves the state by [G]. *)
Lemma loop_guarantee `{!PreOrder G} {A} (calls : call S A -> Prop) env s0 lp :
  (forall c s, calls c -> G s0 s -> call_wp c s (fun _ _ => True)) -> (forall s s', env s s' -> G s s') ->
  loop_steps calls env (mkLoop s0 []) lp -> G s0 (lp_state lp).
Proof.
  intros Hc He Hsteps.
  assert (Hgen : forall l l', loop_steps calls env l l' ->
    G s0 (lp_state l) /\ Forall (fun t => exists s1, G s1 (lp_state l) /\ task_wp t s1 (fun _ _ => True)) (lp_tasks l) ->
    G s0 (lp_state l')).
  { clear Hsteps. induction 1 as [l|l1 l2 l3 Hstep _ IH]; [by intros [? _]|]. intros [H0 Hts]. apply IH. clear IH.
    assert (Hmono : forall s s' ts, G s s' -> Forall (fun t : task S A => exists s1, G s1 s /\ task_wp t s1 (fun _ _ => True)) ts ->
      Forall (fun t => exists s1, G s1 s' /\ task_wp t s1 (fun _ _ => True)) ts).
    { intros s s' ts Hs HF. eapply Forall_impl; [exact HF|]. simpl. intros t (s1 & H1 & H2). exists s1. split; [by etrans|done]. }
    destruct Hstep as [c s s' t ts Hcall E|i f s s' t ts Hi E|s s' ts Henv]; simpl in *.
    - destruct (Hc _ s Hcall H0) as [H1 H2]. rewrite E in H1, H2. split; [by etrans|].
      apply Forall_app. split; [by eapply Hmono|]. constructor; [|constructor]. by exists s'.
    - destruct (Forall_lookup_1 _ _ _ _ Hts Hi) as (s1 & H1 & H2). destruct (H2 s H1) as [H3 H4].
      rewrite E in H3, H4. split; [by etrans|]. apply Forall_insert; [by eapply Hmono|]. by exists s'.
    - split; [etrans; [exact H0|by apply He]|]. eapply Hmono; [by apply He|done]. }
  apply (Hgen _ _ Hsteps). simpl. by split; [|constructor].
Qed.
End rely_guarantee.

(** A call that runs to completion before anything else is one schedule. *)
Lemma loop_run_call {S A} (calls : call S A -> Prop) env (c : call S A) (s s' : S) ts r :
  calls c -> run_call c s = (s', r) -> loop_steps calls env (mkLoop s ts) (mkLoop s' (ts ++ [Settled r])).
Proof.
  intros Hc Hr. unfold run_call in Hr. destruct (c s) as [s1 t] eqn:E.
  eapply rtc_l; [by eapply loop_call|]. clear E Hc c.
  revert s1 Hr. induction t as [r'|f IH] using task_induction; intros s1 Hr; simpl in Hr.
  - simplify_eq. apply rtc_refl.
  - destruct (f s1) as [s2 t2] eqn:Ef. eapply rtc_l.
    { eapply (loop_resume calls env (length ts)); [by apply list_lookup_middle|done]. }
    rewrite insert_app_r_alt, Nat.sub_diag by done. simpl. specialize (IH s1). rewrite Ef in IH. by apply IH.
Qed.

(** A list of calls made one after the other is one schedule. *)
Lemma loop_run_calls {S A} (calls : call S A -> Prop) env (cs : list (call S A)) (s : S) ts :
  Forall calls cs -> exists ts', loop_steps calls env (mkLoop s ts) (mkLoop (foldl (fun s c => (run_call c s).1) s cs) ts').
Proof.
  intros Hcs. revert s ts. induction Hcs as [|c cs Hc _ IH]; intros s ts; simpl; [eexists; apply rtc_refl|].
  destruct (run_call c s) as [s' r] eqn:E. destruct (IH s' (ts ++ [Settled r])) as [ts' Hts].
  exists ts'. etrans; [by eapply loop_run_call|exact Hts].
Qed.

(** Without interference a handler runs in the state the failure left. *)
Lemma run_call_try {S A} (c : call S A) (h : exn -> call S A) s :
  run_call (try_catch c h) s =
  match run_call c s with (s', Ok a) => (s', Ok a) | (s', Throw e) => run_call (h e) s' end.
Proof.
  unfold run_call, try_catch. destruct (c s) as [s1 t]. clear c s. revert s1.
  induction t as [[a|e]|f IH] using task_induction; intros s1; simpl; [done..|].
  specialize (IH s1). destruct (f s1) as [s2 t2]. apply IH.
Qed.

(** ** The states a call passes through when it runs alone

    Where a crash can stop it: after each segment. *)
Section visited.
Context {S : Type}.

Fixpoint visited {A} (t : task S A) (s : S) : list S :=
  s :: match t with
       | Settled _ => []
       | Await f => let '(s', t') := f s in visited t' s'
       end.

Definition visited_call {A} (c : call S A) (s : S) : list S := let '(s', t) := c s in visited t s'.

Lemma visited_bind {A B} (P : S -> Prop) (t : task S A) (k : A -> call S B) s :
  Forall P (visited t s) ->
  (forall a, (run_alone t s).2 = Ok a -> Forall P (visited_call (k a) (run_alone t s).1)) ->
  Forall P (visited (tbind t k) s).
Proof.
  revert s. induction t as [[a|e]|f IH] using task_induction; intros s Ht Hk; simpl in *.
  - apply Forall_cons in Ht as [Hs _]. constructor; [done|]. by apply Hk.
  - done.
  - apply Forall_cons in Ht as [Hs Ht]. constructor; [done|]. specialize (IH s). destruct (f s) as [s' t']. by apply IH.
Qed.

Lemma visited_await {A B} (P : S -> Prop) (c : call S A) (k : A -> call S B) s :
  Forall P (visited_call c s) ->
  (forall a s', run_call c s = (s', Ok a) -> Forall P (visited_call (k a) s')) ->
  Forall P (visited_call (await c k) s).
Proof.
  unfold visited_call, await, run_call. intros Hc Hk. destruct (c s) as [s1 t].
  apply visited_bind; [done|]. intros a Ha. specialize (Hk a). destruct (run_alone t s1) as [s2 r]. simpl in *.
  apply Hk. by rewrite Ha.
Qed.

Lemma visited_last {A} (P : S -> Prop) (c : call S A) s : Forall P (visited_call c s) -> P (run_call c s).1.
Proof.
  unfold visited_call, run_call. destruct (c s) as [s1 t]. clear. revert s1.
  induction t as [r|f IH] using task_induction; intros s1 H; simpl in *; [by inversion H|].
  apply Forall_cons in H as [_ H]. specialize (IH s1). destruct (f s1). by apply IH.
Qed.
End visited.

(** ** Schedules: the moves of an interleaving, executed *)
Section schedule.
Context {S A : Type}.

Inductive move : Type :=
| MoveCall (c : call S A)
| MoveResume (i : nat).

Fixpoint loop_play (ms : list move) (lp : loop (S := S) A) : option (loop (S := S) A) :=
  match ms with
  | [] => Some lp
  | MoveCall c :: ms' => let '(s, t) := c (lp_state lp) in loop_play ms' (mkLoop s (lp_tasks lp ++ [t]))
  | MoveResume i :: ms' =>
      match lp_tasks lp !! i with
      | Some (Await f) => let '(s, t) := f (lp_state lp) in loop_play ms' (mkLoop s (<[i := t]> (lp_tasks lp)))
      | _ => None
      end
  end.

Lemma loop_play_steps (calls : call S A -> Prop) env ms lp lp' :
  Forall (fun m => match m with MoveCall c => calls c | MoveResume _ => True end) ms ->
  loop_play ms lp = Some lp' -> loop_steps calls env lp lp'.
Proof.
  intros Hms. revert lp. induction Hms as [|m ms Hm _ IH]; intros [s ts] H; simpl in H; [simplify_eq; apply rtc_refl|].
  destruct m as [c|i].
  - destruct (c s) as [s' t] eqn:E. eapply rtc_l; [by apply (loop_call _ _ c)|]. by apply IH.
  - destruct (ts !! i) as [[r|f]|] eqn:Ei; [done| |done]. destruct (f s) as [s' t] eqn:E.
    eapply rtc_l; [by apply (loop_resume _ _ i f)|]. by apply IH.
Qed.
End schedule.
Arguments move S A : clear implicits.

Lemma visited_ret_tail {S A} (Q : S -> Prop) (c : call S A) s :
  Forall Q (visited_call c s) -> Forall Q (visited_call (await c ret) s).
Proof.
  intros H. apply visited_await; [done|]. intros a s' E. pose proof (visited_last _ _ _ H) as HQ.
  rewrite E in HQ. by constructor.
Qed.

(** A trailing [return await] adds nothing. *)
Lemma run_ret_tail {S A} (c : call S A) s : run_call (await c ret) s = run_call c s.
Proof. rewrite run_call_await. by destruct (run_call c s) as [s' []]. Qed.

#[export] Hint Resolve ret_ok call_ok_await : anchr.

(** ** Audit logs

    A ghost log records what a component did.  [ok l x] states what must have
    happened, according to the log [l], before [x] may; a log is [backed] when
    every entry was allowed by what precedes it.  The guarantee [audit] is what
    every step of every task keeps: the log only grows, and it stays backed,
    together with an invariant of the state. *)

Section audit.
Context {X : Type} (ok : list X -> X -> Prop).

Definition backed (l : list X) : Prop := forall l1 x l2, l = l1 ++ x :: l2 -> ok l1 x.

Lemma backed_nil : backed [].
Proof. intros l1 x l2 Heq. by destruct l1. Qed.

Lemma backed_snoc l x : backed l -> ok l x -> backed (l ++ [x]).
Proof.
  intros Hl Hx l1 x' l2. destruct l2 as [|y l2 _] using rev_ind; intros Heq.
  - apply app_inj_tail in Heq as [<- <-]. done.
  - rewrite app_comm_cons, app_assoc in Heq. apply app_inj_tail in Heq as [-> _]. by eapply Hl.
Qed.

(** An entry of a backed log was allowed by an earlier part of it. *)
Lemma backed_in l x : backed l -> x ∈ l -> exists l1, l1 `prefix_of` l /\ ok l1 x.
Proof.
  intros Hl Hx. apply list_elem_of_split in Hx as (l1 & l2 & ->). exists l1. split; [by apply prefix_app_r|by eapply Hl].
Qed.

Context {S : Type} (log : S -> list X) (inv : S -> Prop).

Definition audit (s s' : S) : Prop :=
  (backed (log s) /\ inv s -> backed (log s') /\ inv s') /\ log s `prefix_of` log s'.

Global Instance audit_preorder : PreOrder audit.
Proof. split; [by intros s|]. intros s1 s2 s3 [H1 H2] [H3 H4]. split; [auto|by etrans]. Qed.

(** What is on the log stays on it. *)
Lemma audit_in s s' x : audit s s' -> x ∈ log s -> x ∈ log s'.
Proof. intros [_ [k ->]] Hx. apply elem_of_app. by left. Qed.

Lemma prefix_in (l l' : list X) x : l `prefix_of` l' -> x ∈ l -> x ∈ l'.
Proof. intros [k ->] Hx. apply elem_of_app. by left. Qed.

(** Steps that do not log, and steps that log an allowed entry. *)
Lemma audit_frame s s' : log s' = log s -> (inv s -> inv s') -> audit s s'.
Proof. intros Hl Hi. unfold audit. rewrite Hl. split; [|done]. intros [H1 H2]. auto. Qed.

Lemma audit_log s s' x : ok (log s) x -> log s' = log s ++ [x] -> (inv s -> inv s') -> audit s s'.
Proof.
  intros Hx Hl Hi. unfold audit. rewrite Hl. split; [|by apply prefix_app_r]. intros [H1 H2]. split; [by apply backed_snoc|auto].
Qed.

(** Every schedule of such tasks keeps the log backed. *)
Lemma audit_loop {A} (calls : call S A -> Prop) env s0 lp :
  log s0 = [] -> inv s0 ->
  (forall c s, calls c -> backed (log s) /\ inv s -> call_wp audit c s (fun _ _ => True)) ->
  (forall s s', env s s' -> audit s s') ->
  loop_steps calls env (mkLoop s0 []) lp -> backed (log (lp_state lp)).
Proof.
  intros Hl Hi Hc He Hsteps.
  assert (H0 : backed (log s0) /\ inv s0) by (rewrite Hl; by split; [apply backed_nil|]).
  assert (Hg : audit s0 (lp_state lp)).
  { eapply loop_guarantee; [apply _| |exact He|exact Hsteps]. intros c s Hcall [Hs _]. apply Hc; auto. }
  destruct Hg as [Hg _]. by destruct (Hg H0).
Qed.
End audit.
