(* ===== verification/QueryService.v ===== *)
(** * The query service

    [packages/sdk/src/requests/application/]: the store and the use cases of
    [query-lifecycle-methods.ts], [escrow-flow-methods.ts],
    [query-escrow-validation.ts], [query-service-deps.ts],
    [verification-orchestration.ts] and [query-service.ts].  A synchronous
    method is a function of the service state; an [async] method is a [call] of
    the event loop, cut at its [await]s, so that the stale snapshots the source
    writes back after an [await] are part of the model. *)

From S2P Require Import Prelude JsNum JsMap JsString JsValue SchemaUri QueryTypes Samples.
From S2P Require Import QueryDomain OracleRegistry QueryVerification PreimageStore EventLoop.

(** ** State: the query store, the Oracle's preimages, the clock *)
Record SvcState := mkSvcState {
  ss_store : jsmap string Query;
  ss_preimages : jsmap string PreimageEntry;
  ss_now : number;
}.

Global Instance set_ss_store : Setter ss_store :=
  fun f s => mkSvcState (f (ss_store s)) (ss_preimages s) (ss_now s).
Global Instance set_ss_preimages : Setter ss_preimages :=
  fun f s => mkSvcState (ss_store s) (f (ss_preimages s)) (ss_now s).
Global Instance set_ss_now : Setter ss_now :=
  fun f s => mkSvcState (ss_store s) (ss_preimages s) (f (ss_now s)).

(** [createQueryStore]: get, set, values, delete, clear. *)
Definition store_get (s : SvcState) (id : string) : option Query := jm_get id (ss_store s).
Definition store_set (s : SvcState) (id : string) (q : Query) : SvcState :=
  s <| ss_store := jm_set id q (ss_store s) |>.
Definition store_values (s : SvcState) : list Query := jm_values (ss_store s).
Definition store_delete (s : SvcState) (id : string) : SvcState :=
  s <| ss_store := jm_delete id (ss_store s) |>.
Definition store_clear (s : SvcState) : SvcState := s <| ss_store := [] |>.

(** ** Ports *)
Record EscrowAmountResult := mkEscrowAmount {
  ea_valid : bool;
  ea_amountSats : option number;
  ea_error : option string;
}.

Record EscrowTokenLockResult := mkEscrowLock {
  el_ok : bool;
  el_message : option string;
}.

(** The two verification entries of the [EscrowProvider] port the service uses. *)
Record EscrowProvider := mkEscrowProvider {
  ep_verify : string -> number -> res EscrowAmountResult;
  ep_verifyLock : string -> string -> string -> res EscrowTokenLockResult;
}.

Notation FrostSignaturePort :=
  (Query -> QueryResult -> option BlossomKeyMap -> res (option (list string))) (only parsing).

Record ServiceDeps := mkServiceDeps {
  d_oracleResolver : option string -> option (list string) -> option Oracle;
  d_multiOracleResolver : option (option (list string) -> number -> list Oracle);
  d_preimageStore : bool;  (* whether the port is wired; its content is [ss_preimages] *)
  d_escrowProvider : option EscrowProvider;
  d_frostSignature : option FrostSignaturePort;
  d_normalizeResult : option (QueryResult -> QueryResult);
}.

Definition identityNormalize (r : QueryResult) : QueryResult := r.
Definition normalize (deps : ServiceDeps) (r : QueryResult) : QueryResult :=
  (opt_default identityNormalize (d_normalizeResult deps)) r.

Definition DEFAULT_TTL_MS : number := num 600000.

Record CreateQueryOptions := mkCreateQueryOptions {
  cq_ttlMs : option number;
  cq_ttlSeconds : option number;
  cq_customerMeta : option CustomerMeta;
  cq_payment_lock : option PaymentLockInfo;
  cq_oracleIds : option (list string);
  cq_escrow : option EscrowInfo;
  cq_nostrEventId : option string;
  cq_quorum : option QuorumConfig;
}.

Definition resolveTtlMs (options : option CreateQueryOptions) : number :=
  match options with
  | None => DEFAULT_TTL_MS
  | Some o =>
      match cq_ttlMs o with
      | Some ms => ms
      | None => match cq_ttlSeconds o with
                | Some s => nmul s (num 1000)
                | None => DEFAULT_TTL_MS
                end
      end
  end.

(** ** Outcomes *)
Record SubmitQueryOutcome := mkSubmitOutcome {
  so_ok : bool;
  so_query : option Query;
  so_message : string;
}.

(** [CancelQueryOutcome] and [HtlcOutcome]; the message is optional because
    [lockCheck.message!] may be undefined. *)
Record HtlcOutcome := mkHtlcOutcome { ho_ok : bool; ho_message : option string }.

Record EscrowSubmitOutcome := mkEscrowSubmitOutcome {
  eo_ok : bool;
  eo_query : option Query;
  eo_message : string;
  eo_preimage : option string;
  eo_frost_signature : option (list string);
}.

(** ** Lifecycle methods *)

(** [hooks?.onCreated?.(query)] runs synchronously and may re-enter the
    service or throw; [svc] are the values of the default domain services. *)
Definition doCreateQuery `{U : UrlApi} (hook : option (Query -> SvcState -> SvcState * res unit))
    (input : QueryInput) (options : option CreateQueryOptions) (svc : DomainServices)
    (s : SvcState) : SvcState * res Query :=
  match createQueryAggregate input
          (mkCreateOptions (resolveTtlMs options) (options ≫= cq_customerMeta)
             (options ≫= cq_payment_lock) (options ≫= cq_oracleIds) (options ≫= cq_escrow)
             (options ≫= cq_nostrEventId) (options ≫= cq_quorum)) svc with
  | TErr e => (s, Throw (mkExn "Error" e))
  | TOk query =>
      let s := store_set s (q_id query) query in
      match hook with
      | None => (s, Ok query)
      | Some h => let '(s, r) := h query s in (s, (r ≫= fun _ => Ok query))
      end
  end.

Definition expired_copy (q : Query) : Query :=
  q <| q_status := expired |> <| q_payment_status := cancelled |>.

(** The record written after verification, from the snapshot [updated]. *)
Definition submit_final (updated : Query) (now : number) (r : QueryResult) (meta : SubmissionMeta)
    (bk : option BlossomKeyMap) : Query :=
  updated <| q_submitted_at := Some now |>
          <| q_result := Some r |>
          <| q_submission_meta := Some meta |>
          <| q_blossom_keys := bk |>.

Definition doSubmitQueryResult (deps : ServiceDeps) (id : string) (result : QueryResult)
    (submissionMeta : SubmissionMeta) (oracleId : option string)
    (blossomKeys : option BlossomKeyMap) : call SvcState SubmitQueryOutcome := fun s =>
  match store_get s id with
  | None => ret (mkSubmitOutcome false None "Query not found") s
  | Some query =>
  if q_status query !== pending then
    ret (mkSubmitOutcome false (Some query)
           ("Query is " +:+ status_str (q_status query) +:+ ", not pending")) s
  else if q_expires_at query <ₙ ss_now s then
    ret (mkSubmitOutcome false (Some query) "Query has expired")
      (store_set s id (expired_copy query))
  else
    let normalizedResult := normalize deps result in
    await (fun s => (s, Settled (verifyAndFinalize query normalizedResult (d_oracleResolver deps)
                                   (d_multiOracleResolver deps) blossomKeys oracleId)))
      (fun '(v, updated) s =>
        if negb (qv_passed v) && bool_decide (qv_attestations v = []) then
          ret (mkSubmitOutcome false (Some query)
                 (opt_default "No oracle available" (head (vd_failures (qv_verification v))))) s
        else
          let final := submit_final updated (ss_now s) normalizedResult submissionMeta blossomKeys in
          ret (mkSubmitOutcome (qv_passed v) (Some final)
                 (if qv_passed v then "Verification passed. Result accepted."
                  else "Verification failed: " +:+
                       js_join ", " (vd_failures (qv_verification v))))
            (store_set s id final)) s
  end.

Definition doCancelQuery (id : string) (s : SvcState) : SvcState * HtlcOutcome :=
  match store_get s id with
  | None => (s, mkHtlcOutcome false (Some "Query not found"))
  | Some query =>
  if negb (isOpenStatus (q_status query)) then
    (s, mkHtlcOutcome false (Some ("Query is already " +:+ status_str (q_status query))))
  else
    (store_set s id (query <| q_status := rejected |> <| q_payment_status := cancelled |>),
     mkHtlcOutcome true (Some "Query cancelled"))
  end.

(** The loop runs over a snapshot of the values ([Array.from]). *)
Definition past_deadline (now : number) (q : Query) : bool :=
  isExpirable (q_status q) && (q_expires_at q <ₙ now).

Definition expire_one (now : number) (acc : SvcState * nat) (query : Query) : SvcState * nat :=
  let '(s, count) := acc in
  if past_deadline now query then (store_set s (q_id query) (expired_copy query), S count)
  else (s, count).

Definition doExpireQueries (s : SvcState) : SvcState * nat :=
  fold_left (expire_one (ss_now s)) (store_values s) (s, 0).

Definition purge_one (acc : SvcState * list Query) (query : Query) : SvcState * list Query :=
  let '(s, purged) := acc in
  if q_status query === expired then (store_delete s (q_id query), purged ++ [query])
  else (s, purged).

Definition doPurgeExpired (s : SvcState) : SvcState * list Query :=
  fold_left purge_one (store_values s) (s, []).

(** ** Escrow flow *)

(** Read, apply a transition of the aggregate, write back. *)
Definition with_transition (queryId : string) (t : Query -> TransitionResult) (okMessage : string)
    (s : SvcState) : SvcState * HtlcOutcome :=
  match store_get s queryId with
  | None => (s, mkHtlcOutcome false (Some "Query not found"))
  | Some query =>
      match t query with
      | TErr e => (s, mkHtlcOutcome false (Some e))
      | TOk q' => (store_set s queryId q', mkHtlcOutcome true (Some okMessage))
      end
  end.

Definition doRecordOffer (queryId : string) (offer : OfferInfo) : SvcState -> SvcState * HtlcOutcome :=
  with_transition queryId (fun q => addOffer q offer) "Offer recorded".

Definition doBeginWork (queryId : string) : SvcState -> SvcState * HtlcOutcome :=
  with_transition queryId beginWork "Work begun".

Definition doRecordResult (deps : ServiceDeps) (queryId : string) (result : QueryResult)
    (providerPubkey : string) (blossomKeys : option BlossomKeyMap) (s : SvcState)
    : SvcState * HtlcOutcome :=
  with_transition queryId
    (fun q => recordResult q (normalize deps result) providerPubkey blossomKeys (ss_now s))
    "Result recorded, verification in progress" s.

Definition doCompleteVerification (queryId : string) (passed : bool) (oracleId : option string)
    : SvcState -> SvcState * HtlcOutcome :=
  with_transition queryId (fun q => completeVerification q passed None oracleId None)
    (if passed then "Verification passed" else "Verification failed").

Definition verifyEscrowAmount (p : EscrowProvider) (escrowRef : string) (expectedSats : number)
    : res EscrowAmountResult :=
  check ← ep_verify p escrowRef expectedSats;
  Ok (mkEscrowAmount (ea_valid check) (ea_amountSats check) (ea_error check)).

Definition verifyEscrowLock (p : EscrowProvider) (escrowRef paymentHash providerPubkey : string)
    : res EscrowTokenLockResult := ep_verifyLock p escrowRef paymentHash providerPubkey.

Definition isEscrowQuery (q : Query) : bool := is_escrow q.

(** [expectedSats] read as a condition. *)
Definition truthy_num (o : option number) : option number :=
  match o with Some n => if num_truthy n then Some n else None | None => None end.

Definition escrow_ref_of (query : Query) (escrowToken : option string) : option string :=
  nullish (nullish (q_escrow query ≫= esc_escrow_ref) (q_escrow query ≫= esc_escrow_token))
    escrowToken.

Definition htlc_hash_of (query : Query) : option string :=
  match esc_type <$> q_escrow query with Some (htlc h) => Some h | _ => None end.

(** The committing transition after the token checks. *)
Definition select_commit (queryId : string) (query : Query) (providerPubkey : string)
    (updates : EscrowSelectionUpdates) : call SvcState HtlcOutcome := fun s =>
  match selectProvider query providerPubkey updates with
  | TErr e => ret (mkHtlcOutcome false (Some e)) s
  | TOk q' => ret (mkHtlcOutcome true (Some "Provider selected")) (store_set s queryId q')
  end.

Definition select_lock_check (deps : ServiceDeps) (queryId : string) (query : Query)
    (providerPubkey : string) (escrowRef paymentHash : option string)
    (updates : EscrowSelectionUpdates) : call SvcState HtlcOutcome :=
  match truthy escrowRef, truthy paymentHash, d_escrowProvider deps with
  | Some ref, Some hash, Some p =>
      await (fun s => (s, Settled (verifyEscrowLock p ref hash providerPubkey)))
        (fun lockCheck =>
          if negb (el_ok lockCheck) then ret (mkHtlcOutcome false (el_message lockCheck))
          else select_commit queryId query providerPubkey updates)
  | _, _, _ => select_commit queryId query providerPubkey updates
  end.

Definition doSelectProvider (deps : ServiceDeps) (queryId providerPubkey : string)
    (escrowToken : option string) : call SvcState HtlcOutcome := fun s =>
  match store_get s queryId with
  | None => ret (mkHtlcOutcome false (Some "Query not found")) s
  | Some query =>
  match selectProvider query providerPubkey no_updates with
  | TErr e => ret (mkHtlcOutcome false (Some e)) s
  | TOk _ =>
  let escrowRef := escrow_ref_of query escrowToken in
  let expectedSats := lock_amount_sats <$> q_payment_lock query in
  let paymentHash := htlc_hash_of query in
  let some {A} (o : option A) := match o with Some _ => true | None => false end in
  if some (truthy escrowRef) && (some (truthy_num expectedSats) || some (truthy paymentHash)) &&
     negb (some (d_escrowProvider deps)) then
    ret (mkHtlcOutcome false (Some
      "Escrow provider port not configured — cannot verify escrow token before selection")) s
  else
  let updates := mkSelectionUpdates (Some <$> escrowToken) None None None in
  match truthy escrowRef, truthy_num expectedSats, d_escrowProvider deps with
  | Some ref, Some sats, Some p =>
      await (fun s => (s, Settled (verifyEscrowAmount p ref sats)))
        (fun check =>
          if negb (ea_valid check) then
            ret (mkHtlcOutcome false (Some ("Escrow token verification failed: " +:+
                                            opt_default "undefined" (ea_error check))))
          else
            select_lock_check deps queryId query providerPubkey escrowRef paymentHash
              (mkSelectionUpdates (Some <$> escrowToken) (Some (ea_amountSats check)) None None)) s
  | _, _, _ => select_lock_check deps queryId query providerPubkey escrowRef paymentHash updates s
  end end end.

Definition tryRevealPreimage (hasStore : bool) (htlcHash : option string) (passed : bool)
    : call SvcState (option string) := fun s =>
  match truthy htlcHash with
  | Some hash =>
      if negb passed || negb hasStore then ret None s
      else
        await (fun s => (s, Settled (Ok (ps_getPreimage (ss_preimages s) hash))))
          (fun preimage =>
            match truthy preimage with
            | Some p =>
                await (fun s => (s <| ss_preimages := ps_delete (ss_preimages s) hash |>,
                                 Settled (Ok tt)))
                  (fun _ => ret (Some p))
            | None => ret None
            end) s
  | None => ret None s
  end.

Definition escrow_verdict (updated : Query) (v : QuorumVerificationResult) : EscrowSubmitOutcome :=
  mkEscrowSubmitOutcome (qv_passed v) (Some updated)
    (if qv_passed v then "Verification passed."
     else "Verification failed: " +:+ js_join ", " (vd_failures (qv_verification v)))
    None None.

(** The FROST branch, entered when no preimage was returned. *)
Definition deliver_frost (deps : ServiceDeps) (query verifyingQuery updated : Query)
    (normalizedResult : QueryResult) (blossomKeys : option BlossomKeyMap)
    (v : QuorumVerificationResult) : call SvcState EscrowSubmitOutcome :=
  match esc_type <$> q_escrow query, d_frostSignature deps with
  | Some (p2pk_frost _), Some frost =>
      if qv_passed v then
        await (fun s => (s, Settled (catch_with (frost verifyingQuery normalizedResult blossomKeys) None)))
          (fun frostSignature =>
            match frostSignature with
            | Some sigs => ret (mkEscrowSubmitOutcome true (Some updated)
                "Verification passed. FROST group signature delivered for P2PK redemption."
                None (Some sigs))
            | None => ret (escrow_verdict updated v)
            end)
      else ret (escrow_verdict updated v)
  | _, _ => ret (escrow_verdict updated v)
  end.

(** After the verification has settled: commit, then release. *)
Definition settle_escrow (deps : ServiceDeps) (queryId : string) (query verifyingQuery : Query)
    (normalizedResult : QueryResult) (blossomKeys : option BlossomKeyMap)
    (v : QuorumVerificationResult) (updated : Query) : call SvcState EscrowSubmitOutcome := fun s =>
  let s := store_set s queryId updated in
  match esc_type <$> q_escrow query with
  | Some (htlc hash) =>
      if qv_passed v then
        await (tryRevealPreimage (d_preimageStore deps) (Some hash) (qv_passed v))
          (fun preimage =>
            match truthy preimage with
            | Some p => ret (mkEscrowSubmitOutcome true (Some updated)
                "Verification passed. Preimage revealed for HTLC redemption." (Some p) None)
            | None => deliver_frost deps query verifyingQuery updated normalizedResult blossomKeys v
            end) s
      else deliver_frost deps query verifyingQuery updated normalizedResult blossomKeys v s
  | _ => deliver_frost deps query verifyingQuery updated normalizedResult blossomKeys v s
  end.

Definition doSubmitEscrowResult (deps : ServiceDeps) (queryId : string) (result : QueryResult)
    (providerPubkey : string) (oracleId : option string) (blossomKeys : option BlossomKeyMap)
    : call SvcState EscrowSubmitOutcome := fun s =>
  match store_get s queryId with
  | None => ret (mkEscrowSubmitOutcome false None "Query not found" None None) s
  | Some query =>
  if negb (isEscrowQuery query) then
    ret (mkEscrowSubmitOutcome false (Some query) "Not an escrow query" None None) s
  else
    let normalizedResult := normalize deps result in
    match recordResult query normalizedResult providerPubkey blossomKeys (ss_now s) with
    | TErr e => ret (mkEscrowSubmitOutcome false (Some query) e None None) s
    | TOk verifyingQuery =>
        await (fun s => (s, Settled (verifyAndFinalize verifyingQuery normalizedResult
                               (d_oracleResolver deps) (d_multiOracleResolver deps) blossomKeys
                               oracleId)))
          (fun '(v, updated) =>
            settle_escrow deps queryId query verifyingQuery normalizedResult blossomKeys v updated)
          (store_set s queryId verifyingQuery)
    end
  end.

(** ** Wiring: [createQueryService] *)
Definition service_resolver (registry : option OracleRegistryOps) (oid : option string)
    (ids : option (list string)) : option Oracle :=
  match registry with Some r => reg_resolve r oid ids | None => None end.

Definition service_deps (registry : option OracleRegistryOps) (hasPreimages : bool)
    (escrowProvider : option EscrowProvider) (frost : option FrostSignaturePort)
    (norm : option (QueryResult -> QueryResult)) : ServiceDeps :=
  mkServiceDeps (service_resolver registry) (reg_resolveMultiple <$> registry) hasPreimages
    escrowProvider frost norm.

Definition listOpenQueries (s : SvcState) : list Query :=
  List.filter (fun q => isOpenStatus (q_status q) && (q_expires_at q >ₙ ss_now s)) (store_values s).

(** [sort((a, b) => b.created_at - a.created_at)]: the stable sort, newest first. *)
Fixpoint insert_newest (q : Query) (l : list Query) : list Query :=
  match l with
  | [] => [q]
  | x :: l' => if q_created_at x <ₙ q_created_at q then q :: l else x :: insert_newest q l'
  end.
Definition listAllQueries (s : SvcState) : list Query :=
  fold_left (fun acc q => insert_newest q acc) (store_values s) [].
