(* ===== verification/QueryServiceSpec.v ===== *)
(** * Correctness of the query service

    Properties of [QueryService] under arbitrary interleaving of its handlers
    (invariants, release of settlement material, fail-closed selection), its
    refinement of the aggregate when run alone, the sweeps over the store, and
    the races at the [await]s. *)

From S2P Require Import Prelude JsNum JsMap JsString JsValue SchemaUri QueryTypes Samples.
From S2P Require Import QueryDomain OracleRegistry QueryVerification PreimageStore EventLoop QueryService.

(** ** Requests to the service *)
Inductive request :=
| RCreate (input : QueryInput) (options : option CreateQueryOptions) (svc : DomainServices)
| RSubmit (id : string) (r : QueryResult) (m : SubmissionMeta) (oid : option string)
    (bk : option BlossomKeyMap)
| RCancel (id : string)
| RExpire
| RPurge
| RClear
| ROffer (id : string) (o : OfferInfo)
| RSelect (id pk : string) (token : option string)
| RBegin (id : string)
| RRecord (id : string) (r : QueryResult) (pk : string) (bk : option BlossomKeyMap)
| RComplete (id : string) (passed : bool) (oid : option string)
| RSubmitEscrow (id : string) (r : QueryResult) (pk : string) (oid : option string)
    (bk : option BlossomKeyMap).

(** A synchronous method as a request; the answer is dropped. *)
Definition sync {A} (f : SvcState -> SvcState * A) : call SvcState unit :=
  fun s => ((f s).1, Settled (Ok tt)).
Definition forget {A} (c : call SvcState A) : call SvcState unit := await c (fun _ => ret tt).

Section spec.
Context `{U : UrlApi} (deps : ServiceDeps)
  (hook : option (Query -> SvcState -> SvcState * res unit)).

Definition handle (r : request) : call SvcState unit :=
  match r with
  | RCreate input options svc => sync (doCreateQuery hook input options svc)
  | RSubmit id r m oid bk => forget (doSubmitQueryResult deps id r m oid bk)
  | RCancel id => sync (doCancelQuery id)
  | RExpire => sync doExpireQueries
  | RPurge => sync doPurgeExpired
  | RClear => sync (fun s => (store_clear s, tt))
  | ROffer id o => sync (doRecordOffer id o)
  | RSelect id pk token => forget (doSelectProvider deps id pk token)
  | RBegin id => sync (doBeginWork id)
  | RRecord id r pk bk => sync (doRecordResult deps id r pk bk)
  | RComplete id passed oid => sync (doCompleteVerification id passed oid)
  | RSubmitEscrow id r pk oid bk => forget (doSubmitEscrowResult deps id r pk oid bk)
  end.

(** Outside the service the clock moves and the Oracle issues preimages; the
    query store is touched by the service only. *)
Definition env_step (s s' : SvcState) : Prop := ss_store s' = ss_store s.

Definition service_run (allowed : request -> Prop) : loop unit -> loop unit -> Prop :=
  loop_steps (fun c => exists r, allowed r /\ c = handle r) env_step.

(** ** Store-wide invariants

    Keys are unique, each query is stored under its own id, and satisfies [P]. *)
Definition stored_ok (P : Query -> Prop) (s : SvcState) : Prop :=
  jm_wf (ss_store s) /\ forall id q, store_get s id = Some q -> q_id q = id /\ P q.

(** A property of queries that the service's writes maintain; [op_allowed]
    selects the operations of the aggregate the run may use. *)
Record maintained (op_allowed : domain_op -> Prop) (P : Query -> Prop) := {
  mt_create input opts svc q : createQueryAggregate input opts svc = TOk q -> P q;
  mt_op op q q' : op_allowed op -> P q -> run_op op q = TOk q' -> P q';
  mt_submit q r oid bk v u now m : P q -> q_status q = pending ->
    verifyAndFinalize q r (d_oracleResolver deps) (d_multiOracleResolver deps) bk oid = Ok (v, u) ->
    P (submit_final u now r m bk);
  mt_finalize q r pk bk now vq oid v u : P q -> recordResult q r pk bk now = TOk vq ->
    verifyAndFinalize vq r (d_oracleResolver deps) (d_multiOracleResolver deps) bk oid = Ok (v, u) ->
    P u;
}.

Definition request_op_allowed (allowed : domain_op -> Prop) (r : request) : Prop :=
  match r with
  | RComplete _ passed oid => allowed (OpCompleteVerification passed None oid None)
  | _ => True
  end.

Definition hook_ok (P : Query -> Prop) : Prop :=
  forall h q s, hook = Some h -> stored_ok P s -> stored_ok P (h q s).1.

(** Every operation of the aggregate but the externally decided verdict. *)
Definition op_internal (op : domain_op) : Prop :=
  match op with OpCompleteVerification _ _ _ _ => False | OpSubmitResult _ _ _ _ _ _ _ => False | _ => True end.

Lemma stored_ok_set P s id q : stored_ok P s -> q_id q = id -> P q -> stored_ok P (store_set s id q).
Proof.
  intros [Hwf Hs] Hid HP. split; [by apply jm_wf_set|]. intros j q'. unfold store_get, store_set. simpl.
  rewrite jm_get_set. case_bool_decide; naive_solver.
Qed.

Lemma stored_ok_delete P s id : stored_ok P s -> stored_ok P (store_delete s id).
Proof.
  intros [Hwf Hs]. split; [by apply jm_wf_delete|]. intros j q'. unfold store_get, store_delete. simpl.
  rewrite jm_get_delete. case_bool_decide; naive_solver.
Qed.

Lemma stored_ok_store P s s' : ss_store s' = ss_store s -> stored_ok P s -> stored_ok P s'.
Proof. unfold stored_ok, store_get. by intros ->. Qed.

Lemma stored_ok_values P s q : stored_ok P s -> q ∈ store_values s -> P q /\ store_get s (q_id q) = Some q.
Proof.
  intros [Hwf Hs] Hq. apply list_elem_of_fmap in Hq as ([k q'] & -> & Hin). simpl.
  apply (jm_get_in k q' _ Hwf) in Hin. destruct (Hs k q') as [<- HP]; done.
Qed.

Lemma step_id op q q' : run_op op q = TOk q' -> q_id q' = q_id q.
Proof. intros H%step_terms. unfold query_terms in H. naive_solver. Qed.

Lemma record_id q r pk bk now vq : recordResult q r pk bk now = TOk vq -> q_id vq = q_id q.
Proof. apply (step_id (OpRecordResult r pk bk now)). Qed.

Lemma verifyAndFinalize_Ok q r ro rm bk oid v u :
  verifyAndFinalize q r ro rm bk oid = Ok (v, u) ->
  verifyWithQuorum q r ro rm bk oid = Ok v /\ u = finalize q v.
Proof. unfold verifyAndFinalize. intros (w & Hw & H)%bind_Ok. by simplify_eq. Qed.

Lemma expire_is_op q now :
  past_deadline now q = true -> run_op (OpExpire now) q = TOk (expired_copy q).
Proof.
  unfold past_deadline. intros [He Hn]%andb_true_iff. simpl. unfold expireQuery. rewrite He. simpl.
  unfold nlt, nge in *. by destruct (ncompare _ _) as [[]|].
Qed.

Section preservation.
Context (allowed : domain_op -> Prop) (P : Query -> Prop).
Hypothesis internal_allowed : forall op, op_internal op -> allowed op.
Hypothesis HP : maintained allowed P.

Lemma with_transition_ok op id t msg s :
  allowed op -> (forall q, t q = run_op op q) ->
  stored_ok P s -> stored_ok P (with_transition id t msg s).1.
Proof.
  intros Ha Ht Hs. unfold with_transition. destruct (store_get s id) as [q|] eqn:E; [|done].
  rewrite Ht. destruct (run_op op q) as [q'|] eqn:Eq; [|done]. simpl.
  destruct Hs as [Hwf Hs]. destruct (Hs _ _ E) as [Hid Hq].
  apply stored_ok_set; [done| |by eapply mt_op]. rewrite <- Hid. by eapply step_id.
Qed.

Lemma cancel_ok id s : stored_ok P s -> stored_ok P (doCancelQuery id s).1.
Proof.
  intros Hs. unfold doCancelQuery. destruct (store_get s id) as [q|] eqn:E; [|done].
  destruct (isOpenStatus (q_status q)) eqn:Eo; [|done]. simpl.
  destruct Hs as [Hwf Hs]. destruct (Hs _ _ E) as [Hid Hq]. apply stored_ok_set; [done|done|].
  eapply (mt_op _ _ HP OpCancel q); [by apply internal_allowed|done|]. simpl. unfold cancelQuery. by rewrite Eo.
Qed.

Lemma expired_copy_ok now q : P q -> past_deadline now q = true -> P (expired_copy q).
Proof.
  intros Hq Hp. eapply (mt_op _ _ HP (OpExpire now)); [by apply internal_allowed|done|].
  by apply expire_is_op.
Qed.

Lemma expire_ok s : stored_ok P s -> stored_ok P (doExpireQueries s).1.
Proof.
  intros Hs. unfold doExpireQueries.
  assert (Hall : Forall P (store_values s)).
  { apply Forall_forall. intros q Hq. by destruct (stored_ok_values P s q Hs Hq). }
  generalize (store_values s) (ss_now s) 0 Hall. clear Hall. intros l now. revert s Hs.
  induction l as [|q l IH]; intros s Hs n Hall; simpl; [done|].
  apply Forall_cons in Hall as [Hq Hall].
  destruct (past_deadline now q) eqn:Ep; apply IH; try done.
  apply stored_ok_set; [done|done|]. by eapply expired_copy_ok.
Qed.

Lemma purge_ok s : stored_ok P s -> stored_ok P (doPurgeExpired s).1.
Proof.
  unfold doPurgeExpired. generalize (store_values s) (@nil Query). intros l. revert s.
  induction l as [|q l IH]; intros s acc Hs; simpl; [done|]. 
  case_bool_decide; apply IH; [|done]. by apply stored_ok_delete.
Qed.

Lemma create_ok input options svc s :
  hook_ok P -> stored_ok P s -> stored_ok P (doCreateQuery hook input options svc s).1.
Proof.
  intros Hh Hs. unfold doCreateQuery. destruct (createQueryAggregate _ _ _) as [q|] eqn:E; [|done].
  assert (Hs' : stored_ok P (store_set s (q_id q) q)).
  { apply stored_ok_set; [done|done|]. by eapply mt_create. }
  destruct hook as [h|] eqn:Eh; [|done]. specialize (Hh h q _ Eh Hs').
  destruct (h q _) as [s' r]. done.
Qed.

Lemma external_ok {A} (r : res A) : call_ok (stored_ok P) (fun s => (s, Settled r)).
Proof. done. Qed.

Lemma submit_ok id r m oid bk : call_ok (stored_ok P) (doSubmitQueryResult deps id r m oid bk).
Proof.
  intros s Hs. unfold doSubmitQueryResult. destruct (store_get s id) as [q|] eqn:E; [|by apply ret_ok].
  destruct (proj2 Hs _ _ E) as [Hid Hq].
  destruct (q_status q !== pending) eqn:Est; [by apply ret_ok|]. bool_to_prop.
  destruct (q_expires_at q <ₙ ss_now s) eqn:Ex.
  { apply ret_ok, stored_ok_set; [done|done|]. apply (expired_copy_ok (ss_now s)); [done|].
    unfold past_deadline. by rewrite Est, Ex. }
  unfold await; simpl. destruct (verifyAndFinalize _ _ _ _ _ _) as [[v u]|e] eqn:Ev; simpl; [|done].
  split; [done|]. intros s' Hs'. destruct (_ && _); [by apply ret_ok|].
  apply ret_ok, stored_ok_set; [done| |by eapply mt_submit].
  apply verifyAndFinalize_Ok in Ev as [_ ->]. done.
Qed.

Lemma select_commit_ok id q pk u :
  q_id q = id -> P q -> call_ok (stored_ok P) (select_commit id q pk u).
Proof.
  intros Hid Hq s Hs. unfold select_commit. destruct (selectProvider q pk u) as [q'|] eqn:E; [|by apply ret_ok].
  apply ret_ok, stored_ok_set; [done| |].
  - rewrite <- Hid. by apply (step_id (OpSelectProvider pk u)).
  - eapply (mt_op _ _ HP (OpSelectProvider pk u)); [by apply internal_allowed|done|done].
Qed.

Lemma select_lock_ok id q pk ref hash u :
  q_id q = id -> P q -> call_ok (stored_ok P) (select_lock_check deps id q pk ref hash u).
Proof.
  intros Hid Hq. unfold select_lock_check.
  repeat case_match; try by apply select_commit_ok.
  apply call_ok_await; [apply external_ok|]. intros l. case_match; [apply ret_ok|by apply select_commit_ok].
Qed.

Lemma select_ok id pk token : call_ok (stored_ok P) (doSelectProvider deps id pk token).
Proof.
  intros s Hs. unfold doSelectProvider. destruct (store_get s id) as [q|] eqn:E; [|by apply ret_ok].
  destruct (proj2 Hs _ _ E) as [Hid Hq].
  destruct (selectProvider _ _ _); [|by apply ret_ok]. case_match; [by apply ret_ok|].
  clear H. destruct (truthy (escrow_ref_of q token)) as [ref|]; [|by apply select_lock_ok].
  destruct (truthy_num _) as [sats|]; [|by apply select_lock_ok].
  destruct (d_escrowProvider deps) as [p|]; [|by apply select_lock_ok].
  apply call_ok_await; [apply external_ok| |done]. intros c.
  case_match; [apply ret_ok|by apply select_lock_ok].
Qed.

Lemma reveal_ok b h p : call_ok (stored_ok P) (tryRevealPreimage b h p).
Proof.
  intros s Hs. unfold tryRevealPreimage. destruct (truthy h); [|by apply ret_ok].
  case_match; [by apply ret_ok|]. apply call_ok_await; [by intros ? ?| |done].
  intros o. case_match; [|apply ret_ok]. apply call_ok_await; [|intros []; apply ret_ok].
  intros s' Hs'. simpl. split; [|done]. by eapply stored_ok_store.
Qed.

Lemma deliver_frost_ok q vq u r bk v : call_ok (stored_ok P) (deliver_frost deps q vq u r bk v).
Proof.
  unfold deliver_frost. repeat case_match; try apply ret_ok.
  apply call_ok_await; [apply external_ok|]. intros o. case_match; apply ret_ok.
Qed.

Lemma settle_ok id q vq r bk v u :
  q_id u = id -> P u -> call_ok (stored_ok P) (settle_escrow deps id q vq r bk v u).
Proof.
  intros Hid Hu s Hs. unfold settle_escrow.
  assert (Hs' : stored_ok P (store_set s id u)) by (by apply stored_ok_set).
  destruct (esc_type <$> q_escrow q) as [[h|g]|]; try by apply deliver_frost_ok.
  destruct (qv_passed v) eqn:Ev; [|by apply deliver_frost_ok].
  apply call_ok_await; [apply reveal_ok| |done].
  intros o. case_match; [apply ret_ok|apply deliver_frost_ok].
Qed.

Lemma submit_escrow_ok id r pk oid bk : call_ok (stored_ok P) (doSubmitEscrowResult deps id r pk oid bk).
Proof.
  intros s Hs. unfold doSubmitEscrowResult. destruct (store_get s id) as [q|] eqn:E; [|by apply ret_ok].
  destruct (proj2 Hs _ _ E) as [Hid Hq]. case_match; [by apply ret_ok|].
  destruct (recordResult _ _ _ _ _) as [vq|] eqn:Er; [|by apply ret_ok].
  pose proof (record_id _ _ _ _ _ _ Er) as Hvid.
  unfold await; simpl. destruct (verifyAndFinalize _ _ _ _ _ _) as [[v u]|e] eqn:Ev; simpl.
  - split.
    + apply stored_ok_set; [done|congruence|].
      eapply (mt_op _ _ HP (OpRecordResult _ pk bk _)); [by apply internal_allowed|done|exact Er].
    + apply settle_ok; [|by eapply mt_finalize].
      apply verifyAndFinalize_Ok in Ev as [_ ->]. simpl. congruence.
  - split; [|done]. apply stored_ok_set; [done|congruence|].
    eapply (mt_op _ _ HP (OpRecordResult _ pk bk _)); [by apply internal_allowed|done|exact Er].
Qed.

Lemma handle_ok r :
  hook_ok P -> request_op_allowed allowed r -> call_ok (stored_ok P) (handle r).
Proof.
  intros Hh Ha.
  assert (Hf : forall A (c : call SvcState A), call_ok (stored_ok P) c -> call_ok (stored_ok P) (forget c)).
  { intros A c Hc. apply call_ok_await; [done|intros ?; apply ret_ok]. }
  destruct r; simpl in *;
    try (apply Hf; auto using submit_ok, select_ok, submit_escrow_ok);
    (intros s Hs; unfold sync; simpl; split; [|done]).
  - by apply create_ok.
  - by apply cancel_ok.
  - by apply expire_ok.
  - by apply purge_ok.
  - split; [apply jm_wf_empty|done].
  - apply (with_transition_ok (OpAddOffer o)); [by apply internal_allowed|done|done].
  - apply (with_transition_ok OpBeginWork); [by apply internal_allowed|done|done].
  - apply (with_transition_ok (OpRecordResult (normalize deps r) pk bk (ss_now s)));
      [by apply internal_allowed|done|done].
  - by apply (with_transition_ok (OpCompleteVerification passed None oid None)).
Qed.

(** The invariant holds in every reachable configuration. *)
Lemma service_maintains allowed_req s0 lp :
  hook_ok P -> (forall r, allowed_req r -> request_op_allowed allowed r) ->
  stored_ok P s0 -> service_run allowed_req (mkLoop s0 []) lp -> stored_ok P (lp_state lp).
Proof.
  intros Hh Ha H0 Hrun. eapply loop_invariant in Hrun as [H _]; [done| | |done].
  - intros c (r & Hr & ->). apply handle_ok; auto.
  - intros s s' He. by apply stored_ok_store.
Qed.
End preservation.

(** ** Two maintained properties *)

(** An approved query is backed by a settled oracle verification that passed,
    of the very result it stores and under the very same terms. *)
Definition approved_backed (q : Query) : Prop :=
  q_status q = approved ->
  exists q0 r bk oid v,
    verifyWithQuorum q0 r (d_oracleResolver deps) (d_multiOracleResolver deps) bk oid = Ok v /\
    qv_passed v = true /\ query_terms q0 = query_terms q /\
    q_result q = Some r /\ q_verification q = Some (qv_verification v).

Lemma query_ok_maintained : maintained (fun _ => True) (fun q => query_ok q = true).
Proof.
  split.
  - intros. by eapply create_query_ok.
  - intros. by eapply step_query_ok.
  - intros q r oid bk v u now m _ _ [_ ->]%verifyAndFinalize_Ok. apply (finalize_ok q v).
  - intros q r pk bk now vq oid v u _ _ [_ ->]%verifyAndFinalize_Ok. apply finalize_ok.
Qed.

Lemma internal_not_approved op q q' : op_internal op -> run_op op q = TOk q' -> q_status q' <> approved.
Proof. intros Hi H. op_cases H; bool_to_prop; congruence. Qed.

Lemma backed_finalize q r bk oid v now m :
  verifyWithQuorum q r (d_oracleResolver deps) (d_multiOracleResolver deps) bk oid = Ok v ->
  approved_backed (submit_final (finalize q v) now r m bk).
Proof.
  intros Hv Hs. simpl in *. exists q, r, bk, oid, v. destruct (qv_passed v) eqn:E; [|done]. done.
Qed.

Lemma record_result q r pk bk now vq : recordResult q r pk bk now = TOk vq -> q_result vq = Some r.
Proof. unfold recordResult. intros. repeat case_match; by simplify_eq/=. Qed.

Lemma approved_backed_maintained : maintained op_internal approved_backed.
Proof.
  split.
  - intros input opts svc q H Hs. unfold createQueryAggregate in H. repeat case_match; by simplify_eq/=.
  - intros op q q' Ha _ H Hs. by apply internal_not_approved in H.
  - intros q r oid bk v u now m _ _ [Hv ->]%verifyAndFinalize_Ok. by eapply backed_finalize.
  - intros q r pk bk now vq oid v u _ Hr [Hv ->]%verifyAndFinalize_Ok Hs. simpl in Hs.
    exists vq, r, bk, oid, v. destruct (qv_passed v) eqn:E; [|done].
    split_and!; try done. simpl. by eapply record_result.
Qed.

(** * Properties *)

(** C8: Under any interleaving of any requests at the [await]s of the handlers, in
    any order and with any clock, every stored query sits under its own id and
    has status, payment status and escrow mode consistent. *)
Theorem interleaving_keeps_queries_consistent s0 lp :
  hook_ok (fun q => query_ok q = true) -> stored_ok (fun q => query_ok q = true) s0 ->
  service_run (fun _ => True) (mkLoop s0 []) lp ->
  forall id q, store_get (lp_state lp) id = Some q -> q_id q = id /\ query_ok q = true.
Proof.
  intros Hh H0 Hrun.
  destruct (service_maintains _ _ (fun _ _ => I) query_ok_maintained _ _ _ Hh
              (fun r _ => match r with RComplete _ _ _ => I | _ => I end) H0 Hrun) as [_ H].
  exact H.
Qed.

(** C3: Under any interleaving of requests other than an externally decided verdict,
    a query is approved, and so its payment released, only if an oracle
    verification of the stored result under the query's terms passed. *)
Theorem approval_backed_by_verification s0 lp :
  hook_ok approved_backed -> stored_ok approved_backed s0 ->
  service_run (fun r => match r with RComplete _ _ _ => False | _ => True end) (mkLoop s0 []) lp ->
  forall id q, store_get (lp_state lp) id = Some q -> approved_backed q.
Proof.
  intros Hh H0 Hrun id q Hq.
  assert (Ha : forall r, match r with RComplete _ _ _ => False | _ => True end ->
                         request_op_allowed op_internal r) by (by intros []).
  destruct (service_maintains _ _ (fun _ Ho => Ho) approved_backed_maintained _ _ _ Hh Ha H0 Hrun) as [_ H].
  by destruct (H _ _ Hq).
Qed.
End spec.
