(* ===== verification/QuerySettlement.v ===== *)
(** * Settlement and selection under interference

    What a Provider can obtain from [submitEscrowResult] and what a Customer
    can commit with [selectProvider], whatever else the event loop runs between
    the segments of the handlers; the refinement of the aggregate by the
    handlers run alone; and the races at the [await]s. *)

From S2P Require Import Prelude JsNum JsMap JsString JsValue SchemaUri QueryTypes Samples.
From S2P Require Import QueryDomain OracleRegistry QueryVerification PreimageStore EventLoop QueryService QueryServiceSpec.

Section settlement.
Context (deps : ServiceDeps) (R : SvcState -> Prop).

Lemma reveal_outcome b h p s o :
  outcome R (tryRevealPreimage b h p) s (Ok (Some o)) ->
  exists hash, h = Some hash /\ p = true /\ b = true /\ ps_getPreimage (ss_preimages s) hash = Some o.
Proof.
  unfold tryRevealPreimage, outcome. destruct (truthy h) as [hash|] eqn:Eh.
  2:{ intros ?%resolves_Settled. done. }
  apply truthy_Some in Eh as [-> _]. destruct p, b; cbn [negb orb]; try (by intros ?%resolves_Settled).
  intros H. apply (outcome_await R _ _ s) in H as (g & s1 & Hg & _ & H).
  apply (outcome_settled R (fun s => s)) in Hg. simplify_eq.
  exists hash. split_and!; [done..|].
  destruct (truthy (ps_getPreimage (ss_preimages s) hash)) as [q|] eqn:Eq.
  - apply outcome_await in H as (u & s2 & _ & _ & H). apply outcome_ret in H. simplify_eq.
    by apply truthy_Some in Eq as [-> _].
  - by apply outcome_ret in H.
Qed.

(** What one submission verified before anything is released. *)
Definition verified_submission (id : string) (r : QueryResult) (pk : string) (oid : option string)
    (bk : option BlossomKeyMap) (s : SvcState) (q vq : Query) (v : QuorumVerificationResult) : Prop :=
  store_get s id = Some q /\
  recordResult q (normalize deps r) pk bk (ss_now s) = TOk vq /\
  verifyWithQuorum vq (normalize deps r) (d_oracleResolver deps) (d_multiOracleResolver deps) bk oid = Ok v.

(** Released material and where it came from. *)
Definition released_preimage (q : Query) (p : string) : Prop :=
  exists e hash s1, q_escrow q = Some e /\ esc_type e = htlc hash /\ R s1 /\
    ps_getPreimage (ss_preimages s1) hash = Some p.
Definition released_signature (q vq : Query) (r : QueryResult) (bk : option BlossomKeyMap)
    (sigs : list string) : Prop :=
  exists e g frost, q_escrow q = Some e /\ esc_type e = p2pk_frost g /\
    d_frostSignature deps = Some frost /\ frost vq (normalize deps r) bk = Ok (Some sigs).

Lemma fmap_esc_type q t : esc_type <$> q_escrow q = Some t -> exists e, q_escrow q = Some e /\ esc_type e = t.
Proof. destruct (q_escrow q) as [e|]; simpl; naive_solver. Qed.

Lemma frost_outcome q vq u r bk v s o :
  outcome R (deliver_frost deps q vq u (normalize deps r) bk v) s (Ok o) ->
  eo_ok o = qv_passed v /\ eo_query o = Some u /\ eo_preimage o = None /\
  (eo_frost_signature o = None \/
   qv_passed v = true /\ exists sigs, eo_frost_signature o = Some sigs /\ released_signature q vq r bk sigs).
Proof.
  unfold deliver_frost. intros H.
  destruct (esc_type <$> q_escrow q) as [[h|g]|] eqn:Et; try (apply outcome_ret in H; simplify_eq; by auto).
  apply fmap_esc_type in Et as (e & He & Ht).
  destruct (d_frostSignature deps) as [frost|] eqn:Ef; [|apply outcome_ret in H; simplify_eq; by auto].
  destruct (qv_passed v) eqn:Ev.
  2:{ apply outcome_ret in H. simplify_eq. simpl. rewrite Ev. auto. }
  apply outcome_await in H as (sg & s1 & Hs & _ & H).
  apply (outcome_settled R (fun s => s)) in Hs. unfold catch_with in Hs.
  destruct (frost _ _ _) as [[sigs|]|] eqn:Ex; simplify_eq;
    apply outcome_ret in H; simplify_eq; simpl; rewrite ?Ev; split_and!; try done; auto.
  right. split; [done|]. exists sigs. split; [done|]. by exists e, g, frost.
Qed.

Lemma settle_outcome id q vq u r bk v s o :
  R s ->
  outcome R (settle_escrow deps id q vq (normalize deps r) bk v u) s (Ok o) ->
  eo_ok o = qv_passed v /\ eo_query o = Some u /\
  (eo_preimage o = None /\ eo_frost_signature o = None \/
   qv_passed v = true /\ eo_frost_signature o = None /\
     (exists p, eo_preimage o = Some p /\ released_preimage q p) \/
   qv_passed v = true /\ eo_preimage o = None /\
     (exists sigs, eo_frost_signature o = Some sigs /\ released_signature q vq r bk sigs)).
Proof.
  intros HR H.
  assert (Hfrost : forall s, outcome R (deliver_frost deps q vq u (normalize deps r) bk v) s (Ok o) ->
    eo_ok o = qv_passed v /\ eo_query o = Some u /\
    (eo_preimage o = None /\ eo_frost_signature o = None \/
     qv_passed v = true /\ eo_preimage o = None /\
       (exists sigs, eo_frost_signature o = Some sigs /\ released_signature q vq r bk sigs))).
  { intros s1 H1%frost_outcome. naive_solver. }
  unfold settle_escrow, outcome in H.
  destruct (esc_type <$> q_escrow q) as [[h|g]|] eqn:Et; try (apply Hfrost in H; naive_solver).
  apply fmap_esc_type in Et as (e & He & Ht).
  destruct (qv_passed v) eqn:Ev; [|apply Hfrost in H; naive_solver].
  apply (outcome_await R _ _ (store_set s id u)) in H as (pre & s1 & Hp & _ & H).
  destruct (truthy pre) as [p|] eqn:Ep; [|apply Hfrost in H; naive_solver].
  apply truthy_Some in Ep as [-> _]. apply reveal_outcome in Hp as (hash & ? & _ & _ & Hg). simplify_eq.
  apply outcome_ret in H. simplify_eq. split_and!; [done..|]. right. left. split_and!; [done..|].
  exists p. split; [done|]. by exists e, hash, s.
Qed.

Lemma submit_escrow_outcome id r pk oid bk s o :
  outcome R (doSubmitEscrowResult deps id r pk oid bk) s (Ok o) ->
  eo_ok o = false /\ eo_preimage o = None /\ eo_frost_signature o = None \/
  exists q vq v, verified_submission id r pk oid bk s q vq v /\
    eo_ok o = qv_passed v /\ eo_query o = Some (finalize vq v) /\
    (eo_preimage o = None /\ eo_frost_signature o = None \/
     qv_passed v = true /\ eo_frost_signature o = None /\
       (exists p, eo_preimage o = Some p /\ released_preimage q p) \/
     qv_passed v = true /\ eo_preimage o = None /\
       (exists sigs, eo_frost_signature o = Some sigs /\ released_signature q vq r bk sigs)).
Proof.
  unfold doSubmitEscrowResult, outcome.
  destruct (store_get s id) as [q|] eqn:Eq; [|intros ?%resolves_Settled; simplify_eq; by left].
  case_match; [intros ?%resolves_Settled; simplify_eq; by left|].
  destruct (recordResult _ _ _ _ _) as [vq|] eqn:Er; [|intros ?%resolves_Settled; simplify_eq; by left].
  intros H'. apply (outcome_await R _ _ (store_set s id vq)) in H' as ([v u] & s1 & Hv & HR & H').
  apply (outcome_settled R (fun s => s)) in Hv. symmetry in Hv. apply verifyAndFinalize_Ok in Hv as [Hv ->].
  right. exists q, vq, v. split; [done|]. by apply settle_outcome in H'.
Qed.

(** The accepted submitter is the provider the query is bound to. *)
Lemma record_provider q r pk bk now vq :
  recordResult q r pk bk now = TOk vq ->
  q_status q = processing /\
  exists e, q_escrow q = Some e /\ forall sel, esc_provider_pubkey e = Some sel -> sel <> "" -> pk = sel.
Proof.
  unfold recordResult. destruct (q_escrow q) as [e|]; [|done]. intros H. split.
  - destruct (q_status q); done.
  - exists e. split; [done|]. intros sel Hsel Hne.
    assert (Ht : truthy (Some sel) = Some sel) by (by apply truthy_Some).
    rewrite Hsel, Ht in H. destruct (negb _); [done|].
    destruct (bool_decide_reflect (sel = pk)); [by subst|done].
Qed.
End settlement.

(** ** Selection *)
Section selection.
Context (deps : ServiceDeps) (R : SvcState -> Prop).

Definition amount_verified (ref : option string) (sats : option number) : Prop :=
  forall rf n, truthy ref = Some rf -> truthy_num sats = Some n ->
  exists p c, d_escrowProvider deps = Some p /\ ep_verify p rf n = Ok c /\ ea_valid c = true.
Definition lock_verified (ref hash : option string) (pk : string) : Prop :=
  forall rf h, truthy ref = Some rf -> truthy hash = Some h ->
  exists p l, d_escrowProvider deps = Some p /\ ep_verifyLock p rf h pk = Ok l /\ el_ok l = true.

Lemma lock_check_outcome id q pk ref hash u s o :
  (forall rf h, truthy ref = Some rf -> truthy hash = Some h -> d_escrowProvider deps <> None) ->
  outcome R (select_lock_check deps id q pk ref hash u) s (Ok o) -> ho_ok o = true ->
  lock_verified ref hash pk.
Proof.
  intros Hprov H Hok rf h Hr Hh. unfold select_lock_check in H. rewrite Hr, Hh in H.
  specialize (Hprov _ _ Hr Hh). destruct (d_escrowProvider deps) as [p|]; [|done].
  apply outcome_await in H as (l & s1 & Hl & _ & H).
  apply (outcome_settled R (fun s => s)) in Hl. exists p, l. split_and!; [done|done|].
  destruct (el_ok l); [done|]. apply outcome_ret in H. by simplify_eq.
Qed.

Lemma truthy_num_bool o n : truthy_num o = Some n -> match truthy_num o with Some _ => true | None => false end = true.
Proof. by intros ->. Qed.

Lemma select_outcome id pk token s o :
  outcome R (doSelectProvider deps id pk token) s (Ok o) -> ho_ok o = true ->
  exists q, store_get s id = Some q /\
    amount_verified (escrow_ref_of q token) (lock_amount_sats <$> q_payment_lock q) /\
    lock_verified (escrow_ref_of q token) (htlc_hash_of q) pk.
Proof.
  unfold doSelectProvider, outcome.
  destruct (store_get s id) as [q|] eqn:Eq; [|by intros ?%resolves_Settled; simplify_eq].
  destruct (selectProvider _ _ _); [|by intros ?%resolves_Settled; simplify_eq].
  intros H Hok. exists q. split; [done|].
  set (ref := escrow_ref_of q token) in *. set (sats := lock_amount_sats <$> q_payment_lock q) in *.
  set (hash := htlc_hash_of q) in *.
  destruct (truthy ref) as [rf|] eqn:Er.
  2:{ split; intros ? ? ?; congruence. }
  destruct (d_escrowProvider deps) as [p|] eqn:Ep; simpl in H.
  - rewrite andb_false_r in H.
    assert (Hprov : forall rf h, truthy ref = Some rf -> truthy hash = Some h -> d_escrowProvider deps <> None)
      by (intros; congruence).
    destruct (truthy_num sats) as [n|] eqn:En.
    + apply (outcome_await R _ _ s) in H as (c & s1 & Hc & _ & H).
      apply (outcome_settled R (fun s => s)) in Hc. symmetry in Hc.
      apply bind_Ok in Hc as (c' & Hc & Hcc). inversion Hcc; subst c; clear Hcc.
      simpl in H. destruct (ea_valid c') eqn:Ec; [|apply outcome_ret in H; by simplify_eq].
      split; [|exact (lock_check_outcome _ _ _ _ _ _ _ _ Hprov H Hok)].
      intros ? ? ? ?. simplify_eq. exists p, c'. split_and!; congruence.
    + split; [intros ? ? ? ?; congruence|]. exact (lock_check_outcome _ _ _ _ _ _ _ _ Hprov H Hok).
  - rewrite andb_true_r in H.
    destruct (truthy_num sats) eqn:En, (truthy hash) eqn:Eh; simpl in H;
      try (apply resolves_Settled in H; by simplify_eq).
    split; intros ? ? ? ?; congruence.
Qed.
End selection.

(** ** Handlers run alone *)
Section alone.
Context (deps : ServiceDeps).

Lemma reveal_alone b h p s :
  exists s' o, run_call (tryRevealPreimage b h p) s = (s', Ok o) /\ ss_store s' = ss_store s.
Proof.
  unfold tryRevealPreimage. destruct (truthy h) as [hash|]; [|by exists s, None].
  assert (Hr : exists s' o, run_call (await (fun s => (s, Settled (Ok (ps_getPreimage (ss_preimages s) hash))))
    (fun preimage => match truthy preimage with
      | Some p => await (fun s => (s <| ss_preimages := ps_delete (ss_preimages s) hash |>, Settled (Ok tt)))
                    (fun _ => ret (Some p))
      | None => ret None end)) s = (s', Ok o) /\ ss_store s' = ss_store s).
  { rewrite run_call_await. simpl. destruct (truthy _) as [x|]; [|by exists s, None].
    rewrite run_call_await. simpl. by do 2 eexists. }
  destruct (negb p || negb b); [by exists s, None|exact Hr].
Qed.

Lemma frost_alone q vq u r bk v s :
  exists o, run_call (deliver_frost deps q vq u r bk v) s = (s, Ok o) /\
    eo_ok o = qv_passed v /\ eo_query o = Some u.
Proof.
  unfold deliver_frost. destruct (esc_type <$> q_escrow q) as [[h|g]|]; try (by eexists).
  destruct (d_frostSignature deps) as [frost|]; [|by eexists].
  destruct (qv_passed v) eqn:Ev.
  - rewrite run_call_await. simpl. destruct (frost vq r bk) as [[sigs|]|]; simpl;
      eexists; (split; [done|]); simpl; by rewrite ?Ev.
  - eexists. split; [done|]. simpl. by rewrite Ev.
Qed.

Lemma settle_alone id q vq r bk v u s :
  exists s' o, run_call (settle_escrow deps id q vq r bk v u) s = (s', Ok o) /\
    eo_ok o = qv_passed v /\ eo_query o = Some u /\ store_get s' id = Some u.
Proof.
  assert (Hfrost : exists s' o,
    run_call (deliver_frost deps q vq u r bk v) (store_set s id u) = (s', Ok o) /\
    eo_ok o = qv_passed v /\ eo_query o = Some u /\ store_get s' id = Some u).
  { destruct (frost_alone q vq u r bk v (store_set s id u)) as (o & E & H1 & H2).
    exists (store_set s id u), o. split_and!; [done..|]. apply jm_get_set_eq. }
  unfold settle_escrow, run_call in *. destruct (esc_type <$> q_escrow q) as [[h|g]|]; try done.
  destruct (qv_passed v) eqn:Ev; [|done].
  change (exists s' o, run_call (await (tryRevealPreimage (d_preimageStore deps) (Some h) true)
    (fun preimage => match truthy preimage with
       | Some p => ret (mkEscrowSubmitOutcome true (Some u)
           "Verification passed. Preimage revealed for HTLC redemption." (Some p) None)
       | None => deliver_frost deps q vq u r bk v end)) (store_set s id u) = (s', Ok o) /\
    eo_ok o = true /\ eo_query o = Some u /\ store_get s' id = Some u).
  rewrite run_call_await.
  destruct (reveal_alone (d_preimageStore deps) (Some h) true (store_set s id u)) as (s1 & o1 & E1 & Hst).
  rewrite E1. assert (Hget : store_get s1 id = Some u).
  { unfold store_get. rewrite Hst. apply jm_get_set_eq. }
  destruct (truthy o1); [do 2 eexists; split_and!; done|].
  destruct (frost_alone q vq u r bk v s1) as (o & E & H1 & H2). exists s1, o. by rewrite Ev in H1.
Qed.

(** Finalization is the aggregate's transition. *)
Lemma finalize_is_completeVerification q r pk bk now q1 v :
  recordResult q r pk bk now = TOk q1 ->
  completeVerification q1 (qv_passed v) (Some (qv_verification v)) None (Some (qv_attestations v)) =
  TOk (finalize q1 v).
Proof.
  unfold recordResult. destruct (q_escrow q) as [e|] eqn:Ee; [|done]. intros H.
  repeat case_match; simplify_eq/=; unfold completeVerification; simpl; rewrite ?Ee; destruct (qv_passed v) eqn:Ep; unfold finalize; rewrite ?Ep; try done.
Qed.

Lemma finalize_is_submitResult q r m oid bk now v :
  q_escrow q = None -> q_status q = pending -> (q_expires_at q <ₙ now) = false ->
  vd_passed (qv_verification v) = qv_passed v -> qv_attestations v <> [] ->
  submitResult q r (qv_verification v) m oid (Some (qv_attestations v)) bk now =
  TOk (submit_final (finalize q v) now r m bk).
Proof.
  intros He Hs Hx Hv Ha. unfold submitResult. rewrite He, Hs, Hx, Hv. simpl.
  unfold finalize. by destruct (qv_attestations v).
Qed.
End alone.

(** ** Sweeps over the store *)
Section sweeps.

Definition keyed (s : SvcState) : Prop := stored_ok (fun _ => True) s.

Definition expire_entry (now : number) (kv : string * Query) : string * Query :=
  (kv.1, if past_deadline now kv.2 then expired_copy kv.2 else kv.2).

Lemma expire_fold now l1 l2 s n :
  NoDup (jm_keys (l1 ++ l2)) -> Forall (fun kv => q_id kv.2 = kv.1) l2 -> ss_store s = l1 ++ l2 ->
  fold_left (expire_one now) (jm_values l2) (s, n) =
  (s <| ss_store := l1 ++ (expire_entry now <$> l2) |>,
   n + length (List.filter (past_deadline now) (jm_values l2))).
Proof.
  revert l1 s n. induction l2 as [|[k q] l2 IH]; intros l1 s n Hnd Hid Hs; simpl.
  - rewrite app_nil_r, Nat.add_0_r in *. rewrite <- Hs. by destruct s.
  - apply Forall_cons in Hid as [Hk Hid]. simpl in Hk.
    assert (Hni : k ∉ jm_keys l1).
    { unfold jm_keys in Hnd. rewrite fmap_app, NoDup_app in Hnd. destruct Hnd as (_ & H & _).
      intros Hin. apply (H k Hin). left. }
    unfold expire_entry at 1. simpl. destruct (past_deadline now q) eqn:Ep; simpl.
    + rewrite (IH (l1 ++ [(k, expired_copy q)])); simpl.
      * f_equal; [|lia]. by rewrite <- app_assoc.
      * unfold jm_keys in *. rewrite <- app_assoc. by rewrite fmap_app in *.
      * done.
      * rewrite Hs, Hk, jm_set_middle by done. by rewrite <- app_assoc.
    + rewrite (IH (l1 ++ [(k, q)])); rewrite <- ?app_assoc; done.
Qed.

Definition live_entry (kv : string * Query) : bool := negb (q_status kv.2 === expired).

Lemma purge_fold l1 l2 s acc :
  NoDup (jm_keys (l1 ++ l2)) -> Forall (fun kv => q_id kv.2 = kv.1) l2 -> ss_store s = l1 ++ l2 ->
  fold_left purge_one (jm_values l2) (s, acc) =
  (s <| ss_store := l1 ++ List.filter live_entry l2 |>,
   acc ++ List.filter (fun q => q_status q === expired) (jm_values l2)).
Proof.
  revert l1 s acc. induction l2 as [|[k q] l2 IH]; intros l1 s acc Hnd Hid Hs; simpl.
  - rewrite !app_nil_r in *. rewrite <- Hs. by destruct s.
  - apply Forall_cons in Hid as [Hk Hid]. simpl in Hk. unfold live_entry at 1. simpl.
    destruct (q_status q === expired) eqn:Ep; simpl.
    + rewrite (IH l1); [by rewrite <- app_assoc| |done|].
      * unfold jm_keys in *. rewrite fmap_app, fmap_cons in Hnd. rewrite fmap_app.
        eapply sublist_NoDup; [exact Hnd|]. apply sublist_app; [done|]. by apply sublist_cons.
      * simpl. by rewrite Hs, Hk, jm_delete_middle.
    + rewrite (IH (l1 ++ [(k, q)])); rewrite <- ?app_assoc; done.
Qed.

Lemma keyed_entries s : keyed s -> Forall (fun kv => q_id kv.2 = kv.1) (ss_store s).
Proof.
  intros [Hwf H]. apply Forall_forall. intros [k q] Hin. simpl.
  apply (jm_get_in k q _ Hwf) in Hin. by destruct (H k q Hin).
Qed.
End sweeps.

(** * Properties *)

(** C6: Release safety: whatever runs between its segments, [submitEscrowResult]
    hands out a preimage or FROST signatures only for a query that was being
    processed, to the provider it is bound to, after its oracle verification
    settled and passed; never both kinds; a preimage is the stored one for the
    escrow's hash, signatures are those the FROST port returned. *)
Theorem settlement_release_safety deps R id r pk oid bk s o :
  outcome R (doSubmitEscrowResult deps id r pk oid bk) s (Ok o) ->
  eo_preimage o <> None \/ eo_frost_signature o <> None ->
  eo_ok o = true /\ (eo_preimage o = None \/ eo_frost_signature o = None) /\
  exists q vq v e, verified_submission deps id r pk oid bk s q vq v /\ qv_passed v = true /\
    q_status q = processing /\ q_escrow q = Some e /\
    (forall sel, esc_provider_pubkey e = Some sel -> sel <> "" -> pk = sel) /\
    (forall p, eo_preimage o = Some p -> released_preimage R q p) /\
    (forall sigs, eo_frost_signature o = Some sigs -> released_signature deps q vq r bk sigs).
Proof.
  intros Ho Hrel.
  destruct (submit_escrow_outcome deps R _ _ _ _ _ _ _ Ho) as [(_ & ? & ?)|(q & vq & v & Hv & Hok & _ & Hcases)];
    [naive_solver|].
  destruct Hv as (Hg & Hr & Hq). destruct (record_provider _ _ _ _ _ _ Hr) as (Hst & e & He & Hpk).
  destruct Hcases as [[? ?]|[(Hp & Hn & p & Ep & Hrp)|(Hp & Hn & sigs & Es & Hrs)]]; [naive_solver| |];
    rewrite Hp in Hok; (split_and!; [done|auto|]); exists q, vq, v, e; split_and!; try done; intros; congruence.
Qed.

(** No settlement material accompanies a failed outcome. *)
Theorem failure_releases_nothing deps R id r pk oid bk s o :
  outcome R (doSubmitEscrowResult deps id r pk oid bk) s (Ok o) -> eo_ok o = false ->
  eo_preimage o = None /\ eo_frost_signature o = None.
Proof.
  intros [(_ & ? & ?)|(q & vq & v & _ & Hok & _ & Hcases)]%submit_escrow_outcome Hf; [done|].
  destruct Hcases as [?|[(Hp & _)|(Hp & _)]]; [done|congruence..].
Qed.


(** The token passed to [selectProvider] is not the one that is checked when
    the query already carries an escrow reference: it is committed whatever
    the escrow port says about it. *)
Theorem replacement_token_unchecked deps s id q e pk tok ref p c l :
  store_get s id = Some q -> q_status q = awaiting_offers -> q_escrow q = Some e ->
  esc_escrow_ref e = Some ref -> ref <> "" -> d_escrowProvider deps = Some p ->
  (forall n, ep_verify p ref n = Ok c) -> ea_valid c = true ->
  (forall h, ep_verifyLock p ref h pk = Ok l) -> el_ok l = true ->
  exists s' q', run_call (doSelectProvider deps id pk (Some tok)) s =
      (s', Ok (mkHtlcOutcome true (Some "Provider selected"))) /\
    store_get s' id = Some q' /\ (q_escrow q' ≫= esc_escrow_token) = Some tok.
Proof.
  intros Hg Hs He Href Hne Hp Hc Hcv Hl Hlv.
  assert (Hlock : forall u h s1, up_escrow_token u = Some (Some tok) ->
    exists s' q', run_call (select_lock_check deps id q pk (Some ref) h u) s1 =
      (s', Ok (mkHtlcOutcome true (Some "Provider selected"))) /\
      store_get s' id = Some q' /\ (q_escrow q' ≫= esc_escrow_token) = Some tok).
  { intros u h s1 Hu.
    assert (Hcommit : exists s' q', run_call (select_commit id q pk u) s1 =
      (s', Ok (mkHtlcOutcome true (Some "Provider selected"))) /\
      store_get s' id = Some q' /\ (q_escrow q' ≫= esc_escrow_token) = Some tok).
    { unfold select_commit, selectProvider, run_call. rewrite He, Hs. simpl. do 2 eexists.
      split; [done|]. split; [apply jm_get_set_eq|]. simpl. by rewrite Hu. }
    unfold select_lock_check. rewrite Hp.
    assert (Ht : truthy (Some ref) = Some ref) by (by apply truthy_Some). rewrite Ht.
    destruct (truthy h) as [hs|]; [|done]. rewrite run_call_await. simpl.
    unfold verifyEscrowLock. rewrite Hl. simpl. by rewrite Hlv. }
  unfold doSelectProvider, run_call in *. rewrite Hg.
  unfold selectProvider at 1. rewrite He, Hs. simpl.
  assert (Hr : escrow_ref_of q (Some tok) = Some ref).
  { unfold escrow_ref_of. rewrite He. simpl. by rewrite Href. }
  rewrite Hr. assert (Ht : truthy (Some ref) = Some ref) by (by apply truthy_Some). rewrite Ht, Hp.
  rewrite andb_false_r. destruct (truthy_num _) as [n|]; [|by apply Hlock].
  unfold await, verifyEscrowAmount. simpl. rewrite Hc. simpl. rewrite Hcv. by apply Hlock.
Qed.

(** C26: Run alone, an escrow submission is the aggregate's [recordResult] followed
    by [completeVerification] with the oracles' verdict; the handler settles
    and the outcome reports the committed query. *)
Theorem escrow_submission_refines_aggregate deps s id q r pk oid bk q1 v :
  store_get s id = Some q ->
  recordResult q (normalize deps r) pk bk (ss_now s) = TOk q1 ->
  verifyWithQuorum q1 (normalize deps r) (d_oracleResolver deps) (d_multiOracleResolver deps) bk oid = Ok v ->
  exists s' o q2,
    run_call (doSubmitEscrowResult deps id r pk oid bk) s = (s', Ok o) /\
    completeVerification q1 (qv_passed v) (Some (qv_verification v)) None (Some (qv_attestations v)) = TOk q2 /\
    store_get s' id = Some q2 /\ eo_query o = Some q2 /\ eo_ok o = qv_passed v.
Proof.
  intros Hg Hr Hv. destruct (record_provider _ _ _ _ _ _ Hr) as (_ & e & He & _).
  destruct (settle_alone deps id q q1 (normalize deps r) bk v (finalize q1 v) (store_set s id q1))
    as (s' & o & Hrun & Hok & Hq & Hst).
  exists s', o, (finalize q1 v). split_and!; try done; [|by eapply finalize_is_completeVerification].
  unfold doSubmitEscrowResult, run_call. rewrite Hg. unfold isEscrowQuery, is_escrow. rewrite He.
  simpl. rewrite Hr. unfold await, verifyAndFinalize. rewrite Hv. simpl. exact Hrun.
Qed.

(** Run alone, a plain submission that an oracle attested is the aggregate's
    [submitResult] with the oracles' verdict. *)
Theorem plain_submission_refines_aggregate deps s id q r m oid bk v :
  store_get s id = Some q -> q_escrow q = None -> q_status q = pending ->
  (q_expires_at q <ₙ ss_now s) = false ->
  verifyWithQuorum q (normalize deps r) (d_oracleResolver deps) (d_multiOracleResolver deps) bk oid = Ok v ->
  qv_attestations v <> [] ->
  exists s' o q2,
    run_call (doSubmitQueryResult deps id r m oid bk) s = (s', Ok o) /\
    submitResult q (normalize deps r) (qv_verification v) m oid (Some (qv_attestations v)) bk (ss_now s) = TOk q2 /\
    store_get s' id = Some q2 /\ so_ok o = qv_passed v.
Proof.
  intros Hg He Hs Hx Hv Ha.
  pose proof (finalize_is_submitResult q (normalize deps r) m oid bk (ss_now s) v He Hs Hx
                (verify_detail_passed _ _ _ _ _ _ _ Hv) Ha) as Hsub.
  unfold doSubmitQueryResult, run_call, await, verifyAndFinalize. rewrite Hg, Hs, Hx. simpl. rewrite Hv. simpl.
  rewrite (bool_decide_false (qv_attestations v = [])) by done. rewrite andb_false_r. simpl.
  do 3 eexists. split_and!; [done|exact Hsub|apply jm_get_set_eq|done].
Qed.

(** A cancellation that succeeds while a submission is being verified is lost:
    the submission writes its older snapshot back, and the query the customer
    was told is cancelled ends approved with its payment released. *)
Theorem cancellation_overwritten deps s id q r m oid bk v :
  store_get s id = Some q -> q_status q = pending -> (q_expires_at q <ₙ ss_now s) = false ->
  verifyWithQuorum q (normalize deps r) (d_oracleResolver deps) (d_multiOracleResolver deps) bk oid = Ok v ->
  qv_passed v = true ->
  let '(s1, t) := doSubmitQueryResult deps id r m oid bk s in
  let '(s2, oc) := doCancelQuery id s1 in
  ho_ok oc = true /\ q_status <$> store_get s2 id = Some rejected /\
  exists q', store_get (run_alone t s2).1 id = Some q' /\
    q_status q' = approved /\ q_payment_status q' = released.
Proof.
  intros Hg Hs Hx Hv Hp. unfold doSubmitQueryResult, await, verifyAndFinalize. rewrite Hg, Hs, Hx. simpl. rewrite Hv. simpl.
  unfold doCancelQuery. rewrite Hg, Hs. simpl.
  assert (E : forall x : Query, jm_get id (jm_set id x (ss_store s)) = Some x) by (intros; apply jm_get_set_eq).
  split_and!; [done|by unfold store_get; simpl; rewrite E|].
  exists (submit_final (finalize q v) (ss_now s) (normalize deps r) m bk).
  unfold finalize, submit_final. rewrite Hp. simpl.
  split_and!; [|done..]. apply jm_get_set_eq.
Qed.

(** The expiry sweep expires exactly the open queries past their deadline,
    leaves every other entry and the order of the store alone, and returns how
    many it changed. *)
Theorem expireQueries_exact s :
  keyed s ->
  let '(s', n) := doExpireQueries s in
  ss_store s' = expire_entry (ss_now s) <$> ss_store s /\
  n = length (List.filter (past_deadline (ss_now s)) (store_values s)) /\
  Forall (fun q => past_deadline (ss_now s) q = false) (store_values s').
Proof.
  intros Hk. unfold doExpireQueries.
  rewrite (expire_fold _ [] (ss_store s)); [|apply Hk|by apply keyed_entries|done]. simpl.
  split_and!; [done..|]. unfold store_values, jm_values. simpl.
  rewrite <- list_fmap_compose. apply Forall_fmap, Forall_forall. intros [k q] _. simpl.
  destruct (past_deadline (ss_now s) q) eqn:E; [|done]. reflexivity.
Qed.

(** Purging removes exactly the expired queries and returns them in order. *)
Theorem purgeExpired_exact s :
  keyed s ->
  let '(s', l) := doPurgeExpired s in
  ss_store s' = List.filter live_entry (ss_store s) /\
  l = List.filter (fun q => q_status q === expired) (store_values s).
Proof.
  intros Hk. unfold doPurgeExpired.
  rewrite (purge_fold [] (ss_store s)); [|apply Hk|by apply keyed_entries|done]. done.
Qed.

(** * Witnesses *)
Section witnesses.
Local Existing Instance sample_urls.

Definition svc_registry : jsmap string Oracle := registry_register [] (sample_oracle "oracle-1" true).
Definition svc_provider : EscrowProvider :=
  mkEscrowProvider (fun ref n => Ok (mkEscrowAmount (ref === "hold") (Some (num 100)) None))
    (fun ref h pk => Ok (mkEscrowLock (ref === "hold") None)).
Definition svc_deps : ServiceDeps :=
  service_deps (Some (registry_ops svc_registry)) true (Some svc_provider) None None.

Definition held_escrow (prov : option string) : EscrowInfo :=
  mkEscrowInfo (htlc "h1") ["oracle-1"] "customer-1" prov (num 5000) None None (Some "hold").
Definition svc_state (q : Query) : SvcState :=
  mkSvcState [(q_id q, q)] [("h1", mkPreimageEntry "h1" "p1" (num 0))] (num 2000).
Definition processing_state : SvcState :=
  svc_state (sample_query "q1" processing escrow_locked (Some (held_escrow (Some "prov")))).
Definition plain_state : SvcState := svc_state (sample_query "q1" pending locked None).
Definition offering_state : SvcState :=
  svc_state (sample_query "q1" awaiting_offers escrow_locked (Some (held_escrow None))).

Definition created_state : SvcState :=
  (doCreateQuery None sample_input None sample_services (mkSvcState [] [] (num 0))).1.

Lemma interleaving_keeps_queries_consistent_witness :
  exists q, store_get created_state "q1" = Some q /\ q_id q = "q1" /\ query_ok q = true.
Proof.
  eexists. split; [reflexivity|].
  eapply (interleaving_keeps_queries_consistent svc_deps None (mkSvcState [] [] (num 0))
           (mkLoop created_state [Settled (Ok tt)])); [done|split; [apply jm_wf_empty|done]| |reflexivity].
  eapply rtc_l; [|apply rtc_refl].
  apply (loop_call _ _ (handle svc_deps None (RCreate sample_input None sample_services)) _ created_state (Settled (Ok tt)) []);
    [by eexists|reflexivity].
Defined.

Definition plain_meta : SubmissionMeta := mkSubmissionMeta exec_human channel_adapter.

Lemma plain_state_stored (P : Query -> Prop) :
  P (sample_query "q1" pending locked None) -> stored_ok P plain_state.
Proof.
  intros HP. split; [apply NoDup_singleton|]. intros id q. unfold store_get. simpl. case_bool_decide; [|done].
  intros. by simplify_eq.
Defined.

(** A submission is started, resumed, and approves its query. *)
Definition submit_request : request := RSubmit "q1" sample_result plain_meta (Some "oracle-1") None.
Definition submit_started := handle svc_deps None submit_request plain_state.
Definition submit_resumed : SvcState * task SvcState unit :=
  match submit_started.2 with Await f => f submit_started.1 | t => (submit_started.1, t) end.

Example submit_resumed_approved : q_status <$> store_get submit_resumed.1 "q1" = Some approved.
Proof. reflexivity. Qed.

Lemma submit_run :
  service_run svc_deps None (fun r => match r with RComplete _ _ _ => False | _ => True end)
    (mkLoop plain_state []) (mkLoop submit_resumed.1 [submit_resumed.2]).
Proof.
  eapply rtc_l; [|eapply rtc_l; [|apply rtc_refl]].
  - apply (loop_call _ _ (handle svc_deps None submit_request) _ submit_started.1 submit_started.2 []);
      [by exists submit_request|apply surjective_pairing].
  - apply (loop_resume _ _ 0
      (fun s => match submit_started.2 with Await f => f s | t => (s, t) end)
      submit_started.1 submit_resumed.1 submit_resumed.2 [submit_started.2]); [reflexivity|].
    apply surjective_pairing.
Defined.

Lemma approval_backed_by_verification_witness :
  exists q, store_get submit_resumed.1 "q1" = Some q /\ approved_backed svc_deps q.
Proof.
  eexists. split; [reflexivity|].
  refine (approval_backed_by_verification svc_deps None plain_state
           (mkLoop submit_resumed.1 [submit_resumed.2]) _ _ submit_run "q1" _ _);
    [done|by apply plain_state_stored|reflexivity].
Defined.

Definition escrow_call : call SvcState EscrowSubmitOutcome :=
  doSubmitEscrowResult svc_deps "q1" sample_result "prov" (Some "oracle-1") None.
Definition escrow_result : EscrowSubmitOutcome :=
  match (run_call escrow_call processing_state).2 with
  | Ok o => o
  | Throw _ => mkEscrowSubmitOutcome false None "" None None
  end.

Example escrow_result_preimage : eo_preimage escrow_result = Some "p1".
Proof. reflexivity. Qed.

Lemma escrow_outcome_alone : outcome (fun _ => True) escrow_call processing_state (Ok escrow_result).
Proof. apply run_call_outcome. vm_compute. reflexivity. Qed.

Lemma settlement_release_safety_witness :
  exists q vq v, verified_submission svc_deps "q1" sample_result "prov" (Some "oracle-1") None
    processing_state q vq v /\ qv_passed v = true.
Proof.
  destruct (settlement_release_safety svc_deps (fun _ => True) "q1" sample_result "prov"
              (Some "oracle-1") None processing_state escrow_result escrow_outcome_alone)
    as (_ & _ & q & vq & v & _ & Hv & Hp & _); [left; vm_compute; discriminate|].
  exists q, vq, v. done.
Defined.

Definition failing_deps : ServiceDeps :=
  service_deps (Some (registry_ops (registry_register [] (sample_oracle "oracle-1" false)))) true
    (Some svc_provider) None None.
Definition failing_call : call SvcState EscrowSubmitOutcome :=
  doSubmitEscrowResult failing_deps "q1" sample_result "prov" (Some "oracle-1") None.

Definition failing_result : EscrowSubmitOutcome :=
  match (run_call failing_call processing_state).2 with Ok o => o | Throw _ => escrow_result end.

Lemma failing_outcome_alone : outcome (fun _ => True) failing_call processing_state (Ok failing_result).
Proof. apply run_call_outcome. vm_compute. reflexivity. Qed.

Lemma failure_releases_nothing_witness :
  eo_preimage failing_result = None /\ eo_frost_signature failing_result = None.
Proof.
  apply (failure_releases_nothing failing_deps (fun _ => True) "q1" sample_result "prov"
    (Some "oracle-1") None processing_state failing_result failing_outcome_alone).
  vm_compute. reflexivity.
Defined.

Definition select_call : call SvcState HtlcOutcome := doSelectProvider svc_deps "q1" "prov" (Some "junk").


(** A query without an amount whose escrow is not an HTLC: selected with any token and
    without an escrow port. *)
Definition frost_offer : Query := {|
  q_id := "q1"; q_schema := Some ProofSchema_TlsnV1; q_status := awaiting_offers; q_description := "sample"; q_location_hint := None; q_challenge_nonce := None; q_verification_requirements := []; q_created_at := num 1000; q_expires_at := num 601000; q_customer_meta := None; q_payment_lock := None; q_oracle_ids := Some ["oracle-1"]; q_assigned_oracle_id := None; q_submitted_at := None; q_result := None; q_verification := None; q_submission_meta := None; q_payment_status := escrow_locked; q_escrow := Some (mkEscrowInfo (p2pk_frost "group") ["oracle-1"] "customer-1" None (num 5000) None None None); q_offers := None; q_nostr_event_id := None; q_blossom_keys := None; q_schema_requirement := None; q_quorum := None; q_attestations := None;
|}.
Example unchecked_selection :
  (run_call (doSelectProvider (service_deps None true None None None) "q1" "prov" (Some "junk")) (svc_state frost_offer)).2 =
  Ok (mkHtlcOutcome true (Some "Provider selected")).
Proof. vm_compute. reflexivity. Qed.

(** The port rejects the token "junk", and it is committed. *)
Lemma replacement_token_unchecked_witness :
  ep_verify svc_provider "junk" (num 100) = Ok (mkEscrowAmount false (Some (num 100)) None) /\
  exists s' q', run_call select_call offering_state =
      (s', Ok (mkHtlcOutcome true (Some "Provider selected"))) /\
    store_get s' "q1" = Some q' /\ (q_escrow q' ≫= esc_escrow_token) = Some "junk".
Proof.
  split; [reflexivity|].
  apply (replacement_token_unchecked svc_deps offering_state "q1"
           (sample_query "q1" awaiting_offers escrow_locked (Some (held_escrow None)))
           (held_escrow None) "prov" "junk" "hold" svc_provider
           (mkEscrowAmount true (Some (num 100)) None) (mkEscrowLock true None)); done.
Defined.

(** The verifying query and the verdict of the two sample submissions. *)
Definition verifying_query : Query :=
  match recordResult (sample_query "q1" processing escrow_locked (Some (held_escrow (Some "prov"))))
          sample_result "prov" None (num 2000) with
  | TOk q => q
  | TErr _ => sample_query "" pending locked None
  end.
Definition verdict_of (q : Query) : QuorumVerificationResult :=
  match verifyWithQuorum q sample_result (d_oracleResolver svc_deps) (d_multiOracleResolver svc_deps)
          None (Some "oracle-1") with
  | Ok v => v
  | Throw _ => refusal ""
  end.

Lemma escrow_submission_refines_aggregate_witness :
  exists s' o q2, run_call escrow_call processing_state = (s', Ok o) /\
    store_get s' "q1" = Some q2 /\ eo_query o = Some q2 /\ eo_ok o = qv_passed (verdict_of verifying_query).
Proof.
  destruct (escrow_submission_refines_aggregate svc_deps processing_state "q1"
              (sample_query "q1" processing escrow_locked (Some (held_escrow (Some "prov"))))
              sample_result "prov" (Some "oracle-1") None verifying_query (verdict_of verifying_query))
    as (s' & o & q2 & H1 & _ & H2 & H3 & H4); [vm_compute; reflexivity..|].
  exists s', o, q2. done.
Defined.

Lemma plain_submission_refines_aggregate_witness :
  exists s' o q2,
    run_call (doSubmitQueryResult svc_deps "q1" sample_result plain_meta (Some "oracle-1") None) plain_state = (s', Ok o) /\
    store_get s' "q1" = Some q2 /\ so_ok o = qv_passed (verdict_of (sample_query "q1" pending locked None)).
Proof.
  destruct (plain_submission_refines_aggregate svc_deps plain_state "q1"
              (sample_query "q1" pending locked None) sample_result plain_meta
              (Some "oracle-1") None (verdict_of (sample_query "q1" pending locked None)))
    as (s' & o & q2 & H1 & _ & H2 & H3); [vm_compute; reflexivity..|vm_compute; discriminate|].
  exists s', o, q2. done.
Defined.

Lemma cancellation_overwritten_witness :
  let '(s1, t) := doSubmitQueryResult svc_deps "q1" sample_result plain_meta (Some "oracle-1") None plain_state in
  let '(s2, oc) := doCancelQuery "q1" s1 in
  ho_ok oc = true /\ q_status <$> store_get s2 "q1" = Some rejected /\
  exists q', store_get (run_alone t s2).1 "q1" = Some q' /\
    q_status q' = approved /\ q_payment_status q' = released.
Proof.
  apply (cancellation_overwritten svc_deps plain_state "q1" (sample_query "q1" pending locked None)
           sample_result plain_meta (Some "oracle-1") None (verdict_of (sample_query "q1" pending locked None)));
    vm_compute; reflexivity.
Defined.

Lemma plain_state_keyed : keyed plain_state.
Proof. by apply plain_state_stored. Defined.

Lemma expireQueries_exact_witness :
  (doExpireQueries (plain_state <| ss_now := num 700000 |>)).2 = 1 /\
  let '(s', n) := doExpireQueries plain_state in
  ss_store s' = expire_entry (ss_now plain_state) <$> ss_store plain_state /\
  n = length (List.filter (past_deadline (ss_now plain_state)) (store_values plain_state)) /\
  Forall (fun q => past_deadline (ss_now plain_state) q = false) (store_values s').
Proof. split; [reflexivity|]. apply expireQueries_exact, plain_state_keyed. Defined.

Lemma purgeExpired_exact_witness :
  let '(s', l) := doPurgeExpired plain_state in
  ss_store s' = List.filter live_entry (ss_store plain_state) /\
  l = List.filter (fun q => q_status q === expired) (store_values plain_state).
Proof. apply purgeExpired_exact, plain_state_keyed. Defined.
End witnesses.
