(* ===== verification/CashuTypes.v ===== *)
(** * Cashu data and the cashu-ts interface

    Proofs, tokens and wallets as the payment code sees them.  The library
    [@cashu/cashu-ts] and the mint behind a wallet are not part of the
    repository: [CashuLib] and [Wallet] are their interfaces, and every
    operation that can throw or reject returns a [res].  Also the arithmetic
    helpers of [payments/cashu/cashu-escrow-helpers.ts] and the lock builders of
    [payments/cashu/cashu-htlc-options.ts]. *)

From S2P Require Import Prelude JsNum JsMap JsString JsValue.

Record CashuProof := mkProof {
  pf_id : string;
  pf_amount : number;
  pf_secret : string;
  pf_C : string;
  pf_dleq : jsval;
  pf_witness : jsval;
}.

Global Instance set_pf_witness : Setter pf_witness :=
  fun f p => mkProof (pf_id p) (pf_amount p) (pf_secret p) (pf_C p) (pf_dleq p) (f (pf_witness p)).

Record DecodedToken := mkDecoded { tok_mint : string; tok_proofs : list CashuProof }.

(** The calls made on a [P2PKBuilder], in order; the hash and the refund key
    may be read from an unchecked secret, so they are dynamic values. *)
Inductive builder_call :=
| addHashlock (hash : jsval)
| addLockPubkey (keys : list string)
| requireLockSignatures (n : Z)
| lockUntil (locktime : number)
| addRefundPubkey (key : jsval)
| requireRefundSignatures (n : Z)
| sigAll.

(** A mint keyset: its id and the public key per amount. *)
Record Keyset := mkKeyset { ks_id : string; ks_keys : list (number * jsval) }.

Record Dleq := mkDleq { dleq_s : list Z; dleq_e : list Z; dleq_r : string (* hex of the bigint *) }.

Class CashuLib := {
  P2PKOptions : Type;
  Point : Type;
  BlindSig : Type;
  toOptions : list builder_call -> res P2PKOptions;
  getDecodedToken : string -> option (list string) -> res DecodedToken;
  getEncodedToken : string -> list CashuProof -> string;
  verifyHTLCHash : string -> string -> res bool;
  isHTLCSpendAuthorised : CashuProof -> res bool;
  signP2PKProofs : list CashuProof -> string -> res (list CashuProof);
  pointFromHex : string -> res Point;
  verifyDLEQProof_reblind : list Z -> Dleq -> Point -> Point -> res bool;
}.

Section cashu.
Context `{L : CashuLib}.

(** A blinded output registered before the swap: the blinded message and the
    unblinding of the mint's signature on it. *)
Record OutputData := mkOutputData {
  od_B : string;
  od_toProof : BlindSig -> Keyset -> res CashuProof;
}.

(** [wallet.ops.send(amount, proofs)...run()] with the builder calls made on it. *)
Record SendRequest := mkSendRequest {
  sr_amount : number;
  sr_proofs : list CashuProof;
  sr_privkey : option string;
  sr_p2pk : option P2PKOptions;
  sr_includeFees : option bool;
  sr_custom : option (list OutputData);
}.

Record SendResult := mkSendResult { snd_send : list CashuProof; snd_keep : option (list CashuProof) }.

(** An optional method is [None] when the adapter lacks it. *)
Record Wallet := mkWallet {
  w_run : SendRequest -> res SendResult;
  w_includeFees : bool;
  w_asCustom : bool;
  w_getFeesForProofs : list CashuProof -> number;
  w_checkProofsStates : option (list CashuProof -> res (list string));
  w_getKeyset : option (option string -> res Keyset);
  w_restore : option (list string -> res (list string * list BlindSig));
  w_createRandomData : number -> Keyset -> list OutputData;
  w_keysetIds : list string;
  w_loadMint : option (res unit);
}.

(** ** [cashu-escrow-helpers.ts] *)
Definition sumProofAmounts (proofs : list CashuProof) : number :=
  fold_left (fun sum p => nadd sum (pf_amount p)) proofs (num 0).

Definition encodeProofs (mintUrl : string) (proofs : list CashuProof) : string :=
  getEncodedToken mintUrl proofs.

Definition computeNetAmount (wallet : Wallet) (proofs : list CashuProof) : option number :=
  let amountSats := nsub (sumProofAmounts proofs) (w_getFeesForProofs wallet proofs) in
  if amountSats ≤ₙ num 0 then None else Some amountSats.

(** [loadAndSend]: the mint operation raced against a timer; [timedOut] says
    which settles first. *)
Definition loadAndSend (wallet : Wallet) (amountSats : number) (proofs : list CashuProof)
    (p2pkOptions : option P2PKOptions) (privkey : option string) (timeoutMs : number)
    (timedOut : bool) : res (list CashuProof) :=
  if timedOut then
    Throw (mkExn "Error" ("Cashu mint operation timed out after " +:+
                          number_to_string timeoutMs +:+ "ms"))
  else
    _ ← opt_default (Ok tt) (w_loadMint wallet);
    r ← w_run wallet (mkSendRequest amountSats proofs (truthy privkey) p2pkOptions None None);
    Ok (snd_send r).

(** ** [cashu-htlc-options.ts] *)
Record HtlcProviderBindParams := mkHtlcBind {
  hb_hash : jsval;
  hb_providerPubkey : string;
  hb_customerRefundPubkey : jsval;
  hb_locktimeSeconds : number;
}.

Definition htlc_final_calls (p : HtlcProviderBindParams) : list builder_call :=
  [addHashlock (hb_hash p); addLockPubkey [hb_providerPubkey p]; requireLockSignatures 1;
   lockUntil (hb_locktimeSeconds p); addRefundPubkey (hb_customerRefundPubkey p);
   requireRefundSignatures 1; sigAll].
Definition buildHtlcFinalOptions (p : HtlcProviderBindParams) : res P2PKOptions :=
  toOptions (htlc_final_calls p).

Definition buildHtlcPreselectionOptions (customerPubkey : string) : res P2PKOptions :=
  toOptions [addLockPubkey [customerPubkey]; requireLockSignatures 1; sigAll].

(** Plain proofs in local-hold mode: no options at all. *)
Definition buildHtlcInitialOptions (hash customerPubkey : string) (locktimeSeconds : number)
    : option P2PKOptions := None.
End cashu.

(** ** Secrets

    [JSON.parse(proof.secret)], with its failure as a value. *)
Definition parse_secret `{J : JSON} (p : CashuProof) : option jsval := JSON_parse (pf_secret p).

(** [Array.isArray(secret) && secret[0] === kind]: the body [secret[1]]. *)
Definition secret_body (kind : string) (secret : jsval) : option jsval :=
  match isArray secret with
  | Some l => if eq_str (index 0 l) kind then Some (index 1 l) else None
  | None => None
  end.

(** [v?.k]: property read through an optional chain, on the values JSON has. *)
Definition opt_prop (k : string) (v : jsval) : jsval := prop k v.

(** ** Sums of integral amounts *)
Lemma sum_foldl_num (l : list CashuProof) (a : Z) (zs : list Z) :
  pf_amount <$> l = num <$> zs ->
  fold_left (fun sum p => nadd sum (pf_amount p)) l (num a) = num (a + foldr Z.add 0 zs)%Z.
Proof.
  revert a zs. induction l as [|p l IH]; intros a [|z zs] H; try done; simpl; [by rewrite Z.add_0_r|].
  rewrite !fmap_cons in H. injection H as Hz Hzs. rewrite Hz.
  change (fold_left (fun sum p => nadd sum (pf_amount p)) l (num (a + z)) = num (a + (z + foldr Z.add 0 zs)))%Z.
  rewrite (IH _ zs) by done. f_equal. lia.
Qed.

Lemma sumProofAmounts_num (l : list CashuProof) (zs : list Z) :
  pf_amount <$> l = num <$> zs -> sumProofAmounts l = num (foldr Z.add 0 zs)%Z.
Proof. intros H. unfold sumProofAmounts. by rewrite (sum_foldl_num l 0 zs). Qed.

(** ** A concrete library and wallet, for examples *)
Definition sample_cashu (decoded : DecodedToken) : CashuLib := {|
  P2PKOptions := list builder_call;
  Point := string;
  BlindSig := string;
  toOptions := Ok;
  getDecodedToken := fun _ _ => Ok decoded;
  getEncodedToken := fun mint _ => "cashuB:" +:+ mint;
  verifyHTLCHash := fun preimage hash => Ok (hash === preimage +:+ preimage);
  isHTLCSpendAuthorised := fun _ => Ok true;
  signP2PKProofs := fun ps _ => Ok ps;
  pointFromHex := Ok;
  verifyDLEQProof_reblind := fun _ _ _ _ => Ok true;
|}.

Definition sample_proof (secret : string) (amount : Z) : CashuProof :=
  mkProof "ks1" (num amount) secret "C1" (VObj [("s", VStr "00"); ("e", VStr "01")]) VUndef.

(** A mint that answers with [answer], and reports [states] when asked. *)
Definition sample_wallet {L : CashuLib} (answer : res SendResult) (states : res (list string)) : Wallet :=
  mkWallet (fun _ => answer) true true (fun _ => num 0) (Some (fun _ => states))
    (Some (fun _ => Ok (mkKeyset "ks1" [(num 8, VStr "K8")])))
    (Some (fun outputs => Ok (outputs, [])))
    (fun _ _ => []) ["ks1"] None.
