(* ===== verification/RedeemSwap.v ===== *)
(** * Interruptible redemption

    [packages/sdk/src/payments/cashu/redeem-swap.ts]: swapping signed proofs at
    the mint with pre-registered outputs, and the recovery when the mint's
    answer is lost; with the error mapping of [adapters/cashu.ts]
    ([mapRedeemFailure]) and the redemption entry of
    [payments/cashu/cashu-escrow.ts] ([redeemHtlcToken]). *)

From S2P Require Import Prelude JsNum JsMap JsString JsValue CashuTypes.

Inductive RedeemSwapFailureReason :=
| fee_exceeds_amount | mint_error | state_unknown | inputs_unspent
| outputs_not_registered | restore_failed | restore_empty.

Global Instance RedeemSwapFailureReason_eq_dec : EqDecision RedeemSwapFailureReason.
Proof. solve_decision. Defined.

Record RedeemFailure := mkRedeemFailure {
  rf_reason : RedeemSwapFailureReason;
  rf_retrySafe : bool;
  rf_uncertain : bool;
  rf_fee : option number;
  rf_totalAmount : option number;
  rf_cause : option exn;
}.

Inductive RedeemSwapResult :=
| RedeemOk (proofs : list CashuProof) (amountSats : number) (recovered : bool)
| RedeemFail (f : RedeemFailure).

(** [CheckStateEnum] of cashu-ts (NUT-07). *)
Definition SPENT := "SPENT".
Definition UNSPENT := "UNSPENT".
Definition PENDING := "PENDING".

Section redeem.
Context `{L : CashuLib}.

(** The loop that unblinds what the mint restored: outputs that were not
    registered, or that carry no signature, are skipped. *)
Fixpoint recover_outputs (byBlindedMessage : jsmap string OutputData) (keyset : Keyset)
    (outputs : list string) (signatures : list BlindSig) : res (list CashuProof) :=
  match outputs, signatures with
  | B :: outputs', sig :: signatures' =>
      match jm_get B byBlindedMessage with
      | None => recover_outputs byBlindedMessage keyset outputs' signatures'
      | Some data =>
          p ← od_toProof data sig keyset;
          ps ← recover_outputs byBlindedMessage keyset outputs' signatures';
          Ok (p :: ps)
      end
  | _, _ => Ok []
  end.

Definition register_outputs (outputData : list OutputData) : jsmap string OutputData :=
  fold_left (fun m o => jm_set (od_B o) o m) outputData [].

Definition recoverInterruptedRedeem (wallet : Wallet) (inputs : list CashuProof)
    (outputData : option (list OutputData)) (keyset : option Keyset) (cause : exn)
    : res RedeemSwapResult :=
  match w_checkProofsStates wallet with
  | None => Ok (RedeemFail (mkRedeemFailure mint_error false false None None (Some cause)))
  | Some checkProofsStates =>
  match checkProofsStates inputs with
  | Throw stateErr =>
      Ok (RedeemFail (mkRedeemFailure state_unknown false true None None (Some stateErr)))
  | Ok states =>
  if negb (existsb (fun s => s === SPENT) states) then
    Ok (RedeemFail (mkRedeemFailure inputs_unspent true false None None (Some cause)))
  else
  match outputData, keyset, w_restore wallet with
  | Some outputData, Some keyset, Some restore =>
      match restore (od_B <$> outputData) with
      | Throw restoreErr =>
          Ok (RedeemFail (mkRedeemFailure restore_failed false true None None (Some restoreErr)))
      | Ok (outputs, signatures) =>
          recovered ← recover_outputs (register_outputs outputData) keyset outputs signatures;
          match recovered with
          | [] => Ok (RedeemFail (mkRedeemFailure restore_empty false true None None (Some cause)))
          | _ => Ok (RedeemOk recovered (sumProofAmounts recovered) true)
          end
      end
  | _, _, _ =>
      Ok (RedeemFail (mkRedeemFailure outputs_not_registered false true None None (Some cause)))
  end end end.

Definition redeemSignedProofs (wallet : Wallet) (signedProofs : list CashuProof)
    (signingPrivateKey : option string) : res RedeemSwapResult :=
  let totalAmount := sumProofAmounts signedProofs in
  let fee := w_getFeesForProofs wallet signedProofs in
  let swapAmount := nsub totalAmount fee in
  if swapAmount ≤ₙ num 0 then
    Ok (RedeemFail (mkRedeemFailure fee_exceeds_amount false false (Some fee) (Some totalAmount) None))
  else
    keyset ← match w_getKeyset wallet with
             | Some getKeyset => k ← getKeyset None; Ok (Some k)
             | None => Ok None
             end;
    let outputData :=
      match keyset with
      | Some k => if w_asCustom wallet then Some (w_createRandomData wallet swapAmount k) else None
      | None => None
      end in
    match w_run wallet (mkSendRequest swapAmount signedProofs signingPrivateKey None None outputData) with
    | Ok result =>
        Ok (RedeemOk (snd_send result) (sumProofAmounts (snd_send result)) false)
    | Throw err => recoverInterruptedRedeem wallet signedProofs outputData keyset err
    end.

(** ** Error mapping of the client: the class of the thrown error *)
Definition CashuMintError := "CashuMintError".
Definition CashuMintUncertainError := "CashuMintUncertainError".
Definition CashuClientError := "CashuClientError".

Definition mapRedeemFailure (f : RedeemFailure) : exn :=
  match rf_reason f with
  | fee_exceeds_amount =>
      mkExn CashuMintError ("redeemHtlc: mint fee " +:+
        opt_default "undefined" (number_to_string <$> rf_fee f) +:+ " exceeds available " +:+
        opt_default "undefined" (number_to_string <$> rf_totalAmount f) +:+ " sats")
  | mint_error => mkExn CashuMintError "redeemHtlc: mint swap failed"
  | state_unknown => mkExn CashuMintUncertainError
      "redeemHtlc: mint swap failed and the input state could not be checked — keep the token and retry once the mint is reachable"
  | inputs_unspent => mkExn CashuMintError
      "redeemHtlc: mint swap failed; inputs are unspent — safe to retry with the same token"
  | outputs_not_registered => mkExn CashuMintUncertainError
      "redeemHtlc: inputs are spent at the mint but no recoverable outputs were registered — check the mint before retrying"
  | restore_failed => mkExn CashuMintUncertainError
      "redeemHtlc: inputs are spent and NUT-09 restore failed — outputs remain recoverable; check the mint"
  | restore_empty => mkExn CashuMintUncertainError
      "redeemHtlc: inputs are spent but the mint returned no signatures for the registered outputs — check the mint"
  end.

(** ** [redeemHtlcToken] and [redeemFrostP2PKToken] after signing *)
Definition settle_redeem (throwUncertain : RedeemFailure -> bool) (message : string)
    (mintUrl : string) (r : RedeemSwapResult)
    : res (option (string * list CashuProof * number)) :=
  match r with
  | RedeemOk proofs amount _ => Ok (Some (encodeProofs mintUrl proofs, proofs, amount))
  | RedeemFail f => if throwUncertain f then Throw (mkExn "Error" message) else Ok None
  end.

Definition set_htlc_witness `{J : JSON} (preimage : string) (p : CashuProof) : CashuProof :=
  p <| pf_witness := VStr (JSON_stringify (VObj [("preimage", VStr preimage); ("signatures", VArr [])])) |>.

Definition prepareHtlcWitness `{J : JSON} (proofs : list CashuProof) (preimage key : string)
    : res (list CashuProof) := signP2PKProofs (set_htlc_witness preimage <$> proofs) key.

(** [None]: every proof is authorised. *)
Fixpoint verifyHtlcSpendAuth (signedProofs : list CashuProof) : res (option string) :=
  match signedProofs with
  | [] => Ok None
  | p :: ps =>
      ok ← isHTLCSpendAuthorised p;
      if negb ok then Ok (Some "HTLC spending condition not met") else verifyHtlcSpendAuth ps
  end.

(** [ctx]: the configured wallet and mint URL, [None] when no mint is configured. *)
Definition redeemHtlcToken `{J : JSON} (ctx : option (Wallet * string)) (htlcProofs : list CashuProof)
    (preimage providerPrivateKey : string) : res (option (string * list CashuProof * number)) :=
  match ctx with
  | None => Ok None
  | Some (wallet, mintUrl) =>
  match prepareHtlcWitness htlcProofs preimage providerPrivateKey with
  | Throw _ => Ok None
  | Ok signedProofs =>
      verifyError ← verifyHtlcSpendAuth signedProofs;
      match verifyError with
      | Some _ => Ok None
      | None =>
          redeem ← redeemSignedProofs wallet signedProofs (Some providerPrivateKey);
          settle_redeem
            (fun f => (rf_reason f !== fee_exceeds_amount) && (rf_reason f !== inputs_unspent) &&
                      rf_uncertain f)
            "redeemHtlcToken: mint swap failed with inputs spent or unknowable — check the mint before retrying; do not treat the token as burned"
            mintUrl redeem
      end
  end end.

(** * Proofs *)

(** What the mint told the wallet when a failure is classified. *)
Definition classified (wallet : Wallet) (inputs : list CashuProof) (f : RedeemFailure) : Prop :=
  match rf_reason f with
  | fee_exceeds_amount => rf_retrySafe f = false /\ rf_uncertain f = false
  | mint_error => w_checkProofsStates wallet = None /\ rf_retrySafe f = false /\ rf_uncertain f = false
  | state_unknown => (exists c e, w_checkProofsStates wallet = Some c /\ c inputs = Throw e) /\
      rf_retrySafe f = false /\ rf_uncertain f = true
  | inputs_unspent =>
      (exists c states, w_checkProofsStates wallet = Some c /\ c inputs = Ok states /\ SPENT ∉ states) /\
      rf_retrySafe f = true /\ rf_uncertain f = false
  | outputs_not_registered | restore_failed | restore_empty =>
      (exists c states, w_checkProofsStates wallet = Some c /\ c inputs = Ok states /\ SPENT ∈ states) /\
      rf_retrySafe f = false /\ rf_uncertain f = true
  end.

Lemma existsb_spent states : existsb (fun s => s === SPENT) states = true <-> SPENT ∈ states.
Proof.
  induction states as [|s l IH]; simpl; [split; [done|by intros ?%not_elem_of_nil]|].
  rewrite orb_true_iff, bool_decide_eq_true, IH, elem_of_cons. naive_solver.
Qed.

Lemma recover_classified wallet inputs od ks cause r :
  recoverInterruptedRedeem wallet inputs od ks cause = Ok r ->
  match r with RedeemFail f => classified wallet inputs f | RedeemOk _ _ b => b = true end.
Proof.
  unfold recoverInterruptedRedeem. destruct (w_checkProofsStates wallet) as [c|] eqn:Ec.
  2:{ intros. simplify_eq. by unfold classified. }
  destruct (c inputs) as [states|e] eqn:Es.
  2:{ intros. simplify_eq. unfold classified. simpl. split; [by exists c, e|done]. }
  destruct (existsb _ states) eqn:Ex; simpl.
  2:{ intros. simplify_eq. unfold classified. simpl. split; [|done]. exists c, states.
      split_and!; [done..|]. rewrite <- existsb_spent. by rewrite Ex. }
  apply existsb_spent in Ex.
  intros H. assert (Hspent : exists c' states', w_checkProofsStates wallet = Some c' /\ c' inputs = Ok states' /\ SPENT ∈ states')
    by (exists c, states; done). rewrite Ec in Hspent.
  destruct od as [od|], ks as [ks|], (w_restore wallet) as [restore|]; simplify_eq;
    try (unfold classified; simpl; by rewrite Ec).
  destruct (restore _) as [[outputs sigs]|e]; [|simplify_eq; unfold classified; simpl; by rewrite Ec].
  apply bind_Ok in H as (ps & _ & H). destruct ps; simplify_eq; [unfold classified; simpl; by rewrite Ec|done].
Qed.

Lemma redeem_classified wallet proofs key r :
  redeemSignedProofs wallet proofs key = Ok r ->
  match r with RedeemFail f => classified wallet proofs f | RedeemOk _ _ _ => True end.
Proof.
  unfold redeemSignedProofs. destruct (_ ≤ₙ _); [intros; by simplify_eq|].
  intros (ks & _ & H)%bind_Ok. destruct (w_run _ _); [by simplify_eq|].
  apply recover_classified in H. by destruct r.
Qed.

Lemma recover_reason wallet inputs od ks cause f :
  recoverInterruptedRedeem wallet inputs od ks cause = Ok (RedeemFail f) -> rf_reason f <> fee_exceeds_amount.
Proof.
  unfold recoverInterruptedRedeem. intros H. repeat case_match; simplify_eq; try done.
  apply bind_Ok in H as (ps & _ & H). destruct ps; by simplify_eq.
Qed.

(** Recovered proofs are unblinded from outputs registered before the swap. *)
Lemma recover_outputs_registered m ks outputs sigs ps :
  recover_outputs m ks outputs sigs = Ok ps ->
  Forall (fun p => exists B data sig, jm_get B m = Some data /\ od_toProof data sig ks = Ok p) ps.
Proof.
  revert sigs ps. induction outputs as [|B outputs IH]; intros [|sig sigs] ps; simpl;
    try (intros; simplify_eq; by constructor).
  destruct (jm_get B m) as [data|] eqn:E; [|apply IH].
  intros (p & Hp & (ps' & Hps & H)%bind_Ok)%bind_Ok. simplify_eq. constructor; [|by eapply IH].
  by exists B, data, sig.
Qed.

Lemma register_outputs_in od B data :
  jm_get B (register_outputs od) = Some data -> data ∈ od /\ od_B data = B.
Proof.
  unfold register_outputs.
  assert (H : forall m, (forall B data, jm_get B m = Some data -> od_B data = B) ->
    jm_get B (fold_left (fun m o => jm_set (od_B o) o m) od m) = Some data ->
    (data ∈ od \/ jm_get B m = Some data) /\ od_B data = B).
  { induction od as [|o od IH]; intros m Hm; simpl; [by eauto|]. intros H.
    apply IH in H as [[?|Hg] ?].
    - split; [left; by right|done].
    - rewrite jm_get_set in Hg. case_bool_decide; simplify_eq; [|by auto].
      split; [left; by left|done].
    - intros B' d. rewrite jm_get_set. case_bool_decide; [by intros; simplify_eq|apply Hm]. }
  intros Hg. destruct (H [] ltac:(done) Hg) as [[?|?] ?]; done.
Qed.

(** Once an input was seen spent: uncertain, and not safe to retry. *)
Lemma spent_flags wallet proofs (rs un : bool) (reason : RedeemSwapFailureReason) :
  reason <> fee_exceeds_amount ->
  (exists c states, w_checkProofsStates wallet = Some c /\ c proofs = Ok states /\ SPENT ∈ states) /\ rs = false /\ un = true ->
  (rs = true <-> reason <> fee_exceeds_amount /\ exists check states, w_checkProofsStates wallet = Some check /\
     check proofs = Ok states /\ SPENT ∉ states) /\
  (un = true <-> reason <> fee_exceeds_amount /\ exists check, w_checkProofsStates wallet = Some check /\
     ((exists e, check proofs = Throw e) \/ exists states, check proofs = Ok states /\ SPENT ∈ states)) /\
  (CashuMintUncertainError = CashuMintUncertainError <-> un = true) /\ rs && un = false.
Proof.
  intros Hr ((c & st & Hc & Hs & Hin) & -> & ->). rewrite Hc. split_and!; try done.
  - split; [done|]. intros (_ & c' & st' & [= <-] & Hs' & Hn). congruence.
  - split; [|done]. intros _. split; [done|]. exists c. split; [done|]. right. by exists st.
Qed.

(** * Properties *)


(** Recovery: proofs returned after an interrupted swap are unblinded from
    outputs the client registered for this very swap, and the reported amount
    is their sum. *)
Theorem recovered_proofs_registered wallet inputs od ks cause proofs amount b :
  recoverInterruptedRedeem wallet inputs (Some od) (Some ks) cause = Ok (RedeemOk proofs amount b) ->
  proofs <> [] /\ amount = sumProofAmounts proofs /\
  Forall (fun p => exists data sig, data ∈ od /\ od_toProof data sig ks = Ok p) proofs.
Proof.
  unfold recoverInterruptedRedeem. intros H. repeat case_match; simplify_eq.
  apply bind_Ok in H as (ps & Hps & H). destruct ps as [|p ps]; simplify_eq.
  split_and!; [done..|]. apply recover_outputs_registered in Hps. eapply Forall_impl; [exact Hps|].
  intros x (B & data & sig & Hg & Hp). apply register_outputs_in in Hg as [? _]. by exists data, sig.
Qed.
End redeem.

(** * Witnesses *)
Section witnesses.
Local Instance redeem_lib : CashuLib := sample_cashu (mkDecoded "https://mint" [sample_proof "s" 8]).

Definition lost_answer : res SendResult := Throw (mkExn "Error" "timeout").
Definition unspent_failure : RedeemFailure :=
  mkRedeemFailure inputs_unspent true false None None (Some (mkExn "Error" "timeout")).


Definition registered_output : OutputData := mkOutputData "B1" (fun sig _ => Ok (sample_proof sig 8)).
Definition restoring_wallet : Wallet :=
  mkWallet (fun _ => lost_answer) true true (fun _ => num 0) (Some (fun _ => Ok [SPENT])) None
    (Some (fun outputs => Ok ("other" :: outputs, ["sig0"; "sig1"]))) (fun _ _ => []) ["ks1"] None.

Lemma recovered_proofs_registered_witness :
  Forall (fun p => exists data sig, data ∈ [registered_output] /\
            od_toProof data sig (mkKeyset "ks1" []) = Ok p) [sample_proof "sig1" 8].
Proof.
  apply (recovered_proofs_registered restoring_wallet [sample_proof "s" 8] [registered_output]
           (mkKeyset "ks1" []) (mkExn "Error" "timeout") [sample_proof "sig1" 8] (num 8) true).
  reflexivity.
Defined.

(** An input the mint reports pending is classified as unspent and retryable. *)
Example pending_input_retryable :
  redeemSignedProofs (sample_wallet lost_answer (Ok [PENDING])) [sample_proof "s" 8] None =
  Ok (RedeemFail unspent_failure).
Proof. reflexivity. Qed.
End witnesses.
