(* ===== verification/CashuClient.v ===== *)
(** * The Cashu HTLC client

    [packages/sdk/src/adapters/cashu.ts]: the checks a Provider makes on a
    Provider-bound payment lock before it works, the binding of funding proofs
    to the selected Provider, and the redemption with the Oracle's preimage. *)

From S2P Require Import Prelude JsNum JsMap JsString JsValue CashuTypes RedeemSwap.
From S2P Require Import PreimageStore QueryDomain.

Definition client_error {A} (message : string) : res A := Throw (mkExn CashuClientError message).
Definition client_guard (b : bool) (message : string) : res unit := throw_if b CashuClientError message.

Definition MIN_PROVIDER_PAYMENT_LOCK_REMAINING_SECONDS : number := num 600.

(** ** Validators *)
Definition validateHashHex (hash : string) : res string :=
  if negb (is_hex64 hash) then
    client_error ("Invalid hash hex (expected 64-char hex): " +:+ hash)
  else Ok (toLowerCase hash).

Definition validateLocktime (locktimeSeconds nowSeconds : number) : res number :=
  if negb (isInteger locktimeSeconds) then
    client_error ("Locktime must be an integer: " +:+ number_to_string locktimeSeconds)
  else if locktimeSeconds ≤ₙ nowSeconds then
    client_error ("Locktime must be in the future (got " +:+ number_to_string locktimeSeconds +:+
                  ", now " +:+ number_to_string nowSeconds +:+ ")")
  else Ok locktimeSeconds.

Definition sumAmounts (proofs : list CashuProof) : number :=
  fold_left (fun acc p => nadd acc (pf_amount p)) proofs (num 0).

Definition bytesToHexLocal (bytes : list Z) : string := js_join "" (byte_hex <$> bytes).

Definition hexToBytesLocal (hex : string) : res (list Z) :=
  if negb (forallb is_hex_char (chars hex)) || negb (Nat.even (String.length hex)) then
    client_error ("Invalid hex string: " +:+ hex)
  else Ok (hex_pairs (chars hex)).

Definition p2pkVariants (pubkey : string) : list string :=
  if startsWith "02" pubkey || startsWith "03" pubkey then [pubkey] else [pubkey; "02" +:+ pubkey].

(** The first tag of that name whose entries are all strings. *)
Fixpoint find_tag (tags : list jsval) (name : string) : option (list string) :=
  match tags with
  | [] => None
  | tag :: tags' =>
      match as_string_array tag with
      | Some ((n :: _) as l) => if n === name then Some l else find_tag tags' name
      | _ => find_tag tags' name
      end
  end.
Definition findSecretTag (tags : jsval) (name : string) : option (list string) :=
  match isArray tags with Some l => find_tag l name | None => None end.

Definition requireTagValue (tags : jsval) (name value message : string) : res unit :=
  client_guard match findSecretTag tags name with
               | Some tag => bool_decide (tag !! 1 <> Some value)
               | None => true
               end message.

Definition rejectUnsupportedExtraSignatures (tags : jsval) : res unit :=
  client_guard match findSecretTag tags "n_sigs" with
               | Some tag => bool_decide (tag !! 1 <> Some "1")
               | None => false
               end "verifyProviderPaymentLock: token requires unsupported extra signatures".

Definition rejectUnsupportedRefundSignatures (tags : jsval) : res unit :=
  client_guard match findSecretTag tags "n_sigs_refund" with
               | Some tag => bool_decide (tag !! 1 <> Some "1")
               | None => false
               end "verifyProviderPaymentLock: token refund path requires unsupported extra signatures".

Definition requireSingleKeyTag (tags : jsval) (name : string) (acceptedKeys : list string)
    (message : string) : res unit :=
  client_guard match findSecretTag tags name with
               | Some [_; key] => bool_decide (key ∉ acceptedKeys)
               | _ => true
               end message.

Definition validateMinimumProviderLocktime (locktimeSeconds nowSeconds : number) : res unit :=
  _ ← validateLocktime locktimeSeconds nowSeconds;
  let remainingSeconds := nsub locktimeSeconds nowSeconds in
  client_guard (remainingSeconds <ₙ MIN_PROVIDER_PAYMENT_LOCK_REMAINING_SECONDS)
    ("verifyProviderPaymentLock: token locktime has only " +:+ number_to_string remainingSeconds +:+
     "s remaining").

(** The [Set] of secrets seen so far. *)
Fixpoint reject_duplicates (seenSecrets : list string) (proofs : list CashuProof) : res unit :=
  match proofs with
  | [] => Ok tt
  | p :: ps =>
      if bool_decide (pf_secret p ∈ seenSecrets) then
        client_error "verifyProviderPaymentLock: token contains duplicate proofs"
      else reject_duplicates (pf_secret p :: seenSecrets) ps
  end.
Definition rejectDuplicateProofs (proofs : list CashuProof) : res unit := reject_duplicates [] proofs.

Record VerifyProviderPaymentLockParams := mkLockParams {
  vl_token : string;
  vl_amountSats : number;
  vl_hashHex : string;
  vl_providerPubkey : string;
  vl_customerPubkey : string;
  vl_locktimeSeconds : number;
}.

Record VerifyProviderPaymentLockResult := mkLockResult {
  lr_proofs : list CashuProof;
  lr_amountSats : number;
}.

Section client.
Context `{L : CashuLib} `{J : JSON}.

(** The body of the loop over proofs. *)
Definition validate_lock_proof (params : VerifyProviderPaymentLockParams) (expectedHash : string)
    (i : nat) (proof : CashuProof) : res unit :=
  match parse_secret proof with
  | None => client_error ("verifyProviderPaymentLock: proof " +:+ pretty i +:+ " has malformed secret")
  | Some secret =>
  match secret_body "HTLC" secret with
  | None => client_error ("verifyProviderPaymentLock: proof " +:+ pretty i +:+ " is not an HTLC proof")
  | Some body =>
      _ ← client_guard (negb (eq_str (opt_prop "data" body) expectedHash))
            "verifyProviderPaymentLock: HTLC hash mismatch";
      let tags := prop "tags" body in
      _ ← requireSingleKeyTag tags "pubkeys" (p2pkVariants (vl_providerPubkey params))
            "verifyProviderPaymentLock: token is not locked only to the selected provider";
      _ ← requireSingleKeyTag tags "refund" (p2pkVariants (vl_customerPubkey params))
            "verifyProviderPaymentLock: token refund key does not match customer";
      _ ← requireTagValue tags "locktime" (number_to_string (vl_locktimeSeconds params))
            "verifyProviderPaymentLock: token locktime mismatch";
      _ ← requireTagValue tags "sigflag" "SIG_ALL"
            "verifyProviderPaymentLock: token must require SIG_ALL";
      _ ← rejectUnsupportedExtraSignatures tags;
      rejectUnsupportedRefundSignatures tags
  end end.

Definition validateProviderPaymentLockProofs (proofs : list CashuProof)
    (params : VerifyProviderPaymentLockParams) (providerRedeemFeeSats nowSeconds : number)
    : res number :=
  _ ← client_guard (bool_decide (proofs = [])) "verifyProviderPaymentLock: token has no proofs";
  expectedHash ← validateHashHex (vl_hashHex params);
  _ ← validateMinimumProviderLocktime (vl_locktimeSeconds params) nowSeconds;
  _ ← rejectDuplicateProofs proofs;
  let faceAmountSats := sumAmounts proofs in
  let redeemableAmountSats := nsub faceAmountSats providerRedeemFeeSats in
  _ ← client_guard (negb (redeemableAmountSats =ₙ vl_amountSats params))
        ("verifyProviderPaymentLock: token redeemable amount " +:+
         number_to_string redeemableAmountSats +:+ " does not match " +:+
         number_to_string (vl_amountSats params));
  _ ← for_each (validate_lock_proof params expectedHash) 0 proofs;
  Ok redeemableAmountSats.

Definition requireProofsUnspent (wallet : Wallet) (proofs : list CashuProof) : res unit :=
  match w_checkProofsStates wallet with
  | None => client_error "verifyProviderPaymentLock: proof state check unavailable"
  | Some checkProofsStates =>
  match checkProofsStates proofs with
  | Throw _ => Throw (mkExn CashuMintError "verifyProviderPaymentLock: proof state check failed")
  | Ok states =>
      _ ← throw_if (negb (Nat.eqb (length states) (length proofs))) CashuMintError
            "verifyProviderPaymentLock: proof state check returned an unexpected count";
      match List.find (fun s => s !== UNSPENT) states with
      | Some s => client_error ("verifyProviderPaymentLock: proof state is " +:+ s)
      | None => Ok tt
      end
  end end.

Definition refreshMintKeysets (wallet : Wallet) : res unit :=
  match w_loadMint wallet with
  | None => Ok tt
  | Some (Ok _) => Ok tt
  | Some (Throw _) =>
      Throw (mkExn CashuMintError "verifyProviderPaymentLock: mint keyset refresh failed")
  end.

(** [BigInt(`0x${r}`)]: hex digits, trailing white space allowed. *)
Definition bigint_hex (r : string) : res string :=
  let digits := reverse (drop_space (reverse (chars r))) in
  match digits with
  | [] => Throw (mkExn "SyntaxError" "Cannot convert to a BigInt")
  | _ => if forallb is_hex_char digits then Ok (of_chars digits)
         else Throw (mkExn "SyntaxError" "Cannot convert to a BigInt")
  end.

Definition decodeProofDleq (proof : CashuProof) : res Dleq :=
  let dleq := pf_dleq proof in
  if negb (isRecord dleq) then
    client_error "verifyProviderPaymentLock: proof is missing DLEQ proof"
  else
    match prop "s" dleq, prop "e" dleq with
    | VStr s, VStr e =>
        s ← hexToBytesLocal s;
        e ← hexToBytesLocal e;
        r ← bigint_hex match prop "r" dleq with
                       | VStr r => if str_truthy r then r else "00"
                       | _ => "00"
                       end;
        Ok (mkDleq s e r)
    | _, _ => client_error "verifyProviderPaymentLock: proof has malformed DLEQ proof"
    end.

(** [keyset.keys[amount]] *)
Definition keyset_key (keyset : Keyset) (amount : number) : jsval :=
  match List.find (fun kv => kv.1 =ₙ amount) (ks_keys keyset) with
  | Some kv => kv.2
  | None => VUndef
  end.

(** The guarded signature check: [try { ... } catch], a client error rethrown. *)
Definition check_signature (proof : CashuProof) (amountPublicKey : string) : res unit :=
  match (dleq ← decodeProofDleq proof;
         C ← pointFromHex (pf_C proof);
         K ← pointFromHex amountPublicKey;
         isValid ← verifyDLEQProof_reblind (utf8 (pf_secret proof)) dleq C K;
         client_guard (negb isValid) "verifyProviderPaymentLock: proof signature is invalid") with
  | Ok u => Ok u
  | Throw e =>
      if exn_class e === CashuClientError then Throw e
      else client_error "verifyProviderPaymentLock: proof signature verification failed"
  end.

Definition requireMintSignatureProofs (wallet : Wallet) (proofs : list CashuProof) : res unit :=
  match w_getKeyset wallet with
  | None => client_error "verifyProviderPaymentLock: mint keyset lookup unavailable"
  | Some getKeyset =>
      for_each (fun _ proof =>
        keyset ← getKeyset (Some (pf_id proof));
        match keyset_key keyset (pf_amount proof) with
        | VStr amountPublicKey => check_signature proof amountPublicKey
        | _ => client_error "verifyProviderPaymentLock: mint key for proof amount unavailable"
        end) 0 proofs
  end.

(** ** Client methods; [getWallet] is the (lazily built) wallet *)
Definition verifyProviderPaymentLock (getWallet : res Wallet) (mintUrl : string)
    (params : VerifyProviderPaymentLockParams) (nowSeconds : number)
    : res VerifyProviderPaymentLockResult :=
  wallet ← getWallet;
  _ ← refreshMintKeysets wallet;
  decoded ← getDecodedToken (vl_token params) (Some (w_keysetIds wallet));
  _ ← client_guard (tok_mint decoded !== mintUrl)
        "verifyProviderPaymentLock: token mint does not match client mint";
  amountSats ← validateProviderPaymentLockProofs (tok_proofs decoded) params
                 (w_getFeesForProofs wallet (tok_proofs decoded)) nowSeconds;
  _ ← requireMintSignatureProofs wallet (tok_proofs decoded);
  _ ← requireProofsUnspent wallet (tok_proofs decoded);
  Ok (mkLockResult (tok_proofs decoded) amountSats).

(** *** Binding *)
Record BindProviderParams := mkBindParams {
  bp_amountSats : number;
  bp_fundingProofs : list jsval;
  bp_providerPubkey : string;
  bp_hashHex : string;
  bp_locktimeSeconds : number;
  bp_customerPubkey : string;
  bp_customerSecretKey : list Z;
}.

Record CashuToken := mkCashuToken {
  ct_token : string;
  ct_amountSats : number;
  ct_proofs : list CashuProof;
  ct_changeProofs : list CashuProof;
}.

Definition isValidProofShape (p : jsval) : bool :=
  isRecord p && is_str (prop "id" p) &&
  match prop "amount" p with VNum a => isFinite a && (a >ₙ num 0) | _ => false end &&
  is_str (prop "secret" p) && is_str (prop "C" p).

(** The fields of a value that passed the shape check. *)
Definition as_proof (p : jsval) : CashuProof :=
  mkProof (opt_default "" (as_string (prop "id" p))) (opt_default NaN (as_number (prop "amount" p)))
    (opt_default "" (as_string (prop "secret" p))) (opt_default "" (as_string (prop "C" p)))
    (prop "dleq" p) (prop "witness" p).

Definition buildHtlcP2PKOptions (p : BindProviderParams) : res P2PKOptions :=
  buildHtlcFinalOptions (mkHtlcBind (VStr (bp_hashHex p)) (bp_providerPubkey p)
                           (VStr (bp_customerPubkey p)) (bp_locktimeSeconds p)).

Definition bindProvider (getWallet : res Wallet) (mintUrl : string) (p : BindProviderParams)
    (nowSeconds : number) : res CashuToken :=
  _ ← validateHashHex (bp_hashHex p);
  _ ← validateLocktime (bp_locktimeSeconds p) nowSeconds;
  _ ← client_guard (negb (isFinite (bp_amountSats p)) || negb (isInteger (bp_amountSats p)) ||
                    (bp_amountSats p ≤ₙ num 0)) "amountSats must be a positive integer";
  _ ← client_guard (negb (Nat.eqb (length (bp_customerSecretKey p)) 32))
        "customerSecretKey must be a 32-byte Uint8Array";
  _ ← client_guard (match bp_fundingProofs p with [] => true | _ => false end)
        "fundingProofs must be a non-empty array";
  _ ← for_each (fun _ v => client_guard (negb (isValidProofShape v))
                             "fundingProofs contains a malformed proof") 0 (bp_fundingProofs p);
  wallet ← getWallet;
  let inputProofs := as_proof <$> bp_fundingProofs p in
  let totalAmount := sumAmounts inputProofs in
  _ ← client_guard (totalAmount ≤ₙ num 0) "fundingProofs contains no spendable proofs";
  let fee := w_getFeesForProofs wallet inputProofs in
  let requiredAmount := nadd (bp_amountSats p) fee in
  _ ← throw_if (totalAmount <ₙ requiredAmount) CashuMintError
        ("bindProvider: mint fee " +:+ number_to_string fee +:+ " leaves " +:+
         number_to_string (nsub totalAmount fee) +:+ " sats for " +:+
         number_to_string (bp_amountSats p) +:+ " sat lock");
  phase2 ← buildHtlcP2PKOptions p;
  let customerPrivkeyHex := bytesToHexLocal (bp_customerSecretKey p) in
  let request includeFees :=
    mkSendRequest (bp_amountSats p) inputProofs (Some customerPrivkeyHex) (Some phase2) includeFees None in
  match (if w_includeFees wallet then w_run wallet (request (Some true))
         else if fee >ₙ num 0 then
           client_error "bindProvider: wallet send builder cannot include receiver fees"
         else w_run wallet (request None)) with
  | Throw _ => Throw (mkExn CashuMintError "bindProvider: mint swap failed")
  | Ok result =>
      let send := snd_send result in
      Ok (mkCashuToken (getEncodedToken mintUrl send)
            (nsub (sumAmounts send) (w_getFeesForProofs wallet send)) send
            (opt_default [] (snd_keep result)))
  end.

(** *** Redemption *)
Record RedeemHtlcParams := mkRedeemParams {
  rd_token : string;
  rd_preimageHex : string;
  rd_providerSecretKey : list Z;
}.

Definition check_hashlock (preimageHex : string) (i : nat) (proof : CashuProof) : res unit :=
  match parse_secret proof with
  | None => client_error ("redeemHtlc: proof " +:+ pretty i +:+ " has malformed secret")
  | Some secret =>
  match secret_body "HTLC" secret with
  | None => client_error ("redeemHtlc: proof " +:+ pretty i +:+ " is not an HTLC proof")
  | Some body =>
  match opt_prop "data" body with
  | VStr expectedHash =>
      ok ← verifyHTLCHash preimageHex expectedHash;
      client_guard (negb ok) ("redeemHtlc: preimage does not match proof " +:+ pretty i +:+ "'s hashlock")
  | _ => client_error ("redeemHtlc: proof " +:+ pretty i +:+ " has no hashlock data")
  end end end.

Definition prepareHtlcRedemption (proofs : list CashuProof) (preimageHex privkeyHex : string)
    : res (list CashuProof) := signP2PKProofs (set_htlc_witness preimageHex <$> proofs) privkeyHex.

Definition redeemHtlc (getWallet : res Wallet) (p : RedeemHtlcParams)
    : res (list CashuProof * number) :=
  wallet ← getWallet;
  decoded ← getDecodedToken (rd_token p) (Some (w_keysetIds wallet));
  let proofs := tok_proofs decoded in
  _ ← client_guard (match proofs with [] => true | _ => false end) "redeemHtlc: token has no proofs";
  _ ← for_each (check_hashlock (rd_preimageHex p)) 0 proofs;
  let privkeyHex := bytesToHexLocal (rd_providerSecretKey p) in
  signedProofs ← prepareHtlcRedemption proofs (rd_preimageHex p) privkeyHex;
  redeem ← redeemSignedProofs wallet signedProofs (Some privkeyHex);
  match redeem with
  | RedeemOk received amountSats _ => Ok (received, amountSats)
  | RedeemFail f => Throw (mapRedeemFailure f)
  end.
End client.

(** [createCashuClient]'s own check. *)
Definition createCashuClient (mintUrl : string) : res string :=
  if negb (str_truthy mintUrl) then client_error "mintUrl must be a non-empty string" else Ok mintUrl.
