(* ===== verification/CashuClientSpec.v ===== *)
(** * What the Cashu client guarantees

    The exact acceptance condition of [verifyProviderPaymentLock], the request a
    successful [bindProvider] makes at the mint, and the local hashlock check of
    [redeemHtlc] before any mint round trip. *)

From S2P Require Import Prelude JsNum JsMap JsString JsValue CashuTypes RedeemSwap CashuClient.

Section spec.
Context `{L : CashuLib} `{J : JSON}.

(** A signature-count tag is absent or asks for one signature. *)
Definition one_signature (tags : jsval) (name : string) : Prop :=
  forall tag, findSecretTag tags name = Some tag -> tag !! 1 = Some "1".

(** The tag holds exactly one key, one of the accepted spellings. *)
Definition single_key (tags : jsval) (name pubkey : string) : Prop :=
  exists key, findSecretTag tags name = Some [name; key] /\ key ∈ p2pkVariants pubkey.

(** The spending condition of one proof: hashlock, provider key alone, refund
    to the customer alone, the agreed locktime, signatures over all outputs. *)
Definition locked_exactly (params : VerifyProviderPaymentLockParams) (proof : CashuProof) : Prop :=
  exists body, (parse_secret proof ≫= secret_body "HTLC") = Some body /\
    prop "data" body = VStr (toLowerCase (vl_hashHex params)) /\
    let tags := prop "tags" body in
    single_key tags "pubkeys" (vl_providerPubkey params) /\
    single_key tags "refund" (vl_customerPubkey params) /\
    (findSecretTag tags "locktime" ≫= (fun t => t !! 1)) =
      Some (number_to_string (vl_locktimeSeconds params)) /\
    (findSecretTag tags "sigflag" ≫= (fun t => t !! 1)) = Some "SIG_ALL" /\
    one_signature tags "n_sigs" /\ one_signature tags "n_sigs_refund".

(** The mint's signature on the proof verifies against the mint's key. *)
Definition mint_signed (getKeyset : option string -> res Keyset) (p : CashuProof) : Prop :=
  exists ks key dleq C K,
    getKeyset (Some (pf_id p)) = Ok ks /\ keyset_key ks (pf_amount p) = VStr key /\
    decodeProofDleq p = Ok dleq /\ pointFromHex (pf_C p) = Ok C /\ pointFromHex key = Ok K /\
    verifyDLEQProof_reblind (utf8 (pf_secret p)) dleq C K = Ok true.

Definition lock_acceptable (wallet : Wallet) (params : VerifyProviderPaymentLockParams) (now : number)
    (proofs : list CashuProof) : Prop :=
  proofs <> [] /\ is_hex64 (vl_hashHex params) = true /\
  isInteger (vl_locktimeSeconds params) = true /\
  (vl_locktimeSeconds params ≤ₙ now) = false /\
  (nsub (vl_locktimeSeconds params) now <ₙ MIN_PROVIDER_PAYMENT_LOCK_REMAINING_SECONDS) = false /\
  NoDup (pf_secret <$> proofs) /\
  (nsub (sumAmounts proofs) (w_getFeesForProofs wallet proofs) =ₙ vl_amountSats params) = true /\
  Forall (locked_exactly params) proofs /\
  (exists getKeyset, w_getKeyset wallet = Some getKeyset /\ Forall (mint_signed getKeyset) proofs) /\
  (exists check states, w_checkProofsStates wallet = Some check /\ check proofs = Ok states /\
     length states = length proofs /\ Forall (fun s => s = UNSPENT) states).

(** * Proofs *)
Lemma client_guard_Ok b msg : client_guard b msg = Ok tt <-> b = false.
Proof. apply throw_if_Ok_tt. Qed.

Lemma find_tag_head tags name tag : find_tag tags name = Some tag -> head tag = Some name.
Proof.
  induction tags as [|t tags IH]; simpl; [done|].
  destruct (as_string_array t) as [[|n l]|]; try apply IH. case_bool_decide; [|apply IH].
  intros. by simplify_eq.
Qed.

Lemma findSecretTag_head tags name tag : findSecretTag tags name = Some tag -> head tag = Some name.
Proof. unfold findSecretTag. destruct (isArray tags); [apply find_tag_head|done]. Qed.

Lemma requireSingleKeyTag_Ok tags name pubkey msg :
  requireSingleKeyTag tags name (p2pkVariants pubkey) msg = Ok tt <-> single_key tags name pubkey.
Proof.
  unfold requireSingleKeyTag, single_key. rewrite client_guard_Ok.
  destruct (findSecretTag tags name) as [[|n [|key [|]]]|] eqn:E;
    try (split; [done|intros (k & ? & _); congruence]).
  apply findSecretTag_head in E as Hn. simpl in Hn. simplify_eq. rewrite bool_decide_eq_false. split.
  - intros H. exists key. split; [done|]. by apply dec_stable.
  - intros (k & ? & Hk) Hne. by simplify_eq.
Qed.

Lemma requireTagValue_Ok tags name value msg :
  requireTagValue tags name value msg = Ok tt <->
  (findSecretTag tags name ≫= (fun t => t !! 1)) = Some value.
Proof.
  unfold requireTagValue. rewrite client_guard_Ok. destruct (findSecretTag tags name) as [t|]; simpl; [|done].
  rewrite bool_decide_eq_false. split; [apply dec_stable|by intros ? ?].
Qed.

Lemma reject_signatures_Ok tags name msg :
  client_guard match findSecretTag tags name with
               | Some tag => bool_decide (tag !! 1 <> Some "1")
               | None => false
               end msg = Ok tt <-> one_signature tags name.
Proof.
  unfold one_signature. rewrite client_guard_Ok.
  destruct (findSecretTag tags name) as [t|]; [|split; [by intros _ ? ?|done]].
  rewrite bool_decide_eq_false. split.
  - intros H tag ?. simplify_eq. by apply dec_stable.
  - intros H Hne. by apply Hne, H.
Qed.

Lemma validate_lock_proof_Ok params i p :
  validate_lock_proof params (toLowerCase (vl_hashHex params)) i p = Ok tt <-> locked_exactly params p.
Proof.
  unfold validate_lock_proof, locked_exactly. destruct (parse_secret p) as [secret|]; simpl.
  2:{ split; [done|by intros (? & ? & _)]. }
  destruct (secret_body "HTLC" secret) as [body|]; simpl.
  2:{ split; [done|by intros (? & ? & _)]. }
  unfold rejectUnsupportedExtraSignatures, rejectUnsupportedRefundSignatures.
  rewrite !bind_unit_Ok, client_guard_Ok, !requireSingleKeyTag_Ok, !requireTagValue_Ok, !reject_signatures_Ok.
  rewrite negb_false_iff, eq_str_true. unfold opt_prop. split.
  - intros ?. exists body. naive_solver.
  - intros (b & ? & ?). simplify_eq. naive_solver.
Qed.

Lemma reject_duplicates_Ok seen proofs :
  reject_duplicates seen proofs = Ok tt <->
  NoDup (pf_secret <$> proofs) /\ (forall p, p ∈ proofs -> pf_secret p ∉ seen).
Proof.
  revert seen. induction proofs as [|p ps IH]; intros seen; cbn [reject_duplicates].
  - split; [intros _; split; [constructor|by intros p ?%not_elem_of_nil]|done].
  - rewrite fmap_cons, NoDup_cons. case_bool_decide as Hp.
    + split; [done|]. intros [_ H]. exfalso. by apply (H p); [left|].
    + rewrite IH. setoid_rewrite not_elem_of_cons. split.
      * intros [Hnd H]. split_and!; [|done|].
        -- intros (q & Hq & Hin)%list_elem_of_fmap. by destruct (H q Hin).
        -- intros q [->|Hq]%elem_of_cons; [done|]. by apply H.
      * intros [[Hni Hnd] H]. split; [done|]. intros q Hq. split; [|apply H; by right].
        intros E. apply Hni, list_elem_of_fmap. by exists q.
Qed.

Lemma validateHashHex_Ok h r : validateHashHex h = Ok r <-> is_hex64 h = true /\ r = toLowerCase h.
Proof. unfold validateHashHex. destruct (is_hex64 h); simpl; [|naive_solver]. naive_solver. Qed.

Lemma validateLocktime_Ok t now r :
  validateLocktime t now = Ok r <-> isInteger t = true /\ (t ≤ₙ now) = false /\ r = t.
Proof. unfold validateLocktime. destruct (isInteger t), (t ≤ₙ now); simpl; naive_solver. Qed.

Lemma minimumLocktime_Ok t now :
  validateMinimumProviderLocktime t now = Ok tt <->
  isInteger t = true /\ (t ≤ₙ now) = false /\
  (nsub t now <ₙ MIN_PROVIDER_PAYMENT_LOCK_REMAINING_SECONDS) = false.
Proof.
  unfold validateMinimumProviderLocktime. rewrite bind_Ok. setoid_rewrite validateLocktime_Ok.
  setoid_rewrite client_guard_Ok. naive_solver.
Qed.

Lemma requireProofsUnspent_Ok wallet proofs :
  requireProofsUnspent wallet proofs = Ok tt <->
  exists check states, w_checkProofsStates wallet = Some check /\ check proofs = Ok states /\
     length states = length proofs /\ Forall (fun s => s = UNSPENT) states.
Proof.
  unfold requireProofsUnspent. destruct (w_checkProofsStates wallet) as [c|]; [|split; [done|by intros (? & ? & ? & _)]].
  destruct (c proofs) as [states|] eqn:Es; [|split; [done|intros (? & ? & ? & ? & _); congruence]].
  rewrite bind_unit_Ok, throw_if_Ok_tt, negb_false_iff, Nat.eqb_eq.
  assert (Hfind : match List.find (fun s => s !== UNSPENT) states with
                  | Some s => client_error ("verifyProviderPaymentLock: proof state is " +:+ s)
                  | None => Ok tt end = Ok tt <-> Forall (fun s => s = UNSPENT) states).
  { clear Es. induction states as [|s l IH]; simpl; [split; [constructor|done]|].
    rewrite Forall_cons. case_bool_decide; simpl; [rewrite IH; naive_solver|].
    split; [done|naive_solver]. }
  rewrite Hfind. split; [intros ?; by exists c, states|]. intros (c' & st & Hc & Hst & Hlen & Hall).
  injection Hc as <-. rewrite Es in Hst. by injection Hst as <-.
Qed.

Lemma check_signature_Ok p key :
  check_signature p key = Ok tt <->
  exists dleq C K, decodeProofDleq p = Ok dleq /\ pointFromHex (pf_C p) = Ok C /\
    pointFromHex key = Ok K /\ verifyDLEQProof_reblind (utf8 (pf_secret p)) dleq C K = Ok true.
Proof.
  unfold check_signature. split.
  - destruct (decodeProofDleq p) as [d|]; simpl; [|by case_bool_decide].
    destruct (pointFromHex (pf_C p)) as [C|]; simpl; [|by case_bool_decide].
    destruct (pointFromHex key) as [K|]; simpl; [|by case_bool_decide].
    destruct (verifyDLEQProof_reblind _ _ _ _) as [[]|] eqn:E; simpl; [|done|by case_bool_decide].
    intros _. by exists d, C, K.
  - intros (d & C & K & -> & -> & -> & H). simpl. by rewrite H.
Qed.

Lemma requireMintSignatureProofs_Ok wallet proofs :
  requireMintSignatureProofs wallet proofs = Ok tt <->
  exists getKeyset, w_getKeyset wallet = Some getKeyset /\ Forall (mint_signed getKeyset) proofs.
Proof.
  unfold requireMintSignatureProofs. destruct (w_getKeyset wallet) as [gk|]; [|split; [done|by intros (? & ? & _)]].
  rewrite for_each_Forall.
  transitivity (Forall (mint_signed gk) proofs); [|naive_solver].
  apply Forall_iff. intros p. unfold mint_signed. rewrite bind_Ok. split.
  - intros (ks & Hks & H). destruct (keyset_key ks (pf_amount p)) eqn:Ek; try done.
    apply check_signature_Ok in H as (d & C & K & ?). by exists ks, s, d, C, K.
  - intros (ks & key & d & C & K & Hks & Hk & ?). exists ks. split; [done|]. rewrite Hk.
    apply check_signature_Ok. by exists d, C, K.
Qed.

Lemma validateProofs_Ok proofs params fee now amount :
  validateProviderPaymentLockProofs proofs params fee now = Ok amount <->
  proofs <> [] /\ is_hex64 (vl_hashHex params) = true /\
  isInteger (vl_locktimeSeconds params) = true /\ (vl_locktimeSeconds params ≤ₙ now) = false /\
  (nsub (vl_locktimeSeconds params) now <ₙ MIN_PROVIDER_PAYMENT_LOCK_REMAINING_SECONDS) = false /\
  NoDup (pf_secret <$> proofs) /\ (nsub (sumAmounts proofs) fee =ₙ vl_amountSats params) = true /\
  Forall (locked_exactly params) proofs /\ amount = nsub (sumAmounts proofs) fee.
Proof.
  unfold validateProviderPaymentLockProofs, rejectDuplicateProofs.
  rewrite bind_unit_Ok, client_guard_Ok, bool_decide_eq_false, bind_Ok.
  setoid_rewrite validateHashHex_Ok. setoid_rewrite bind_unit_Ok.
  setoid_rewrite minimumLocktime_Ok.
  assert (Hall : for_each (validate_lock_proof params (toLowerCase (vl_hashHex params))) 0 proofs = Ok tt <->
                 Forall (locked_exactly params) proofs).
  { rewrite for_each_Ok, Forall_lookup. setoid_rewrite validate_lock_proof_Ok. done. }
  split.
  - intros (Hne & h & (Hh & ->) & (? & ? & ?) & Hb). apply bind_unit_Ok in Hb as [Hd Hb].
    apply bind_unit_Ok in Hb as [Hg Hb]. apply bind_unit_Ok in Hb as [Hf Hr].
    apply reject_duplicates_Ok in Hd as [? _]. apply client_guard_Ok, negb_false_iff in Hg.
    rewrite Hall in Hf. by simplify_eq.
  - intros (Hne & Hh & ? & ? & ? & Hd & Hg & Hf & ->). split; [done|].
    eexists. split; [done|]. split; [done|]. apply bind_unit_Ok. split.
    { apply reject_duplicates_Ok. split; [done|]. by intros p _ ?%not_elem_of_nil. }
    apply bind_unit_Ok. split; [by apply client_guard_Ok, negb_false_iff|].
    apply bind_unit_Ok. by rewrite Hall.
Qed.

(** The gate, branch by branch. *)
Lemma payment_lock_gate getWallet mintUrl params now r :
  verifyProviderPaymentLock getWallet mintUrl params now = Ok r <->
  exists wallet decoded,
    getWallet = Ok wallet /\ refreshMintKeysets wallet = Ok tt /\
    getDecodedToken (vl_token params) (Some (w_keysetIds wallet)) = Ok decoded /\
    tok_mint decoded = mintUrl /\ lock_acceptable wallet params now (tok_proofs decoded) /\
    r = mkLockResult (tok_proofs decoded)
          (nsub (sumAmounts (tok_proofs decoded)) (w_getFeesForProofs wallet (tok_proofs decoded))).
Proof.
  unfold verifyProviderPaymentLock, lock_acceptable.
  setoid_rewrite <- requireMintSignatureProofs_Ok. setoid_rewrite <- requireProofsUnspent_Ok. split.
  - intros (w & Hw & H)%bind_Ok. apply bind_unit_Ok in H as [Hrefresh H].
    apply bind_Ok in H as (d & Hd & H). apply bind_unit_Ok in H as [Hm H].
    apply bind_Ok in H as (a & Ha & H). apply bind_unit_Ok in H as [Hs H].
    apply bind_unit_Ok in H as [Hu Hr].
    apply client_guard_Ok, negb_false_iff, bool_decide_eq_true in Hm.
    apply validateProofs_Ok in Ha as (? & ? & ? & ? & ? & ? & ? & ? & ->). simplify_eq.
    exists w, d. split_and!; done.
  - intros (w & d & -> & Hrefresh & Hd & <- & (? & ? & ? & ? & ? & ? & ? & ? & Hs & Hu) & ->). simpl.
    rewrite Hrefresh. simpl. rewrite Hd. simpl. rewrite bool_decide_true by done. simpl.
    rewrite (proj2 (validateProofs_Ok _ _ _ _ _)) by (split_and!; try done). simpl.
    rewrite Hs. simpl. by rewrite Hu.
Qed.

(** * Properties *)

(** C5: The gate a Provider relies on before working: [verifyProviderPaymentLock]
    succeeds exactly when every proof of the token is locked to the agreed hash,
    the provider's key alone, a refund to the customer alone and the agreed
    locktime with SIG_ALL, no proof is counted twice, the redeemable sum equals
    the agreed amount, at least ten minutes remain, each proof carries a valid
    signature of this mint, and the mint reports every proof unspent. *)
Theorem payment_lock_gate_exact getWallet mintUrl params now r :
  verifyProviderPaymentLock getWallet mintUrl params now = Ok r <->
  exists wallet decoded,
    getWallet = Ok wallet /\ refreshMintKeysets wallet = Ok tt /\
    getDecodedToken (vl_token params) (Some (w_keysetIds wallet)) = Ok decoded /\
    tok_mint decoded = mintUrl /\ lock_acceptable wallet params now (tok_proofs decoded) /\
    r = mkLockResult (tok_proofs decoded)
          (nsub (sumAmounts (tok_proofs decoded)) (w_getFeesForProofs wallet (tok_proofs decoded))).
Proof. apply payment_lock_gate. Qed.

(** A successful [bindProvider] asked the mint for exactly the agreed amount,
    from funding proofs that cover amount and fee, locked under the agreed hash
    to the provider with a refund to the customer after a future locktime. *)
Theorem bindProvider_request getWallet mintUrl p now t :
  bindProvider getWallet mintUrl p now = Ok t ->
  exists wallet opts includeFees result,
    let inputs := as_proof <$> bp_fundingProofs p in
    getWallet = Ok wallet /\
    toOptions (htlc_final_calls (mkHtlcBind (VStr (bp_hashHex p)) (bp_providerPubkey p)
                 (VStr (bp_customerPubkey p)) (bp_locktimeSeconds p))) = Ok opts /\
    w_run wallet (mkSendRequest (bp_amountSats p) inputs (Some (bytesToHexLocal (bp_customerSecretKey p)))
                    (Some opts) includeFees None) = Ok result /\
    ct_proofs t = snd_send result /\ ct_token t = getEncodedToken mintUrl (snd_send result) /\
    is_hex64 (bp_hashHex p) = true /\ isInteger (bp_amountSats p) = true /\
    (bp_amountSats p ≤ₙ num 0) = false /\ (bp_locktimeSeconds p ≤ₙ now) = false /\
    (sumAmounts inputs <ₙ nadd (bp_amountSats p) (w_getFeesForProofs wallet inputs)) = false /\
    (includeFees = Some true \/ (w_getFeesForProofs wallet inputs >ₙ num 0) = false).
Proof.
  unfold bindProvider.
  intros (h & Hh & H)%bind_Ok. apply validateHashHex_Ok in Hh as [Hh _].
  apply bind_Ok in H as (lt & Hlt & H). apply validateLocktime_Ok in Hlt as (_ & Hlt & _).
  apply bind_unit_Ok in H as [Hamt%client_guard_Ok H]. apply bind_unit_Ok in H as [_ H].
  apply bind_unit_Ok in H as [_ H]. apply bind_unit_Ok in H as [_ H].
  apply bind_Ok in H as (w & Hw & H). apply bind_unit_Ok in H as [_ H].
  apply bind_unit_Ok in H as [Hsum%throw_if_Ok_tt H]. apply bind_Ok in H as (opts & Hopts & H).
  rewrite !orb_false_iff, !negb_false_iff in Hamt. destruct Hamt as [[_ Hint] Hpos].
  destruct (w_includeFees w).
  - destruct (w_run w _) as [result|] eqn:Er; [|done]. simplify_eq.
    exists w, opts, (Some true), result. split_and!; try done. by left.
  - destruct (_ >ₙ _) eqn:Ef; [done|]. destruct (w_run w _) as [result|] eqn:Er; [|done]. simplify_eq.
    exists w, opts, None, result. split_and!; try done. by right.
Qed.

(** [redeemHtlc] never takes a preimage to the mint that does not open the
    hashlock of every proof of the token. *)
Theorem redeem_checks_hashlock getWallet p r :
  redeemHtlc getWallet p = Ok r ->
  exists wallet decoded, getWallet = Ok wallet /\
    getDecodedToken (rd_token p) (Some (w_keysetIds wallet)) = Ok decoded /\ tok_proofs decoded <> [] /\
    Forall (fun proof => exists body hash, (parse_secret proof ≫= secret_body "HTLC") = Some body /\
              prop "data" body = VStr hash /\ verifyHTLCHash (rd_preimageHex p) hash = Ok true)
      (tok_proofs decoded).
Proof.
  unfold redeemHtlc. intros (w & Hw & H)%bind_Ok. apply bind_Ok in H as (d & Hd & H).
  apply bind_unit_Ok in H as [Hne H]. apply bind_unit_Ok in H as [Hall _].
  exists w, d. split_and!; [done|done|by intros E; rewrite E in Hne|].
  rewrite for_each_Ok in Hall. apply Forall_lookup. intros i proof Hi. specialize (Hall i proof Hi).
  unfold check_hashlock in Hall. destruct (parse_secret proof) as [secret|]; [|done]. simpl.
  destruct (secret_body "HTLC" secret) as [body|]; [|done]. unfold opt_prop in Hall.
  destruct (prop "data" body) eqn:Ed; try done. apply bind_Ok in Hall as (ok & Hok & Hg%client_guard_Ok).
  apply negb_false_iff in Hg. subst. by exists body, s.
Qed.
End spec.

(** An x-only key that happens to start with 02 or 03 has no compressed variant:
    a lock to its compressed form [02 || key] is rejected, while the compressed
    form of any other x-only key is accepted. *)
Theorem xonly_prefix_loses_variant pk :
  ("02" +:+ pk) ∈ p2pkVariants pk <-> startsWith "02" pk || startsWith "03" pk = false.
Proof.
  unfold p2pkVariants. destruct (startsWith "02" pk || startsWith "03" pk).
  - rewrite list_elem_of_singleton. split; [|done]. intros H. exfalso.
    apply (f_equal String.length) in H. change (S (S (String.length pk)) = String.length pk) in H. lia.
  - rewrite !elem_of_cons. split; [done|]. intros _. right. by left.
Qed.

(** * Witnesses *)
Section witnesses.
Definition sample_hash := "aaaaaaaaaaaaaaaaaaaaaaaaaaaaaaaaaaaaaaaaaaaaaaaaaaaaaaaaaaaaaaaa".
Definition half_hash := "aaaaaaaaaaaaaaaaaaaaaaaaaaaaaaaa".

Definition tag (l : list string) : jsval := VArr (VStr <$> l).
Definition lock_secret (keys : list string) : jsval :=
  VArr [VStr "HTLC"; VObj [("nonce", VStr "n"); ("data", VStr sample_hash);
    ("tags", VArr [tag ("pubkeys" :: keys); tag ["refund"; "02cc"]; tag ["locktime"; "5000"];
                   tag ["sigflag"; "SIG_ALL"]])]].

Local Instance lock_json : JSON := {|
  JSON_parse := fun s => if s === "lock" then Some (lock_secret ["02aa"])
                         else if s === "shared" then Some (lock_secret ["02aa"; "02cc"]) else None;
  JSON_stringify := fun _ => "{}";
|}.
Local Instance lock_lib : CashuLib := sample_cashu (mkDecoded "https://mint" [sample_proof "lock" 8]).

Definition lock_wallet : Wallet := sample_wallet (Ok (mkSendResult [sample_proof "new" 8] None)) (Ok [UNSPENT]).
Definition lock_params : VerifyProviderPaymentLockParams :=
  mkLockParams "cashuB" (num 8) sample_hash "aa" "02cc" (num 5000).

(** The gate accepts an exact lock, and rejects it once too little time is left. *)
Example gate_accepts :
  verifyProviderPaymentLock (Ok lock_wallet) "https://mint" lock_params (num 4000) =
  Ok (mkLockResult [sample_proof "lock" 8] (num 8)).
Proof. reflexivity. Qed.
Example gate_rejects_short :
  is_ok (verifyProviderPaymentLock (Ok lock_wallet) "https://mint" lock_params (num 4401)) = false.
Proof. reflexivity. Qed.
Example gate_rejects_shared_key :
  is_ok (validate_lock_proof lock_params sample_hash 0 (sample_proof "shared" 8)) = false.
Proof. reflexivity. Qed.

Definition funding_proof : jsval :=
  VObj [("id", VStr "ks1"); ("amount", VNum (num 8)); ("secret", VStr "plain"); ("C", VStr "C0")].
Definition bind_params : BindProviderParams :=
  mkBindParams (num 8) [funding_proof] "02aa" sample_hash (num 5000) "02cc" (repeat 7%Z 32).

Lemma bindProvider_request_witness :
  exists wallet opts includeFees result,
    Ok lock_wallet = Ok wallet /\
    toOptions (htlc_final_calls (mkHtlcBind (VStr sample_hash) "02aa" (VStr "02cc") (num 5000))) = Ok opts /\
    w_run wallet (mkSendRequest (num 8) [as_proof funding_proof]
      (Some (bytesToHexLocal (repeat 7%Z 32))) (Some opts) includeFees None) = Ok result.
Proof.
  destruct (bindProvider_request (Ok lock_wallet) "https://mint" bind_params (num 4000)
    (mkCashuToken "cashuB:https://mint" (num 8) [sample_proof "new" 8] []))
    as (w & opts & inc & r & Hw & Ho & Hr & _); [vm_compute; reflexivity|].
  exists w, opts, inc, r. split_and!; [exact Hw|exact Ho|exact Hr].
Defined.

Lemma redeem_checks_hashlock_witness :
  exists wallet decoded, Ok lock_wallet = Ok wallet /\
    getDecodedToken "cashuB" (Some (w_keysetIds wallet)) = Ok decoded /\ tok_proofs decoded <> [].
Proof.
  destruct (redeem_checks_hashlock (Ok lock_wallet) (mkRedeemParams "cashuB" half_hash (repeat 7%Z 32))
    ([sample_proof "new" 8], num 8)) as (w & d & Hw & Hd & Hne & _); [vm_compute; reflexivity|].
  exists w, d. done.
Defined.

End witnesses.
