(* ===== verification/CashuEscrow.v ===== *)
(** * Cashu escrow tokens and escrow providers

    [packages/sdk/src/payments/cashu/]: the token operations of
    [cashu-escrow.ts], token verification of [cashu-wallet.ts], and the two
    implementations of the [EscrowProvider] port, [cashu-escrow-provider.ts]
    (HTLC) and [frost-escrow-provider.ts] (P2PK 2-of-2 with a FROST group key).
    The providers keep a map from opaque references to tokens; their methods are
    calls of the event loop over that map. *)

From S2P Require Import Prelude JsNum JsMap JsString JsFloat JsValue EventLoop CashuTypes RedeemSwap.
From S2P Require Import QueryTypes QueryDomain QueryVerification PreimageStore QueryService.

Section escrow.
Context `{L : CashuLib} `{J : JSON}.

(** [ctx]: configured wallet and mint URL; [late]: the mint answered too late. *)
Notation Ctx := (option (Wallet * string)) (only parsing).

Record EscrowToken := mkEscrowToken {
  et_token : string;
  et_proofs : list CashuProof;
  et_p2pkOptions : option P2PKOptions;
  et_amountSats : number;
}.

Record EscrowParams := mkEscrowParams {
  esp_oraclePubkey : string;
  esp_providerPubkey : string;
  esp_customerRefundPubkey : string;
  esp_locktimeSeconds : number;
}.

Definition DEFAULT_MINT_TIMEOUT : number := num 30000.

(** ** [cashu-escrow.ts] *)
Definition escrow_calls (p : EscrowParams) : list builder_call :=
  [addLockPubkey [esp_oraclePubkey p; esp_providerPubkey p]; requireLockSignatures 2;
   lockUntil (esp_locktimeSeconds p); addRefundPubkey (VStr (esp_customerRefundPubkey p));
   requireRefundSignatures 1; sigAll].
Definition buildEscrowP2PKOptions (p : EscrowParams) : res P2PKOptions := toOptions (escrow_calls p).

(** [try { ... } catch { log; return null }] *)
Definition or_null {A} (r : res A) : option A := res_option r.

Definition send_default (wallet : Wallet) (amount : number) (proofs : list CashuProof)
    (opts : option P2PKOptions) (late : bool) : res (list CashuProof) :=
  loadAndSend wallet amount proofs opts None DEFAULT_MINT_TIMEOUT late.

Definition createEscrowToken (ctx : Ctx) (amountSats : number) (params : EscrowParams)
    (sourceProofs : list CashuProof) (late : bool) : res (option EscrowToken) :=
  match ctx with
  | None => Ok None
  | Some (wallet, mintUrl) =>
      p2pkOptions ← buildEscrowP2PKOptions params;
      Ok (or_null (send ← send_default wallet amountSats sourceProofs (Some p2pkOptions) late;
                   Ok (mkEscrowToken (encodeProofs mintUrl send) send (Some p2pkOptions) amountSats)))
  end.

Record SwapResult := mkSwapResult {
  sw_providerToken : string;
  sw_oracleToken : string;
  sw_providerAmountSats : number;
  sw_oracleFeeSats : number;
}.

(** The input proofs that are not among the provider's new proofs. *)
Definition remaining_proofs (signedProofs providerProofs : list CashuProof) : list CashuProof :=
  List.filter (fun p => negb (existsb (fun q => pf_C q === pf_C p) providerProofs)) signedProofs.

Definition executeEscrowSwap (ctx : Ctx) (signedProofs : list CashuProof)
    (providerPubkey oraclePubkey : string) (feeSats : number) (late1 late2 : bool)
    : option SwapResult :=
  match ctx with
  | None => None
  | Some (wallet, mintUrl) =>
  let totalSats := sumProofAmounts signedProofs in
  let providerSats := nsub totalSats feeSats in
  if providerSats ≤ₙ num 0 then None
  else or_null
    (providerP2PK ← toOptions [addLockPubkey [providerPubkey]];
     oracleP2PK ← toOptions [addLockPubkey [oraclePubkey]];
     providerProofs ← send_default wallet providerSats signedProofs (Some providerP2PK) late1;
     let remainingProofs := remaining_proofs signedProofs providerProofs in
     oracleProofs ← match remainingProofs with
                    | [] => Ok []
                    | _ => send_default wallet feeSats remainingProofs (Some oracleP2PK) late2
                    end;
     Ok (mkSwapResult (encodeProofs mintUrl providerProofs)
           match oracleProofs with [] => "" | _ => encodeProofs mintUrl oracleProofs end
           providerSats feeSats))
  end.

(** The hold keeps plain proofs; hash, refund key and locktime are not used. *)
Definition createHtlcToken (ctx : Ctx) (amountSats : number) (hash customerPubkey : string)
    (locktimeSeconds : number) (sourceProofs : list CashuProof) (late : bool) : option EscrowToken :=
  match ctx with
  | None => None
  | Some (wallet, mintUrl) =>
      or_null (send ← send_default wallet amountSats sourceProofs None late;
               Ok (mkEscrowToken (encodeProofs mintUrl send) send None amountSats))
  end.

Definition swapHtlcBindProvider (ctx : Ctx) (initialProofs : list CashuProof)
    (params : HtlcProviderBindParams) (late : bool) : res (option EscrowToken) :=
  match ctx with
  | None => Ok None
  | Some (wallet, mintUrl) =>
      p2pkOptions ← buildHtlcFinalOptions params;
      Ok match computeNetAmount wallet initialProofs with
         | None => None
         | Some amountSats =>
             or_null (send ← send_default wallet amountSats initialProofs (Some p2pkOptions) late;
                      Ok (mkEscrowToken (encodeProofs mintUrl send) send (Some p2pkOptions) amountSats))
         end
  end.

Definition validateHtlcSecret (proof : CashuProof) (index : nat) (expectedHash : string)
    : option string :=
  match parse_secret proof with
  | None => Some ("Proof " +:+ pretty index +:+ ": invalid secret format")
  | Some secret =>
  match secret_body "HTLC" secret with
  | None => Some ("Proof " +:+ pretty index +:+ ": not an HTLC proof")
  | Some body =>
      if negb (eq_str (opt_prop "data" body) expectedHash) then
        Some ("Proof " +:+ pretty index +:+ ": hashlock mismatch (expected=" +:+ expectedHash +:+
              ", got=" +:+ js_string (opt_prop "data" body) +:+ ")")
      else None
  end end.

Fixpoint verify_htlc_loop (i : nat) (proofs : list CashuProof) (expectedHash : string)
    : res (option string) :=
  match proofs with
  | [] => Ok None
  | proof :: proofs' =>
      match validateHtlcSecret proof i expectedHash with
      | Some e => Ok (Some e)
      | None =>
          bad ← (if js_truthy (pf_witness proof) then
                   ok ← isHTLCSpendAuthorised proof; Ok (negb ok)
                 else Ok false);
          if bad : bool then Ok (Some ("Proof " +:+ pretty i +:+ ": HTLC spending conditions not met"))
          else verify_htlc_loop (S i) proofs' expectedHash
      end
  end.

Definition verifyHtlcProofs (htlcProofs : list CashuProof) (expectedHash preimage : string)
    : res (option string) :=
  ok ← verifyHTLCHash preimage expectedHash;
  if negb ok then
    Ok (Some ("Preimage does not match expected hash (hash=" +:+ expectedHash +:+ ")"))
  else verify_htlc_loop 0 htlcProofs expectedHash.

(** The product and the quotient are rounded to doubles. *)
Definition calculateOracleFee (amountSats feePpm : number) : number :=
  nceil (fdiv (fmul amountSats feePpm) (num 1000000)).

Record TokenInfo := mkTokenInfo { ti_amountSats : number; ti_proofCount : nat; ti_mintUrl : string }.
Definition inspectEscrowToken (token : string) : option TokenInfo :=
  or_null (decoded ← getDecodedToken token None;
           Ok (mkTokenInfo (sumProofAmounts (tok_proofs decoded)) (length (tok_proofs decoded))
                 (tok_mint decoded))).

(** ** [cashu-wallet.ts]: token verification against the mint *)
Record TokenVerdict := mkTokenVerdict {
  tv_valid : bool;
  tv_amountSats : number;
  tv_error : option string;
}.

Definition verifyToken (wallet : option Wallet) (token : string) (expectedMinSats : option number)
    : TokenVerdict :=
  match getDecodedToken token None with
  | Throw e => mkTokenVerdict false (num 0) (Some (exn_message e))
  | Ok decoded =>
  let totalAmount := sumProofAmounts (tok_proofs decoded) in
  let short := match expectedMinSats with
               | Some n => num_truthy n && (totalAmount <ₙ n)
               | None => false
               end in
  if short then
    mkTokenVerdict false totalAmount
      (Some ("Insufficient amount: " +:+ number_to_string totalAmount +:+ " < " +:+
             opt_default "undefined" (number_to_string <$> expectedMinSats)))
  else
  match wallet with
  | None => mkTokenVerdict false totalAmount
      (Some "Cashu mint is not configured; proof state cannot be verified")
  | Some wallet =>
  match (_ ← opt_default (Ok tt) (w_loadMint wallet);
         match w_checkProofsStates wallet with
         | Some check => check (tok_proofs decoded)
         | None => Throw (mkExn "TypeError" "wallet.checkProofsStates is not a function")
         end) with
  | Throw e => mkTokenVerdict false totalAmount (Some ("Mint verification failed: " +:+ exn_message e))
  | Ok states =>
      let spent := List.filter (fun s => s !== UNSPENT) states in
      match spent with
      | [] => mkTokenVerdict true totalAmount None
      | _ => mkTokenVerdict false totalAmount
               (Some (pretty (length spent) +:+ " proof(s) already spent on mint"))
      end
  end end end.

(** ** The HTLC escrow provider *)
Record EscrowEntry := mkEscrowEntry { ee_token : string; ee_escrowToken : EscrowToken }.

Record ProviderState := mkProviderState {
  ps_tokenMap : jsmap string EscrowEntry;
  ps_refCounter : N;
}.

Record HoldParams := mkHoldParams {
  hp_amount_sats : number;
  hp_payment_hash : string;
  hp_expiry : number;
  hp_customer_pubkey : string;
}.

Definition htlc_ref (n : N) : string := "cashu_htlc_" +:+ pretty n.

(** [++refCounter] and [tokenMap.set(ref, ...)] *)
Definition store_token (result : EscrowToken) (s : ProviderState) : ProviderState * string :=
  let n := N.succ (ps_refCounter s) in
  (mkProviderState (jm_set (htlc_ref n) (mkEscrowEntry (et_token result) result) (ps_tokenMap s)) n,
   htlc_ref n).

Definition cep_createHold (ctx : Ctx) (resolver : option (number -> res (list CashuProof)))
    (params : HoldParams) (late : bool) : call ProviderState (option string) :=
  match resolver with
  | None => ret None
  | Some resolve =>
      await (fun s => (s, Settled (resolve (hp_amount_sats params)))) (fun sourceProofs =>
      await (fun s => (s, Settled (Ok (createHtlcToken ctx (hp_amount_sats params)
               (hp_payment_hash params) (hp_customer_pubkey params) (hp_expiry params)
               sourceProofs late)))) (fun result =>
        match result with
        | None => ret None
        | Some token => fun s => let '(s', ref) := store_token token s in ret (Some ref) s'
        end))
  end.

(** [(secret[1]?.tags ?? []).find((t) => t[0] === name)] on an unchecked secret;
    [None] when nothing is found or the code throws into its empty [catch]. *)
Fixpoint find_first (name : string) (ts : list jsval) : option jsval :=
  match ts with
  | [] => None
  | t :: ts' =>
      match get_index 0 t with
      | None => None
      | Some n => if eq_str n name then Some t else find_first name ts'
      end
  end.
Definition unchecked_tag (secret : option jsval) (name : string) : option jsval :=
  match secret ≫= get_index 1 with
  | Some body => match prop "tags" body with VArr tags => find_first name tags | _ => None end
  | None => None
  end.

Definition tag_second (t : option jsval) : jsval := opt_default VUndef (t ≫= get_index 1).

(** [JSON.parse(firstProof?.secret ?? "[]")] *)
Definition first_secret (decoded : DecodedToken) : option jsval :=
  match tok_proofs decoded with
  | p :: _ => JSON_parse (pf_secret p)
  | [] => JSON_parse "[]"
  end.

(** The terms read back from the first proof; [toNumber] is [Number(v)]. *)
Definition bind_terms (toNumber : jsval -> number) (decoded : DecodedToken) (provider_pubkey : string)
    (nowMs : number) : HtlcProviderBindParams :=
  let secret := first_secret decoded in
  let customerPubkey := or_default (VStr "") (tag_second (unchecked_tag secret "refund")) in
  let locktimeTag := tag_second (unchecked_tag secret "locktime") in
  let locktime := if js_truthy locktimeTag then toNumber locktimeTag
                  else nadd (nfloor_div nowMs 1000) (num 3600) in
  let hash := match secret ≫= get_index 1 with
              | Some body => or_default (VStr "") (prop "data" body)
              | None => VStr ""
              end in
  mkHtlcBind hash provider_pubkey customerPubkey locktime.

Definition cep_bindProvider (ctx : Ctx) (toNumber : jsval -> number) (nowMs : number)
    (escrow_ref provider_pubkey : string) (late : bool) : call ProviderState (option string) := fun s =>
  match jm_get escrow_ref (ps_tokenMap s) with
  | None => ret None s
  | Some entry =>
  match getDecodedToken (ee_token entry) None with
  | Throw e => fail e s
  | Ok decoded =>
      await (fun s => (s, Settled (swapHtlcBindProvider ctx (et_proofs (ee_escrowToken entry))
                             (bind_terms toNumber decoded provider_pubkey nowMs) late)))
        (fun result =>
          match result with
          | None => ret None
          | Some token => fun s =>
              let '(s', newRef) := store_token token s in
              ret (Some newRef) (mkProviderState (jm_delete escrow_ref (ps_tokenMap s')) (ps_refCounter s'))
          end) s
  end end.

Definition provider_hex (pk : string) : string :=
  if startsWith "02" pk || startsWith "03" pk then pk else "02" +:+ pk.

(** [tags?.find((t) => t[0] === name)] and [.slice(1)] on unchecked tags. *)
Definition locked_keys (tags : jsval) : res (option (list jsval)) :=
  let type_error := Throw (mkExn "TypeError" "unexpected value in tags") in
  match tags with
  | VUndef | VNull => Ok None
  | VArr l =>
      (fix go (ts : list jsval) : res (option (list jsval)) :=
         match ts with
         | [] => Ok None
         | t :: ts' =>
             match get_index 0 t with
             | None => type_error
             | Some n =>
                 if eq_str n "pubkeys" then
                   match t with VArr keys => Ok (Some (tail keys)) | _ => type_error end
                 else go ts'
             end
         end) l
  | _ => type_error
  end.

(** One round of the loop over proofs: an error message, or go on. *)
Definition htlc_lock_error (payment_hash provider_pubkey : string) (proof : CashuProof)
    : res (option string) :=
  match parse_secret proof with
  | None => Ok (Some "Proof secret is not valid JSON")
  | Some secret =>
  match secret_body "HTLC" secret with
  | None => Ok (Some "Proof is not an HTLC proof")
  | Some body =>
  if negb (eq_str (opt_prop "data" body) payment_hash) then
    Ok (Some "HTLC hash mismatch: token hashlock does not match query")
  else
    keys ← locked_keys (opt_prop "tags" body);
    Ok match keys with
       | None => Some "No pubkeys tag in HTLC proof"
       | Some lockedKeys =>
           if existsb (fun k => eq_str k provider_pubkey || eq_str k (provider_hex provider_pubkey))
                lockedKeys
           then None else Some "HTLC token not locked to selected provider"
       end
  end end.

(** First error of a loop that returns it. *)
Fixpoint first_error {A} (f : A -> res (option string)) (l : list A) : res (option string) :=
  match l with
  | [] => Ok None
  | x :: l' => r ← f x; match r with Some e => Ok (Some e) | None => first_error f l' end
  end.

Definition lock_refused (message : string) : EscrowTokenLockResult := mkEscrowLock false (Some message).
Definition lock_fine : EscrowTokenLockResult := mkEscrowLock true None.

Definition cep_verifyLock (s : ProviderState) (escrow_ref payment_hash provider_pubkey : string)
    : res EscrowTokenLockResult :=
  match jm_get escrow_ref (ps_tokenMap s) with
  | None => Ok (lock_refused "Unknown escrow reference")
  | Some entry =>
  match getDecodedToken (ee_token entry) None with
  | Throw e => Ok (lock_refused ("Token failed to decode: " +:+ exn_message e))
  | Ok decoded =>
      r ← first_error (htlc_lock_error payment_hash provider_pubkey) (tok_proofs decoded);
      Ok match r with
         | Some e => lock_refused e
         | None =>
             match tok_proofs decoded with
             | [] => lock_refused "Token has no HTLC proofs"
             | _ => lock_fine
             end
         end
  end end.

Definition amount_result (v : TokenVerdict) : EscrowAmountResult :=
  mkEscrowAmount (tv_valid v) (Some (tv_amountSats v)) (tv_error v).

Definition cep_verify (wallet : option Wallet) (s : ProviderState) (escrow_ref : string)
    (expected_sats : number) : EscrowAmountResult :=
  match jm_get escrow_ref (ps_tokenMap s) with
  | None => mkEscrowAmount false None (Some "Unknown escrow reference")
  | Some entry => amount_result (verifyToken wallet (ee_token entry) (Some expected_sats))
  end.

(** The port handed to the query service. *)
Definition cashu_escrow_port (wallet : option Wallet) (s : ProviderState) : EscrowProvider :=
  mkEscrowProvider (fun ref sats => Ok (cep_verify wallet s ref sats)) (cep_verifyLock s).

Definition cep_cancel (s : ProviderState) (escrow_ref : string) : ProviderState * bool :=
  (mkProviderState (jm_delete escrow_ref (ps_tokenMap s)) (ps_refCounter s),
   jm_has escrow_ref (ps_tokenMap s)).

(** [settle] of both providers: never wired, always a refusal. *)
Definition cep_settle (escrow_ref preimage : string) : bool * string :=
  (false, "settle() is not wired through EscrowProvider; provider must call redeemHtlcToken() directly with its private key").

(** ** The FROST escrow provider *)
Record FrostEntry := mkFrostEntry {
  fe_token : string;
  fe_proofs : list CashuProof;
  fe_customerRefundPubkey : string;
  fe_locktimeSeconds : number;
}.

Record FrostProviderState := mkFrostState {
  fs_tokenMap : jsmap string FrostEntry;
  fs_refCounter : N;
}.

Definition frost_ref (n : N) : string := "frost_p2pk_" +:+ pretty n.

Definition frost_calls (providerPubkey groupPubkey customerRefundPubkey : string)
    (locktimeSeconds : number) : list builder_call :=
  [addLockPubkey [providerPubkey; groupPubkey]; requireLockSignatures 2; lockUntil locktimeSeconds;
   addRefundPubkey (VStr customerRefundPubkey); requireRefundSignatures 1].

Definition buildFrostP2PKOptions (providerPubkey groupPubkey customerRefundPubkey : string)
    (locktimeSeconds : number) : res P2PKOptions :=
  _ ← throw_if (negb (str_truthy customerRefundPubkey)) "Error"
        "FROST P2PK Payment Lock requires a customer refund pubkey";
  toOptions (frost_calls providerPubkey groupPubkey customerRefundPubkey locktimeSeconds).

Definition frost_store (entry : FrostEntry) (s : FrostProviderState) : FrostProviderState * string :=
  let n := N.succ (fs_refCounter s) in
  (mkFrostState (jm_set (frost_ref n) entry (fs_tokenMap s)) n, frost_ref n).

Definition fep_createHold (ctx : Ctx) (resolver : option (number -> res (list CashuProof)))
    (params : HoldParams) (late : bool) : call FrostProviderState (option string) :=
  match resolver, ctx with
  | Some resolve, Some (wallet, mintUrl) =>
      await (fun s => (s, Settled (resolve (hp_amount_sats params)))) (fun sourceProofs =>
      await (fun s => (s, Settled (Ok (or_null (send_default wallet (hp_amount_sats params)
                                                 sourceProofs None late))))) (fun send =>
        match send with
        | None => ret None
        | Some send => fun s =>
            let '(s', ref) := frost_store (mkFrostEntry (encodeProofs mintUrl send) send
                                (hp_customer_pubkey params) (hp_expiry params)) s in
            ret (Some ref) s'
        end))
  | _, _ => ret None
  end.

Definition fep_bindProvider (ctx : Ctx) (groupPubkey escrow_ref provider_pubkey : string) (late : bool)
    : call FrostProviderState (option string) := fun s =>
  match jm_get escrow_ref (fs_tokenMap s) with
  | None => ret None s
  | Some entry =>
  match ctx with
  | None => ret None s
  | Some (wallet, mintUrl) =>
  if negb (str_truthy (fe_customerRefundPubkey entry)) then ret None s
  else
  match buildFrostP2PKOptions provider_pubkey groupPubkey (fe_customerRefundPubkey entry)
          (fe_locktimeSeconds entry) with
  | Throw e => fail e s
  | Ok p2pkOptions =>
  match computeNetAmount wallet (fe_proofs entry) with
  | None => ret None s
  | Some amountSats =>
      await (fun s => (s, Settled (Ok (or_null (send_default wallet amountSats (fe_proofs entry)
                                                 (Some p2pkOptions) late))))) (fun send =>
        match send with
        | None => ret None
        | Some send => fun s =>
            let '(s', newRef) := frost_store (mkFrostEntry (encodeProofs mintUrl send) send
                                   (fe_customerRefundPubkey entry) (fe_locktimeSeconds entry)) s in
            ret (Some newRef) (mkFrostState (jm_delete escrow_ref (fs_tokenMap s')) (fs_refCounter s'))
        end) s
  end end end end.

(** [readStringTags]: the entries that are arrays of strings. *)
Definition readStringTags (v : jsval) : list (list string) :=
  match v with VArr l => omap as_string_array l | _ => [] end.

Definition toXOnly (pubkey : string) : string :=
  if Nat.eqb (String.length pubkey) 66 && (startsWith "02" pubkey || startsWith "03" pubkey)
  then slice 2 pubkey else pubkey.

Definition sameXOnlyPubkey (candidate expected : string) : bool :=
  toLowerCase (toXOnly candidate) === toLowerCase (toXOnly expected).

Definition named_tag (tags : list (list string)) (name : string) : option (list string) :=
  List.find (fun t => bool_decide (head t = Some name)) tags.

(** [body.data] when it is a string, then the keys of the [pubkeys] tag. *)
Definition frost_lock_keys (body : jsval) (tags : list (list string)) : list string :=
  match prop "data" body with VStr d => [d] | _ => [] end ++
  match named_tag tags "pubkeys" with Some t => tail t | None => [] end.

Definition frost_lock_error (groupPubkey provider_pubkey : string) (proof : CashuProof)
    : res (option string) :=
  match parse_secret proof with
  | None => Throw (mkExn "SyntaxError" "invalid JSON")
  | Some secret =>
  match secret_body "P2PK" secret with
  | None => Ok (Some "Not a P2PK proof")
  | Some body =>
  if negb (isRecord body) then Ok (Some "Malformed P2PK proof")
  else
  let tags := readStringTags (prop "tags" body) in
  let lockPubkeys := frost_lock_keys body tags in
  if bool_decide (lockPubkeys = []) then Ok (Some "No lock pubkeys in P2PK proof")
  else if bool_decide ((named_tag tags "n_sigs" ≫= fun t => t !! 1) <> Some "2") then
    Ok (Some "FROST P2PK lock must require 2 signatures")
  else if negb (existsb (fun pk => sameXOnlyPubkey pk provider_pubkey) lockPubkeys) then
    Ok (Some "Provider pubkey not in P2PK lock")
  else if negb (existsb (fun pk => sameXOnlyPubkey pk groupPubkey) lockPubkeys) then
    Ok (Some "Group pubkey not in P2PK lock")
  else Ok None
  end end.

Definition fep_verifyLock (groupPubkey : string) (s : FrostProviderState)
    (escrow_ref payment_hash provider_pubkey : string) : EscrowTokenLockResult :=
  match jm_get escrow_ref (fs_tokenMap s) with
  | None => lock_refused "Unknown escrow reference"
  | Some entry =>
  match (decoded ← getDecodedToken (fe_token entry) None;
         first_error (frost_lock_error groupPubkey provider_pubkey) (tok_proofs decoded)) with
  | Throw e => lock_refused ("P2PK verification failed: " +:+ exn_message e)
  | Ok (Some e) => lock_refused e
  | Ok None => lock_fine
  end end.

Definition fep_verify (wallet : option Wallet) (s : FrostProviderState) (escrow_ref : string)
    (expected_sats : number) : EscrowAmountResult :=
  match jm_get escrow_ref (fs_tokenMap s) with
  | None => mkEscrowAmount false None (Some "Unknown escrow reference")
  | Some entry => amount_result (verifyToken wallet (fe_token entry) (Some expected_sats))
  end.

Definition frost_escrow_port (groupPubkey : string) (wallet : option Wallet) (s : FrostProviderState)
    : EscrowProvider :=
  mkEscrowProvider (fun ref sats => Ok (fep_verify wallet s ref sats))
    (fun ref hash pk => Ok (fep_verifyLock groupPubkey s ref hash pk)).

Definition fep_cancel (s : FrostProviderState) (escrow_ref : string) : FrostProviderState * bool :=
  (mkFrostState (jm_delete escrow_ref (fs_tokenMap s)) (fs_refCounter s),
   jm_has escrow_ref (fs_tokenMap s)).

Definition fep_settle (escrow_ref preimage : string) : bool * string :=
  (false, "settle() is not wired through EscrowProvider for FROST mode; provider must coordinate threshold signing directly").

(** ** Redemption with group signatures *)
Definition parseWitness (witness : jsval) : list (string * jsval) :=
  match witness with
  | VStr w => match JSON_parse w with Some v => own_fields v | None => [] end
  | _ => own_fields witness
  end.

Definition getWitnessSignatures (witness : list (string * jsval)) : list jsval :=
  match assoc "signatures" witness with
  | Some (VArr l) => List.filter is_str l
  | _ => []
  end.

Definition append_signature (proof : CashuProof) (sig : string) : CashuProof :=
  let witness := parseWitness (pf_witness proof) in
  proof <| pf_witness := VStr (JSON_stringify (VObj (set_field "signatures"
             (VArr (getWitnessSignatures witness ++ [VStr sig])) witness))) |>.

Definition appendFrostP2PKGroupSignatures (proofs : list CashuProof) (groupSignatures : list string)
    : res (list CashuProof) :=
  if negb (Nat.eqb (length proofs) (length groupSignatures)) then
    Throw (mkExn "Error" "FROST signature count must match proof count")
  else Ok (zip_with append_signature proofs groupSignatures).

Definition redeemFrostP2PKToken (ctx : Ctx) (encodedToken providerPrivateKey : string)
    (groupSignatures : list string) : res (option (string * list CashuProof * number)) :=
  match ctx with
  | None => Ok None
  | Some (wallet, mintUrl) =>
      decoded ← getDecodedToken encodedToken None;
      providerSigned ← signP2PKProofs (tok_proofs decoded) providerPrivateKey;
      signedProofs ← appendFrostP2PKGroupSignatures providerSigned groupSignatures;
      redeem ← redeemSignedProofs wallet signedProofs (Some providerPrivateKey);
      settle_redeem rf_uncertain
        "redeemFrostP2PKToken: mint swap failed with inputs spent or unknowable — check the mint before retrying"
        mintUrl redeem
  end.
End escrow.
