(* ===== verification/CashuEscrowSpec.v ===== *)
(** * Correctness of the escrow layer

    Fee arithmetic, the reference maps of the escrow providers under
    interleaving, the lock checks and their connection to provider selection in
    the query service, the terms a bound token carries, and group-signature
    attachment. *)

From S2P Require Import Prelude JsNum JsMap JsString JsFloat JsValue EventLoop CashuTypes RedeemSwap.
From S2P Require Import QueryTypes Samples QueryDomain QueryVerification PreimageStore QueryService QueryServiceSpec QuerySettlement CashuEscrow.

Arguments send_default {L} wallet amount proofs opts late : simpl never.

Section spec.
Context `{L : CashuLib} `{J : JSON}.

(** ** References *)
Definition refs_ok (s : ProviderState) : Prop :=
  forall ref, jm_has ref (ps_tokenMap s) = true -> exists n, (n <= ps_refCounter s)%N /\ ref = htlc_ref n.

Lemma string_app_inj (p a b : string) : p +:+ a = p +:+ b -> a = b.
Proof.
  change (String.append p a = String.append p b -> a = b).
  induction p as [|c p IH]; [done|]. intros H. apply IH. by injection H.
Qed.

Lemma htlc_ref_inj m n : htlc_ref m = htlc_ref n -> m = n.
Proof. intros H%string_app_inj. by apply (inj pretty). Qed.

Lemma jm_has_delete {V} (k j : string) (m : jsmap string V) : jm_has j (jm_delete k m) = true -> jm_has j m = true.
Proof. unfold jm_has. rewrite jm_get_delete. by case_bool_decide. Qed.

Lemma store_token_ok t s : refs_ok s ->
  refs_ok (store_token t s).1 /\ jm_get (store_token t s).2 (ps_tokenMap s) = None.
Proof.
  intros Hs. split.
  - intros ref H. unfold store_token in H. simpl in H. rewrite jm_has_set in H. apply orb_true_iff in H as [->%bool_decide_eq_true|H]; simpl; [by eexists|].
    destruct (Hs ref H) as (n & Hn & ->). exists n. split; [lia|done].
  - destruct (jm_get _ _) eqn:E; [|done]. exfalso.
    destruct (Hs (store_token t s).2) as (n & Hn & Href); [unfold jm_has; by rewrite E|].
    apply htlc_ref_inj in Href. lia.
Qed.

Lemma createHold_ok ctx resolver params late : call_ok refs_ok (cep_createHold ctx resolver params late).
Proof.
  unfold cep_createHold. destruct resolver; [|apply ret_ok].
  apply call_ok_await; [done|]. intros ps. apply call_ok_await; [done|]. intros [t|]; [|apply ret_ok].
  intros s Hs. destruct (store_token_ok t s Hs) as [H _]. destruct (store_token t s) as [s2 ref]. split; [exact H|done].
Qed.

Lemma bindProvider_ok ctx toN now ref pk late : call_ok refs_ok (cep_bindProvider ctx toN now ref pk late).
Proof.
  intros s Hs. unfold cep_bindProvider. destruct (jm_get _ _) as [entry|]; [|by apply ret_ok].
  destruct (getDecodedToken _ _) as [d|e]; [|done].
  apply call_ok_await; [done| |done]. intros [t|]; [|apply ret_ok].
  intros s1 Hs1. destruct (store_token_ok t s1 Hs1) as [H _]. destruct (store_token t s1) as [s2 r].
  split; [|done]. simpl in *. intros j Hj. apply H. simpl. by eapply jm_has_delete.
Qed.

Lemma cancel_refs_ok s ref : refs_ok s -> refs_ok (cep_cancel s ref).1.
Proof. intros Hs j Hj. apply Hs. exact (jm_has_delete ref j _ Hj). Qed.

(** ** Lock checks *)
Lemma first_error_None {A} (f : A -> res (option string)) l :
  first_error f l = Ok None <-> Forall (fun x => f x = Ok None) l.
Proof.
  induction l as [|x l IH]; simpl; [split; [constructor|done]|].
  rewrite Forall_cons, <- IH, bind_Ok. split.
  - intros ([e|] & Hx & H); [done|]. done.
  - intros [Hx H]. by exists None.
Qed.

(** What [verifyLock] of the HTLC provider establishes of a proof. *)
Definition htlc_locked_to (hash pk : string) (proof : CashuProof) : Prop :=
  exists body keys key, (parse_secret proof ≫= secret_body "HTLC") = Some body /\
    prop "data" body = VStr hash /\ locked_keys (prop "tags" body) = Ok (Some keys) /\
    VStr key ∈ keys /\ (key = pk \/ key = provider_hex pk).

Lemma existsb_elem {A} (f : A -> bool) l : existsb f l = true -> exists x, x ∈ l /\ f x = true.
Proof. rewrite existsb_exists. intros (x & Hin & Hf). exists x. split; [by apply list_elem_of_In|done]. Qed.

Lemma eq_str_VStr v s : eq_str v s = true -> v = VStr s.
Proof. destruct v; simpl; try done. by intros ->%bool_decide_eq_true. Qed.

Lemma htlc_lock_error_None hash pk p : htlc_lock_error hash pk p = Ok None -> htlc_locked_to hash pk p.
Proof.
  unfold htlc_lock_error, htlc_locked_to. destruct (parse_secret p) as [secret|]; [|done]. simpl.
  destruct (secret_body "HTLC" secret) as [body|]; [|done]. unfold opt_prop.
  destruct (eq_str (prop "data" body) hash) eqn:Ed; [|done]. simpl.
  intros ([keys|] & Hk & H)%bind_Ok; [|done]. destruct (existsb _ keys) eqn:Ex; [|done].
  apply existsb_elem in Ex as (k & Hin & [Hf|Hf]%orb_true_iff); apply eq_str_VStr in Hf; subst;
    apply eq_str_VStr in Ed; [exists body, keys, pk|exists body, keys, (provider_hex pk)]; split_and!; auto.
Qed.

Lemma cep_verifyLock_fine s ref hash pk l :
  cep_verifyLock s ref hash pk = Ok l -> el_ok l = true ->
  exists entry decoded, jm_get ref (ps_tokenMap s) = Some entry /\
    getDecodedToken (ee_token entry) None = Ok decoded /\ tok_proofs decoded <> [] /\
    Forall (htlc_locked_to hash pk) (tok_proofs decoded).
Proof.
  unfold cep_verifyLock. destruct (jm_get ref (ps_tokenMap s)) as [entry|]; [|intros; by simplify_eq].
  destruct (getDecodedToken _ _) as [d|e] eqn:Ed; [|intros; by simplify_eq].
  intros (r & Hr & H)%bind_Ok Hok. destruct r as [e|]; [by simplify_eq|].
  exists entry, d. split_and!; [done|done| |].
  - intros E. rewrite E in H. by simplify_eq.
  - apply first_error_None in Hr. eapply Forall_impl; [exact Hr|]. intros p. apply htlc_lock_error_None.
Qed.

(** What [verifyLock] of the FROST provider establishes of a proof. *)
Definition frost_locked_to (group pk : string) (proof : CashuProof) : Prop :=
  exists body, (parse_secret proof ≫= secret_body "P2PK") = Some body /\
    let tags := readStringTags (prop "tags" body) in
    (named_tag tags "n_sigs" ≫= fun t => t !! 1) = Some "2" /\
    (exists k, k ∈ frost_lock_keys body tags /\ sameXOnlyPubkey k pk = true) /\
    (exists k, k ∈ frost_lock_keys body tags /\ sameXOnlyPubkey k group = true).

Lemma frost_lock_error_None group pk p : frost_lock_error group pk p = Ok None -> frost_locked_to group pk p.
Proof.
  unfold frost_lock_error, frost_locked_to. destruct (parse_secret p) as [secret|]; [|done]. simpl.
  destruct (secret_body "P2PK" secret) as [body|]; [|done]. destruct (isRecord body); [|done]. simpl.
  set (tags := readStringTags _). set (keys := frost_lock_keys _ _).
  case_bool_decide; [done|]. case_bool_decide as Hn; [done|].
  destruct (existsb (fun k => sameXOnlyPubkey k pk) keys) eqn:E1; [|done]. simpl.
  destruct (existsb (fun k => sameXOnlyPubkey k group) keys) eqn:E2; [|done]. intros _.
  exists body. split; [done|]. split; [exact Hn|]. split; by apply existsb_elem.
Qed.

(** ** Holds and bindings *)
Lemma plain_terms toN token pk nowMs :
  (forall p, p ∈ tok_proofs token -> JSON_parse (pf_secret p) = None) -> tok_proofs token <> [] ->
  bind_terms toN token pk nowMs =
  mkHtlcBind (VStr "") pk (VStr "") (nadd (nfloor_div nowMs 1000) (num 3600)).
Proof.
  intros Hp Hne. unfold bind_terms, first_secret. destruct (tok_proofs token) as [|p ps]; [done|].
  by rewrite (Hp p) by left.
Qed.

Lemma frost_ref_inj m n : frost_ref m = frost_ref n -> m = n.
Proof. intros H%string_app_inj. by apply (inj pretty). Qed.

Lemma frost_hold_entry wallet mintUrl resolver params late s1 s2 ref :
  run_call (fep_createHold (Some (wallet, mintUrl)) resolver params late) s1 = (s2, Ok (Some ref)) ->
  exists held, ref = frost_ref (N.succ (fs_refCounter s1)) /\
    s2 = (frost_store (mkFrostEntry (encodeProofs mintUrl held) held
            (hp_customer_pubkey params) (hp_expiry params)) s1).1.
Proof.
  unfold fep_createHold. destruct resolver as [resolve|]; [|intros; by simplify_eq/=].
  rewrite run_call_await. simpl. destruct (resolve _) as [src|e]; [|intros; by simplify_eq/=].
  rewrite run_call_await. simpl. destruct (send_default _ _ _ _ _) as [held|e]; unfold run_call; simpl;
    intros; simplify_eq/=. by exists held.
Qed.

(** ** Rounding in the fee *)
Lemma halve_exact z n : halve (z * 2 ^ Z.of_nat n) n = num z.
Proof.
  induction n as [|n IH]; [by rewrite Z.mul_1_r|]. cbn [halve].
  replace (z * 2 ^ Z.of_nat (S n))%Z with (2 * (z * 2 ^ Z.of_nat n))%Z by (rewrite Nat2Z.inj_succ, Z.pow_succ_r by lia; ring).
  rewrite Z.even_mul. cbn [Z.even orb]. by rewrite (Z.mul_comm 2), Z.div_mul, IH.
Qed.

Lemma nceil_halve m n : nceil (halve m n) = num (- (- m / 2 ^ Z.of_nat n))%Z.
Proof.
  revert m. induction n as [|n IH]; intros m; [done|]. cbn [halve]. destruct (Z.even m) eqn:Em; [|done].
  rewrite IH. do 2 f_equal. apply Z.even_spec in Em as [h ->].
  rewrite (Z.mul_comm 2), Z.div_mul, Nat2Z.inj_succ, Z.pow_succ_r, (Z.mul_comm 2) by lia.
  rewrite <- Z.mul_opp_l, Z.div_mul_cancel_r; lia.
Qed.

(** An integer up to [2^53] is a double. *)
Lemma round_exact p : (0 <= p <= 2 ^ 53)%Z -> round_ratio p 1 = num p.
Proof.
  intros Hp. unfold round_ratio. destruct (Z.eqb_spec p 0) as [->|Hne]; [done|].
  change (Z.log2 1) with 0%Z. rewrite Z.sub_0_r. set (l := Z.log2 p).
  assert (Hl : (0 <= l <= 53)%Z).
  { split; [apply Z.log2_nonneg|]. change 53%Z with (Z.log2 (2 ^ 53)). apply Z.log2_le_mono. lia. }
  pose proof (Z.log2_spec p ltac:(lia)) as Hs. fold l in Hs.
  rewrite (proj2 (Z.leb_le 0 (53 - l))) by lia. rewrite Z.div_1_r, !Z.mul_1_l.
  assert (H53 : (2 ^ 53 <= p * 2 ^ (53 - l) < 2 ^ 54)%Z).
  { replace (2 ^ 53)%Z with (2 ^ l * 2 ^ (53 - l))%Z at 1 by (rewrite <- Z.pow_add_r by lia; f_equal; lia).
    replace (2 ^ 54)%Z with (2 ^ Z.succ l * 2 ^ (53 - l))%Z by (rewrite <- Z.pow_add_r by lia; f_equal; lia).
    pose proof (Z.pow_pos_nonneg 2 (53 - l) ltac:(lia) ltac:(lia)). nia. }
  rewrite (proj2 (Z.leb_le _ _) (proj1 H53)).
  replace (Z.log2 (p * 2 ^ (53 - l))) with 53%Z by (symmetry; apply Z.log2_unique; lia). change (2 ^ (53 - 52))%Z with 2%Z.
  assert (Heven : (p * 2 ^ (53 - l) = 2 * (p * 2 ^ (53 - l) / 2))%Z).
  { destruct (Z.eq_dec l 53%Z) as [Hl53|].
    - assert (p = 2 ^ 53)%Z as -> by (rewrite Hl53 in Hs; lia). rewrite Hl53. done.
    - replace (2 ^ (53 - l))%Z with (2 * 2 ^ (52 - l))%Z by (rewrite <- Z.pow_succ_r by lia; f_equal; lia).
      rewrite Z.mul_assoc, (Z.mul_comm p 2), <- Z.mul_assoc, (Z.mul_comm 2 (_ * _)), Z.div_mul by lia. ring. }
  replace (p * 2 ^ (53 - l) - p * 2 ^ (53 - l) / 2 * 2)%Z with 0%Z by lia. rewrite Z.mul_0_r. cbn [Z.ltb Z.compare].
  rewrite Z.add_0_r, Z.mul_comm, <- Heven. cbn [ncanon]. rewrite Z_N_nat.
  replace (2 ^ (53 - l))%Z with (2 ^ Z.of_nat (Z.to_nat (53 - l)))%Z by (rewrite Z2Nat.id by lia; done). apply halve_exact.
Qed.

(** The ceiling is not disturbed by rounding the quotient of such an integer. *)
Lemma ceil_quotient p : (0 < p <= 2 ^ 53)%Z ->
  exists c, nceil (round_ratio p 1000000) = num c /\ (1000000 * (c - 1) < p <= 1000000 * c)%Z.
Proof.
  intros Hp. unfold round_ratio. destruct (Z.eqb_spec p 0) as [->|Hne]; [lia|].
  change (Z.log2 1000000) with 19%Z. set (l := Z.log2 p). set (s := (53 - (l - 19))%Z).
  assert (Hl : (0 <= l <= 53)%Z).
  { split; [apply Z.log2_nonneg|]. change 53%Z with (Z.log2 (2 ^ 53)). apply Z.log2_le_mono. lia. }
  pose proof (Z.log2_spec p ltac:(lia)) as Hs. fold l in Hs.
  assert (Hs0 : (19 <= s)%Z) by lia. rewrite (proj2 (Z.leb_le 0 s)) by lia.
  set (T := (2 ^ s)%Z). assert (HT : (2 ^ 19 <= T)%Z) by (apply Z.pow_le_mono_r; lia).
  set (n := (p * T)%Z). assert (Hn : (2 ^ 72 <= n < 2 ^ 73)%Z).
  { replace (2 ^ 72)%Z with (2 ^ l * T)%Z by (unfold T; rewrite <- Z.pow_add_r by lia; f_equal; lia).
    replace (2 ^ 73)%Z with (2 ^ Z.succ l * T)%Z by (unfold T; rewrite <- Z.pow_add_r by lia; f_equal; lia). nia. }
  set (q0 := (n / 1000000)%Z). set (extra := (if 2 ^ 53 <=? q0 then 2 ^ (Z.log2 q0 - 52) else 1)%Z).
  assert (Hq0 : (2 ^ 52 <= q0 < 2 ^ 54)%Z).
  { unfold q0. split; [apply Z.div_le_lower_bound; lia|apply Z.div_lt_upper_bound; lia]. }
  assert (Hextra : extra = 1%Z \/ (extra = 2%Z /\ (20 <= s)%Z)).
  { unfold extra. destruct (Z.leb_spec (2 ^ 53) q0); [right|by left].
    split; [replace (Z.log2 q0) with 53%Z by (symmetry; apply Z.log2_unique; lia); done|].
    destruct (Z.eq_dec s 19%Z) as [E|]; [|lia]. exfalso.
    assert (p = 2 ^ 53)%Z as -> by (assert (l = 53)%Z as El by lia; rewrite El in Hs; lia).
    unfold q0, n, T in *. rewrite E in *. by apply Z.leb_le in H. }
  assert (HD : (0 < 1000000 * extra < 2 * T)%Z).
  { destruct Hextra as [->|[-> Hs20]]; [lia|]. assert (2 ^ 20 <= T)%Z by (apply Z.pow_le_mono_r; lia). lia. }
  set (D := (1000000 * extra)%Z) in *. set (q := (n / D)%Z). set (r := (n - q * D)%Z).
  assert (Hr : (0 <= r < D)%Z).
  { pose proof (Z.div_mod n D ltac:(lia)). pose proof (Z.mod_pos_bound n D ltac:(lia)). unfold r, q. lia. }
  set (up := (if 2 * r <? D then 0 else if D <? 2 * r then 1 else q mod 2)%Z).
  assert (Hup : (up = 0 /\ 2 * r <= D \/ up = 1 /\ D <= 2 * r)%Z).
  { unfold up. destruct (Z.ltb_spec (2 * r) D); [left; lia|]. destruct (Z.ltb_spec D (2 * r)); [right; lia|].
    pose proof (Z.mod_pos_bound q 2 ltac:(lia)). lia. }
  set (m := ((q + up) * extra)%Z).
  assert (Hm : (m * 1000000 = n - r + up * D)%Z) by (unfold m, r, D; ring).
  cbn [ncanon]. rewrite nceil_halve, Z_N_nat, Z2Nat.id by lia. fold T. eexists. split; [reflexivity|].
  set (c := (- (- m / T))%Z).
  assert (Hc : (T * (c - 1) < m <= T * c)%Z).
  { pose proof (Z.div_mod (- m) T ltac:(lia)). pose proof (Z.mod_pos_bound (- m) T ltac:(lia)). unfold c. lia. }
  assert (Hlow : (1000000 * (c - 1) < p + 1)%Z).
  { apply (Z.mul_lt_mono_pos_r T); [lia|]. unfold n in Hm. nia. }
  assert (Hhigh : (p - 1 < 1000000 * c)%Z).
  { apply (Z.mul_lt_mono_pos_r T); [lia|]. unfold n in Hm. nia. }
  split; [|lia]. destruct (Z.eq_dec (1000000 * (c - 1))%Z p) as [E|]; [|lia]. exfalso.
  assert (Hr0 : r = 0%Z).
  { unfold r, q. destruct (Z.mod_divide n D ltac:(lia)) as [_ Hd]. rewrite <- Z.mul_comm.
    pose proof (Z.div_mod n D ltac:(lia)). rewrite Hd in H; [lia|]. unfold n, D. rewrite <- E.
    destruct Hextra as [->|[-> Hs20]]; [exists ((c - 1) * T)%Z; ring|].
    exists ((c - 1) * 2 ^ (s - 1))%Z. unfold T. replace s with (Z.succ (s - 1)) at 1 by lia. rewrite Z.pow_succ_r by lia. ring. }
  assert (up = 0)%Z by lia. unfold n in Hm. nia.
Qed.

(** * Properties *)


(** A product above [2^53]: the exact ceiling is 10000989999. *)
Example fee_rounds_down : calculateOracleFee (num 10000999999) (num 999999) = num 10000989998.
Proof. vm_compute. reflexivity. Qed.

(** Escrow references are never reused: under any interleaving of holds,
    bindings and cancellations every stored reference was handed out by the
    counter, and a new one does not collide with a stored one. *)
Theorem escrow_refs_fresh (calls : call ProviderState (option string) -> Prop) lp :
  (forall c, calls c -> (exists ctx r p late, c = cep_createHold ctx r p late) \/
     (exists ctx toN now ref pk late, c = cep_bindProvider ctx toN now ref pk late)) ->
  loop_steps calls (fun s s' => exists ref, s' = (cep_cancel s ref).1)
    (mkLoop (mkProviderState [] 0) []) lp ->
  refs_ok (lp_state lp) /\
  forall t, jm_get (store_token t (lp_state lp)).2 (ps_tokenMap (lp_state lp)) = None.
Proof.
  intros Hcalls Hrun. eapply (loop_invariant refs_ok) in Hrun as [H _].
  - split; [done|]. intros t. by apply store_token_ok.
  - intros c [(ctx & r & p & late & ->)|(ctx & toN & now & ref & pk & late & ->)]%Hcalls;
      auto using createHold_ok, bindProvider_ok.
  - intros s s' [ref ->]. apply cancel_refs_ok.
  - done.
Qed.

(** Selection through the Cashu provider: when the service selects a provider
    for an HTLC query with a non-empty hash and escrow reference, the referenced
    token decodes to at least one proof, and every proof is hash-locked to the
    query's hash with the selected provider among its keys. *)
Theorem selected_token_locked deps wallet ps R id pk token s o q ref h :
  d_escrowProvider deps = Some (cashu_escrow_port wallet ps) ->
  outcome R (doSelectProvider deps id pk token) s (Ok o) -> ho_ok o = true ->
  store_get s id = Some q -> truthy (escrow_ref_of q token) = Some ref ->
  truthy (htlc_hash_of q) = Some h ->
  exists entry decoded, jm_get ref (ps_tokenMap ps) = Some entry /\
    getDecodedToken (ee_token entry) None = Ok decoded /\ tok_proofs decoded <> [] /\
    Forall (htlc_locked_to h pk) (tok_proofs decoded).
Proof.
  intros Hp Ho Hok Hq Hr Hh. destruct (select_outcome deps R id pk token s o Ho Hok) as (q' & Hq' & _ & Hl).
  rewrite Hq in Hq'. injection Hq' as <-.
  destruct (Hl ref h Hr Hh) as (p & l & Hp' & Hv & Hlv). rewrite Hp in Hp'. injection Hp' as <-.
  by eapply cep_verifyLock_fine.
Qed.

(** The FROST provider's lock check establishes two required signatures with
    both the provider's and the group's key among the lock keys of each proof. *)
Theorem frost_lock_checked group s ref hash pk :
  el_ok (fep_verifyLock group s ref hash pk) = true ->
  exists entry decoded, jm_get ref (fs_tokenMap s) = Some entry /\
    getDecodedToken (fe_token entry) None = Ok decoded /\
    Forall (frost_locked_to group pk) (tok_proofs decoded).
Proof.
  unfold fep_verifyLock. destruct (jm_get ref (fs_tokenMap s)) as [entry|]; [|done].
  destruct (getDecodedToken (fe_token entry) None) as [d|e] eqn:Ed; [|done]. simpl.
  destruct (first_error _ _) as [[e|]|e] eqn:Ef; try done. intros _. exists entry, d. split_and!; [done..|].
  apply first_error_None in Ef. eapply Forall_impl; [exact Ef|]. intros p. apply frost_lock_error_None.
Qed.

(** Holding plain proofs and binding them afterwards forgets the agreed terms:
    the HTLC is requested with an empty hash and an empty refund key, whatever
    hash, customer key and expiry the hold was created with. *)
Theorem hold_then_bind_drops_terms wallet mintUrl toN nowMs resolver params ref pk newRef late1 late2 s1 s2 s3 :
  (forall entry d, jm_get ref (ps_tokenMap s2) = Some entry -> getDecodedToken (ee_token entry) None = Ok d ->
     tok_proofs d <> [] /\ forall p, p ∈ tok_proofs d -> JSON_parse (pf_secret p) = None) ->
  run_call (cep_createHold (Some (wallet, mintUrl)) resolver params late1) s1 = (s2, Ok (Some ref)) ->
  run_call (cep_bindProvider (Some (wallet, mintUrl)) toN nowMs ref pk late2) s2 = (s3, Ok (Some newRef)) ->
  exists opts amount held bound,
    toOptions [addHashlock (VStr ""); addLockPubkey [pk]; requireLockSignatures 1;
               lockUntil (nadd (nfloor_div nowMs 1000) (num 3600)); addRefundPubkey (VStr "");
               requireRefundSignatures 1; sigAll] = Ok opts /\
    send_default wallet amount held (Some opts) late2 = Ok bound.
Proof.
  intros Hplain _ Hbind. unfold run_call, cep_bindProvider in Hbind.
  destruct (jm_get ref (ps_tokenMap s2)) as [entry|] eqn:Ee; [|by simplify_eq/=].
  destruct (getDecodedToken _ _) as [d|e] eqn:Ed; [|by simplify_eq/=].
  destruct (Hplain _ _ eq_refl Ed) as [Hne Hp].
  unfold await in Hbind. simpl in Hbind. rewrite (plain_terms toN d pk nowMs) in Hbind by done.
  unfold buildHtlcFinalOptions, htlc_final_calls in Hbind. simpl in Hbind.
  destruct (toOptions _) as [opts|e] eqn:Eo in Hbind; simpl in Hbind; [|done].
  destruct (computeNetAmount _ _) as [amount|]; [|by simplify_eq/=].
  destruct (send_default wallet amount _ (Some opts) late2) as [bound|e] eqn:Es; [|by simplify_eq/=].
  exists opts, amount, (et_proofs (ee_escrowToken entry)), bound. done.
Qed.

(** The FROST provider keeps them: binding a hold asks for a lock to provider
    and group with the refund key and the expiry the hold was created with, and
    moves the entry to a new reference. *)
Theorem frost_bind_keeps_terms wallet mintUrl resolver params group ref pk newRef late1 late2 s1 s2 s3 :
  run_call (fep_createHold (Some (wallet, mintUrl)) resolver params late1) s1 = (s2, Ok (Some ref)) ->
  run_call (fep_bindProvider (Some (wallet, mintUrl)) group ref pk late2) s2 = (s3, Ok (Some newRef)) ->
  exists opts amount held bound,
    toOptions (frost_calls pk group (hp_customer_pubkey params) (hp_expiry params)) = Ok opts /\
    send_default wallet amount held (Some opts) late2 = Ok bound /\
    jm_get ref (fs_tokenMap s3) = None /\
    jm_get newRef (fs_tokenMap s3) = Some (mkFrostEntry (encodeProofs mintUrl bound) bound
                                             (hp_customer_pubkey params) (hp_expiry params)).
Proof.
  intros (held & -> & ->)%frost_hold_entry Hbind. unfold run_call, fep_bindProvider in Hbind. simpl in Hbind.
  rewrite jm_get_set_eq in Hbind. simpl in Hbind. unfold buildFrostP2PKOptions in Hbind.
  destruct (str_truthy (hp_customer_pubkey params)); [|by simplify_eq/=]. simpl in Hbind.
  destruct (toOptions _) as [opts|e] eqn:Eo; [|by simplify_eq/=].
  destruct (computeNetAmount wallet held) as [amount|]; [|by simplify_eq/=].
  unfold await in Hbind. simpl in Hbind.
  destruct (send_default wallet amount held (Some opts) late2) as [bound|e] eqn:Es; simplify_eq/=.
  exists opts, amount, held, bound. split_and!; [done..| |].
  - rewrite jm_get_delete. by case_bool_decide.
  - rewrite jm_get_delete. case_bool_decide as Heq; [|by rewrite jm_get_set_eq].
    apply frost_ref_inj in Heq. lia.
Qed.

(** Group signatures are attached one per proof, after the signatures already
    there, and nothing else of a proof changes; a count mismatch is refused. *)
Theorem group_signatures_attached proofs sigs r :
  appendFrostP2PKGroupSignatures proofs sigs = Ok r <->
  length proofs = length sigs /\ r = zip_with append_signature proofs sigs.
Proof.
  unfold appendFrostP2PKGroupSignatures. destruct (Nat.eqb_spec (length proofs) (length sigs)); simpl; naive_solver.
Qed.

(** Splitting an escrow between provider and oracle spends its inputs twice:
    unless the new provider proofs repeat an input, the oracle's share is asked
    from the same inputs, and when the mint refuses it the provider's freshly
    minted proofs are dropped with it. *)
Theorem escrow_swap_respends_inputs wallet mintUrl signed pk oracle fee opts1 opts2 minted e :
  (nsub (sumProofAmounts signed) fee ≤ₙ num 0) = false -> signed <> [] ->
  toOptions [addLockPubkey [pk]] = Ok opts1 -> toOptions [addLockPubkey [oracle]] = Ok opts2 ->
  send_default wallet (nsub (sumProofAmounts signed) fee) signed (Some opts1) false = Ok minted ->
  Forall (fun p => pf_C p ∉ (pf_C <$> signed)) minted ->
  send_default wallet fee signed (Some opts2) false = Throw e ->
  executeEscrowSwap (Some (wallet, mintUrl)) signed pk oracle fee false false = None.
Proof.
  intros Hpos Hne H1 H2 Hs1 Hdis Hs2. unfold executeEscrowSwap. rewrite Hpos, H1, H2. simpl. rewrite Hs1. simpl.
  assert (Hrem : remaining_proofs signed minted = signed).
  { unfold remaining_proofs. clear Hs1 Hs2 Hpos Hne.
    assert (Hall : forall p, p ∈ signed -> existsb (fun q => pf_C q === pf_C p) minted = false).
    { intros p Hp. apply not_true_iff_false. intros (q & Hq & E)%existsb_elem. apply bool_decide_eq_true in E.
      rewrite Forall_forall in Hdis. apply (Hdis q Hq). apply list_elem_of_fmap. by exists p. }
    clear Hdis. induction signed as [|p l IH]; simpl; [done|].
    rewrite (Hall p) by left. simpl. f_equal. apply IH. intros q Hq. apply Hall. by right. }
  rewrite Hrem. destruct signed; [done|]. rewrite Hs2. done.
Qed.
End spec.

(** * Witnesses and examples *)
Section witnesses.
Definition w_tag (l : list string) : jsval := VArr (VStr <$> l).
Definition htlc_secret (keys : list string) : jsval :=
  VArr [VStr "HTLC"; VObj [("data", VStr "h1"); ("tags", VArr [w_tag ("pubkeys" :: keys)])]].
Definition p2pk_secret (keys : list string) : jsval :=
  VArr [VStr "P2PK"; VObj [("data", VStr "prov"); ("tags", VArr [w_tag ("pubkeys" :: keys); w_tag ["n_sigs"; "2"]])]].

Local Instance escrow_json : JSON := {|
  JSON_parse := fun s => if s === "htlc" then Some (htlc_secret ["prov"])
                         else if s === "shared" then Some (htlc_secret ["prov"; "customer"])
                         else if s === "p2pk" then Some (p2pk_secret ["group"])
                         else if s === "p2pk4" then Some (p2pk_secret ["group"; "mine"; "mine2"]) else None;
  JSON_stringify := fun _ => "{}";
|}.

(** A token string decodes to one proof whose secret is the string. *)
Local Instance escrow_lib : CashuLib := {|
  P2PKOptions := list builder_call;
  Point := string;
  BlindSig := string;
  toOptions := Ok;
  getDecodedToken := fun tok _ =>
    Ok (mkDecoded "https://mint" (if tok === "" then [] else if tok === "twice" then [sample_proof "x" 8; sample_proof "x" 8]
                                  else [sample_proof tok 8]));
  getEncodedToken := fun _ ps => match ps with p :: _ => pf_secret p | [] => "" end;
  verifyHTLCHash := fun _ _ => Ok true;
  isHTLCSpendAuthorised := fun _ => Ok true;
  signP2PKProofs := fun ps _ => Ok ps;
  pointFromHex := Ok;
  verifyDLEQProof_reblind := fun _ _ _ _ => Ok true;
|}.

Definition one_entry (tok : string) : ProviderState :=
  mkProviderState [("hold", mkEscrowEntry tok (mkEscrowToken tok [] None (num 8)))] 1.
Definition one_frost (tok : string) : FrostProviderState :=
  mkFrostState [("hold", mkFrostEntry tok [] "customer" (num 5000))] 1.
Definition mint_wallet (ps : list CashuProof) : Wallet :=
  sample_wallet (Ok (mkSendResult ps None)) (Ok [UNSPENT; UNSPENT]).

(** A lock shared with the customer's own key passes the provider's lock check. *)
Example shared_lock_accepted :
  cep_verifyLock (one_entry "htlc") "hold" "h1" "prov" = Ok lock_fine /\
  cep_verifyLock (one_entry "shared") "hold" "h1" "prov" = Ok lock_fine.
Proof. split; reflexivity. Qed.

(** The FROST check passes a token with no proofs, and a 2-of-4 lock whose
    other two keys belong to someone else. *)
Example frost_lock_gaps :
  fep_verifyLock "group" (one_frost "") "hold" "h1" "prov" = lock_fine /\
  fep_verifyLock "group" (one_frost "p2pk4") "hold" "h1" "prov" = lock_fine.
Proof. split; reflexivity. Qed.

(** One proof listed twice counts twice. *)
Example duplicated_proof_counted :
  verifyToken (Some (mint_wallet [])) "twice" (Some (num 16)) = mkTokenVerdict true (num 16) None.
Proof. reflexivity. Qed.


Definition hold_params : HoldParams := mkHoldParams (num 8) "h1" (num 5000) "customer".
Definition hold_call : call ProviderState (option string) :=
  cep_createHold (Some (mint_wallet [sample_proof "plain" 8], "https://mint")) (Some (fun _ => Ok [])) hold_params false.

Lemma escrow_refs_fresh_witness : refs_ok (mkProviderState [] 0).
Proof.
  apply (escrow_refs_fresh (fun c => c = hold_call) (mkLoop (mkProviderState [] 0) [(hold_call (mkProviderState [] 0)).2])).
  - intros c ->. left. do 4 eexists. reflexivity.
  - eapply rtc_l; [|apply rtc_refl]. apply (loop_call _ _ hold_call (mkProviderState [] 0) _ _ []); reflexivity.
Defined.

Definition locked_deps : ServiceDeps :=
  service_deps None false (Some (cashu_escrow_port (Some (mint_wallet [])) (one_entry "htlc"))) None None.

Lemma selected_token_locked_witness :
  exists entry decoded, jm_get "hold" (ps_tokenMap (one_entry "htlc")) = Some entry /\
    getDecodedToken (ee_token entry) None = Ok decoded /\ tok_proofs decoded <> [] /\
    Forall (htlc_locked_to "h1" "prov") (tok_proofs decoded).
Proof.
  apply (selected_token_locked locked_deps (Some (mint_wallet [])) (one_entry "htlc") (fun _ => True) "q1" "prov" None
    (mkSvcState [("q1", mkQuery "q1" None awaiting_offers "d" None None [] (num 0) (num 10) None None None None None None
       None None escrow_locked (Some (held_escrow None)) None None None None None None)] [] (num 0))
    (mkHtlcOutcome true (Some "Provider selected"))
    (mkQuery "q1" None awaiting_offers "d" None None [] (num 0) (num 10) None None None None None None
       None None escrow_locked (Some (held_escrow None)) None None None None None None)); try reflexivity.
  apply run_call_outcome. vm_compute. reflexivity.
Defined.

Lemma frost_lock_checked_witness :
  exists entry decoded, jm_get "hold" (fs_tokenMap (one_frost "p2pk")) = Some entry /\
    getDecodedToken (fe_token entry) None = Ok decoded /\
    Forall (frost_locked_to "group" "prov") (tok_proofs decoded).
Proof. apply (frost_lock_checked "group" (one_frost "p2pk") "hold" "h1" "prov"). reflexivity. Defined.

Definition bind_wallet : Wallet := mint_wallet [sample_proof "plain" 8].
Definition held_state : ProviderState :=
  (run_call (cep_createHold (Some (bind_wallet, "https://mint")) (Some (fun _ => Ok [])) hold_params false)
     (mkProviderState [] 0)).1.

Lemma hold_then_bind_drops_terms_witness :
  exists opts amount held bound,
    toOptions [addHashlock (VStr ""); addLockPubkey ["prov"]; requireLockSignatures 1;
               lockUntil (nadd (nfloor_div (num 7000) 1000) (num 3600)); addRefundPubkey (VStr "");
               requireRefundSignatures 1; sigAll] = Ok opts /\
    send_default bind_wallet amount held (Some opts) false = Ok bound.
Proof.
  eapply (hold_then_bind_drops_terms bind_wallet "https://mint" (fun _ => NaN) (num 7000) (Some (fun _ => Ok []))
    hold_params "cashu_htlc_1" "prov" "cashu_htlc_2" false false (mkProviderState [] 0) held_state);
    [|vm_compute; reflexivity|vm_compute; reflexivity].
  intros entry d He Hd. vm_compute in He. injection He as <-. vm_compute in Hd. injection Hd as <-.
  split; [done|]. intros p ->%list_elem_of_singleton. reflexivity.
Defined.

Definition frost_held : FrostProviderState :=
  (run_call (fep_createHold (Some (bind_wallet, "https://mint")) (Some (fun _ => Ok [])) hold_params false)
     (mkFrostState [] 0)).1.

Lemma frost_bind_keeps_terms_witness :
  exists opts, toOptions (frost_calls "prov" "group" "customer" (num 5000)) = Ok opts.
Proof.
  edestruct (frost_bind_keeps_terms bind_wallet "https://mint" (Some (fun _ => Ok [])) hold_params "group"
    "frost_p2pk_1" "prov" "frost_p2pk_2" false false (mkFrostState [] 0) frost_held) as (opts & _ & _ & _ & H & _);
    [vm_compute; reflexivity|vm_compute; reflexivity|].
  exists opts. exact H.
Defined.

(** A mint that honours the provider's share and refuses to spend again. *)
Definition refusing_wallet : Wallet :=
  mkWallet (fun r => if sr_amount r =ₙ num 7 then Ok (mkSendResult [mkProof "ks1" (num 7) "new" "C9" VUndef VUndef] None)
                     else Throw (mkExn "MintError" "proof already spent"))
    true true (fun _ => num 0) None None None (fun _ _ => []) [] None.

Lemma escrow_swap_respends_inputs_witness :
  executeEscrowSwap (Some (refusing_wallet, "https://mint")) [sample_proof "s" 8] "prov" "oracle" (num 1) false false = None.
Proof.
  eapply (escrow_swap_respends_inputs refusing_wallet "https://mint" [sample_proof "s" 8] "prov" "oracle" (num 1));
    try reflexivity; [done|].
  apply Forall_singleton. apply (bool_decide_unpack _). reflexivity.
Defined.
End witnesses.
