(* ===== verification/JsonCodec.v ===== *)
(** * A lawful JSON codec

    The JSON codec is the platform's; the development reaches it through the
    class [JSON] and its law.  This file gives one codec that satisfies the law
    (a self-delimiting binary encoding of what serialization keeps of a value),
    which shows that the law can hold and lets examples evaluate. *)

From S2P Require Import Prelude JsNum JsString JsValue.

Global Instance number_countable : Countable number.
Proof.
  refine (inj_countable' (fun n => match n with
            | NaN => inl (inl tt) | Infinity b => inl (inr b) | Finite m e => inr (m, e) end)
          (fun s => match s with
            | inl (inl _) => NaN | inl (inr b) => Infinity b | inr (m, e) => Finite m e end) _).
  by intros [].
Defined.

(** Values as trees: constructors are node tags, scalars leaves. *)
Fixpoint to_tree (v : jsval) : gen_tree (bool + number + string) :=
  match v with
  | VUndef => GenNode 0 []
  | VNull => GenNode 1 []
  | VBool b => GenLeaf (inl (inl b))
  | VNum n => GenLeaf (inl (inr n))
  | VStr s => GenLeaf (inr s)
  | VArr l => GenNode 2 (map to_tree l)
  | VObj o => GenNode 3 (map (fun kv => GenNode 4 [GenLeaf (inr kv.1); to_tree kv.2]) o)
  | VFun => GenNode 5 []
  end.

Fixpoint of_tree (t : gen_tree (bool + number + string)) : jsval :=
  match t with
  | GenLeaf (inl (inl b)) => VBool b
  | GenLeaf (inl (inr n)) => VNum n
  | GenLeaf (inr s) => VStr s
  | GenNode 0 _ => VUndef
  | GenNode 1 _ => VNull
  | GenNode 2 l => VArr (map of_tree l)
  | GenNode 3 l => VObj (map (fun c => match c with
                                       | GenNode 4 [GenLeaf (inr k); t'] => (k, of_tree t')
                                       | _ => ("", VUndef) end) l)
  | GenNode _ _ => VFun
  end.

(** Induction on values, through arrays and objects. *)
Fixpoint jsval_induction (P : jsval -> Prop)
    (Hflat : forall v, match v with VArr _ | VObj _ => False | _ => True end -> P v)
    (Harr : forall l, Forall P l -> P (VArr l))
    (Hobj : forall o, Forall (fun kv => P kv.2) o -> P (VObj o)) (v : jsval) : P v :=
  match v with
  | VArr l => Harr l ((fix go l : Forall P l := match l with
      | [] => Forall_nil_2 _
      | x :: l' => Forall_cons_2 _ _ _ (jsval_induction P Hflat Harr Hobj x) (go l') end) l)
  | VObj o => Hobj o ((fix go o : Forall (fun kv => P kv.2) o := match o with
      | [] => Forall_nil_2 _
      | kv :: o' => Forall_cons_2 _ _ _ (match kv as p return P p.2 with (_, x) => jsval_induction P Hflat Harr Hobj x end) (go o') end) o)
  | VUndef => Hflat VUndef I
  | VNull => Hflat VNull I
  | VBool b => Hflat (VBool b) I
  | VNum n => Hflat (VNum n) I
  | VStr s => Hflat (VStr s) I
  | VFun => Hflat VFun I
  end.

Lemma of_to_tree v : of_tree (to_tree v) = v.
Proof.
  induction v as [v Hv|l IH|o IH] using jsval_induction; simpl.
  - by destruct v.
  - f_equal. rewrite map_map. induction IH as [|x l Hx _ IH]; simpl; [done|]. by rewrite Hx, IH.
  - f_equal. rewrite map_map. induction IH as [|[k x] l Hx _ IH]; simpl in *; [done|]. by rewrite Hx, IH.
Qed.

Global Instance jsval_countable_eq : EqDecision jsval.
Proof.
  intros v w. destruct (decide (encode (to_tree v) = encode (to_tree w))) as [E|E].
  - left. apply (inj encode) in E. by rewrite <- (of_to_tree v), <- (of_to_tree w), E.
  - right. by intros ->.
Defined.

(** Bit strings of positive numbers. *)
Fixpoint bits_of (p : positive) : string :=
  match p with
  | xH => ""
  | xO q => String.String (Ascii.ascii_of_nat 48) (bits_of q)
  | xI q => String.String (Ascii.ascii_of_nat 49) (bits_of q)
  end.
Fixpoint of_bits (s : string) : positive :=
  match s with
  | String.EmptyString => xH
  | String.String c s' => if Nat.eqb (code c) 49 then xI (of_bits s') else xO (of_bits s')
  end.

Lemma of_bits_of p : of_bits (bits_of p) = p.
Proof. induction p; simpl; by rewrite ?IHp. Qed.

Definition codec_stringify (v : jsval) : string := bits_of (encode (to_tree (json_norm v))).
Definition codec_parse (s : string) : option jsval := of_tree <$> decode (of_bits s).

Definition codec : JSON := {| JSON_parse := codec_parse; JSON_stringify := codec_stringify |}.

Lemma codec_laws : JSONLaws codec.
Proof.
  constructor. intros v _ _. simpl. unfold codec_parse, codec_stringify.
  rewrite of_bits_of, decode_encode. simpl. by rewrite of_to_tree.
Qed.
