(* ===== verification/Nostr.v ===== *)
(** * Nostr events and NIP-44

    [packages/protocol/src/nostr.ts]: keys, events, tags and encryption.  Event
    finalization, key agreement and the NIP-44 cipher are those of
    [nostr-tools], reached through [NostrLib]; [NostrLaws] states what the code
    relies on: finalizing keeps the template and stamps the author's key, both
    ends of a conversation derive the same key, decryption inverts
    encryption under it, and a ciphertext is never empty. *)

From S2P Require Import Prelude JsNum JsMap JsString JsValue.

Definition KIND_QUERY_REQUEST : Z := 5300.
Definition KIND_QUERY_RESPONSE : Z := 6300.
Definition KIND_QUERY_FEEDBACK : Z := 7000.
Definition KIND_DIRECT_MESSAGE : Z := 4.
Definition KIND_ORACLE_ANNOUNCEMENT : Z := 30088.
Definition KIND_ORACLE_ATTESTATION : Z := 30103.

Notation SecretKey := (list Z) (only parsing).

Record Keypair := mkKeypair { kp_secretKey : SecretKey; kp_publicKey : string }.

Record EventTemplate := mkTemplate {
  et_kind : Z;
  et_created_at : number;
  et_content : string;
  et_tags : list (list string);
}.

Record Event := mkEvent {
  ev_id : string;
  ev_pubkey : string;
  ev_created_at : number;
  ev_kind : Z;
  ev_tags : list (list string);
  ev_content : string;
  ev_sig : string;
}.

Class NostrLib := {
  ConversationKey : Type;
  getPublicKey : SecretKey -> string;
  getConversationKey : SecretKey -> string -> res ConversationKey;
  nip44Encrypt : string -> ConversationKey -> res string;
  nip44Decrypt : string -> ConversationKey -> res string;
  finalizeEvent : EventTemplate -> SecretKey -> Event;
  nip19Decode : string -> res (string * jsval);  (* type and data *)
}.

Section nostr.
Context `{N : NostrLib}.

Definition encryptNip44 (content : string) (senderSecretKey : SecretKey) (recipientPubkey : string)
    : res string :=
  key ← getConversationKey senderSecretKey recipientPubkey;
  nip44Encrypt content key.

Definition decryptNip44 (ciphertext : string) (recipientSecretKey : SecretKey) (senderPubkey : string)
    : res string :=
  key ← getConversationKey recipientSecretKey senderPubkey;
  nip44Decrypt ciphertext key.

Definition signEvent (template : EventTemplate) (secretKey : SecretKey) : Event :=
  finalizeEvent template secretKey.

Definition generateKeypair (secretKey : SecretKey) : Keypair :=
  mkKeypair secretKey (getPublicKey secretKey).

Definition normalizePubkey (input : string) : res string :=
  if is_hex64 input then Ok (toLowerCase input)
  else if startsWith "npub1" input then
    decoded ← nip19Decode input;
    if decoded.1 !== "npub" then
      Throw (mkExn "Error" ("Expected npub bech32, got: " +:+ decoded.1))
    else Ok (opt_default "" (as_string decoded.2))
  else Throw (mkExn "Error" ("Not a valid pubkey (hex or npub): " +:+ input)).
End nostr.

(** [findTagValue]: the first tag of that key decides. *)
Fixpoint findTagValue (tags : list (list string)) (key : string) : option string :=
  match tags with
  | [] => None
  | t :: tags' => if bool_decide (t !! 0 = Some key) then t !! 1 else findTagValue tags' key
  end.

Definition findAllTagValues (tags : list (list string)) (key : string) : list string :=
  omap (fun t => if bool_decide (t !! 0 = Some key) then t !! 1 else None) tags.

(** [event.tags.find((t) => t[0] === key && t[1])]: a non-empty value. *)
Definition find_tag_nonempty (tags : list (list string)) (key : string) : option string :=
  match List.find (fun t => bool_decide (t !! 0 = Some key) &&
                            match truthy (t !! 1) with Some _ => true | None => false end) tags with
  | Some t => t !! 1
  | None => None
  end.

Class NostrLaws (N : NostrLib) := {
  finalize_keeps t sk :
    let e := finalizeEvent t sk in
    ev_kind e = et_kind t /\ ev_content e = et_content t /\ ev_tags e = et_tags t /\
    ev_created_at e = et_created_at t /\ ev_pubkey e = getPublicKey sk;
  conversation_symmetric a b :
    getConversationKey a (getPublicKey b) = getConversationKey b (getPublicKey a);
  decrypt_encrypt m key c : nip44Encrypt m key = Ok c -> nip44Decrypt c key = Ok m;
  encrypt_nonempty m key c : nip44Encrypt m key = Ok c -> c <> "";
}.

(** The recipient reads what the sender wrote. *)
Lemma nip44_roundtrip `{N : NostrLib} `{!NostrLaws N} m a b c :
  encryptNip44 m a (getPublicKey b) = Ok c -> decryptNip44 c b (getPublicKey a) = Ok m.
Proof.
  unfold encryptNip44, decryptNip44. rewrite (conversation_symmetric a b).
  intros (key & Hk & Hc)%bind_Ok. rewrite Hk. simpl. by eapply decrypt_encrypt.
Qed.

(** ** A concrete library, for the witnesses: keys are small numbers *)
Definition key_name (sk : SecretKey) : string := "pk" +:+ pretty (foldr Z.add 0%Z sk).
Definition toy_nostr : NostrLib := {|
  ConversationKey := unit;
  getPublicKey := key_name;
  getConversationKey := fun _ _ => Ok tt;
  nip44Encrypt := fun m _ => Ok ("enc:" +:+ m);
  nip44Decrypt := fun c _ => Ok (slice 4 c);
  finalizeEvent := fun t sk =>
    mkEvent "id" (key_name sk) (et_created_at t) (et_kind t) (et_tags t) (et_content t) "sig";
  nip19Decode := fun _ => Throw (mkExn "Error" "unsupported");
|}.

Lemma toy_nostr_laws : NostrLaws toy_nostr.
Proof.
  constructor; [done|done| |]; intros m key c H; simpl in *; injection H as <-; [by destruct m|done].
Qed.
