(* ===== verification/NostrEvents.v ===== *)
(** * Anchr event payloads

    [packages/protocol/src/events.ts]: builders and parsers of the eight
    payload formats carried by NIP-90 and direct-message events.  A builder
    returns the signed event (or throws when encryption does); a parser returns
    [None] where the source returns [null]. *)

From S2P Require Import Prelude JsNum JsMap JsString JsValue JsonCodec Nostr.

(** All formats are at version 0. *)
Definition QUERY_REQUEST_VERSION : Z := 0.
Definition OFFER_FEEDBACK_VERSION : Z := 0.
Definition SELECTION_FEEDBACK_VERSION : Z := 0.
Definition QUERY_RESPONSE_VERSION : Z := 0.
Definition ORACLE_QUERY_RESPONSE_VERSION : Z := 0.
Definition PREIMAGE_DELIVERY_VERSION : Z := 0.
Definition HASH_REQUEST_VERSION : Z := 0.
Definition HASH_RESPONSE_VERSION : Z := 0.

(** ** Payloads *)
Record QueryRequestPayload := mkQueryRequest {
  qr_query_id : string;
  qr_schema : string;
  qr_customer_pubkey : string;
  qr_oracle_pubkey : string;
  qr_max_amount_sats : number;
  qr_expires_at : number;
}.

Record OfferFeedbackPayload := mkOfferPayload {
  of_provider_pubkey : string;
  of_amount_sats : number;
}.

Record ParsedOfferFeedback := mkParsedOffer {
  po_provider_pubkey : string;
  po_amount_sats : number;
  po_request_event_id : string;
  po_customer_pubkey : string;
}.

Record SelectionExecutionPayload := mkExecution {
  ex_schema : string;
  ex_predicate : jsval;
  ex_description : option string;
  ex_context : option jsval;
  ex_mint_url : string;
  ex_max_amount_sats : number;
  ex_amount_sats : number;
  ex_locktime_seconds : number;
}.

Record SelectionFeedbackPayload := mkSelection {
  sf_selected_provider_pubkey : string;
  sf_provider_redemption_token : string;
  sf_execution : SelectionExecutionPayload;
}.

Record QueryResponsePayload := mkResponse {
  rp_schema : string;
  rp_data : jsval;
  rp_proof : string;
}.

Record OracleQueryResponsePayload := mkOracleResponse {
  or_schema : string;
  or_data : jsval;
  or_proof : string;
  or_query_id : string;
  or_request_event_id : string;
}.

Record PreimageDeliveryPayload := mkPreimageDelivery {
  pd_query_id : string;
  pd_request_event_id : string;
  pd_preimage : string;
}.

Record HashResponsePayload := mkHashResponse { hr_query_id : string; hr_hash : string }.

Section events.
Context `{N : NostrLib} `{J : JSON}.

Definition stringifyPayload (payload : list (string * jsval)) (version : Z) : string :=
  JSON_stringify (VObj (set_field "version" (VNum (num version)) payload)).

Definition hasVersion (payload : jsval) (version : Z) : bool :=
  eq_num (prop "version" payload) (num version).

(** [JSON.parse] and the object check shared by the parsers. *)
Definition parse_record (text : string) : option jsval :=
  match JSON_parse text with
  | Some v => if isRecord v then Some v else None
  | None => None
  end.

Definition decrypt_record (ciphertext : string) (sk : SecretKey) (senderPubkey : string) : option jsval :=
  match decryptNip44 ciphertext sk senderPubkey with
  | Ok plaintext => parse_record plaintext
  | Throw _ => None
  end.

(** [Math.floor(Date.now() / 1000)] *)
Definition seconds (nowMs : number) : number := nfloor_div nowMs 1000.

(** ** Kind 5300: request notice *)
Definition request_fields (p : QueryRequestPayload) : list (string * jsval) :=
  [("query_id", VStr (qr_query_id p)); ("schema", VStr (qr_schema p));
   ("customer_pubkey", VStr (qr_customer_pubkey p)); ("oracle_pubkey", VStr (qr_oracle_pubkey p));
   ("max_amount_sats", VNum (qr_max_amount_sats p)); ("expires_at", VNum (qr_expires_at p))].

Definition buildQueryRequestEvent (identity : Keypair) (payload : QueryRequestPayload)
    (regionCode : option string) (nowMs : number) : Event :=
  let tags := [["d"; qr_query_id payload]; ["t"; "anchr"];
               ["p"; qr_oracle_pubkey payload; ""; "oracle"]; ["s"; qr_schema payload]] ++
              match regionCode with
              | Some r => if str_truthy r then [["region"; toUpperCase r]] else []
              | None => []
              end in
  signEvent (mkTemplate KIND_QUERY_REQUEST (seconds nowMs)
               (stringifyPayload (request_fields payload) QUERY_REQUEST_VERSION) tags)
    (kp_secretKey identity).

(** Execution and payment fields that must not appear in a public notice. *)
Definition private_fields : list string :=
  ["predicate"; "context"; "mint_url"; "payment_lock_token"; "payment_lock"; "bounty_token";
   "provider_redemption_token"; "locktime_seconds"].

Definition parseQueryRequestEvent (event : Event) : option QueryRequestPayload :=
  if negb (Z.eqb (ev_kind event) KIND_QUERY_REQUEST) then None
  else
  match parse_record (ev_content event) with
  | None => None
  | Some p =>
  if negb (hasVersion p QUERY_REQUEST_VERSION) then None
  else if existsb (fun k => has_prop k p) private_fields then None
  else
  match prop "query_id" p, prop "schema" p, prop "customer_pubkey" p, prop "oracle_pubkey" p,
        prop "max_amount_sats" p, prop "expires_at" p with
  | VStr query_id, VStr schema, VStr customer, VStr oracle, VNum max_amount, VNum expires =>
      Some (mkQueryRequest query_id schema customer oracle max_amount expires)
  | _, _, _, _, _, _ => None
  end end.

(** ** Kind 7000: offer *)
Definition offer_fields (p : OfferFeedbackPayload) : list (string * jsval) :=
  [("status", VStr "payment-required"); ("provider_pubkey", VStr (of_provider_pubkey p));
   ("amount_sats", VNum (of_amount_sats p))].

Definition buildOfferFeedbackEvent (identity : Keypair) (requestEventId customerPubkey : string)
    (payload : OfferFeedbackPayload) (nowMs : number) : Event :=
  signEvent (mkTemplate KIND_QUERY_FEEDBACK (seconds nowMs)
               (stringifyPayload (offer_fields payload) OFFER_FEEDBACK_VERSION)
               [["e"; requestEventId; ""; "request"]; ["p"; customerPubkey];
                ["status"; "payment-required"]])
    (kp_secretKey identity).

Definition parseOfferFeedbackEvent (event : Event) : option ParsedOfferFeedback :=
  if negb (Z.eqb (ev_kind event) KIND_QUERY_FEEDBACK) then None
  else
  match parse_record (ev_content event) with
  | None => None
  | Some p =>
  if negb (hasVersion p OFFER_FEEDBACK_VERSION) || negb (eq_str (prop "status" p) "payment-required")
  then None
  else
  match prop "provider_pubkey" p, prop "amount_sats" p with
  | VStr provider_pubkey, VNum amount_sats =>
      if provider_pubkey !== ev_pubkey event then None
      else
      match find_tag_nonempty (ev_tags event) "e", find_tag_nonempty (ev_tags event) "p" with
      | Some requestEventId, Some customerPubkey =>
          Some (mkParsedOffer provider_pubkey amount_sats requestEventId customerPubkey)
      | _, _ => None
      end
  | _, _ => None
  end end.

(** ** Kind 7000: selection *)
Definition execution_fields (e : SelectionExecutionPayload) : list (string * jsval) :=
  [("schema", VStr (ex_schema e)); ("predicate", ex_predicate e);
   ("description", str_field (ex_description e)); ("context", opt_field (ex_context e));
   ("mint_url", VStr (ex_mint_url e)); ("max_amount_sats", VNum (ex_max_amount_sats e));
   ("amount_sats", VNum (ex_amount_sats e)); ("locktime_seconds", VNum (ex_locktime_seconds e))].

Definition selection_fields (p : SelectionFeedbackPayload) : list (string * jsval) :=
  [("status", VStr "processing"); ("selected_provider_pubkey", VStr (sf_selected_provider_pubkey p));
   ("provider_redemption_token", VStr (sf_provider_redemption_token p));
   ("execution", VObj (execution_fields (sf_execution p)))].

Definition buildSelectionFeedbackEvent (identity : Keypair) (requestEventId : string)
    (payload : SelectionFeedbackPayload) (nowMs : number) : res Event :=
  ciphertext ← encryptNip44 (stringifyPayload (selection_fields payload) SELECTION_FEEDBACK_VERSION)
                 (kp_secretKey identity) (sf_selected_provider_pubkey payload);
  Ok (signEvent (mkTemplate KIND_QUERY_FEEDBACK (seconds nowMs) ciphertext
                   [["e"; requestEventId; ""; "request"]; ["p"; sf_selected_provider_pubkey payload];
                    ["status"; "processing"]])
        (kp_secretKey identity)).

Definition parse_execution (e : jsval) : option SelectionExecutionPayload :=
  match prop "schema" e, prop "max_amount_sats" e, prop "amount_sats" e, prop "mint_url" e,
        prop "locktime_seconds" e with
  | VStr schema, VNum max_amount, VNum amount, VStr mint_url, VNum locktime =>
      if negb (has_prop "predicate" e) then None
      else Some (mkExecution schema (prop "predicate" e) (as_string (prop "description" e))
                   (if isRecord (prop "context" e) then Some (prop "context" e) else None)
                   mint_url max_amount amount locktime)
  | _, _, _, _, _ => None
  end.

Definition parseSelectionFeedbackEvent (event : Event) (recipientSecretKey : SecretKey)
    (senderPubkey : string) : option SelectionFeedbackPayload :=
  if negb (Z.eqb (ev_kind event) KIND_QUERY_FEEDBACK) then None
  else
  match decrypt_record (ev_content event) recipientSecretKey senderPubkey with
  | None => None
  | Some p =>
  if negb (hasVersion p SELECTION_FEEDBACK_VERSION) || negb (eq_str (prop "status" p) "processing")
  then None
  else
  match prop "selected_provider_pubkey" p, prop "provider_redemption_token" p with
  | VStr selected, VStr token =>
      if negb (isRecord (prop "execution" p)) then None
      else
      match parse_execution (prop "execution" p) with
      | None => None
      | Some execution =>
          if bool_decide (findTagValue (ev_tags event) "p" <> Some selected) then None
          else Some (mkSelection selected token execution)
      end
  | _, _ => None
  end end.

(** ** Kind 6300: result, for the customer and (in a tag) for the oracle *)

Definition base64Encode (bytes : list Z) : string := btoa bytes.

(** [proof instanceof Uint8Array ? base64Encode(proof) : proof] *)
Definition proof_for_json (proof : list Z + string) : string :=
  match proof with inl bytes => base64Encode bytes | inr s => s end.

Definition response_fields (schema : string) (data : jsval) (proof : string) : list (string * jsval) :=
  [("version", VNum (num QUERY_RESPONSE_VERSION)); ("schema", VStr schema); ("data", data);
   ("proof", VStr proof)].
Definition oracle_response_fields (schema : string) (data : jsval) (proof query_id request_event_id : string)
    : list (string * jsval) :=
  [("version", VNum (num ORACLE_QUERY_RESPONSE_VERSION)); ("schema", VStr schema); ("data", data);
   ("proof", VStr proof); ("query_id", VStr query_id); ("request_event_id", VStr request_event_id)].

Definition buildQueryResponseEvent (identity : Keypair)
    (requestEventId customerPubkey : string) (schema : string) (data : jsval) (proof : list Z + string)
    (oraclePubkey queryId : option string) (nowMs : number) : res Event :=
  let proofForJson := proof_for_json proof in
  ciphertext ← encryptNip44 (JSON_stringify (VObj (response_fields schema data proofForJson)))
                 (kp_secretKey identity) customerPubkey;
  let tags := [["e"; requestEventId; ""; "request"]; ["p"; customerPubkey]] in
  oracleTags ← match oraclePubkey with
               | None => Ok []
               | Some oracle =>
                   oracle_payload ← encryptNip44
                     (JSON_stringify (VObj (oracle_response_fields schema data proofForJson
                        (opt_default requestEventId queryId) requestEventId)))
                     (kp_secretKey identity) oracle;
                   Ok [["p"; oracle; ""; "oracle"]; ["oracle_payload"; oracle_payload]]
               end;
  Ok (signEvent (mkTemplate KIND_QUERY_RESPONSE (seconds nowMs) ciphertext (tags ++ oracleTags))
        (kp_secretKey identity)).

Definition parseQueryResponseEvent (event : Event) (recipientSecretKey : SecretKey)
    (senderPubkey : string) : option QueryResponsePayload :=
  if negb (Z.eqb (ev_kind event) KIND_QUERY_RESPONSE) then None
  else
  match decrypt_record (ev_content event) recipientSecretKey senderPubkey with
  | None => None
  | Some p =>
  if negb (hasVersion p QUERY_RESPONSE_VERSION) || negb (has_prop "data" p) then None
  else
  match prop "schema" p, prop "proof" p with
  | VStr schema, VStr proof => Some (mkResponse schema (prop "data" p) proof)
  | _, _ => None
  end end.

Definition parseOracleQueryResponseEvent (event : Event) (oracleSecretKey : SecretKey)
    (providerPubkey : string) : option OracleQueryResponsePayload :=
  if negb (Z.eqb (ev_kind event) KIND_QUERY_RESPONSE) then None
  else
  match find_tag_nonempty (ev_tags event) "oracle_payload" with
  | None => None
  | Some ciphertext =>
  match decrypt_record ciphertext oracleSecretKey providerPubkey with
  | None => None
  | Some p =>
  if negb (hasVersion p ORACLE_QUERY_RESPONSE_VERSION) || negb (has_prop "data" p) then None
  else
  match prop "schema" p, prop "query_id" p, prop "request_event_id" p, prop "proof" p with
  | VStr schema, VStr query_id, VStr request_event_id, VStr proof =>
      Some (mkOracleResponse schema (prop "data" p) proof query_id request_event_id)
  | _, _, _, _ => None
  end end end.

(** ** Kind 4: preimage delivery and hash bootstrap *)
Definition build_dm (identity : Keypair) (recipientPubkey plaintext : string) (nowMs : number) : res Event :=
  ciphertext ← encryptNip44 plaintext (kp_secretKey identity) recipientPubkey;
  Ok (signEvent (mkTemplate KIND_DIRECT_MESSAGE (seconds nowMs) ciphertext [["p"; recipientPubkey]])
        (kp_secretKey identity)).

Definition decryptDmJson (event : Event) (recipientSecretKey : SecretKey) (senderPubkey : string)
    : option jsval :=
  if negb (Z.eqb (ev_kind event) KIND_DIRECT_MESSAGE) then None
  else decrypt_record (ev_content event) recipientSecretKey senderPubkey.

Definition preimage_fields (p : PreimageDeliveryPayload) : list (string * jsval) :=
  [("query_id", VStr (pd_query_id p)); ("request_event_id", VStr (pd_request_event_id p));
   ("preimage", VStr (pd_preimage p))].

Definition buildPreimageDeliveryEvent (identity : Keypair) (recipientPubkey : string)
    (payload : PreimageDeliveryPayload) (nowMs : number) : res Event :=
  build_dm identity recipientPubkey
    (stringifyPayload (preimage_fields payload) PREIMAGE_DELIVERY_VERSION) nowMs.

Definition parsePreimageDeliveryEvent (event : Event) (recipientSecretKey : SecretKey)
    (senderPubkey : string) : option PreimageDeliveryPayload :=
  match decryptDmJson event recipientSecretKey senderPubkey with
  | None => None
  | Some p =>
  if negb (hasVersion p PREIMAGE_DELIVERY_VERSION) then None
  else
  match prop "query_id" p, prop "request_event_id" p, prop "preimage" p with
  | VStr query_id, VStr request_event_id, VStr preimage =>
      Some (mkPreimageDelivery query_id request_event_id preimage)
  | _, _, _ => None
  end end.

Definition buildHashRequestEvent (identity : Keypair) (oraclePubkey query_id : string) (nowMs : number)
    : res Event :=
  build_dm identity oraclePubkey
    (stringifyPayload [("type", VStr "hash_request"); ("query_id", VStr query_id)] HASH_REQUEST_VERSION)
    nowMs.

Definition parseHashRequestEvent (event : Event) (recipientSecretKey : SecretKey) (senderPubkey : string)
    : option string :=
  match decryptDmJson event recipientSecretKey senderPubkey with
  | None => None
  | Some p =>
  if negb (hasVersion p HASH_REQUEST_VERSION) || negb (eq_str (prop "type" p) "hash_request") then None
  else as_string (prop "query_id" p)
  end.

Definition buildHashResponseEvent (identity : Keypair) (recipientPubkey : string)
    (payload : HashResponsePayload) (nowMs : number) : res Event :=
  build_dm identity recipientPubkey
    (stringifyPayload [("type", VStr "hash_response"); ("query_id", VStr (hr_query_id payload));
                       ("hash", VStr (hr_hash payload))] HASH_RESPONSE_VERSION) nowMs.

Definition parseHashResponseEvent (event : Event) (recipientSecretKey : SecretKey)
    (senderPubkey : string) : option HashResponsePayload :=
  match decryptDmJson event recipientSecretKey senderPubkey with
  | None => None
  | Some p =>
  if negb (hasVersion p HASH_RESPONSE_VERSION) || negb (eq_str (prop "type" p) "hash_response") then None
  else
  match prop "query_id" p, prop "hash" p with
  | VStr query_id, VStr hash => Some (mkHashResponse query_id hash)
  | _, _ => None
  end end.

(** ** Specification *)

(** What serialization keeps of an execution payload. *)
Definition execution_norm (e : SelectionExecutionPayload) : SelectionExecutionPayload :=
  mkExecution (ex_schema e) (json_norm (ex_predicate e)) (ex_description e) (json_norm <$> ex_context e)
    (ex_mint_url e) (ex_max_amount_sats e) (ex_amount_sats e) (ex_locktime_seconds e).

(** Amounts and times are finite, the predicate is serializable, a context is an object. *)
Definition execution_sendable (e : SelectionExecutionPayload) : Prop :=
  isFinite (ex_max_amount_sats e) = true /\ isFinite (ex_amount_sats e) = true /\
  isFinite (ex_locktime_seconds e) = true /\ keep_field (ex_predicate e) = true /\
  (forall c, ex_context e = Some c -> isRecord c = true).
End events.

(** ** Round trips of the event payloads

    What a recipient parses from an event built for it, under the laws of the
    JSON codec and of NIP-44, and what an accepted event is known to satisfy. *)

Section spec.
Context `{N : NostrLib} `{J : JSON} `{!NostrLaws N} `{!JSONLaws J}.

(** A parsed payload is the normal form of what was serialized. *)
Lemma parse_record_stringify o :
  json_ok (VObj o) -> parse_record (JSON_stringify (VObj o)) = Some (json_norm (VObj o)).
Proof. intros H. unfold parse_record. by rewrite (parse_stringify (VObj o)). Qed.

Lemma decrypt_record_stringify o a b c :
  json_ok (VObj o) -> encryptNip44 (JSON_stringify (VObj o)) a (getPublicKey b) = Ok c ->
  decrypt_record c b (getPublicKey a) = Some (json_norm (VObj o)).
Proof.
  intros Ho Hc. unfold decrypt_record. rewrite (nip44_roundtrip _ a b c Hc). by apply parse_record_stringify.
Qed.

(** Finalization keeps the template and stamps the author. *)
Lemma ev_kind_signed k t c tags sk : ev_kind (signEvent (mkTemplate k t c tags) sk) = k.
Proof. apply (finalize_keeps (mkTemplate k t c tags) sk). Qed.
Lemma ev_content_signed k t c tags sk : ev_content (signEvent (mkTemplate k t c tags) sk) = c.
Proof. apply (finalize_keeps (mkTemplate k t c tags) sk). Qed.
Lemma ev_tags_signed k t c tags sk : ev_tags (signEvent (mkTemplate k t c tags) sk) = tags.
Proof. apply (finalize_keeps (mkTemplate k t c tags) sk). Qed.
Lemma ev_pubkey_signed t sk : ev_pubkey (signEvent t sk) = getPublicKey sk.
Proof. apply (finalize_keeps t sk). Qed.

(** A field that survives serialization reads back as its normal form. *)
Lemma prop_json_norm_here k v o : keep_field v = true -> prop k (json_norm (VObj ((k, v) :: o))) = json_norm v.
Proof.
  intros Hv. rewrite json_norm_obj_cons. destruct (json_norm (VObj o)) eqn:E; try (by destruct o as [|[? []] ?]).
  rewrite Hv. simpl. by rewrite bool_decide_true.
Qed.

Lemma json_norm_obj o : exists o', json_norm (VObj o) = VObj o'.
Proof. simpl. by eexists. Qed.

Lemma prop_json_norm_skip k k' v o :
  k <> k' -> prop k (json_norm (VObj ((k', v) :: o))) = prop k (json_norm (VObj o)).
Proof.
  intros Hk. rewrite json_norm_obj_cons. destruct (json_norm_obj o) as [o' ->].
  destruct (keep_field v); [|done]. simpl. by rewrite bool_decide_false.
Qed.

Lemma prop_json_norm_drop k k' v o :
  keep_field v = false -> prop k (json_norm (VObj ((k', v) :: o))) = prop k (json_norm (VObj o)).
Proof.
  intros Hv. rewrite json_norm_obj_cons. destruct (json_norm_obj o) as [o' ->]. by rewrite Hv.
Qed.

Lemma has_prop_json_norm_here k v o : keep_field v = true -> has_prop k (json_norm (VObj ((k, v) :: o))) = true.
Proof.
  intros Hv. rewrite json_norm_obj_cons. destruct (json_norm_obj o) as [o' ->].
  rewrite Hv. simpl. by rewrite bool_decide_true.
Qed.

Lemma has_prop_json_norm_skip k k' v o :
  k <> k' -> has_prop k (json_norm (VObj ((k', v) :: o))) = has_prop k (json_norm (VObj o)).
Proof.
  intros Hk. rewrite json_norm_obj_cons. destruct (json_norm_obj o) as [o' ->].
  destruct (keep_field v); [|done]. simpl. by rewrite bool_decide_false.
Qed.

Lemma isRecord_json_norm v : isRecord v = true -> isRecord (json_norm v) = true.
Proof. by destruct v. Qed.

Lemma json_norm_num n : isFinite n = true -> json_norm (VNum n) = VNum n.
Proof. intros H. simpl. by rewrite H. Qed.
End spec.

(** Reads a field of a serialized object by walking its field list. *)
Ltac read_field :=
  repeat (first [ rewrite prop_json_norm_here by done | rewrite prop_json_norm_skip by done
                | rewrite has_prop_json_norm_here by done | rewrite has_prop_json_norm_skip by done ]).

Section properties.
Context `{N : NostrLib} `{J : JSON} `{!NostrLaws N} `{!JSONLaws J}.

Lemma parse_execution_norm e :
  execution_sendable e -> parse_execution (json_norm (VObj (execution_fields e))) = Some (execution_norm e).
Proof.
  intros (H1 & H2 & H3 & H4 & H5). unfold parse_execution, execution_fields. read_field.
  rewrite !json_norm_num by done. simpl negb. unfold execution_norm. repeat f_equal.
  - destruct (ex_description e); simpl str_field; [by read_field|].
    rewrite prop_json_norm_drop by done. read_field.
    destruct (ex_context e); simpl opt_field; read_field; done.
  - repeat rewrite prop_json_norm_skip by done. destruct (ex_context e) as [c|] eqn:Ec; simpl opt_field.
    + specialize (H5 _ eq_refl). rewrite prop_json_norm_here by (by destruct c).
      simpl. by rewrite isRecord_json_norm.
    + rewrite prop_json_norm_drop by done. by read_field.
Qed.

(** Tag lookup on a list whose head is known. *)
Lemma find_tag_nonempty_here k v t tags :
  v <> "" -> find_tag_nonempty ((k :: v :: t) :: tags) k = Some v.
Proof.
  intros Hv. unfold find_tag_nonempty. simpl. rewrite bool_decide_true by done.
  unfold str_truthy. by rewrite bool_decide_false.
Qed.
Lemma find_tag_nonempty_skip k k' t tags :
  k <> k' -> find_tag_nonempty ((k' :: t) :: tags) k = find_tag_nonempty tags k.
Proof. intros Hk. unfold find_tag_nonempty. simpl. by rewrite bool_decide_false by congruence. Qed.

Lemma encrypted_nonempty m sk pk c : encryptNip44 m sk pk = Ok c -> c <> "".
Proof. intros (key & _ & Hc)%bind_Ok. by eapply encrypt_nonempty. Qed.

(** * Properties *)

(** Request notices round-trip: a notice with finite amount and expiry parses
    back to itself, whoever built it and with whatever region. *)
Theorem request_notice_roundtrip kp p region now :
  json_ok (VObj (set_field "version" (VNum (num QUERY_REQUEST_VERSION)) (request_fields p))) ->
  isFinite (qr_max_amount_sats p) = true -> isFinite (qr_expires_at p) = true ->
  parseQueryRequestEvent (buildQueryRequestEvent kp p region now) = Some p.
Proof.
  intros Hok H1 H2. unfold parseQueryRequestEvent, buildQueryRequestEvent.
  rewrite ev_kind_signed, ev_content_signed, Z.eqb_refl. cbn [negb]. unfold stringifyPayload.
  rewrite parse_record_stringify by done. unfold hasVersion. simpl set_field.
  unfold private_fields. cbn [existsb]. read_field. rewrite !json_norm_num by done. simpl. by destruct p.
Qed.

(** Whatever a relay serves, an accepted notice carries none of the private
    execution and payment fields. *)
Theorem request_notice_is_public event p k v :
  parseQueryRequestEvent event = Some p -> parse_record (ev_content event) = Some v ->
  k ∈ private_fields -> has_prop k v = false.
Proof.
  unfold parseQueryRequestEvent. intros H Hv Hk. rewrite Hv in H. repeat case_match; simplify_eq/=.
  destruct (has_prop k v) eqn:E; [|done].
  assert (existsb (fun k => has_prop k v) private_fields = true) as Hex; [|simpl in Hex; congruence].
  apply existsb_exists. exists k. split; [by apply list_elem_of_In|done].
Qed.

(** A provider's own offer round-trips to the customer's view of it. *)
Theorem offer_roundtrip kp req customer p now :
  json_ok (VObj (set_field "version" (VNum (num OFFER_FEEDBACK_VERSION)) (offer_fields p))) ->
  isFinite (of_amount_sats p) = true -> of_provider_pubkey p = getPublicKey (kp_secretKey kp) ->
  req <> "" -> customer <> "" ->
  parseOfferFeedbackEvent (buildOfferFeedbackEvent kp req customer p now) =
  Some (mkParsedOffer (of_provider_pubkey p) (of_amount_sats p) req customer).
Proof.
  intros Hok H1 Hpk Hreq Hcust. unfold parseOfferFeedbackEvent, buildOfferFeedbackEvent.
  rewrite ev_kind_signed, ev_content_signed, ev_tags_signed, ev_pubkey_signed, Z.eqb_refl. cbn [negb].
  unfold stringifyPayload. rewrite parse_record_stringify by done. unfold hasVersion. simpl set_field.
  read_field. rewrite !json_norm_num by done. simpl.
  rewrite (bool_decide_true (of_provider_pubkey p = _)) by done. simpl.
  rewrite (find_tag_nonempty_here "e"), find_tag_nonempty_skip, find_tag_nonempty_here by done. done.
Qed.

(** An accepted offer is signed by the provider it names. *)
Lemma offer_author event o :
  parseOfferFeedbackEvent event = Some o ->
  po_provider_pubkey o = ev_pubkey event /\
  find_tag_nonempty (ev_tags event) "e" = Some (po_request_event_id o) /\
  find_tag_nonempty (ev_tags event) "p" = Some (po_customer_pubkey o).
Proof.
  unfold parseOfferFeedbackEvent. intros H. repeat case_match; simplify_eq/=. bool_to_prop. done.
Qed.

(** Whatever a relay serves, an accepted offer names the key that signed the
    event, and the request and customer of its tags. *)
Theorem offer_attributed event o :
  parseOfferFeedbackEvent event = Some o ->
  po_provider_pubkey o = ev_pubkey event /\
  find_tag_nonempty (ev_tags event) "e" = Some (po_request_event_id o) /\
  find_tag_nonempty (ev_tags event) "p" = Some (po_customer_pubkey o).
Proof. apply offer_author. Qed.

(** Reading a selection back. *)
Lemma selection_reads_back kp sk req p now event :
  json_ok (VObj (set_field "version" (VNum (num SELECTION_FEEDBACK_VERSION)) (selection_fields p))) ->
  execution_sendable (sf_execution p) -> sf_selected_provider_pubkey p = getPublicKey sk ->
  buildSelectionFeedbackEvent kp req p now = Ok event ->
  parseSelectionFeedbackEvent event sk (getPublicKey (kp_secretKey kp)) =
  Some (mkSelection (sf_selected_provider_pubkey p) (sf_provider_redemption_token p)
          (execution_norm (sf_execution p))).
Proof.
  intros Hok Hex Hpk (c & Hc & H)%bind_Ok. injection H as <-. unfold parseSelectionFeedbackEvent.
  rewrite ev_kind_signed, ev_content_signed, ?ev_tags_signed, Z.eqb_refl. cbn [negb].
  unfold stringifyPayload in Hc. rewrite Hpk in Hc.
  rewrite (decrypt_record_stringify _ _ _ _ Hok Hc). unfold hasVersion. simpl set_field.
  read_field. rewrite !json_norm_num by done.
  change (json_norm (VStr ?s)) with (VStr s). cbv beta iota.
  rewrite isRecord_json_norm by done. rewrite parse_execution_norm by done. simpl eq_num. simpl eq_str. cbn [negb orb].
  simpl findTagValue. rewrite bool_decide_false; [done|]. rewrite Hpk. by intros [].
Qed.

(** The selected provider, and it alone by its key, reads back the selection:
    token and execution context as serialized. *)
Theorem selection_roundtrip kp sk req p now event :
  json_ok (VObj (set_field "version" (VNum (num SELECTION_FEEDBACK_VERSION)) (selection_fields p))) ->
  execution_sendable (sf_execution p) -> sf_selected_provider_pubkey p = getPublicKey sk ->
  buildSelectionFeedbackEvent kp req p now = Ok event ->
  parseSelectionFeedbackEvent event sk (getPublicKey (kp_secretKey kp)) =
  Some (mkSelection (sf_selected_provider_pubkey p) (sf_provider_redemption_token p)
          (execution_norm (sf_execution p))).
Proof. apply selection_reads_back. Qed.

(** The customer reads back the response, the proof in base64 when it was bytes. *)
Theorem response_roundtrip kp sk req schema data proof oracle qid now event :
  json_ok (VObj (response_fields schema data (proof_for_json proof))) -> keep_field data = true ->
  buildQueryResponseEvent kp req (getPublicKey sk) schema data proof oracle qid now = Ok event ->
  parseQueryResponseEvent event sk (getPublicKey (kp_secretKey kp)) =
  Some (mkResponse schema (json_norm data) (proof_for_json proof)).
Proof.
  intros Hok Hd H. apply bind_Ok in H as (c & Hc & H). apply bind_Ok in H as (tags & _ & H).
  injection H as <-. unfold parseQueryResponseEvent.
  rewrite ev_kind_signed, ev_content_signed, Z.eqb_refl. cbn [negb].
  rewrite (decrypt_record_stringify _ _ _ _ Hok Hc). unfold hasVersion, response_fields.
  read_field. done.
Qed.

(** The oracle named in the response reads back its own copy, bound to the
    query and to the request event. *)
Theorem oracle_response_roundtrip kp sk req customer schema data proof qid now event :
  json_ok (VObj (oracle_response_fields schema data (proof_for_json proof) (opt_default req qid) req)) ->
  keep_field data = true ->
  buildQueryResponseEvent kp req customer schema data proof (Some (getPublicKey sk)) qid now = Ok event ->
  parseOracleQueryResponseEvent event sk (getPublicKey (kp_secretKey kp)) =
  Some (mkOracleResponse schema (json_norm data) (proof_for_json proof) (opt_default req qid) req).
Proof.
  intros Hok Hd H. apply bind_Ok in H as (c & _ & H). apply bind_Ok in H as (tags & Ht & H).
  injection H as <-. apply bind_Ok in Ht as (o & Ho & Ht). injection Ht as <-.
  unfold parseOracleQueryResponseEvent. rewrite ev_kind_signed, ev_tags_signed, Z.eqb_refl. cbn [negb app].
  rewrite 3!find_tag_nonempty_skip by done. rewrite find_tag_nonempty_here by (by eapply encrypted_nonempty).
  rewrite (decrypt_record_stringify _ _ _ _ Hok Ho). unfold hasVersion, oracle_response_fields.
  read_field. done.
Qed.

(** Direct messages carry their payload to the recipient. *)
Lemma dm_roundtrip kp sk o now event :
  json_ok (VObj o) -> build_dm kp (getPublicKey sk) (JSON_stringify (VObj o)) now = Ok event ->
  decryptDmJson event sk (getPublicKey (kp_secretKey kp)) = Some (json_norm (VObj o)).
Proof.
  intros Hok H. apply bind_Ok in H as (c & Hc & H). injection H as <-. unfold decryptDmJson.
  rewrite ev_kind_signed, ev_content_signed, Z.eqb_refl. cbn [negb].
  by apply decrypt_record_stringify.
Qed.

(** C38: The three direct-message formats round-trip between the sender's key and the
    recipient's, for every query id, hash and preimage, and no message is read as one
    of another kind. *)
Theorem direct_messages_roundtrip kp sk now qid (pd : PreimageDeliveryPayload) (hr : HashResponsePayload)
    e_req e_resp e_pre :
  buildHashRequestEvent kp (getPublicKey sk) qid now = Ok e_req ->
  buildHashResponseEvent kp (getPublicKey sk) hr now = Ok e_resp ->
  buildPreimageDeliveryEvent kp (getPublicKey sk) pd now = Ok e_pre ->
  let from := getPublicKey (kp_secretKey kp) in
  parseHashRequestEvent e_req sk from = Some qid /\ parseHashResponseEvent e_resp sk from = Some hr /\
  parsePreimageDeliveryEvent e_pre sk from = Some pd /\
  parseHashRequestEvent e_resp sk from = None /\ parseHashRequestEvent e_pre sk from = None /\
  parseHashResponseEvent e_req sk from = None /\ parseHashResponseEvent e_pre sk from = None /\
  parsePreimageDeliveryEvent e_req sk from = None /\ parsePreimageDeliveryEvent e_resp sk from = None.
Proof.
  intros H1 H2 H3 from. subst from. unfold parseHashRequestEvent, parseHashResponseEvent, parsePreimageDeliveryEvent.
  rewrite ((fun ok => dm_roundtrip _ _ _ _ _ ok H1) eq_refl), ((fun ok => dm_roundtrip _ _ _ _ _ ok H2) eq_refl),
    ((fun ok => dm_roundtrip _ _ _ _ _ ok H3) eq_refl).
  unfold hasVersion, preimage_fields. simpl set_field. read_field.
  by destruct pd, hr.
Qed.
End properties.

(** * Witnesses *)
Definition kp1 : Keypair := mkKeypair [1%Z] "pk1".
Definition sample_notice := mkQueryRequest "q1" "anchr.http" "pk1" "pk9" (num 21) (num 1800000000).
Definition sample_execution :=
  mkExecution "anchr.http" (VObj [("url", VStr "https://a"); ("skip", VUndef)]) (Some "d")
    (Some (VObj [("nonce", VStr "n")])) "https://mint" (num 21) (num 20) (num 1800000000).
Definition sample_response := buildQueryResponseEvent (N := toy_nostr) (J := codec) kp1 "req1" "pk2" "anchr.http"
  (VObj [("ok", VBool true)]) (inl [1; 2; 3]%Z) (Some "pk9") (Some "q1") (num 1000).
Definition event_of (r : res Event) : Event :=
  match r with Ok e => e | Throw _ => mkEvent "" "" NaN 0 [] "" "" end.

Lemma request_notice_roundtrip_witness :
  parseQueryRequestEvent (J := codec) (buildQueryRequestEvent (N := toy_nostr) (J := codec) kp1 sample_notice (Some "jp") (num 1000))
  = Some sample_notice.
Proof.
  exact (request_notice_roundtrip (N := toy_nostr) (J := codec)
    (NostrLaws0 := toy_nostr_laws) (JSONLaws0 := codec_laws) kp1 sample_notice (Some "jp") (num 1000) eq_refl eq_refl eq_refl).
Defined.

Lemma request_notice_is_public_witness :
  has_prop "predicate" (json_norm (VObj (set_field "version" (VNum (num 0)) (request_fields sample_notice)))) = false.
Proof.
  apply (request_notice_is_public (J := codec)
    (buildQueryRequestEvent (N := toy_nostr) (J := codec) kp1 sample_notice None (num 1000)) sample_notice);
    [vm_compute; reflexivity|vm_compute; reflexivity|repeat constructor].
Defined.

Lemma offer_roundtrip_witness :
  parseOfferFeedbackEvent (J := codec) (buildOfferFeedbackEvent (N := toy_nostr) (J := codec) kp1 "req1" "pk2"
    (mkOfferPayload "pk1" (num 20)) (num 1000)) = Some (mkParsedOffer "pk1" (num 20) "req1" "pk2").
Proof.
  exact (offer_roundtrip (N := toy_nostr) (J := codec)
    (NostrLaws0 := toy_nostr_laws) (JSONLaws0 := codec_laws) kp1 "req1" "pk2"
    (mkOfferPayload "pk1" (num 20)) (num 1000) eq_refl eq_refl eq_refl ltac:(done) ltac:(done)).
Defined.

Lemma offer_attributed_witness :
  let e := buildOfferFeedbackEvent (N := toy_nostr) (J := codec) kp1 "req1" "pk2" (mkOfferPayload "pk1" (num 20)) (num 1000) in
  ev_pubkey e = "pk1" /\ find_tag_nonempty (ev_tags e) "e" = Some "req1".
Proof.
  intros e. destruct (offer_attributed (J := codec) e (mkParsedOffer "pk1" (num 20) "req1" "pk2")) as (H1 & H2 & _);
    [vm_compute; reflexivity|]. split; [symmetry; exact H1|exact H2].
Defined.

Definition selection_event := event_of (buildSelectionFeedbackEvent (N := toy_nostr) (J := codec) kp1 "req1"
  (mkSelection "pk2" "cashuA" sample_execution) (num 1000)).

Lemma selection_roundtrip_witness :
  parseSelectionFeedbackEvent (N := toy_nostr) (J := codec) selection_event [2%Z] "pk1" =
  Some (mkSelection "pk2" "cashuA" (execution_norm sample_execution)).
Proof.
  apply (selection_roundtrip (N := toy_nostr) (J := codec)
    (NostrLaws0 := toy_nostr_laws) (JSONLaws0 := codec_laws) kp1 [2%Z] "req1"
    (mkSelection "pk2" "cashuA" sample_execution) (num 1000) selection_event);
    [vm_compute; reflexivity| |vm_compute; reflexivity|vm_compute; reflexivity].
  repeat split. intros c Hc. by injection Hc as <-.
Defined.

Lemma response_roundtrip_witness :
  parseQueryResponseEvent (N := toy_nostr) (J := codec) (event_of sample_response) [2%Z] "pk1" =
  Some (mkResponse "anchr.http" (VObj [("ok", VBool true)]) "AQID").
Proof.
  apply (response_roundtrip (N := toy_nostr) (J := codec)
    (NostrLaws0 := toy_nostr_laws) (JSONLaws0 := codec_laws) kp1 [2%Z] "req1" "anchr.http"
    (VObj [("ok", VBool true)]) (inl [1; 2; 3]%Z) (Some "pk9") (Some "q1") (num 1000) (event_of sample_response));
    [vm_compute; reflexivity|reflexivity|vm_compute; reflexivity].
Defined.

Lemma oracle_response_roundtrip_witness :
  parseOracleQueryResponseEvent (N := toy_nostr) (J := codec) (event_of sample_response) [9%Z] "pk1" =
  Some (mkOracleResponse "anchr.http" (VObj [("ok", VBool true)]) "AQID" "q1" "req1").
Proof.
  apply (oracle_response_roundtrip (N := toy_nostr) (J := codec)
    (NostrLaws0 := toy_nostr_laws) (JSONLaws0 := codec_laws) kp1 [9%Z] "req1" "pk2" "anchr.http"
    (VObj [("ok", VBool true)]) (inl [1; 2; 3]%Z) (Some "q1") (num 1000) (event_of sample_response));
    [vm_compute; reflexivity|reflexivity|vm_compute; reflexivity].
Defined.

Lemma direct_messages_roundtrip_witness :
  parseHashRequestEvent (N := toy_nostr) (J := codec)
    (event_of (buildHashRequestEvent (N := toy_nostr) (J := codec) kp1 "pk2" "q1" (num 1000))) [2%Z] "pk1" = Some "q1".
Proof.
  apply (direct_messages_roundtrip (N := toy_nostr) (J := codec)
    (NostrLaws0 := toy_nostr_laws) (JSONLaws0 := codec_laws) kp1 [2%Z] (num 1000) "q1"
    (mkPreimageDelivery "q1" "req1" "aa") (mkHashResponse "q1" "bb")
    (event_of (buildHashRequestEvent (N := toy_nostr) (J := codec) kp1 "pk2" "q1" (num 1000)))
    (event_of (buildHashResponseEvent (N := toy_nostr) (J := codec) kp1 "pk2" (mkHashResponse "q1" "bb") (num 1000)))
    (event_of (buildPreimageDeliveryEvent (N := toy_nostr) (J := codec) kp1 "pk2" (mkPreimageDelivery "q1" "req1" "aa") (num 1000))));
    vm_compute; reflexivity.
Defined.
