(* ===== verification/Sidecar.v ===== *)
(** * Sidecar processes

    [packages/sdk/src/internal/runtime/sidecar-execution.ts] as its clients see
    it: locating a binary and what becomes of a process spawned from it.  The
    binaries ([frost-signer], [tlsn-verifier]) are outside the repository; a
    spawned process may change the environment and answer anything. *)

From S2P Require Import Prelude JsNum JsString JsValue PreimageStore.

(** The process could not be started, outlived its timeout and was killed, or exited. *)
Inductive ProcOutcome :=
| ProcFailed (e : exn)
| ProcTimedOut
| ProcExited (code : Z) (stdout stderr : string).

Record SidecarExecutor := mkExecutor {
  ex_isFile : string -> bool;
  ex_which : string -> option string;
  ex_localPaths : string -> list string;  (* release and debug builds beside the sources *)
}.

(** Project-local builds first, then the search path. *)
Definition find_binary (ex : SidecarExecutor) (name : string) : option string :=
  match List.find (ex_isFile ex) (ex_localPaths ex name) with
  | Some p => Some p
  | None => ex_which ex name
  end.

(** An explicit path ([Some None] is [null]) takes precedence over detection. *)
Definition resolve_binary (path : option (option string)) (ex : SidecarExecutor) (name : string)
    : option string :=
  match path with
  | None => find_binary ex name
  | Some p => p
  end.

(** The hex SHA-256 digest of a string's UTF-8 bytes. *)
Definition sha256_hex `{N : Noble} (value : string) : string := bytesToHex (sha256 (utf8 value)).
