(* ===== verification/FrostCli.v ===== *)
(** * FROST: the signer binary, data and signing messages

    [packages/sdk/src/payments/frost]: the wrapper around the [frost-signer]
    binary ([frost-cli.ts]), the data types ([frost-types.ts],
    [frost-config.ts]) and the derivation of signing messages
    ([signing-message.ts]).  The binary is outside the repository: a spawned
    process is reached through [SidecarExecutor] and may change the state it
    runs against (its randomness) and answer anything. *)

From S2P Require Import Prelude JsNum JsMap JsString JsValue EventLoop PreimageStore Sidecar CashuTypes CashuEscrow.

(** ** Data *)
Record ThresholdOracleConfig := mkThresholdConfig {
  tc_threshold : number;
  tc_total_signers : number;
  tc_signer_pubkeys : list string;
  tc_group_pubkey : string;
}.

Record PeerConfig := mkPeer {
  pc_signer_index : number;
  pc_endpoint : string;
  pc_api_key : option string;
}.

Record FrostNodeConfig := mkNodeConfig {
  nc_signer_index : number;
  nc_total_signers : number;
  nc_threshold : number;
  nc_key_package : jsval;
  nc_pubkey_package : jsval;
  nc_group_pubkey : string;
  nc_peers : list PeerConfig;
}.

Definition toThresholdOracleConfig (config : FrostNodeConfig) : ThresholdOracleConfig :=
  mkThresholdConfig (nc_threshold config) (nc_total_signers config)
    (number_to_string ∘ pc_signer_index <$> nc_peers config) (nc_group_pubkey config).

(** ** The command line wrapper *)
Record FrostCliResult := mkCliResult {
  cr_ok : bool;
  cr_data : option jsval;
  cr_error : option string;
}.

Definition cli_error (e : string) : FrostCliResult := mkCliResult false None (Some e).

Definition findFrostSigner (ex : SidecarExecutor) : option string := find_binary ex "frost-signer".

Definition isFrostSignerAvailable (ex : SidecarExecutor) : bool :=
  match findFrostSigner ex with Some _ => true | None => false end.

(** [frostSignerPath]: [None] is [undefined], [Some None] is [null]. *)
Definition resolveFrostSigner (frostSignerPath : option (option string)) (ex : SidecarExecutor)
    : option string := resolve_binary frostSignerPath ex "frost-signer".

Section cli.
Context `{J : JSON} {S : Type} (spawn : list string -> S -> S * ProcOutcome).

(** The reading of a finished process. *)
Definition cli_outcome (o : ProcOutcome) : res FrostCliResult :=
  match o with
  | ProcFailed e => Throw e
  | ProcTimedOut => Ok (cli_error "frost-signer timed out after 30s")
  | ProcExited code stdout stderr =>
      if negb (Z.eqb code 0) then
        Ok (cli_error (opt_default "frost-signer exited with error"
                         (truthy (Some (slice0 500 (trim stderr))))))
      else match JSON_parse stdout with
           | Some data => Ok (mkCliResult true (Some data) None)
           | None => Ok (cli_error "failed to parse frost-signer output")
           end
  end.

Definition runFrostCommand (subcommand : string) (args : list string)
    (frostSignerPath : option (option string)) (ex : SidecarExecutor) : call S FrostCliResult := fun s =>
  match truthy (resolveFrostSigner frostSignerPath ex) with
  | None => ret (cli_error "frost-signer binary not available") s
  | Some binPath =>
      let '(s', o) := spawn (binPath :: subcommand :: args) s in
      await (fun s => (s, Settled (Ok tt))) (fun _ s => (s, Settled (cli_outcome o))) s'
  end.

Definition dkgRound1 (index maxSigners minSigners : number) :=
  runFrostCommand "dkg-round1" ["--index"; number_to_string index; "--max-signers";
    number_to_string maxSigners; "--min-signers"; number_to_string minSigners].

Definition dkgRound2 (secretPackage round1Packages : string) :=
  runFrostCommand "dkg-round2" ["--secret-package"; secretPackage; "--round1-packages"; round1Packages].

Definition dkgRound3 (round2SecretPackage round1Packages round2Packages : string) :=
  runFrostCommand "dkg-round3" ["--round2-secret-package"; round2SecretPackage; "--round1-packages";
    round1Packages; "--round2-packages"; round2Packages].

Definition signRound1 (keyPackage : string) :=
  runFrostCommand "sign-round1" ["--key-package"; keyPackage].

Definition signRound2 (keyPackage nonces commitments message : string) :=
  runFrostCommand "sign-round2" ["--key-package"; keyPackage; "--nonces"; nonces; "--commitments";
    commitments; "--message"; message].

Definition aggregateSignatures (groupPubkey commitments message signatureShares pubkeyPackage : string) :=
  runFrostCommand "aggregate" ["--group-pubkey"; groupPubkey; "--commitments"; commitments; "--message";
    message; "--signature-shares"; signatureShares; "--pubkey-package"; pubkeyPackage].

Definition verifySignature (groupPubkey signature message : string) :=
  runFrostCommand "verify" ["--group-pubkey"; groupPubkey; "--signature"; signature; "--message"; message].
End cli.

(** [!result.ok || !result.data]: the data of a usable answer. *)
Definition cli_data (r : FrostCliResult) : option jsval :=
  if cr_ok r then match cr_data r with Some d => if js_truthy d then Some d else None | None => None end
  else None.

(** ** Signing messages *)
Section messages.
Context `{N : Noble} `{J : JSON} `{L : CashuLib}.

Definition sha256Utf8Hex (value : string) : string := sha256_hex value.

Definition deriveFrostSigningMessage (queryId : string) : string :=
  sha256Utf8Hex ("anchr:sign:" +:+ queryId).

Definition deriveFrostEscrowTokenHash (encodedToken : string) : string := sha256Utf8Hex encodedToken.

Definition deriveFrostP2pkMessages (encodedToken : string) (knownKeysets : option (list string))
    : res (list string) :=
  decoded ← getDecodedToken encodedToken knownKeysets;
  Ok (sha256Utf8Hex ∘ pf_secret <$> tok_proofs decoded).

(** The keys and the number of signatures a secret's tags ask for: every
    [pubkeys] tag adds keys, the last [n_sigs] tag decides. *)
Fixpoint scan_tags (tags : list jsval) (keys : list string) (nSigs : string) : list string * string :=
  match tags with
  | [] => (keys, nSigs)
  | tag :: tags' =>
      match as_string_array tag with
      | Some (name :: values) =>
          let keys' := if name === "pubkeys" then keys ++ values else keys in
          let nSigs' := if name === "n_sigs" then opt_default nSigs (head values) else nSigs in
          scan_tags tags' keys' nSigs'
      | _ => scan_tags tags' keys nSigs
      end
  end.

Definition p2pkSecretRequiresGroup (secretJson groupPubkey : string) : bool :=
  match JSON_parse secretJson with
  | Some (VArr parsed) =>
      if negb (eq_str (index 0 parsed) "P2PK") then false
      else
        let body := index 1 parsed in
        if negb (isRecord body) then false
        else
          let data := match prop "data" body with VStr d => [d] | _ => [] end in
          let '(lockPubkeys, nSigs) := match prop "tags" body with
                                       | VArr tags => scan_tags tags data ""
                                       | _ => (data, "")
                                       end in
          (nSigs === "2") && existsb (fun pk => sameXOnlyPubkey pk groupPubkey) lockPubkeys
  | _ => false
  end.

Definition tokenMatchesFrostP2pkLock (encodedToken groupPubkey : string)
    (knownKeysets : option (list string)) : bool :=
  match getDecodedToken encodedToken knownKeysets with
  | Throw _ => false
  | Ok decoded =>
      bool_decide (tok_proofs decoded <> []) &&
      forallb (fun proof => p2pkSecretRequiresGroup (pf_secret proof) groupPubkey) (tok_proofs decoded)
  end.
End messages.

(** ** Lemmas *)
Section lemmas.
Context `{J : JSON} {S : Type} (spawn : list string -> S -> S * ProcOutcome).

(** Running a command touches the state only by spawning. *)
Lemma runFrostCommand_ok (I : S -> Prop) sub args path ex :
  (forall bin s, I s -> I (spawn (bin :: sub :: args) s).1) ->
  call_ok I (runFrostCommand spawn sub args path ex).
Proof.
  intros Hs s HI. unfold runFrostCommand. destruct (truthy _) as [bin|]; [|by split].
  specialize (Hs bin s HI). destruct (spawn _ s) as [s' o]. simpl in *.
  unfold await. simpl. split; [done|]. intros s2 H2. by split.
Qed.

(** A usable answer comes from a process that was spawned and exited cleanly. *)
Lemma runFrostCommand_outcome R sub args path ex s r d :
  outcome R (runFrostCommand spawn sub args path ex) s (Ok r) -> cli_data r = Some d ->
  exists bin stdout stderr, truthy (resolveFrostSigner path ex) = Some bin /\
    (spawn (bin :: sub :: args) s).2 = ProcExited 0 stdout stderr /\ JSON_parse stdout = Some d.
Proof.
  unfold outcome, runFrostCommand. destruct (truthy _) as [bin|] eqn:E; [|intros H%resolves_Settled; by simplify_eq/=].
  destruct (spawn _ s) as [s' o] eqn:Es. unfold await. simpl.
  intros H. inversion H as [|? s1 s2 t ? HR Ht Hr]; subst. simplify_eq/=. apply resolves_Settled in Hr.
  unfold cli_outcome in Hr. destruct o as [e| |code out err]; simplify_eq/=; [done|].
  destruct (Z.eqb_spec code 0) as [->|]; simplify_eq/=; [|done].
  destruct (JSON_parse out) as [d'|] eqn:Ed; simplify_eq/=; [|done].
  unfold cli_data. simpl. destruct (js_truthy d'); [|done]. intros ?; simplify_eq.
  exists bin, out, err. by rewrite Es.
Qed.
End lemmas.
