(* ===== verification/ReplayGuard.v ===== *)
(** * The replay guard

    [packages/sdk/src/proofs/replay-guard.ts]: the bounded set of presentation
    hashes an Oracle has accepted.  Keys are kept in insertion order with the
    time they were (last) added; every access evicts from the front. *)

From S2P Require Import Prelude JsNum JsMap JsString.

Record ReplayGuardOptions := mkGuardOptions {
  rg_retentionMs : option number;
  rg_maxEntries : option number;
}.

Definition DEFAULT_RETENTION_MS : Z := 7 * 24 * 60 * 60 * 1000.
Definition DEFAULT_MAX_ENTRIES : Z := 100000.

Notation Seen := (jsmap string number) (only parsing).

Section guard.
Variable options : ReplayGuardOptions.

Definition retentionMs : number := opt_default (num DEFAULT_RETENTION_MS) (rg_retentionMs options).
Definition maxEntries : number := opt_default (num DEFAULT_MAX_ENTRIES) (rg_maxEntries options).

(** The [for] loop: delete from the front, stop at the first entry young enough. *)
Fixpoint evict_aged (cutoff : number) (seen : Seen) : Seen :=
  match seen with
  | [] => []
  | (key, insertedAt) :: rest => if insertedAt ≥ₙ cutoff then seen else evict_aged cutoff rest
  end.

(** The [while] loop: drop the oldest key while there are too many. *)
Fixpoint evict_over (seen : Seen) : Seen :=
  match seen with
  | [] => []
  | _ :: rest => if num (Z.of_nat (jm_size seen)) >ₙ maxEntries then evict_over rest else seen
  end.

Definition evict (now : number) (seen : Seen) : Seen :=
  evict_over (evict_aged (nsub now retentionMs) seen).

Definition guard_has (now : number) (key : string) (seen : Seen) : Seen * bool :=
  let seen' := evict now seen in (seen', jm_has key seen').

Definition guard_add (now : number) (key : string) (seen : Seen) : Seen :=
  evict now (jm_set key now seen).

Definition guard_clear (seen : Seen) : Seen := [].

Definition guard_size (seen : Seen) : nat := jm_size seen.

(** ** Runs: any sequence of accesses with their times *)
Inductive guard_op := GuardHas (key : string) | GuardAdd (key : string).

Definition guard_step (op : number * guard_op) (seen : Seen) : Seen :=
  match op with
  | (now, GuardHas key) => (guard_has now key seen).1
  | (now, GuardAdd key) => guard_add now key seen
  end.

Definition guard_run (ops : list (number * guard_op)) (seen : Seen) : Seen :=
  fold_left (fun seen op => guard_step op seen) ops seen.

Definition is_add (op : number * guard_op) : bool :=
  match op.2 with GuardAdd _ => true | GuardHas _ => false end.

(** ** Lemmas *)

(** [key] is remembered with time at least [t], with at most [n] keys behind it. *)
Definition remembered (key : string) (t : Z) (n : nat) (seen : Seen) : Prop :=
  exists pre u post, seen = pre ++ (key, num u) :: post /\ (t <= u)%Z /\ key ∉ jm_keys pre /\ length post <= n.

Lemma remembered_has key t n seen : remembered key t n seen -> jm_has key seen = true.
Proof.
  intros (pre & u & post & -> & _ & Hk & _). unfold jm_has. induction pre as [|[k v] pre IH]; simpl.
  - by rewrite bool_decide_true.
  - apply not_elem_of_cons in Hk as [Hne Hk]. rewrite bool_decide_false by done. by apply IH.
Qed.

Lemma remembered_aged key t n seen cutoff :
  (cutoff <= t)%Z -> remembered key t n seen -> remembered key t n (evict_aged (num cutoff) seen).
Proof.
  intros Hc (pre & u & post & -> & Hu & Hk & Hl). induction pre as [|[k v] pre IH]; simpl.
  - rewrite nge_num. destruct (Z.leb_spec cutoff u); [|lia]. by exists [], u, post.
  - apply not_elem_of_cons in Hk as [Hne Hk]. destruct (v ≥ₙ num cutoff); [|by apply IH].
    exists ((k, v) :: pre), u, post. split_and!; [done..|by apply not_elem_of_cons|done].
Qed.

Lemma remembered_over key t n seen m :
  maxEntries = num m -> (Z.of_nat n < m)%Z -> remembered key t n seen -> remembered key t n (evict_over seen).
Proof.
  intros Hm Hn (pre & u & post & -> & Hu & Hk & Hl). induction pre as [|[k v] pre IH]; cbn [evict_over app].
  - rewrite Hm, ngt_num. unfold jm_size. destruct (Z.ltb_spec m (Z.of_nat (length ((key, num u) :: post))));
      [simpl in *; lia|]. by exists [], u, post.
  - apply not_elem_of_cons in Hk as [Hne Hk]. destruct (_ >ₙ _); [by apply IH|].
    exists ((k, v) :: pre), u, post. split_and!; [done..|by apply not_elem_of_cons|done].
Qed.

Lemma remembered_evict key t n seen m r now :
  maxEntries = num m -> retentionMs = num r -> (Z.of_nat n < m)%Z -> (now - r <= t)%Z ->
  remembered key t n seen -> remembered key t n (evict (num now) seen).
Proof.
  intros Hm Hr Hn Hnow H. unfold evict. rewrite Hr, nsub_num.
  by eapply remembered_over, remembered_aged.
Qed.

(** Adding a key keeps what is remembered; a new key goes behind it. *)
Lemma remembered_set key t n seen k now :
  (t <= now)%Z -> remembered key t n seen -> remembered key t (S n) (jm_set k (num now) seen).
Proof.
  intros Ht (pre & u & post & -> & Hu & Hk & Hl). induction pre as [|[k' v] pre IH]; cbn [jm_set app].
  - case_bool_decide; [exists [], now, post|exists [], u, (jm_set k (num now) post)]; (split_and!; [done..|]).
    + lia.
    + fold (jm_size (jm_set k (num now) post)). rewrite jm_size_set. unfold jm_size. case_match; lia.
  - apply not_elem_of_cons in Hk as [Hne Hk]. case_bool_decide.
    + exists ((k', num now) :: pre), u, post. split_and!; [done..|by apply not_elem_of_cons|lia].
    + destruct (IH Hk) as (pre' & u' & post' & -> & Hu' & Hk' & Hl').
      exists ((k', v) :: pre'), u', post'. split_and!; [done..|by apply not_elem_of_cons|done].
Qed.

(** A fresh key starts out remembered, with nothing behind it. *)
Lemma remembered_add key t seen m r :
  maxEntries = num m -> retentionMs = num r -> (0 < m)%Z -> (0 <= r)%Z -> jm_has key seen = false ->
  remembered key t 0 (guard_add (num t) key seen).
Proof.
  intros Hm Hr Hm0 Hr0 Hk. unfold guard_add. eapply remembered_evict; [done|done|lia|lia|].
  exists seen, t, []. split_and!; [|done| |done].
  - clear -Hk. unfold jm_has in Hk. induction seen as [|[k v] seen IH]; simpl in *; [done|].
    case_bool_decide; [done|]. by rewrite IH.
  - unfold jm_has in Hk. apply jm_get_None. by destruct (jm_get key seen).
Qed.

Lemma remembered_run key t n ops seen m r :
  maxEntries = num m -> retentionMs = num r ->
  Forall (fun op => exists u, op.1 = num u /\ (t <= u <= t + r)%Z) ops ->
  (Z.of_nat (n + length (List.filter is_add ops)) < m)%Z ->
  remembered key t n seen -> remembered key t (n + length (List.filter is_add ops)) (guard_run ops seen).
Proof.
  intros Hm Hr Hops. revert n seen. induction Hops as [|[now op] ops (u & Hu & Ht) _ IH]; intros n seen Hn H.
  - simpl. by rewrite Nat.add_0_r.
  - simpl in Hu. subst now. destruct op as [k|k]; simpl in *.
    + apply IH; [done|]. apply (remembered_evict _ _ _ _ m r); [done|done|lia|lia|done].
    + rewrite <- Nat.add_succ_comm. apply IH; [lia|].
      apply (remembered_evict _ _ _ _ m r); [done|done|lia|lia|]. apply remembered_set; [lia|done].
Qed.

(** The cap holds after every access. *)
Lemma evict_over_size seen m :
  maxEntries = num m -> (0 <= m)%Z -> (Z.of_nat (jm_size (evict_over seen)) <= m)%Z.
Proof.
  intros Hm H0. induction seen as [|kv seen IH]; cbn [evict_over]; [simpl; lia|].
  rewrite Hm, ngt_num. destruct (Z.ltb_spec m (Z.of_nat (jm_size (kv :: seen)))); [done|lia].
Qed.
End guard.

(** * Properties *)

(** Replay detection: a fresh key added at time [t] is found again at any later
    access within the retention period, whatever other accesses happened in
    between, as long as fewer keys than the cap were added; and the set never
    exceeds the cap. *)
Theorem replay_detected options m r key t seen ops t' :
  maxEntries options = num m -> retentionMs options = num r -> (0 <= r)%Z ->
  jm_has key seen = false ->
  Forall (fun op => exists u, op.1 = num u /\ (t <= u <= t + r)%Z) ops ->
  (Z.of_nat (length (List.filter is_add ops)) < m)%Z -> (t <= t' <= t + r)%Z ->
  let seen' := guard_run options ops (guard_add options (num t) key seen) in
  (guard_has options (num t') key seen').2 = true /\ (Z.of_nat (guard_size (guard_has options (num t') key seen').1) <= m)%Z.
Proof.
  intros Hm Hr Hr0 Hk Hops Hn Ht' seen'. split.
  - simpl. eapply remembered_has, (remembered_evict _ _ t); [done|done|exact Hn|lia|].
    apply (remembered_run options key t 0 ops _ m r); [done..|]. by apply (remembered_add _ _ _ _ m r); try lia.
  - apply evict_over_size; [done|lia].
Qed.

Lemma replay_detected_witness :
  (guard_has (mkGuardOptions None (Some (num 2))) (num 20) "a"
     (guard_run (mkGuardOptions None (Some (num 2))) [(num 12, GuardAdd "b"); (num 13, GuardHas "c")]
        (guard_add (mkGuardOptions None (Some (num 2))) (num 10) "a" [("z", num 9)]))).2 = true.
Proof.
  apply (replay_detected (mkGuardOptions None (Some (num 2))) 2 DEFAULT_RETENTION_MS "a" 10 [("z", num 9)]
           [(num 12, GuardAdd "b"); (num 13, GuardHas "c")] 20);
    [reflexivity|reflexivity|vm_compute; discriminate|reflexivity| |simpl; lia|vm_compute; split; discriminate].
  repeat constructor; eexists; (split; [reflexivity|vm_compute; split; discriminate]).
Defined.

(** Re-adding a key refreshes its time but not its position: the cap evicts it
    as if it were the oldest. *)
Example refreshed_key_evicted :
  let o := mkGuardOptions None (Some (num 2)) in
  (guard_has o (num 4) "a" (guard_run o [(num 2, GuardAdd "b"); (num 3, GuardAdd "a"); (num 4, GuardAdd "c")]
                              (guard_add o (num 1) "a" []))).2 = false.
Proof. reflexivity. Qed.
