(* ===== verification/Tlsn.v ===== *)
(** * TLSNotary evidence

    [packages/sdk/src/proofs/tlsn-types.ts] and [tlsn-validation.ts]: the shape
    of requirements and attestations, evaluation of conditions on the revealed
    body, and the validation of a presentation with its replay protection.  The
    verifier binary, the temporary file it reads and the regular-expression
    engine are outside the repository and enter as parameters. *)

From S2P Require Import Prelude JsNum JsMap JsString JsValue SchemaUri EventLoop PreimageStore Sidecar ReplayGuard.

(** ** Data and its validation *)
Inductive ConditionType := cond_contains | cond_regex | cond_jsonpath.

Record TlsnCondition := mkCondition {
  tc_type : ConditionType;
  tc_expression : string;
  tc_expected : option string;
  tc_description : option string;
}.

Record TlsnRequirement := mkTlsnRequirement {
  tr_target_url : string;
  tr_method : option string;
  tr_conditions : option (list TlsnCondition);
  tr_max_attestation_age_seconds : option number;
  tr_domain_hint : option string;
}.

Record TlsnVerifiedData := mkVerifiedData {
  td_server_name : string;
  td_revealed_body : string;
  td_revealed_headers : option string;
  td_session_timestamp : number;
}.

(** [v === undefined || typeof v === "string"], with the value read. *)
Definition opt_string (v : jsval) : option (option string) :=
  match v with VUndef => Some None | VStr s => Some (Some s) | _ => None end.
Definition opt_number (v : jsval) : option (option number) :=
  match v with VUndef => Some None | VNum n => Some (Some n) | _ => None end.

Definition condition_type (v : jsval) : option ConditionType :=
  match v with
  | VStr s => if s === "contains" then Some cond_contains
              else if s === "regex" then Some cond_regex
              else if s === "jsonpath" then Some cond_jsonpath else None
  | _ => None
  end.

(** The type guards return the value they recognise. *)
Definition isTlsnCondition (value : jsval) : option TlsnCondition :=
  if negb (isRecord value) then None
  else
  match condition_type (prop "type" value), prop "expression" value,
        opt_string (prop "expected" value), opt_string (prop "description" value) with
  | Some t, VStr expression, Some expected, Some description =>
      Some (mkCondition t expression expected description)
  | _, _, _, _ => None
  end.

Definition isHttpMethod (v : jsval) : option (option string) :=
  match v with
  | VUndef => Some None
  | VStr s => if (s === "GET") || (s === "POST") then Some (Some s) else None
  | _ => None
  end.

Definition opt_conditions (v : jsval) : option (option (list TlsnCondition)) :=
  match v with
  | VUndef => Some None
  | VArr l => match mapM isTlsnCondition l with Some cs => Some (Some cs) | None => None end
  | _ => None
  end.

Definition isTlsnRequirement (value : jsval) : option TlsnRequirement :=
  if negb (isRecord value) then None
  else
  match prop "target_url" value, isHttpMethod (prop "method" value), opt_conditions (prop "conditions" value),
        opt_number (prop "max_attestation_age_seconds" value), opt_string (prop "domain_hint" value) with
  | VStr url, Some method, Some conditions, Some age, Some hint =>
      Some (mkTlsnRequirement url method conditions age hint)
  | _, _, _, _, _ => None
  end.

Definition isTlsnAttestation (value : jsval) : option string :=
  if isRecord value then as_string (prop "presentation" value) else None.

Definition isTlsnExtensionResultEntry (value : jsval) : bool :=
  isRecord value && is_str (prop "type" value) && is_str (prop "part" value) && is_str (prop "value" value).

(** The [presentation] of an extension result; [None]: not an extension result. *)
Definition isTlsnExtensionResult (value : jsval) : option (option string) :=
  if negb (isRecord value) then None
  else
  match opt_string (prop "presentation" value) with
  | None => None
  | Some presentation =>
  let results := prop "results" value in
  if match results with
     | VUndef => true
     | VArr l => forallb isTlsnExtensionResultEntry l
     | _ => false
     end
  then if is_undef (prop "presentation" value) && is_undef results then None else Some presentation
  else None
  end.

(** ** Guarding against catastrophic regular expressions *)
Definition in_chars (set : string) (c : Ascii.ascii) : bool := existsb (Ascii.eqb c) (chars set).

(** After an opening bracket: the rest behind the closing one, if the class closes. *)
Fixpoint class_end (l : list Ascii.ascii) : option (list Ascii.ascii) :=
  match l with
  | [] => None
  | c :: l' =>
      if Nat.eqb (code c) 93 then Some l'
      else if Nat.eqb (code c) 92 then
        match l' with
        | d :: l'' => if is_newline d then None else class_end l''
        | [] => None
        end
      else class_end l'
  end.

(** [pattern.replace(/\[(?:[^\]\\]|\\.)*\]/g, X)]; [fuel] is the length. *)
Fixpoint strip_classes (fuel : nat) (l : list Ascii.ascii) : list Ascii.ascii :=
  match fuel, l with
  | S fuel', c :: l' =>
      if Nat.eqb (code c) 91 then
        match class_end l' with
        | Some rest => Ascii.ascii_of_nat 88 :: strip_classes fuel' rest
        | None => c :: strip_classes fuel' l'
        end
      else c :: strip_classes fuel' l'
  | _, _ => []
  end.

(** Behind an open parenthesis: an alternation before the next closing one,
    and a quantifier right after that. *)
Fixpoint alternation_quantified (bar : bool) (l : list Ascii.ascii) : bool :=
  match l with
  | [] => false
  | c :: l' =>
      if Nat.eqb (code c) 41 then bar && match l' with d :: _ => in_chars "+*{" d | [] => false end
      else alternation_quantified (bar || Nat.eqb (code c) 124) l'
  end.

Fixpoint quantified_alternation (l : list Ascii.ascii) : bool :=
  match l with
  | [] => false
  | c :: l' => (Nat.eqb (code c) 40 && alternation_quantified false l') || quantified_alternation l'
  end.

(** One or more closing parentheses followed by a quantifier. *)
Fixpoint closes_quantified (some : bool) (l : list Ascii.ascii) : bool :=
  match l with
  | [] => false
  | c :: l' => if Nat.eqb (code c) 41 then closes_quantified true l' else some && in_chars "+*{" c
  end.

Fixpoint nested_quantifier (l : list Ascii.ascii) : bool :=
  match l with
  | [] => false
  | c :: l' => (in_chars "+*}" c && closes_quantified false l') || nested_quantifier l'
  end.

Definition isSuspiciousRegex (pattern : string) : bool :=
  let stripped := strip_classes (String.length pattern) (chars pattern) in
  quantified_alternation stripped || nested_quantifier stripped.

(** ** Conditions *)

(** [new RegExp(pattern).exec(body)]: [None] when the pattern is invalid. *)
Class RegExpApi := RegExp_exec : string -> string -> option (option string).

(** [s.split(".")] *)
Fixpoint split_dots (l acc : list Ascii.ascii) : list string :=
  match l with
  | [] => [of_chars (rev acc)]
  | c :: l' => if Nat.eqb (code c) 46 then of_chars (rev acc) :: split_dots l' []
               else split_dots l' (c :: acc)
  end.

(** The own property [k] of an object or array. *)
Definition own_prop (k : string) (v : jsval) : option jsval :=
  match v with
  | VObj o => assoc k o
  | VArr l => if k === "length" then Some (VNum (num (Z.of_nat (length l)))) else assoc k (own_fields v)
  | _ => None
  end.

Definition BLOCKED_PROPS : list string := ["__proto__"; "constructor"; "prototype"].

Fixpoint walk_path (current : jsval) (parts : list string) : jsval :=
  match parts with
  | [] => current
  | part :: parts' =>
      if negb (isRecord current) then VUndef
      else if bool_decide (part ∈ BLOCKED_PROPS) then VUndef
      else match own_prop part current with
           | Some v => walk_path v parts'
           | None => VUndef
           end
  end.

Definition resolveDotPath (obj : jsval) (path : string) : jsval :=
  walk_path obj (split_dots (chars path) []).

(** [String(v)] of a parsed value: an own [toString] shadows the inherited one
    and is not callable, so conversion throws. *)
Fixpoint String_of (v : jsval) : option string :=
  match v with
  | VArr l => js_join "," <$> (fix go l := match l with
                | [] => Some []
                | x :: l' =>
                    match (match x with VUndef | VNull => Some "" | _ => String_of x end), go l' with
                    | Some s, Some r => Some (s :: r)
                    | _, _ => None
                    end
                end) l
  | VObj o => if has_prop "toString" v then None else Some "[object Object]"
  | _ => Some (js_string v)
  end.

Record ConditionResult := mkConditionResult { cn_passed : bool; cn_actual : option string }.

Section validation.
Context `{J : JSON} `{X : RegExpApi} `{U : UrlApi} `{N : Noble}.

Definition evaluateCondition (condition : TlsnCondition) (body : string) : ConditionResult :=
  match tc_type condition with
  | cond_contains =>
      if includes (tc_expression condition) body
      then mkConditionResult true (Some (tc_expression condition)) else mkConditionResult false None
  | cond_regex =>
      let pattern := tc_expression condition in
      if Nat.ltb 500 (String.length pattern) then
        mkConditionResult false (Some "regex pattern too long (max 500 chars)")
      else if isSuspiciousRegex pattern then
        mkConditionResult false (Some "regex rejected: potential ReDoS pattern detected")
      else match RegExp_exec pattern body with
           | Some (Some m) => mkConditionResult true (Some m)
           | Some None => mkConditionResult false None
           | None => mkConditionResult false (Some "invalid regex pattern")
           end
  | cond_jsonpath =>
      match JSON_parse body with
      | None => mkConditionResult false (Some "invalid JSON")
      | Some obj =>
      match resolveDotPath obj (tc_expression condition) with
      | VUndef => mkConditionResult false None
      | value =>
      match String_of value with
      | None => mkConditionResult false (Some "invalid JSON")
      | Some actual =>
          match tc_expected condition with
          | Some expected => mkConditionResult (actual === expected) (Some actual)
          | None => mkConditionResult true (Some actual)
          end
      end end end
  end.

(** ** Validation of a presentation *)
Record TlsnValidationResult := mkTlsnValidation {
  tv_available : bool;
  tv_signatureValid : bool;
  tv_serverIdentityValid : bool;
  tv_conditionResults : list (TlsnCondition * ConditionResult);
  tv_attestationFresh : bool;
  tv_verifiedData : option TlsnVerifiedData;
  tv_checks : list string;
  tv_failures : list string;
}.

Definition DEFAULT_MAX_AGE_SECONDS : Z := 300.

Definition extractHostname (url : string) : option string := url_hostname <$> URL_parse url.

(** What the binary reports; a field of another type than documented reads as absent. *)
Record VerifierBinaryResult := mkBinaryResult {
  vb_signatureValid : bool;
  vb_serverName : jsval;
  vb_body : option string;
  vb_headers : option string;
  vb_time : option number;
  vb_error : option string;
}.

Definition binary_error (e : string) : VerifierBinaryResult :=
  mkBinaryResult false VUndef None None None (Some e).

Definition read_report (result : jsval) : VerifierBinaryResult :=
  match result with
  | VNull => binary_error "failed to parse verifier output"
  | _ =>
      mkBinaryResult (match prop "valid" result with VBool true => true | _ => false end)
        (or_default VUndef (prop "server_name" result)) (as_string (prop "revealed_body" result))
        (as_string (prop "revealed_headers" result)) (as_number (prop "time" result)) None
  end.

Definition read_process (o : ProcOutcome) : VerifierBinaryResult :=
  match o with
  | ProcFailed e => binary_error (exn_class e +:+ ": " +:+ exn_message e)
  | ProcTimedOut => binary_error "verifier timed out after 60s"
  | ProcExited code stdout stderr =>
      if negb (Z.eqb code 0) then binary_error (slice0 200 (trim stderr))
      else match JSON_parse stdout with
           | Some result => read_report result
           | None => binary_error "failed to parse verifier output"
           end
  end.

(** Files, processes and the clock: [E] is the rest of the world. *)
Context {E : Type}.
Record TlsnIo := mkTlsnIo {
  io_mkdtemp : E -> E * res string;
  io_decode : string -> list Z;  (* Buffer.from(s, base64) *)
  io_write : string -> list Z -> E -> E * res unit;
  io_spawn : list string -> E -> E * ProcOutcome;
  io_rm : string -> E -> E * res unit;
}.

Record TlsnState := mkTlsnState {
  ts_seen : list (string * number);
  ts_now : number;
  ts_env : E;
}.

Definition with_env (e : E) (s : TlsnState) : TlsnState := mkTlsnState (ts_seen s) (ts_now s) e.

Variable io : TlsnIo.

(** An operation on the world, answered when the caller is resumed. *)
Definition on_env {A} (f : E -> E * res A) : call TlsnState A := fun s =>
  let '(e, r) := f (ts_env s) in (with_env e s, Settled r).

(** The same, with the outcome as a value ([try]). *)
Definition try_env {A} (f : E -> E * res A) : call TlsnState (res A) := fun s =>
  let '(e, r) := f (ts_env s) in (with_env e s, Settled (Ok r)).

Definition run_process (cmd : list string) : call TlsnState ProcOutcome := fun s =>
  let '(e, o) := io_spawn io cmd (ts_env s) in (with_env e s, Settled (Ok o)).

Definition runVerifierBinary (verifierPath presentation : string) : call TlsnState VerifierBinaryResult :=
  await (on_env (io_mkdtemp io)) (fun tempDir =>
    let presentationPath := tempDir +:+ "/presentation.tlsn" in
    let finally result := await (on_env (io_rm io tempDir)) (fun _ => ret result) in
    await (try_env (io_write io presentationPath (io_decode io presentation))) (fun written =>
      match written with
      | Throw e => finally (binary_error (exn_class e +:+ ": " +:+ exn_message e))
      | Ok _ => await (run_process [verifierPath; "verify"; presentationPath])
                  (fun o => finally (read_process o))
      end)).

Definition rejected_validation (available : bool) (failure : string) : TlsnValidationResult :=
  mkTlsnValidation available false false [] false None [] [failure].

(** [requirement.domain_hint ?? extractHostname(requirement.target_url)] *)
Definition expected_hostname (requirement : TlsnRequirement) : option string :=
  nullish (tr_domain_hint requirement) (extractHostname (tr_target_url requirement)).

Definition max_age (requirement : TlsnRequirement) : number :=
  opt_default (num DEFAULT_MAX_AGE_SECONDS) (tr_max_attestation_age_seconds requirement).

(** [ageMs >= 0 && ageMs < maxAgeSeconds * 1000] *)
Definition is_fresh (now verifiedTime maxAge : number) : bool :=
  let ageMs := nsub now (nmul verifiedTime (num 1000)) in
  (ageMs ≥ₙ num 0) && (ageMs <ₙ nmul maxAge (num 1000)).

(** Each step returns its verdict with the checks and failures it pushes. *)
Definition check_identity (requirement : TlsnRequirement) (serverName : jsval) : bool * list string * list string :=
  match truthy (expected_hostname requirement) with
  | None => (false, [], [])
  | Some host =>
      if eq_str serverName host then (true, ["TLSNotary: server name matches target (" +:+ host +:+ ")"], [])
      else (false, [], ["TLSNotary: server name " +:+ dquote +:+ js_string (or_default (VStr "unknown") serverName) +:+
              dquote +:+ " does not match target " +:+ dquote +:+ host +:+ dquote])
  end.

Definition check_freshness (now : number) (time : option number) (maxAge : number) : bool * list string * list string :=
  match time with
  | None => (false, [], ["TLSNotary: no timestamp in proof — cannot verify attestation freshness"])
  | Some t =>
      let age := number_to_string (nround_div (nsub now (nmul t (num 1000))) 1000) in
      if is_fresh now t maxAge
      then (true, ["TLSNotary: attestation fresh (" +:+ age +:+ "s old, max " +:+ number_to_string maxAge +:+ "s)"], [])
      else (false, [], ["TLSNotary: attestation too old (" +:+ age +:+ "s, max " +:+ number_to_string maxAge +:+ "s)"])
  end.

Definition type_name (t : ConditionType) : string :=
  match t with cond_contains => "contains" | cond_regex => "regex" | cond_jsonpath => "jsonpath" end.

Definition condition_label (c : TlsnCondition) : string :=
  opt_default (type_name (tc_type c) +:+ ":" +:+ tc_expression c) (tc_description c).

Definition check_conditions (conditions : list TlsnCondition) (body : string)
    : list (TlsnCondition * ConditionResult) * list string * list string :=
  let results := (fun c => (c, evaluateCondition c body)) <$> conditions in
  (results,
   (fun r => "TLSNotary condition passed: " +:+ condition_label r.1) <$> List.filter (fun r => cn_passed r.2) results,
   (fun r => "TLSNotary condition failed: " +:+ condition_label r.1) <$>
     List.filter (fun r => negb (cn_passed r.2)) results).

(** The verdict on a signature-valid report, at time [now]. *)
Definition judge_report (requirement : TlsnRequirement) (report : VerifierBinaryResult) (now : number)
    : TlsnValidationResult :=
  let body := opt_default "" (vb_body report) in
  let '(identity, checks1, failures1) := check_identity requirement (vb_serverName report) in
  let '(fresh, checks2, failures2) := check_freshness now (vb_time report) (max_age requirement) in
  let '(results, checks3, failures3) := check_conditions (opt_default [] (tr_conditions requirement)) body in
  mkTlsnValidation true true identity results fresh
    (Some (mkVerifiedData (js_string (or_default (VStr "") (vb_serverName report))) body (vb_headers report)
             (opt_default (num 0) (vb_time report))))
    (["TLSNotary: presentation signature valid (cryptographically verified)"] ++ checks1 ++ checks2 ++ checks3)
    (failures1 ++ failures2 ++ failures3).

Definition guard_options : ReplayGuardOptions := mkGuardOptions None None.

Definition seen_before (hash : string) (s : TlsnState) : TlsnState * bool :=
  let '(seen, found) := guard_has guard_options (ts_now s) hash (ts_seen s) in
  (mkTlsnState seen (ts_now s) (ts_env s), found).

Definition remember (hash : string) (s : TlsnState) : TlsnState :=
  mkTlsnState (guard_add guard_options (ts_now s) hash (ts_seen s)) (ts_now s) (ts_env s).

Definition resolveTlsnVerifier (path : option (option string)) (ex : SidecarExecutor) : option string :=
  resolve_binary path ex "tlsn-verifier".

Definition validateTlsn (presentation : string) (requirement : TlsnRequirement)
    (path : option (option string)) (ex : SidecarExecutor) : call TlsnState TlsnValidationResult := fun s =>
  let presentationHash := sha256_hex presentation in
  let '(s, seen) := seen_before presentationHash s in
  if seen then
    ret (rejected_validation true "TLSNotary: presentation already used — proof replay rejected") s
  else
  match truthy (resolveTlsnVerifier path ex) with
  | None => ret (rejected_validation false
              "TLSNotary: tlsn-verifier binary not available — cannot verify presentation") s
  | Some verifierPath =>
      await (runVerifierBinary verifierPath presentation) (fun report s =>
        if negb (vb_signatureValid report) then
          ret (rejected_validation true ("TLSNotary: presentation signature invalid — " +:+
                 opt_default "verification failed" (vb_error report))) s
        else ret (judge_report requirement report (ts_now s)) (remember presentationHash s)) s
  end.
End validation.

Example suspicious_ex :
  map isSuspiciousRegex ["(a+)+"; "((a+))+"; "(a|b)*"; "(a{1,5})*"; "[(|)]+a"; "a+b*"; "(ab)+"; "[^\])+]+)"] =
  [true; true; true; true; false; false; false; false].
Proof. vm_compute. reflexivity. Qed.
