(* ===== verification/TlsnSpec.v ===== *)
(** * What an accepted presentation establishes

    Soundness of [validateTlsn] under any interference at its suspension
    points, single acceptance of a presentation when validations do not
    overlap, and the overlap that defeats it. *)

From S2P Require Import Prelude JsNum JsMap JsString JsValue JsonCodec SchemaUri EventLoop PreimageStore Sidecar ReplayGuard Tlsn.

Section spec.
Context `{J : JSON} `{X : RegExpApi} `{U : UrlApi} `{N : Noble} {E : Type} (io : TlsnIo (E := E)).
Notation State := (TlsnState (E := E)).

(** ** The judgement on a report *)

(** The documented acceptance conditions for a report at time [now]: the
    server is the expected one (when one is expected), the session is recent,
    and every condition holds of the revealed body. *)
Definition acceptable (req : TlsnRequirement) (report : VerifierBinaryResult) (now : number) : Prop :=
  (forall host, truthy (expected_hostname req) = Some host -> vb_serverName report = VStr host) /\
  (exists t, vb_time report = Some t /\ is_fresh now t (max_age req) = true) /\
  Forall (fun c => cn_passed (evaluateCondition c (opt_default "" (vb_body report))) = true)
    (opt_default [] (tr_conditions req)).

Lemma identity_failures_nil req name :
  (check_identity req name).2 = [] <->
  forall host, truthy (expected_hostname req) = Some host -> name = VStr host.
Proof.
  unfold check_identity. destruct (truthy _) as [host|]; [|naive_solver].
  destruct (eq_str name host) eqn:Hn; simpl.
  - apply eq_str_true in Hn. naive_solver.
  - split; [done|]. intros H. specialize (H host eq_refl). apply eq_str_true in H. congruence.
Qed.

Lemma freshness_failures_nil now time age :
  (check_freshness now time age).2 = [] <-> exists t, time = Some t /\ is_fresh now t age = true.
Proof.
  unfold check_freshness. destruct time as [t|]; [|by split; [|intros (? & ? & _)]].
  destruct (is_fresh now t age) eqn:Hf; simpl; (split; [|intros (u & ? & ?); first [done|congruence]]); [eauto|done].
Qed.

Lemma conditions_failures_nil cs body :
  (check_conditions cs body).2 = [] <-> Forall (fun c => cn_passed (evaluateCondition c body) = true) cs.
Proof.
  unfold check_conditions. simpl. induction cs as [|c cs IH]; [by split|].
  rewrite Forall_cons, <- IH, fmap_cons. simpl. destruct (cn_passed (evaluateCondition c body)); simpl.
  - split; [by intros ?|by intros [_ ?]].
  - by split; [|intros [? _]].
Qed.

Lemma judge_failures_nil req report now :
  tv_failures (judge_report req report now) = [] <-> acceptable req report now.
Proof.
  unfold judge_report, acceptable.
  rewrite <- identity_failures_nil, <- freshness_failures_nil, <- conditions_failures_nil.
  destruct (check_identity _ _) as [[i c1] f1], (check_freshness _ _ _) as [[f c2] f2],
    (check_conditions _ _) as [[r c3] f3]. simpl. rewrite !app_nil. done.
Qed.

(** ** The binary's report *)

(** The report on presentation [p]: its decoded bytes were written to a file in a
    fresh directory, and the report is the reading of a run of the verifier on that file. *)
Definition from_binary (bin p : string) (report : VerifierBinaryResult) : Prop :=
  exists dir e0 e1 e2,
    (io_mkdtemp io e0).2 = Ok dir /\
    (io_write io (dir +:+ "/presentation.tlsn") (io_decode io p) e1).2 = Ok tt /\
    report = read_process (io_spawn io [bin; "verify"; dir +:+ "/presentation.tlsn"] e2).2.

(** The same with nothing in between: the world the binary runs in is the one the
    write left. *)
Definition reads_presentation (bin p : string) (report : VerifierBinaryResult) : Prop :=
  exists dir e, (io_write io (dir +:+ "/presentation.tlsn") (io_decode io p) e).2 = Ok tt /\
    report = read_process (io_spawn io [bin; "verify"; dir +:+ "/presentation.tlsn"]
                             (io_write io (dir +:+ "/presentation.tlsn") (io_decode io p) e).1).2.

Lemma outcome_on_env {A} R (f : E -> E * res A) (s : State) r :
  outcome R (on_env f) s r -> r = (f (ts_env s)).2.
Proof. unfold outcome, on_env. destruct (f _). apply resolves_Settled. Qed.

Lemma outcome_try_env {A} R (f : E -> E * res A) (s : State) r :
  outcome R (try_env f) s (Ok r) -> r = (f (ts_env s)).2.
Proof. unfold outcome, try_env. destruct (f _). intros H%resolves_Settled. by injection H. Qed.

Lemma runVerifierBinary_outcome R bin p (s : State) report :
  outcome R (runVerifierBinary io bin p) s (Ok report) -> vb_signatureValid report = true ->
  from_binary bin p report.
Proof.
  intros H Hv. apply outcome_await in H as (dir & s1 & Hdir & _ & H). apply outcome_on_env in Hdir.
  apply outcome_await in H as ([[]|e] & s2 & Hw & _ & H); apply outcome_try_env in Hw.
  - apply outcome_await in H as (o & s3 & Ho & _ & H). apply outcome_await in H as (u' & s4 & _ & _ & H).
    apply outcome_ret in H. simplify_eq. exists dir, (ts_env s), (ts_env s1), (ts_env s2). split_and!; [done|done|].
    revert Ho. unfold outcome, run_process.
    destruct (io_spawn _ _ _) as [e' o']. intros H%resolves_Settled. by injection H as ->.
  - apply outcome_await in H as (u' & s4 & _ & _ & H). apply outcome_ret in H. by simplify_eq.
Qed.

Lemma run_on_env {A} (f : E -> E * res A) (s : State) :
  run_call (on_env f) s = (with_env (f (ts_env s)).1 s, (f (ts_env s)).2).
Proof. unfold run_call, on_env. by destruct (f _). Qed.
Lemma run_try_env {A} (f : E -> E * res A) (s : State) :
  run_call (try_env f) s = (with_env (f (ts_env s)).1 s, Ok (f (ts_env s)).2).
Proof. unfold run_call, try_env. by destruct (f _). Qed.
Lemma run_run_process cmd (s : State) :
  run_call (run_process io cmd) s = (with_env (io_spawn io cmd (ts_env s)).1 s, Ok (io_spawn io cmd (ts_env s)).2).
Proof. unfold run_call, run_process. by destruct (io_spawn _ _ _). Qed.

Lemma runVerifierBinary_alone bin p (s s' : State) report :
  run_call (runVerifierBinary io bin p) s = (s', Ok report) -> vb_signatureValid report = true ->
  reads_presentation bin p report.
Proof.
  unfold runVerifierBinary. rewrite run_call_await, run_on_env. intros H Hv.
  destruct (io_mkdtemp io (ts_env s)) as [e0 [dir|x]]; cbn [fst snd] in H; [|done].
  rewrite run_call_await, run_try_env in H. cbn [ts_env with_env] in H.
  destruct (io_write io (dir +:+ "/presentation.tlsn") (io_decode io p) e0) as [e1 [[]|x]] eqn:Ew; cbn [fst snd] in H.
  - rewrite run_call_await, run_run_process, run_call_await, run_on_env in H. cbn [ts_env with_env fst snd] in H.
    destruct (io_rm _ _ _) as [e3 [u|x]]; cbn [fst snd] in H; [|done]. injection H as _ <-.
    exists dir, e0. by rewrite Ew.
  - rewrite run_call_await, run_on_env in H. destruct (io_rm _ _ _) as [e3 [u|y]]; cbn [fst snd] in H; [|done].
    injection H as _ <-. done.
Qed.

(** Neither the set of used presentations nor the clock changes meanwhile. *)
Definition same_guard (s0 s : State) : Prop := ts_seen s = ts_seen s0 /\ ts_now s = ts_now s0.

Lemma on_env_ok {A} s0 (f : E -> E * res A) : call_ok (same_guard s0) (on_env f).
Proof. intros s Hs. unfold on_env. destruct (f _). by split. Qed.
Lemma try_env_ok {A} s0 (f : E -> E * res A) : call_ok (same_guard s0) (try_env f).
Proof. intros s Hs. unfold try_env. destruct (f _). by split. Qed.
Lemma run_process_ok s0 cmd : call_ok (same_guard s0) (run_process io cmd).
Proof. intros s Hs. unfold run_process. destruct (io_spawn _ _ _). by split. Qed.

Lemma runVerifierBinary_ok s0 bin p : call_ok (same_guard s0) (runVerifierBinary io bin p).
Proof.
  unfold runVerifierBinary. apply call_ok_await; [apply on_env_ok|]. intros dir.
  apply call_ok_await; [apply try_env_ok|]. intros [u|e]; repeat (apply call_ok_await; [|intros ?]);
    auto using on_env_ok, run_process_ok, ret_ok.
Qed.

Lemma run_call_ok {A} (I : State -> Prop) (c : call State A) s : call_ok I c -> I s -> I (run_call c s).1.
Proof.
  intros Hc Hs. unfold run_call. specialize (Hc s Hs) as [H1 H2]. destruct (c s) as [s1 t].
  by apply run_alone_ok.
Qed.

(** ** A validation that runs alone *)

Definition hash_unseen (p : string) (s : State) : Prop := (seen_before (sha256_hex p) s).2 = false.

Lemma validate_alone p req path ex (s s' : State) r :
  run_call (validateTlsn io p req path ex) s = (s', Ok r) -> tv_failures r = [] ->
  hash_unseen p s /\ exists bin report, reads_presentation bin p report /\ vb_signatureValid report = true /\
    acceptable req report (ts_now s) /\ ts_now s' = ts_now s /\
    ts_seen s' = guard_add guard_options (ts_now s) (sha256_hex p) (evict guard_options (ts_now s) (ts_seen s)).
Proof.
  unfold validateTlsn, hash_unseen. unfold run_call. intros H Hf.
  destruct (seen_before (sha256_hex p) s) as [s0 []] eqn:Hs; [by simplify_eq/=|].
  destruct (truthy _) as [bin|]; [|by simplify_eq/=].
  change (run_call (await (runVerifierBinary io bin p) (fun report s =>
    if negb (vb_signatureValid report) then ret (rejected_validation true ("TLSNotary: presentation signature invalid — " +:+
      opt_default "verification failed" (vb_error report))) s
    else ret (judge_report req report (ts_now s)) (remember (sha256_hex p) s))) s0 = (s', Ok r)) in H.
  rewrite run_call_await in H.
  pose proof (run_call_ok (same_guard s0) _ s0 (runVerifierBinary_ok s0 bin p) (conj eq_refl eq_refl)) as [H1 H2].
  destruct (run_call _ s0) as [s1 [report|e]] eqn:Er; [|done]. simpl in H1, H2.
  unfold run_call in H. destruct (vb_signatureValid report) eqn:Hv; simpl in H; [|by simplify_eq/=].
  simplify_eq/=. split; [done|].
  exists bin, report. split; [by eapply runVerifierBinary_alone|].
  apply judge_failures_nil in Hf. unfold seen_before, guard_has in Hs. simplify_eq/=.
  rewrite H2 in Hf. split_and!; [done|done|done|]. by rewrite H1, H2.
Qed.
End spec.

Section properties.
Context `{J : JSON} `{X : RegExpApi} `{U : UrlApi} `{N : Noble} {E : Type} (io : TlsnIo (E := E)).
Notation State := (TlsnState (E := E)).

Lemma validate_accepts R p req path ex (s : State) r :
  outcome R (validateTlsn io p req path ex) s (Ok r) ->
  (tv_failures r = [] <->
   hash_unseen p s /\ exists bin report s', truthy (resolveTlsnVerifier path ex) = Some bin /\
     from_binary io bin p report /\ vb_signatureValid report = true /\ R s' /\
     r = judge_report req report (ts_now s') /\ acceptable req report (ts_now s')).
Proof.
  intros H. split; [|intros (_ & bin & report & s' & _ & _ & _ & _ & -> & Ha); by apply judge_failures_nil].
  intros Hf. unfold validateTlsn, outcome, hash_unseen in *.
  destruct (seen_before (sha256_hex p) s) as [s0 []]; [by apply resolves_Settled in H; simplify_eq/=|].
  destruct (truthy _) as [bin|]; [|by apply resolves_Settled in H; simplify_eq/=].
  apply (outcome_await R _ _ s0) in H as (report & s1 & Hr & HR & H).
  destruct (vb_signatureValid report) eqn:Hv; simpl in H; [|apply outcome_ret in H; by simplify_eq/=].
  unfold outcome in H. apply resolves_Settled in H. simplify_eq. split; [done|].
  exists bin, report, s1. split_and!; [done|by eapply runVerifierBinary_outcome|done|done|done|].
  by apply judge_failures_nil.
Qed.

(** * Properties *)

(** C10: Acceptance: whatever runs at its suspension points, a validation reports no
    failure exactly when the presentation had not been used, its decoded bytes were
    written to a file of a fresh directory, the verifier binary was run on that file
    and reported a valid signature, and the report meets server, freshness and
    content conditions at the time it is judged. *)
Theorem tlsn_acceptance R p req path ex (s : State) r :
  outcome R (validateTlsn io p req path ex) s (Ok r) ->
  (tv_failures r = [] <->
   hash_unseen p s /\ exists bin report s', truthy (resolveTlsnVerifier path ex) = Some bin /\
     from_binary io bin p report /\ vb_signatureValid report = true /\ R s' /\
     r = judge_report req report (ts_now s') /\ acceptable req report (ts_now s')).
Proof. apply validate_accepts. Qed.

(** C28: No presentation is accepted twice by validations that do not overlap,
    provided the attestation time belongs to the presentation: every run of the
    verifier on a file just written with these bytes that reports a valid signature
    reports the same time.  After an acceptance at [t1], whatever other accesses the
    guard sees (fewer additions than its cap) until [t2], a validation of the same
    presentation at [t2], whose accepted age is at most the guard's retention, fails -
    within the retention period the guard remembers it, later it is too old. *)
Theorem presentation_accepted_once p req1 req2 path1 path2 ex1 ex2 (s s1 s2 s3 : State) r1 r2 t1 t2 v a ops :
  (forall bin report, reads_presentation io bin p report -> vb_signatureValid report = true -> vb_time report = Some (num v)) ->
  max_age req2 = num a -> (a * 1000 <= DEFAULT_RETENTION_MS)%Z ->
  run_call (validateTlsn io p req1 path1 ex1) s = (s1, Ok r1) -> tv_failures r1 = [] -> ts_now s = num t1 ->
  Forall (fun op => exists u, op.1 = num u /\ (t1 <= u <= t2)%Z) ops ->
  (Z.of_nat (length (List.filter is_add ops)) < DEFAULT_MAX_ENTRIES)%Z ->
  ts_seen s2 = guard_run guard_options ops (ts_seen s1) -> ts_now s2 = num t2 -> (t1 <= t2)%Z ->
  run_call (validateTlsn io p req2 path2 ex2) s2 = (s3, Ok r2) -> tv_failures r2 <> [].
Proof.
  intros Hv Ha Hret H1 Hf1 Hn1 Hops Hadds Hs2 Hn2 Ht H2 Hf2.
  destruct (validate_alone io _ _ _ _ _ _ _ H1 Hf1) as (Hu1 & bin1 & rep1 & Hb1 & Hsig1 & (_ & (u1 & Hu1' & Hfr1) & _) & _ & Hseen1).
  destruct (validate_alone io _ _ _ _ _ _ _ H2 Hf2) as (Hu2 & bin2 & rep2 & Hb2 & Hsig2 & (_ & (u2 & Hu2' & Hfr2) & _) & _ & _).
  rewrite (Hv _ _ Hb1 Hsig1) in Hu1'. rewrite (Hv _ _ Hb2 Hsig2) in Hu2'. simplify_eq.
  rewrite Hn1 in *. rewrite Hn2, Ha in Hfr2. unfold is_fresh in Hfr1, Hfr2.
  change (nmul (num v) (num 1000)) with (num (v * 1000)) in *.
  change (nmul (num a) (num 1000)) with (num (a * 1000)) in *.
  rewrite nsub_num, nge_num in Hfr1, Hfr2. rewrite nlt_num in Hfr2.
  apply andb_true_iff in Hfr1 as [Hfr1 _]. apply andb_true_iff in Hfr2 as [_ Hfr2].
  apply Z.leb_le in Hfr1. apply Z.ltb_lt in Hfr2.
  unfold hash_unseen, seen_before, guard_has in Hu1, Hu2. simpl in Hu1, Hu2. rewrite Hn1 in Hu1. rewrite Hn2, Hs2, Hseen1 in Hu2.
  enough (jm_has (sha256_hex p) (evict guard_options (num t2) (guard_run guard_options ops
    (guard_add guard_options (num t1) (sha256_hex p) (evict guard_options (num t1) (ts_seen s))))) = true) by congruence.
  eapply remembered_has, (remembered_evict guard_options _ t1 _ _ DEFAULT_MAX_ENTRIES DEFAULT_RETENTION_MS);
    [done|done|exact Hadds|lia|].
  apply (remembered_run guard_options _ t1 0 ops _ DEFAULT_MAX_ENTRIES DEFAULT_RETENTION_MS); [done|done| |done|].
  - eapply Forall_impl; [exact Hops|]. intros op (u & -> & Hu). exists u. split; [done|lia].
  - by apply (remembered_add guard_options _ _ _ DEFAULT_MAX_ENTRIES DEFAULT_RETENTION_MS).
Qed.
End properties.

(** * Witnesses *)
Definition tlsn_report : string := codec_stringify (VObj [("valid", VBool true); ("server_name", VStr "api.example");
  ("revealed_body", VStr "price: 42"); ("time", VNum (num 1000))]).
Definition tlsn_io : TlsnIo (E := unit) := mkTlsnIo
  (fun e => (e, Ok "/tmp/anchr-tlsn-1")) (fun _ => []) (fun _ _ e => (e, Ok tt))
  (fun _ e => (e, ProcExited 0 tlsn_report "")) (fun _ e => (e, Ok tt)).
Definition tlsn_requirement : TlsnRequirement := mkTlsnRequirement "https://api.example/price" (Some "GET")
  (Some [mkCondition cond_contains "42" None None]) None (Some "api.example").
Definition tlsn_executor : SidecarExecutor := mkExecutor (fun _ => false) (fun n => Some n) (fun _ => []).
Definition no_regexp : RegExpApi := fun _ _ => None.
Definition tlsn_state (t : Z) (seen : list (string * number)) : TlsnState (E := unit) := mkTlsnState seen (num t) tt.
Definition tlsn_call : call (TlsnState (E := unit)) TlsnValidationResult :=
  validateTlsn (J := codec) (X := no_regexp) (U := fun _ => None) (N := toy_noble) tlsn_io "cHJlcw==" tlsn_requirement
    None tlsn_executor.
Definition tlsn_first := run_call tlsn_call (tlsn_state 1010000 []).
Definition tlsn_verdict (r : res TlsnValidationResult) : TlsnValidationResult :=
  match r with Ok v => v | Throw _ => rejected_validation false "" end.

Lemma tlsn_acceptance_witness :
  tv_failures (tlsn_verdict tlsn_first.2) = [] /\
  exists report now, vb_signatureValid report = true /\
    acceptable (J := codec) (X := no_regexp) (U := fun _ => None) tlsn_requirement report now.
Proof.
  assert (Hnil : tv_failures (tlsn_verdict tlsn_first.2) = []) by (vm_compute; reflexivity).
  split; [exact Hnil|].
  pose proof (tlsn_acceptance (J := codec) (X := no_regexp) (U := fun _ => None) (N := toy_noble) tlsn_io
    (fun s => True) "cHJlcw==" tlsn_requirement None tlsn_executor (tlsn_state 1010000 [])
    (tlsn_verdict tlsn_first.2)) as H.
  destruct H as [H _]; [apply run_call_outcome; vm_compute; reflexivity|].
  destruct (H Hnil) as (_ & bin & report & s' & _ & _ & Hsig & _ & _ & Ha).
  exists report, (ts_now s'). split; [exact Hsig|exact Ha].
Defined.

Lemma presentation_accepted_once_witness :
  tv_failures (tlsn_verdict (run_call tlsn_call (tlsn_state 1020000 (ts_seen tlsn_first.1))).2) <> [].
Proof.
  apply (presentation_accepted_once (J := codec) (X := no_regexp) (U := fun _ => None) (N := toy_noble) tlsn_io
    "cHJlcw==" tlsn_requirement tlsn_requirement None None tlsn_executor tlsn_executor
    (tlsn_state 1010000 []) tlsn_first.1 (tlsn_state 1020000 (ts_seen tlsn_first.1))
    (run_call tlsn_call (tlsn_state 1020000 (ts_seen tlsn_first.1))).1
    (tlsn_verdict tlsn_first.2) (tlsn_verdict (run_call tlsn_call (tlsn_state 1020000 (ts_seen tlsn_first.1))).2)
    1010000 1020000 1000 300 []);
    [intros bin report (dir & e & _ & Hr) _; rewrite Hr; vm_compute; reflexivity|reflexivity|vm_compute; discriminate
    |vm_compute; reflexivity|vm_compute; reflexivity|reflexivity|constructor|vm_compute; reflexivity
    |reflexivity|reflexivity|vm_compute; discriminate|vm_compute; reflexivity].
Defined.

(** Two validations of one presentation that overlap are both accepted: the
    guard is consulted before the verifier runs and updated after. *)
Example overlapping_validations_accept :
  let '(s1, t1) := tlsn_call (tlsn_state 1010000 []) in
  let '(s2, t2) := tlsn_call s1 in
  let '(s3, r1) := run_alone t1 s2 in
  let '(_, r2) := run_alone t2 s3 in
  (tv_failures (tlsn_verdict r1), tv_failures (tlsn_verdict r2)) = ([], []).
Proof. vm_compute. reflexivity. Qed.

(** An empty domain hint disables the server check instead of falling back to
    the target: a report from any server is accepted. *)
Example empty_hint_accepts_any_server :
  let req := mkTlsnRequirement "https://bank.example/" None None None (Some "") in
  tv_failures (judge_report (J := codec) (X := no_regexp) (U := fun _ => None) req
    (mkBinaryResult true (VStr "evil.example") (Some "") None (Some (num 1000)) None) (num 1010000)) = [].
Proof. vm_compute. reflexivity. Qed.
