(* ===== verification/Verifier.v ===== *)
(** * Proof Schema bundles and the verifier core

    [packages/sdk/src/schema.ts] (the bundle registry),
    [proofs/verification/verifier.ts], the empty-submission and TLSNotary checks
    of [proofs/verification/checks], the generic-media and TLSNotary bundles,
    and the adapters of [requests/application/query-verifier.ts].  A check is an
    asynchronous function on the accumulator of one verification. *)

From S2P Require Import Prelude JsNum JsMap JsString JsValue SchemaUri QueryTypes QueryDomain PreimageStore EventLoop JsonCodec Sidecar ReplayGuard Tlsn.
From S2P Require Import TlsnSpec.

(** ** Checks and bundles *)
Record CheckAccumulator := mkAcc {
  acc_checks : list string;
  acc_failures : list string;
  acc_warnings : list string;
}.

Definition push_checks (l : list string) (a : CheckAccumulator) : CheckAccumulator :=
  mkAcc (acc_checks a ++ l) (acc_failures a) (acc_warnings a).
Definition push_failures (l : list string) (a : CheckAccumulator) : CheckAccumulator :=
  mkAcc (acc_checks a) (acc_failures a ++ l) (acc_warnings a).

Record VerifyProofOptions := mkVerifyOptions {
  vo_blossomKeys : option BlossomKeyMap;
  vo_schemaOptions : list (string * jsval);
}.

Record FactorCheckContext := mkCheckContext {
  cx_requirement : VerificationRequirement;
  cx_input : VerificationInput;
  cx_options : VerifyProofOptions;
  cx_schemaOptions : jsval;
}.

Section verifier.
Context {S : Type}.

(** A check runs on the accumulator and on [ctx.schemaVerdict]. *)
Record FactorCheck := mkCheck {
  ck_name : string;
  ck_run : FactorCheckContext -> CheckAccumulator * option jsval -> call S (CheckAccumulator * option jsval);
}.

(** [sb_ref] is the identity of the bundle object. *)
Record SchemaBundle := mkBundle {
  sb_ref : nat;
  sb_uri : string;
  sb_producer : option (jsval -> jsval -> res (jsval * (list Z + string)));
  sb_verifier : option ((list Z + string) -> jsval -> jsval -> res bool);
  sb_checks : option (list FactorCheck);
  sb_configSchema : option (jsval -> res jsval);
  sb_resolveEvidence : option (jsval -> list Z + string -> jsval);
}.

(** ** The registry: the module-level map and the [registered] flag *)
Record SchemaRegistry := mkRegistry {
  sr_bundles : list (string * SchemaBundle);
  sr_registered : bool;
}.

Definition registerSchemaBundle (bundle : SchemaBundle) (reg : SchemaRegistry) : SchemaRegistry * res unit :=
  if jm_has (sb_uri bundle) (sr_bundles reg) then
    (reg, Throw (mkExn "Error" ("Proof Schema bundle already registered: " +:+ sb_uri bundle)))
  else (mkRegistry (jm_set (sb_uri bundle) bundle (sr_bundles reg)) (sr_registered reg), Ok tt).

(** The function [registerSchemaBundle] returns. *)
Definition unregister (bundle : SchemaBundle) (reg : SchemaRegistry) : SchemaRegistry :=
  match jm_get (sb_uri bundle) (sr_bundles reg) with
  | Some current => if Nat.eqb (sb_ref current) (sb_ref bundle)
                    then mkRegistry (jm_delete (sb_uri bundle) (sr_bundles reg)) (sr_registered reg) else reg
  | None => reg
  end.

Definition unregisterSchemaBundle (uri : string) (reg : SchemaRegistry) : SchemaRegistry * bool :=
  (mkRegistry (jm_delete uri (sr_bundles reg)) (sr_registered reg), jm_has uri (sr_bundles reg)).

Definition getSchemaBundle (uri : string) (reg : SchemaRegistry) : option SchemaBundle :=
  jm_get uri (sr_bundles reg).

Definition getRegisteredSchemaBundles (reg : SchemaRegistry) : list SchemaBundle := jm_values (sr_bundles reg).

(** [options?.schemaOptions?.[bundle.uri] ?? {}], through the bundle's parser. *)
Definition resolveSchemaOptions (bundle : SchemaBundle) (options : VerifyProofOptions) : res jsval :=
  let raw := or_default (VObj []) (opt_default VUndef (assoc (sb_uri bundle) (vo_schemaOptions options))) in
  match sb_configSchema bundle with
  | None => Ok raw
  | Some parse => parse raw
  end.

Definition resolveSchemaEvidence (uri : string) (data : jsval) (proof : list Z + string) (reg : SchemaRegistry)
    : jsval :=
  match getSchemaBundle uri reg with
  | Some b => match sb_resolveEvidence b with Some f => f data proof | None => VUndef end
  | None => VUndef
  end.

(** ** Adapters: those a party configures, then that of the registered bundle *)
Record ProofGenerator := mkProofGenerator {
  pg_canHandle : string -> bool;
  pg_produce : jsval -> jsval -> res (jsval * (list Z + string));
}.
Record VerifierAdapter := mkVerifierAdapter {
  va_canHandle : string -> bool;
  va_verify : (list Z + string) -> jsval -> jsval -> res bool;
}.

Definition bundleToProofGenerator (bundle : SchemaBundle) : option ProofGenerator :=
  mkProofGenerator (fun schema => schema === sb_uri bundle) <$> sb_producer bundle.
Definition bundleToVerifierAdapter (bundle : SchemaBundle) : option VerifierAdapter :=
  mkVerifierAdapter (fun schema => schema === sb_uri bundle) <$> sb_verifier bundle.

Definition resolveProofGenerator (generators : list ProofGenerator) (uri : string) (reg : SchemaRegistry) : option ProofGenerator :=
  match List.find (fun g => pg_canHandle g uri) generators with
  | Some g => Some g
  | None => getSchemaBundle uri reg ≫= bundleToProofGenerator
  end.
Definition resolveVerifierAdapter (verifiers : list VerifierAdapter) (uri : string) (reg : SchemaRegistry) : option VerifierAdapter :=
  match List.find (fun v => va_canHandle v uri) verifiers with
  | Some v => Some v
  | None => getSchemaBundle uri reg ≫= bundleToVerifierAdapter
  end.

(** Every bundle is registered under its own URI. *)
Definition registry_keyed (reg : SchemaRegistry) : Prop := forall uri b, getSchemaBundle uri reg = Some b -> sb_uri b = uri.

Lemma registry_keyed_register bundle reg : registry_keyed reg -> registry_keyed (registerSchemaBundle bundle reg).1.
Proof.
  intros H uri b. unfold registerSchemaBundle. destruct (jm_has _ _); [apply H|]. unfold getSchemaBundle. cbn [fst sr_bundles].
  rewrite jm_get_set. case_bool_decide as E; [|apply H]. intros [= <-]. done.
Qed.

Lemma registry_keyed_unregister uri reg : registry_keyed reg -> registry_keyed (unregisterSchemaBundle uri reg).1.
Proof.
  intros H uri' b. unfold getSchemaBundle. cbn. rewrite jm_get_delete. case_bool_decide; [done|]. apply H.
Qed.

(** The adapter that is found handles the schema that was asked for; and when the
    bundle of a schema has one, an adapter is always found. *)
Lemma resolved_adapters_handle verifiers generators uri reg :
  registry_keyed reg ->
  (forall v, resolveVerifierAdapter verifiers uri reg = Some v -> va_canHandle v uri = true) /\
  (forall g, resolveProofGenerator generators uri reg = Some g -> pg_canHandle g uri = true).
Proof.
  intros Hk. unfold resolveVerifierAdapter, resolveProofGenerator. split.
  - intros v. destruct (List.find _ verifiers) as [w|] eqn:E; [intros [= <-]; by apply find_some in E as [_ E]|].
    destruct (getSchemaBundle uri reg) as [b|] eqn:Eb; [|done]. cbn. unfold bundleToVerifierAdapter.
    destruct (sb_verifier b); [|done]. intros [= <-]. cbn. by rewrite (Hk _ _ Eb), bool_decide_true.
  - intros g. destruct (List.find _ generators) as [w|] eqn:E; [intros [= <-]; by apply find_some in E as [_ E]|].
    destruct (getSchemaBundle uri reg) as [b|] eqn:Eb; [|done]. cbn. unfold bundleToProofGenerator.
    destruct (sb_producer b); [|done]. intros [= <-]. cbn. by rewrite (Hk _ _ Eb), bool_decide_true.
Qed.

(** Registration of the reference bundles, in order, stopping at the first that throws. *)
Fixpoint register_all (bundles : list SchemaBundle) (reg : SchemaRegistry) : SchemaRegistry * res unit :=
  match bundles with
  | [] => (mkRegistry (sr_bundles reg) true, Ok tt)
  | b :: bundles' =>
      match registerSchemaBundle b reg with
      | (reg', Ok _) => register_all bundles' reg'
      | (reg', Throw e) => (reg', Throw e)
      end
  end.

Variable reference_bundles : list SchemaBundle.

Definition ensureReferenceSchemaBundlesRegistered (reg : SchemaRegistry) : SchemaRegistry * res unit :=
  if sr_registered reg then (reg, Ok tt) else register_all reference_bundles reg.

Definition GenericMediaSchemaUri : string := "https://anchr-spec.org/spec/proof/photo/v1".

Definition refused (failure : string) : VerificationDetail := mkVerificationDetail false [] [failure] None None.

Fixpoint run_checks (checks : list FactorCheck) (ctx : FactorCheckContext) (st : CheckAccumulator * option jsval)
    : call S (CheckAccumulator * option jsval) :=
  match checks with
  | [] => ret st
  | c :: checks' => await (ck_run c ctx st) (fun st' => run_checks checks' ctx st')
  end.

Definition verdict_of_acc (st : CheckAccumulator * option jsval) : VerificationDetail :=
  let '(acc, verdict) := st in
  mkVerificationDetail (bool_decide (acc_failures acc = [])) (acc_checks acc) (acc_failures acc)
    (if bool_decide (acc_warnings acc = []) then None else Some (acc_warnings acc)) verdict.

(** The synchronous part works on the registry, the checks on the state. *)
Definition verifyProof (requirement : VerificationRequirement) (input : VerificationInput)
    (options : VerifyProofOptions) (reg : SchemaRegistry) : SchemaRegistry * call S VerificationDetail :=
  match ensureReferenceSchemaBundlesRegistered reg with
  | (reg', Throw e) => (reg', fail e)
  | (reg', Ok _) =>
  (reg',
   let schema := opt_default GenericMediaSchemaUri (vr_schema requirement) in
   match getSchemaBundle schema reg' with
   | None => ret (refused ("Unknown Proof Schema URL: " +:+ schema))
   | Some bundle =>
   match opt_default [] (sb_checks bundle) with
   | [] => ret (refused ("Proof Schema has no verification checks: " +:+ schema))
   | checks =>
   match resolveSchemaOptions bundle options with
   | Throw e => fail e
   | Ok schemaOptions =>
       await (run_checks checks (mkCheckContext requirement input options schemaOptions) (mkAcc [] [] [], None))
         (fun st => ret (verdict_of_acc st))
   end end end)
  end.

(** ** The empty-submission check and the generic bundle *)
Definition createEmptySubmissionCheck (requiresEvidence : FactorCheckContext -> bool) : FactorCheck :=
  mkCheck "empty-submission" (fun ctx '(acc, v) =>
    match vi_attachments (cx_input ctx) with
    | _ :: _ => ret (acc, v)
    | [] =>
        if negb (requiresEvidence ctx) then
          ret (push_checks ["no media evidence provided (weak verification)"] acc, v)
        else ret (push_failures
          ["no media evidence provided — photos are required when photo-backed verification is enabled"] acc, v)
    end).

Definition genericMediaCheck : FactorCheck :=
  mkCheck "generic-media" (fun ctx '(acc, v) =>
    match vi_attachments (cx_input ctx) with
    | _ :: _ => ret (push_checks ["attachment present"] acc, v)
    | [] => ret (acc, v)
    end).

(** [Object.keys(value).length > 0] for objects and arrays, true for other defined values. *)
Definition hasNonEmptySchemaEvidence (value : option jsval) : bool :=
  match value with
  | None | Some VUndef => false
  | Some (VObj o) => bool_decide (o <> [])
  | Some (VArr l) => bool_decide (l <> [])
  | Some VFun => true
  | Some _ => true
  end.

Definition is_defined (v : option jsval) : bool :=
  match v with None | Some VUndef => false | Some _ => true end.

Definition generic_requires_evidence (ctx : FactorCheckContext) : bool :=
  is_defined (vr_schema_requirement (cx_requirement ctx)) || hasNonEmptySchemaEvidence (vi_schema_evidence (cx_input ctx)).

Definition createGenericMediaSchemaBundle (ref : nat) : SchemaBundle :=
  mkBundle ref GenericMediaSchemaUri None None
    (Some [createEmptySubmissionCheck generic_requires_evidence; genericMediaCheck]) None None.
End verifier.
Arguments FactorCheck S : clear implicits.
Arguments SchemaBundle S : clear implicits.
Arguments SchemaRegistry S : clear implicits.

(** ** The TLSNotary check and bundle *)
Section tlsn.
Context `{J : JSON} `{X : RegExpApi} `{U : UrlApi} `{N : Noble} {E : Type} (io : TlsnIo (E := E)).
Notation State := (TlsnState (E := E)).
Notation Validator := (string -> TlsnRequirement -> option (option string) -> SidecarExecutor ->
                       call State TlsnValidationResult).

(** The platform's executor, and what host-supplied functions in the options stand for. *)
Variables (serverSidecarExecutor hostExecutor : SidecarExecutor) (hostValidateTlsn : Validator).

Definition is_executor_value (v : jsval) : bool :=
  isRecord v && is_fun (prop "spawn" v) && is_fun (prop "which" v) && is_fun (prop "isFile" v).

Definition isTlsnSchemaOptions (value : jsval) : bool :=
  isRecord value &&
  (is_undef (prop "validateTlsn" value) || is_fun (prop "validateTlsn" value)) &&
  match prop "verifierPath" value with VUndef | VNull | VStr _ => true | _ => false end &&
  (is_undef (prop "executor" value) || is_executor_value (prop "executor" value)) &&
  (is_undef (prop "notaryUrl" value) || is_str (prop "notaryUrl" value)).

Definition parseTlsnSchemaOptions (value : jsval) : res jsval :=
  if isTlsnSchemaOptions value then Ok value
  else Throw (mkExn "Error" "TLSNotary Proof Schema options must be an object").

(** [{...a, ...b}] *)
Definition spread (a b : list (string * jsval)) : list (string * jsval) :=
  fold_left (fun o kv => set_field kv.1 kv.2 o) b a.

Definition path_option (v : jsval) : option (option string) :=
  match v with VUndef => None | VStr s => Some (Some s) | _ => Some None end.

Definition verified_value (d : TlsnVerifiedData) : jsval :=
  VObj [("server_name", VStr (td_server_name d)); ("revealed_body", VStr (td_revealed_body d));
        ("revealed_headers", str_field (td_revealed_headers d)); ("session_timestamp", VNum (td_session_timestamp d))].

Definition isTlsnVerifiedData (value : jsval) : bool :=
  isRecord value && is_str (prop "server_name" value) && is_str (prop "revealed_body" value) &&
  (is_undef (prop "revealed_headers" value) || is_str (prop "revealed_headers" value)) && is_num (prop "session_timestamp" value).

(** The verdict data of a verification passes the published guard. *)
Lemma verified_value_guard d : isTlsnVerifiedData (verified_value d) = true.
Proof. destruct d as [? ? [h|] ?]; reflexivity. Qed.

(** Run the validator and push its checks and failures. *)
Definition verifyTlsnAttestation (presentation : string) (requirement : TlsnRequirement) (validate : Validator)
    (path : option (option string)) (ex : SidecarExecutor) (acc : CheckAccumulator)
    : call State (CheckAccumulator * option jsval) :=
  await (validate presentation requirement path ex) (fun r =>
    ret (push_failures (tv_failures r) (push_checks (tv_checks r) acc), verified_value <$> tv_verifiedData r)).

Definition verifyTlsnExtensionResult (presentation : option string) (requirement : TlsnRequirement)
    (validate : Validator) (path : option (option string)) (ex : SidecarExecutor) (acc : CheckAccumulator)
    : call State (CheckAccumulator * option jsval) :=
  match truthy presentation with
  | Some p => verifyTlsnAttestation p requirement validate path ex acc
  | None => ret (push_failures
      ["TLSNotary extension: no cryptographic presentation included — self-reported data cannot be trusted"] acc, None)
  end.

Definition verifyTlsn (requirement : VerificationRequirement) (input : VerificationInput) (validate : Validator)
    (path : option (option string)) (ex : SidecarExecutor) (acc : CheckAccumulator)
    : call State (CheckAccumulator * option jsval) :=
  match vr_schema_requirement requirement ≫= isTlsnRequirement with
  | None => ret (push_failures ["TLSNotary: query missing or invalid schema_requirement"] acc, None)
  | Some req =>
  match vi_schema_evidence input with
  | None | Some VUndef => ret (push_failures ["TLSNotary: no attestation provided"] acc, None)
  | Some evidence =>
  match isTlsnExtensionResult evidence with
  | Some presentation => verifyTlsnExtensionResult presentation req validate path ex acc
  | None =>
  match isTlsnAttestation evidence with
  | Some presentation => verifyTlsnAttestation presentation req validate path ex acc
  | None => ret (push_failures ["TLSNotary: invalid schema_evidence"] acc, None)
  end end end end.

Definition createTlsnCheck (defaultOptions : list (string * jsval)) : FactorCheck State :=
  mkCheck "tlsn" (fun ctx '(acc, _) =>
    match parseTlsnSchemaOptions (VObj (spread defaultOptions (own_fields (cx_schemaOptions ctx)))) with
    | Throw e => fail e
    | Ok options =>
        await (verifyTlsn (cx_requirement ctx) (cx_input ctx)
                 (if is_undef (prop "validateTlsn" options) then validateTlsn io else hostValidateTlsn)
                 (path_option (prop "verifierPath" options))
                 (if is_undef (prop "executor" options) then serverSidecarExecutor else hostExecutor) acc)
          (fun st => ret st)
    end).

Definition createTlsnSchemaBundle (ref : nat) (options : list (string * jsval)) : SchemaBundle State :=
  mkBundle ref ProofSchema_TlsnV1 None None (Some [createTlsnCheck options]) (Some parseTlsnSchemaOptions)
    (Some (fun _ proof => match proof with
                          | inr p => if str_truthy p then VObj [("presentation", VStr p)] else VUndef
                          | inl _ => VUndef
                          end)).
End tlsn.

(** ** From queries to requirements: [query-verifier.ts] *)
Section adapters.
Context `{N : Noble}.

Definition requestToRequirement (request : Query) : VerificationRequirement :=
  let escrowTokenHash :=
    match q_escrow request with
    | Some e => match esc_type e with
                | p2pk_frost _ => sha256_hex <$> truthy (esc_escrow_token e)
                | htlc _ => None
                end
    | None => None
    end in
  mkVerificationRequirement (q_id request) (Some (opt_default DEFAULT_QUERY_SCHEMA (q_schema request)))
    (q_verification_requirements request) (Some (q_description request)) (q_challenge_nonce request)
    (q_schema_requirement request) escrowTokenHash.

Definition resultToVerificationInput (result : QueryResult) : VerificationInput :=
  mkVerificationInput (res_attachments result) (res_schema_evidence result).
End adapters.

(** [verify(request, result, options)] *)
Definition verify `{N : Noble} {S} (reference_bundles : list (SchemaBundle S)) (request : Query) (result : QueryResult)
    (options : VerifyProofOptions) (reg : SchemaRegistry S) : SchemaRegistry S * call S VerificationDetail :=
  verifyProof reference_bundles (requestToRequirement request) (resultToVerificationInput result) options reg.

(** ** What a passing verdict establishes

    The verifier core fails closed; a TLSNotary verdict is backed by an accepted
    presentation; the generic bundle's policy; and the registration order that
    leaves the verifier unusable. *)

Section core.
Context {S : Type} (reference_bundles : list (SchemaBundle S)).

(** A verdict comes from the checks of the bundle registered for the schema. *)
Lemma verifyProof_outcome R req input opts reg s d :
  outcome R (verifyProof reference_bundles req input opts reg).2 s (Ok d) -> vd_passed d = true ->
  exists bundle checks schemaOptions st,
    getSchemaBundle (opt_default GenericMediaSchemaUri (vr_schema req))
      (verifyProof reference_bundles req input opts reg).1 = Some bundle /\
    sb_checks bundle = Some checks /\ checks <> [] /\ resolveSchemaOptions bundle opts = Ok schemaOptions /\
    outcome R (run_checks checks (mkCheckContext req input opts schemaOptions) (mkAcc [] [] [], None)) s (Ok st) /\
    d = verdict_of_acc st /\ acc_failures st.1 = [].
Proof.
  unfold verifyProof. destruct (ensureReferenceSchemaBundlesRegistered _ _) as [reg' [u|e]]; simpl;
    [|intros H; apply resolves_Settled in H; done].
  destruct (getSchemaBundle _ reg') as [bundle|] eqn:Hb; [|intros H Hp; apply outcome_ret in H; by simplify_eq/=].
  destruct (sb_checks bundle) as [[|c checks]|] eqn:Hc; simpl;
    [intros H Hp; apply outcome_ret in H; by simplify_eq/=| |intros H Hp; apply outcome_ret in H; by simplify_eq/=].
  destruct (resolveSchemaOptions bundle opts) as [so|e] eqn:Ho; [|intros H; apply resolves_Settled in H; done].
  intros H Hp. apply outcome_await in H as (st & s' & Hst & _ & H). apply outcome_ret in H. simplify_eq.
  exists bundle, (c :: checks), so, st. split_and!; try done.
  destruct st as [acc v]. simpl in *. by apply bool_decide_eq_true_1 in Hp.
Qed.

Lemma outcome_run_checks_cons R (c : FactorCheck S) checks ctx st s st' :
  outcome R (run_checks (c :: checks) ctx st) s (Ok st') ->
  exists st1 s1, outcome R (ck_run c ctx st) s (Ok st1) /\ R s1 /\ outcome R (run_checks checks ctx st1) s1 (Ok st').
Proof. apply outcome_await. Qed.

(** The checks of a list ran one after the other, each to its end and each on what
    the one before it left, with a state of [R] whenever one is resumed or started. *)
Inductive ran_in_order (R : S -> Prop) (ctx : FactorCheckContext) :
    list (FactorCheck S) -> S -> CheckAccumulator * option jsval -> CheckAccumulator * option jsval -> Prop :=
| ran_none s st : ran_in_order R ctx [] s st st
| ran_next c checks s s1 st st1 st' :
    outcome R (ck_run c ctx st) s (Ok st1) -> R s1 -> ran_in_order R ctx checks s1 st1 st' ->
    ran_in_order R ctx (c :: checks) s st st'.

Lemma run_checks_in_order R ctx checks st s st' :
  outcome R (run_checks checks ctx st) s (Ok st') -> ran_in_order R ctx checks s st st'.
Proof.
  revert st s. induction checks as [|c checks IH]; intros st s H.
  - apply outcome_ret in H. simplify_eq. constructor.
  - apply outcome_run_checks_cons in H as (st1 & s1 & H1 & HR & H). econstructor; [exact H1|exact HR|]. by apply IH.
Qed.

(** A state in which some reference bundle cannot be registered. *)
Definition blocked (reg : SchemaRegistry S) : Prop :=
  sr_registered reg = false /\ exists b, b ∈ reference_bundles /\ jm_has (sb_uri b) (sr_bundles reg) = true.

Lemma register_all_blocked (bundles : list (SchemaBundle S)) reg :
  (exists b, b ∈ bundles /\ jm_has (sb_uri b) (sr_bundles reg) = true) -> sr_registered reg = false ->
  let '(reg', r) := register_all bundles reg in
  sr_registered reg' = false /\ is_ok r = false /\
  forall uri, jm_has uri (sr_bundles reg) = true -> jm_has uri (sr_bundles reg') = true.
Proof.
  revert reg. induction bundles as [|b bundles IH]; intros reg (b' & Hb & Hh) Hr; [by apply not_elem_of_nil in Hb|].
  cbn [register_all]. unfold registerSchemaBundle. destruct (jm_has (sb_uri b) (sr_bundles reg)) eqn:E; [done|].
  apply elem_of_cons in Hb as [->|Hb]; [congruence|].
  specialize (IH (mkRegistry (jm_set (sb_uri b) b (sr_bundles reg)) (sr_registered reg))).
  destruct (register_all bundles _) as [reg' r]. destruct IH as (H1 & H2 & H3).
  - exists b'. split; [done|]. simpl. rewrite jm_has_set, Hh. by rewrite orb_true_r.
  - done.
  - split_and!; [done|done|]. intros uri Hu. apply H3. simpl. rewrite jm_has_set, Hu. by rewrite orb_true_r.
Qed.

Lemma blocked_step req input opts reg :
  blocked reg ->
  blocked (verifyProof reference_bundles req input opts reg).1 /\
  exists e, (verifyProof reference_bundles req input opts reg).2 = fail e.
Proof.
  intros (Hr & b & Hb & Hh). unfold verifyProof, ensureReferenceSchemaBundlesRegistered. rewrite Hr.
  pose proof (register_all_blocked reference_bundles reg (ex_intro _ b (conj Hb Hh)) Hr) as H.
  destruct (register_all _ _) as [reg' [u|e]]; destruct H as (H1 & H2 & H3); [done|].
  split; [|by exists e]. split; [done|]. exists b. split; [done|]. by apply H3.
Qed.
End core.

Section tlsn_spec.
Context `{J : JSON} `{X : RegExpApi} `{U : UrlApi} `{N : Noble} {E : Type} (io : TlsnIo (E := E)).
Context (server host : SidecarExecutor)
  (hostValidate : string -> TlsnRequirement -> option (option string) -> SidecarExecutor ->
                  call (TlsnState (E := E)) TlsnValidationResult).
Notation State := (TlsnState (E := E)).

(** The presentation an evidence value carries. *)
Definition carries (evidence : jsval) (p : string) : Prop :=
  isTlsnExtensionResult evidence = Some (Some p) \/ isTlsnAttestation evidence = Some p.

(** An accepted presentation [p] for requirement [req], validated from state [s]. *)
Definition presentation_backed (R : State -> Prop) (s : State) (p : string) (req : TlsnRequirement) : Prop :=
  hash_unseen p s /\ exists bin report s', from_binary io bin p report /\ vb_signatureValid report = true /\
    R s' /\ acceptable req report (ts_now s').

Lemma attestation_outcome R p req path ex acc (s : State) st :
  outcome R (verifyTlsnAttestation p req (validateTlsn io) path ex acc) s (Ok st) -> acc_failures st.1 = [] ->
  presentation_backed R s p req.
Proof.
  intros H Hf. apply outcome_await in H as (r & s1 & Hr & _ & H). apply outcome_ret in H. simplify_eq/=.
  apply app_nil in Hf as [_ Hf].
  apply (validate_accepts io) in Hr as [Hacc _]. destruct (Hacc Hf) as (Hu & bin & report & s' & _ & Hb & Hs & HR & _ & Ha).
  split; [done|]. by exists bin, report, s'.
Qed.

Lemma verifyTlsn_outcome R vreq input path ex acc (s : State) st :
  outcome R (verifyTlsn vreq input (validateTlsn io) path ex acc) s (Ok st) -> acc_failures st.1 = [] ->
  exists v req evidence p, vr_schema_requirement vreq = Some v /\ isTlsnRequirement v = Some req /\
    vi_schema_evidence input = Some evidence /\ carries evidence p /\ presentation_backed R s p req.
Proof.
  intros H Hf. unfold verifyTlsn in H.
  assert (Hret : forall l, outcome R (ret (push_failures l acc, None)) s (Ok st) -> l <> [] -> False).
  { intros l Hr Hl. apply outcome_ret in Hr. simplify_eq/=. by apply app_nil in Hf as [_ ?]. }
  destruct (vr_schema_requirement vreq) as [v|]; simpl in H; [|by destruct (Hret _ H)].
  destruct (isTlsnRequirement v) as [req|] eqn:Ev; [|by destruct (Hret _ H)].
  destruct (vi_schema_evidence input) as [evidence|]; [|by destruct (Hret _ H)].
  assert (H' : outcome R (match isTlsnExtensionResult evidence with
      | Some presentation => verifyTlsnExtensionResult presentation req (validateTlsn io) path ex acc
      | None => match isTlsnAttestation evidence with
        | Some presentation => verifyTlsnAttestation presentation req (validateTlsn io) path ex acc
        | None => ret (push_failures ["TLSNotary: invalid schema_evidence"] acc, None) end end) s (Ok st)).
  { destruct evidence; try done. by destruct (Hret _ H). }
  clear H. exists v, req, evidence.
  destruct (isTlsnExtensionResult evidence) as [po|] eqn:Ee.
  - unfold verifyTlsnExtensionResult in H'. destruct (truthy po) as [p|] eqn:Et; [|by destruct (Hret _ H')].
    apply truthy_Some in Et as [-> _]. exists p. split_and!; try done; [by left|]. by eapply attestation_outcome.
  - destruct (isTlsnAttestation evidence) as [p|] eqn:Ea; [|by destruct (Hret _ H')].
    exists p. split_and!; try done; [by right|]. by eapply attestation_outcome.
Qed.

Lemma tlsn_check_outcome R req input opts so (s : State) st st' :
  so = VObj [] -> acc_failures st.1 = [] ->
  outcome R (ck_run (createTlsnCheck io server host hostValidate []) (mkCheckContext req input opts so) st) s (Ok st') ->
  acc_failures st'.1 = [] ->
  exists v treq evidence p, vr_schema_requirement req = Some v /\ isTlsnRequirement v = Some treq /\
    vi_schema_evidence input = Some evidence /\ carries evidence p /\ presentation_backed R s p treq.
Proof.
  intros -> Hacc H Hf. destruct st as [acc w]. simpl in H.
  apply outcome_await in H as (st1 & s1 & Hst & _ & H). apply outcome_ret in H. simplify_eq.
  by eapply verifyTlsn_outcome.
Qed.
End tlsn_spec.

(** * Properties *)

(** C18: The verifier fails closed: a passing verdict means that a bundle with at
    least one check is registered for the requirement's schema, its options
    parsed, every one of its checks ran to its end, in order, the first on an empty
    accumulator and each next one on what the one before left, and after the last one
    no failure is recorded; the verdict reports the checks, the warnings and the
    schema verdict they recorded. *)
Theorem verifier_fails_closed {S} (reference_bundles : list (SchemaBundle S)) R req input opts reg s d :
  outcome R (verifyProof reference_bundles req input opts reg).2 s (Ok d) -> vd_passed d = true ->
  exists bundle checks schemaOptions acc verdict,
    getSchemaBundle (opt_default GenericMediaSchemaUri (vr_schema req))
      (verifyProof reference_bundles req input opts reg).1 = Some bundle /\
    sb_checks bundle = Some checks /\ checks <> [] /\ resolveSchemaOptions bundle opts = Ok schemaOptions /\
    ran_in_order R (mkCheckContext req input opts schemaOptions) checks s (mkAcc [] [] [], None) (acc, verdict) /\
    acc_failures acc = [] /\ vd_failures d = [] /\ vd_checks d = acc_checks acc /\ opt_default [] (vd_warnings d) = acc_warnings acc /\
    vd_schema_verdict d = verdict.
Proof.
  intros H Hp. destruct (verifyProof_outcome _ _ _ _ _ _ _ _ H Hp) as (bundle & checks & so & [acc v] & H1 & H2 & H3 & H4 & H5 & -> & Hf).
  exists bundle, checks, so, acc, v. cbn in *. split_and!; try done; [by apply run_checks_in_order|].
  clear. by destruct (acc_warnings acc).
Qed.

(** A TLSNotary verdict is backed by cryptographic evidence: when the reference
    bundle is registered for the schema and no options override it, a passing
    verdict means that the requirement is a TLSNotary requirement, the evidence
    carries a presentation not used before, and the verifier binary reported a
    valid signature for it with the expected server, recent and satisfying
    every condition. *)
Theorem tlsn_verdict_backed `{J : JSON} `{X : RegExpApi} `{U : UrlApi} `{N : Noble} {E}
    (io : TlsnIo (E := E)) server host hostValidate reference_bundles R req input opts reg s d ref :
  vr_schema req = Some ProofSchema_TlsnV1 -> vo_schemaOptions opts = [] ->
  getSchemaBundle ProofSchema_TlsnV1 (verifyProof reference_bundles req input opts reg).1 =
    Some (createTlsnSchemaBundle io server host hostValidate ref []) ->
  outcome R (verifyProof reference_bundles req input opts reg).2 s (Ok d) -> vd_passed d = true ->
  exists v treq evidence p, vr_schema_requirement req = Some v /\ isTlsnRequirement v = Some treq /\
    vi_schema_evidence input = Some evidence /\ carries evidence p /\ presentation_backed io R s p treq.
Proof.
  intros Hschema Hopts Hb H Hp.
  destruct (verifyProof_outcome _ _ _ _ _ _ _ _ H Hp) as (bundle & checks & so & st & Hb' & Hc & _ & Hso & Hrun & _ & Hf).
  rewrite Hschema in Hb'. simpl in Hb'. rewrite Hb in Hb'. injection Hb' as <-. injection Hc as <-.
  unfold resolveSchemaOptions in Hso. rewrite Hopts in Hso. simpl in Hso. injection Hso as <-.
  apply outcome_run_checks_cons in Hrun as (st1 & s1 & H1 & _ & H2). apply outcome_ret in H2. simplify_eq.
  exact (tlsn_check_outcome io server host hostValidate R req input opts _ s (mkAcc [] [] [], None) st1 eq_refl eq_refl H1 Hf).
Qed.

(** The generic media bundle passes exactly when something is attached, or when
    nothing is required: no schema requirement and no (non-empty) evidence. *)
Theorem generic_media_exact {S} (reference_bundles : list (SchemaBundle S)) R req input opts reg s d ref :
  opt_default GenericMediaSchemaUri (vr_schema req) = GenericMediaSchemaUri ->
  getSchemaBundle GenericMediaSchemaUri (verifyProof reference_bundles req input opts reg).1 =
    Some (createGenericMediaSchemaBundle ref) ->
  outcome R (verifyProof reference_bundles req input opts reg).2 s (Ok d) ->
  (vd_passed d = true <->
   vi_attachments input <> [] \/
   (is_defined (vr_schema_requirement req) = false /\ hasNonEmptySchemaEvidence (vi_schema_evidence input) = false)).
Proof.
  intros Hschema Hb. unfold verifyProof in *.
  destruct (ensureReferenceSchemaBundlesRegistered _ _) as [reg' [u|e]]; simpl in *;
    [|intros H; apply resolves_Settled in H; done].
  rewrite Hschema, Hb. cbn [sb_checks createGenericMediaSchemaBundle opt_default resolveSchemaOptions sb_configSchema]. intros H.
  apply outcome_await in H as (st & s1 & Hst & _ & H). apply outcome_ret in H. simplify_eq.
  apply outcome_run_checks_cons in Hst as (st1 & s2 & H1 & _ & Hst).
  apply outcome_run_checks_cons in Hst as (st2 & s3 & H2 & _ & Hst). apply outcome_ret in Hst. simplify_eq.
  simpl in H1, H2. unfold generic_requires_evidence in H1. simpl in H1.
  destruct (vi_attachments input) as [|a l].
  - destruct (is_defined _), (hasNonEmptySchemaEvidence _); simpl in H1; apply outcome_ret in H1; simplify_eq/=;
      apply outcome_ret in H2; simplify_eq/=; naive_solver.
  - apply outcome_ret in H1. simplify_eq/=. apply outcome_ret in H2. simplify_eq/=. naive_solver.
Qed.

(** Registering any reference schema before the first verification leaves the
    verifier unusable: every later call rejects, whatever it is asked. *)
Theorem host_registration_blocks_verifier {S} (reference_bundles : list (SchemaBundle S)) b reg reg1 calls req input opts :
  b ∈ reference_bundles -> sr_registered reg = false -> registerSchemaBundle b reg = (reg1, Ok tt) ->
  let later := fold_left (fun r c => (verifyProof reference_bundles c.1.1 c.1.2 c.2 r).1) calls reg1 in
  exists e, (verifyProof reference_bundles req input opts later).2 = fail e.
Proof.
  intros Hb Hr Hreg later. apply blocked_step. subst later.
  assert (H1 : blocked reference_bundles reg1).
  { unfold registerSchemaBundle in Hreg. case_match; simplify_eq. split; [done|]. exists b. split; [done|].
    simpl. rewrite jm_has_set. by rewrite bool_decide_true. }
  clear Hreg Hr. revert reg1 H1. induction calls as [|c calls IH]; intros reg1 H1; simpl; [done|].
  apply IH. by apply blocked_step.
Qed.

(** * Witnesses *)
Definition ref_tlsn : SchemaBundle (TlsnState (E := unit)) :=
  createTlsnSchemaBundle (J := codec) (X := no_regexp) (U := fun _ => None) (N := toy_noble) tlsn_io tlsn_executor
    tlsn_executor (fun _ _ _ _ => ret (rejected_validation false "")) 2 [].
Definition ref_bundles : list (SchemaBundle (TlsnState (E := unit))) := [createGenericMediaSchemaBundle 1; ref_tlsn].
Definition tlsn_vreq : VerificationRequirement := mkVerificationRequirement "q1" (Some ProofSchema_TlsnV1) [] None None
  (Some (VObj [("target_url", VStr "https://api.example/price"); ("domain_hint", VStr "api.example")])) None.
Definition tlsn_vinput : VerificationInput := mkVerificationInput [] (Some (VObj [("presentation", VStr "cHJlcw==")])).
Definition no_options : VerifyProofOptions := mkVerifyOptions None [].
Definition fresh_registry : SchemaRegistry (TlsnState (E := unit)) := mkRegistry [] false.
Definition tlsn_verification := verifyProof ref_bundles tlsn_vreq tlsn_vinput no_options fresh_registry.
Definition generic_vreq : VerificationRequirement := mkVerificationRequirement "q1" None [] None None None None.
Definition generic_verification := verifyProof ref_bundles generic_vreq (mkVerificationInput [] None) no_options fresh_registry.
Definition detail_of (r : res VerificationDetail) : VerificationDetail :=
  match r with Ok d => d | Throw _ => refused "" end.

Lemma verifier_fails_closed_witness :
  exists bundle checks so acc v, getSchemaBundle ProofSchema_TlsnV1 tlsn_verification.1 = Some bundle /\
    sb_checks bundle = Some checks /\ checks <> [] /\
    ran_in_order (fun _ => True) (mkCheckContext tlsn_vreq tlsn_vinput no_options so) checks (tlsn_state 1010000 [])
      (mkAcc [] [] [], None) (acc, v).
Proof.
  destruct (verifier_fails_closed ref_bundles (fun _ => True) tlsn_vreq tlsn_vinput no_options fresh_registry
    (tlsn_state 1010000 []) (detail_of (run_call tlsn_verification.2 (tlsn_state 1010000 [])).2))
    as (bundle & checks & so & acc & v & H1 & H2 & H3 & _ & H5 & _);
    [apply run_call_outcome; vm_compute; reflexivity|vm_compute; reflexivity|].
  exists bundle, checks, so, acc, v. split; [exact H1|split; [exact H2|split; [exact H3|exact H5]]].
Defined.

Lemma tlsn_verdict_backed_witness :
  exists evidence p, vi_schema_evidence tlsn_vinput = Some evidence /\ carries evidence p.
Proof.
  destruct (tlsn_verdict_backed (J := codec) (X := no_regexp) (U := fun _ => None) (N := toy_noble) tlsn_io tlsn_executor
    tlsn_executor (fun _ _ _ _ => ret (rejected_validation false "")) ref_bundles (fun _ => True) tlsn_vreq tlsn_vinput
    no_options fresh_registry (tlsn_state 1010000 [])
    (detail_of (run_call tlsn_verification.2 (tlsn_state 1010000 [])).2) 2)
    as (v & treq & evidence & p & _ & _ & H1 & H2 & _);
    [reflexivity|reflexivity|reflexivity|apply run_call_outcome; vm_compute; reflexivity|vm_compute; reflexivity|].
  exists evidence, p. split; [exact H1|exact H2].
Defined.

Lemma generic_media_exact_witness :
  vd_passed (detail_of (run_call generic_verification.2 (tlsn_state 0 [])).2) = true.
Proof.
  apply (generic_media_exact ref_bundles (fun _ => True) generic_vreq (mkVerificationInput [] None) no_options
    fresh_registry (tlsn_state 0 []) _ 1);
    [reflexivity|reflexivity|apply run_call_outcome; vm_compute; reflexivity|right; split; reflexivity].
Defined.

Lemma host_registration_blocks_verifier_witness :
  exists e, (verifyProof ref_bundles tlsn_vreq tlsn_vinput no_options
    (verifyProof ref_bundles generic_vreq tlsn_vinput no_options (registerSchemaBundle ref_tlsn fresh_registry).1).1).2 = fail e.
Proof.
  apply (host_registration_blocks_verifier ref_bundles ref_tlsn fresh_registry
    (registerSchemaBundle ref_tlsn fresh_registry).1 [(generic_vreq, tlsn_vinput, no_options)]);
    [right; left|reflexivity|reflexivity].
Defined.
