(* ===== verification/FrostSigner.v ===== *)
(** * FROST signers

    The per-node signing protocol, twice in the source: the in-process signer
    [payments/frost/frost-signer.ts] and the peer endpoints
    [adapters/oracle-service/frost-signer-routes.ts] behind the API-key check of
    [auth.ts].  Both keep the nonces of round 1 in a map of sessions until
    round 2 consumes them.  The state carries a log of created sessions and
    spawned processes, which the code does not have, to state what happened. *)

From S2P Require Import Prelude JsNum JsMap JsString JsValue EventLoop QueryTypes PreimageStore Sidecar CashuTypes CashuEscrow.
From S2P Require Import FrostCli.

Record NonceSession := mkNonceSession { ns_noncesJson : string; ns_messageHex : string }.

(** [Created] records the verdict the session was opened under, [OpenedFor] also the
    body of the peer request that opened it. *)
Inductive signer_event :=
| Created (id : string) (session : NonceSession) (detail : VerificationDetail)
| OpenedFor (id : string) (session : NonceSession) (body : option jsval) (detail : VerificationDetail)
| Spawned (cmd : list string).

Section signer.
Context `{J : JSON} `{N : Noble} `{L : CashuLib} {E : Type}.

Record SignerState := mkSignerState {
  sg_pending : list (string * NonceSession);
  sg_log : list signer_event;
  sg_env : E;
}.

Definition sg_put (e : E) (s : SignerState) : SignerState := mkSignerState (sg_pending s) (sg_log s) e.

(** The world: processes, [crypto.randomUUID()], and the proof verifier. *)
Variables (spawn : list string -> E -> E * ProcOutcome) (randomUUID : E -> E * string).

Definition sg_spawn (cmd : list string) (s : SignerState) : SignerState * ProcOutcome :=
  let '(e, o) := spawn cmd (sg_env s) in (mkSignerState (sg_pending s) (sg_log s ++ [Spawned cmd]) e, o).

(** [pendingSessions.set(crypto.randomUUID(), session)] *)
Definition open_session (session : NonceSession) (detail : VerificationDetail) (s : SignerState)
    : SignerState * string :=
  let '(e, id) := randomUUID (sg_env s) in
  (mkSignerState (jm_set id session (sg_pending s)) (sg_log s ++ [Created id session detail]) e, id).

(** The same at the endpoint, with the request's body in the log. *)
Definition open_for_request (session : NonceSession) (body : option jsval) (detail : VerificationDetail) (s : SignerState)
    : SignerState * string :=
  let '(s', id) := open_session session detail s in
  (mkSignerState (sg_pending s') (sg_log s' ++ [OpenedFor id session body detail]) (sg_env s'), id).

(** [pendingSessions.delete(id)] *)
Definition close_session (id : string) (s : SignerState) : SignerState :=
  mkSignerState (jm_delete id (sg_pending s)) (sg_log s) (sg_env s).

Definition asJsonString (value : jsval) : string :=
  match value with VStr s => s | _ => JSON_stringify value end.

Definition asJsonStringMap (value : jsval) : list (string * string) :=
  match value with
  | VObj o => (fun kv => (kv.1, asJsonString kv.2)) <$> o
  | _ => []
  end.

(** ** The in-process signer *)
Record FrostSignerConfig := mkSignerConfig {
  sc_signerIndex : number;
  sc_keyPackage : string;
  sc_frostSignerPath : option (option string);
  sc_executor : SidecarExecutor;
}.

Record SignerOutput := mkSignerOutput {
  so_nonce_commitment : option string;
  so_session_id : option string;
  so_signature_share : option string;
}.

Record DkgRoundInput := mkDkgInput {
  di_maxSigners : option number;
  di_minSigners : option number;
  di_secretPackage : option string;
  di_round1Packages : option string;
  di_round2SecretPackage : option string;
  di_round2Packages : option string;
}.

Record DkgRoundOutput := mkDkgOutput {
  do_secretPackage : option string;
  do_package : option string;
  do_packages : option (list (string * string));
  do_keyPackage : option string;
  do_pubkeyPackage : option string;
  do_groupPubkey : option string;
}.

Inductive dkg_round_number := dkg1 | dkg2 | dkg3.

Definition dkgRound (config : FrostSignerConfig) (round : dkg_round_number) (input : DkgRoundInput)
    : call SignerState (option DkgRoundOutput) :=
  let answer (c : call SignerState FrostCliResult) (k : jsval -> DkgRoundOutput) :=
    await c (fun r => ret (k <$> cli_data r)) in
  let path := sc_frostSignerPath config in
  let ex := sc_executor config in
  match round with
  | dkg1 =>
      answer (dkgRound1 sg_spawn (sc_signerIndex config) (opt_default (num 3) (di_maxSigners input))
                (opt_default (num 2) (di_minSigners input)) path ex)
        (fun d => mkDkgOutput (Some (asJsonString (prop "secret_package" d))) (Some (asJsonString (prop "package" d)))
                    None None None None)
  | dkg2 =>
      match truthy (di_secretPackage input), truthy (di_round1Packages input) with
      | Some secret, Some r1 =>
          answer (dkgRound2 sg_spawn secret r1 path ex)
            (fun d => mkDkgOutput (Some (asJsonString (prop "secret_package" d))) None
                        (Some (asJsonStringMap (prop "packages" d))) None None None)
      | _, _ => ret None
      end
  | dkg3 =>
      match truthy (di_round2SecretPackage input), truthy (di_round1Packages input), truthy (di_round2Packages input) with
      | Some secret, Some r1, Some r2 =>
          answer (dkgRound3 sg_spawn secret r1 r2 path ex)
            (fun d => mkDkgOutput None None None (Some (asJsonString (prop "key_package" d)))
                        (Some (asJsonString (prop "pubkey_package" d))) (Some (js_string (prop "group_pubkey" d))))
      | _, _, _ => ret None
      end
  end.

Variable verifyProof : VerificationRequirement -> VerificationInput -> option BlossomKeyMap -> call E VerificationDetail.

(** Round 1: fresh nonces are kept under a new session id. *)
Definition sign_round1 (config : FrostSignerConfig) (message : string) (detail : VerificationDetail)
    : call SignerState (option SignerOutput) :=
  await (signRound1 sg_spawn (sc_keyPackage config) (sc_frostSignerPath config) (sc_executor config)) (fun r1 s =>
    match cli_data r1 with
    | None => ret None s
    | Some d =>
        let '(s', id) := open_session (mkNonceSession (asJsonString (prop "nonces" d)) message) detail s in
        ret (Some (mkSignerOutput (Some (asJsonString (prop "commitments" d))) (Some id) None)) s'
    end).

(** Round 2: the session is consumed before anything else happens. *)
Definition sign_round2 (config : FrostSignerConfig) (message commitmentsJson : string) (sessionId : option string)
    : call SignerState (option SignerOutput) := fun s =>
  match truthy sessionId with
  | None => ret None s
  | Some id =>
  match jm_get id (sg_pending s) with
  | None => ret None s
  | Some session =>
      let s := close_session id s in
      if ns_messageHex session !== message then ret None s
      else
        await (signRound2 sg_spawn (sc_keyPackage config) (ns_noncesJson session) commitmentsJson message
                 (sc_frostSignerPath config) (sc_executor config))
          (fun r2 => ret match cli_data r2 with
                         | None => None
                         | Some d => Some (mkSignerOutput None None (Some (asJsonString (prop "signature_share" d))))
                         end) s
  end end.

Definition verifyAndSign (config : FrostSignerConfig) (requirement : VerificationRequirement)
    (input : VerificationInput) (message : string) (commitmentsJson : option string)
    (blossomKeys : option BlossomKeyMap) (sessionId : option string) : call SignerState (option SignerOutput) :=
  await (zoom sg_env sg_put (verifyProof requirement input blossomKeys)) (fun detail =>
    if negb (vd_passed detail) then ret None
    else match truthy commitmentsJson with
         | None => sign_round1 config message detail
         | Some commitments => sign_round2 config message commitments sessionId
         end).

(** ** The peer endpoints *)
Record HttpResponse := mkHttp { http_status : Z; http_body : jsval }.

Definition http_error (status : Z) (message : jsval) : HttpResponse :=
  mkHttp status (VObj [("error", message)]).

(** The request body as parsed, [None] when it is not JSON; [verifyJson] is
    [verifyProof] on the untyped fields of the body. *)
Variables (verifyJson : jsval -> jsval -> jsval -> call E VerificationDetail) (executor : SidecarExecutor).

Definition isAllowedSigningMessage (message requirement escrowToken : jsval) (groupPubkey : string) : res bool :=
  if eq_str message (deriveFrostSigningMessage (js_string (prop "id" requirement))) then Ok true
  else if negb (js_truthy escrowToken) || negb (js_truthy (prop "escrow_token_hash" requirement)) then Ok false
  else if negb (eq_str (prop "escrow_token_hash" requirement) (deriveFrostEscrowTokenHash (js_string escrowToken)))
  then Ok false
  else match escrowToken with
       | VStr token =>
           if negb (tokenMatchesFrostP2pkLock token groupPubkey None) then Ok false
           else
             messages ← deriveFrostP2pkMessages token None;
             Ok (existsb (fun m => eq_str message m) messages)
       | _ => Ok false
       end.

(** [body?.x] of a parsed body. *)
Definition body_field (k : string) (body : option jsval) : jsval :=
  match body with Some b => prop k b | None => VUndef end.

(** [result.data!]: reading a property of [null] throws. *)
Definition reply_data (r : FrostCliResult) : res jsval :=
  match cr_data r with
  | None | Some VNull | Some VUndef => Throw (mkExn "TypeError" "Cannot read properties of null")
  | Some d => Ok d
  end.

Definition error_value (r : FrostCliResult) : jsval := str_field (cr_error r).

Definition signer_round1 (nodeConfig : option FrostNodeConfig) (body : option jsval)
    : call SignerState HttpResponse :=
  await (fun s => (s, Settled (Ok body))) (fun body =>
  let message := body_field "message" body in
  let requirement := body_field "requirement" body in
  let input := body_field "input" body in
  if negb (js_truthy message) || negb (js_truthy requirement) || negb (js_truthy input) then
    ret (http_error 400 (VStr "Missing message, requirement, or input"))
  else
  match nodeConfig with
  | None => ret (http_error 503 (VStr "FROST not configured on this node"))
  | Some config =>
  await (zoom sg_env sg_put (verifyJson requirement input (body_field "blossom_keys" body))) (fun detail =>
  if negb (vd_passed detail) then
    ret (mkHttp 403 (VObj [("error", VStr "Verification failed"); ("failures", VArr (VStr <$> vd_failures detail))]))
  else
  match isAllowedSigningMessage message requirement (body_field "escrow_token" body) (nc_group_pubkey config) with
  | Throw e => fail e
  | Ok false => ret (http_error 403 (VStr "Message does not match the verified requirement"))
  | Ok true =>
  await (signRound1 sg_spawn (JSON_stringify (nc_key_package config)) None executor) (fun result s =>
  if negb (cr_ok result) then ret (http_error 500 (error_value result)) s
  else
  match reply_data result with
  | Throw e => fail e s
  | Ok d =>
      let '(s', id) := open_for_request (mkNonceSession (JSON_stringify (prop "nonces" d)) (js_string message)) body detail s in
      ret (mkHttp 200 (VObj [("commitments", prop "commitments" d); ("nonce_id", VStr id)])) s'
  end) end) end).

(** A non-string argument makes the process interface throw. *)
Definition string_arg (v : jsval) : res string :=
  match v with VStr s => Ok s | _ => Throw (mkExn "TypeError" "expected string") end.

Definition signer_round2 (nodeConfig : option FrostNodeConfig) (body : option jsval)
    : call SignerState HttpResponse :=
  await (fun s => (s, Settled (Ok body))) (fun body s =>
  let commitments := body_field "commitments" body in
  let message := body_field "message" body in
  let nonce_id := body_field "nonce_id" body in
  if negb (js_truthy commitments) || negb (js_truthy message) || negb (js_truthy nonce_id) then
    ret (http_error 400 (VStr "Missing commitments, message, or nonce_id")) s
  else
  match nodeConfig with
  | None => ret (http_error 503 (VStr "FROST not configured on this node")) s
  | Some config =>
  match as_string nonce_id ≫= fun id => (pair id) <$> jm_get id (sg_pending s) with
  | None => ret (http_error 409 (VStr "Unknown or expired nonce_id")) s
  | Some (id, session) =>
  let s := close_session id s in
  if negb (eq_str message (ns_messageHex session)) then
    ret (http_error 403 (VStr "Message does not match the round-1 verified requirement")) s
  else
  match string_arg commitments with
  | Throw e => fail e s
  | Ok commitments =>
  await (signRound2 sg_spawn (JSON_stringify (nc_key_package config)) (ns_noncesJson session) commitments
           (ns_messageHex session) None executor) (fun result =>
    if negb (cr_ok result) then ret (http_error 500 (error_value result))
    else
    match reply_data result with
    | Throw e => fail e
    | Ok d => ret (mkHttp 200 (VObj [("signature_share", prop "signature_share" d)]))
    end) s
  end end end).

(** ** Authentication: [auth.ts] *)

(** [timingSafeEqual] on buffers of the same length. *)
Definition safeCompare (a b : string) : bool :=
  if Nat.eqb (length (utf8 a)) (length (utf8 b)) then utf8 a === utf8 b else negb (utf8 a === utf8 a).

Definition buildAuthMiddleware {S} (apiKey authorization xApiKey : option string)
    (next : call S HttpResponse) : call S HttpResponse :=
  match truthy apiKey with
  | None => next
  | Some secret =>
      let token := match authorization with
                   | Some auth => if startsWith "Bearer " auth then Some (slice 7 auth) else xApiKey
                   | None => xApiKey
                   end in
      match truthy token with
      | None => ret (http_error 401 (VStr "Unauthorized"))
      | Some t => if negb (safeCompare t secret) then ret (http_error 401 (VStr "Unauthorized")) else next
      end
  end.
End signer.
