(* ===== verification/FrostSignerSpec.v ===== *)
(** * Nonces are used once, and only for verified messages

    Schnorr nonces that sign two messages reveal the key share.  Under every
    interleaving of signing calls, a session's nonces reach the binary at most
    once, for the message they were opened for, after a passing verification.  At the
    peer endpoints that verification is the one of the request that opened the session,
    and its message belongs to the verified requirement. *)

From S2P Require Import Prelude JsNum JsMap JsString JsValue JsonCodec EventLoop QueryTypes PreimageStore Sidecar CashuTypes CashuEscrow.
From S2P Require Import FrostCli FrostSigner.

Definition created (log : list signer_event) : list NonceSession :=
  omap (fun ev => match ev with Created _ session _ => Some session | _ => None end) log.

(** The nonces and message of a [sign-round2] command. *)
Definition signing_command (cmd : list string) : option NonceSession :=
  match cmd with
  | [_; sub; _; _; _; nonces; _; _; _; message] =>
      if sub === "sign-round2" then Some (mkNonceSession nonces message) else None
  | _ => None
  end.

Definition used (log : list signer_event) : list NonceSession :=
  omap (fun ev => match ev with Spawned cmd => signing_command cmd | _ => None end) log.

(** The comparison decides equality, in whatever time. *)
Lemma utf8_inj a b : utf8 a = utf8 b -> a = b.
Proof.
  unfold utf8, chars. revert b. induction a as [|c a IH]; intros [|d b]; simpl; try done.
  intros H. injection H as Hc Hl. apply Nat2Z.inj in Hc. apply (f_equal Ascii.ascii_of_nat) in Hc.
  unfold code in Hc. rewrite !Ascii.ascii_nat_embedding in Hc. subst. f_equal. by apply IH.
Qed.

Lemma safeCompare_eq a b : safeCompare a b = true -> a = b.
Proof.
  unfold safeCompare. destruct (Nat.eqb _ _).
  - intros H%bool_decide_eq_true_1. by apply utf8_inj.
  - by rewrite bool_decide_true.
Qed.

Lemma bearer_split auth secret : startsWith "Bearer " auth = true -> slice 7 auth = secret -> auth = "Bearer " +:+ secret.
Proof.
  intros H <-. unfold startsWith in H.
  assert (Hp : forall p s, String.prefix p s = true -> s = p +:+ slice (String.length p) s).
  { clear. induction p as [|c p IH]; intros s; [done|]. destruct s as [|d s]; [done|]. simpl.
    destruct (Ascii.ascii_dec c d) as [->|]; [|done]. intros H. change (String.String d s = String.String d (p +:+ slice (String.length p) s)).
    f_equal. by apply IH. }
  by apply (Hp "Bearer ").
Qed.

Section spec.
Context `{J : JSON} `{N : Noble} `{L : CashuLib} {E : Type}.
Notation State := (SignerState (E := E)).
Context (spawn : list string -> E -> E * ProcOutcome) (randomUUID : E -> E * string)
  (verifyProof : VerificationRequirement -> VerificationInput -> option BlossomKeyMap -> call E VerificationDetail)
  (verifyJson : jsval -> jsval -> jsval -> call E VerificationDetail) (executor : SidecarExecutor).

(** Every session was opened under [P], and sessions pending or already used
    are distinct openings. *)
Definition sessions_ok (P : NonceSession -> VerificationDetail -> Prop) (s : State) : Prop :=
  jm_values (sg_pending s) ++ used (sg_log s) ⊆+ created (sg_log s) /\
  (forall id session d, Created id session d ∈ sg_log s -> P session d).

Context (P : NonceSession -> VerificationDetail -> Prop).
Notation ok := (sessions_ok P).

Lemma ok_put e s : ok s -> ok (sg_put e s).
Proof. done. Qed.

Lemma used_app l1 l2 : used (l1 ++ l2) = used l1 ++ used l2.
Proof. apply omap_app. Qed.
Lemma created_app l1 l2 : created (l1 ++ l2) = created l1 ++ created l2.
Proof. apply omap_app. Qed.

Lemma Created_snoc_spawn id session d log cmd : Created id session d ∈ log ++ [Spawned cmd] -> Created id session d ∈ log.
Proof. rewrite elem_of_app, list_elem_of_singleton. naive_solver. Qed.

(** A process that is not a signing round leaves the sessions alone. *)
Lemma ok_spawn cmd s : signing_command cmd = None -> ok s -> ok (sg_spawn spawn cmd s).1.
Proof.
  intros Hc [H1 H2]. unfold sg_spawn. destruct (spawn cmd (sg_env s)). split; simpl.
  - rewrite used_app, created_app. simpl. rewrite Hc. by rewrite !app_nil_r.
  - intros id session d Hin. by eapply H2, Created_snoc_spawn.
Qed.

Lemma ok_open session d s : P session d -> ok s -> ok (open_session randomUUID session d s).1.
Proof.
  intros HP [H1 H2]. unfold open_session. destruct (randomUUID (sg_env s)) as [e id]. split; simpl.
  - rewrite used_app, created_app. simpl. rewrite app_nil_r, (comm app (created _)). simpl.
    etrans; [apply submseteq_skips_r, jm_values_set|]. simpl. by apply submseteq_skip.
  - intros id' session' d' [Hin|Hin]%elem_of_app; [by eapply H2|].
    apply list_elem_of_singleton in Hin. by simplify_eq.
Qed.

Lemma ok_open_for session body d s : P session d -> ok s -> ok (open_for_request randomUUID session body d s).1.
Proof.
  intros HP Hs. pose proof (ok_open session d s HP Hs) as [H1 H2]. unfold open_for_request.
  destruct (open_session randomUUID session d s) as [s' id]. split; simpl in *.
  - rewrite used_app, created_app. simpl. by rewrite !app_nil_r.
  - intros id' session' d' [Hin|Hin]%elem_of_app; [by eapply H2|]. by apply list_elem_of_singleton in Hin.
Qed.

(** Consuming a session hands its nonces to whoever deleted it. *)
Definition holding (session : NonceSession) (s : State) : Prop :=
  session :: jm_values (sg_pending s) ++ used (sg_log s) ⊆+ created (sg_log s) /\
  (forall id session d, Created id session d ∈ sg_log s -> P session d).

Lemma holding_close id session s :
  jm_get id (sg_pending s) = Some session -> ok s -> holding session (close_session id s).
Proof.
  intros Hg [H1 H2]. split; [|done]. simpl. etrans; [|exact H1]. rewrite app_comm_cons.
  by apply submseteq_skips_r, jm_values_delete.
Qed.

Lemma holding_ok session s : holding session s -> ok s.
Proof. intros [H1 H2]. split; [|done]. etrans; [|exact H1]. by apply submseteq_cons. Qed.

Lemma holding_spawn session cmd s : signing_command cmd = Some session -> holding session s -> ok (sg_spawn spawn cmd s).1.
Proof.
  intros Hc [H1 H2]. unfold sg_spawn. destruct (spawn cmd (sg_env s)). split; simpl.
  - rewrite used_app, created_app. simpl. rewrite Hc, app_nil_r, app_assoc. etrans; [|exact H1].
    by rewrite (comm app).
  - intros id session' d Hin. by eapply H2, Created_snoc_spawn.
Qed.

(** ** Segments *)
Lemma await_from {A B} (I : State -> Prop) (c : call State A) (k : A -> call State B) s :
  I (c s).1 /\ task_ok I (c s).2 -> (forall a, call_ok I (k a)) -> I (await c k s).1 /\ task_ok I (await c k s).2.
Proof.
  intros [H1 H2] Hk. unfold await. destruct (c s) as [s' t]. simpl in *. split; [done|].
  by apply task_ok_bind.
Qed.

Lemma command_ok sub args path ex :
  (forall bin, signing_command (bin :: sub :: args) = None) ->
  call_ok ok (runFrostCommand (sg_spawn spawn) sub args path ex).
Proof. intros Hc. apply runFrostCommand_ok. intros bin s. by apply ok_spawn. Qed.

Lemma signRound2_from kp n c m path ex s :
  holding (mkNonceSession n m) s ->
  ok (signRound2 (sg_spawn spawn) kp n c m path ex s).1 /\
  task_ok ok (signRound2 (sg_spawn spawn) kp n c m path ex s).2.
Proof.
  intros Hh. unfold signRound2, runFrostCommand. destruct (truthy _) as [bin|].
  - pose proof (holding_spawn _ [bin; "sign-round2"; "--key-package"; kp; "--nonces"; n; "--commitments"; c; "--message"; m]
      s eq_refl Hh) as Hs. destruct (sg_spawn _ _ s) as [s' o]. simpl in Hs. unfold await. simpl.
    split; [done|]. intros s2 H2. by split.
  - split; [by eapply holding_ok|done].
Qed.

Lemma settled_ok {A} (r : res A) : call_ok ok (fun s => (s, Settled r)).
Proof. intros s Hs. by split. Qed.

Lemma round1_ok config message detail :
  (forall nonces, P (mkNonceSession nonces message) detail) -> call_ok ok (sign_round1 spawn randomUUID config message detail).
Proof.
  intros HP. apply call_ok_await; [by apply command_ok|]. intros r1 s Hs.
  destruct (cli_data r1) as [d|]; [|by split].
  pose proof (ok_open (mkNonceSession (asJsonString (prop "nonces" d)) message) detail s (HP _) Hs) as Ho.
  destruct (open_session _ _ _ s) as [s' id]. by split.
Qed.

Lemma round2_ok config message commitments sid : call_ok ok (sign_round2 spawn config message commitments sid).
Proof.
  intros s Hs. unfold sign_round2. destruct (truthy sid) as [id|]; [|by split].
  destruct (jm_get id (sg_pending s)) as [session|] eqn:Hg; [|by split].
  pose proof (holding_close id session s Hg Hs) as Hh.
  destruct (bool_decide_reflect (ns_messageHex session = message)) as [<-|]; simpl;
    [|split; [by eapply holding_ok|done]].
  apply await_from; [|intros ?; apply ret_ok]. apply signRound2_from. by destruct session.
Qed.

Lemma verifyAndSign_ok config req input message commitments bk sid :
  (forall nonces d, vd_passed d = true -> P (mkNonceSession nonces message) d) ->
  call_ok ok (verifyAndSign spawn randomUUID verifyProof config req input message commitments bk sid).
Proof.
  intros HP. apply call_ok_await; [by apply zoom_ok|]. intros d. destruct (vd_passed d) eqn:Hd; simpl; [|apply ret_ok].
  destruct (truthy commitments); [apply round2_ok|]. apply round1_ok. auto.
Qed.

Lemma dkgRound_ok config round input : call_ok ok (dkgRound spawn config round input).
Proof.
  unfold dkgRound. destruct round; repeat case_match; try apply ret_ok;
    (apply call_ok_await; [by apply command_ok|intros ?; apply ret_ok]).
Qed.

(** ** The endpoints *)
Lemma signer_round1_ok config body :
  (forall c message requirement token nonces d, config = Some c ->
     isAllowedSigningMessage message requirement token (nc_group_pubkey c) = Ok true -> vd_passed d = true ->
     P (mkNonceSession nonces (js_string message)) d) ->
  call_ok ok (signer_round1 spawn randomUUID verifyJson executor config body).
Proof.
  intros HP. apply call_ok_await; [apply settled_ok|]. intros b. cbv zeta.
  destruct (_ || _); [apply ret_ok|]. destruct config as [c|]; [|apply ret_ok].
  apply call_ok_await; [by apply zoom_ok|]. intros d. destruct (vd_passed d) eqn:Hd; simpl; [|apply ret_ok].
  destruct (isAllowedSigningMessage _ _ _ _) as [[]|e] eqn:Ha; [|apply ret_ok|apply settled_ok].
  apply call_ok_await; [by apply command_ok|]. intros r s Hs.
  destruct (cr_ok r); simpl; [|by split]. destruct (reply_data r) as [v|e]; [|by split].
  pose proof (ok_open_for (mkNonceSession (JSON_stringify (prop "nonces" v)) (js_string (body_field "message" b))) b d s
    (HP _ _ _ _ _ _ eq_refl Ha Hd) Hs) as Ho.
  destruct (open_for_request _ _ _ _ s) as [s' id]. by split.
Qed.

Lemma signer_round2_ok config body : call_ok ok (signer_round2 spawn executor config body).
Proof.
  apply call_ok_await; [apply settled_ok|]. intros b s Hs. cbv zeta.
  destruct (_ || _); [by split|]. destruct config as [c|]; [|by split].
  destruct (as_string _) as [id|]; simpl; [|by split].
  destruct (jm_get id (sg_pending s)) as [session|] eqn:Hg; simpl; [|by split].
  pose proof (holding_close id session s Hg Hs) as Hh.
  destruct (eq_str _ _); simpl; [|split; [by eapply holding_ok|done]].
  destruct (string_arg _) as [cm|e]; [|split; [by eapply holding_ok|done]].
  apply await_from; [apply signRound2_from; by destruct session|]. intros r.
  destruct (cr_ok r); simpl; [|apply ret_ok]. destruct (reply_data r); [apply ret_ok|apply settled_ok].
Qed.

Lemma auth_ok key a x c : call_ok ok c -> call_ok ok (buildAuthMiddleware key a x c).
Proof. intros Hc. unfold buildAuthMiddleware. repeat case_match; try apply ret_ok; done. Qed.

(** What the invariant says of the log. *)
Lemma ok_used s : ok s ->
  used (sg_log s) ⊆+ created (sg_log s) /\
  (NoDup (ns_noncesJson <$> created (sg_log s)) -> NoDup (ns_noncesJson <$> used (sg_log s))) /\
  (forall session, session ∈ used (sg_log s) -> exists id d, Created id session d ∈ sg_log s /\ P session d).
Proof.
  intros [H1 H2].
  assert (Hs : used (sg_log s) ⊆+ created (sg_log s)).
  { etrans; [|exact H1]. by apply submseteq_inserts_l. }
  split_and!; [done| |].
  - intros Hd. apply (fmap_submseteq ns_noncesJson) in Hs. apply submseteq_Permutation in Hs as [k Hk].
    rewrite Hk in Hd. by apply NoDup_app in Hd as [? _].
  - intros session Hin. eapply elem_of_submseteq in Hin; [|exact Hs].
    unfold created in Hin. apply list_elem_of_omap in Hin as (ev & Hev & Heq).
    destruct ev as [id ses d|id ses body d|cmd]; simplify_eq. exists id, d. split; [done|]. by eapply H2.
Qed.
End spec.

(** ** What the endpoint may sign

    Stated from the documents: a P2PK secret that needs two signatures, one of them
    under the group key; and the messages of a requirement. *)
Section messages.
Context `{J : JSON} `{N : Noble} `{L : CashuLib}.

Definition has_tag (tags : list jsval) (name : string) (value : string) : Prop :=
  exists tag values, tag ∈ tags /\ as_string_array tag = Some (name :: values) /\ value ∈ values.

Definition locked_to_group (group secret : string) : Prop :=
  exists parsed, JSON_parse secret = Some (VArr parsed) /\ index 0 parsed = VStr "P2PK" /\ isRecord (index 1 parsed) = true /\
  exists tags pk, prop "tags" (index 1 parsed) = VArr tags /\ has_tag tags "n_sigs" "2" /\
    (prop "data" (index 1 parsed) = VStr pk \/ has_tag tags "pubkeys" pk) /\ sameXOnlyPubkey pk group = true.

(** The message is that of the requirement's id, or that of a proof of the given
    token, which is the one the requirement names by its hash and whose proofs are
    all locked to the group. *)
Definition belongs_to (group message : string) (requirement token : jsval) : Prop :=
  message = sha256_hex ("anchr:sign:" +:+ js_string (prop "id" requirement)) \/
  exists encoded decoded proof, token = VStr encoded /\ prop "escrow_token_hash" requirement = VStr (sha256_hex encoded) /\
    getDecodedToken encoded None = Ok decoded /\ Forall (fun p => locked_to_group group (pf_secret p)) (tok_proofs decoded) /\
    proof ∈ tok_proofs decoded /\ message = sha256_hex (pf_secret proof).

Lemma scan_tags_from tags keys n :
  let '(keys', n') := scan_tags tags keys n in
  (forall pk, pk ∈ keys' -> pk ∈ keys \/ has_tag tags "pubkeys" pk) /\ (n' = n \/ has_tag tags "n_sigs" n').
Proof.
  assert (Hup : forall tag tags name v, has_tag tags name v -> has_tag (tag :: tags) name v).
  { intros tag tags' name v (t & vs & Ht & H). exists t, vs. split; [by right|done]. }
  revert keys n. induction tags as [|tag tags IH]; intros keys n; simpl; [auto|].
  destruct (as_string_array tag) as [[|name values]|] eqn:Et;
    [specialize (IH keys n)| |specialize (IH keys n)]; try (destruct (scan_tags tags _ _); naive_solver).
  set (keys1 := if name === "pubkeys" then keys ++ values else keys).
  set (n1 := if name === "n_sigs" then opt_default n (head values) else n).
  specialize (IH keys1 n1). destruct (scan_tags tags keys1 n1) as [keys' n']. destruct IH as [H1 H2]. split.
  - intros pk Hpk. destruct (H1 pk Hpk) as [Hk|Hk]; [|by right; apply Hup]. subst keys1.
    case_bool_decide as Hn; [|by left]. apply elem_of_app in Hk as [Hk|Hk]; [by left|].
    right. exists tag, values. subst name. split; [left|done].
  - destruct H2 as [->|H2]; [|right; by apply Hup]. subst n1. case_bool_decide as Hn; [|by left].
    destruct values as [|v values]; [by left|]. right. exists tag, (v :: values). subst name. split; [left|]. split; [done|left].
Qed.

Lemma requires_group_locked secret group : p2pkSecretRequiresGroup secret group = true -> locked_to_group group secret.
Proof.
  unfold p2pkSecretRequiresGroup. destruct (JSON_parse secret) as [[]|] eqn:Ej; try done.
  destruct (eq_str (index 0 l) "P2PK") eqn:E0; simpl; [|done]. apply eq_str_true in E0.
  destruct (isRecord (index 1 l)) eqn:E1; simpl; [|done]. intros H. exists l. split_and!; [done..|].
  set (data := match prop "data" (index 1 l) with VStr d => [d] | _ => [] end) in *.
  destruct (prop "tags" (index 1 l)) as [| | | | |tags| |] eqn:Et; try (by apply andb_true_iff in H as [H _]).
  pose proof (scan_tags_from tags data "") as Hs. destruct (scan_tags tags data "") as [keys n]. destruct Hs as [H1 H2].
  apply andb_true_iff in H as [Hn He]. apply bool_decide_eq_true in Hn. subst n.
  apply existsb_exists in He as (pk & Hpk%list_elem_of_In & Hsame). exists tags, pk.
  destruct H2 as [H2|H2]; [done|]. split_and!; [done|done| |done].
  destruct (H1 pk Hpk) as [Hk|Hk]; [left|by right]. subst data.
  destruct (prop "data" (index 1 l)); try (by apply not_elem_of_nil in Hk). apply list_elem_of_singleton in Hk. by subst.
Qed.

Lemma allowed_belongs message requirement token group :
  isAllowedSigningMessage message requirement token group = Ok true ->
  exists m, message = VStr m /\ belongs_to group m requirement token.
Proof.
  unfold isAllowedSigningMessage. intros H.
  destruct (eq_str message _) eqn:Em in H.
  { apply eq_str_true in Em. subst. eexists. split; [done|]. by left. }
  destruct (_ || _) in H; [done|].
  destruct (eq_str (prop "escrow_token_hash" requirement) _) eqn:Eh in H; simpl in H; [|done].
  destruct token as [| | | |encoded| | |]; try done.
  destruct (tokenMatchesFrostP2pkLock encoded group None) eqn:El; simpl in H; [|done].
  apply bind_Ok in H as (messages & Hm & H). injection H as H. apply existsb_exists in H as (m & Hin%list_elem_of_In & Hmsg).
  apply eq_str_true in Hmsg. subst. exists m. split; [done|]. right.
  unfold deriveFrostP2pkMessages in Hm. apply bind_Ok in Hm as (decoded & Hd & Hm). injection Hm as <-.
  apply list_elem_of_fmap in Hin as (proof & -> & Hp). exists encoded, decoded, proof.
  apply eq_str_true in Eh. split_and!; try done.
  unfold tokenMatchesFrostP2pkLock in El. rewrite Hd in El. apply andb_true_iff in El as [_ El].
  apply Forall_forall. intros p Hp'. apply requires_group_locked.
  rewrite forallb_forall in El. by apply El, list_elem_of_In.
Qed.
End messages.

(** What is known of the answer when a call is continued: it is an outcome of the
    awaited one. *)
Lemma task_ok_bind_outcome {S A B} (I : S -> Prop) (t : task S A) (k : A -> call S B) :
  task_ok I t -> (forall a, resolves (fun _ => True) t (Ok a) -> call_ok I (k a)) -> task_ok I (tbind t k).
Proof.
  induction t as [[a|e]|f IH] using task_induction; intros Ht Hk; simpl in *.
  - intros s Hs. by apply (Hk a (resolves_settled _ _)).
  - done.
  - intros s Hs. specialize (Ht s Hs) as [H1 H2]. specialize (IH s). destruct (f s) as [s' t'] eqn:Ef. simpl in *.
    split; [done|]. apply IH; [done|]. intros a Ha. apply Hk. by eapply (resolves_await _ _ s).
Qed.

Lemma call_ok_await_outcome {S A B} (I : S -> Prop) (c : call S A) (k : A -> call S B) :
  call_ok I c -> (forall a s, outcome (fun _ => True) c s (Ok a) -> call_ok I (k a)) -> call_ok I (await c k).
Proof.
  intros Hc Hk s Hs. specialize (Hc s Hs) as [H1 H2]. pose proof (fun a => Hk a s) as Hk'. unfold await, outcome in *.
  destruct (c s) as [s' t]. split; [done|]. by apply task_ok_bind_outcome.
Qed.

Section requests.
Context `{J : JSON} `{N : Noble} `{L : CashuLib} {E : Type}.
Notation State := (SignerState (E := E)).
Context (spawn : list string -> E -> E * ProcOutcome) (randomUUID : E -> E * string)
  (verifyJson : jsval -> jsval -> jsval -> call E VerificationDetail) (executor : SidecarExecutor).

(** The verification of a request's own requirement, evidence and keys gave [d], which passed. *)
Definition verified_request (body : option jsval) (d : VerificationDetail) : Prop :=
  vd_passed d = true /\
  exists e, outcome (fun _ => True) (verifyJson (body_field "requirement" body) (body_field "input" body)
                                      (body_field "blossom_keys" body)) e (Ok d).

Definition opened_for (group : string) (session : NonceSession) (body : option jsval) (d : VerificationDetail) : Prop :=
  body_field "message" body = VStr (ns_messageHex session) /\ verified_request body d /\
  belongs_to group (ns_messageHex session) (body_field "requirement" body) (body_field "escrow_token" body).

(** Every session has its request in the log. *)
Definition requests_ok (group : string) (s : State) : Prop :=
  forall id session d, Created id session d ∈ sg_log s ->
    exists body, OpenedFor id session body d ∈ sg_log s /\ opened_for group session body d.

Lemma requests_spawn group cmd s : requests_ok group s -> requests_ok group (sg_spawn spawn cmd s).1.
Proof.
  intros H. unfold sg_spawn. destruct (spawn cmd (sg_env s)). intros id session d [Hin|Hin]%elem_of_app.
  - destruct (H _ _ _ Hin) as (body & Hb & Ho). exists body. split; [|done]. apply elem_of_app. by left.
  - by apply list_elem_of_singleton in Hin.
Qed.

Lemma requests_open group session body d s : opened_for group session body d -> requests_ok group s ->
  requests_ok group (open_for_request randomUUID session body d s).1.
Proof.
  intros Ho H. unfold open_for_request, open_session. destruct (randomUUID (sg_env s)) as [e id]. cbn.
  intros id' session' d' Hin. cbn in Hin. rewrite <- app_assoc in Hin |- *. apply elem_of_app in Hin as [Hin|Hin].
  - destruct (H _ _ _ Hin) as (body' & Hb & Ho'). exists body'. split; [|done]. apply elem_of_app. by left.
  - apply elem_of_cons in Hin as [Hin|Hin%list_elem_of_singleton]; [|done]. simplify_eq. exists body. split; [|done].
    apply elem_of_app. right. right. left.
Qed.

Lemma signer_round1_requests config body :
  call_ok (requests_ok (nc_group_pubkey config)) (signer_round1 spawn randomUUID verifyJson executor (Some config) body).
Proof.
  apply call_ok_await; [by intros s Hs|]. intros b. cbv zeta.
  destruct (_ || _); [apply ret_ok|]. apply call_ok_await_outcome; [by apply zoom_ok|]. intros d s0 Hd0.
  destruct (vd_passed d) eqn:Hd; simpl; [|apply ret_ok].
  destruct (isAllowedSigningMessage _ _ _ _) as [[]|e] eqn:Ha; [|apply ret_ok|by intros s Hs].
  apply allowed_belongs in Ha as (m & Hm & Hb).
  apply call_ok_await; [apply runFrostCommand_ok; intros bin s; apply requests_spawn|]. intros r s Hs.
  destruct (cr_ok r); simpl; [|by split]. destruct (reply_data r) as [v|e]; [|by split].
  assert (Ho : opened_for (nc_group_pubkey config)
    (mkNonceSession (JSON_stringify (prop "nonces" v)) (js_string (body_field "message" b))) b d).
  { rewrite Hm. split_and!; [done| |done]. split; [done|]. apply outcome_zoom, resolves_anywhere in Hd0. by eexists. }
  pose proof (requests_open _ _ _ _ s Ho Hs) as Hr. destruct (open_for_request _ _ _ _ s) as [s' id]. by split.
Qed.

Lemma signer_round2_requests group config body : call_ok (requests_ok group) (signer_round2 spawn executor config body).
Proof.
  apply call_ok_await; [by intros s Hs|]. intros b s Hs. cbv zeta.
  destruct (_ || _); [by split|]. destruct config as [c|]; [|by split].
  destruct (as_string _ ≫= _) as [[id session]|]; simpl; [|by split].
  destruct (eq_str _ _); simpl; [|by split]. destruct (string_arg _) as [cm|e]; [|by split].
  assert (Hc : requests_ok group (close_session id s)) by exact Hs. revert Hc. generalize (close_session id s). clear s Hs.
  apply (call_ok_await (requests_ok group)); [apply runFrostCommand_ok; intros bin s; apply requests_spawn|].
  intros r. destruct (cr_ok r); simpl; [|apply ret_ok]. destruct (reply_data r); [apply ret_ok|by intros s Hs].
Qed.

Lemma auth_requests group key a x (c : call State HttpResponse) :
  call_ok (requests_ok group) c -> call_ok (requests_ok group) (buildAuthMiddleware key a x c).
Proof. intros Hc. unfold buildAuthMiddleware. repeat case_match; try apply ret_ok; done. Qed.
End requests.

(** Without the configured key the middleware answers and the handler never runs. *)
Lemma auth_refuses {S} secret a x (h : call S HttpResponse) s :
  secret <> "" -> a <> Some ("Bearer " +:+ secret) -> x <> Some secret ->
  buildAuthMiddleware (Some secret) a x h s = ret (http_error 401 (VStr "Unauthorized")) s.
Proof.
  intros Hs Ha Hx. unfold buildAuthMiddleware.
  rewrite (proj2 (truthy_Some (Some secret) secret)) by done. simpl.
  destruct (truthy _) as [t|] eqn:Et; [|done]. apply truthy_Some in Et as [Et _].
  destruct (safeCompare t secret) eqn:Ec; [|done]. exfalso. apply safeCompare_eq in Ec. subst t.
  destruct a as [auth|]; [|by apply Hx]. destruct (startsWith "Bearer " auth) eqn:Hb; [|by apply Hx].
  injection Et as Et. apply Ha. f_equal. by apply bearer_split.
Qed.

Section properties.
Context `{J : JSON} `{N : Noble} `{L : CashuLib} {E : Type}.
Notation State := (SignerState (E := E)).
Context (spawn : list string -> E -> E * ProcOutcome) (randomUUID : E -> E * string)
  (verifyProof : VerificationRequirement -> VerificationInput -> option BlossomKeyMap -> call E VerificationDetail)
  (verifyJson : jsval -> jsval -> jsval -> call E VerificationDetail) (executor : SidecarExecutor).

(** Outside the signer anything may happen to the rest of the world. *)
Definition world_step (s s' : State) : Prop := exists e, s' = sg_put e s.

(** Calls on one in-process signer. *)
Inductive signer_call (config : FrostSignerConfig) : call State unit -> Prop :=
| call_sign req input message commitments bk sid :
    signer_call config (await (verifyAndSign spawn randomUUID verifyProof config req input message commitments bk sid)
                          (fun _ => ret tt))
| call_dkg round input : signer_call config (await (dkgRound spawn config round input) (fun _ => ret tt)).

(** Requests to the peer endpoints of one node, with any headers and bodies. *)
Inductive peer_request (apiKey : option string) (config : option FrostNodeConfig) : call State HttpResponse -> Prop :=
| peer_round1 a x body :
    peer_request apiKey config
      (buildAuthMiddleware apiKey a x (signer_round1 spawn randomUUID verifyJson executor config body))
| peer_round2 a x body :
    peer_request apiKey config (buildAuthMiddleware apiKey a x (signer_round2 spawn executor config body)).

Lemma sessions_ok_init P e : sessions_ok P (mkSignerState [] [] e : State).
Proof. split; simpl; [done|]. intros id session d Hin. by apply not_elem_of_nil in Hin. Qed.

(** * Properties *)

(** C7: Nonces are single-use: under every interleaving of signing calls and key
    generation on a signer, the sessions whose nonces were handed to the binary
    for round 2 are distinct openings, each for the message given in round 1 and
    opened after a passing verification; with distinct nonces per round 1, no
    nonces are used twice. *)
Theorem nonces_single_use config e lp :
  loop_steps (signer_call config) world_step (mkLoop (mkSignerState [] [] e) []) lp ->
  let log := sg_log (lp_state lp) in
  used log ⊆+ created log /\
  (NoDup (ns_noncesJson <$> created log) -> NoDup (ns_noncesJson <$> used log)) /\
  (forall session, session ∈ used log -> exists id d, Created id session d ∈ log /\ vd_passed d = true).
Proof.
  intros Hsteps. apply (ok_used (fun _ d => vd_passed d = true)).
  eapply (proj1 (A := _) (B := _)), (loop_invariant (sessions_ok _)); [| | |exact Hsteps].
  - intros c [req input message commitments bk sid|round input]; (apply call_ok_await; [|intros ?; apply ret_ok]).
    + by apply verifyAndSign_ok.
    + apply dkgRound_ok.
  - intros s s' [e' ->]. apply ok_put.
  - apply sessions_ok_init.
Qed.

(** C19: The peer endpoints sign only what they verified: under every interleaving
    of requests, a round-2 command carries the nonces of a session that was opened by a
    round-1 request for the same message, after the verification of that request's own
    requirement, evidence and keys passed; and the message is the one derived from the
    requirement's id, or the one of a proof of the request's escrow token, when the
    requirement names the token by its hash and every proof of it is a P2PK secret that
    needs two signatures, one under this node's group key.  Each session is used at most
    once. *)
Theorem peer_signs_verified_messages apiKey config e lp :
  loop_steps (peer_request apiKey (Some config)) world_step (mkLoop (mkSignerState [] [] e) []) lp ->
  let log := sg_log (lp_state lp) in
  used log ⊆+ created log /\
  (forall session, session ∈ used log -> exists id d body, Created id session d ∈ log /\ OpenedFor id session body d ∈ log /\
     body_field "message" body = VStr (ns_messageHex session) /\ verified_request verifyJson body d /\
     belongs_to (nc_group_pubkey config) (ns_messageHex session) (body_field "requirement" body) (body_field "escrow_token" body)).
Proof.
  intros Hsteps.
  assert (Hok : sessions_ok (fun _ _ => True) (lp_state lp)).
  { eapply (proj1 (A := _) (B := _)), (loop_invariant (sessions_ok _)); [| | |exact Hsteps].
    - intros c [a x body|a x body]; apply auth_ok; [by apply signer_round1_ok|apply signer_round2_ok].
    - intros s s' [e' ->]. apply ok_put.
    - apply sessions_ok_init. }
  assert (Hreq : requests_ok verifyJson (nc_group_pubkey config) (lp_state lp)).
  { eapply (proj1 (A := _) (B := _)), (loop_invariant (requests_ok verifyJson _)); [| | |exact Hsteps].
    - intros c [a x body|a x body]; apply auth_requests; [apply signer_round1_requests|apply signer_round2_requests].
    - by intros s s' [e' ->].
    - intros id session d Hin. by apply not_elem_of_nil in Hin. }
  destruct (ok_used _ _ Hok) as (H1 & _ & H3). split; [done|].
  intros session Hin. destruct (H3 session Hin) as (id & d & Hc & _).
  destruct (Hreq _ _ _ Hc) as (body & Hb & Hm & Hv & Ha). by exists id, d, body.
Qed.

(** Without the configured key a request is refused and changes nothing. *)
Theorem peer_requests_authenticated apiKey config a x body secret (s : State) :
  apiKey = Some secret -> secret <> "" -> a <> Some ("Bearer " +:+ secret) -> x <> Some secret ->
  let handlers := [signer_round1 spawn randomUUID verifyJson executor config body; signer_round2 spawn executor config body] in
  Forall (fun h => buildAuthMiddleware apiKey a x h s = ret (http_error 401 (VStr "Unauthorized")) s) handlers.
Proof. intros -> Hs Ha Hx handlers. apply Forall_forall. intros h _. by apply auth_refuses. Qed.
End properties.

(** * Witnesses *)
Definition toy_verdict : VerificationDetail := mkVerificationDetail true ["ok"] [] None None.
Definition toy_spawn (cmd : list string) (e : nat) : nat * ProcOutcome :=
  (S e, ProcExited 0 (codec_stringify (VObj [("nonces", VStr ("n" +:+ pretty e)); ("commitments", VStr "c");
                                              ("signature_share", VStr "share")])) "").
Definition toy_uuid (e : nat) : nat * string := (S e, "u" +:+ pretty e).
Definition toy_signer : FrostSignerConfig :=
  mkSignerConfig (num 1) "kp" None (mkExecutor (fun _ => false) (fun n => Some n) (fun _ => [])).
Definition toy_requirement : VerificationRequirement := mkVerificationRequirement "q1" None [] None None None None.
Definition toy_sign commitments sid : call (SignerState (E := nat)) (option SignerOutput) :=
  verifyAndSign (J := codec) toy_spawn toy_uuid (fun _ _ _ => ret toy_verdict) toy_signer toy_requirement
    (mkVerificationInput [] None) "m1" commitments None sid.
Definition toy_round1 := run_call (await (toy_sign None None) (fun _ => ret tt)) (mkSignerState [] [] 0).
Definition toy_round2 := run_call (await (toy_sign (Some "cs") (Some "u1")) (fun _ => ret tt)) toy_round1.1.

Lemma nonces_single_use_witness :
  used (sg_log toy_round2.1) = [mkNonceSession "n0" "m1"] /\
  exists id d, Created id (mkNonceSession "n0" "m1") d ∈ sg_log toy_round2.1 /\ vd_passed d = true.
Proof.
  assert (Hu : used (sg_log toy_round2.1) = [mkNonceSession "n0" "m1"]) by (vm_compute; reflexivity).
  split; [exact Hu|].
  destruct (nonces_single_use (J := codec) toy_spawn toy_uuid (fun _ _ _ => ret toy_verdict) toy_signer 0
    (mkLoop toy_round2.1 [Settled toy_round1.2; Settled toy_round2.2])) as (_ & _ & H).
  - etrans.
    + apply (loop_run_call _ _ (await (toy_sign None None) (fun _ => ret tt)) _ toy_round1.1 [] toy_round1.2);
        [constructor|vm_compute; reflexivity].
    + apply (loop_run_call _ _ (await (toy_sign (Some "cs") (Some "u1")) (fun _ => ret tt)) _ toy_round2.1
        [Settled toy_round1.2] toy_round2.2); [constructor|vm_compute; reflexivity].
  - apply H. cbn [lp_state]. rewrite Hu. left.
Defined.

Definition toy_node : FrostNodeConfig := mkNodeConfig (num 1) (num 2) (num 2) (VStr "kp") VNull "group" [].
Definition toy_message : string := deriveFrostSigningMessage (N := toy_noble) "q1".
Definition toy_peer1 : call (SignerState (E := nat)) HttpResponse :=
  buildAuthMiddleware None None None (signer_round1 (J := codec) (N := toy_noble) (L := sample_cashu (mkDecoded "" [])) toy_spawn toy_uuid
    (fun _ _ _ => ret toy_verdict) (sc_executor toy_signer) (Some toy_node)
    (Some (VObj [("message", VStr toy_message); ("requirement", VObj [("id", VStr "q1")]); ("input", VObj [])]))).
Definition toy_peer2 : call (SignerState (E := nat)) HttpResponse :=
  buildAuthMiddleware None None None (signer_round2 (J := codec) toy_spawn (sc_executor toy_signer) (Some toy_node)
    (Some (VObj [("commitments", VStr "cs"); ("message", VStr toy_message); ("nonce_id", VStr "u1")]))).
Definition toy_answer1 := run_call toy_peer1 (mkSignerState [] [] 0).
Definition toy_answer2 := run_call toy_peer2 toy_answer1.1.

Lemma peer_signs_verified_messages_witness :
  exists session, used (sg_log toy_answer2.1) = [session] /\
  exists body, body_field "message" body = VStr (ns_messageHex session) /\
    belongs_to (J := codec) (N := toy_noble) (L := sample_cashu (mkDecoded "" [])) "group" (ns_messageHex session)
      (body_field "requirement" body) (body_field "escrow_token" body).
Proof.
  eexists. split; [vm_compute; reflexivity|].
  destruct (peer_signs_verified_messages (J := codec) (N := toy_noble) (L := sample_cashu (mkDecoded "" [])) toy_spawn toy_uuid
    (fun _ _ _ => ret toy_verdict) (sc_executor toy_signer) None toy_node 0
    (mkLoop toy_answer2.1 [Settled toy_answer1.2; Settled toy_answer2.2])) as (_ & H).
  - etrans.
    + apply (loop_run_call _ _ toy_peer1 _ toy_answer1.1 [] toy_answer1.2); [constructor|vm_compute; reflexivity].
    + apply (loop_run_call _ _ toy_peer2 _ toy_answer2.1 [Settled toy_answer1.2] toy_answer2.2);
        [constructor|vm_compute; reflexivity].
  - edestruct H as (id & d & body & _ & _ & Hm & _ & Ha); [vm_compute; left|]. exists body. split; [exact Hm|exact Ha].
Defined.

Lemma peer_requests_authenticated_witness :
  buildAuthMiddleware (Some "key") (Some "Bearer nope") None (signer_round2 (J := codec) toy_spawn (sc_executor toy_signer)
    (Some toy_node) None) (mkSignerState [] [] 0) =
  ret (http_error 401 (VStr "Unauthorized")) (mkSignerState [] [] 0).
Proof.
  pose proof (peer_requests_authenticated (J := codec) (N := toy_noble) (L := sample_cashu (mkDecoded "" [])) toy_spawn toy_uuid
    (fun _ _ _ => ret toy_verdict) (sc_executor toy_signer) (Some "key") (Some toy_node) (Some "Bearer nope") None None "key"
    (mkSignerState [] [] 0) eq_refl ltac:(done) ltac:(done) ltac:(done)) as H.
  simpl in H. apply Forall_cons in H as [_ H]. apply Forall_cons in H as [H _]. exact H.
Defined.
