(* ===== verification/FrostCoordinator.v ===== *)
(** * The FROST coordinator

    [payments/frost/frost-coordinator.ts]: key-generation and signing sessions
    collected from signers, eviction of stale sessions, and aggregation; with
    the signing-session routes of [adapters/oracle-service/frost-sign-routes.ts].
    A signing session is an object that [tryAggregate] keeps across an [await]
    while the maps may drop it, so sessions live in a heap and the map holds
    addresses. *)

From S2P Require Import Prelude JsNum JsMap JsString JsValue QueryDomain PreimageStore EventLoop CashuTypes CashuEscrow JsonCodec Sidecar FrostCli.

Record FrostSigningSession := mkSigning {
  ss_session_id : string;
  ss_query_id : string;
  ss_config : ThresholdOracleConfig;
  ss_message : string;
  ss_nonce_commitments : list (string * string);
  ss_signature_shares : list (string * string);
  ss_group_signature : option jsval;
  ss_finalized : bool;
  ss_created_at : number;
}.

Record DkgSession := mkDkg {
  dk_session_id : string;
  dk_threshold : number;
  dk_total_signers : number;
  dk_current_round : Z;
  dk_round1_packages : list (number * string);
  dk_round1_secret_packages : list (number * string);
  dk_round2_packages : list (number * list (number * string));
  dk_round2_secret_packages : list (number * string);
  dk_key_packages : list (number * string);
  dk_pubkey_package : jsval;  (* VUndef: not set *)
  dk_group_pubkey : jsval;
  dk_created_at : number;
}.

Record DkgRoundResult := mkDkgResult {
  dr_round : Z;
  dr_complete : bool;
  dr_group_pubkey : jsval;
  dr_pubkey_package : jsval;
}.

Definition FROST_SESSION_TTL_MS : Z := 30 * 60 * 1000.
Definition FROST_FINALIZED_RETENTION_MS : Z := 60 * 1000.

Section coordinator.
Context `{J : JSON} {E : Type}.

Record CoordState := mkCoord {
  fc_dkg : list (string * DkgSession);
  fc_objects : list FrostSigningSession;
  fc_signing : list (string * nat);
  fc_queries : list (string * string);
  fc_env : E;
}.

(** [`frost_${Date.now()}_${randomBytes(8).toString("hex")}`] *)
Definition generateSessionId (dateNow : number) (bytes : list Z) : string :=
  "frost_" +:+ number_to_string dateNow +:+ "_" +:+ js_join "" (byte_hex <$> bytes).

(** ** Eviction, on every entry point that opens a session *)
Definition stale (now : number) (session : FrostSigningSession) : bool :=
  (ss_created_at session <ₙ nsub now (num FROST_SESSION_TTL_MS)) ||
  (ss_finalized session && (ss_created_at session <ₙ nsub now (num FROST_FINALIZED_RETENTION_MS))).

(** One step of the loop over [signingSessions]. *)
Definition evict_one (now : number) (objects : list FrostSigningSession)
    (maps : list (string * nat) * list (string * string)) (entry : string * nat)
    : list (string * nat) * list (string * string) :=
  let '(signing, queries) := maps in
  match objects !! entry.2 with
  | Some session =>
      if stale now session then
        (jm_delete entry.1 signing,
         if bool_decide (jm_get (ss_query_id session) queries = Some entry.1)
         then jm_delete (ss_query_id session) queries else queries)
      else maps
  | None => maps
  end.

Definition evictStaleSessions (now : number) (s : CoordState) : CoordState :=
  let dkg := List.filter (fun kv => negb (dk_created_at kv.2 <ₙ nsub now (num FROST_SESSION_TTL_MS))) (fc_dkg s) in
  let '(signing, queries) := fold_left (evict_one now (fc_objects s)) (fc_signing s) (fc_signing s, fc_queries s) in
  mkCoord dkg (fc_objects s) signing queries (fc_env s).

(** ** Distributed key generation *)
Definition initDkg (threshold total : number) (id : string) (now : number) (s : CoordState) : CoordState * DkgSession :=
  let s := evictStaleSessions now s in
  let session := mkDkg id threshold total 0 [] [] [] [] [] VUndef VUndef now in
  (mkCoord (jm_set id session (fc_dkg s)) (fc_objects s) (fc_signing s) (fc_queries s) (fc_env s), session).

Definition set_dkg (id : string) (d : DkgSession) (s : CoordState) : CoordState :=
  mkCoord (jm_set id d (fc_dkg s)) (fc_objects s) (fc_signing s) (fc_queries s) (fc_env s).

(** [if (secret) m.set(index, secret)] *)
Definition set_secret (index : number) (secret : option string) (m : list (number * string)) : list (number * string) :=
  match truthy secret with Some x => jm_set (ncanon index) x m | None => m end.

Definition reached (n : nat) (total : number) : bool := num (Z.of_nat n) ≥ₙ total.

Definition dkg_round1 (d : DkgSession) (index : number) (package : string) (secret : option string)
    : DkgSession * DkgRoundResult :=
  let r1 := jm_set (ncanon index) package (dk_round1_packages d) in
  let complete := reached (jm_size r1) (dk_total_signers d) in
  (mkDkg (dk_session_id d) (dk_threshold d) (dk_total_signers d) (if complete then 1 else dk_current_round d) r1
     (set_secret index secret (dk_round1_secret_packages d)) (dk_round2_packages d) (dk_round2_secret_packages d)
     (dk_key_packages d) (dk_pubkey_package d) (dk_group_pubkey d) (dk_created_at d),
   mkDkgResult 1 complete VUndef VUndef).

(** [for (const [idx, pkg] of Object.entries(packages)) pkgMap.set(Number(idx), pkg)];
    [Object.entries(null)] throws. *)
Definition package_map (packages : jsval) : res (list (number * string)) :=
  match packages with
  | VNull | VUndef => Throw (mkExn "TypeError" "Cannot convert undefined or null to object")
  | _ => Ok (fold_left (fun m kv => jm_set (ncanon (js_Number kv.1)) (js_string kv.2) m) (own_fields packages) [])
  end.

Definition dkg_round2 (d : DkgSession) (index : number) (packages : list (number * string)) (secret : option string)
    : DkgSession * DkgRoundResult :=
  let r2 := jm_set (ncanon index) packages (dk_round2_packages d) in
  let complete := reached (jm_size r2) (dk_total_signers d) in
  (mkDkg (dk_session_id d) (dk_threshold d) (dk_total_signers d) (if complete then 2 else dk_current_round d)
     (dk_round1_packages d) (dk_round1_secret_packages d) r2 (set_secret index secret (dk_round2_secret_packages d))
     (dk_key_packages d) (dk_pubkey_package d) (dk_group_pubkey d) (dk_created_at d),
   mkDkgResult 2 complete VUndef VUndef).

(** The first truthy value reported is kept. *)
Definition first_set (current reported : jsval) : jsval :=
  if js_truthy reported && negb (js_truthy current) then reported else current.

Definition dkg_round3 (d : DkgSession) (index : number) (package : string) : DkgSession * DkgRoundResult :=
  let keys := jm_set (ncanon index) package (dk_key_packages d) in
  let '(group, pubkeys) :=
    match JSON_parse package with
    | Some parsed => (first_set (dk_group_pubkey d) (prop "group_pubkey" parsed),
                      first_set (dk_pubkey_package d) (prop "pubkey_package" parsed))
    | None => (dk_group_pubkey d, dk_pubkey_package d)
    end in
  let complete := reached (jm_size keys) (dk_total_signers d) in
  (mkDkg (dk_session_id d) (dk_threshold d) (dk_total_signers d) (if complete then 3 else dk_current_round d)
     (dk_round1_packages d) (dk_round1_secret_packages d) (dk_round2_packages d) (dk_round2_secret_packages d) keys
     pubkeys group (dk_created_at d),
   if complete then mkDkgResult 3 true group pubkeys else mkDkgResult 3 false VUndef VUndef).

(** The whole body runs without a suspension; round 2 rejects on invalid JSON. *)
Definition submitDkgPackage (sessionId : string) (round : Z) (signerIndex : number) (packageJson : string)
    (secretPackageJson : option string) (s : CoordState) : CoordState * res (option DkgRoundResult) :=
  match jm_get sessionId (fc_dkg s) with
  | None => (s, Ok None)
  | Some d =>
  let finish '(d', r) := (set_dkg sessionId d' s, Ok (Some r)) in
  if Z.eqb round 1 then finish (dkg_round1 d signerIndex packageJson secretPackageJson)
  else if Z.eqb round 2 then
    match JSON_parse packageJson with
    | None => (s, Throw (mkExn "SyntaxError" "invalid JSON"))
    | Some packages =>
        match package_map packages with
        | Throw e => (s, Throw e)
        | Ok m => finish (dkg_round2 d signerIndex m secretPackageJson)
        end
    end
  else if Z.eqb round 3 then finish (dkg_round3 d signerIndex packageJson)
  else (s, Ok None)
  end.

Definition getDkgSession (sessionId : string) (s : CoordState) : option DkgSession := jm_get sessionId (fc_dkg s).

(** ** Signing sessions *)
Definition startSigning (queryId message : string) (config : ThresholdOracleConfig) (id : string) (now : number)
    (s : CoordState) : CoordState * FrostSigningSession :=
  let s := evictStaleSessions now s in
  let session := mkSigning id queryId config message [] [] None false now in
  (mkCoord (fc_dkg s) (fc_objects s ++ [session]) (jm_set id (length (fc_objects s)) (fc_signing s))
     (jm_set queryId id (fc_queries s)) (fc_env s), session).

Definition getSigningSession (sessionId : string) (s : CoordState) : option FrostSigningSession :=
  jm_get sessionId (fc_signing s) ≫= fun a => fc_objects s !! a.

Definition update_object (a : nat) (f : FrostSigningSession -> FrostSigningSession) (s : CoordState) : CoordState :=
  mkCoord (fc_dkg s) (alter f a (fc_objects s)) (fc_signing s) (fc_queries s) (fc_env s).

Definition add_commitment (pk c : string) (x : FrostSigningSession) : FrostSigningSession :=
  mkSigning (ss_session_id x) (ss_query_id x) (ss_config x) (ss_message x) (jm_set pk c (ss_nonce_commitments x))
    (ss_signature_shares x) (ss_group_signature x) (ss_finalized x) (ss_created_at x).
Definition add_share (pk share : string) (x : FrostSigningSession) : FrostSigningSession :=
  mkSigning (ss_session_id x) (ss_query_id x) (ss_config x) (ss_message x) (ss_nonce_commitments x)
    (jm_set pk share (ss_signature_shares x)) (ss_group_signature x) (ss_finalized x) (ss_created_at x).
Definition finalize_with (signature : jsval) (x : FrostSigningSession) : FrostSigningSession :=
  mkSigning (ss_session_id x) (ss_query_id x) (ss_config x) (ss_message x) (ss_nonce_commitments x)
    (ss_signature_shares x) (Some signature) true (ss_created_at x).

(** The address of a session that is open. *)
Definition open_session_at (sessionId : string) (s : CoordState) : option (nat * FrostSigningSession) :=
  match jm_get sessionId (fc_signing s) with
  | None => None
  | Some a => match fc_objects s !! a with
              | Some x => if ss_finalized x then None else Some (a, x)
              | None => None
              end
  end.

Definition submitNonceCommitment (sessionId pk commitment : string) (s : CoordState) : CoordState :=
  match open_session_at sessionId s with
  | None => s
  | Some (a, _) => update_object a (add_commitment pk commitment) s
  end.

Definition submitSignatureShare (sessionId pk share : string) (s : CoordState) : CoordState :=
  match open_session_at sessionId s with
  | None => s
  | Some (a, _) => update_object a (add_share pk share) s
  end.

Variables (spawn : list string -> E -> E * ProcOutcome) (executor : SidecarExecutor).

Definition fc_spawn (cmd : list string) (s : CoordState) : CoordState * ProcOutcome :=
  let '(e, o) := spawn cmd (fc_env s) in
  (mkCoord (fc_dkg s) (fc_objects s) (fc_signing s) (fc_queries s) e, o).

Definition string_map_json (m : list (string * string)) : string :=
  JSON_stringify (VObj ((fun kv => (kv.1, VStr kv.2)) <$> m)).

Definition tryAggregate (sessionId : string) (pubkeyPackage : option string) : call CoordState (option jsval) := fun s =>
  match open_session_at sessionId s with
  | None => ret None s
  | Some (a, x) =>
  if num (Z.of_nat (jm_size (ss_signature_shares x))) <ₙ tc_threshold (ss_config x) then ret None s
  else
    await (aggregateSignatures fc_spawn (tc_group_pubkey (ss_config x)) (string_map_json (ss_nonce_commitments x))
             (ss_message x) (string_map_json (ss_signature_shares x)) (opt_default "" pubkeyPackage) None executor)
      (fun result s =>
        match cli_data result with
        | None => ret None s
        | Some d =>
            let signature := prop "signature" d in
            if negb (js_truthy signature) then ret None s
            else ret (Some signature) (update_object a (finalize_with signature) s)
        end) s
  end.

(** ** The signing routes *)

(** [GET /frost/sign/:queryId] hands the path parameter to [getSigningSession]. *)
Definition get_signing_route (queryId : string) (s : CoordState) : option FrostSigningSession :=
  getSigningSession queryId s.
End coordinator.

(** ** Sessions of the coordinator

    Eviction removes exactly the stale sessions, the query map only ever points
    at live sessions, and a signature is aggregated only from a threshold of
    shares. *)

Section spec.
Context `{J : JSON} {E : Type}.
Notation State := (CoordState (E := E)).
Implicit Types s : State.

(** ** The eviction loop *)
Definition stale_entry (now : number) (objects : list FrostSigningSession) (e : string * nat) : bool :=
  match objects !! e.2 with Some x => stale now x | None => false end.

Lemma evict_one_signing now objects maps e id :
  jm_get id (evict_one now objects maps e).1 =
  if bool_decide (id = e.1) && stale_entry now objects e then None else jm_get id maps.1.
Proof.
  destruct maps as [signing queries]. unfold evict_one, stale_entry.
  destruct (objects !! e.2) as [x|]; [|by rewrite andb_false_r].
  destruct (stale now x); simpl; [|by rewrite andb_false_r]. rewrite jm_get_delete. by case_bool_decide.
Qed.

Lemma evict_loop_signing now objects l maps id :
  jm_get id (fold_left (evict_one now objects) l maps).1 =
  if existsb (fun e => bool_decide (id = e.1) && stale_entry now objects e) l then None else jm_get id maps.1.
Proof.
  revert maps. induction l as [|e l IH]; intros maps; cbn [fold_left existsb]; [done|].
  rewrite IH, evict_one_signing. by destruct (_ && _), (existsb _ l).
Qed.

(** ** Live query sessions *)

(** The maps are well formed over a heap. *)
Definition maps_ok (objects : list FrostSigningSession) (maps : list (string * nat) * list (string * string)) : Prop :=
  forall q id, jm_get q maps.2 = Some id ->
    exists a x, jm_get id maps.1 = Some a /\ objects !! a = Some x /\ ss_query_id x = q.

Lemma evict_one_ok now objects maps e :
  (forall a, jm_get e.1 maps.1 = Some a -> a = e.2) -> maps_ok objects maps -> maps_ok objects (evict_one now objects maps e).
Proof.
  intros He Hm q id Hq. destruct maps as [signing queries]. unfold evict_one in *.
  destruct (objects !! e.2) as [x|] eqn:Hx; [|by apply Hm]. destruct (stale now x); [|by apply Hm]. simpl in *.
  assert (Hq' : jm_get q queries = Some id).
  { case_bool_decide; [|done]. rewrite jm_get_delete in Hq. by case_bool_decide. }
  destruct (Hm q id Hq') as (a & y & Ha & Hy & Hqy). exists a, y. split; [|done]. simpl in Ha.
  rewrite jm_get_delete. destruct (bool_decide_reflect (id = e.1)) as [->|]; [|done]. exfalso.
  rewrite (He _ Ha) in *. simplify_eq. rewrite bool_decide_true in Hq by done.
  rewrite jm_get_delete, bool_decide_true in Hq; done.
Qed.

Lemma evict_loop_ok now objects l maps :
  (forall id a b, (id, a) ∈ l -> jm_get id maps.1 = Some b -> b = a) -> maps_ok objects maps ->
  maps_ok objects (fold_left (evict_one now objects) l maps).
Proof.
  revert maps. induction l as [|[id a] l IH]; intros maps Hl Hm; cbn [fold_left]; [done|].
  apply IH; [|apply evict_one_ok; [|done]].
  - intros id' a' b Hin Hb. rewrite evict_one_signing in Hb. case_match; [done|]. eapply Hl; [by right|done].
  - intros b Hb. eapply Hl; [left|done].
Qed.

(** The invariant of the coordinator's signing state. *)
Definition coord_ok s : Prop :=
  jm_wf (fc_signing s) /\ Forall (fun e => e.2 < length (fc_objects s)) (fc_signing s) /\
  maps_ok (fc_objects s) (fc_signing s, fc_queries s).

Lemma evict_loop_sub now objects l maps e :
  e ∈ (fold_left (evict_one now objects) l maps).1 -> e ∈ maps.1.
Proof.
  revert maps. induction l as [|e' l IH]; intros maps He; cbn [fold_left] in He; [done|].
  apply IH in He. destruct maps as [signing queries]. unfold evict_one in He.
  assert (Hd : forall k, e ∈ jm_delete k signing -> e ∈ signing)
    by (unfold jm_delete; intros k [_ ?]%list_elem_of_filter; done).
  repeat case_match; simpl in *; eauto.
Qed.

Lemma evict_loop_wf now objects l maps :
  jm_wf maps.1 -> jm_wf (fold_left (evict_one now objects) l maps).1.
Proof.
  revert maps. induction l as [|e l IH]; intros maps Hw; cbn [fold_left]; [done|]. apply IH.
  destruct maps as [signing queries]. unfold evict_one. repeat case_match; simpl; auto using jm_wf_delete.
Qed.

Lemma evict_ok now s : coord_ok s -> coord_ok (evictStaleSessions now s).
Proof.
  intros (Hw & Hb & Hm). unfold evictStaleSessions.
  pose proof (evict_loop_wf now (fc_objects s) (fc_signing s) (fc_signing s, fc_queries s) Hw) as Hw'.
  pose proof (evict_loop_ok now (fc_objects s) (fc_signing s) (fc_signing s, fc_queries s)) as Hm'.
  pose proof (evict_loop_sub now (fc_objects s) (fc_signing s) (fc_signing s, fc_queries s)) as Hs'.
  destruct (fold_left _ _ _) as [signing queries]. simpl in *. split_and!; [done| |].
  - rewrite Forall_forall in *. intros e He. apply Hb. by apply Hs'.
  - apply Hm'; [|done]. intros id a b Hin Hg. apply (jm_get_in id b) in Hw as Hb'.
    apply (jm_get_in id a) in Hw as [_ Ha]. specialize (Ha Hin). congruence.
Qed.

(** ** Steps of the coordinator *)
Inductive coord_step : State -> State -> Prop :=
| step_initDkg threshold total id now s : coord_step s (initDkg threshold total id now s).1
| step_dkg sid round i p secret s : coord_step s (submitDkgPackage sid round i p secret s).1
| step_start q m config id now s :
    jm_get id (fc_signing s) = None -> coord_step s (startSigning q m config id now s).1
| step_commitment sid pk c s : coord_step s (submitNonceCommitment sid pk c s)
| step_share sid pk x s : coord_step s (submitSignatureShare sid pk x s)
| step_finalize a signature s : coord_step s (update_object a (finalize_with signature) s)
| step_env e s : coord_step s (mkCoord (fc_dkg s) (fc_objects s) (fc_signing s) (fc_queries s) e).

(** Updating an object keeps the query it belongs to. *)
Lemma update_object_ok a f s :
  (forall x, ss_query_id (f x) = ss_query_id x) -> coord_ok s -> coord_ok (update_object a f s).
Proof.
  intros Hf (Hw & Hb & Hm). split_and!; simpl; [done|by rewrite length_alter|].
  intros q id Hq. destruct (Hm q id Hq) as (b & x & Hb' & Hx & Hqx). simpl in *.
  destruct (decide (a = b)) as [->|Hne].
  - exists b, (f x). rewrite list_lookup_alter_eq, Hx. split_and!; [done|done|]. by rewrite Hf.
  - exists b, x. by rewrite list_lookup_alter_ne.
Qed.

Lemma start_ok q m config id now s :
  jm_get id (fc_signing s) = None -> coord_ok s -> coord_ok (startSigning q m config id now s).1.
Proof.
  intros Hid Hs. pose proof (evict_ok now s Hs) as (Hw & Hb & Hm).
  assert (Hid' : jm_get id (fc_signing (evictStaleSessions now s)) = None).
  { unfold evictStaleSessions. pose proof (evict_loop_signing now (fc_objects s) (fc_signing s) (fc_signing s, fc_queries s) id) as H.
    destruct (fold_left _ _ _) as [signing queries]. simpl in *. rewrite H. by case_match. }
  unfold startSigning. set (t := evictStaleSessions now s) in *. split_and!; simpl.
  - by apply jm_wf_set.
  - apply Forall_forall. intros e He. rewrite length_app. simpl.
    assert (Hin : jm_get e.1 (jm_set id (length (fc_objects t)) (fc_signing t)) = Some e.2).
    { apply jm_get_in; [by apply jm_wf_set|]. by destruct e. }
    rewrite jm_get_set in Hin. case_bool_decide; [simplify_eq; lia|].
    apply jm_get_Some_in in Hin. rewrite Forall_forall in Hb. specialize (Hb _ Hin). simpl in Hb. lia.
  - intros q' id' Hq'. simpl in *. rewrite jm_get_set in Hq'. case_bool_decide; simplify_eq.
    + exists (length (fc_objects t)). eexists. rewrite jm_get_set_eq. split_and!; [done|by apply list_lookup_middle|done].
    + destruct (Hm q' id' Hq') as (a & x & Ha & Hx & Hqx). simpl in *. exists a, x.
      rewrite jm_get_set_ne by congruence. split_and!; [done| |done].
      rewrite lookup_app_l; [done|]. by eapply lookup_lt_Some.
Qed.

Lemma coord_step_ok s s' : coord_step s s' -> coord_ok s -> coord_ok s'.
Proof.
  intros Hst Hs. destruct Hst as [th tot id now s|sid round i p secret s|q m config id now s Hid|sid pk c s|sid pk x s|a sg s|e s].
  - unfold initDkg. simpl. apply (evict_ok now) in Hs as (Hw & Hb & Hm). by split_and!.
  - unfold submitDkgPackage. repeat case_match; simpl; try done; destruct Hs as (Hw & Hb & Hm); by split_and!.
  - by apply start_ok.
  - unfold submitNonceCommitment. repeat case_match; [|done]. by apply update_object_ok.
  - unfold submitSignatureShare. repeat case_match; [|done]. by apply update_object_ok.
  - by apply update_object_ok.
  - destruct Hs as (Hw & Hb & Hm). by split_and!.
Qed.

Lemma getSigning_evict now s id :
  coord_ok s -> getSigningSession id (evictStaleSessions now s) =
    match getSigningSession id s with Some x => if stale now x then None else Some x | None => None end.
Proof.
  intros (Hw & Hb & _). unfold getSigningSession, evictStaleSessions.
  pose proof (evict_loop_signing now (fc_objects s) (fc_signing s) (fc_signing s, fc_queries s) id) as H.
  destruct (fold_left _ _ _) as [signing queries]. simpl in *. rewrite H.
  destruct (existsb _ _) eqn:Ex; simpl.
  - apply existsb_exists in Ex as ([id' a] & Hin & Hc). apply andb_true_iff in Hc as [Hid Hst].
    apply bool_decide_eq_true_1 in Hid. simpl in Hid. subst id'. apply list_elem_of_In in Hin.
    apply (jm_get_in id a) in Hw as [_ Hg]. rewrite (Hg Hin). simpl. unfold stale_entry in Hst. simpl in Hst.
    destruct (fc_objects s !! a) as [x|]; [|done]. by rewrite Hst.
  - destruct (jm_get id (fc_signing s)) as [a|] eqn:Hg; simpl; [|done].
    destruct (fc_objects s !! a) as [x|] eqn:Hx; simpl; [|done]. destruct (stale now x) eqn:Hst; [|done].
    exfalso. rewrite <- not_true_iff_false in Ex. apply Ex. apply existsb_exists. exists (id, a).
    split; [by apply list_elem_of_In, jm_get_Some_in|]. unfold stale_entry. simpl. rewrite Hx, Hst. by rewrite bool_decide_true.
Qed.
End spec.

Section properties.
Context `{J : JSON} {E : Type}.
Notation State := (CoordState (E := E)).

Definition coord_empty (e : E) : State := mkCoord [] [] [] [] e.

Lemma coord_reachable_ok e s : rtc coord_step (coord_empty e) s -> coord_ok s.
Proof.
  intros H. assert (H0 : coord_ok (coord_empty e)) by (split_and!; [apply NoDup_nil_2|constructor|done]).
  revert H0. induction H; eauto using coord_step_ok.
Qed.

(** * Properties *)

(** In every reachable state the query map points at live sessions of the same
    query, and opening a session evicts exactly the stale ones: those past
    their lifetime, and finalized ones past the retention period. *)
Theorem coordinator_sessions e (s : State) now :
  rtc coord_step (coord_empty e) s ->
  (forall q id, jm_get q (fc_queries s) = Some id -> exists x, getSigningSession id s = Some x /\ ss_query_id x = q) /\
  (forall id, getSigningSession id (evictStaleSessions now s) =
     match getSigningSession id s with Some x => if stale now x then None else Some x | None => None end) /\
  (forall id d, (id, d) ∈ fc_dkg (evictStaleSessions now s) <->
     (id, d) ∈ fc_dkg s /\ (dk_created_at d <ₙ nsub now (num FROST_SESSION_TTL_MS)) = false).
Proof.
  intros Hr. pose proof (coord_reachable_ok _ _ Hr) as Hok. split_and!.
  - intros q id Hq. destruct Hok as (_ & _ & Hm). destruct (Hm q id Hq) as (a & x & Ha & Hx & Hqx).
    exists x. split; [|done]. unfold getSigningSession. simpl in Ha. by rewrite Ha.
  - intros id. by apply getSigning_evict.
  - intros id d. unfold evictStaleSessions. destruct (fold_left _ _ _) as [signing queries]. simpl.
    rewrite !list_elem_of_In, filter_In. simpl. by rewrite negb_true_iff.
Qed.

(** A signature is aggregated only from enough shares: whatever runs meanwhile,
    a returned signature is what the binary's [aggregate] reported for the
    session's group, message, commitments and shares, of which at least the
    threshold were present, from distinct submitters, in an open session. *)
Theorem aggregation_threshold spawn executor R sid pp (s : State) signature :
  outcome R (tryAggregate spawn executor sid pp) s (Ok (Some signature)) ->
  exists a x bin stdout stderr d, open_session_at sid s = Some (a, x) /\
    (num (Z.of_nat (jm_size (ss_signature_shares x))) <ₙ tc_threshold (ss_config x)) = false /\
    (spawn [bin; "aggregate"; "--group-pubkey"; tc_group_pubkey (ss_config x); "--commitments";
            string_map_json (ss_nonce_commitments x); "--message"; ss_message x; "--signature-shares";
            string_map_json (ss_signature_shares x); "--pubkey-package"; opt_default "" pp] (fc_env s)).2 =
      ProcExited 0 stdout stderr /\
    JSON_parse stdout = Some d /\ prop "signature" d = signature /\ js_truthy signature = true.
Proof.
  unfold tryAggregate. intros H. unfold outcome in H.
  destruct (open_session_at sid s) as [[a x]|] eqn:Ho; [|apply resolves_Settled in H; done].
  destruct (_ <ₙ _) eqn:Ht; [apply resolves_Settled in H; done|].
  apply (outcome_await R _ _ s) in H as (r & s1 & Hr & _ & H).
  destruct (cli_data r) as [d|] eqn:Hd; [|apply outcome_ret in H; done].
  destruct (js_truthy (prop "signature" d)) eqn:Hsig; simpl in H; [|apply outcome_ret in H; done].
  unfold outcome in H. apply resolves_Settled in H. simplify_eq.
  destruct (runFrostCommand_outcome _ _ _ _ _ _ _ _ _ Hr Hd) as (bin & out & err & _ & Hs & Hp).
  exists a, x, bin, out, err, d. split_and!; try done.
  unfold fc_spawn in Hs. destruct (spawn _ _) as [e o]. exact Hs.
Qed.

(** A key-generation round is complete exactly when packages of as many
    distinct signers as the group has members are in, this one included, and a
    reported group key is never replaced. *)
Theorem dkg_round_completion sid round i p secret (s s' : State) r d :
  jm_get sid (fc_dkg s) = Some d -> submitDkgPackage sid round i p secret s = (s', Ok (Some r)) ->
  exists d', jm_get sid (fc_dkg s') = Some d' /\
    dr_complete r = reached (if Z.eqb round 1 then jm_size (dk_round1_packages d')
                             else if Z.eqb round 2 then jm_size (dk_round2_packages d')
                             else jm_size (dk_key_packages d')) (dk_total_signers d) /\
    (dr_complete r = true -> dk_current_round d' = round) /\
    (js_truthy (dk_group_pubkey d) = true -> dk_group_pubkey d' = dk_group_pubkey d).
Proof.
  intros Hd. unfold submitDkgPackage. rewrite Hd.
  destruct (Z.eqb_spec round 1) as [->|H1]; [|destruct (Z.eqb_spec round 2) as [->|H2];
    [|destruct (Z.eqb_spec round 3) as [->|H3]]].
  - destruct (dkg_round1 d i p secret) as [d' r'] eqn:E1. intros ?; simplify_eq. exists d'. unfold set_dkg.
    cbn [fc_dkg]. rewrite jm_get_set_eq. unfold dkg_round1 in E1. simplify_eq/=.
    split_and!; [done|done| |done]. by intros ->.
  - destruct (JSON_parse p) as [v|]; [|done]. destruct (package_map v) as [m|e]; [|done].
    destruct (dkg_round2 d i m secret) as [d' r'] eqn:E2. intros ?; simplify_eq. exists d'. unfold set_dkg.
    cbn [fc_dkg]. rewrite jm_get_set_eq. unfold dkg_round2 in E2. simplify_eq/=.
    split_and!; [done|done| |done]. by intros ->.
  - destruct (dkg_round3 d i p) as [d' r'] eqn:E3. intros ?; simplify_eq. exists d'. unfold set_dkg.
    cbn [fc_dkg]. rewrite jm_get_set_eq. unfold dkg_round3 in E3.
    destruct (JSON_parse p) as [v|]; simplify_eq/=; (split_and!; [done|by case_match|by case_match|]); [|done].
    unfold first_set. intros ->. by rewrite andb_false_r.
  - done.
Qed.
End properties.

(** * Witnesses *)
Definition group2 : ThresholdOracleConfig := mkThresholdConfig (num 2) (num 2) ["pk1"; "pk2"] "group".
Definition agg_spawn (cmd : list string) (e : unit) : unit * ProcOutcome :=
  (e, ProcExited 0 (codec_stringify (VObj [("signature", VStr "sig")])) "").
Definition agg_executor : SidecarExecutor := mkExecutor (fun _ => false) (fun n => Some n) (fun _ => []).
Definition started : CoordState (E := unit) := (startSigning "q1" "m1" group2 "frost_1" (num 1000) (coord_empty tt)).1.
Definition one_share : CoordState (E := unit) := submitSignatureShare "frost_1" "stranger1" "s1" started.
Definition two_shares : CoordState (E := unit) := submitSignatureShare "frost_1" "stranger2" "s2" one_share.
Definition dkg_state : CoordState (E := unit) := (initDkg (num 1) (num 1) "dkg1" (num 0) (coord_empty tt)).1.

Lemma coordinator_sessions_witness :
  getSigningSession "frost_1" (evictStaleSessions (num 1801001) two_shares) = None.
Proof.
  destruct (coordinator_sessions (J := codec) tt two_shares (num 1801001)) as (_ & H & _).
  - eapply rtc_l; [apply (step_start "q1" "m1" group2 "frost_1" (num 1000)); reflexivity|].
    eapply rtc_l; [apply (step_share "frost_1" "stranger1" "s1")|].
    eapply rtc_l; [apply (step_share "frost_1" "stranger2" "s2")|]. apply rtc_refl.
  - rewrite H. vm_compute. reflexivity.
Defined.

(** The submitters of the shares are not checked against the group: here
    neither is a member. *)
Lemma aggregation_threshold_witness :
  exists a x, open_session_at "frost_1" two_shares = Some (a, x) /\
    jm_keys (ss_signature_shares x) = ["stranger1"; "stranger2"] /\ tc_signer_pubkeys (ss_config x) = ["pk1"; "pk2"].
Proof.
  destruct (aggregation_threshold (J := codec) agg_spawn agg_executor (fun _ => True) "frost_1" None two_shares (VStr "sig"))
    as (a & x & _ & _ & _ & _ & H & _); [apply run_call_outcome; vm_compute; reflexivity|].
  exists a, x. split; [exact H|]. vm_compute in H. injection H as _ <-. split; reflexivity.
Defined.

Lemma dkg_round_completion_witness :
  exists d', jm_get "dkg1" (fc_dkg (submitDkgPackage (J := codec) "dkg1" 1 (num 1) "p" None dkg_state).1) = Some d' /\
    dk_current_round d' = 1%Z.
Proof.
  destruct (dkg_round_completion (J := codec) "dkg1" 1 (num 1) "p" None dkg_state
    (submitDkgPackage (J := codec) "dkg1" 1 (num 1) "p" None dkg_state).1 (mkDkgResult 1 true VUndef VUndef)
    (mkDkg "dkg1" (num 1) (num 1) 0 [] [] [] [] [] VUndef VUndef (num 0))) as (d' & H1 & _ & H3 & _);
    [reflexivity|vm_compute; reflexivity|].
  exists d'. split; [exact H1|apply H3; reflexivity].
Defined.

(** The route that reads a session by query id looks it up by session id. *)
Example query_route_misses :
  (jm_get "q1" (fc_queries started), get_signing_route "q1" started) = (Some "frost_1", None).
Proof. reflexivity. Qed.

(** A late round-1 package moves a finished session back to round 1. *)
Example dkg_round_regresses :
  let s3 := (submitDkgPackage (J := codec) "dkg1" 3 (num 1) "k" None dkg_state).1 in
  let s1 := (submitDkgPackage (J := codec) "dkg1" 1 (num 1) "p" None s3).1 in
  (dk_current_round <$> getDkgSession "dkg1" s3, dk_current_round <$> getDkgSession "dkg1" s1) = (Some 3%Z, Some 1%Z).
Proof. vm_compute. reflexivity. Qed.
