(* ===== verification/FrostSigning.v ===== *)
(** * Coordinating a FROST signature across peers

    [payments/frost/frost-signing-coordinator.ts] and the port
    [frost-signature-adapter.ts] the query service calls.  Peers are reached by
    HTTP and the local share by the signer binary; both belong to the world [E]. *)

From S2P Require Import Prelude JsNum JsMap JsString JsValue JsonCodec EventLoop QueryTypes PreimageStore Sidecar CashuTypes CashuEscrow Tlsn Verifier.
From S2P Require Import FrostCli.

(** A request fails (network error, timeout) or is answered; [fr_json] is the
    outcome of parsing the answer's body. *)
Record HttpAnswer := mkAnswer { fr_ok : bool; fr_status : Z; fr_json : res jsval }.

Record HttpRequest := mkRequest { rq_url : string; rq_headers : list (string * string); rq_body : string }.

(** [index.toString(16)] *)
Fixpoint hex_digits (fuel : nat) (z : Z) (acc : list Ascii.ascii) : list Ascii.ascii :=
  match fuel with
  | O => acc
  | S fuel' =>
      let d := (z mod 16)%Z in
      let acc' := Ascii.ascii_of_nat (Z.to_nat (if (d <? 10)%Z then d + 48 else d + 87)) :: acc in
      if (z <? 16)%Z then acc' else hex_digits fuel' (z / 16) acc'
  end.
Definition hex_of (z : Z) : string := of_chars (hex_digits (S (Z.to_nat (Z.log2 z))) z []).

Definition number_to_hex (n : number) : string :=
  match n with
  | NaN => "NaN"
  | Infinity true => "-Infinity"
  | Infinity false => "Infinity"
  | Finite m e =>
      let a := Z.abs m in
      let digits := ((Z.of_N e + 3) / 4)%Z in
      let frac := ((a mod pow2 e) * 2 ^ (4 * digits - Z.of_N e))%Z in
      (if (m <? 0)%Z then "-" else "") +:+ hex_of (a / pow2 e) +:+
      (if (frac =? 0)%Z then "" else "." +:+ strip_trailing_zeros (padStart0 (Z.to_nat digits) (hex_of frac)))
  end.

Definition identifierFromIndex (index : number) : string := padStart0 64 (number_to_hex index).

Example identifier_ex :
  identifierFromIndex (num 26) = "000000000000000000000000000000000000000000000000000000000000001a".
Proof. vm_compute. reflexivity. Qed.

Definition buildHeaders (apiKey : option string) : list (string * string) :=
  ("Content-Type", "application/json") ::
  match truthy apiKey with Some k => [("x-api-key", k)] | None => [] end.

Section coordinate.
Context `{J : JSON} {E : Type}.
Variables (spawn : list string -> E -> E * ProcOutcome) (fetch : HttpRequest -> E -> E * res HttpAnswer).

Record SigningCoordinatorConfig := mkCoordConfig {
  cg_nodeConfig : FrostNodeConfig;
  cg_executor : SidecarExecutor;
  cg_requirement : jsval;
  cg_input : jsval;
  cg_blossomKeys : jsval;
  cg_escrowToken : option string;
}.

(** [fetchWithTimeout], its rejection caught by the caller's [try]. *)
Definition post (peer : PeerConfig) (path : string) (body : list (string * jsval)) : call E (res HttpAnswer) := fun e =>
  let '(e', r) := fetch (mkRequest (pc_endpoint peer +:+ path) (buildHeaders (pc_api_key peer))
                           (JSON_stringify (VObj body))) e in
  (e', Settled (Ok r)).

(** What a peer's answer contributes: nothing on an error status ([continue],
    no threshold test), nothing on a failure ([catch], then the test), or data. *)
Inductive peer_reply := PeerRefused | PeerFailed | PeerData (data : jsval).
Definition read_reply (r : res HttpAnswer) : peer_reply :=
  match r with
  | Throw _ => PeerFailed
  | Ok answer =>
      if negb (fr_ok answer) then PeerRefused
      else match fr_json answer with
           | Ok VNull | Ok VUndef | Throw _ => PeerFailed
           | Ok data => PeerData data
           end
  end.

Definition enough (o : list (string * jsval)) (threshold : number) : bool := num (Z.of_nat (length o)) ≥ₙ threshold.

Definition round1_body (config : SigningCoordinatorConfig) (messageHex : string) : list (string * jsval) :=
  [("message", VStr messageHex); ("requirement", cg_requirement config); ("input", cg_input config);
   ("blossom_keys", cg_blossomKeys config); ("escrow_token", str_field (cg_escrowToken config))].

(** The loop over peers in round 1: commitments by identifier, and who committed. *)
Fixpoint collect_commitments (config : SigningCoordinatorConfig) (messageHex : string) (peers : list PeerConfig)
    (commitments : list (string * jsval)) (participating : list (PeerConfig * jsval))
    : call E (list (string * jsval) * list (PeerConfig * jsval)) :=
  match peers with
  | [] => ret (commitments, participating)
  | peer :: peers' =>
      let node := cg_nodeConfig config in
      if pc_signer_index peer =ₙ nc_signer_index node then
        collect_commitments config messageHex peers' commitments participating
      else
        await (post peer "/frost/signer/round1" (round1_body config messageHex)) (fun r =>
          let test c p := if enough c (nc_threshold node) then ret (c, p)
                          else collect_commitments config messageHex peers' c p in
          match read_reply r with
          | PeerRefused => collect_commitments config messageHex peers' commitments participating
          | PeerFailed => test commitments participating
          | PeerData data =>
              test (set_field (identifierFromIndex (pc_signer_index peer)) (prop "commitments" data) commitments)
                (participating ++ [(peer, prop "nonce_id" data)])
          end)
  end.

(** The loop over participants in round 2. *)
Fixpoint collect_shares (commitmentsJson messageHex : string) (participating : list (PeerConfig * jsval))
    (shares : list (string * jsval)) : call E (list (string * jsval)) :=
  match participating with
  | [] => ret shares
  | (peer, nonce_id) :: rest =>
      await (post peer "/frost/signer/round2"
               [("commitments", VStr commitmentsJson); ("message", VStr messageHex); ("nonce_id", nonce_id)]) (fun r =>
        match read_reply r with
        | PeerData data =>
            collect_shares commitmentsJson messageHex rest
              (set_field (identifierFromIndex (pc_signer_index peer)) (prop "signature_share" data) shares)
        | _ => collect_shares commitmentsJson messageHex rest shares
        end)
  end.

Record SigningCoordinatorResult := mkCoordResult {
  scr_signature : jsval;
  scr_signers_participated : list number;
}.

(** Round 2 and aggregation, from the collected commitments. *)
Definition finish_signing (config : SigningCoordinatorConfig) (messageHex localNonces : string)
    (commitments : list (string * jsval)) (participating : list (PeerConfig * jsval))
    : call E (option SigningCoordinatorResult) :=
  let node := cg_nodeConfig config in
  let keyPackageJson := JSON_stringify (nc_key_package node) in
  let commitmentsJson := JSON_stringify (VObj commitments) in
  await (signRound2 spawn keyPackageJson localNonces commitmentsJson messageHex None (cg_executor config)) (fun localR2 =>
  match cli_data localR2 with
  | None => ret None
  | Some r2 =>
  await (collect_shares commitmentsJson messageHex participating
           [(identifierFromIndex (nc_signer_index node), prop "signature_share" r2)]) (fun shares =>
  if num (Z.of_nat (length shares)) <ₙ nc_threshold node then ret None
  else
  await (aggregateSignatures spawn (nc_group_pubkey node) commitmentsJson messageHex (JSON_stringify (VObj shares))
           (JSON_stringify (nc_pubkey_package node)) None (cg_executor config)) (fun agg =>
  match cli_data agg with
  | None => ret None
  | Some d =>
      if negb (js_truthy (prop "signature" d)) then ret None
      else ret (Some (mkCoordResult (prop "signature" d)
                        (nc_signer_index node :: (pc_signer_index ∘ fst <$> participating))))
  end)) end).

Definition coordinateSigning (config : SigningCoordinatorConfig) (messageHex : string)
    : call E (option SigningCoordinatorResult) :=
  let node := cg_nodeConfig config in
  await (signRound1 spawn (JSON_stringify (nc_key_package node)) None (cg_executor config)) (fun localR1 =>
  match cli_data localR1 with
  | None => ret None
  | Some r1 =>
  let local := [(identifierFromIndex (nc_signer_index node), prop "commitments" r1)] in
  await (collect_commitments config messageHex (nc_peers node) local []) (fun '(commitments, participating) =>
  if num (Z.of_nat (length commitments)) <ₙ nc_threshold node then ret None
  else finish_signing config messageHex (JSON_stringify (prop "nonces" r1)) commitments participating)
  end).

(** ** The signature port *)
Context `{N : Noble} `{L : CashuLib}.

(** The requirement and evidence as the peers receive them. *)
Variables (requirement_json : VerificationRequirement -> jsval) (input_json : VerificationInput -> jsval)
  (blossom_json : option BlossomKeyMap -> jsval).

Fixpoint sign_messages (config : SigningCoordinatorConfig) (messages : list string) (signatures : list jsval)
    : call E (option (list jsval)) :=
  match messages with
  | [] => ret (Some signatures)
  | messageHex :: messages' =>
      await (coordinateSigning config messageHex) (fun r =>
        match r with
        | None => ret None
        | Some sig => sign_messages config messages' (signatures ++ [scr_signature sig])
        end)
  end.

Definition frost_escrow_token (query : Query) : option string :=
  match q_escrow query with
  | Some e => match esc_type e with p2pk_frost _ => esc_escrow_token e | htlc _ => None end
  | None => None
  end.

Definition requestSignature (nodeConfig : FrostNodeConfig) (executor : SidecarExecutor) (query : Query)
    (result : QueryResult) (blossomKeys : option BlossomKeyMap) : call E (option (list jsval)) :=
  let escrowToken := frost_escrow_token query in
  match match truthy escrowToken with
        | Some token => deriveFrostP2pkMessages token None
        | None => Ok [deriveFrostSigningMessage (q_id query)]
        end with
  | Throw e => fail e
  | Ok messages =>
      sign_messages (mkCoordConfig nodeConfig executor (requirement_json (requestToRequirement query))
                       (input_json (resultToVerificationInput result)) (blossom_json blossomKeys) escrowToken)
        messages []
  end.
End coordinate.
