(* ===== verification/FrostSigningSpec.v ===== *)
(** * Threshold signatures: who contributed

    A signature is returned only after entries for a threshold of distinct signer
    identifiers were collected in both rounds, each read from that signer's own
    answer, and the two sets agree.  What an answer holds is not checked by the
    coordinator: [empty_answers_counted]. *)

From S2P Require Import Prelude JsNum JsMap JsString JsValue JsonCodec EventLoop QueryTypes PreimageStore Sidecar CashuTypes CashuEscrow Tlsn Verifier Samples.
From S2P Require Import FrostCli FrostSigning.

Lemma set_field_jm_set k v o : set_field k v o = jm_set k v o.
Proof. induction o as [|[k' v'] o IH]; simpl; [done|]. case_bool_decide; [by subst|]. by rewrite IH. Qed.

Section spec.
Context `{J : JSON} {E : Type} (spawn : list string -> E -> E * ProcOutcome) (fetch : HttpRequest -> E -> E * res HttpAnswer).

Definition peer_id (p : PeerConfig * jsval) : string := identifierFromIndex (pc_signer_index p.1).

(** Commitments are keyed by distinct identifiers: the local one and those of
    the participants; while they stay below the threshold they can still grow. *)
Definition commitments_ok (local : string) (t : option nat) (st : list (string * jsval) * list (PeerConfig * jsval)) : Prop :=
  let '(commitments, participating) := st in
  jm_wf commitments /\ local ∈ jm_keys commitments /\
  (forall k, k ∈ jm_keys commitments -> k = local \/ k ∈ peer_id <$> participating) /\
  (forall k, k ∈ peer_id <$> participating -> k ∈ jm_keys commitments) /\
  match t with Some t => length commitments <= t | None => True end.

Lemma elem_of_keys_set (k j : string) (v : jsval) m : j ∈ jm_keys (jm_set k v m) <-> j = k \/ j ∈ jm_keys m.
Proof.
  rewrite jm_keys_set. unfold jm_has. destruct (jm_get k m) as [w|] eqn:Ek.
  - split; [by right|]. intros [->|]; [|done]. apply jm_get_Some_in in Ek. apply list_elem_of_fmap. by exists (k, w).
  - rewrite elem_of_app, list_elem_of_singleton. tauto.
Qed.

Lemma commitments_add local t c p peer v nonce :
  match t with Some t => length c < t | None => True end -> commitments_ok local t (c, p) ->
  commitments_ok local t (set_field (identifierFromIndex (pc_signer_index peer)) v c, p ++ [(peer, nonce)]).
Proof.
  intros Hlt (Hw & Hl & H1 & H2 & Hle). rewrite set_field_jm_set. split_and!.
  - by apply jm_wf_set.
  - apply elem_of_keys_set. by right.
  - intros k [->|Hk]%elem_of_keys_set; rewrite fmap_app, elem_of_app.
    + right. right. left.
    + destruct (H1 k Hk); auto.
  - intros k. rewrite fmap_app, elem_of_app, elem_of_keys_set. intros [Hk|Hk%list_elem_of_singleton]; [right; by apply H2|by left].
  - destruct t as [t|]; [|done]. fold (jm_size (jm_set (identifierFromIndex (pc_signer_index peer)) v c)).
    rewrite jm_size_set. unfold jm_size. case_match; lia.
Qed.

Lemma enough_num o t : enough o (num (Z.of_nat t)) = false -> length o < t.
Proof. unfold enough. rewrite nge_num, Z.leb_gt. lia. Qed.

Lemma collect_commitments_outcome R config m local t peers c p e st :
  match t with Some t => nc_threshold (cg_nodeConfig config) = num (Z.of_nat t) /\ length c < t | None => True end ->
  commitments_ok local t (c, p) ->
  outcome R (collect_commitments fetch config m peers c p) e (Ok st) -> commitments_ok local t st.
Proof.
  revert c p e. induction peers as [|peer peers IH]; intros c p e Ht Hok H; simpl in H.
  - apply outcome_ret in H. by simplify_eq.
  - destruct (_ =ₙ _); [by eapply IH|]. apply outcome_await in H as (r & e1 & _ & _ & H).
    assert (Htest : forall c' p', commitments_ok local t (c', p') ->
      outcome R (if enough c' (nc_threshold (cg_nodeConfig config)) then ret (c', p')
                 else collect_commitments fetch config m peers c' p') e1 (Ok st) -> commitments_ok local t st).
    { intros c' p' Hok' H'. destruct (enough c' (nc_threshold (cg_nodeConfig config))) eqn:He; [apply outcome_ret in H'; by simplify_eq|].
      eapply IH; [|exact Hok'|exact H']. destruct t as [t|]; [|done]. destruct Ht as [Ht _]. rewrite Ht in He.
      split; [done|]. by apply enough_num. }
    destruct (read_reply r) as [| |data]; [by eapply IH|by eapply Htest|].
    eapply Htest; [|exact H]. apply commitments_add; [|done]. destruct t; [by destruct Ht|done].
Qed.

(** *** Where the entries come from *)

(** A peer answered a request with a success status and this body. *)
Definition answered (peer : PeerConfig) (path : string) (body : list (string * jsval)) (data : jsval) : Prop :=
  exists e answer,
    (fetch (mkRequest (pc_endpoint peer +:+ path) (buildHeaders (pc_api_key peer)) (JSON_stringify (VObj body))) e).2 = Ok answer /\
    fr_ok answer = true /\ fr_json answer = Ok data /\ data <> VNull /\ data <> VUndef.

(** The local binary exited with success and this answer. *)
Definition binary_answered (args : list string) (data : jsval) : Prop :=
  exists bin e stdout stderr, (spawn (bin :: args) e).2 = ProcExited 0 stdout stderr /\ JSON_parse stdout = Some data.

Definition other_peer (node : FrostNodeConfig) (peer : PeerConfig) : Prop :=
  peer ∈ nc_peers node /\ (pc_signer_index peer =ₙ nc_signer_index node) = false.

(** A peer that took part, with the nonce it named in round 1. *)
Definition participant (config : SigningCoordinatorConfig) (m : string) (q : PeerConfig * jsval) : Prop :=
  other_peer (cg_nodeConfig config) q.1 /\
  exists data, answered q.1 "/frost/signer/round1" (round1_body config m) data /\ q.2 = prop "nonce_id" data.

Definition commitment_source (config : SigningCoordinatorConfig) (m : string) (r1 : jsval) (entry : string * jsval) : Prop :=
  let node := cg_nodeConfig config in
  entry = (identifierFromIndex (nc_signer_index node), prop "commitments" r1) \/
  exists peer data, other_peer node peer /\ answered peer "/frost/signer/round1" (round1_body config m) data /\
    entry = (identifierFromIndex (pc_signer_index peer), prop "commitments" data).

Definition share_source (config : SigningCoordinatorConfig) (m : string) (r2 : jsval) (commitments : list (string * jsval))
    (entry : string * jsval) : Prop :=
  let node := cg_nodeConfig config in
  entry = (identifierFromIndex (nc_signer_index node), prop "signature_share" r2) \/
  exists peer nonce data, participant config m (peer, nonce) /\
    answered peer "/frost/signer/round2"
      [("commitments", VStr (JSON_stringify (VObj commitments))); ("message", VStr m); ("nonce_id", nonce)] data /\
    entry = (identifierFromIndex (pc_signer_index peer), prop "signature_share" data).

Lemma Forall_set_field (Q : string * jsval -> Prop) k v o : Q (k, v) -> Forall Q o -> Forall Q (set_field k v o).
Proof.
  intros Hkv. induction 1 as [|[k' v'] o Hx Ho IH]; cbn; [by constructor|]. case_bool_decide; by constructor.
Qed.

Lemma post_answered R peer path body e r data :
  outcome R (post fetch peer path body) e (Ok r) -> read_reply r = PeerData data -> answered peer path body data.
Proof.
  intros H Hr. unfold post in H.
  destruct (fetch (mkRequest (pc_endpoint peer +:+ path) (buildHeaders (pc_api_key peer)) (JSON_stringify (VObj body))) e) as [e' r'] eqn:Ef.
  assert (r' = r) as ->. { unfold outcome in H. rewrite Ef in H. by inversion H. }
  unfold read_reply in Hr. destruct r as [answer|]; [|done]. exists e, answer. rewrite Ef.
  destruct (fr_ok answer); [|done]. cbn in Hr. split_and!; [done|done|..];
    destruct (fr_json answer) as [[]|]; try done; by simplify_eq.
Qed.

Lemma collect_commitments_source R config m r1 peers c p e c' p' :
  (forall peer, peer ∈ peers -> peer ∈ nc_peers (cg_nodeConfig config)) ->
  Forall (commitment_source config m r1) c -> Forall (participant config m) p ->
  outcome R (collect_commitments fetch config m peers c p) e (Ok (c', p')) ->
  Forall (commitment_source config m r1) c' /\ Forall (participant config m) p'.
Proof.
  revert c p e. induction peers as [|peer peers IH]; intros c p e Hin Hc Hp H; simpl in H.
  - apply outcome_ret in H. by simplify_eq.
  - assert (Hin' : forall q, q ∈ peers -> q ∈ nc_peers (cg_nodeConfig config)) by (intros q Hq; apply Hin; by right).
    destruct (_ =ₙ _) eqn:Hi; [by eapply IH|]. apply outcome_await in H as (r & e1 & Hr & _ & H).
    assert (Htest : forall c2 p2, Forall (commitment_source config m r1) c2 -> Forall (participant config m) p2 ->
      outcome R (if enough c2 (nc_threshold (cg_nodeConfig config)) then ret (c2, p2)
                 else collect_commitments fetch config m peers c2 p2) e1 (Ok (c', p')) ->
      Forall (commitment_source config m r1) c' /\ Forall (participant config m) p').
    { intros c2 p2 Hc2 Hp2 H'. destruct (enough c2 (nc_threshold (cg_nodeConfig config))); [apply outcome_ret in H'; by simplify_eq|by eapply IH]. }
    assert (Ho : other_peer (cg_nodeConfig config) peer) by (split; [apply Hin; left|done]).
    destruct (read_reply r) as [| |data] eqn:Ed; [by eapply IH|by eapply Htest|].
    pose proof (post_answered _ _ _ _ _ _ _ Hr Ed) as Ha. eapply Htest; [| |exact H].
    + apply Forall_set_field; [|done]. right. by exists peer, data.
    + apply Forall_app. split; [done|]. apply Forall_singleton. split; [done|]. by exists data.
Qed.

Lemma collect_shares_source R config m r2 commitments p shares e shares' :
  Forall (participant config m) p -> Forall (share_source config m r2 commitments) shares ->
  outcome R (collect_shares fetch (JSON_stringify (VObj commitments)) m p shares) e (Ok shares') ->
  Forall (share_source config m r2 commitments) shares'.
Proof.
  revert shares e. induction p as [|[peer nonce] p IH]; intros shares e Hp Hs H; simpl in H.
  - apply outcome_ret in H. by simplify_eq.
  - apply Forall_cons in Hp as [Hq Hp]. apply outcome_await in H as (r & e1 & Hr & _ & H).
    destruct (read_reply r) as [| |data] eqn:Ed; [by eapply IH..|]. eapply IH; [done| |exact H].
    apply Forall_set_field; [|done]. right. exists peer, nonce, data. split_and!; [done| |done].
    by apply (post_answered _ _ _ _ _ _ _ Hr Ed).
Qed.

(** Shares are keyed by distinct identifiers among the participants. *)
Definition shares_ok (keys : list string) (shares : list (string * jsval)) : Prop :=
  jm_wf shares /\ forall k, k ∈ jm_keys shares -> k ∈ keys.

Lemma collect_shares_outcome R cj m keys p shares e shares' :
  (forall k, k ∈ peer_id <$> p -> k ∈ keys) -> shares_ok keys shares ->
  outcome R (collect_shares fetch cj m p shares) e (Ok shares') -> shares_ok keys shares'.
Proof.
  revert shares e. induction p as [|[peer nonce] p IH]; intros shares e Hp Hok H; simpl in H.
  - apply outcome_ret in H. by simplify_eq.
  - apply outcome_await in H as (r & e1 & _ & _ & H).
    assert (Hp' : forall k, k ∈ peer_id <$> p -> k ∈ keys) by (intros k Hk; apply Hp; by right).
    destruct (read_reply r) as [| |data]; [by eapply IH|by eapply IH|].
    eapply IH; [done| |exact H]. rewrite set_field_jm_set. destruct Hok as [Hw Hk]. split; [by apply jm_wf_set|].
    intros k [->|?]%elem_of_keys_set; [|by apply Hk]. apply Hp. left.
Qed.

(** The arguments of the aggregation that produced a signature. *)
Definition aggregated (node : FrostNodeConfig) (m : string) (commitments shares : list (string * jsval)) (signature : jsval) : Prop :=
  exists bin e stdout stderr d,
    (spawn [bin; "aggregate"; "--group-pubkey"; nc_group_pubkey node; "--commitments"; JSON_stringify (VObj commitments);
            "--message"; m; "--signature-shares"; JSON_stringify (VObj shares); "--pubkey-package";
            JSON_stringify (nc_pubkey_package node)] e).2 = ProcExited 0 stdout stderr /\
    JSON_parse stdout = Some d /\ prop "signature" d = signature /\ js_truthy signature = true.

Lemma finish_outcome R config m nonces commitments p e r :
  (forall k, k ∈ peer_id <$> p -> k ∈ jm_keys commitments) ->
  identifierFromIndex (nc_signer_index (cg_nodeConfig config)) ∈ jm_keys commitments ->
  outcome R (finish_signing spawn fetch config m nonces commitments p) e (Ok (Some r)) ->
  Forall (participant config m) p ->
  exists shares r2, shares_ok (jm_keys commitments) shares /\
    binary_answered ["sign-round2"; "--key-package"; JSON_stringify (nc_key_package (cg_nodeConfig config)); "--nonces"; nonces;
      "--commitments"; JSON_stringify (VObj commitments); "--message"; m] r2 /\
    Forall (share_source config m r2 commitments) shares /\
    (num (Z.of_nat (length shares)) <ₙ nc_threshold (cg_nodeConfig config)) = false /\
    aggregated (cg_nodeConfig config) m commitments shares (scr_signature r) /\
    scr_signers_participated r = nc_signer_index (cg_nodeConfig config) :: (pc_signer_index ∘ fst <$> p).
Proof.
  intros Hp Hl H Hpart. unfold finish_signing in H. apply outcome_await in H as (r2 & e1 & H2 & _ & H).
  destruct (cli_data r2) as [d2|] eqn:Hd2; [|apply outcome_ret in H; done].
  apply outcome_await in H as (shares & e2 & Hs & _ & H).
  destruct (_ <ₙ _) eqn:Ht; [apply outcome_ret in H; done|].
  apply outcome_await in H as (agg & e3 & Ha & _ & H).
  destruct (cli_data agg) as [d|] eqn:Hd; [|apply outcome_ret in H; done].
  destruct (js_truthy (prop "signature" d)) eqn:Hsig; simpl in H; [|apply outcome_ret in H; done].
  apply outcome_ret in H. simplify_eq/=. exists shares, d2. split_and!; [| | |done| |done].
  - eapply (collect_shares_outcome R _ m _ p); [exact Hp| |exact Hs]. split; [apply NoDup_singleton|].
    intros k Hk%list_elem_of_singleton. by subst.
  - destruct (runFrostCommand_outcome _ _ _ _ _ _ _ _ _ H2 Hd2) as (bin & out & err & _ & Hsp & Hj). by exists bin, e, out, err.
  - eapply collect_shares_source; [exact Hpart| |exact Hs]. apply Forall_singleton. by left.
  - destruct (runFrostCommand_outcome _ _ _ _ _ _ _ _ _ Ha Hd) as (bin & out & err & _ & Hsp & Hj).
    by exists bin, e2, out, err, d.
Qed.
End spec.

(** A list without duplicates that covers a shorter-or-equal one covers it fully. *)
Lemma NoDup_subset_full (small big : list string) k :
  NoDup small -> (forall x, x ∈ small -> x ∈ big) -> length big <= length small -> k ∈ big -> k ∈ small.
Proof.
  intros Hn Hsub Hlen Hk. assert (Hs : small ⊆+ big) by (by apply NoDup_submseteq).
  apply submseteq_length_Permutation in Hs; [|done]. by rewrite Hs.
Qed.

Lemma sign_messages_outcome `{J : JSON} {E} spawn fetch R config ms sigs (e : E) sigs' :
  outcome R (sign_messages spawn fetch config ms sigs) e (Ok (Some sigs')) ->
  exists rs, sigs' = sigs ++ (scr_signature <$> rs) /\
    Forall2 (fun m r => exists e', outcome R (coordinateSigning spawn fetch config m) e' (Ok (Some r))) ms rs.
Proof.
  revert sigs e. induction ms as [|m ms IH]; intros sigs e H; simpl in H.
  - apply outcome_ret in H. simplify_eq. exists []. by rewrite app_nil_r.
  - apply outcome_await in H as ([r|] & e1 & Hr & _ & H); [|apply outcome_ret in H; done].
    apply IH in H as (rs & -> & HF). exists (r :: rs). split; [by rewrite fmap_cons, <- app_assoc|].
    constructor; [by exists e|done].
Qed.

Section properties.
Context `{J : JSON} {E : Type} (spawn : list string -> E -> E * ProcOutcome) (fetch : HttpRequest -> E -> E * res HttpAnswer).

(** * Properties *)


(** The port signs one message per proof of the escrow token, in order, or
    nothing at all. *)
Theorem port_signs_every_proof `{N : Noble} `{L : CashuLib} req_json in_json bl_json R node ex q result bk token decoded e sigs :
  frost_escrow_token q = Some token -> token <> "" -> getDecodedToken token None = Ok decoded ->
  outcome R (requestSignature spawn fetch req_json in_json bl_json node ex q result bk) e (Ok (Some sigs)) ->
  exists rs, sigs = scr_signature <$> rs /\
    Forall2 (fun proof r => exists config e', cg_nodeConfig config = node /\ cg_escrowToken config = Some token /\
               outcome R (coordinateSigning spawn fetch config (sha256Utf8Hex (pf_secret proof))) e' (Ok (Some r)))
      (tok_proofs decoded) rs.
Proof.
  intros Ht Hne Hd H. unfold requestSignature in H. rewrite Ht in H.
  rewrite (proj2 (truthy_Some (Some token) token)) in H by done. unfold deriveFrostP2pkMessages in H. rewrite Hd in H. simpl in H.
  eapply sign_messages_outcome in H as (rs & -> & HF). exists rs. split; [done|].
  apply Forall2_fmap_l in HF. eapply Forall2_impl; [exact HF|]. simpl. intros proof r [e' He']. eexists _, e'. split_and!; [| |exact He']; done.
Qed.
End properties.

(** * Witnesses *)
Definition sign_spawn (cmd : list string) (e : unit) : unit * ProcOutcome :=
  (e, ProcExited 0 (codec_stringify (VObj [("nonces", VStr "n"); ("commitments", VStr "c");
    ("signature_share", VStr "s"); ("signature", VStr "sig")])) "").
Definition sign_fetch (r : HttpRequest) (e : unit) : unit * res HttpAnswer :=
  (e, Ok (mkAnswer true 200 (Ok (VObj [("commitments", VStr "c2"); ("nonce_id", VStr "u"); ("signature_share", VStr "s2")])))).
Definition sign_node : FrostNodeConfig := mkNodeConfig (num 1) (num 3) (num 2) (VStr "kp") (VStr "pp") "group"
  [mkPeer (num 1) "http://self" None; mkPeer (num 2) "http://p2" (Some "k"); mkPeer (num 3) "http://p3" None].
Definition sign_executor : SidecarExecutor := mkExecutor (fun _ => false) (fun n => Some n) (fun _ => []).
Definition sign_config : SigningCoordinatorConfig := mkCoordConfig sign_node sign_executor VNull VNull VUndef None.


(** A peer that answers both rounds with an empty object is counted towards the
    threshold and reported as a participant, although it contributed nothing. *)
Definition empty_fetch (r : HttpRequest) (e : unit) : unit * res HttpAnswer := (e, Ok (mkAnswer true 200 (Ok (VObj [])))).
Example empty_answers_counted :
  run_call (coordinateSigning (J := codec) sign_spawn empty_fetch sign_config "m") tt =
  (tt, Ok (Some (mkCoordResult (VStr "sig") [num 1; num 2]))).
Proof. vm_compute. reflexivity. Qed.

Definition frost_query : Query := sample_query "q1" processing escrow_swapped
  (Some (mkEscrowInfo (p2pk_frost "group") [] "cust" None (num 9) (Some "tok") None None)).
Definition frost_lib : CashuLib := sample_cashu (mkDecoded "mint" [sample_proof "s1" 1; sample_proof "s2" 2]).

Lemma port_signs_every_proof_witness :
  exists rs : list SigningCoordinatorResult, [VStr "sig"; VStr "sig"] = scr_signature <$> rs.
Proof.
  destruct (port_signs_every_proof (J := codec) (N := toy_noble) (L := frost_lib) sign_spawn sign_fetch
    (fun _ => VNull) (fun _ => VNull) (fun _ => VUndef) (fun _ => True) sign_node sign_executor frost_query sample_result None
    "tok" (mkDecoded "mint" [sample_proof "s1" 1; sample_proof "s2" 2]) tt [VStr "sig"; VStr "sig"]) as (rs & H & _);
    [reflexivity|done|reflexivity|apply run_call_outcome; vm_compute; reflexivity|].
  exists rs. exact H.
Defined.
