(* ===== verification/OracleNostr.v ===== *)
(** * The Oracle on Nostr

    [packages/sdk/src/adapters/nostr]: the release messages between Oracle and
    Provider ([events/dm.ts]), the reading of submitted results
    ([oracle-handlers.ts]), the service that watches requests and delivers
    preimages or group signatures ([oracle-service.ts]) and the responder for
    hash requests ([hash-responder.ts]).  Relays, randomness, the proof verifier
    and the FROST machinery belong to the world [E].  [on_log] is not in the
    code: it records watched requests, received results, selections, direct orders of
    the application, verdicts and deliveries so that theorems can speak about them.  The preimage store is the
    in-memory one, which the service creates when it is given none. *)

From S2P Require Import Prelude JsNum JsMap JsString JsValue EventLoop QueryTypes PreimageStore Sidecar CashuTypes CashuEscrow.
From S2P Require Import Tlsn Verifier Nostr NostrEvents FrostCli FrostSigning.

(** ** Release messages: [dm.ts] *)
Inductive OracleDMPayload :=
| PreimageDM (query_id preimage : string)
| RejectionDM (query_id reason : string)
| FrostSignatureDM (query_id : string) (group_signature : list string) (group_pubkey : string).

Section dm.
Context `{N : NostrLib} `{J : JSON}.

Definition dm_fields (p : OracleDMPayload) : list (string * jsval) :=
  match p with
  | PreimageDM q s => [("type", VStr "preimage"); ("query_id", VStr q); ("preimage", VStr s)]
  | RejectionDM q r => [("type", VStr "rejection"); ("query_id", VStr q); ("reason", VStr r)]
  | FrostSignatureDM q sigs pk =>
      [("type", VStr "frost_signature"); ("query_id", VStr q); ("group_signature", VArr (VStr <$> sigs));
       ("group_pubkey", VStr pk)]
  end.

Definition build_oracle_dm (identity : Keypair) (providerPubKey : string) (p : OracleDMPayload) (nowMs : number)
    : res Event :=
  build_dm identity providerPubKey (JSON_stringify (VObj (dm_fields p))) nowMs.

Definition buildPreimageDM identity providerPubKey queryId preimage nowMs : res Event :=
  build_oracle_dm identity providerPubKey (PreimageDM queryId preimage) nowMs.
Definition buildRejectionDM identity providerPubKey queryId reason nowMs : res Event :=
  build_oracle_dm identity providerPubKey (RejectionDM queryId reason) nowMs.
Definition buildFrostSignatureDM identity providerPubKey queryId groupSignature groupPubkey nowMs : res Event :=
  build_oracle_dm identity providerPubKey (FrostSignatureDM queryId groupSignature groupPubkey) nowMs.

(** [isOracleDMPayload], returning what it recognises. *)
Definition isOracleDMPayload (value : jsval) : option OracleDMPayload :=
  if negb (isRecord value) then None
  else
  match prop "query_id" value, prop "type" value with
  | VStr q, VStr t =>
      if t === "preimage" then PreimageDM q <$> as_string (prop "preimage" value)
      else if t === "rejection" then RejectionDM q <$> as_string (prop "reason" value)
      else if t === "frost_signature" then
        match as_string_array (prop "group_signature" value), prop "group_pubkey" value with
        | Some sigs, VStr pk => Some (FrostSignatureDM q sigs pk)
        | _, _ => None
        end
      else None
  | _, _ => None
  end.

(** Key derivation is outside the [try]; decryption and parsing are inside. *)
Definition parseOracleDM (content : string) (recipientSecretKey : SecretKey) (senderPubKey : string)
    : res (option OracleDMPayload) :=
  key ← getConversationKey recipientSecretKey senderPubKey;
  Ok match nip44Decrypt content key with
     | Throw _ => None
     | Ok decrypted => match JSON_parse decrypted with
                       | None => None
                       | Some parsed => isOracleDMPayload parsed
                       end
     end.
End dm.

(** ** Reading a submitted result: [oracle-handlers.ts] *)
Definition storage_kind (v : jsval) : option AttachmentStorageKind :=
  if eq_str v "blossom" then Some storage_blossom else if eq_str v "external" then Some storage_external else None.

Definition parseAttachment (value : jsval) : option AttachmentRef :=
  if negb (isRecord value) then None
  else
  match prop "id" value, prop "uri" value, prop "mime_type" value, storage_kind (prop "storage_kind" value) with
  | VStr id, VStr uri, VStr mime, Some kind =>
      Some (mkAttachmentRef id uri mime kind (as_string (prop "filename" value)) (as_number (prop "size_bytes" value))
              (as_string (prop "blossom_hash" value)) (as_string_array (prop "blossom_servers" value)))
  | _, _, _, _ => None
  end.

Section handlers.
Context {T : Type} (reference_bundles : list (SchemaBundle T)).

Definition DEFAULT_ORACLE_QUERY_SCHEMA : string := "https://anchr-spec.org/spec/proof/photo/v1".

Definition oracleResponseToResult (query : Query) (payload : OracleQueryResponsePayload) (reg : SchemaRegistry T)
    : SchemaRegistry T * res QueryResult :=
  match ensureReferenceSchemaBundlesRegistered reference_bundles reg with
  | (reg', Throw e) => (reg', Throw e)
  | (reg', Ok _) =>
      let data := if isRecord (or_data payload) then or_data payload else VObj [] in
      let attachments := match prop "attachments" data with VArr l => omap parseAttachment l | _ => [] end in
      let evidence := resolveSchemaEvidence (opt_default DEFAULT_ORACLE_QUERY_SCHEMA (q_schema query)) data
                        (inr (or_proof payload)) reg' in
      (reg', Ok (mkQueryResult attachments (as_string (prop "notes" data))
                   (if is_undef evidence then None else Some evidence)))
  end.
End handlers.

Record WatchedQuery := mkWatched {
  wq_query : Query;
  wq_queryEventId : string;
  wq_customerPubkey : string;
  wq_selectedProviderPubkey : option string;
  wq_offeredProviders : list string;
}.

Record DeliveryOutcome := mkDelivery { dl_passed : bool; dl_terminal : bool }.

Inductive oracle_event :=
| Selected (queryId providerPubkey : string)
| Watching (query : Query) (queryEventId : string)
| Received (queryId : string) (event : Event)
| Directed (frost : bool) (queryId : string) (query : Query) (result : QueryResult) (providerPubkey : string)
| Verified (queryId : string) (query : Query) (result : QueryResult) (detail : VerificationDetail)
| Sent (providerPubkey : string) (payload : OracleDMPayload)
| HashSent (requester queryId hash : string)
| Issued (queryId hash : string).

(** ** The service: [oracle-service.ts] *)
Section service.
Context `{N : NostrLib} `{J : JSON} `{H : Noble} `{L : CashuLib} {T E : Type}.

Record OracleConfig := mkOracleConfig {
  oc_identity : Keypair;
  oc_verify : Query -> QueryResult -> call E VerificationDetail;
  oc_frostCoordinator : bool;
  oc_frostConfig : bool;
  oc_frostNodeConfig : option FrostNodeConfig;
  oc_deliveryRetryDelaysMs : option (list number);
}.

(** The world: relays (how many accepted an event), clock, random bytes,
    processes and peers. *)
Record OracleWorld := mkWorld {
  ow_publish : Event -> E -> E * res nat;
  ow_now : E -> number;
  ow_random : E -> E * list Z;
  ow_spawn : list string -> E -> E * ProcOutcome;
  ow_fetch : HttpRequest -> E -> E * res HttpAnswer;
  ow_executor : SidecarExecutor;
}.

Record OracleState := mkOracleState {
  on_watched : list (string * WatchedQuery);
  on_issue : IssueState;  (* preimageStore and queryHashMap *)
  on_issued : list (string * string);  (* the hash responder's own map *)
  on_registry : SchemaRegistry T;
  on_log : list oracle_event;
  on_env : E;
}.

Global Instance set_watched : Setter on_watched := fun f s =>
  mkOracleState (f (on_watched s)) (on_issue s) (on_issued s) (on_registry s) (on_log s) (on_env s).
Global Instance set_issue : Setter on_issue := fun f s =>
  mkOracleState (on_watched s) (f (on_issue s)) (on_issued s) (on_registry s) (on_log s) (on_env s).
Global Instance set_issued : Setter on_issued := fun f s =>
  mkOracleState (on_watched s) (on_issue s) (f (on_issued s)) (on_registry s) (on_log s) (on_env s).
Global Instance set_registry : Setter on_registry := fun f s =>
  mkOracleState (on_watched s) (on_issue s) (on_issued s) (f (on_registry s)) (on_log s) (on_env s).
Global Instance set_log : Setter on_log := fun f s =>
  mkOracleState (on_watched s) (on_issue s) (on_issued s) (on_registry s) (f (on_log s)) (on_env s).
Global Instance set_env : Setter on_env := fun f s =>
  mkOracleState (on_watched s) (on_issue s) (on_issued s) (on_registry s) (on_log s) (f (on_env s)).

Variables (config : OracleConfig) (world : OracleWorld) (reference_bundles : list (SchemaBundle T)).

Definition log_event (ev : oracle_event) (s : OracleState) : OracleState := s <| on_log := on_log s ++ [ev] |>.
Definition put_env (e : E) (s : OracleState) : OracleState := s <| on_env := e |>.

(** [relayClient.publish(dm)], answered with the number of accepting relays. *)
Definition publish_dm (providerPubkey : string) (p : OracleDMPayload) (dm : Event) : call OracleState nat := fun s =>
  let '(e, r) := ow_publish world dm (on_env s) in
  (put_env e (log_event (Sent providerPubkey p) s), Settled r).

(** Build and publish; building throws when encryption does. *)
Definition send_dm (providerPubkey : string) (p : OracleDMPayload) : call OracleState nat := fun s =>
  match build_oracle_dm (oc_identity config) providerPubkey p (ow_now world (on_env s)) with
  | Throw e => fail e s
  | Ok dm => publish_dm providerPubkey p dm s
  end.

Definition run_verifier (queryId : string) (query : Query) (result : QueryResult) : call OracleState VerificationDetail :=
  await (zoom on_env put_env (oc_verify config query result)) (fun detail s =>
    ret detail (log_event (Verified queryId query result detail) s)).

(** Retry delivery of a built message until a relay accepts it. *)
Fixpoint deliver_with_retry (providerPubkey : string) (p : OracleDMPayload) (dm : Event) (delays : list number)
    : call OracleState bool :=
  await (publish_dm providerPubkey p dm) (fun successes =>
    if Nat.ltb 0 successes then ret true
    else match delays with
         | [] => ret false
         | _ :: delays' => await (ret tt) (fun _ => deliver_with_retry providerPubkey p dm delays')
         end).

Definition rejection_reason (detail : VerificationDetail) : string :=
  opt_default "Verification failed" (truthy (Some (js_join ", " (vd_failures detail)))).

Definition reject (queryId providerPubkey reason : string) : call OracleState DeliveryOutcome :=
  await (send_dm providerPubkey (RejectionDM queryId reason)) (fun _ => ret (mkDelivery false true)).

Definition rejectQuorumWithoutFrost (queryId providerPubkey : string) : call OracleState DeliveryOutcome :=
  reject queryId providerPubkey "Quorum verification requested but FROST is not configured on this Oracle".

(** Deliver the preimage, then forget it. *)
Definition deliver_preimage (queryId providerPubkey hash preimage : string) : call OracleState DeliveryOutcome := fun s =>
  let p := PreimageDM queryId preimage in
  match build_oracle_dm (oc_identity config) providerPubkey p (ow_now world (on_env s)) with
  | Throw e => fail e s
  | Ok dm =>
      await (deliver_with_retry providerPubkey p dm (opt_default [num 2000; num 4000] (oc_deliveryRetryDelaysMs config)))
        (fun delivered =>
          if negb delivered then ret (mkDelivery false false)
          else
            await (fun s => (s <| on_issue := mkIssueState (ps_delete (is_entries (on_issue s)) hash) (is_hashes (on_issue s)) |>,
                             Settled (Ok tt)))
              (fun _ s => ret (mkDelivery true true)
                (s <| on_issue := mkIssueState (is_entries (on_issue s)) (jm_delete queryId (is_hashes (on_issue s))) |>))) s
  end.

Definition verifyAndDeliverInternal (queryId : string) (query : Query) (result : QueryResult) (providerPubkey : string)
    : call OracleState DeliveryOutcome :=
  await (run_verifier queryId query result) (fun detail s =>
    let decide_on (preimage : option string) (hash : string) : call OracleState DeliveryOutcome :=
      match truthy preimage with
      | Some p => if vd_passed detail then deliver_preimage queryId providerPubkey hash p
                  else reject queryId providerPubkey (rejection_reason detail)
      | None => reject queryId providerPubkey (rejection_reason detail)
      end in
    match truthy (jm_get queryId (is_hashes (on_issue s))) with
    | None => reject queryId providerPubkey (rejection_reason detail) s
    | Some hash =>
        await (fun s => (s, Settled (Ok (ps_getPreimage (is_entries (on_issue s)) hash))))
          (fun preimage => decide_on preimage hash) s
    end).

(** One signature per message, or a rejection. *)
Fixpoint collect_signatures (node : FrostNodeConfig) (query : Query) (result : QueryResult)
    (requirement_json : VerificationRequirement -> jsval) (input_json : VerificationInput -> jsval)
    (messages : list string) (signatures : list jsval) : call OracleState (option (list jsval)) :=
  match messages with
  | [] => ret (Some signatures)
  | m :: messages' =>
      await (zoom on_env put_env (coordinateSigning (ow_spawn world) (ow_fetch world)
               (mkCoordConfig node (ow_executor world) (requirement_json (requestToRequirement query))
                  (input_json (resultToVerificationInput result)) VUndef (frost_escrow_token query)) m)) (fun r =>
        match r with
        | None => ret None
        | Some sig => collect_signatures node query result requirement_json input_json messages'
                        (signatures ++ [scr_signature sig])
        end)
  end.

Variables (requirement_json : VerificationRequirement -> jsval) (input_json : VerificationInput -> jsval).

Definition verifyAndDeliverWithFrostInternal (queryId : string) (query : Query) (result : QueryResult)
    (providerPubkey : string) (node : FrostNodeConfig) : call OracleState DeliveryOutcome :=
  await (run_verifier queryId query result) (fun detail =>
    if negb (vd_passed detail) then reject queryId providerPubkey (rejection_reason detail)
    else
    match match truthy (frost_escrow_token query) with
          | Some token => deriveFrostP2pkMessages token None
          | None => Ok [deriveFrostSigningMessage queryId]
          end with
    | Throw e => fail e
    | Ok messages =>
    await (collect_signatures node query result requirement_json input_json messages []) (fun sigs =>
      match sigs with
      | None => reject queryId providerPubkey "FROST threshold not met — insufficient Oracle approvals"
      | Some sigs =>
          await (send_dm providerPubkey (FrostSignatureDM queryId (js_string <$> sigs) (nc_group_pubkey node)))
            (fun successes => ret (if Nat.ltb 0 successes then mkDelivery true true else mkDelivery false false))
      end)
    end).

Definition dispatchVerifyAndDeliver (queryId : string) (query : Query) (result : QueryResult) (providerPubkey : string)
    : call OracleState DeliveryOutcome :=
  match q_quorum query with
  | Some _ =>
      match oc_frostNodeConfig config with
      | Some node => if oc_frostCoordinator config && oc_frostConfig config
                     then verifyAndDeliverWithFrostInternal queryId query result providerPubkey node
                     else rejectQuorumWithoutFrost queryId providerPubkey
      | None => rejectQuorumWithoutFrost queryId providerPubkey
      end
  | None => verifyAndDeliverInternal queryId query result providerPubkey
  end.

Definition unwatchRequest (queryId : string) (s : OracleState) : OracleState :=
  s <| on_watched := jm_delete queryId (on_watched s) |>.

(** A settled outcome ends the watch. *)
Definition end_watch (queryId : string) (outcome : DeliveryOutcome) : call OracleState bool := fun s =>
  ret (dl_passed outcome) (if dl_terminal outcome then unwatchRequest queryId s else s).

(** Kind 6300 events of a watched request.  The event's signature has been
    checked by the relay client; the result is an error that is only logged. *)
Definition handleResponseEvent (queryId : string) (event : Event) : call OracleState bool := fun s0 =>
  let s := log_event (Received queryId event) s0 in
  match jm_get queryId (on_watched s) with
  | None => ret false s
  | Some entry =>
  match truthy (wq_selectedProviderPubkey entry) with
  | None => ret false s
  | Some selected =>
  if ev_pubkey event !== selected then ret false s
  else
  match parseOracleQueryResponseEvent event (kp_secretKey (oc_identity config)) (ev_pubkey event) with
  | None => ret false s
  | Some payload =>
  if (or_query_id payload !== q_id (wq_query entry)) || (or_request_event_id payload !== wq_queryEventId entry)
  then ret false s
  else
  match oracleResponseToResult reference_bundles (wq_query entry) payload (on_registry s) with
  | (reg, Throw e) => fail e (s <| on_registry := reg |>)
  | (reg, Ok result) =>
      await (dispatchVerifyAndDeliver queryId (wq_query entry) result (ev_pubkey event))
        (end_watch queryId) (s <| on_registry := reg |>)
  end end end end.

(** Kind 7000 events: offers are recorded. *)
Definition handleFeedbackEvent (queryId : string) (event : Event) (s : OracleState) : OracleState :=
  match jm_get queryId (on_watched s) with
  | None => s
  | Some entry =>
  match parseOfferFeedbackEvent event with
  | None => s
  | Some offer =>
      let offered := if bool_decide (po_provider_pubkey offer ∈ wq_offeredProviders entry)
                     then wq_offeredProviders entry else wq_offeredProviders entry ++ [po_provider_pubkey offer] in
      s <| on_watched := jm_set queryId (mkWatched (wq_query entry) (wq_queryEventId entry) (wq_customerPubkey entry)
                                           (wq_selectedProviderPubkey entry) offered) (on_watched s) |>
  end end.

Definition watchRequest (request : Query) (queryEventId customerPubkey : string) (s : OracleState) : OracleState :=
  log_event (Watching request queryEventId)
    (s <| on_watched := jm_set (q_id request) (mkWatched request queryEventId customerPubkey None []) (on_watched s) |>).

Definition recordSelectedProvider (queryId providerPubkey : string) (s : OracleState) : OracleState :=
  match jm_get queryId (on_watched s) with
  | None => s
  | Some entry =>
      log_event (Selected queryId providerPubkey)
        (s <| on_watched := jm_set queryId (mkWatched (wq_query entry) (wq_queryEventId entry) (wq_customerPubkey entry)
                                              (Some providerPubkey) (wq_offeredProviders entry)) (on_watched s) |>)
  end.

(** The two calls by which the application itself names the recipient. *)
Definition verifyAndDeliver (queryId : string) (query : Query) (result : QueryResult) (providerPubkey : string)
    : call OracleState bool := fun s =>
  await (dispatchVerifyAndDeliver queryId query result providerPubkey) (end_watch queryId)
    (log_event (Directed false queryId query result providerPubkey) s).

Definition verifyAndDeliverWithFrost (queryId : string) (query : Query) (result : QueryResult) (providerPubkey : string)
    : call OracleState bool := fun s =>
  await match oc_frostNodeConfig config with
        | None => rejectQuorumWithoutFrost queryId providerPubkey
        | Some node => verifyAndDeliverWithFrostInternal queryId query result providerPubkey node
        end (end_watch queryId) (log_event (Directed true queryId query result providerPubkey) s).

Definition stop (s : OracleState) : OracleState := s <| on_watched := [] |>.

(** ** Hash requests: [hash-responder.ts] *)

(** [issueQueryHash(preimageStore, queryHashMap, queryId)]: the preimage is created and
    stored in the segment of the call, its hash recorded after the suspension. *)
Definition create_preimage : call OracleState PreimageEntry := fun s =>
  let '(e, raw) := ow_random world (on_env s) in
  let '(entry, st) := issue_create (on_issue s) raw (ow_now world e) in
  ret entry (put_env e (s <| on_issue := st |>)).

Definition record_hash (queryId : string) (entry : PreimageEntry) : call OracleState string := fun s =>
  let '(r, st) := issue_record (on_issue s) queryId entry in
  ret (ir_hash r) (log_event (Issued queryId (ir_hash r)) (s <| on_issue := st |>)).

Definition issueHash (queryId : string) : call OracleState string := fun s =>
  match issue_begin (on_issue s) queryId with
  | Some r => ret (ir_hash r) s
  | None => await create_preimage (record_hash queryId) s
  end.

Definition generateRequestHash (queryId : string) : call OracleState string := await (issueHash queryId) ret.

Definition serveHashRequest (event : Event) : call OracleState unit := fun s =>
  match parseHashRequestEvent event (kp_secretKey (oc_identity config)) (ev_pubkey event) with
  | None => ret tt s
  | Some queryId =>
      let respond hash : call OracleState unit := fun s =>
        match buildHashResponseEvent (oc_identity config) (ev_pubkey event) (mkHashResponse queryId hash)
                (ow_now world (on_env s)) with
        | Throw e => fail e s
        | Ok response =>
            let '(e, _) := ow_publish world response (on_env s) in
            ret tt (put_env e (log_event (HashSent (ev_pubkey event) queryId hash) s))
        end in
      match jm_get queryId (on_issued s) with
      | Some hash => respond hash s
      | None => await (issueHash queryId) (fun hash s =>
                  respond hash (s <| on_issued := jm_set queryId hash (on_issued s) |>)) s
      end
  end.
End service.
