(* ===== verification/OracleNostrSpec.v ===== *)
(** * What an Oracle releases, and to whom

    The Oracle's log is append-only; every preimage or group signature on it
    followed a passing verification and went to the Provider recorded as selected
    whose result was verified, or to the one the application named in a direct
    order, under every interleaving of relay events and calls. *)

From S2P Require Import Prelude JsNum JsMap JsString JsValue JsonCodec EventLoop QueryTypes PreimageStore Sidecar CashuTypes CashuEscrow.
From S2P Require Import Tlsn Verifier Nostr NostrEvents FrostCli FrostSigning FrostSigningSpec Samples OracleNostr.

Section spec.
Context `{N : NostrLib} `{J : JSON} `{H : Noble} `{L : CashuLib} {T E : Type}.
Variables (config : OracleConfig (E := E)) (world : OracleWorld (E := E)) (reference_bundles : list (SchemaBundle T)).
Variables (requirement_json : VerificationRequirement -> jsval) (input_json : VerificationInput -> jsval).
Notation state := (OracleState (T := T) (E := E)).
Implicit Types s : state.

(** [hash] commits to [preimage]: the digest of the bytes the preimage spells. *)
Definition commits (hash preimage : string) : Prop := exists raw, preimage = bytesToHex raw /\ hash = bytesToHex (sha256 raw).

(** Who may be sent the release material of request [q] after [query] and [result]
    were verified: the Provider recorded as selected, when the request is one that is
    watched and the result was read from an event this Provider published for it; or
    the key a direct order of the application names, with that query and result. *)
Definition relayed (l : list oracle_event) (q pk : string) (query : Query) (result : QueryResult) : Prop :=
  Selected q pk ∈ l /\ q_id query = q /\
  exists queryEventId event payload reg,
    Watching query queryEventId ∈ l /\ Received q event ∈ l /\ ev_pubkey event = pk /\
    parseOracleQueryResponseEvent event (kp_secretKey (oc_identity config)) pk = Some payload /\
    or_query_id payload = q /\ or_request_event_id payload = queryEventId /\
    (oracleResponseToResult reference_bundles query payload reg).2 = Ok result.

Definition entitled (l : list oracle_event) (q pk : string) (query : Query) (result : QueryResult) : Prop :=
  relayed l q pk query result \/ Directed false q query result pk ∈ l.
Definition frost_entitled (l : list oracle_event) (q pk : string) (query : Query) (result : QueryResult) : Prop :=
  (entitled l q pk query result /\ q_quorum query <> None) \/ Directed true q query result pk ∈ l.

(** What must have happened, by the log [l], before an event. *)
Definition event_ok (l : list oracle_event) (ev : oracle_event) : Prop :=
  match ev with
  | Sent pk (PreimageDM q preimage) =>
      (exists query result detail,
        Verified q query result detail ∈ l /\ vd_passed detail = true /\
        entitled l q pk query result /\ q_quorum query = None) /\
      exists hash, Issued q hash ∈ l /\ commits hash preimage
  | Sent pk (FrostSignatureDM q _ _) =>
      exists query result detail,
        Verified q query result detail ∈ l /\ vd_passed detail = true /\ frost_entitled l q pk query result
  | HashSent _ q hash => Issued q hash ∈ l
  | _ => True
  end.

(** Watched requests are filed under their id; the watch and a selection are on the log. *)
Definition watch_ok (l : list oracle_event) (w : list (string * WatchedQuery)) : Prop :=
  forall q entry, jm_get q w = Some entry ->
    q_id (wq_query entry) = q /\ Watching (wq_query entry) (wq_queryEventId entry) ∈ l /\
    forall pk, truthy (wq_selectedProviderPubkey entry) = Some pk -> Selected q pk ∈ l.

(** The hashes of a table were issued for their requests. *)
Definition hashes_ok (l : list oracle_event) (hashes : list (string * string)) : Prop :=
  forall q hash, jm_get q hashes = Some hash -> Issued q hash ∈ l.

(** Stored preimages are filed under their commitments. *)
Definition openings_ok (entries : jsmap string PreimageEntry) : Prop := forall hash e, jm_get hash entries = Some e -> commits hash (pe_preimage e).

Definition tables_ok (l : list oracle_event) s : Prop :=
  watch_ok l (on_watched s) /\ hashes_ok l (is_hashes (on_issue s)) /\ hashes_ok l (on_issued s) /\ openings_ok (is_entries (on_issue s)).
Definition watched_ok s : Prop := tables_ok (on_log s) s.
Definition oracle_ok s : Prop := backed event_ok (on_log s) /\ watched_ok s.

(** How any step may change the state. *)
Notation guar := (audit event_ok (S := state) on_log watched_ok).

Lemma watch_ok_mono l l' w : l `prefix_of` l' -> watch_ok l w -> watch_ok l' w.
Proof.
  intros Hp Hw q entry Hq. destruct (Hw q entry Hq) as (H1 & H2 & H3). split_and!; [done|by eapply prefix_in|]. intros pk Hpk.
  eapply prefix_in; [exact Hp|by apply H3].
Qed.

Lemma hashes_ok_mono l l' h : l `prefix_of` l' -> hashes_ok l h -> hashes_ok l' h.
Proof. intros Hp Hh q hash Hq. eapply prefix_in; [exact Hp|by apply Hh]. Qed.

Lemma tables_ok_mono l l' s : l `prefix_of` l' -> tables_ok l s -> tables_ok l' s.
Proof.
  intros Hp (H1 & H2 & H3 & H4).
  split_and!; [by eapply watch_ok_mono|by eapply hashes_ok_mono|by eapply hashes_ok_mono|done].
Qed.

(** Steps on other parts of the state, new log entries, and the tables. *)
Definition same_tables s s' : Prop :=
  on_watched s' = on_watched s /\ on_issue s' = on_issue s /\ on_issued s' = on_issued s.

Local Hint Extern 0 (same_tables _ _) => (split_and!; reflexivity) : core.

Lemma same_tables_ok l s s' : same_tables s s' -> tables_ok l s -> tables_ok l s'.
Proof. intros (H1 & H2 & H3). unfold tables_ok. by rewrite H1, H2, H3. Qed.

Lemma guar_frame s s' : on_log s' = on_log s -> same_tables s s' -> guar s s'.
Proof. intros Hl Ht. apply audit_frame; [done|]. unfold watched_ok. rewrite Hl. by apply same_tables_ok. Qed.

Lemma guar_log s s' ev : event_ok (on_log s) ev -> on_log s' = on_log s ++ [ev] -> same_tables s s' -> guar s s'.
Proof.
  intros Hev Hl Ht. eapply audit_log; [exact Hev|exact Hl|]. unfold watched_ok. rewrite Hl. intros Hok.
  eapply same_tables_ok; [exact Ht|]. eapply tables_ok_mono; [|exact Hok]. by apply prefix_app_r.
Qed.

Lemma guar_tables s s' : on_log s' = on_log s -> (tables_ok (on_log s) s -> tables_ok (on_log s) s') -> guar s s'.
Proof. intros Hl Hw. apply audit_frame; [done|]. unfold watched_ok. by rewrite Hl. Qed.

Lemma guar_watch s s' :
  on_log s' = on_log s -> on_issue s' = on_issue s -> on_issued s' = on_issued s ->
  (watch_ok (on_log s) (on_watched s) -> watch_ok (on_log s) (on_watched s')) -> guar s s'.
Proof.
  intros Hl H1 H2 Hw. apply guar_tables; [done|]. unfold tables_ok. rewrite H1, H2. intros (? & ? & ? & ?). split_and!; auto.
Qed.

(** A state reached by allowed steps is in order when the first one was. *)
Lemma guar_ok s s' : guar s s' -> oracle_ok s -> oracle_ok s'.
Proof. intros [Hg _]. exact Hg. Qed.

Notation wp c s Q := (call_wp guar c s Q).
Notation any := (fun _ _ => True).

Lemma wp_publish_dm pk p dm s : event_ok (on_log s) (Sent pk p) -> wp (publish_dm (T := T) world pk p dm) s any.
Proof.
  intros Hev. unfold call_wp, publish_dm. destruct (ow_publish world dm (on_env s)) as [e r]. simpl.
  split; [by eapply (guar_log _ _ (Sent pk p))|]. by destruct r.
Qed.

Lemma wp_send_dm pk p s : event_ok (on_log s) (Sent pk p) -> wp (send_dm (T := T) config world pk p) s any.
Proof.
  intros Hev. unfold call_wp, send_dm.
  destruct (build_oracle_dm (oc_identity config) pk p (ow_now world (on_env s))) as [dm|e].
  - by apply wp_publish_dm.
  - by apply (wp_fail guar).
Qed.

Lemma wp_reject q pk reason s : wp (reject (T := T) config world q pk reason) s any.
Proof. eapply wp_seq; [apply _|by apply wp_send_dm|]. intros. by apply wp_ret. Qed.

(** The verdict is on the log when the verifier returns. *)
Lemma wp_run_verifier q query result s :
  wp (run_verifier (T := T) config q query result) s (fun detail s' => Verified q query result detail ∈ on_log s').
Proof.
  eapply wp_seq; [apply _|by apply wp_zoom; [apply _|intros; by apply guar_frame]|].
  intros detail s1 s2 _ _ _. split; [by eapply (guar_log _ _ (Verified q query result detail))|].
  simpl. apply elem_of_app. right. by apply list_elem_of_singleton.
Qed.

(** What is allowed now stays allowed. *)
Lemma entitled_mono l l' q pk query result : l `prefix_of` l' -> entitled l q pk query result -> entitled l' q pk query result.
Proof.
  intros Hp [(H1 & H2 & i & event & payload & reg & H3 & H4 & H5)|Hd]; [left|right; by eapply prefix_in].
  split_and!; [by eapply prefix_in|done|]. exists i, event, payload, reg. split_and!; try (by eapply prefix_in); tauto.
Qed.

Lemma frost_entitled_mono l l' q pk query result :
  l `prefix_of` l' -> frost_entitled l q pk query result -> frost_entitled l' q pk query result.
Proof. intros Hp [[H1 H2]|Hd]; [left|right; by eapply prefix_in]. split; [by eapply entitled_mono|done]. Qed.

Lemma event_ok_mono l l' ev : l `prefix_of` l' -> event_ok l ev -> event_ok l' ev.
Proof.
  intros Hp. assert (Hin : forall x, x ∈ l -> x ∈ l') by (intros x; by apply prefix_in).
  destruct ev as [| | | | |pk []| |]; simpl; try done; [| |by apply Hin].
  - intros ((query & result & detail & H2 & H3 & H4 & H5) & hash & H6 & H7). split; [|by exists hash; auto].
    exists query, result, detail. split_and!; [auto|done|by eapply entitled_mono|done].
  - intros (query & result & detail & H2 & H3 & H4). exists query, result, detail. split_and!; [auto|done|by eapply frost_entitled_mono].
Qed.

Lemma wp_deliver_with_retry pk p dm delays s :
  event_ok (on_log s) (Sent pk p) -> wp (deliver_with_retry (T := T) world pk p dm delays) s any.
Proof.
  revert s. induction delays as [|d delays IH]; intros s Hev; simpl;
    (eapply wp_seq; [apply _|by apply wp_publish_dm|]; intros n s1 s2 Hs _ _; case_match; [by apply wp_ret|]).
  - by apply wp_ret.
  - eapply wp_seq; [apply _|by apply (wp_ret guar _ _ any)|]. intros _ s3 s4 Hs' _ _. apply IH.
    eapply event_ok_mono; [|exact Hev]. etrans; [apply Hs|apply Hs'].
Qed.

Lemma hashes_ok_delete l h q : hashes_ok l h -> hashes_ok l (jm_delete q h).
Proof. intros Hh q' hash. rewrite jm_get_delete. case_bool_decide; [done|]. apply Hh. Qed.

(** Forgetting a preimage, and the hash of a request. *)
Lemma guar_forget_preimage hash s :
  guar s (s <| on_issue := mkIssueState (ps_delete (is_entries (on_issue s)) hash) (is_hashes (on_issue s)) |>).
Proof.
  apply guar_tables; [done|]. intros (H1 & H2 & H3 & H4). split_and!; [done..|]. intros h e. cbn.
  unfold ps_delete. rewrite jm_get_delete. case_bool_decide; [done|]. apply H4.
Qed.

Lemma guar_forget_hash q s :
  guar s (s <| on_issue := mkIssueState (is_entries (on_issue s)) (jm_delete q (is_hashes (on_issue s))) |>).
Proof. apply guar_tables; [done|]. intros (H1 & H2 & H3 & H4). split_and!; [done|by apply hashes_ok_delete|done|done]. Qed.

Lemma wp_deliver_preimage q pk hash preimage s :
  event_ok (on_log s) (Sent pk (PreimageDM q preimage)) ->
  wp (deliver_preimage (T := T) config world q pk hash preimage) s any.
Proof.
  intros Hev. unfold call_wp, deliver_preimage.
  destruct (build_oracle_dm (oc_identity config) pk (PreimageDM q preimage) (ow_now world (on_env s))) as [dm|e];
    [|by apply (wp_fail guar)].
  eapply wp_seq; [apply _|by apply wp_deliver_with_retry|].
  intros delivered s1 s2 _ _ _. destruct delivered; simpl; [|by apply wp_ret; [apply _|]].
  eapply wp_seq; [apply _|apply (wp_segment guar _ _ _ any); [by apply guar_forget_preimage|done]|].
  intros _ s3 s4 _ _ _. split; [by apply guar_forget_hash|done].
Qed.

Lemma wp_verifyAndDeliverInternal q query result pk s :
  oracle_ok s -> entitled (on_log s) q pk query result -> q_quorum query = None ->
  wp (verifyAndDeliverInternal (T := T) config world q query result pk) s any.
Proof.
  intros Hok Hent Hq. eapply wp_seq; [apply _|apply wp_run_verifier|].
  intros detail s1 s2 Hs Hv Hs12. pose proof (audit_in _ _ _ _ _ _ Hs12 Hv) as Hv2.
  pose proof (entitled_mono _ _ _ _ _ _ (proj2 Hs) Hent) as Hent2.
  pose proof (guar_ok _ _ Hs Hok) as Hok2.
  unfold call_wp. destruct (truthy (jm_get q (is_hashes (on_issue s2)))) as [hash|] eqn:Eh; [|apply wp_reject].
  apply truthy_Some in Eh as [Eh _]. pose proof (proj1 (proj2 (proj2 Hok2)) _ _ Eh) as Hissued.
  eapply wp_seq; [apply _|apply (wp_segment guar (fun s => s) _ _ (fun p _ => forall x, p = Some x -> commits hash x)); [done|]|].
  { intros preimage [= <-] x Hx. unfold ps_getPreimage in Hx. destruct (jm_get hash (is_entries (on_issue s2))) as [e|] eqn:Ee; [|done].
    injection Hx as <-. by apply (proj2 (proj2 (proj2 (proj2 Hok2)))). }
  intros preimage s3 s4 Hs24 Hcommit _. destruct (truthy preimage) as [p|] eqn:Ep; [|apply wp_reject].
  apply truthy_Some in Ep as [Ep _]. destruct (vd_passed detail) eqn:Hp; [|apply wp_reject]. apply wp_deliver_preimage.
  split; [|exists hash; split; [by eapply audit_in|by apply Hcommit]].
  exists query, result, detail. split_and!; [by eapply audit_in|done|by eapply entitled_mono; [apply Hs24|]|done].
Qed.

Lemma wp_collect_signatures node query result messages sigs s :
  wp (collect_signatures (T := T) world node query result requirement_json input_json messages sigs) s any.
Proof.
  revert sigs s. induction messages as [|m messages IH]; intros sigs s; simpl; [by apply wp_ret|].
  eapply wp_seq; [apply _|by apply wp_zoom; [apply _|intros; by apply guar_frame]|].
  intros r s1 s2 _ _ _. destruct r; [apply IH|by apply wp_ret].
Qed.

Lemma wp_verifyAndDeliverWithFrostInternal q query result pk node s :
  frost_entitled (on_log s) q pk query result ->
  wp (verifyAndDeliverWithFrostInternal (T := T) config world requirement_json input_json q query result pk node) s any.
Proof.
  intros Hent. eapply wp_seq; [apply _|apply wp_run_verifier|].
  intros detail s1 s2 Hs Hv Hs12. pose proof (audit_in _ _ _ _ _ _ Hs12 Hv) as Hv2.
  pose proof (frost_entitled_mono _ _ _ _ _ _ (proj2 Hs) Hent) as Hent2.
  destruct (vd_passed detail) eqn:Hp; simpl; [|apply wp_reject].
  case_match; [|by apply (wp_fail guar)].
  eapply wp_seq; [apply _|apply wp_collect_signatures|]. intros sigs s3 s4 Hs24 _ _.
  destruct sigs as [sigs|]; [|apply wp_reject].
  eapply wp_seq; [apply _|apply wp_send_dm|intros; by apply wp_ret].
  exists query, result, detail. split_and!; [by eapply audit_in|done|by eapply frost_entitled_mono; [apply Hs24|]].
Qed.

Lemma wp_dispatch q query result pk s :
  oracle_ok s -> entitled (on_log s) q pk query result ->
  wp (dispatchVerifyAndDeliver (T := T) config world requirement_json input_json q query result pk) s any.
Proof.
  intros Hok Hent. unfold dispatchVerifyAndDeliver. destruct (q_quorum query) eqn:Hq.
  - destruct (oc_frostNodeConfig config); [|apply wp_reject]. case_match; [|apply wp_reject].
    apply wp_verifyAndDeliverWithFrostInternal. left. split; [done|congruence].
  - by apply wp_verifyAndDeliverInternal.
Qed.

Lemma watch_ok_set l w q entry :
  q_id (wq_query entry) = q -> Watching (wq_query entry) (wq_queryEventId entry) ∈ l ->
  (forall pk, truthy (wq_selectedProviderPubkey entry) = Some pk -> Selected q pk ∈ l) -> watch_ok l w -> watch_ok l (jm_set q entry w).
Proof.
  intros H1 H2 H3 Hw q' entry'. rewrite jm_get_set. destruct (bool_decide_reflect (q' = q)) as [->|]; [|apply Hw].
  intros [= <-]. done.
Qed.

Lemma watch_ok_delete l w q : watch_ok l w -> watch_ok l (jm_delete q w).
Proof. intros Hw q' entry. rewrite jm_get_delete. case_bool_decide; [done|]. apply Hw. Qed.

Lemma wp_end_watch q o s : wp (end_watch (T := T) q o) s any.
Proof.
  split; [|done]. simpl. destruct (dl_terminal o); [|done]. apply guar_watch; [done..|]. apply watch_ok_delete.
Qed.

Lemma wp_handleResponseEvent q event s :
  oracle_ok s -> wp (handleResponseEvent config world reference_bundles requirement_json input_json q event) s any.
Proof.
  intros Hok0. assert (Hlog : guar s (log_event (Received q event) s)) by (by eapply (guar_log _ _ (Received q event))).
  pose proof (guar_ok _ _ Hlog Hok0) as Hok. unfold call_wp, handleResponseEvent. cbv zeta. set (s1 := log_event (Received q event) s) in *.
  assert (Hrec : Received q event ∈ on_log s1) by (apply elem_of_app; right; by apply list_elem_of_singleton). clearbody s1. clear Hok0.
  pose proof Hok as [_ [Hw _]]. destruct (jm_get q (on_watched s1)) as [entry|] eqn:Hq; [|done].
  destruct (Hw _ _ Hq) as (Hid & Hwatch & Hsel).
  destruct (truthy (wq_selectedProviderPubkey entry)) as [selected|]; [|done].
  destruct (bool_decide_reflect (ev_pubkey event = selected)) as [Hpk|]; simpl; [|done].
  destruct (parseOracleQueryResponseEvent event _ _) as [payload|] eqn:Hparse; [|done].
  destruct (bool_decide_reflect (or_query_id payload = q_id (wq_query entry))) as [Hqid|]; [|done].
  destruct (bool_decide_reflect (or_request_event_id payload = wq_queryEventId entry)) as [Hreq|]; [|done]. cbn [negb orb].
  destruct (oracleResponseToResult reference_bundles (wq_query entry) payload (on_registry s1)) as [reg [result|e]] eqn:Hres;
    [|split; [etrans; [exact Hlog|by apply guar_frame]|done]].
  assert (Hf : guar s1 (s1 <| on_registry := reg |>)) by (by apply guar_frame).
  assert (Hent : entitled (on_log s1) q (ev_pubkey event) (wq_query entry) result).
  { left. split_and!; [rewrite Hpk; by apply Hsel|done|]. exists (wq_queryEventId entry), event, payload, (on_registry s1).
    split_and!; try done; [congruence|by rewrite Hres]. }
  assert (Hwp : wp (await (dispatchVerifyAndDeliver config world requirement_json input_json q (wq_query entry) result
                     (ev_pubkey event)) (end_watch q)) (s1 <| on_registry := reg |>) any).
  { eapply wp_seq; [apply _|apply wp_dispatch; [by eapply guar_ok|exact Hent]|]. intros. apply wp_end_watch. }
  destruct Hwp as [H1 H2]. split; [by etrans; [exact Hlog|etrans]|exact H2].
Qed.

Lemma wp_directed frost q query result pk (c : call state DeliveryOutcome) s :
  oracle_ok s ->
  (forall s1, oracle_ok s1 -> Directed frost q query result pk ∈ on_log s1 -> wp c s1 any) ->
  wp (fun s => await c (end_watch q) (log_event (Directed frost q query result pk) s)) s any.
Proof.
  intros Hok Hc. unfold call_wp.
  assert (Hlog : guar s (log_event (Directed frost q query result pk) s)) by (by eapply (guar_log _ _ (Directed frost q query result pk))).
  assert (Hwp : wp (await c (end_watch q)) (log_event (Directed frost q query result pk) s) any).
  { eapply wp_seq; [apply _|apply Hc; [by eapply guar_ok|]|intros; apply wp_end_watch].
    apply elem_of_app. right. by apply list_elem_of_singleton. }
  destruct Hwp as [H1 H2]. split; [by etrans|exact H2].
Qed.

Lemma wp_verifyAndDeliver q query result pk s :
  oracle_ok s -> wp (verifyAndDeliver config world requirement_json input_json q query result pk) s any.
Proof. intros Hok. apply wp_directed; [done|]. intros s1 Hok1 Hd. apply wp_dispatch; [done|by right]. Qed.

Lemma wp_verifyAndDeliverWithFrost q query result pk s :
  oracle_ok s -> wp (verifyAndDeliverWithFrost config world requirement_json input_json q query result pk) s any.
Proof.
  intros Hok. apply wp_directed; [done|]. intros s1 Hok1 Hd. destruct (oc_frostNodeConfig config); [|apply wp_reject].
  apply wp_verifyAndDeliverWithFrostInternal. by right.
Qed.

Lemma guar_handleFeedbackEvent q event s : guar s (handleFeedbackEvent q event s).
Proof.
  unfold handleFeedbackEvent. destruct (jm_get q (on_watched s)) as [entry|] eqn:Hq; [|done]. case_match; [|done].
  apply guar_watch; [done..|]. intros Hw. destruct (Hw _ _ Hq) as (? & ? & ?). by apply watch_ok_set.
Qed.

Lemma guar_watchRequest request e c s : guar s (watchRequest request e c s).
Proof.
  etrans; [by apply (guar_log s (log_event (Watching request e) s) (Watching request e))|].
  apply guar_watch; [done..|]. intros Hw. apply watch_ok_set; [done| |done|done].
  simpl. apply elem_of_app. right. by apply list_elem_of_singleton.
Qed.

Lemma guar_recordSelectedProvider q pk s : guar s (recordSelectedProvider q pk s).
Proof.
  unfold recordSelectedProvider. destruct (jm_get q (on_watched s)) as [entry|] eqn:Hq; [|done].
  etrans; [by apply (guar_log s (log_event (Selected q pk) s) (Selected q pk))|].
  apply guar_watch; [done..|]. intros Hw. destruct (Hw _ _ Hq) as (Hid & Hwatch & _). apply watch_ok_set; [done|done| |done].
  intros pk' [[= ->] _]%truthy_Some. simpl. apply elem_of_app. right. by apply list_elem_of_singleton.
Qed.

Lemma guar_stop s : guar s (stop s).
Proof. apply guar_watch; [done..|]. by intros _ q entry. Qed.

Lemma hashes_ok_set l h q hash : Issued q hash ∈ l -> hashes_ok l h -> hashes_ok l (jm_set q hash h).
Proof. intros Hi Hh q' hash'. rewrite jm_get_set. case_bool_decide; [|apply Hh]. intros [= <-]. by subst. Qed.

(** A stored preimage opens the hash it is filed under; a recorded hash is on the log. *)
Lemma guar_create raw now e s : guar s (put_env e (s <| on_issue := (issue_create (on_issue s) raw now).2 |>)).
Proof.
  apply guar_tables; [done|]. intros (H1 & H2 & H3 & H4). split_and!; [done..|].
  intros hash entry. cbn. rewrite jm_get_set. case_bool_decide; [|apply H4]. intros [= <-]. subst hash. by exists raw.
Qed.

Lemma guar_record q entry s :
  guar s (log_event (Issued q (pe_hash entry)) (s <| on_issue := (issue_record (on_issue s) q entry).2 |>)).
Proof.
  apply (audit_log _ _ _ _ _ (Issued q (pe_hash entry))); [done|done|]. unfold watched_ok. intros Hok.
  apply (tables_ok_mono _ (on_log s ++ [Issued q (pe_hash entry)])) in Hok as (H1 & H2 & H3 & H4); [|by apply prefix_app_r].
  split_and!; [done| |done|done].
  apply hashes_ok_set; [|exact H2]. apply elem_of_app. right. by apply list_elem_of_singleton.
Qed.

Lemma wp_issueHash q s : oracle_ok s -> wp (issueHash (T := T) world q) s (fun hash s' => Issued q hash ∈ on_log s').
Proof.
  intros Hok. unfold call_wp, issueHash, issue_begin. destruct (jm_get q (is_hashes (on_issue s))) as [existing|] eqn:Eq.
  - split; [done|]. cbn. by apply (proj1 (proj2 (proj2 Hok))).
  - eapply (wp_seq _ (create_preimage world) _ _ any).
    + unfold call_wp, create_preimage. destruct (ow_random world (on_env s)) as [e raw]. split; [apply guar_create|done].
    + intros entry s1 s2 _ _ _. split; [apply guar_record|]. cbn. apply elem_of_app. right. by apply list_elem_of_singleton.
Qed.

Lemma wp_serveHashRequest event s : oracle_ok s -> wp (serveHashRequest (T := T) config world event) s any.
Proof.
  intros Hok. unfold call_wp, serveHashRequest. destruct (parseHashRequestEvent event _ _) as [q|]; [|done].
  assert (Hrespond : forall hash s', Issued q hash ∈ on_log s' -> wp (fun s => match buildHashResponseEvent (oc_identity config)
      (ev_pubkey event) (mkHashResponse q hash) (ow_now world (on_env s)) with
    | Throw e => fail e s
    | Ok response => let '(e, _) := ow_publish world response (on_env s) in
        ret tt (put_env e (log_event (HashSent (ev_pubkey event) q hash) s))
    end) s' any).
  { intros hash s2 Hi. unfold call_wp. destruct (buildHashResponseEvent _ _ _ _) as [response|e]; [|done].
    destruct (ow_publish world response (on_env s2)) as [e r].
    split; [by eapply (guar_log _ _ (HashSent (ev_pubkey event) q hash))|done]. }
  destruct (jm_get q (on_issued s)) as [hash|] eqn:Eq; [by apply Hrespond, (proj1 (proj2 (proj2 (proj2 Hok))))|].
  eapply wp_seq; [apply _|by apply wp_issueHash|]. intros hash s1 s2 _ Hi Hs12. pose proof (audit_in _ _ _ _ _ _ Hs12 Hi) as Hi2.
  assert (Hf : guar s2 (s2 <| on_issued := jm_set q hash (on_issued s2) |>)).
  { apply guar_tables; [done|]. intros (H1 & H2 & H3 & H4). split_and!; [done|done|by apply hashes_ok_set|done]. }
  assert (Hi3 : Issued q hash ∈ on_log (s2 <| on_issued := jm_set q hash (on_issued s2) |>)) by exact Hi2.
  destruct (Hrespond hash _ Hi3) as [H1 H2].
  split; [etrans; [exact Hf|exact H1]|exact H2].
Qed.

(** ** Everything a relay or the application can trigger *)
Inductive oracle_request :=
| OnResponse (queryId : string) (event : Event)
| OnFeedback (queryId : string) (event : Event)
| OnHashRequest (event : Event)
| GenerateHash (queryId : string)
| Watch (request : Query) (queryEventId customerPubkey : string)
| Select (queryId providerPubkey : string)
| Deliver (queryId : string) (query : Query) (result : QueryResult) (providerPubkey : string)
| DeliverFrost (queryId : string) (query : Query) (result : QueryResult) (providerPubkey : string)
| Stop.

Definition at_once (f : state -> state) : call state unit := fun s => (f s, Settled (Ok tt)).
Definition void {A} (c : call state A) : call state unit := await c (fun _ => ret tt).

Definition serve (r : oracle_request) : call state unit :=
  match r with
  | OnResponse q event => void (handleResponseEvent config world reference_bundles requirement_json input_json q event)
  | OnFeedback q event => at_once (handleFeedbackEvent q event)
  | OnHashRequest event => serveHashRequest config world event
  | GenerateHash q => void (generateRequestHash world q)
  | Watch request e c => at_once (watchRequest request e c)
  | Select q pk => at_once (recordSelectedProvider q pk)
  | Deliver q query result pk => void (verifyAndDeliver config world requirement_json input_json q query result pk)
  | DeliverFrost q query result pk => void (verifyAndDeliverWithFrost config world requirement_json input_json q query result pk)
  | Stop => at_once stop
  end.

Definition oracle_call (c : call state unit) : Prop := exists r, c = serve r.

Lemma wp_void {A} (c : call state A) s : wp c s any -> wp (void c) s any.
Proof. intros Hc. eapply wp_seq; [apply _|exact Hc|]. intros. by apply wp_ret. Qed.

Lemma wp_serve r s : oracle_ok s -> wp (serve r) s any.
Proof.
  intros Hok. destruct r; simpl.
  - by apply wp_void, wp_handleResponseEvent.
  - split; [apply guar_handleFeedbackEvent|done].
  - by apply wp_serveHashRequest.
  - apply wp_void. eapply wp_seq; [apply _|by apply wp_issueHash|]. intros. by apply wp_ret.
  - split; [apply guar_watchRequest|done].
  - split; [apply guar_recordSelectedProvider|done].
  - by apply wp_void, wp_verifyAndDeliver.
  - by apply wp_void, wp_verifyAndDeliverWithFrost.
  - split; [apply guar_stop|done].
Qed.

Definition oracle_start (reg : SchemaRegistry T) (e : E) : state := mkOracleState [] (mkIssueState [] []) [] reg [] e.

(** The outside: time passes and relays change, nothing else. *)
Definition oracle_env s s' : Prop := exists e, s' = put_env e s.

(** * Properties *)

End spec.

(** ** Release messages *)
Section messages.
Context `{N : NostrLib} `{J : JSON} `{!NostrLaws N} `{!JSONLaws J}.

Lemma as_string_array_norm sigs : as_string_array (json_norm (VArr (VStr <$> sigs))) = Some sigs.
Proof.
  cbn [json_norm as_string_array]. induction sigs as [|x sigs IH]; [done|].
  rewrite fmap_cons. cbn [map json_norm all_strings]. by rewrite IH.
Qed.

(** A Provider reads back every release message addressed to it. *)
Theorem release_message_roundtrip kp sk p now event :
  json_ok (VObj (dm_fields p)) -> build_oracle_dm kp (getPublicKey sk) p now = Ok event ->
  parseOracleDM (ev_content event) sk (getPublicKey (kp_secretKey kp)) = Ok (Some p).
Proof.
  intros Hok Hb. apply bind_Ok in Hb as (c & Hc & Hev). injection Hev as <-. rewrite ev_content_signed.
  apply bind_Ok in Hc as (key & Hk & Hc). rewrite (conversation_symmetric _ sk) in Hk.
  unfold parseOracleDM. rewrite Hk. simpl. rewrite (decrypt_encrypt _ _ _ Hc), (parse_stringify _ Hok) by done.
  unfold isOracleDMPayload. rewrite isRecord_json_norm by done. cbn [negb].
  destruct p; unfold dm_fields; read_field; rewrite ?as_string_array_norm; done.
Qed.

(** The bundled Provider waits for its preimage with the protocol's
    [parsePreimageDeliveryEvent]; the message the Oracle service sends carries
    neither the version nor the request event id that parser demands, so it is
    never accepted. *)
Theorem service_preimage_not_delivered kp sk q preimage now event :
  json_ok (VObj (dm_fields (PreimageDM q preimage))) ->
  buildPreimageDM kp (getPublicKey sk) q preimage now = Ok event ->
  parsePreimageDeliveryEvent event sk (getPublicKey (kp_secretKey kp)) = None.
Proof.
  intros Hok Hb. unfold parsePreimageDeliveryEvent. rewrite (dm_roundtrip kp sk _ now event Hok Hb).
  unfold hasVersion, dm_fields. by read_field.
Qed.
End messages.

(** * Witnesses *)
Definition service_verdict : VerificationDetail := mkVerificationDetail true ["ok"] [] None None.
Definition service_config : OracleConfig (E := unit) :=
  mkOracleConfig (mkKeypair [9%Z] "pk9") (fun _ _ => ret service_verdict) false false None None.
Definition service_world : OracleWorld (E := unit) :=
  mkWorld (fun _ e => (e, Ok 1)) (fun _ => num 1000) (fun e => (e, [7; 7]%Z)) (fun _ e => (e, ProcExited 1 "" ""))
    (fun _ e => (e, Throw (mkExn "Error" "offline"))) (mkExecutor (fun _ => false) (fun n => Some n) (fun _ => [])).
Definition service_query : Query := sample_query "q1" processing escrow_swapped None.
Definition service_result : Event := event_of (buildQueryResponseEvent (N := toy_nostr) (J := codec)
  (mkKeypair [2%Z] "pk2") "req1" "pk3" "anchr.http" (VObj [("ok", VBool true)]) (inl [1; 2; 3]%Z) (Some "pk9") (Some "q1") (num 1000)).
Notation service_serve r := (serve (N := toy_nostr) (J := codec) (H := toy_noble) (L := frost_lib) service_config
  service_world ([] : list (SchemaBundle unit)) (fun _ => VNull) (fun _ => VNull) r).
Definition service_schedule : list oracle_request :=
  [GenerateHash "q1"; Watch service_query "req1" "pk3"; Select "q1" "pk2"; OnResponse "q1" service_result].
Definition service_calls : list (call (OracleState (T := unit) (E := unit)) unit) :=
  (fun r => service_serve r) <$> service_schedule.
Definition service_start : OracleState (T := unit) (E := unit) := oracle_start (mkRegistry [] false) tt.
Definition oracle_run : OracleState (T := unit) (E := unit) :=
  foldl (fun s c => (run_call c s).1) service_start service_calls.


Definition release_event (p : OracleDMPayload) : Event :=
  event_of (build_oracle_dm (N := toy_nostr) (J := codec) (mkKeypair [9%Z] "pk9") "pk2" p (num 1000)).

Lemma release_message_roundtrip_witness :
  parseOracleDM (N := toy_nostr) (J := codec) (ev_content (release_event (FrostSignatureDM "q1" ["a"; "b"] "g"))) [2%Z] "pk9" =
  Ok (Some (FrostSignatureDM "q1" ["a"; "b"] "g")).
Proof.
  apply (release_message_roundtrip (N := toy_nostr) (J := codec)
    (NostrLaws0 := toy_nostr_laws) (JSONLaws0 := codec_laws) (mkKeypair [9%Z] "pk9") [2%Z] _ (num 1000));
    [vm_compute; reflexivity|vm_compute; reflexivity].
Defined.

Lemma service_preimage_not_delivered_witness :
  parsePreimageDeliveryEvent (N := toy_nostr) (J := codec) (release_event (PreimageDM "q1" "0707")) [2%Z] "pk9" = None.
Proof.
  apply (service_preimage_not_delivered (N := toy_nostr) (J := codec)
    (NostrLaws0 := toy_nostr_laws) (JSONLaws0 := codec_laws) (mkKeypair [9%Z] "pk9") [2%Z] "q1" "0707" (num 1000));
    [vm_compute; reflexivity|vm_compute; reflexivity].
Defined.
