(* ===== verification/RelayClient.v ===== *)
(** * Relays: publishing, waiting, and the oracle's hash bootstrap

    [packages/sdk/src/adapters/types.ts] (the transport interface),
    [relay-wait.ts] (the one subscribe-with-deadline helper) and [oracle.ts]
    (the client that asks an Oracle for the hash of a query).  The transport is
    an argument: [rc_events sub timeout] are the events a subscription delivered
    from its opening until its deadline. *)

From S2P Require Import Prelude JsNum JsMap JsString JsValue EventLoop JsonCodec Nostr NostrEvents.

Record PublishResult := mkPublishResult {
  pr_successes : list string;
  pr_failures : list (string * string);  (* relay and reason *)
}.

Record Filter := mkFilter {
  fl_kinds : list Z;
  fl_authors : option (list string);
  fl_tags : list (string * list string);
}.

(** [#e], [#p], ... : some tag of that letter carries one of the values. *)
Definition tag_matches (tags : list (list string)) (f : string * list string) : bool :=
  existsb (fun t => bool_decide (t !! 0 = Some f.1) &&
                    match t !! 1 with Some v => bool_decide (v ∈ f.2) | None => false end) tags.

Definition filter_matches (f : Filter) (event : Event) : bool :=
  bool_decide (ev_kind event ∈ fl_kinds f) &&
  match fl_authors f with Some l => bool_decide (ev_pubkey event ∈ l) | None => true end &&
  forallb (tag_matches (ev_tags event)) (fl_tags f).

(** ** The wait of [waitForFirstEvent]: promise, subscription and timer *)
Section wait.
Context {T : Type} (match_event : Event -> option T).

Record Wait := mkWait {
  wt_settled : option (option T);  (* the value the promise resolved with *)
  wt_open : bool;
  wt_timer : bool;
}.

Inductive wait_signal :=
| Delivered (event : Event)
| Deadline
| Cancelled.

Definition wait_start : Wait := mkWait None true true.

(** [finish]: close, clear the timer, and resolve unless already resolved. *)
Definition finish (value : option T) (w : Wait) : Wait :=
  mkWait (match wt_settled w with None => Some value | Some v => Some v end) false false.

Definition wait_step (w : Wait) (sig : wait_signal) : Wait :=
  match sig with
  | Delivered event => match match_event event with None => w | Some v => finish (Some v) w end
  | Deadline | Cancelled => finish None w
  end.

Definition wait_run (sigs : list wait_signal) : Wait := fold_left wait_step sigs wait_start.

(** What a signal resolves the promise with, if it does. *)
Definition signal_value (sig : wait_signal) : option (option T) :=
  match sig with
  | Delivered event => Some <$> match_event event
  | Deadline | Cancelled => Some None
  end.

Fixpoint first_match (events : list Event) : option T :=
  match events with
  | [] => None
  | e :: events' => match match_event e with Some v => Some v | None => first_match events' end
  end.

Lemma wait_settled_stays sigs w v : wt_settled w = Some v -> wt_settled (fold_left wait_step sigs w) = Some v.
Proof.
  revert w. induction sigs as [|sig sigs IH]; intros w Hw; simpl; [done|]. apply IH.
  destruct sig as [ev| |]; simpl; try case_match; simpl; by rewrite ?Hw.
Qed.

Lemma wait_closed sigs w :
  (wt_settled w = None <-> wt_open w = true) -> wt_open w = wt_timer w ->
  let w' := fold_left wait_step sigs w in (wt_settled w' = None <-> wt_open w' = true) /\ wt_open w' = wt_timer w'.
Proof.
  revert w. induction sigs as [|sig sigs IH]; intros w H1 H2; simpl; [done|].
  apply IH; destruct sig as [ev| |]; simpl; try case_match; simpl; try done; by destruct (wt_settled w).
Qed.

Lemma wait_run_events events : wt_settled (wait_run ((Delivered <$> events) ++ [Deadline])) = Some (first_match events).
Proof.
  unfold wait_run, wait_start. assert (Hgen : forall w, wt_settled w = None ->
    wt_settled (fold_left wait_step ((Delivered <$> events) ++ [Deadline]) w) = Some (first_match events)); [|by apply Hgen].
  induction events as [|e events IH]; intros w Hw; simpl; [by rewrite Hw|].
  destruct (match_event e) as [v|]; [|by apply IH]. apply wait_settled_stays. simpl. by rewrite Hw.
Qed.

Lemma first_match_Some events v : first_match events = Some v -> exists e, e ∈ events /\ match_event e = Some v.
Proof.
  induction events as [|e events IH]; simpl; [done|]. destruct (match_event e) eqn:E.
  - intros [= <-]. exists e. split; [left|done].
  - intros (e' & He & Hm)%IH. exists e'. split; [by right|done].
Qed.
End wait.

(** ** The transport *)

(** An open subscription: which one it is and what it asked for. *)
Record Subscription := mkSub { sub_ref : nat; sub_filter : Filter }.

Section relay.
Context {E : Type}.

Record RelayClient := mkRelay {
  rc_publish : Event -> E -> E * res PublishResult;
  rc_subscribe : Filter -> E -> E * nat;
  rc_close : Subscription -> E -> E;
  rc_events : Subscription -> number -> E -> E * list Event;
}.

(** A subscription delivers events that match its filter: what [SimplePool]
    documents for events it hands to [onevent]. *)
Definition relay_filters (rc : RelayClient) : Prop :=
  forall sub timeout e, Forall (fun ev => filter_matches (sub_filter sub) ev = true) (rc_events rc sub timeout e).2.

Definition subscribe (rc : RelayClient) (f : Filter) (e : E) : E * Subscription :=
  let '(e1, n) := rc_subscribe rc f e in (e1, mkSub n f).

(** [wait.result] of an open wait. *)
Definition wait_result {T} (rc : RelayClient) (sub : Subscription) (match_event : Event -> option T) (timeoutMs : number)
    : call E (option T) := fun e =>
  let '(e1, events) := rc_events rc sub timeoutMs e in
  let w := wait_run match_event ((Delivered <$> events) ++ [Deadline]) in
  (rc_close rc sub e1, Settled (Ok (opt_default None (wt_settled w)))).

Definition waitForFirstEvent {T} (rc : RelayClient) (filter : Filter) (match_event : Event -> option T)
    (timeoutMs : number) : call E (option T) := fun e =>
  let '(e1, sub) := subscribe rc filter e in wait_result rc sub match_event timeoutMs e1.

(** The match with the event it was read from: what a log keeps of a wait. *)
Definition keeping {T} (match_event : Event -> option T) (event : Event) : option (Event * T) := pair event <$> match_event event.

(** An event that a subscription with this filter and deadline delivered. *)
Definition delivered (rc : RelayClient) (f : Filter) (timeoutMs : number) (event : Event) : Prop :=
  exists n e, event ∈ (rc_events rc (mkSub n f) timeoutMs e).2.

Definition publish (rc : RelayClient) (event : Event) : call E PublishResult := fun e =>
  let '(e1, r) := rc_publish rc event e in (e1, Settled r).

(** ** The hash bootstrap: [oracle.ts] *)
Section oracle_client.
Context `{N : NostrLib} `{J : JSON}.

(** The ephemeral identity of a request, and the clock. *)
Variables (fresh_identity : E -> E * Keypair) (date_now : E -> number).

Definition match_hash (sk : SecretKey) (oraclePubkey queryId : string) (event : Event) : option string :=
  match parseHashResponseEvent event sk oraclePubkey with
  | Some payload => if hr_query_id payload !== queryId then None else Some (hr_hash payload)
  | None => None
  end.

Definition no_relay_error (r : PublishResult) : exn :=
  mkExn "OracleResponseError" ("no relay accepted the hash bootstrap DM: " +:+ js_join ", " (snd <$> pr_failures r)).

Definition timeout_error (timeoutMs : number) : exn :=
  mkExn "OracleTimeoutError" ("Oracle hash bootstrap timed out after " +:+ number_to_string timeoutMs +:+ "ms").

(** [createNostrOracleClient(options).requestHash(queryId)]. *)
Definition requestHash (rc : RelayClient) (oraclePubkey : string) (timeoutMs : number) (queryId : string)
    : call E string := fun e =>
  let '(e1, identity) := fresh_identity e in
  let '(e2, sub) := subscribe rc (mkFilter [KIND_DIRECT_MESSAGE] (Some [oraclePubkey])
                                    [("p", [kp_publicKey identity])]) e1 in
  match buildHashRequestEvent identity oraclePubkey queryId (date_now e2) with
  | Throw err => fail err e2
  | Ok request =>
      await (publish rc request) (fun published e3 =>
        if bool_decide (pr_successes published = []) then fail (no_relay_error published) (rc_close rc sub e3)
        else await (wait_result rc sub (match_hash (kp_secretKey identity) oraclePubkey queryId) timeoutMs)
               (fun hash => match hash with None => fail (timeout_error timeoutMs) | Some h => ret h end) e3) e2
  end.

Definition createNostrOracleClient (rc : RelayClient) (oraclePubkey : string) (timeoutMs : option number)
    : res (string -> call E string) :=
  if str_truthy oraclePubkey then Ok (requestHash rc oraclePubkey (opt_default (num 10000) timeoutMs))
  else Throw (mkExn "OracleConfigError" "oraclePubkey must be a non-empty string").
End oracle_client.
End relay.
Arguments RelayClient E : clear implicits.

(** ** Properties *)
Section properties.
Context {E : Type}.

(** What a wait can answer: the match of an event its subscription delivered. *)
Lemma wait_result_outcome {T} R (rc : RelayClient E) sub (m : Event -> option T) timeout e r :
  outcome R (wait_result rc sub m timeout) e (Ok r) ->
  r = first_match m (rc_events rc sub timeout e).2.
Proof.
  unfold outcome, wait_result. destruct (rc_events rc sub timeout e) as [e1 events]. cbn [snd].
  rewrite wait_run_events. intros Hr%resolves_Settled. by simplify_eq/=.
Qed.

(** A wait resolves once: with the first accepted event, or with null when the
    deadline passes or it is cancelled before, and exactly then the
    subscription is closed and the timer cleared. *)
Theorem wait_resolves_first {T} (m : Event -> option T) sigs :
  wt_settled (wait_run m sigs) = list_find (fun sig => is_Some (signal_value m sig)) sigs ≫= (fun p => signal_value m p.2) /\
  wt_open (wait_run m sigs) = bool_decide (wt_settled (wait_run m sigs) = None) /\
  wt_timer (wait_run m sigs) = wt_open (wait_run m sigs).
Proof.
  destruct (wait_closed m sigs wait_start) as [H1 H2]; [done|done|]. fold (wait_run m sigs) in H1, H2.
  split_and!; [| |done]; cycle 1.
  { apply eq_bool_prop_intro. rewrite !Is_true_true, bool_decide_eq_true. tauto. }
  clear H1 H2. unfold wait_run. assert (Hgen : forall w, wt_settled w = None -> wt_settled (fold_left (wait_step m) sigs w) =
    list_find (fun sig => is_Some (signal_value m sig)) sigs ≫= (fun p => signal_value m p.2)); [|by apply Hgen].
  induction sigs as [|sig sigs IH]; intros w Hw; simpl; [done|].
  destruct (signal_value m sig) as [v|] eqn:Ev.
  - rewrite decide_True by done. simpl. rewrite Ev. apply wait_settled_stays.
    destruct sig as [ev| |]; simpl in *; [destruct (m ev); simplify_eq/=|..]; simplify_eq/=; by rewrite Hw.
  - rewrite decide_False by (by intros []). rewrite IH.
    + destruct (list_find _ sigs) as [[i x]|]; done.
    + destruct sig as [ev| |]; simpl in *; [destruct (m ev); simplify_eq/=|..]; done.
Qed.

(** Whatever a wait answers matches the filter of its subscription. *)
Lemma wait_result_matches {T} R (rc : RelayClient E) sub (m : Event -> option T) timeout e v :
  relay_filters rc -> outcome R (wait_result rc sub m timeout) e (Ok (Some v)) ->
  exists ev, m ev = Some v /\ filter_matches (sub_filter sub) ev = true.
Proof.
  intros Hrc Ho. apply wait_result_outcome in Ho. symmetry in Ho. apply first_match_Some in Ho as (ev & Hev & Hm).
  exists ev. split; [done|]. specialize (Hrc sub timeout e). rewrite Forall_forall in Hrc. by apply Hrc.
Qed.

(** What a wait answers was read from an event delivered to it. *)
Lemma wait_delivered {T} R (rc : RelayClient E) f (m : Event -> option T) timeout e v :
  outcome R (waitForFirstEvent rc f m timeout) e (Ok (Some v)) -> exists ev, delivered rc f timeout ev /\ m ev = Some v.
Proof.
  intros Ho. unfold waitForFirstEvent, outcome, subscribe in Ho. destruct (rc_subscribe rc f e) as [e1 n].
  apply wait_result_outcome in Ho. symmetry in Ho. apply first_match_Some in Ho as (ev & Hev & Hm).
  exists ev. split; [by exists n, e1|done].
Qed.

Lemma wait_keeping_delivered {T} R (rc : RelayClient E) f (m : Event -> option T) timeout e ev v :
  outcome R (waitForFirstEvent rc f (keeping m) timeout) e (Ok (Some (ev, v))) -> delivered rc f timeout ev /\ m ev = Some v.
Proof.
  intros (ev' & Hd & Hm)%wait_delivered. unfold keeping in Hm. destruct (m ev') eqn:E'; [|done]. by injection Hm as <- <-.
Qed.

Lemma delivered_matches (rc : RelayClient E) f timeout ev : relay_filters rc -> delivered rc f timeout ev -> filter_matches f ev = true.
Proof. intros Hrc (n & e & Hev). specialize (Hrc (mkSub n f) timeout e). rewrite Forall_forall in Hrc. by apply Hrc. Qed.

Lemma filter_author kinds a tags ev : filter_matches (mkFilter kinds (Some [a]) tags) ev = true -> ev_pubkey ev = a.
Proof.
  unfold filter_matches. intros [[_ Ha]%andb_true_iff _]%andb_true_iff. simpl in Ha.
  by apply bool_decide_eq_true, list_elem_of_singleton in Ha.
Qed.

(** A hash answered by the bootstrap is one the Oracle's own key sent for that
    very query to the fresh identity of the request. *)
Theorem hash_bootstrap_authentic `{N : NostrLib} `{J : JSON} fresh now R (rc : RelayClient E) oracle timeout q e hash :
  relay_filters rc -> outcome R (requestHash fresh now rc oracle timeout q) e (Ok hash) ->
  exists event, ev_pubkey event = oracle /\
    parseHashResponseEvent event (kp_secretKey (fresh e).2) oracle = Some (mkHashResponse q hash).
Proof.
  intros Hrc Ho. unfold outcome, requestHash, subscribe in Ho. destruct (fresh e) as [e1 identity]. cbn [snd].
  destruct (rc_subscribe rc _ e1) as [e2 n].
  destruct (buildHashRequestEvent _ _ _ _) as [request|err]; [|apply resolves_Settled in Ho; done].
  apply outcome_await in Ho as (published & e3 & _ & _ & Ho). unfold outcome in Ho.
  destruct (bool_decide (pr_successes published = [])); [apply resolves_Settled in Ho; done|].
  apply outcome_await in Ho as (h & e4 & Hh & _ & Ho). destruct h as [h|]; [|apply resolves_Settled in Ho; done].
  apply outcome_ret in Ho. simplify_eq. apply wait_result_matches in Hh as (ev & Hm & HF); [|done].
  exists ev. split; [by eapply filter_author|].
  unfold match_hash in Hm. destruct (parseHashResponseEvent ev _ _) as [payload|]; [|done].
  destruct (bool_decide_reflect (hr_query_id payload = q)); simpl in Hm; [|done]. simplify_eq. by destruct payload.
Qed.
End properties.

(** ** A concrete transport, for the witnesses: relays that replay an inbox *)
Definition inbox_relay (inbox : list Event) : RelayClient (list Event) :=
  mkRelay (fun ev sent => (sent ++ [ev], Ok (mkPublishResult ["wss://relay"] []))) (fun _ sent => (sent, 0)) (fun _ sent => sent)
    (fun sub _ sent => (sent, List.filter (filter_matches (sub_filter sub)) inbox)).

Lemma inbox_relay_filters inbox : relay_filters (inbox_relay inbox).
Proof. intros sub timeout e. apply Forall_forall. intros ev Hev. apply list_elem_of_In, filter_In in Hev. apply Hev. Qed.

Definition hash_reply : Event := event_of (buildHashResponseEvent (N := toy_nostr) (J := codec) (mkKeypair [9%Z] "pk9") "pk5"
  (mkHashResponse "q1" "beef") (num 1000)).

Lemma hash_bootstrap_authentic_witness :
  exists event, ev_pubkey event = "pk9" /\
    parseHashResponseEvent (N := toy_nostr) (J := codec) event [5%Z] "pk9" = Some (mkHashResponse "q1" "beef").
Proof.
  apply (hash_bootstrap_authentic (N := toy_nostr) (J := codec) (fun e => (e, mkKeypair [5%Z] "pk5")) (fun _ => num 1000)
    (fun _ => True) (inbox_relay [hash_reply]) "pk9" (num 10000) "q1" [] "beef"); [apply inbox_relay_filters|].
  apply run_call_outcome. vm_compute. reflexivity.
Defined.
