(* ===== verification/Provider.v ===== *)
(** * The Provider

    [packages/sdk/src/provider.ts]: from a request notice to a redeemed
    payment.  [handleJob] runs once per notice, concurrently with itself.  The
    host's handler, the relays, the payment adapter, the oracle clients and the
    state store are those of the job context; their effects are on the world
    [E].  [pv_log] is not in the code: it records what the Provider committed
    to, in order. *)

From S2P Require Import Prelude JsNum JsMap JsString JsValue EventLoop SchemaUri Nostr NostrEvents RelayClient CashuTypes CashuClient.

(** ** Ports shared by the actors: [adapters/types.ts] *)
Section ports.
Context {E : Type}.

Record PaymentClient := mkPaymentClient {
  cc_mintUrl : string;
  cc_bindProvider : BindProviderParams -> call E CashuToken;
  cc_verifyProviderPaymentLock : VerifyProviderPaymentLockParams -> call E VerifyProviderPaymentLockResult;
  cc_redeemHtlc : RedeemHtlcParams -> call E (list CashuProof * number);
}.

(** [ActorStateStore.set]. *)
Definition StateStore : Type := string -> string -> call E unit.
End ports.
Arguments PaymentClient E : clear implicits.
Arguments StateStore E : clear implicits.

(** ** Options *)
Definition provider_error {A} (m : string) : res A := Throw (mkExn "ProviderConfigError" m).

Definition missing (v : jsval) : bool := match v with VUndef | VNull => true | _ => false end.
Definition nonempty_string (v : jsval) : bool := match v with VStr s => negb (s === "") | _ => false end.
Definition nonempty_array (v : jsval) : bool := match v with VArr (_ :: _) => true | _ => false end.
Definition elements (v : jsval) : list jsval := match v with VArr l => l | _ => [] end.

(** The first entry that fails decides. *)
Fixpoint each (check : jsval -> res unit) (l : list jsval) : res unit :=
  match l with [] => Ok tt | v :: l' => _ ← check v; each check l' end.

Definition reject_if {A} (b : bool) (e : res A) (d : A) : res A := if b then e else Ok d.

(** The structural part shared with the customer: [get], [set], [delete]. *)
Definition is_state_store (v : jsval) : bool :=
  is_fun (prop "get" v) && is_fun (prop "set" v) && is_fun (prop "delete" v).

Definition validateProviderOptions (o : jsval) : res unit :=
  let require (ok : bool) (m : string) : res unit := reject_if (negb ok) (provider_error m) tt in
  _ ← require (isRecord o) "options must be an object";
  _ ← require (nonempty_array (prop "oracles" o)) "oracles must be a non-empty string array";
  _ ← each (fun entry => require (nonempty_string entry) "oracles entries must be non-empty strings")
        (elements (prop "oracles" o));
  _ ← require (nonempty_array (prop "relays" o)) "relays must be a non-empty string array";
  _ ← require (nonempty_string (prop "mint" o)) "mint must be a non-empty string";
  _ ← require (nonempty_string (prop "privKey" o)) "privKey must be a non-empty string";
  _ ← require (negb (missing (prop "cashuClient" o))) "cashuClient adapter is required";
  _ ← require (negb (missing (prop "relayClient" o))) "relayClient adapter is required";
  _ ← (let store := prop "stateStore" o in
       if is_undef store then Ok tt
       else _ ← require (isRecord store) "stateStore, when provided, must be an object";
            require (is_state_store store) "stateStore must expose get, set, and delete methods");
  _ ← (let options := prop "schemaOptions" o in
       require (is_undef options || isRecord options) "schemaOptions, when provided, must be an object");
  _ ← (let clients := prop "oracleClients" o in
       if is_undef clients then Ok tt
       else _ ← require (isRecord clients) "oracleClients, when provided, must be an object";
            each (fun client =>
              _ ← require (isRecord client) "oracleClients entries must be objects";
              require (is_fun (prop "requestHash" client)) "oracleClients entries must expose requestHash")
              (snd <$> own_fields clients));
  let generators := prop "proofGenerators" o in
  if is_undef generators then Ok tt
  else _ ← require (match generators with VArr _ => true | _ => false end)
             "proofGenerators, when provided, must be an array";
       each (fun entry =>
         _ ← require (isRecord entry) "proofGenerators entries must be objects";
         require (is_fun (prop "canHandle" entry) && is_fun (prop "produce" entry))
           "proofGenerators entries must expose canHandle and produce") (elements generators).

Definition canOfferForRequest (providerOracles : list string) (requestOraclePubkey : string) : bool :=
  bool_decide (requestOraclePubkey ∈ providerOracles).

(** [resolveProofGenerator] and [resolveVerifierAdapter] of [schema.ts]: the first
    configured adapter that handles the schema, else that of the registered
    bundle, when the bundle has one. *)
Definition resolve_adapter {A} (canHandle : A -> string -> bool) (bundles : string -> option (option A)) (configured : list A)
    (uri : string) : option A :=
  match List.find (fun a => canHandle a uri) configured with
  | Some a => Some a
  | None => match bundles uri with Some adapter => adapter | None => None end
  end.

(** ** Jobs *)

(** What stays fixed once an offer is out. *)
Record Job := mkJob {
  jb_event : Event;
  jb_payload : QueryRequestPayload;
  jb_amount : number;
  jb_offerEventId : string;
}.

Inductive provider_event :=
| Offering (job : Job)
| HashReceived (job : Job) (hash : string)
| SelectionReceived (job : Job) (selection : Event) (token : string) (execution : SelectionExecutionPayload)
| LockAccepted (job : Job) (selection : Event) (params : VerifyProviderPaymentLockParams)
| Producing (job : Job) (execution : SelectionExecutionPayload)
| Responding (job : Job) (response : Event)
| PreimageReceived (job : Job) (delivery : Event) (preimage : string)
| Redeeming (job : Job) (params : RedeemHtlcParams).

Section provider.
Context `{N : NostrLib} `{J : JSON} `{U : UrlApi} {E G : Type}.  (* G: proof generators *)

Record ProviderRequestEvent := mkRequestEvent {
  re_customerPubkey : string;
  re_schema : string;
  re_maxAmountSats : number;
  re_oraclePubkey : string;
  re_proofGenerator : option G;
}.

Record ProviderSelectionContext := mkSelectionContext {
  sx_schema : string;
  sx_predicate : jsval;
  sx_description : option string;
  sx_context : option jsval;
  sx_mint : string;
  sx_amountSats : number;
  sx_maxAmountSats : number;
  sx_locktimeSeconds : number;
}.

(** The host may return any value as the amount. *)
Record ProviderOffer := mkOffer {
  po_amountSats : jsval;
  po_produce : ProviderSelectionContext -> call E (jsval * (list Z + string));
}.

Record JobContext := mkJobContext {
  jc_identity : Keypair;
  jc_oracles : list string;
  jc_cashuClient : PaymentClient E;
  jc_relayClient : RelayClient E;
  jc_stateStore : option (StateStore E);
  jc_selectionTimeoutMs : number;
  jc_hashTimeoutMs : number;
  jc_preimageTimeoutMs : number;
  jc_proofGenerators : list G;
  jc_canHandle : G -> string -> bool;
  jc_schemaBundles : string -> option (option G);  (* registered bundles and their producers *)
  jc_oracleClients : list (string * (string -> call E string));
  jc_clock : E -> number;
  jc_date_now : E -> number;
  jc_fresh_identity : E -> E * Keypair;
}.

Record JobsState := mkJobsState { pv_log : list provider_event; pv_env : E }.

Global Instance set_pv_log : Setter pv_log := fun f s => mkJobsState (f (pv_log s)) (pv_env s).
Global Instance set_pv_env : Setter pv_env := fun f s => mkJobsState (pv_log s) (f (pv_env s)).

Definition note (ev : provider_event) (s : JobsState) : JobsState := s <| pv_log := pv_log s ++ [ev] |>.
Definition put_world (e : E) (s : JobsState) : JobsState := s <| pv_env := e |>.
Definition outside {A} (c : call E A) : call JobsState A := zoom pv_env put_world c.

(** Log and go on in the same segment. *)
Definition noting {A} (ev : provider_event) (c : call JobsState A) : call JobsState A := fun s => c (note ev s).

(** *** Persisted progress *)
Inductive ProviderStateStatus := offer_published | result_published | redeemed.

Definition status_name (s : ProviderStateStatus) : string :=
  match s with offer_published => "offer_published" | result_published => "result_published" | redeemed => "redeemed" end.

Record ProviderStateRecord := mkProviderRecord {
  sr_requestEventId : string;
  sr_queryId : string;
  sr_customerPubkey : string;
  sr_schema : string;
  sr_status : ProviderStateStatus;
  sr_amountSats : number;
  sr_offerEventId : string;
  sr_responseEventId : option string;
  sr_updatedAt : number;
}.

Definition providerStateKey (requestEventId : string) : string := "provider:" +:+ requestEventId.

Definition state_record_json (r : ProviderStateRecord) : jsval :=
  VObj ([("requestEventId", VStr (sr_requestEventId r)); ("queryId", VStr (sr_queryId r));
         ("customerPubkey", VStr (sr_customerPubkey r)); ("schema", VStr (sr_schema r));
         ("status", VStr (status_name (sr_status r))); ("amountSats", VNum (sr_amountSats r));
         ("offerEventId", VStr (sr_offerEventId r))] ++
        match sr_responseEventId r with Some id => [("responseEventId", VStr id)] | None => [] end ++
        [("updatedAt", VNum (sr_updatedAt r))]).

Definition writeProviderState (store : StateStore E) (r : ProviderStateRecord) : call E unit :=
  await (store (providerStateKey (sr_requestEventId r)) (JSON_stringify (state_record_json r))) ret.

(** [if (ctx.stateStore !== undefined) await writeProviderState(...)], with the clock read there. *)
Definition save_progress (ctx : JobContext) (record : number -> ProviderStateRecord) : call E unit := fun e =>
  match jc_stateStore ctx with
  | None => ret tt e
  | Some store => writeProviderState store (record (jc_clock ctx e)) e
  end.

(** *** Waits *)
Definition match_selection (ctx : JobContext) (customerPubkey : string) (event : Event)
    : option (string * SelectionExecutionPayload) :=
  if negb (bool_decide (findTagValue (ev_tags event) "p" = Some (kp_publicKey (jc_identity ctx)))) then None
  else
  match parseSelectionFeedbackEvent event (kp_secretKey (jc_identity ctx)) customerPubkey with
  | None => None
  | Some parsed => Some (sf_provider_redemption_token parsed, sf_execution parsed)
  end.

(** The waits also return the event they matched, for the log. *)
Definition selection_filter (requestEventId customerPubkey : string) : Filter :=
  mkFilter [KIND_QUERY_FEEDBACK] (Some [customerPubkey]) [("e", [requestEventId])].

Definition waitForSelection (ctx : JobContext) (requestEventId customerPubkey : string)
    : call E (option (Event * (string * SelectionExecutionPayload))) :=
  waitForFirstEvent (jc_relayClient ctx) (selection_filter requestEventId customerPubkey)
    (keeping (match_selection ctx customerPubkey)) (jc_selectionTimeoutMs ctx).

Definition match_preimage (ctx : JobContext) (oraclePubkey queryId requestEventId : string) (event : Event) : option string :=
  match parsePreimageDeliveryEvent event (kp_secretKey (jc_identity ctx)) oraclePubkey with
  | None => None
  | Some parsed =>
      if pd_query_id parsed !== queryId then None
      else if pd_request_event_id parsed !== requestEventId then None
      else Some (pd_preimage parsed)
  end.

Definition preimage_filter (ctx : JobContext) (oraclePubkey : string) : Filter :=
  mkFilter [KIND_DIRECT_MESSAGE] (Some [oraclePubkey]) [("p", [kp_publicKey (jc_identity ctx)])].

Definition waitForPreimage (ctx : JobContext) (oraclePubkey queryId requestEventId : string) : call E (option (Event * string)) :=
  waitForFirstEvent (jc_relayClient ctx) (preimage_filter ctx oraclePubkey)
    (keeping (match_preimage ctx oraclePubkey queryId requestEventId)) (jc_preimageTimeoutMs ctx).

Definition getOracleClient (ctx : JobContext) (oraclePubkey : string) : res (string -> call E string) :=
  match jm_get oraclePubkey (jc_oracleClients ctx) with
  | Some client => Ok client
  | None => createNostrOracleClient (jc_fresh_identity ctx) (jc_date_now ctx) (jc_relayClient ctx) oraclePubkey
              (Some (jc_hashTimeoutMs ctx))
  end.

Definition request_hash (ctx : JobContext) (oraclePubkey queryId : string) : call E string :=
  match getOracleClient ctx oraclePubkey with
  | Ok client => client queryId
  | Throw e => fail e
  end.

(** *** The job, from its last part to its first *)

Definition progress (job : Job) (status : ProviderStateStatus) (responseId : option string) (now : number)
    : ProviderStateRecord :=
  mkProviderRecord (ev_id (jb_event job)) (qr_query_id (jb_payload job)) (qr_customer_pubkey (jb_payload job))
    (qr_schema (jb_payload job)) status (jb_amount job) (jb_offerEventId job) responseId now.

(** Wait for the preimage and redeem; redemption and the last state write are
    guarded. *)
Definition job_redeem (ctx : JobContext) (job : Job) (token responseId : string) : call JobsState unit :=
  let p := jb_payload job in
  let id := ev_id (jb_event job) in
  await (outside (waitForPreimage ctx (qr_oracle_pubkey p) (qr_query_id p) id)) (fun preimage =>
  match preimage with
  | None => ret tt
  | Some (delivery, preimage) =>
      let params := mkRedeemParams token preimage (kp_secretKey (jc_identity ctx)) in
      noting (PreimageReceived job delivery preimage)
        (noting (Redeeming job params)
          (try_catch
            (await (outside (cc_redeemHtlc (jc_cashuClient ctx) params)) (fun _ =>
               outside (save_progress ctx (progress job redeemed (Some responseId)))))
            (fun _ => ret tt)))
  end).

Definition selection_context (x : SelectionExecutionPayload) : ProviderSelectionContext :=
  mkSelectionContext (ex_schema x) (ex_predicate x) (ex_description x) (ex_context x) (ex_mint_url x)
    (ex_amount_sats x) (ex_max_amount_sats x) (ex_locktime_seconds x).

(** Produce the proof and publish the result. *)
Definition job_produce (ctx : JobContext) (job : Job) (offer : ProviderOffer) (token : string)
    (x : SelectionExecutionPayload) : call JobsState unit :=
  let p := jb_payload job in
  let id := ev_id (jb_event job) in
  noting (Producing job x)
  (await (attempt (outside (po_produce offer (selection_context x)))) (fun result =>
  match result with
  | None => ret tt
  | Some (data, proof) => fun s =>
      match buildQueryResponseEvent (jc_identity ctx) id (qr_customer_pubkey p) (qr_schema p) data proof
              (Some (qr_oracle_pubkey p)) (Some (qr_query_id p)) (jc_date_now ctx (pv_env s)) with
      | Throw e => fail e s
      | Ok response =>
          await (outside (publish (jc_relayClient ctx) response)) (fun _ =>
           noting (Responding job response)
           (await (outside (save_progress ctx (progress job result_published (Some (ev_id response))))) (fun _ =>
            job_redeem ctx job token (ev_id response)))) s
      end
  end)).

Definition job_lock_params (ctx : JobContext) (job : Job) (token hash : string) (x : SelectionExecutionPayload)
    : VerifyProviderPaymentLockParams :=
  mkLockParams token (jb_amount job) hash (kp_publicKey (jc_identity ctx)) (qr_customer_pubkey (jb_payload job))
    (ex_locktime_seconds x).

(** The selection must repeat the terms; then the hash is asked from the Oracle
    and the lock is verified. *)
Definition selection_matches (ctx : JobContext) (job : Job) (x : SelectionExecutionPayload) : bool :=
  (ex_schema x === qr_schema (jb_payload job)) && (ex_max_amount_sats x =ₙ qr_max_amount_sats (jb_payload job)) &&
  (ex_amount_sats x =ₙ jb_amount job) && (ex_mint_url x === cc_mintUrl (jc_cashuClient ctx)).

Definition job_selected (ctx : JobContext) (job : Job) (offer : ProviderOffer)
    (selection : option (Event * (string * SelectionExecutionPayload))) : call JobsState unit :=
  let p := jb_payload job in
  match selection with
  | None => ret tt
  | Some (selectionEvent, (token, x)) =>
  noting (SelectionReceived job selectionEvent token x)
  (if negb (selection_matches ctx job x) then ret tt
  else
  await (attempt (outside (request_hash ctx (qr_oracle_pubkey p) (qr_query_id p)))) (fun hash =>
  match hash with
  | None => ret tt
  | Some hash =>
  let params := job_lock_params ctx job token hash x in
  noting (HashReceived job hash)
  (await (attempt (outside (cc_verifyProviderPaymentLock (jc_cashuClient ctx) params))) (fun locked =>
  match locked with
  | None => ret tt
  | Some _ => noting (LockAccepted job selectionEvent params) (job_produce ctx job offer token x)
  end))
  end))
  end.

(** Offer, and wait for the selection. *)
Definition job_offer (ctx : JobContext) (event : Event) (payload : QueryRequestPayload) (offer : ProviderOffer)
    : call JobsState unit := fun s =>
  match po_amountSats offer with
  | VNum amount =>
      if (amount ≤ₙ num 0) || (amount >ₙ qr_max_amount_sats payload) then ret tt s
      else
        let offerEvent := buildOfferFeedbackEvent (jc_identity ctx) (ev_id event) (qr_customer_pubkey payload)
          (mkOfferPayload (kp_publicKey (jc_identity ctx)) amount) (jc_date_now ctx (pv_env s)) in
        let job := mkJob event payload amount (ev_id offerEvent) in
        noting (Offering job)
        (await (outside (publish (jc_relayClient ctx) offerEvent)) (fun _ =>
         await (outside (save_progress ctx (progress job offer_published None))) (fun _ =>
         await (outside (waitForSelection ctx (ev_id event) (qr_customer_pubkey payload)))
           (job_selected ctx job offer)))) s
  | _ => ret tt s
  end.

Definition handleJob (ctx : JobContext) (handler : ProviderRequestEvent -> call E (option ProviderOffer)) (event : Event)
    : call JobsState unit :=
  match parseQueryRequestEvent event with
  | None => ret tt
  | Some payload =>
  if negb (canOfferForRequest (jc_oracles ctx) (qr_oracle_pubkey payload)) then ret tt
  else if negb (isSchemaUri (qr_schema payload)) then ret tt
  else
  let proofGenerator := match jc_proofGenerators ctx with
                        | [] => None
                        | generators => resolve_adapter (jc_canHandle ctx) (jc_schemaBundles ctx) generators (qr_schema payload)
                        end in
  match jc_proofGenerators ctx, proofGenerator with
  | _ :: _, None => ret tt
  | _, _ =>
      let request := mkRequestEvent (qr_customer_pubkey payload) (qr_schema payload) (qr_max_amount_sats payload)
                       (qr_oracle_pubkey payload) proofGenerator in
      await (attempt (outside (handler request))) (fun offer =>
        match offer with
        | Some (Some offer) => job_offer ctx event payload offer
        | _ => ret tt
        end)
  end
  end.
End provider.
