(* ===== verification/ProviderSpec.v ===== *)
(** * What a Provider commits to, and when

    The Provider's log of offers, accepted locks, production, responses and
    redemptions, under every interleaving of jobs. *)

From S2P Require Import Prelude JsNum JsMap JsString JsValue JsonCodec EventLoop SchemaUri Samples Nostr NostrEvents.
From S2P Require Import RelayClient CashuTypes RedeemSwap CashuClient CashuClientSpec Provider.

Section spec.
Context `{N : NostrLib} `{J : JSON} `{U : UrlApi} {E G : Type}.
Variables (ctx : JobContext (E := E) (G := G)) (handler : ProviderRequestEvent (G := G) -> call E (option (ProviderOffer (E := E)))).
Notation state := (JobsState (E := E)).
Implicit Types s : state.

(** Some run of a port answered so. *)
Definition answered {A} (c : call E A) (a : A) : Prop := exists e, outcome (fun _ => True) c e (Ok a).

(** A notice the Provider may offer for, and an offer within its limit. *)
Definition offerable (job : Job) : Prop :=
  parseQueryRequestEvent (jb_event job) = Some (jb_payload job) /\
  qr_oracle_pubkey (jb_payload job) ∈ jc_oracles ctx /\ isSchemaUri (qr_schema (jb_payload job)) = true /\
  (jb_amount job ≤ₙ num 0) = false /\ (jb_amount job >ₙ qr_max_amount_sats (jb_payload job)) = false.

(** The selection read from an event of the customer that answers the notice. *)
Definition selected_by (job : Job) (selection : Event) (token : string) (x : SelectionExecutionPayload) : Prop :=
  delivered (jc_relayClient ctx) (mkFilter [KIND_QUERY_FEEDBACK] (Some [qr_customer_pubkey (jb_payload job)]) [("e", [ev_id (jb_event job)])])
    (jc_selectionTimeoutMs ctx) selection /\
  findTagValue (ev_tags selection) "p" = Some (kp_publicKey (jc_identity ctx)) /\
  exists parsed, parseSelectionFeedbackEvent selection (kp_secretKey (jc_identity ctx)) (qr_customer_pubkey (jb_payload job)) = Some parsed /\
    token = sf_provider_redemption_token parsed /\ x = sf_execution parsed.

(** The terms a selection must repeat. *)
Definition same_terms (job : Job) (x : SelectionExecutionPayload) : Prop :=
  ex_schema x = qr_schema (jb_payload job) /\ (ex_max_amount_sats x =ₙ qr_max_amount_sats (jb_payload job)) = true /\
  (ex_amount_sats x =ₙ jb_amount job) = true /\ ex_mint_url x = cc_mintUrl (jc_cashuClient ctx).

(** What must be on the log before each commitment. *)
Definition job_ok (l : list provider_event) (ev : provider_event) : Prop :=
  match ev with
  | Offering job => offerable job
  | SelectionReceived job selection token x => Offering job ∈ l /\ selected_by job selection token x
  | HashReceived job hash =>
      Offering job ∈ l /\ answered (request_hash ctx (qr_oracle_pubkey (jb_payload job)) (qr_query_id (jb_payload job))) hash
  | LockAccepted job selection params =>
      (exists x, SelectionReceived job selection (vl_token params) x ∈ l /\ same_terms job x /\
         vl_locktimeSeconds params = ex_locktime_seconds x) /\
      HashReceived job (vl_hashHex params) ∈ l /\
      (exists r, answered (cc_verifyProviderPaymentLock (jc_cashuClient ctx) params) r) /\
      vl_amountSats params = jb_amount job /\ vl_providerPubkey params = kp_publicKey (jc_identity ctx) /\
      vl_customerPubkey params = qr_customer_pubkey (jb_payload job)
  | Producing job x =>
      exists selection params, LockAccepted job selection params ∈ l /\
        SelectionReceived job selection (vl_token params) x ∈ l /\ same_terms job x /\ vl_locktimeSeconds params = ex_locktime_seconds x
  | Responding job response =>
      exists x data proof now, Producing job x ∈ l /\
        buildQueryResponseEvent (jc_identity ctx) (ev_id (jb_event job)) (qr_customer_pubkey (jb_payload job)) (qr_schema (jb_payload job))
          data proof (Some (qr_oracle_pubkey (jb_payload job))) (Some (qr_query_id (jb_payload job))) now = Ok response
  | PreimageReceived job delivery preimage =>
      delivered (jc_relayClient ctx)
        (mkFilter [KIND_DIRECT_MESSAGE] (Some [qr_oracle_pubkey (jb_payload job)]) [("p", [kp_publicKey (jc_identity ctx)])])
        (jc_preimageTimeoutMs ctx) delivery /\
      parsePreimageDeliveryEvent delivery (kp_secretKey (jc_identity ctx)) (qr_oracle_pubkey (jb_payload job)) =
      Some (mkPreimageDelivery (qr_query_id (jb_payload job)) (ev_id (jb_event job)) preimage)
  | Redeeming job params =>
      (exists selection lock, LockAccepted job selection lock ∈ l /\ vl_token lock = rd_token params) /\
      (exists response, Responding job response ∈ l) /\
      (exists delivery, PreimageReceived job delivery (rd_preimageHex params) ∈ l) /\
      rd_providerSecretKey params = kp_secretKey (jc_identity ctx)
  end.

Notation guar := (audit job_ok (S := state) pv_log (fun _ => True)).
Notation wp c s Q := (call_wp guar c s Q).
Notation any := (fun _ _ => True).

Lemma guar_world e s : guar s (put_world e s).
Proof. by apply audit_frame. Qed.

Lemma wp_outside {A} (c : call E A) s : wp (outside c) s (fun a _ => answered c a).
Proof.
  eapply wp_mono; [|apply wp_zoom_outcome; [apply _|intros; apply guar_world]]. simpl. intros a _ Ha. by exists (pv_env s).
Qed.

Lemma wp_outside_any {A} (c : call E A) s : wp (outside c) s any.
Proof. eapply wp_mono; [|apply wp_outside]. done. Qed.

(** A logged step, and what follows it in the same segment. *)
Lemma wp_noting {A} ev (c : call state A) s Q :
  job_ok (pv_log s) ev -> (forall s', guar s s' -> ev ∈ pv_log s' -> wp c s' Q) -> wp (noting ev c) s Q.
Proof.
  intros Hev Hc. assert (Hg : guar s (note ev s)) by (by eapply audit_log).
  destruct (Hc (note ev s) Hg) as [H1 H2].
  { simpl. apply elem_of_app. right. by apply list_elem_of_singleton. }
  split; [by etrans|done].
Qed.

(** Sequencing with an outside call; the log so far is kept. *)
Lemma wp_then {A B} (c : call E A) (k : A -> call state B) s Q :
  (forall a s', guar s s' -> answered c a -> wp (k a) s' Q) -> wp (await (outside c) k) s Q.
Proof.
  intros Hk. eapply wp_seq; [apply _|apply wp_outside|]. intros a s1 s2 Hs Ha _. by apply Hk.
Qed.

Lemma wp_then_attempt {A B} (c : call E A) (k : option A -> call state B) s Q :
  (forall s', guar s s' -> wp (k None) s' Q) -> (forall a s', guar s s' -> answered c a -> wp (k (Some a)) s' Q) ->
  wp (await (attempt (outside c)) k) s Q.
Proof.
  intros Hn Hk. eapply wp_seq; [apply _|apply wp_attempt, wp_outside|]. intros [a|] s1 s2 Hs Ha _; auto.
Qed.

Lemma wp_done s : wp (ret tt) s any.
Proof. by apply wp_ret. Qed.
#[local] Hint Resolve wp_done : core.

(** Log knowledge along later states. *)
Ltac carry := repeat match goal with
  | Hs : guar ?s ?s', Hx : ?x ∈ pv_log ?s |- _ =>
      lazymatch goal with K : x ∈ pv_log s' |- _ => fail | _ => pose proof (audit_in _ _ _ _ _ _ Hs Hx) end
  end.

(** What the two waits answer. *)
Lemma selection_answer job selection token x :
  answered (waitForSelection ctx (ev_id (jb_event job)) (qr_customer_pubkey (jb_payload job))) (Some (selection, (token, x))) ->
  selected_by job selection token x.
Proof.
  intros [e Ho]. apply wait_keeping_delivered in Ho as [Hd Hm]. split; [exact Hd|]. unfold match_selection in Hm.
  destruct (bool_decide_reflect (findTagValue (ev_tags selection) "p" = Some (kp_publicKey (jc_identity ctx)))); [|done].
  split; [done|]. cbn [negb] in Hm. destruct (parseSelectionFeedbackEvent _ _ _) as [parsed|]; [|done]. injection Hm as <- <-.
  by exists parsed.
Qed.

Lemma preimage_answer job delivery preimage :
  answered (waitForPreimage ctx (qr_oracle_pubkey (jb_payload job)) (qr_query_id (jb_payload job)) (ev_id (jb_event job)))
    (Some (delivery, preimage)) -> forall l, job_ok l (PreimageReceived job delivery preimage).
Proof.
  intros [e Ho] l. apply wait_keeping_delivered in Ho as [Hd Hm]. split; [exact Hd|]. unfold match_preimage in Hm.
  destruct (parsePreimageDeliveryEvent delivery _ _) as [parsed|]; [|done].
  destruct (bool_decide_reflect (pd_query_id parsed = qr_query_id (jb_payload job))); simpl in Hm; [|done].
  destruct (bool_decide_reflect (pd_request_event_id parsed = ev_id (jb_event job))); simpl in Hm; [|done].
  simplify_eq. destruct parsed; simpl in *; by subst.
Qed.

Lemma selection_matches_terms job x : selection_matches ctx job x = true -> same_terms job x.
Proof.
  unfold selection_matches, same_terms. intros [[[H1 H2]%andb_true_iff H3]%andb_true_iff H4]%andb_true_iff.
  by apply bool_decide_eq_true in H1, H4.
Qed.

Lemma wp_job_redeem job selection lock token response id s :
  LockAccepted job selection lock ∈ pv_log s -> vl_token lock = token -> Responding job response ∈ pv_log s ->
  wp (job_redeem ctx job token id) s any.
Proof.
  intros Hl Ht Hr. apply wp_then. intros [[delivery preimage]|] s1 Hs1 Ha; [|done].
  apply wp_noting; [by apply preimage_answer|]. intros s2 Hs2 Hp. carry. apply wp_noting.
  { split_and!; [by exists selection, lock|by exists response|by exists delivery|done]. }
  intros s3 Hs3 _. apply wp_try; [apply _| |done].
  apply wp_then. intros _ s4 _ _. apply wp_outside_any.
Qed.

Lemma wp_job_produce job offer selection lock token x s :
  LockAccepted job selection lock ∈ pv_log s -> SelectionReceived job selection token x ∈ pv_log s -> vl_token lock = token ->
  vl_locktimeSeconds lock = ex_locktime_seconds x -> same_terms job x -> wp (job_produce ctx job offer token x) s any.
Proof.
  intros Hl Hsel Ht Hlock Hm. apply wp_noting; [exists selection, lock; by subst token|]. intros s1 Hs1 Hp. carry.
  apply wp_then_attempt; [done|]. intros [data proof] s2 Hs2 _. carry. unfold call_wp.
  destruct (buildQueryResponseEvent _ _ _ _ _ _ _ _ _) as [response|e] eqn:Hresponse; [|done].
  apply wp_then. intros _ s3 Hs3 _. carry. apply wp_noting; [by eexists x, data, proof, _|]. intros s4 Hs4 Hresp. carry.
  apply wp_then. intros _ s5 Hs5 _. carry. by eapply wp_job_redeem.
Qed.

Lemma wp_job_selected job offer selection s :
  Offering job ∈ pv_log s ->
  (forall event token x, selection = Some (event, (token, x)) -> selected_by job event token x) ->
  wp (job_selected ctx job offer selection) s any.
Proof.
  intros Ho Hsel. destruct selection as [[event [token x]]|]; [|done]. unfold job_selected.
  apply wp_noting; [split; [done|by apply Hsel]|]. intros s0 Hs0 Hrec. carry.
  destruct (selection_matches ctx job x) eqn:Hm; cbn [negb]; [|done]. apply selection_matches_terms in Hm.
  apply wp_then_attempt; [done|]. intros hash s1 Hs1 Hh. carry.
  apply wp_noting; [done|]. intros s2 Hs2 Hhash. carry.
  apply wp_then_attempt; [done|]. intros r s3 Hs3 Hr. carry.
  apply wp_noting.
  { split_and!; [by exists x|done|by exists r|done|done|done]. }
  intros s4 Hs4 Hl. carry. by eapply wp_job_produce.
Qed.

Lemma wp_job_offer event payload offer s :
  parseQueryRequestEvent event = Some payload -> qr_oracle_pubkey payload ∈ jc_oracles ctx ->
  isSchemaUri (qr_schema payload) = true -> wp (job_offer ctx event payload offer) s any.
Proof.
  intros Hp Ho Hs. unfold call_wp, job_offer. destruct (po_amountSats offer); try done.
  destruct (_ || _) eqn:Ha; [done|]. apply orb_false_iff in Ha as [H1 H2].
  apply wp_noting; [done|]. intros s1 Hs1 Hoff. carry.
  apply wp_then. intros _ s2 Hs2 _. carry. apply wp_then. intros _ s3 Hs3 _. carry.
  apply wp_then. intros selection s4 Hs4 Hsel. carry. apply wp_job_selected; [done|]. intros ev token x ->.
  by apply (selection_answer (mkJob event payload n _)).
Qed.

Lemma wp_handleJob event s : wp (handleJob ctx handler event) s any.
Proof.
  unfold handleJob. destruct (parseQueryRequestEvent event) as [payload|] eqn:Hp; [|done].
  unfold canOfferForRequest. destruct (bool_decide_reflect (qr_oracle_pubkey payload ∈ jc_oracles ctx)); cbn [negb]; [|done].
  destruct (isSchemaUri (qr_schema payload)) eqn:Hs; cbn [negb]; [|done].
  assert (Hrun : forall request, wp (await (attempt (outside (handler request))) (fun offer =>
    match offer with Some (Some offer) => job_offer ctx event payload offer | _ => ret tt end)) s any).
  { intros request. apply wp_then_attempt; [done|]. intros [offer|] s1 _ _; [by apply wp_job_offer|done]. }
  destruct (jc_proofGenerators ctx); [apply Hrun|]. destruct (resolve_adapter _ _ _ _); [apply Hrun|done].
Qed.

(** ** Every schedule of jobs *)
Definition job_call (c : call state unit) : Prop := exists event, c = handleJob ctx handler event.
Definition world_changes s s' : Prop := exists e, s' = put_world e s.

Lemma jobs_backed e lp :
  loop_steps job_call world_changes (mkLoop (mkJobsState [] e) []) lp -> backed job_ok (pv_log (lp_state lp)).
Proof.
  intros Hsteps. eapply (audit_loop job_ok pv_log (fun _ => True)); [| | | |exact Hsteps]; [done|done| |].
  - intros c s [event ->] _. apply wp_handleJob.
  - intros s s' [e' ->]. apply guar_world.
Qed.

(** The history behind accepted locks. *)
Definition lock_backed (l : list provider_event) (job : Job) (selection : Event) (params : VerifyProviderPaymentLockParams)
    (x : SelectionExecutionPayload) : Prop :=
  offerable job /\ same_terms job x /\
  (* the token and the locktime are those of the selection that was received *)
  SelectionReceived job selection (vl_token params) x ∈ l /\ selected_by job selection (vl_token params) x /\
  vl_locktimeSeconds params = ex_locktime_seconds x /\
  (* the hash is what the notice's Oracle answered for its query *)
  HashReceived job (vl_hashHex params) ∈ l /\
  answered (request_hash ctx (qr_oracle_pubkey (jb_payload job)) (qr_query_id (jb_payload job))) (vl_hashHex params) /\
  (* the adapter accepted them, for the offered amount and the two keys *)
  (exists r, answered (cc_verifyProviderPaymentLock (jc_cashuClient ctx) params) r) /\
  vl_amountSats params = jb_amount job /\ vl_providerPubkey params = kp_publicKey (jc_identity ctx) /\
  vl_customerPubkey params = qr_customer_pubkey (jb_payload job).

Lemma backed_prefix l l1 ev l2 : backed job_ok l -> l = l1 ++ ev :: l2 -> backed job_ok l1.
Proof. intros Hb -> k1 y k2 ->. apply (Hb k1 y (k2 ++ ev :: l2)). by rewrite <- app_assoc. Qed.

Lemma selection_history l job selection token x :
  backed job_ok l -> SelectionReceived job selection token x ∈ l -> offerable job /\ selected_by job selection token x.
Proof.
  intros Hb Hs. destruct (backed_in _ _ _ Hb Hs) as (l1 & Hp & Ho & Hsel). apply (prefix_in _ _ _ Hp) in Ho.
  by destruct (backed_in _ _ _ Hb Ho) as (l2 & _ & Hoff).
Qed.

Lemma lock_history l job selection params x :
  backed job_ok l -> LockAccepted job selection params ∈ l -> SelectionReceived job selection (vl_token params) x ∈ l ->
  same_terms job x -> vl_locktimeSeconds params = ex_locktime_seconds x -> lock_backed l job selection params x.
Proof.
  intros Hb Hl Hs Ht Hlock. destruct (selection_history _ _ _ _ _ Hb Hs) as [Ho Hsel].
  destruct (backed_in _ _ _ Hb Hl) as (l1 & Hp1 & _ & Hh & Hr & Ha & Hpk & Hc).
  apply (prefix_in _ _ _ Hp1) in Hh. destruct (backed_in _ _ _ Hb Hh) as (l2 & _ & _ & Hans). by split_and!.
Qed.

Lemma production_history l1 job x : backed job_ok l1 -> job_ok l1 (Producing job x) ->
  exists selection params, LockAccepted job selection params ∈ l1 /\ lock_backed l1 job selection params x.
Proof.
  intros Hb (selection & params & Hl & Hs & Ht & Hlock). exists selection, params. split; [done|]. by apply lock_history.
Qed.

(** * Properties *)

(** C2: A Provider works only for a secured payment: in every interleaving of jobs,
    proof production starts only for a notice of a whitelisted Oracle and an offer
    within the customer's limit, after a selection that an event of the customer,
    tagged with this notice and this Provider, carried and that repeats the offered
    terms, and after the payment adapter accepted the token of that very selection
    for exactly the offered amount, the Provider's own key, the customer's key, the
    locktime of that selection and the hash that the notice's Oracle answered for
    this query. *)
Theorem provider_works_only_when_paid e lp l1 job x l2 :
  loop_steps job_call world_changes (mkLoop (mkJobsState [] e) []) lp ->
  pv_log (lp_state lp) = l1 ++ Producing job x :: l2 ->
  exists selection params, LockAccepted job selection params ∈ l1 /\ lock_backed l1 job selection params x.
Proof.
  intros Hsteps Heq. pose proof (jobs_backed _ _ Hsteps) as Hb.
  apply production_history; [by eapply backed_prefix|by eapply Hb].
Qed.

(** C15: A Provider redeems only the token whose lock it accepted, with its own key,
    after its response was published, and with a preimage that it read from an event
    which a subscription to the Oracle's own key delivered, and which names this query
    and this request event. *)
Theorem provider_redeems_with_oracle_preimage e lp l1 job params l2 :
  relay_filters (jc_relayClient ctx) ->
  loop_steps job_call world_changes (mkLoop (mkJobsState [] e) []) lp ->
  pv_log (lp_state lp) = l1 ++ Redeeming job params :: l2 ->
  (exists selection lock x, LockAccepted job selection lock ∈ l1 /\ lock_backed l1 job selection lock x /\ vl_token lock = rd_token params) /\
  rd_providerSecretKey params = kp_secretKey (jc_identity ctx) /\
  (exists response, Responding job response ∈ l1 /\ job_ok l1 (Responding job response)) /\
  exists delivery, PreimageReceived job delivery (rd_preimageHex params) ∈ l1 /\
    delivered (jc_relayClient ctx)
      (mkFilter [KIND_DIRECT_MESSAGE] (Some [qr_oracle_pubkey (jb_payload job)]) [("p", [kp_publicKey (jc_identity ctx)])])
      (jc_preimageTimeoutMs ctx) delivery /\
    ev_pubkey delivery = qr_oracle_pubkey (jb_payload job) /\
    parsePreimageDeliveryEvent delivery (kp_secretKey (jc_identity ctx)) (qr_oracle_pubkey (jb_payload job)) =
    Some (mkPreimageDelivery (qr_query_id (jb_payload job)) (ev_id (jb_event job)) (rd_preimageHex params)).
Proof.
  intros Hrc Hsteps Heq. pose proof (jobs_backed _ _ Hsteps) as Hb. pose proof (backed_prefix _ _ _ _ Hb Heq) as Hb1.
  destruct (Hb _ _ _ Heq) as ((selection & lock & Hl & Ht) & (response & Hr) & (delivery & Hp) & Hkey). split_and!; [|done| |].
  - destruct (backed_in _ _ _ Hb1 Hl) as (l3 & Hp3 & (x & Hs & Hterms & Hlock) & _). apply (prefix_in _ _ _ Hp3) in Hs.
    exists selection, lock, x. split_and!; [done|by apply lock_history|done].
  - exists response. split; [done|]. destruct (backed_in _ _ _ Hb1 Hr) as (l3 & Hp3 & x & data & proof & now & Hx & Hbuild).
    exists x, data, proof, now. split; [by eapply prefix_in|done].
  - destruct (backed_in _ _ _ Hb1 Hp) as (l3 & _ & Hd & Hparse). exists delivery. split_and!; [done|done| |done].
    eapply filter_author. by eapply delivered_matches.
Qed.
End spec.

(** ** The bundled payment adapter *)
Section bundled.
Context `{L : CashuLib} `{J : JSON} {E : Type}.

(** The adapter of [adapters/cashu.ts] as a port, for the wallet and clock a
    world shows. *)
Definition bundled_client (getWallet : E -> res Wallet) (now : E -> number) (mintUrl : string) : PaymentClient E :=
  mkPaymentClient mintUrl (fun p e => (e, Settled (bindProvider (getWallet e) mintUrl p (now e))))
    (fun p e => (e, Settled (verifyProviderPaymentLock (getWallet e) mintUrl p (now e))))
    (fun p e => (e, Settled (redeemHtlc (getWallet e) p))).

(** C16: With the bundled adapter, work starts only when the token of the selection
    the customer sent decodes to proofs of the Provider's own mint that meet every
    condition of the payment-lock gate for the offered amount, the two keys, the
    locktime of the selection and the hash that the Oracle answered for this query. *)
Theorem work_is_secured_by_lock `{N : NostrLib} `{U : UrlApi} {G} getWallet now mintUrl ctx handler (e : E) lp l1 job x l2 :
  jc_cashuClient ctx = bundled_client getWallet now mintUrl ->
  loop_steps (job_call (G := G) ctx handler) world_changes (mkLoop (mkJobsState [] e) []) lp ->
  pv_log (lp_state lp) = l1 ++ Producing job x :: l2 ->
  exists selection token hash wallet decoded e',
    SelectionReceived job selection token x ∈ l1 /\ selected_by ctx job selection token x /\ HashReceived job hash ∈ l1 /\
    getWallet e' = Ok wallet /\ getDecodedToken token (Some (w_keysetIds wallet)) = Ok decoded /\
    tok_mint decoded = mintUrl /\
    lock_acceptable wallet
      (mkLockParams token (jb_amount job) hash (kp_publicKey (jc_identity ctx)) (qr_customer_pubkey (jb_payload job)) (ex_locktime_seconds x))
      (now e') (tok_proofs decoded).
Proof.
  intros Hc Hsteps Heq. pose proof (jobs_backed _ _ _ _ Hsteps) as Hb.
  destruct (production_history ctx l1 job x) as (selection & params & Hl & Hlb); [by eapply backed_prefix|by eapply Hb|].
  destruct Hlb as (_ & _ & Hs & Hsel & Hlock & Hh & _ & (r & e' & Hr) & Ha & Hpk & Hcust). rewrite Hc in Hr.
  apply resolves_Settled in Hr. symmetry in Hr. apply payment_lock_gate in Hr as (w & d & H1 & _ & H3 & H4 & H5 & _).
  exists selection, (vl_token params), (vl_hashHex params), w, d, e'. split_and!; try done.
  destruct params; simpl in *; by subst.
Qed.
End bundled.

(** * Witnesses: a customer [pk3], an oracle [pk9] and the provider [pk2] *)
Definition job_secret : string := codec_stringify (VArr [VStr "HTLC"; VObj [("nonce", VStr "n"); ("data", VStr sample_hash);
  ("tags", VArr [tag ["pubkeys"; "pk2"]; tag ["refund"; "pk3"]; tag ["locktime"; "5000"]; tag ["sigflag"; "SIG_ALL"]])]]).
Definition job_lib : CashuLib := sample_cashu (mkDecoded "https://mint" [sample_proof job_secret 8]).
Definition job_wallet : Wallet (L := job_lib) := sample_wallet (Ok (mkSendResult [sample_proof "new" 8] None)) (Ok [UNSPENT]).
Definition job_notice : Event := buildQueryRequestEvent (N := toy_nostr) (J := codec) (mkKeypair [3%Z] "pk3")
  (mkQueryRequest "q1" ProofSchema_TlsnV1 "pk3" "pk9" (num 21) (num 1800000000)) None (num 1000).
Definition job_selection : Event := event_of (buildSelectionFeedbackEvent (N := toy_nostr) (J := codec) (mkKeypair [3%Z] "pk3") "id"
  (mkSelection "pk2" "cashuB" (mkExecution ProofSchema_TlsnV1 (VObj []) None None "https://mint" (num 21) (num 8) (num 5000))) (num 1000)).
Definition job_delivery : Event := event_of (buildPreimageDeliveryEvent (N := toy_nostr) (J := codec) (mkKeypair [9%Z] "pk9") "pk2"
  (mkPreimageDelivery "q1" "id" half_hash) (num 1000)).
Definition job_context : JobContext (E := list Event) (G := unit) :=
  mkJobContext (mkKeypair [2%Z] "pk2") ["pk9"]
    (bundled_client (L := job_lib) (J := codec) (fun _ => Ok job_wallet) (fun _ => num 4000) "https://mint")
    (inbox_relay [job_selection; job_delivery]) None (num 60000) (num 10000) (num 300000) [] (fun _ _ => true) (fun _ => None)
    [("pk9", fun _ => ret sample_hash)] (fun _ => num 1000) (fun _ => num 1000) (fun e => (e, mkKeypair [5%Z] "pk5")).
Definition job_handler (request : ProviderRequestEvent (G := unit)) : call (list Event) (option (ProviderOffer (E := list Event))) :=
  ret (Some (mkOffer (VNum (num 8)) (fun _ => ret (VObj [("price", VNum (num 3))], inr "proof")))).
Definition job_run : call (JobsState (E := list Event)) unit :=
  handleJob (N := toy_nostr) (J := codec) (U := sample_urls) job_context job_handler job_notice.
Definition job_final := (run_call job_run (mkJobsState [] [])).1.
Definition the_job : Job := mkJob job_notice (mkQueryRequest "q1" ProofSchema_TlsnV1 "pk3" "pk9" (num 21) (num 1800000000)) (num 8) "id".
Definition the_execution : SelectionExecutionPayload :=
  mkExecution ProofSchema_TlsnV1 (VObj []) None None "https://mint" (num 21) (num 8) (num 5000).

Lemma job_reachable :
  exists ts, loop_steps (job_call (N := toy_nostr) (J := codec) (U := sample_urls) job_context job_handler) world_changes
    (mkLoop (mkJobsState [] []) []) (mkLoop job_final ts).
Proof. apply (loop_run_calls _ _ [job_run]). repeat constructor. by exists job_notice. Qed.

Definition before_production := take 4 (pv_log job_final).

Lemma provider_works_only_when_paid_witness :
  exists selection params, LockAccepted the_job selection params ∈ before_production /\
    SelectionReceived the_job selection (vl_token params) the_execution ∈ before_production /\
    HashReceived the_job (vl_hashHex params) ∈ before_production /\ vl_amountSats params = num 8.
Proof.
  destruct job_reachable as [ts Hsteps].
  destruct (provider_works_only_when_paid (N := toy_nostr) (J := codec) (U := sample_urls) job_context job_handler [] _
    before_production the_job the_execution (drop 5 (pv_log job_final)) Hsteps)
    as (selection & params & Hl & _ & _ & Hs & _ & _ & Hh & _ & _ & Ha & _); [vm_compute; reflexivity|].
  exists selection, params. exact (conj Hl (conj Hs (conj Hh Ha))).
Defined.

Lemma provider_redeems_with_oracle_preimage_witness :
  exists delivery, PreimageReceived the_job delivery half_hash ∈ take 7 (pv_log job_final) /\ ev_pubkey delivery = "pk9".
Proof.
  destruct job_reachable as [ts Hsteps].
  destruct (provider_redeems_with_oracle_preimage (N := toy_nostr) (J := codec) (U := sample_urls) job_context job_handler [] _
    (take 7 (pv_log job_final)) the_job (mkRedeemParams "cashuB" half_hash [2%Z]) [] (inbox_relay_filters _) Hsteps)
    as (_ & _ & _ & delivery & H1 & _ & H2 & _); [vm_compute; reflexivity|].
  exists delivery. split; [exact H1|exact H2].
Defined.

Lemma work_is_secured_by_lock_witness :
  exists selection token hash (wallet : Wallet (L := job_lib)), SelectionReceived the_job selection token the_execution ∈ before_production /\
    HashReceived the_job hash ∈ before_production /\
    lock_acceptable (L := job_lib) (J := codec) wallet (mkLockParams token (num 8) hash "pk2" "pk3" (num 5000)) (num 4000)
      [sample_proof job_secret 8].
Proof.
  destruct job_reachable as [ts Hsteps].
  destruct (work_is_secured_by_lock (N := toy_nostr) (J := codec) (U := sample_urls) (L := job_lib) (fun _ => Ok job_wallet) (fun _ => num 4000) "https://mint"
    job_context job_handler [] _ before_production the_job the_execution (drop 5 (pv_log job_final)) eq_refl Hsteps)
    as (selection & token & hash & w & d & e' & H1 & _ & H3 & _ & H5 & _ & H7); [vm_compute; reflexivity|].
  simpl in H5. injection H5 as <-. exists selection, token, hash, w. exact (conj H1 (conj H3 H7)).
Defined.
