(* ===== verification/Customer.v ===== *)
(** * The Customer

    [packages/sdk/src/customer.ts]: one [request] from the hash bootstrap to
    the verified result.  Relays, payment adapter, oracle clients, selectors,
    verifiers, clocks and the state store are those of the configuration; their
    effects are on the world [E].  A failure after the Payment Lock exists is
    the error together with the recovery material the code attaches to it. *)

From S2P Require Import Prelude JsNum JsMap JsString JsValue EventLoop SchemaUri Nostr NostrEvents RelayClient CashuTypes CashuClient Provider.

Definition DEFAULT_OFFER_WINDOW_MS : Z := 30000.
Definition DEFAULT_LOCKTIME_SECONDS : Z := 3600.
Definition MIN_PAYMENT_LOCK_DURATION_SECONDS : Z := 10 * 60.
Definition MIN_CUSTOMER_PAYMENT_LOCK_DURATION_SECONDS : Z := MIN_PAYMENT_LOCK_DURATION_SECONDS + 60.
Definition DEFAULT_RESULT_TIMEOUT_MS : Z := 5 * 60000.

Record Offer := mkCustomerOffer {
  cf_providerPubkey : string;
  cf_amountSats : number;
  cf_offerEventId : string;
  cf_receivedAt : number;
}.

(** [offers.reduce((min, q) => (q.amountSats < min.amountSats ? q : min))] *)
Definition selectCheapestOffer (offers : list Offer) : option Offer :=
  match offers with
  | [] => None
  | first :: rest => Some (fold_left (fun min q => if cf_amountSats q <ₙ cf_amountSats min then q else min) rest first)
  end.

Definition isValidOfferAmount (amountSats : number) : bool :=
  isFinite amountSats && isInteger amountSats && (amountSats >ₙ num 0).

Definition customer_error (m : string) : exn := mkExn "CustomerConfigError" m.

Definition pickOracleForRequest (oracles : list string) : res string :=
  match oracles with
  | [] => Throw (customer_error "oracles whitelist is empty")
  | o :: _ => Ok o
  end.

(** The checks on one entry of [oracles], with the pubkeys seen so far. *)
Definition check_oracle_entry (seen : list string) (entry : jsval) : res (list string) :=
  let error m : res (list string) := Throw (customer_error m) in
  if negb (isRecord entry) then error "oracles entries must be objects"
  else
  match prop "pubkey" entry with
  | VStr pubkey =>
      if pubkey === "" then error "oracles entries must include a non-empty pubkey"
      else if bool_decide (pubkey ∈ seen) then error "oracles entries must have unique pubkeys"
      else
      let client := prop "client" entry in
      if is_undef client then Ok (seen ++ [pubkey])
      else if negb (isRecord client) then error "oracle client overrides must be objects"
      else if negb (is_fun (prop "requestHash" client)) then error "oracle clients must expose requestHash"
      else Ok (seen ++ [pubkey])
  | _ => error "oracles entries must include a non-empty pubkey"
  end.

Fixpoint check_oracle_entries (seen : list string) (entries : list jsval) : res (list string) :=
  match entries with
  | [] => Ok seen
  | entry :: entries' => seen' ← check_oracle_entry seen entry; check_oracle_entries seen' entries'
  end.

Definition validateCustomerOptions (o : jsval) : res unit :=
  let require (ok : bool) (m : string) : res unit := if ok then Ok tt else Throw (customer_error m) in
  _ ← require (isRecord o) "options must be an object";
  _ ← require (nonempty_array (prop "oracles" o)) "oracles must be a non-empty array";
  _ ← check_oracle_entries [] (elements (prop "oracles" o));
  _ ← require (nonempty_array (prop "relays" o)) "relays must be a non-empty string array";
  _ ← require (nonempty_string (prop "mint" o)) "mint must be a non-empty string";
  _ ← require (negb (missing (prop "cashuClient" o))) "cashuClient adapter is required";
  _ ← require (negb (missing (prop "relayClient" o))) "relayClient adapter is required";
  _ ← require (is_undef (prop "oracleSelector" o) || is_fun (prop "oracleSelector" o))
        "oracleSelector, when provided, must be a function";
  _ ← require (is_undef (prop "schemaOptions" o) || isRecord (prop "schemaOptions" o))
        "schemaOptions, when provided, must be an object";
  let store := prop "stateStore" o in
  if is_undef store then Ok tt
  else _ ← require (isRecord store) "stateStore, when provided, must be an object";
       require (is_state_store store) "stateStore must expose get, set, and delete methods".

Section customer.
Context `{N : NostrLib} `{J : JSON} `{U : UrlApi} {E V : Type}.  (* V: verifier adapters *)

Record CustomerConfig := mkCustomer {
  cu_oracles : list (string * option (string -> call E string));
  cu_mint : string;
  cu_cashuClient : PaymentClient E;
  cu_relayClient : RelayClient E;
  cu_offerWindowMs : number;
  cu_resultTimeoutMs : number;
  cu_oracleSelector : list string -> res string;
  cu_offerSelector : list Offer -> res (option Offer);
  cu_verifierAdapters : list V;
  cu_canHandle : V -> string -> bool;
  cu_schemaBundles : string -> option (option V);
  cu_verify : V -> string -> jsval -> jsval -> call E bool;  (* proof, predicate, data *)
  cu_stateStore : option (StateStore E);
  cu_clock : E -> number;
  cu_received_at : Event -> number;  (* the clock when an event was delivered *)
  cu_date_now : E -> number;
  cu_newQueryId : E -> E * string;
  cu_fresh_identity : E -> E * Keypair;
}.

Record RequestOptions := mkRequestOptions {
  rq_schema : string;
  rq_predicate : jsval;
  rq_description : option string;
  rq_context : option jsval;
  rq_maxAmount : number;
  rq_locktimeSeconds : option number;
  rq_fundingProofs : jsval;
  rq_onPaymentChange : option (list CashuProof -> call E unit);
  rq_provider : option string;
  rq_regionCode : option string;
}.

Record RequestResult := mkRequestResult {
  rr_data : jsval;
  rr_proof : string;
  rr_providerPubkey : string;
  rr_schema : string;
  rr_paymentChangeProofs : option (list CashuProof);
  rr_paymentLockProofs : list CashuProof;
  rr_paymentLockToken : string;
  rr_paymentLockRefundSecretKey : SecretKey;
}.

(** What [attachPaymentRecoveryMaterial] defines on the error. *)
Record PaymentRecoveryError := mkRecovery {
  pe_error : exn;
  pe_paymentChangeProofs : option (list CashuProof);
  pe_paymentLockProofs : list CashuProof;
  pe_paymentLockToken : string;
  pe_paymentLockRefundSecretKey : SecretKey;
}.

Definition nonempty_change (boundLock : CashuToken) : option (list CashuProof) :=
  match ct_changeProofs boundLock with [] => None | l => Some l end.

Definition attachPaymentRecoveryMaterial (err : exn) (boundLock : CashuToken) (refundSecretKey : SecretKey)
    : PaymentRecoveryError :=
  mkRecovery err (nonempty_change boundLock) (ct_proofs boundLock) (ct_token boundLock) refundSecretKey.

Definition findCustomerOracle (oracles : list (string * option (string -> call E string))) (pubkey : string)
    : option (string * option (string -> call E string)) :=
  List.find (fun entry => entry.1 === pubkey) oracles.

(** *** Persisted progress *)
Definition customerStateKey (queryId : string) : string := "customer:" +:+ queryId.

Definition customer_record (queryId requestEventId schema status : string) (selected : option (string * string))
    (updatedAt : number) : jsval :=
  VObj ([("queryId", VStr queryId); ("requestEventId", VStr requestEventId); ("schema", VStr schema);
         ("status", VStr status)] ++
        match selected with
        | Some (pubkey, offerId) => [("providerPubkey", VStr pubkey); ("offerEventId", VStr offerId)]
        | None => []
        end ++ [("updatedAt", VNum updatedAt)]).

Definition save_state (cfg : CustomerConfig) (queryId : string) (record : number -> jsval) : call E unit := fun e =>
  match cu_stateStore cfg with
  | None => ret tt e
  | Some store => await (store (customerStateKey queryId) (JSON_stringify (record (cu_clock cfg e)))) ret e
  end.

(** *** Parameters *)
Definition check_request (req : RequestOptions) : res number :=
  let duration := opt_default (num DEFAULT_LOCKTIME_SECONDS) (rq_locktimeSeconds req) in
  if negb (isSchemaUri (rq_schema req)) then
    Throw (mkExn "InvalidSchemaUriError" ("Invalid Proof Schema URL: " +:+ rq_schema req))
  else if negb (isFinite (rq_maxAmount req)) || negb (isInteger (rq_maxAmount req)) || (rq_maxAmount req ≤ₙ num 0) then
    Throw (customer_error "payment.maxAmount must be a positive integer")
  else if negb (match rq_fundingProofs req with VArr _ => true | _ => false end) then
    Throw (customer_error "fundingProofs must be an array of Cashu proofs")
  else if negb (isFinite duration) || negb (isInteger duration) ||
          (duration <ₙ num MIN_CUSTOMER_PAYMENT_LOCK_DURATION_SECONDS) then
    Throw (customer_error ("payment.locktimeSeconds must be an integer >= " +:+
             number_to_string (num MIN_CUSTOMER_PAYMENT_LOCK_DURATION_SECONDS)))
  else Ok duration.

(** *** Offers *)
Definition keep_offer (cfg : CustomerConfig) (req : RequestOptions) (event : Event) : option Offer :=
  match parseOfferFeedbackEvent event with
  | None => None
  | Some parsed =>
      if negb (isValidOfferAmount (po_amount_sats parsed)) then None
      else if po_amount_sats parsed >ₙ rq_maxAmount req then None
      else if match rq_provider req with Some p => po_provider_pubkey parsed !== p | None => false end then None
      else Some (mkCustomerOffer (po_provider_pubkey parsed) (po_amount_sats parsed) (ev_id event) (cu_received_at cfg event))
  end.

Definition count_offers (events : list Event) : nat :=
  length (List.filter (fun ev => match parseOfferFeedbackEvent ev with Some _ => true | None => false end) events).

(** Offers received within the window, and how many parsed at all. *)
Definition collect_offers (cfg : CustomerConfig) (req : RequestOptions) (requestEventId : string)
    : call E (list Offer * nat) := fun e =>
  let '(e1, sub) := subscribe (cu_relayClient cfg) (mkFilter [KIND_QUERY_FEEDBACK] None [("e", [requestEventId])]) e in
  let '(e2, events) := rc_events (cu_relayClient cfg) sub (cu_offerWindowMs cfg) e1 in
  (rc_close (cu_relayClient cfg) sub e2, Settled (Ok (omap (keep_offer cfg req) events, count_offers events))).

Definition choose_offer (cfg : CustomerConfig) (req : RequestOptions) (offers : list Offer) (totalReceived : nat) : res Offer :=
  selected ← cu_offerSelector cfg offers;
  match selected with
  | None => Throw (mkExn "NoOffersReceivedError" ("No selectable offer received within " +:+
              number_to_string (cu_offerWindowMs cfg) +:+ "ms (received " +:+ pretty totalReceived +:+
              " candidate offer(s) total)."))
  | Some selected =>
      if negb (isValidOfferAmount (cf_amountSats selected)) then
        Throw (customer_error "offerSelector returned an invalid offer amount")
      else if cf_amountSats selected >ₙ rq_maxAmount req then
        Throw (customer_error "offerSelector returned an offer above payment.maxAmount")
      else Ok selected
  end.

(** *** Before the lock *)
Record Prepared := mkPrepared {
  pp_identity : Keypair;
  pp_queryId : string;
  pp_oracle : string;
  pp_hash : string;
  pp_requestEventId : string;
  pp_selected : Offer;
  pp_locktimeSeconds : number;
}.

Definition oracle_client (cfg : CustomerConfig) (entry : string * option (string -> call E string))
    : res (string -> call E string) :=
  match entry.2 with
  | Some client => Ok client
  | None => createNostrOracleClient (cu_fresh_identity cfg) (cu_date_now cfg) (cu_relayClient cfg) entry.1 None
  end.

Definition request_payload (cfg : CustomerConfig) (req : RequestOptions) (identity : Keypair) (queryId oracle : string)
    (now : number) : QueryRequestPayload :=
  mkQueryRequest queryId (rq_schema req) (kp_publicKey identity) oracle (rq_maxAmount req)
    (nmul (nfloor_div (nadd now (cu_offerWindowMs cfg)) 1000) (num 1000)).

Definition relay_publish_error (r : PublishResult) : exn :=
  mkExn "RelayPublishError" ("No relay accepted the Job Request event (" +:+ pretty (length (pr_failures r)) +:+
    " failures, 0 successes).").

(** From the published notice to the chosen offer. *)
Definition gather (cfg : CustomerConfig) (req : RequestOptions) (duration : number) (identity : Keypair)
    (queryId oracle hash : string) : call E Prepared := fun e =>
  let requestEvent := buildQueryRequestEvent identity
    (request_payload cfg req identity queryId oracle (cu_clock cfg e)) (rq_regionCode req) (cu_date_now cfg e) in
  let id := ev_id requestEvent in
  await (publish (cu_relayClient cfg) requestEvent) (fun published =>
    if bool_decide (pr_successes published = []) then fail (relay_publish_error published)
    else
    await (save_state cfg queryId (customer_record queryId id (rq_schema req) "request_published" None)) (fun _ =>
    await (collect_offers cfg req id) (fun '(offers, total) e1 =>
    match choose_offer cfg req offers total with
    | Throw err => fail err e1
    | Ok selected =>
        ret (mkPrepared identity queryId oracle hash id selected (nadd (nfloor_div (cu_clock cfg e1) 1000) duration)) e1
    end))) e.

Definition prepare (cfg : CustomerConfig) (req : RequestOptions) : call E Prepared := fun e =>
  match check_request req with
  | Throw err => fail err e
  | Ok duration =>
  match cu_oracleSelector cfg (cu_oracles cfg).*1 with
  | Throw err => fail err e
  | Ok expectedOracle =>
  match findCustomerOracle (cu_oracles cfg) expectedOracle with
  | None => fail (customer_error "oracleSelector returned an oracle outside the whitelist") e
  | Some entry =>
      let '(e1, identity) := cu_fresh_identity cfg e in
      let '(e2, queryId) := cu_newQueryId cfg e1 in
      match oracle_client cfg entry with
      | Throw err => fail err e2
      | Ok client => await (client queryId) (fun hash => gather cfg req duration identity queryId expectedOracle hash) e2
      end
  end end end.

Definition bind_params_of (req : RequestOptions) (p : Prepared) : BindProviderParams :=
  mkBindParams (cf_amountSats (pp_selected p)) (elements (rq_fundingProofs req)) (cf_providerPubkey (pp_selected p))
    (pp_hash p) (pp_locktimeSeconds p) (kp_publicKey (pp_identity p)) (kp_secretKey (pp_identity p)).

(** *** After the lock *)
Definition selection_payload (cfg : CustomerConfig) (req : RequestOptions) (p : Prepared) (token : string)
    : SelectionFeedbackPayload :=
  mkSelection (cf_providerPubkey (pp_selected p)) token
    (mkExecution (rq_schema req) (rq_predicate req) (rq_description req) (rq_context req) (cu_mint cfg)
       (rq_maxAmount req) (cf_amountSats (pp_selected p)) (pp_locktimeSeconds p)).

Definition result_timeout (cfg : CustomerConfig) (p : Prepared) : exn :=
  mkExn "ResultTimeoutError" ("Provider " +:+ slice0 16 (cf_providerPubkey (pp_selected p)) +:+
    "… did not deliver a kind 6300 result within " +:+ number_to_string (cu_resultTimeoutMs cfg) +:+ "ms.").

Definition run_schema_verifier (cfg : CustomerConfig) (req : RequestOptions) (response : QueryResponsePayload) : call E unit :=
  match resolve_adapter (cu_canHandle cfg) (cu_schemaBundles cfg) (cu_verifierAdapters cfg) (rq_schema req) with
  | None => ret tt
  | Some verifier =>
      await (cu_verify cfg verifier (rp_proof response) (rq_predicate req) (rp_data response)) (fun ok =>
        if ok then ret tt
        else fail (mkExn "SchemaVerificationError" ("Local schema verifier rejected the proof for schema " +:+ rq_schema req +:+ ".")))
  end.

(** Wait for the result of the selected provider, check it and return it. *)
Definition receive (cfg : CustomerConfig) (req : RequestOptions) (p : Prepared) (lock : CashuToken) : call E RequestResult :=
  let provider := cf_providerPubkey (pp_selected p) in
  let chosen := Some (provider, cf_offerEventId (pp_selected p)) in
  let record status := customer_record (pp_queryId p) (pp_requestEventId p) (rq_schema req) status chosen in
  await (waitForFirstEvent (cu_relayClient cfg)
           (mkFilter [KIND_QUERY_RESPONSE] (Some [provider]) [("e", [pp_requestEventId p])]) Some
           (cu_resultTimeoutMs cfg)) (fun resultEvent =>
  match resultEvent with
  | None => fail (result_timeout cfg p)
  | Some resultEvent =>
  match parseQueryResponseEvent resultEvent (kp_secretKey (pp_identity p)) provider with
  | None => fail (result_timeout cfg p)
  | Some response =>
      await (run_schema_verifier cfg req response) (fun _ =>
      await (save_state cfg (pp_queryId p) (record "result_received")) (fun _ =>
      ret (mkRequestResult (rp_data response) (rp_proof response) provider (rp_schema response) (nonempty_change lock)
             (ct_proofs lock) (ct_token lock) (kp_secretKey (pp_identity p)))))
  end end).

Definition deliver (cfg : CustomerConfig) (req : RequestOptions) (p : Prepared) (lock : CashuToken) : call E RequestResult :=
  let chosen := Some (cf_providerPubkey (pp_selected p), cf_offerEventId (pp_selected p)) in
  let record status := customer_record (pp_queryId p) (pp_requestEventId p) (rq_schema req) status chosen in
  if negb (ct_amountSats lock =ₙ cf_amountSats (pp_selected p)) then
    fail (customer_error "bound Payment Lock amount does not match the selected offer amount")
  else
  let select : call E RequestResult := fun e =>
    match buildSelectionFeedbackEvent (pp_identity p) (pp_requestEventId p) (selection_payload cfg req p (ct_token lock))
            (cu_date_now cfg e) with
    | Throw err => fail err e
    | Ok selectionEvent =>
        await (publish (cu_relayClient cfg) selectionEvent) (fun _ =>
        await (save_state cfg (pp_queryId p) (record "provider_selected")) (fun _ =>
        receive cfg req p lock)) e
    end in
  match ct_changeProofs lock with
  | [] => select
  | changed => await match rq_onPaymentChange req with Some on_change => on_change changed | None => ret tt end (fun _ => select)
  end.

(** [try { ... } catch (err) { throw attachPaymentRecoveryMaterial(...) }] *)
Definition guarded_deliver (cfg : CustomerConfig) (req : RequestOptions) (p : Prepared) (lock : CashuToken)
    : call E (RequestResult + PaymentRecoveryError) :=
  try_catch (await (deliver cfg req p lock) (fun result => ret (inl result)))
    (fun err => ret (inr (attachPaymentRecoveryMaterial err lock (kp_secretKey (pp_identity p))))).

Definition customer_request (cfg : CustomerConfig) (req : RequestOptions) : call E (RequestResult + PaymentRecoveryError) :=
  await (prepare cfg req) (fun p =>
  await (cc_bindProvider (cu_cashuClient cfg) (bind_params_of req p)) (fun lock => guarded_deliver cfg req p lock)).
End customer.
