(* ===== verification/CustomerSpec.v ===== *)
(** * What a Customer risks, and what it gets

    The terms of every Payment Lock a request creates, the recovery of a lock
    when the request fails after it, what a returned result is known to satisfy,
    and that the terms a Customer sends are those a Provider checks. *)

From S2P Require Import Prelude JsNum JsMap JsString JsValue JsonCodec EventLoop SchemaUri Samples Nostr NostrEvents.
From S2P Require Import RelayClient CashuTypes RedeemSwap CashuClient CashuClientSpec Provider ProviderSpec Customer.

(** ** Choosing an offer *)
Notation cheaper := (fun min q => if cf_amountSats q <ₙ cf_amountSats min then q else min).

Lemma cheapest_in rest first : fold_left cheaper rest first ∈ first :: rest.
Proof.
  revert first. induction rest as [|q rest IH]; intros first; simpl; [left|].
  specialize (IH (cheaper first q)). simpl in IH. case_match; rewrite !elem_of_cons in *; tauto.
Qed.

Lemma cheapest_least rest first :
  Forall (fun o => isFinite (cf_amountSats o) = true) (first :: rest) ->
  Forall (fun o => (cf_amountSats o <ₙ cf_amountSats (fold_left cheaper rest first)) = false) (first :: rest).
Proof.
  revert first. induction rest as [|q rest IH]; intros first Hfin; simpl.
  - constructor; [apply nlt_irrefl|constructor].
  - apply Forall_cons in Hfin as [Hf [Hq Hr]%Forall_cons].
    pose proof (cheapest_in rest (cheaper first q)) as Hin. simpl in Hin. specialize (IH (cheaper first q)). simpl in IH.
    set (best := fold_left _ rest _) in *.
    assert (Hbest : isFinite (cf_amountSats best) = true).
    { assert (HF : Forall (fun o => isFinite (cf_amountSats o) = true) (first :: q :: rest)) by (by repeat constructor).
      rewrite Forall_forall in HF. apply HF. destruct (_ <ₙ _); rewrite !elem_of_cons in *; tauto. }
    destruct (cf_amountSats q <ₙ cf_amountSats first) eqn:Hlt.
    + specialize (IH (Forall_cons_2 _ _ _ Hq Hr)). apply Forall_cons in IH as [IHq IHr]. repeat constructor; try done.
      eapply (ncompare_finite_trans _ (cf_amountSats q)); try done. by apply nlt_asym.
    + specialize (IH (Forall_cons_2 _ _ _ Hf Hr)). apply Forall_cons in IH as [IHf IHr]. repeat constructor; try done.
      by eapply (ncompare_finite_trans _ (cf_amountSats first)).
Qed.

Section spec.
Context `{N : NostrLib} `{J : JSON} `{U : UrlApi} {E V : Type}.
Variables (cfg : CustomerConfig (E := E) (V := V)) (req : RequestOptions (E := E)).
Implicit Types (R : E -> Prop) (e : E).

(** ** Before the lock *)

(** The duration a valid request locks for. *)
Lemma check_request_Ok duration :
  check_request req = Ok duration ->
  isSchemaUri (rq_schema req) = true /\ isInteger (rq_maxAmount req) = true /\ (rq_maxAmount req ≤ₙ num 0) = false /\
  isInteger duration = true /\ (duration <ₙ num MIN_CUSTOMER_PAYMENT_LOCK_DURATION_SECONDS) = false.
Proof.
  unfold check_request. set (d := opt_default _ _). destruct (isSchemaUri _); cbn [negb]; [|done].
  destruct (negb (isFinite (rq_maxAmount req)) || negb (isInteger (rq_maxAmount req)) || (rq_maxAmount req ≤ₙ num 0)) eqn:H1; [done|].
  destruct (rq_fundingProofs req); cbn [negb]; try done.
  destruct (negb (isFinite d) || negb (isInteger d) || (d <ₙ num MIN_CUSTOMER_PAYMENT_LOCK_DURATION_SECONDS)) eqn:H2; [done|].
  intros [= <-]. rewrite !orb_false_iff, !negb_false_iff in H1, H2. tauto.
Qed.

Lemma choose_offer_Ok offers total selected :
  choose_offer cfg req offers total = Ok selected ->
  cu_offerSelector cfg offers = Ok (Some selected) /\ isValidOfferAmount (cf_amountSats selected) = true /\
  (cf_amountSats selected >ₙ rq_maxAmount req) = false.
Proof.
  unfold choose_offer. intros (o & Ho & Hs)%bind_Ok. destruct o as [o|]; [|done].
  destruct (isValidOfferAmount _) eqn:Hv; simpl in Hs; [|done]. destruct (_ >ₙ _) eqn:Hg; [done|]. by simplify_eq.
Qed.

(** What a request has agreed on when it is about to lock funds. *)
Definition lock_terms (p : Prepared) : Prop :=
  (* the oracle is whitelisted and answered the hash for the fresh query id *)
  (exists entry client, entry ∈ cu_oracles cfg /\ entry.1 = pp_oracle p /\ oracle_client cfg entry = Ok client /\
     answered (client (pp_queryId p)) (pp_hash p)) /\
  (* the amount is a positive integer within the customer's limit *)
  isValidOfferAmount (cf_amountSats (pp_selected p)) = true /\
  (cf_amountSats (pp_selected p) >ₙ rq_maxAmount req) = false /\
  (* the chosen offer is the selector's choice among offers received and kept *)
  (exists events, cu_offerSelector cfg (omap (keep_offer cfg req) events) = Ok (Some (pp_selected p))) /\
  (* refundable after the requested duration from the selection, eleven minutes at least *)
  exists now duration, pp_locktimeSeconds p = nadd (nfloor_div now 1000) duration /\ isInteger duration = true /\
    (duration <ₙ num MIN_CUSTOMER_PAYMENT_LOCK_DURATION_SECONDS) = false.

Lemma gather_outcome R duration identity q oracle hash e p :
  outcome R (gather cfg req duration identity q oracle hash) e (Ok p) ->
  pp_oracle p = oracle /\ pp_hash p = hash /\ pp_queryId p = q /\
  isValidOfferAmount (cf_amountSats (pp_selected p)) = true /\
  (cf_amountSats (pp_selected p) >ₙ rq_maxAmount req) = false /\
  (exists events, cu_offerSelector cfg (omap (keep_offer cfg req) events) = Ok (Some (pp_selected p))) /\
  exists now, pp_locktimeSeconds p = nadd (nfloor_div now 1000) duration.
Proof.
  unfold gather. intros Ho. unfold outcome in Ho. apply outcome_await in Ho as (published & e1 & _ & _ & Ho).
  destruct (bool_decide _); [apply resolves_Settled in Ho; done|].
  apply outcome_await in Ho as (u & e2 & _ & _ & Ho). apply outcome_await in Ho as ([offers total] & e3 & Hc & _ & Ho).
  unfold outcome in Ho. destruct (choose_offer cfg req offers total) as [selected|err] eqn:Hs; [|apply resolves_Settled in Ho; done].
  apply resolves_Settled in Ho. simplify_eq/=. apply choose_offer_Ok in Hs as (H1 & H2 & H3).
  unfold outcome, collect_offers in Hc. destruct (subscribe _ _ e2) as [e4 sub]. destruct (rc_events _ sub _ e4) as [e5 events].
  apply resolves_Settled in Hc. simplify_eq. split_and!; [done..|by exists events|by eexists].
Qed.

Lemma prepare_outcome R e p : outcome R (prepare cfg req) e (Ok p) -> lock_terms p.
Proof.
  unfold outcome, prepare. destruct (check_request req) as [duration|err] eqn:Hc; [|by intros ?%resolves_Settled].
  apply check_request_Ok in Hc as (_ & _ & _ & Hd1 & Hd2).
  destruct (cu_oracleSelector cfg _) as [oracle|err]; [|by intros ?%resolves_Settled].
  destruct (findCustomerOracle _ oracle) as [entry|] eqn:Hf; [|by intros ?%resolves_Settled].
  apply List.find_some in Hf as [Hin Heq]. apply bool_decide_eq_true in Heq. apply list_elem_of_In in Hin.
  destruct (cu_fresh_identity cfg e) as [e1 identity]. destruct (cu_newQueryId cfg e1) as [e2 q].
  destruct (oracle_client cfg entry) as [client|err] eqn:Hcl; [|by intros ?%resolves_Settled].
  intros Ho. apply outcome_await in Ho as (hash & e3 & Hh & _ & Ho).
  apply gather_outcome in Ho as (H1 & H2 & H3 & H4 & H5 & H6 & now & H7).
  split_and!; [|done|done|done|by exists now, duration]. exists entry, client. rewrite H1, H2, H3. split_and!; try done.
  exists e2. eapply resolves_anywhere; exact Hh.
Qed.

(** ** After the lock *)

(** A failure or a result names the lock it is about. *)
Definition carries_lock (p : Prepared) (lock : CashuToken) (r : RequestResult + PaymentRecoveryError) : Prop :=
  match r with
  | inl result => rr_paymentLockToken result = ct_token lock /\ rr_paymentLockProofs result = ct_proofs lock /\
      rr_paymentChangeProofs result = nonempty_change lock /\ rr_paymentLockRefundSecretKey result = kp_secretKey (pp_identity p)
  | inr err => pe_paymentLockToken err = ct_token lock /\ pe_paymentLockProofs err = ct_proofs lock /\
      pe_paymentChangeProofs err = nonempty_change lock /\ pe_paymentLockRefundSecretKey err = kp_secretKey (pp_identity p)
  end.

(** What is known of a returned result: the event it was read from, delivered on a
    subscription to the selected provider's key for this request, and the local
    verifier's approval when one handles the schema. *)
Definition result_backed (p : Prepared) (result : RequestResult) : Prop :=
  exists event response,
    delivered (cu_relayClient cfg)
      (mkFilter [KIND_QUERY_RESPONSE] (Some [cf_providerPubkey (pp_selected p)]) [("e", [pp_requestEventId p])])
      (cu_resultTimeoutMs cfg) event /\
    (relay_filters (cu_relayClient cfg) -> ev_pubkey event = cf_providerPubkey (pp_selected p)) /\
    parseQueryResponseEvent event (kp_secretKey (pp_identity p)) (cf_providerPubkey (pp_selected p)) = Some response /\
    rr_data result = rp_data response /\ rr_proof result = rp_proof response /\
    rr_schema result = rp_schema response /\ rr_providerPubkey result = cf_providerPubkey (pp_selected p) /\
    forall v, resolve_adapter (cu_canHandle cfg) (cu_schemaBundles cfg) (cu_verifierAdapters cfg) (rq_schema req) = Some v ->
      answered (cu_verify cfg v (rp_proof response) (rq_predicate req) (rp_data response)) true.

Lemma verifier_outcome R response e :
  outcome R (run_schema_verifier cfg req response) e (Ok tt) ->
  forall v, resolve_adapter (cu_canHandle cfg) (cu_schemaBundles cfg) (cu_verifierAdapters cfg) (rq_schema req) = Some v ->
    answered (cu_verify cfg v (rp_proof response) (rq_predicate req) (rp_data response)) true.
Proof.
  unfold run_schema_verifier. intros Ho v Hv. rewrite Hv in Ho. apply outcome_await in Ho as (ok & e1 & Hok & _ & Ho).
  destruct ok; [|apply resolves_Settled in Ho; done]. exists e. by eapply resolves_anywhere.
Qed.

Lemma receive_outcome R p lock e result :
  outcome R (receive cfg req p lock) e (Ok result) ->
  carries_lock p lock (inl result) /\ result_backed p result.
Proof.
  unfold receive. intros Ho. apply outcome_await in Ho as (o & e1 & Hw & _ & Ho).
  destruct o as [event|]; [|apply resolves_Settled in Ho; done].
  destruct (parseQueryResponseEvent event _ _) as [response|] eqn:Hp; [|apply resolves_Settled in Ho; done].
  apply outcome_await in Ho as ([] & e2 & Hv & _ & Ho). apply outcome_await in Ho as (u & e3 & _ & _ & Ho).
  apply outcome_ret in Ho. injection Ho as ->. split; [done|].
  apply wait_delivered in Hw as (ev & Hd & Hm). injection Hm as ->.
  exists event, response. split_and!; try done; [|by eapply verifier_outcome].
  intros Hrc. eapply filter_author. by eapply delivered_matches.
Qed.

Lemma deliver_outcome R p lock e result :
  outcome R (deliver cfg req p lock) e (Ok result) ->
  (ct_amountSats lock =ₙ cf_amountSats (pp_selected p)) = true /\
  carries_lock p lock (inl result) /\ result_backed p result.
Proof.
  unfold deliver. destruct (_ =ₙ _); simpl; [|by intros ?%resolves_Settled]. intros Ho. split; [done|].
  assert (Hsel : forall e, outcome R (fun e => match buildSelectionFeedbackEvent (pp_identity p) (pp_requestEventId p)
      (selection_payload cfg req p (ct_token lock)) (cu_date_now cfg e) with
    | Throw err => fail err e
    | Ok selectionEvent => await (publish (cu_relayClient cfg) selectionEvent) (fun _ =>
        await (save_state cfg (pp_queryId p) (customer_record (pp_queryId p) (pp_requestEventId p) (rq_schema req) "provider_selected"
          (Some (cf_providerPubkey (pp_selected p), cf_offerEventId (pp_selected p))))) (fun _ => receive cfg req p lock)) e
    end) e (Ok result) ->
    carries_lock p lock (inl result) /\ result_backed p result).
  { intros e1 Hs. unfold outcome in Hs. destruct (buildSelectionFeedbackEvent _ _ _ _); [|apply resolves_Settled in Hs; done].
    apply outcome_await in Hs as (? & e2 & _ & _ & Hs). apply outcome_await in Hs as (? & e3 & _ & _ & Hs).
    by eapply receive_outcome. }
  destruct (ct_changeProofs lock); [by eapply Hsel|].
  apply outcome_await in Ho as (? & e2 & _ & _ & Ho). by eapply Hsel.
Qed.

(** A guarded delivery never throws. *)
Lemma guarded_outcome R p lock e r :
  outcome R (guarded_deliver cfg req p lock) e r ->
  exists x, r = Ok x /\ carries_lock p lock x /\
    forall result, x = inl result -> (ct_amountSats lock =ₙ cf_amountSats (pp_selected p)) = true /\ result_backed p result.
Proof.
  unfold guarded_deliver. intros [(x & -> & Ho)|(err & e1 & _ & Ho)]%outcome_try.
  - apply outcome_await in Ho as (result & e1 & Hd & _ & Ho). apply outcome_ret in Ho. simplify_eq.
    apply deliver_outcome in Hd as (Ha & Hc & Hb). eexists. split_and!; [done|done|]. by intros result' [= <-].
  - apply outcome_ret in Ho as ->. eexists. split_and!; [done|done|]. done.
Qed.

(** Which events become offers. *)
Lemma keep_offer_Some event o :
  keep_offer cfg req event = Some o ->
  exists parsed, parseOfferFeedbackEvent event = Some parsed /\ cf_providerPubkey o = ev_pubkey event /\
    cf_amountSats o = po_amount_sats parsed /\ cf_offerEventId o = ev_id event /\ isFinite (cf_amountSats o) = true /\
    forall p, rq_provider req = Some p -> p = ev_pubkey event.
Proof.
  unfold keep_offer. destruct (parseOfferFeedbackEvent event) as [parsed|] eqn:Hp; [|done].
  destruct (offer_author event parsed Hp) as (Hauthor & _). unfold isValidOfferAmount.
  destruct (isFinite (po_amount_sats parsed)) eqn:Hfin; simpl; [|done]. destruct (negb _); [done|]. destruct (_ >ₙ _); [done|].
  destruct (rq_provider req) as [pr|]; [destruct (bool_decide_reflect (po_provider_pubkey parsed = pr)); simpl; [|done]|];
    intros [= <-]; exists parsed; simpl; rewrite <- Hauthor; split_and!; try done; by intros ? [= <-].
Qed.

(** * Properties *)

(** C4: No lock is lost: however a request ends once the payment adapter has created
    the Payment Lock, the caller holds its token, its proofs, the change and the
    key of the refund path, in the result or attached to the error; and a plain
    exception means that preparation failed or that the adapter itself did. *)
Theorem customer_never_loses_lock R e r :
  outcome R (customer_request cfg req) e r ->
  match r with
  | Ok x => exists p lock, lock_terms p /\ answered (cc_bindProvider (cu_cashuClient cfg) (bind_params_of req p)) lock /\
      carries_lock p lock x
  | Throw err => outcome R (prepare cfg req) e (Throw err) \/
      exists p e', lock_terms p /\ outcome R (cc_bindProvider (cu_cashuClient cfg) (bind_params_of req p)) e' (Throw err)
  end.
Proof.
  destruct r as [x|err]; intros Ho.
  - apply outcome_await in Ho as (p & e1 & Hp & _ & Ho). apply outcome_await in Ho as (lock & e2 & Hb & _ & Ho).
    apply guarded_outcome in Ho as (x' & [= ->] & Hc & _). exists p, lock. split_and!; [by eapply prepare_outcome| |done].
    exists e1. by eapply resolves_anywhere.
  - apply outcome_await_Throw in Ho as [Ho|(p & e1 & Hp & _ & Ho)]; [by left|].
    apply outcome_await_Throw in Ho as [Ho|(lock & e2 & _ & _ & Ho)].
    + right. exists p, e1. split; [by eapply prepare_outcome|done].
    + by apply guarded_outcome in Ho as (x & ? & _).
Qed.

(** C17: A result a request returns is that of the provider the request selected and
    paid: for the terms it prepared, the payment adapter was asked to lock the selected
    offer's amount for the selected provider and made the lock of that amount whose
    material the result carries; and the data and proof were read, under the request's
    own key, from an event that a subscription to that provider's key and this request
    delivered, and were approved by the schema's local verifier when there is one. *)
Theorem customer_result_backed R e result :
  outcome R (customer_request cfg req) e (Ok (inl result)) ->
  exists p lock e1,
    outcome R (prepare cfg req) e (Ok p) /\ lock_terms p /\
    outcome R (cc_bindProvider (cu_cashuClient cfg)
      (mkBindParams (cf_amountSats (pp_selected p)) (elements (rq_fundingProofs req)) (cf_providerPubkey (pp_selected p))
        (pp_hash p) (pp_locktimeSeconds p) (kp_publicKey (pp_identity p)) (kp_secretKey (pp_identity p)))) e1 (Ok lock) /\
    (ct_amountSats lock =ₙ cf_amountSats (pp_selected p)) = true /\
    carries_lock p lock (inl result) /\ result_backed p result.
Proof.
  intros Ho. apply outcome_await in Ho as (p & e1 & Hp & _ & Ho). apply outcome_await in Ho as (lock & e2 & Hb & _ & Ho).
  apply guarded_outcome in Ho as (x & Hx & Hc & Hr). injection Hx as <-. destruct (Hr _ eq_refl) as [Ha Hres].
  exists p, lock, e1. split_and!; try done. by eapply prepare_outcome.
Qed.

(** The default selector pays the cheapest provider: the chosen offer was signed
    by the provider it pays, is a positive integer within the limit, comes from
    the requested provider if one was requested, and no other acceptable offer
    received was cheaper. *)
Theorem default_selection_cheapest events total selected :
  (forall offers, cu_offerSelector cfg offers = Ok (selectCheapestOffer offers)) ->
  choose_offer cfg req (omap (keep_offer cfg req) events) total = Ok selected ->
  (exists event parsed, event ∈ events /\ parseOfferFeedbackEvent event = Some parsed /\
     cf_providerPubkey selected = ev_pubkey event /\ cf_amountSats selected = po_amount_sats parsed /\
     cf_offerEventId selected = ev_id event /\ forall p, rq_provider req = Some p -> p = ev_pubkey event) /\
  isInteger (cf_amountSats selected) = true /\ (cf_amountSats selected >ₙ num 0) = true /\
  (cf_amountSats selected >ₙ rq_maxAmount req) = false /\
  forall event o, event ∈ events -> keep_offer cfg req event = Some o -> (cf_amountSats o <ₙ cf_amountSats selected) = false.
Proof.
  intros Hsel (Hs & Hv & Hg)%choose_offer_Ok. rewrite Hsel in Hs. injection Hs as Hs.
  unfold isValidOfferAmount in Hv. apply andb_true_iff in Hv as [[_ Hint]%andb_true_iff Hpos].
  destruct (omap (keep_offer cfg req) events) as [|first rest] eqn:Ho; [done|]. simpl in Hs. injection Hs as Hs.
  assert (Hin : forall o, o ∈ first :: rest -> exists event, event ∈ events /\ keep_offer cfg req event = Some o).
  { intros o Hin. rewrite <- Ho in Hin. by apply list_elem_of_omap in Hin. }
  assert (Hfin : Forall (fun o => isFinite (cf_amountSats o) = true) (first :: rest)).
  { apply Forall_forall. intros o (event & _ & Hk)%Hin. by apply keep_offer_Some in Hk as (? & _ & _ & _ & _ & ? & _). }
  pose proof (cheapest_in rest first) as Hbest. rewrite Hs in Hbest. split_and!; [|done|done|done|].
  - destruct (Hin _ Hbest) as (event & Hev & Hk). apply keep_offer_Some in Hk as (parsed & Hp & H1 & H2 & H3 & _ & H4).
    by exists event, parsed.
  - intros event o Hev Hk. pose proof (cheapest_least rest first Hfin) as HF. rewrite Hs in HF. rewrite Forall_forall in HF.
    apply HF. rewrite <- Ho. apply list_elem_of_omap. by exists event.
Qed.
End spec.

(** ** The two sides of one exchange *)
Section exchange.
Context `{N : NostrLib} `{J : JSON} `{U : UrlApi} `{!NostrLaws N} `{!JSONLaws J}.
Context {E V G : Type}.

Context (cfg : CustomerConfig (E := E) (V := V)) (req : RequestOptions (E := E)) (p : Prepared) (lock : CashuToken).
Context (ctx : JobContext (E := E) (G := G)) (handler : ProviderRequestEvent (G := G) -> call E (option (ProviderOffer (E := E)))).

(** The notice a Customer publishes for the request it has prepared. *)
Definition customer_notice (notice_now date : number) : Event :=
  buildQueryRequestEvent (pp_identity p) (request_payload cfg req (pp_identity p) (pp_queryId p) (pp_oracle p) notice_now)
    (rq_regionCode req) date.

(** The two payloads are documents, with finite numbers, from keys that are pairs. *)
Definition exchange_sendable (notice_now : number) : Prop :=
  json_ok (VObj (set_field "version" (VNum (num QUERY_REQUEST_VERSION))
                   (request_fields (request_payload cfg req (pp_identity p) (pp_queryId p) (pp_oracle p) notice_now)))) /\
  isFinite (qr_expires_at (request_payload cfg req (pp_identity p) (pp_queryId p) (pp_oracle p) notice_now)) = true /\
  json_ok (VObj (set_field "version" (VNum (num SELECTION_FEEDBACK_VERSION))
                   (selection_fields (selection_payload cfg req p (ct_token lock))))) /\
  execution_sendable (sf_execution (selection_payload cfg req p (ct_token lock))) /\
  kp_publicKey (pp_identity p) = getPublicKey (kp_secretKey (pp_identity p)) /\
  kp_publicKey (jc_identity ctx) = getPublicKey (kp_secretKey (jc_identity ctx)).

(** What the selected Provider reads. *)
Lemma selection_read now selection notice_now :
  exchange_sendable notice_now ->
  buildSelectionFeedbackEvent (pp_identity p) (pp_requestEventId p) (selection_payload cfg req p (ct_token lock)) now = Ok selection ->
  findTagValue (ev_tags selection) "p" = Some (cf_providerPubkey (pp_selected p)) /\
  (cf_providerPubkey (pp_selected p) = kp_publicKey (jc_identity ctx) ->
   parseSelectionFeedbackEvent selection (kp_secretKey (jc_identity ctx)) (kp_publicKey (pp_identity p)) =
   Some (mkSelection (cf_providerPubkey (pp_selected p)) (ct_token lock)
           (execution_norm (sf_execution (selection_payload cfg req p (ct_token lock)))))).
Proof.
  intros (_ & _ & Hok & Hex & Hid & Hpk) Hb. split.
  - apply bind_Ok in Hb as (c & _ & Hev). injection Hev as <-. by rewrite ev_tags_signed.
  - intros Hsel. rewrite Hid. refine (selection_reads_back (pp_identity p) _ _ _ _ _ Hok Hex _ Hb). simpl. congruence.
Qed.

End exchange.

(** * Witnesses: the same three parties *)
Definition buyer : Keypair := mkKeypair (repeat 0%Z 31 ++ [3%Z]) "pk3".
Definition seller : Keypair := mkKeypair [2%Z] "pk2".
Definition seller_offer (amount : Z) : Event :=
  buildOfferFeedbackEvent (N := toy_nostr) (J := codec) seller "id" "pk3" (mkOfferPayload "pk2" (num amount)) (num 1000).
Definition seller_result : Event := event_of (buildQueryResponseEvent (N := toy_nostr) (J := codec) seller "id" "pk3"
  ProofSchema_TlsnV1 (VObj [("price", VNum (num 3))]) (inr "proof") (Some "pk9") (Some "q1") (num 1000)).
Definition buyer_config (inbox : list Event) : CustomerConfig (E := list Event) (V := unit) :=
  mkCustomer [("pk9", Some (fun _ => ret sample_hash))] "https://mint"
    (bundled_client (L := job_lib) (J := codec) (fun _ => Ok job_wallet) (fun _ => num 4000) "https://mint")
    (inbox_relay inbox) (num DEFAULT_OFFER_WINDOW_MS) (num DEFAULT_RESULT_TIMEOUT_MS) pickOracleForRequest
    (fun offers => Ok (selectCheapestOffer offers)) [tt] (fun _ _ => true) (fun _ => None) (fun _ _ _ _ => ret true) None
    (fun _ => num 4000000) (fun _ => num 4000000) (fun _ => num 4000000) (fun e => (e, "q1")) (fun e => (e, buyer)).
Definition buyer_request : RequestOptions (E := list Event) :=
  mkRequestOptions ProofSchema_TlsnV1 (VObj []) None None (num 21) None (VArr [funding_proof]) None None None.
Definition buy (inbox : list Event) :=
  run_call (customer_request (N := toy_nostr) (J := codec) (U := sample_urls) (buyer_config inbox) buyer_request) [].

Lemma customer_never_loses_lock_witness :
  exists p lock err, (buy [seller_offer 8]).2 = Ok (inr err) /\ carries_lock p lock (inr err) /\ ct_token lock = "cashuB:https://mint".
Proof.
  destruct (buy [seller_offer 8]).2 as [[result|err]|ex] eqn:Er; [vm_compute in Er; discriminate| |vm_compute in Er; discriminate].
  destruct (customer_never_loses_lock (N := toy_nostr) (J := codec) (U := sample_urls) (buyer_config [seller_offer 8]) buyer_request
    (fun _ => True) [] (Ok (inr err))) as (p & lock & _ & _ & Hc); [apply run_call_outcome; exact Er|].
  exists p, lock, err. split_and!; [reflexivity|exact Hc|]. destruct Hc as [<- _]. vm_compute in Er. injection Er as <-. reflexivity.
Defined.

Definition bought : RequestResult := match (buy [seller_offer 9; seller_offer 8; seller_result]).2 with
  | Ok (inl result) => result | _ => mkRequestResult VUndef "" "" "" None [] "" [] end.

Lemma customer_result_backed_witness :
  exists p event response,
    delivered (inbox_relay [seller_offer 9; seller_offer 8; seller_result])
      (mkFilter [KIND_QUERY_RESPONSE] (Some ["pk2"]) [("e", [pp_requestEventId p])]) (num DEFAULT_RESULT_TIMEOUT_MS) event /\
    parseQueryResponseEvent (N := toy_nostr) (J := codec) event (kp_secretKey (pp_identity p)) "pk2" = Some response /\
    rr_proof bought = rp_proof response /\ rr_providerPubkey bought = "pk2".
Proof.
  destruct (customer_result_backed (N := toy_nostr) (J := codec) (U := sample_urls)
    (buyer_config [seller_offer 9; seller_offer 8; seller_result]) buyer_request (fun _ => True) [] bought)
    as (p & lock & e1 & _ & _ & _ & _ & _ & event & response & H1 & _ & H3 & _ & H5 & _ & H7 & _);
    [apply run_call_outcome; vm_compute; reflexivity|].
  assert (Hpk : cf_providerPubkey (pp_selected p) = "pk2") by (rewrite <- H7; vm_compute; reflexivity).
  rewrite Hpk in H1, H3, H7. exists p, event, response. exact (conj H1 (conj H3 (conj H5 H7))).
Defined.

Lemma default_selection_cheapest_witness :
  (num 8 >ₙ num 21) = false /\
  forall o, keep_offer (J := codec) (buyer_config []) buyer_request (seller_offer 9) = Some o -> (cf_amountSats o <ₙ num 8) = false.
Proof.
  destruct (default_selection_cheapest (J := codec) (buyer_config []) buyer_request [seller_offer 9; seller_offer 8] 2
    (mkCustomerOffer "pk2" (num 8) "id" (num 4000000))) as (_ & _ & _ & H4 & H5); [reflexivity|vm_compute; reflexivity|].
  split; [exact H4|]. intros o Ho. exact (H5 (seller_offer 9) o ltac:(left) Ho).
Defined.

(** The exchange of [ProviderSpec], seen from the customer's side. *)
Definition buyer_prepared : Prepared :=
  mkPrepared (mkKeypair [3%Z] "pk3") "q1" "pk9" sample_hash "id" (mkCustomerOffer "pk2" (num 8) "id" (num 4000000)) (num 5000).
Definition buyer_notice_now : number := num (1800000000 - DEFAULT_OFFER_WINDOW_MS).
Definition accepted_params : VerifyProviderPaymentLockParams := mkLockParams "cashuB" (num 8) sample_hash "pk2" "pk3" (num 5000).

