(* ===== verification/UrlValidation.v ===== *)
(** * Attachment URLs

    [packages/sdk/src/attachments/url-validation.ts]: the guard that keeps
    server-side fetches away from loopback and private networks.  URL parsing is
    the platform's, through [UrlApi]; the patterns are modelled as the source
    writes them. *)

From S2P Require Import Prelude JsString SchemaUri.

(** ** Pieces of the patterns *)
Definition is_hex_lower (c : Ascii.ascii) : bool :=
  let n := code c in (Nat.leb 48 n && Nat.leb n 57) || (Nat.leb 97 n && Nat.leb n 102).

(** [class{1,k}] taken greedily, then what follows. *)
Fixpoint take_upto (k : nat) (p : Ascii.ascii -> bool) (l : list Ascii.ascii) : list Ascii.ascii * list Ascii.ascii :=
  match k, l with
  | S k', c :: l' => if p c then let '(a, b) := take_upto k' p l' in (c :: a, b) else ([], l)
  | _, _ => ([], l)
  end.

(** [class{1,k}] and the given separator. *)
Definition field (k : nat) (p : Ascii.ascii -> bool) (sep : nat) (l : list Ascii.ascii) : option (list Ascii.ascii * list Ascii.ascii) :=
  match take_upto k p l with
  | ((_ :: _) as a, c :: rest) => if Nat.eqb (code c) sep then Some (a, rest) else None
  | _ => None
  end.

Definition last_field (k : nat) (p : Ascii.ascii -> bool) (l : list Ascii.ascii) : option (list Ascii.ascii) :=
  match take_upto k p l with ((_ :: _) as a, []) => Some a | _ => None end.

(** [/^\d{1,3}\.\d{1,3}\.\d{1,3}\.\d{1,3}$/] *)
Definition is_dotted_quad (l : list Ascii.ascii) : bool :=
  match field 3 is_digit 46 l with
  | None => false
  | Some (_, l1) =>
  match field 3 is_digit 46 l1 with
  | None => false
  | Some (_, l2) =>
  match field 3 is_digit 46 l2 with
  | None => false
  | Some (_, l3) => match last_field 3 is_digit l3 with Some _ => true | None => false end
  end end end.

(** [/^([0-9a-f]{1,4}):([0-9a-f]{1,4})$/] *)
Definition hex_pair (l : list Ascii.ascii) : option (list Ascii.ascii * list Ascii.ascii) :=
  match field 4 is_hex_lower 58 l with
  | None => None
  | Some (hi, rest) => match last_field 4 is_hex_lower rest with Some lo => Some (hi, lo) | None => None end
  end.

(** What follows a literal prefix. *)
Definition after (p s : string) : option (list Ascii.ascii) :=
  if startsWith p s then Some (chars (slice (String.length p) s)) else None.

Definition parseInt16 (l : list Ascii.ascii) : Z := opt_default 0%Z (digits_value 16 digit_of 0 l).

(** ** The source *)

(** [/^172\.(1[6-9]|2\d|3[01])\./] *)
Definition matches_172 (s : string) : bool :=
  match after "172." s with
  | Some (a :: b :: dot :: _) =>
      Nat.eqb (code dot) 46 &&
      ((Nat.eqb (code a) 49 && (Nat.leb 54 (code b) && Nat.leb (code b) 57)) ||
       (Nat.eqb (code a) 50 && is_digit b) ||
       (Nat.eqb (code a) 51 && (Nat.eqb (code b) 48 || Nat.eqb (code b) 49)))
  | _ => false
  end.

Definition PRIVATE_IPV4_PATTERNS : list (string -> bool) :=
  [startsWith "127."; startsWith "10."; matches_172; startsWith "192.168."; startsWith "169.254."; startsWith "0."].

Definition matches_private (ipv4 : string) : bool := existsb (fun pattern => pattern ipv4) PRIVATE_IPV4_PATTERNS.

(** [hostname.slice(1, -1)] of a bracketed host. *)
Definition stripBrackets (hostname : string) : string :=
  if startsWith "[" hostname && (of_chars (rev (take 1 (rev (chars hostname)))) === "]")
  then of_chars (rev (drop 1 (rev (drop 1 (chars hostname))))) else hostname.

Definition dotted (a b c d : Z) : string := pretty a +:+ "." +:+ pretty b +:+ "." +:+ pretty c +:+ "." +:+ pretty d.

Definition isPrivateIp (hostname : string) : bool :=
  let raw := stripBrackets hostname in
  if raw === "::1" then true
  else
  let lower := toLowerCase raw in
  if startsWith "fe80:" lower then true
  else if startsWith "fc00:" lower || startsWith "fd00:" lower then true
  else
  match after "::ffff:" lower with
  | Some rest =>
      if is_dotted_quad rest then matches_private (of_chars rest)
      else
      match hex_pair rest with
      | Some (h, l) =>
          let hi := parseInt16 h in
          let lo := parseInt16 l in
          matches_private (dotted (Z.land (Z.shiftr hi 8) 255) (Z.land hi 255) (Z.land (Z.shiftr lo 8) 255) (Z.land lo 255))
      | None => matches_private raw
      end
  | None => matches_private raw
  end.

(** [/^127\.\d{1,3}\.\d{1,3}\.\d{1,3}$/], after a prefix. *)
Definition is_127_quad (l : list Ascii.ascii) : bool := startsWith "127." (of_chars l) && is_dotted_quad l.

Definition isLoopback (hostname : string) : bool :=
  let raw := toLowerCase (stripBrackets hostname) in
  (raw === "localhost") || (raw === "::1") || is_127_quad (chars raw) ||
  match after "::ffff:" raw with
  | Some rest =>
      is_127_quad rest ||
      (* 7f[0-9a-f]{2}:[0-9a-f]{1,4} *)
      match hex_pair rest with
      | Some (h, _) => Nat.eqb (length h) 4 && startsWith "7f" (of_chars h)
      | None => false
      end
  | None => false
  end.

Section validate.
Context `{U : UrlApi}.

(** [None]: valid; otherwise the error message. *)
Definition validateAttachmentUri (uri : string) (allowLocalhostAttachments : bool) : option string :=
  match URL_parse uri with
  | None => Some "Invalid URL"
  | Some parsed =>
  if (url_username parsed !== "") || (url_password parsed !== "") then
    Some "URLs with embedded credentials are not allowed"
  else
  let loopback := isLoopback (url_hostname parsed) in
  if loopback && negb allowLocalhostAttachments then
    Some "URLs pointing to localhost are not allowed (set ANCHR_ALLOW_LOCALHOST_ATTACHMENTS=1 for local development)"
  else if (url_protocol parsed === "http:") && negb loopback then Some "Only HTTPS URLs are allowed"
  else if (url_protocol parsed !== "https:") && (url_protocol parsed !== "http:") then Some "Only HTTPS URLs are allowed"
  else if negb loopback && isPrivateIp (url_hostname parsed) then
    Some "URLs pointing to private/internal networks are not allowed"
  else None
  end.
End validate.

(** ** Private addresses by their octets *)
Definition private_octets (a b : Z) : bool :=
  ((a =? 127) || (a =? 10) || ((a =? 172) && (16 <=? b) && (b <=? 31)) || ((a =? 192) && (b =? 168)) ||
   ((a =? 169) && (b =? 254)) || (a =? 0))%Z.

(** A pattern of the list looks at no more than the first two octets. *)
Fixpoint decides (p s : string) : bool :=
  match p, s with
  | String.EmptyString, _ => true
  | String.String a p', String.String b s' => if Ascii.eqb a b then decides p' s' else true
  | _, _ => false
  end.

Lemma startsWith_app p s rest : decides p s = true -> startsWith p (s +:+ rest) = startsWith p s.
Proof.
  unfold startsWith. revert s. induction p as [|a p IH]; intros s Hd.
  - by destruct s, rest.
  - destruct s as [|b s]; [done|]. change (String.String b s +:+ rest) with (String.String b (s +:+ rest)). cbn in Hd |- *. destruct (Ascii.ascii_dec a b) as [->|Hne].
    + rewrite Ascii.eqb_refl in Hd. by apply IH.
    + done.
Qed.

Lemma slice_app n s rest : (n <= String.length s)%nat -> slice n (s +:+ rest) = slice n s +:+ rest.
Proof.
  revert s. induction n as [|n IH]; intros s Hn; [done|]. destruct s as [|c s]; simpl in Hn; [lia|].
  change (String.String c s +:+ rest) with (String.String c (s +:+ rest)). cbn. apply IH. lia.
Qed.

Lemma startsWith_length p s : startsWith p s = true -> (String.length p <= String.length s)%nat.
Proof.
  unfold startsWith. revert s. induction p as [|a p IH]; intros [|b s]; cbn; try done; try lia.
  destruct (Ascii.ascii_dec a b); [|done]. intros H. specialize (IH s H). lia.
Qed.

Lemma after_app p s rest :
  decides p s = true -> after p (s +:+ rest) = option_map (fun l => l ++ chars rest) (after p s).
Proof.
  intros Hd. unfold after. rewrite (startsWith_app p s rest Hd). destruct (startsWith p s) eqn:Hp; [|done].
  cbn [option_map]. by rewrite slice_app, chars_app by (by apply startsWith_length).
Qed.

(** What [matches_172] answers on [s] whatever follows [s]. *)
Definition settled_172 (s : string) : bool :=
  decides "172." s &&
  match after "172." s with
  | None => true
  | Some (_ :: _ :: _ :: _) => true
  | Some [_; b] => Nat.eqb (code b) 46
  | Some _ => false
  end.

Lemma matches_172_app s rest : settled_172 s = true -> matches_172 (s +:+ rest) = matches_172 s.
Proof.
  unfold settled_172, matches_172. rewrite andb_true_iff. intros [Hd H].
  rewrite (after_app _ _ _ Hd). destruct (after "172." s) as [[|x [|y [|z l]]]|]; try done.
  apply Nat.eqb_eq in H. cbn [option_map app]. destruct (chars rest) as [|c l]; [done|].
  unfold is_digit. rewrite H. cbn. by rewrite !andb_false_r.
Qed.

Definition two_octets (a b : Z) : string := pretty a +:+ "." +:+ pretty b +:+ ".".

(** Every pattern of the list is settled by the first two octets, and the list
    agrees with the address ranges. *)
Definition octets_agree (a b : Z) : bool :=
  let s := two_octets a b in
  forallb (fun p => decides p s) ["127."; "10."; "192.168."; "169.254."; "0."] && settled_172 s &&
  Bool.eqb (matches_private s) (private_octets a b).

Definition octets : list Z := map Z.of_nat (seq 0 256).

Lemma all_octets_agree : forallb (fun a => forallb (octets_agree a) octets) octets = true.
Proof. vm_compute. reflexivity. Qed.

Lemma in_octets a : (0 <= a < 256)%Z -> In a octets.
Proof. intros H. apply in_map_iff. exists (Z.to_nat a). split; [lia|]. apply in_seq. lia. Qed.

Lemma str_app_assoc (s t u : string) : (s +:+ t) +:+ u = s +:+ (t +:+ u).
Proof.
  induction s as [|x s IH]; [done|]. change (String.String x ((s +:+ t) +:+ u) = String.String x (s +:+ (t +:+ u))).
  by rewrite IH.
Qed.

Lemma dotted_split a b c d : dotted a b c d = two_octets a b +:+ (pretty c +:+ "." +:+ pretty d).
Proof. unfold dotted, two_octets. by rewrite !str_app_assoc. Qed.

(** The pattern list recognises exactly the private ranges on four octets. *)
Lemma matches_private_dotted a b c d :
  (0 <= a < 256)%Z -> (0 <= b < 256)%Z -> matches_private (dotted a b c d) = private_octets a b.
Proof.
  intros Ha Hb. pose proof all_octets_agree as H. rewrite forallb_forall in H.
  specialize (H a (in_octets a Ha)). rewrite forallb_forall in H. specialize (H b (in_octets b Hb)).
  unfold octets_agree in H. rewrite !andb_true_iff in H. destruct H as [[Hd H172] Hm].
  apply eqb_prop in Hm. rewrite <- Hm, dotted_split. cbn [forallb] in Hd.
  rewrite !andb_true_iff in Hd. destruct Hd as (H1 & H2 & H3 & H4 & H5 & _).
  unfold matches_private, PRIVATE_IPV4_PATTERNS. cbn [existsb].
  by rewrite !startsWith_app, matches_172_app.
Qed.

(** ** Spellings of an IPv4 address

    The URL parser hands the guard an IPv4 address in dotted form, or mapped into
    IPv6 with the address in dotted or in hexadecimal form. *)
Definition hex_lower_digit (d : Z) : Ascii.ascii := Ascii.ascii_of_nat (Z.to_nat (if (d <? 10)%Z then 48 + d else 87 + d)).

Fixpoint hex_go (fuel : nat) (z : Z) (acc : list Ascii.ascii) : list Ascii.ascii :=
  match fuel with
  | 0%nat => acc
  | S fuel' => if (z <? 16)%Z then hex_lower_digit z :: acc else hex_go fuel' (z / 16)%Z (hex_lower_digit (z mod 16)%Z :: acc)
  end.

Definition hex16 (z : Z) : string := of_chars (hex_go 4 z []).

Inductive ipv4_spelling : Z -> Z -> Z -> Z -> string -> Prop :=
| spell_dotted a b c d : ipv4_spelling a b c d (dotted a b c d)
| spell_mapped a b c d : ipv4_spelling a b c d ("[" +:+ ("::ffff:" +:+ dotted a b c d) +:+ "]")
| spell_hex a b c d :
    ipv4_spelling a b c d ("[" +:+ ("::ffff:" +:+ hex16 (256 * a + b) +:+ ":" +:+ hex16 (256 * c + d)) +:+ "]").

Definition octet (a : Z) : Prop := (0 <= a < 256)%Z.

(** *** Enumerated facts *)
Lemma starts_127 a b c d : octet a -> startsWith "127." (dotted a b c d) = (a =? 127)%Z.
Proof.
  intros H. assert (Hall : forallb (fun a => let s := pretty a +:+ "." in
      decides "127." s && Bool.eqb (startsWith "127." s) (a =? 127)%Z) octets = true) by (vm_compute; reflexivity).
  rewrite forallb_forall in Hall. specialize (Hall a (in_octets a H)). apply andb_true_iff in Hall as [Hd He].
  unfold dotted. rewrite <- str_app_assoc, startsWith_app by done. by apply eqb_prop.
Qed.

Definition decimal_octet_ok (a : Z) : bool :=
  let l := chars (pretty a) in
  forallb is_digit l && Nat.leb 1 (length l) && Nat.leb (length l) 3.

Lemma octet_decimal a : octet a -> decimal_octet_ok a = true.
Proof.
  intros H. assert (Hall : forallb decimal_octet_ok octets = true) by (vm_compute; reflexivity).
  rewrite forallb_forall in Hall. by apply Hall, in_octets.
Qed.

Definition hex_word_ok (z : Z) : bool :=
  let l := chars (hex16 z) in
  forallb is_hex_lower l && Nat.leb 1 (length l) && Nat.leb (length l) 4 && (parseInt16 l =? z)%Z &&
  Bool.eqb (Nat.eqb (length l) 4 && startsWith "7f" (of_chars l)) (z / 256 =? 127)%Z.

Lemma hex_words : forallb (fun a => forallb (fun b => hex_word_ok (256 * a + b)) octets) octets = true.
Proof. vm_compute. reflexivity. Qed.

Lemma hex_word a b : octet a -> octet b -> hex_word_ok (256 * a + b) = true.
Proof.
  intros Ha Hb. pose proof hex_words as H. rewrite forallb_forall in H.
  specialize (H a (in_octets a Ha)). rewrite forallb_forall in H. by apply (H b), in_octets.
Qed.

(** *** Reading fields back *)
Definition dot_char : Ascii.ascii := Ascii.ascii_of_nat 46.
Definition colon_char : Ascii.ascii := Ascii.ascii_of_nat 58.

Lemma take_upto_app k p l rest :
  forallb p l = true -> (length l <= k)%nat -> hd_error rest = None \/ (exists c r, rest = c :: r /\ p c = false) ->
  take_upto k p (l ++ rest) = (l, rest).
Proof.
  intros Hp Hk Hr. revert k Hk. induction l as [|c l IH]; intros k Hk.
  - destruct k as [|k], rest as [|c r]; try done. destruct Hr as [?|(? & ? & [= <- <-] & Hc)]; [done|]. cbn. by rewrite Hc.
  - destruct k as [|k]; simpl in Hk; [lia|]. cbn in *. apply andb_true_iff in Hp as [Hc Hp]. rewrite Hc.
    by rewrite IH by (done || lia).
Qed.

Lemma field_app k p c l rest :
  forallb p l = true -> (1 <= length l <= k)%nat -> p c = false ->
  field k p (code c) (l ++ c :: rest) = Some (l, rest).
Proof.
  intros Hp Hk Hc. unfold field. rewrite take_upto_app; [|done|lia|by right; eexists _, _].
  destruct l; simpl in Hk; [lia|]. by rewrite Nat.eqb_refl.
Qed.

Lemma last_field_all k p l : forallb p l = true -> (1 <= length l <= k)%nat -> last_field k p l = Some l.
Proof.
  intros Hp Hk. unfold last_field. rewrite <- (app_nil_r l) at 1. rewrite take_upto_app; [|done|lia|by left].
  destruct l; simpl in Hk; [lia|done].
Qed.

Lemma toLowerCase_id s : forallb (fun c => Ascii.eqb (lower_char c) c) (chars s) = true -> toLowerCase s = s.
Proof.
  induction s as [|c s IH]; [done|]. cbn. rewrite andb_true_iff. intros [Hc Hs].
  apply Ascii.eqb_eq in Hc. by rewrite Hc, IH.
Qed.

Lemma stripBrackets_wrap s : stripBrackets ("[" +:+ s +:+ "]") = s.
Proof.
  unfold stripBrackets. assert (Hs : startsWith "[" ("[" +:+ s +:+ "]") = true) by (destruct s; done).
  rewrite Hs, !chars_app. destruct (chars "[") as [|o []] eqn:Ho; [done| |done].
  destruct (chars "]") as [|c []] eqn:Hc; [done| |done]. cbn [app].
  rewrite app_comm_cons, rev_unit. cbn [take]. assert (Hr : of_chars (rev [c]) = "]") by by rewrite <- Hc.
  rewrite firstn_O, Hr, bool_decide_true by done. cbn [andb app].
  change (drop 1 (o :: chars s ++ [c])) with (chars s ++ [c]). rewrite rev_unit.
  change (drop 1 (c :: rev (chars s))) with (rev (chars s)). by rewrite rev_involutive, of_chars_chars.
Qed.

(** The text of an octet, and the tests every spelling passes through. *)
Lemma octet_text a : octet a -> forallb is_digit (chars (pretty a)) = true /\ (1 <= length (chars (pretty a)) <= 3)%nat.
Proof.
  intros H. pose proof (octet_decimal a H) as Hd. unfold decimal_octet_ok in Hd. rewrite !andb_true_iff, !Nat.leb_le in Hd.
  tauto.
Qed.

Lemma dotted_chars a b c d :
  chars (dotted a b c d) = chars (pretty a) ++ dot_char :: chars (pretty b) ++ dot_char :: chars (pretty c) ++ dot_char :: chars (pretty d).
Proof. unfold dotted. by rewrite !chars_app. Qed.

Lemma dotted_is_quad a b c d : octet a -> octet b -> octet c -> octet d -> is_dotted_quad (chars (dotted a b c d)) = true.
Proof.
  intros Ha Hb Hc Hd. apply octet_text in Ha as [Ha La], Hb as [Hb Lb], Hc as [Hc Lc], Hd as [Hd Ld].
  unfold is_dotted_quad. rewrite dotted_chars. change 46%nat with (code dot_char).
  by rewrite !field_app, last_field_all.
Qed.

Definition lower_ok (c : Ascii.ascii) : bool := Ascii.eqb (lower_char c) c.

Lemma digits_lower l : forallb is_digit l = true -> forallb lower_ok l = true.
Proof.
  rewrite !forallb_forall. intros H c Hc. specialize (H c Hc). revert H. clear.
  destruct c as [[] [] [] [] [] [] [] []]; vm_compute; congruence.
Qed.

Lemma hex_lower l : forallb is_hex_lower l = true -> forallb lower_ok l = true.
Proof.
  rewrite !forallb_forall. intros H c Hc. specialize (H c Hc). revert H. clear.
  destruct c as [[] [] [] [] [] [] [] []]; vm_compute; congruence.
Qed.

Lemma digits_hex l : forallb is_digit l = true -> forallb is_hex_lower l = true.
Proof.
  rewrite !forallb_forall. intros H c Hc. specialize (H c Hc). revert H. clear.
  destruct c as [[] [] [] [] [] [] [] []]; vm_compute; congruence.
Qed.

Lemma forallb_impl {A} (p q : A -> bool) l : (forall x, p x = true -> q x = true) -> forallb p l = true -> forallb q l = true.
Proof. rewrite !forallb_forall. eauto. Qed.

(** A dotted quad contains digits and dots only. *)
Lemma take_upto_app_eq k p l : fst (take_upto k p l) ++ snd (take_upto k p l) = l.
Proof.
  revert k. induction l as [|c l IH]; intros [|k]; try done. cbn. destruct (p c); [|done].
  specialize (IH k). destruct (take_upto k p l). cbn in *. by rewrite IH.
Qed.

Lemma take_upto_all k p l : forallb p (fst (take_upto k p l)) = true.
Proof.
  revert k. induction l as [|c l IH]; intros [|k]; try done. cbn. destruct (p c) eqn:Hc; [|done].
  specialize (IH k). destruct (take_upto k p l). cbn in *. by rewrite Hc.
Qed.

Definition quad_char (c : Ascii.ascii) : bool := is_digit c || Nat.eqb (code c) 46.

Lemma field_quad k l a rest :
  field k is_digit 46 l = Some (a, rest) -> forallb quad_char rest = true -> forallb quad_char l = true.
Proof.
  unfold field. pose proof (take_upto_app_eq k is_digit l) as He. pose proof (take_upto_all k is_digit l) as Ha.
  destruct (take_upto k is_digit l) as [[|x xs] [|c r]]; try done. destruct (Nat.eqb (code c) 46) eqn:Hc; [|done].
  intros [= <- <-] Hr. rewrite <- He. cbn [fst snd] in *. rewrite forallb_app. apply andb_true_intro. split.
  - eapply forallb_impl; [|exact Ha]. intros y Hy. unfold quad_char. by rewrite Hy.
  - cbn. unfold quad_char at 1. by rewrite Hc, orb_true_r.
Qed.

Lemma quad_chars l : is_dotted_quad l = true -> forallb quad_char l = true.
Proof.
  unfold is_dotted_quad. destruct (field 3 is_digit 46 l) as [[a l1]|] eqn:E1; [|done].
  destruct (field 3 is_digit 46 l1) as [[b l2]|] eqn:E2; [|done].
  destruct (field 3 is_digit 46 l2) as [[c l3]|] eqn:E3; [|done]. intros Hl.
  eapply field_quad, field_quad, field_quad; eauto. clear -Hl. unfold last_field in Hl.
  pose proof (take_upto_app_eq 3 is_digit l3) as He. pose proof (take_upto_all 3 is_digit l3) as Ha.
  destruct (take_upto 3 is_digit l3) as [[|x xs] [|y r]]; try done. cbn [fst snd] in *. rewrite <- He, app_nil_r.
  eapply forallb_impl; [|exact Ha]. intros z Hz. unfold quad_char. by rewrite Hz.
Qed.

Lemma colon_not_quad l r : is_dotted_quad (l ++ colon_char :: r) = false.
Proof.
  destruct (is_dotted_quad (l ++ colon_char :: r)) eqn:E; [|done]. apply quad_chars in E.
  rewrite forallb_app in E. apply andb_true_iff in E as [_ E]. done.
Qed.

Lemma dotted_lower a b c d : octet a -> octet b -> octet c -> octet d -> forallb lower_ok (chars (dotted a b c d)) = true.
Proof.
  intros Ha Hb Hc Hd. apply octet_text in Ha as [Ha _], Hb as [Hb _], Hc as [Hc _], Hd as [Hd _].
  rewrite dotted_chars. repeat (rewrite forallb_app || cbn [forallb]). by rewrite !digits_lower.
Qed.

(** A host that starts with a digit takes none of the IPv6 branches. *)
Lemma digit_host c t :
  is_digit c = true -> forallb lower_ok (c :: chars t) = true ->
  let s := String.String c t in
  stripBrackets s = s /\ toLowerCase s = s /\ (s === "::1") = false /\ (s === "localhost") = false /\
  startsWith "fe80:" s = false /\ startsWith "fc00:" s = false /\ startsWith "fd00:" s = false /\ after "::ffff:" s = None.
Proof.
  intros Hc Hl. cbv zeta. split; [|split; [by apply toLowerCase_id|]].
  - unfold stripBrackets. assert (startsWith "[" (String.String c t) = false) as ->; [|done].
    revert Hc. clear. destruct c as [[] [] [] [] [] [] [] []]; vm_compute; congruence.
  - rewrite !bool_decide_eq_false. revert Hc. clear. unfold after, startsWith.
    destruct c as [[] [] [] [] [] [] [] []]; try (vm_compute; congruence); intros _; cbn; by split_and!.
Qed.

Lemma dotted_digit_host a b c d :
  octet a -> octet b -> octet c -> octet d ->
  exists x t, dotted a b c d = String.String x t /\ is_digit x = true /\ forallb lower_ok (x :: chars t) = true.
Proof.
  intros Ha Hb Hc Hd. pose proof (dotted_lower a b c d Ha Hb Hc Hd) as Hl. apply octet_text in Ha as [Ha La].
  unfold dotted in *. destruct (pretty a) as [|x p]; [simpl in La; lia|].
  exists x, (p +:+ "." +:+ pretty b +:+ "." +:+ pretty c +:+ "." +:+ pretty d). split_and!; [done| |exact Hl].
  cbn in Ha. by apply andb_true_iff in Ha as [? _].
Qed.

(** The same for the mapped forms: what follows the prefix is what is judged. *)
Lemma mapped_host rest :
  forallb lower_ok (chars rest) = true ->
  let s := "::ffff:" +:+ rest in
  toLowerCase s = s /\ (s === "::1") = false /\ (s === "localhost") = false /\
  startsWith "fe80:" s = false /\ startsWith "fc00:" s = false /\ startsWith "fd00:" s = false /\
  after "::ffff:" s = Some (chars rest).
Proof.
  intros Hl. cbv zeta. split; [apply toLowerCase_id; rewrite chars_app, forallb_app; by apply andb_true_intro|].
  rewrite !bool_decide_eq_false. split_and!; try done. unfold after.
  assert (startsWith "::ffff:" ("::ffff:" +:+ rest) = true) as ->; [by destruct rest|done].
Qed.

(** ** The guard on the spellings of an IPv4 address *)
Lemma private_dotted a b c d :
  octet a -> octet b -> octet c -> octet d ->
  isPrivateIp (dotted a b c d) = private_octets a b /\ isLoopback (dotted a b c d) = (a =? 127)%Z.
Proof.
  intros Ha Hb Hc Hd. destruct (dotted_digit_host a b c d Ha Hb Hc Hd) as (x & t & Hs & Hx & Hl).
  destruct (digit_host x t Hx Hl) as (H1 & H2 & H3 & H4 & H5 & H6 & H7 & H8). rewrite <- Hs in *.
  split.
  - unfold isPrivateIp. rewrite H1, H2, H3, H5, H6, H7, H8. by apply matches_private_dotted.
  - unfold isLoopback. rewrite H1, H2, H3, H4, H8. cbn [orb]. rewrite orb_false_r.
    unfold is_127_quad. rewrite dotted_is_quad, of_chars_chars, andb_true_r by done. by apply starts_127.
Qed.

Lemma private_mapped a b c d :
  octet a -> octet b -> octet c -> octet d ->
  let s := "[" +:+ ("::ffff:" +:+ dotted a b c d) +:+ "]" in
  isPrivateIp s = private_octets a b /\ isLoopback s = (a =? 127)%Z.
Proof.
  intros Ha Hb Hc Hd. destruct (mapped_host _ (dotted_lower a b c d Ha Hb Hc Hd)) as (H2 & H3 & H4 & H5 & H6 & H7 & H8).
  pose proof (dotted_is_quad a b c d Ha Hb Hc Hd) as Hq. cbv zeta. split.
  - unfold isPrivateIp. rewrite stripBrackets_wrap, H2, H3, H5, H6, H7, H8, Hq, of_chars_chars. by apply matches_private_dotted.
  - unfold isLoopback. rewrite stripBrackets_wrap, H2, H3, H4, H8. unfold is_127_quad.
    rewrite !of_chars_chars, Hq, andb_true_r, (starts_127 a b c d Ha). cbn [orb].
    assert (startsWith "127." ("::ffff:" +:+ dotted a b c d) = false) as -> by done. cbn [andb orb].
    assert (hex_pair (chars (dotted a b c d)) = None) as ->; [|by rewrite orb_false_r].
    destruct (octet_text a Ha) as [Hda Hla]. unfold hex_pair, field. rewrite dotted_chars, take_upto_app; cycle 1.
    + by apply digits_hex.
    + lia.
    + right. by eexists _, _.
    + by destruct (chars (pretty a)).
Qed.

Lemma hex_text a b :
  octet a -> octet b ->
  let l := chars (hex16 (256 * a + b)) in
  forallb is_hex_lower l = true /\ (1 <= length l <= 4)%nat /\ parseInt16 l = (256 * a + b)%Z /\
  (Nat.eqb (length l) 4 && startsWith "7f" (of_chars l)) = (a =? 127)%Z.
Proof.
  intros Ha Hb. pose proof (hex_word a b Ha Hb) as H. unfold hex_word_ok in H.
  rewrite !andb_true_iff, !Nat.leb_le, Z.eqb_eq in H. destruct H as [[[[H1 H2] H3] H4] H5]. apply eqb_prop in H5.
  cbv zeta. split_and!; try done. rewrite H5. unfold octet in *. f_equal.
  rewrite Z.mul_comm, Z.div_add_l by lia. rewrite Z.div_small by lia. lia.
Qed.

Lemma octet_bytes a b : octet a -> octet b ->
  Z.land (Z.shiftr (256 * a + b) 8) 255 = a /\ Z.land (256 * a + b) 255 = b.
Proof.
  unfold octet. intros Ha Hb. change 255%Z with (Z.ones 8). rewrite !Z.land_ones, Z.shiftr_div_pow2 by lia.
  change (2 ^ 8)%Z with 256%Z. rewrite Z.mul_comm, Z.div_add_l by lia. rewrite (Z.div_small b), Z.add_0_r by lia.
  split; [by apply Z.mod_small|]. rewrite Z.add_comm, Z.mod_add by lia. by apply Z.mod_small.
Qed.

Lemma private_hex a b c d :
  octet a -> octet b -> octet c -> octet d ->
  let s := "[" +:+ ("::ffff:" +:+ hex16 (256 * a + b) +:+ ":" +:+ hex16 (256 * c + d)) +:+ "]" in
  isPrivateIp s = private_octets a b /\ isLoopback s = (a =? 127)%Z.
Proof.
  intros Ha Hb Hc Hd. cbv zeta. destruct (hex_text a b Ha Hb) as (Hh & Lh & Ph & Sh).
  destruct (hex_text c d Hc Hd) as (Hl & Ll & Pl & _).
  set (h := hex16 (256 * a + b)) in *. set (l := hex16 (256 * c + d)) in *.
  assert (Hchars : chars (h +:+ ":" +:+ l) = chars h ++ colon_char :: chars l) by by rewrite !chars_app.
  assert (Hlow : forallb lower_ok (chars (h +:+ ":" +:+ l)) = true).
  { rewrite Hchars, forallb_app. cbn [forallb]. by rewrite !hex_lower. }
  destruct (mapped_host _ Hlow) as (H2 & H3 & H4 & H5 & H6 & H7 & H8).
  assert (Hp : hex_pair (chars (h +:+ ":" +:+ l)) = Some (chars h, chars l)).
  { unfold hex_pair. rewrite Hchars. change 58%nat with (code colon_char). by rewrite field_app, last_field_all. }
  assert (Hq : is_dotted_quad (chars (h +:+ ":" +:+ l)) = false) by (rewrite Hchars; by apply colon_not_quad).
  split.
  - unfold isPrivateIp. rewrite stripBrackets_wrap, H2, H3, H5, H6, H7, H8, Hq, Hp, Ph, Pl. cbv zeta. cbn [orb].
    destruct (octet_bytes a b Ha Hb) as [-> ->]. by apply matches_private_dotted.
  - unfold isLoopback. rewrite stripBrackets_wrap, H2, H3, H4, H8, Hp, Sh. unfold is_127_quad. rewrite Hq, !of_chars_chars.
    assert (startsWith "127." ("::ffff:" +:+ h +:+ ":" +:+ l) = false) as -> by done. cbn [andb orb].
    by rewrite andb_false_r.
Qed.

(** ** The guard *)

(** An IPv4 address is judged by its first two octets, in every spelling the
    URL parser can produce: written out, mapped into IPv6 in dotted form, or
    mapped in hexadecimal form.  It is private exactly when it lies in one of the
    documented ranges, and loopback exactly when its first octet is 127. *)
Theorem spellings_judged_alike a b c d host :
  octet a -> octet b -> octet c -> octet d -> ipv4_spelling a b c d host ->
  isPrivateIp host = private_octets a b /\ isLoopback host = (a =? 127)%Z.
Proof.
  intros Ha Hb Hc Hd Hs. destruct Hs.
  - by apply private_dotted.
  - by apply private_mapped.
  - by apply private_hex.
Qed.

Lemma spellings_judged_alike_witness :
  isPrivateIp "[::ffff:ac10:a01]" = true /\ isLoopback "[::ffff:ac10:a01]" = false.
Proof.
  apply (spellings_judged_alike 172 16 10 1 "[::ffff:ac10:a01]"); try (unfold octet; lia).
  exact (spell_hex 172 16 10 1).
Defined.

Section guard.
Context `{U : UrlApi}.

(** C21: A URL the guard lets through carries no credentials, is HTTPS unless it
    is an opted-in loopback URL, and does not name a private IPv4 address in any
    spelling, except a loopback address under the opt-in. *)
Theorem accepted_url_is_public uri allow :
  validateAttachmentUri uri allow = None ->
  exists parsed, URL_parse uri = Some parsed /\ url_username parsed = "" /\ url_password parsed = "" /\
    (url_protocol parsed = "https:" \/ (url_protocol parsed = "http:" /\ isLoopback (url_hostname parsed) = true /\ allow = true)) /\
    (forall a b c d, octet a -> octet b -> octet c -> octet d -> ipv4_spelling a b c d (url_hostname parsed) ->
       private_octets a b = true -> a = 127%Z /\ allow = true).
Proof.
  unfold validateAttachmentUri. destruct (URL_parse uri) as [u|]; [|done].
  destruct ((url_username u !== "") || (url_password u !== "")) eqn:Hcred; [done|].
  apply orb_false_iff in Hcred as [Hu Hp]. rewrite !negb_false_iff, !bool_decide_eq_true in Hu, Hp. cbv zeta.
  destruct (isLoopback (url_hostname u) && negb allow) eqn:Hloop; [done|].
  destruct ((url_protocol u === "http:") && negb (isLoopback (url_hostname u))) eqn:Hhttp; [done|].
  destruct ((url_protocol u !== "https:") && (url_protocol u !== "http:")) eqn:Hproto; [done|].
  destruct (negb (isLoopback (url_hostname u)) && isPrivateIp (url_hostname u)) eqn:Hpriv; [done|]. intros _.
  exists u. split_and!; try done.
  - destruct (bool_decide_reflect (url_protocol u = "https:")) as [|Hn]; [by left|right]. cbn in Hproto.
    destruct (bool_decide_reflect (url_protocol u = "http:")) as [He|]; [|done]. cbn in Hhttp.
    destruct (isLoopback (url_hostname u)), allow; done.
  - intros a b c d Ha Hb Hc Hd Hs Hr.
    assert (isPrivateIp (url_hostname u) = private_octets a b /\ isLoopback (url_hostname u) = (a =? 127)%Z) as [E1 E2].
    { destruct Hs; [by apply private_dotted|by apply private_mapped|by apply private_hex]. }
    rewrite E1, E2, Hr in *. destruct (Z.eqb_spec a 127), allow; done.
Qed.

End guard.

Definition sample_url_api : UrlApi := fun s =>
  if s === "https://203.0.113.7/a.png" then
    Some {| url_protocol := "https:"; url_username := ""; url_password := ""; url_hostname := "203.0.113.7";
            url_pathname := "/a.png"; url_search := ""; url_hash := "" |}
  else None.

Lemma accepted_url_is_public_witness :
  exists parsed, URL_parse (UrlApi := sample_url_api) "https://203.0.113.7/a.png" = Some parsed /\ url_protocol parsed = "https:".
Proof.
  destruct (accepted_url_is_public (U := sample_url_api) "https://203.0.113.7/a.png" false) as (u & Hu & _ & _ & _ & _).
  - vm_compute. reflexivity.
  - exists u. split; [exact Hu|]. revert Hu. vm_compute. by intros [= <-].
Defined.

(** The unique-local block is [fc00::/7] and the link-local block [fe80::/10]:
    the guard tests three of their prefixes only, so other private IPv6 addresses
    and the unspecified address pass as public. *)
Example private_ipv6_passes :
  map isPrivateIp ["[fd12:3456:789a::1]"; "[fe90::1]"; "[::]"; "[fd00::1]"] = [false; false; false; true].
Proof. vm_compute. reflexivity. Qed.
