(* ===== verification/Exif.v ===== *)
(** * EXIF metadata

    The parser of [packages/sdk/src/proofs/exif-validation.ts]: locating the APP1
    segment of a JPEG, walking its TIFF directories and reading the camera, time
    and position fields.  Offsets are integers; a typed read outside the buffer
    throws a [RangeError], as [Buffer] does. *)

From S2P Require Import Prelude JsNum JsString JsFloat.

Local Open Scope Z_scope.

(** ** Buffers *)
Definition bytes := list Z.

Definition buf_length (buf : bytes) : Z := Z.of_nat (length buf).

(** [buf[i]], [undefined] outside. *)
Definition byte_at (buf : bytes) (i : Z) : option Z := if i <? 0 then None else buf !! Z.to_nat i.

Definition out_of_range : exn := mkExn "RangeError" "The value of offset is out of range".

(** [k] bytes at [offset], or the [RangeError] of a typed read. *)
Definition read_bytes (buf : bytes) (offset k : Z) : res (list Z) :=
  if (0 <=? offset) && (offset + k <=? buf_length buf)
  then Ok (take (Z.to_nat k) (drop (Z.to_nat offset) buf)) else Throw out_of_range.

Definition be_value (l : list Z) : Z := fold_left (fun acc b => acc * 256 + b) l 0.
Definition le_value (l : list Z) : Z := be_value (rev l).

Definition readUInt16BE (buf : bytes) (offset : Z) : res Z := l ← read_bytes buf offset 2; Ok (be_value l).
Definition readUInt16LE (buf : bytes) (offset : Z) : res Z := l ← read_bytes buf offset 2; Ok (le_value l).
Definition readUInt32BE (buf : bytes) (offset : Z) : res Z := l ← read_bytes buf offset 4; Ok (be_value l).
Definition readUInt32LE (buf : bytes) (offset : Z) : res Z := l ← read_bytes buf offset 4; Ok (le_value l).

(** [buf.subarray(start, end)] for non-negative positions. *)
Definition subarray (buf : bytes) (start stop : Z) : bytes :=
  take (Z.to_nat (stop - start)) (drop (Z.to_nat start) buf).

(** [toString("ascii")]: the low seven bits of each byte. *)
Definition ascii_text (l : bytes) : string := of_chars (map (fun b => Ascii.ascii_of_nat (Z.to_nat (Z.land b 127))) l).

(** [s.replace(/\0+$/, "")] *)
Fixpoint drop_nuls (l : list Ascii.ascii) : list Ascii.ascii :=
  match l with c :: l' => if Nat.eqb (code c) 0 then drop_nuls l' else l | [] => [] end.
Definition strip_nuls (s : string) : string := of_chars (rev (drop_nuls (rev (chars s)))).

(** [ToInt32], and the bitwise operators on it. *)
Definition to_int32 (z : Z) : Z := let w := z mod 2 ^ 32 in if w <? 2 ^ 31 then w else w - 2 ^ 32.
Definition bit_and (a b : Z) : Z := to_int32 (Z.land (to_int32 a) (to_int32 b)).
Definition shift_right (a n : Z) : Z := Z.shiftr (to_int32 a) n.

(** ** Constants and data *)
Definition JPEG_SOI := 0xffd8.
Definition JPEG_APP1 := 0xffe1.
Definition TAG_MAKE := 0x010f.
Definition TAG_MODEL := 0x0110.
Definition TAG_DATETIME := 0x0132.
Definition TAG_EXIF_IFD := 0x8769.
Definition TAG_GPS_IFD := 0x8825.
Definition TAG_DATETIME_ORIGINAL := 0x9003.
Definition TAG_GPS_LAT_REF := 1.
Definition TAG_GPS_LAT := 2.
Definition TAG_GPS_LON_REF := 3.
Definition TAG_GPS_LON := 4.
Definition TYPE_ASCII := 2.
Definition TYPE_SHORT := 3.
Definition TYPE_LONG := 4.
Definition TYPE_RATIONAL := 5.

Record Gps := mkGps { gps_lat : number; gps_lon : number }.

Record ExifMetadata := mkExif {
  em_make : option string;
  em_model : option string;
  em_dateTime : option string;
  em_dateTimeOriginal : option string;
  em_gps : option Gps;
}.

Record IfdEntry := mkEntry { ie_tag : Z; ie_type : Z; ie_count : Z; ie_valueOffset : Z }.

(** ** Typed reads *)
Definition readU16 (buf : bytes) (offset : Z) (le : bool) : res Z :=
  if le then readUInt16LE buf offset else readUInt16BE buf offset.
Definition readU32 (buf : bytes) (offset : Z) (le : bool) : res Z :=
  if le then readUInt32LE buf offset else readUInt32BE buf offset.

Definition readAscii (buf : bytes) (tiffBase offset count : Z) : string :=
  let start := tiffBase + offset in
  if buf_length buf <? start + count then ""
  else strip_nuls (ascii_text (subarray buf start (start + count))).

Definition readRational (buf : bytes) (tiffBase offset : Z) (le : bool) : res number :=
  let pos := tiffBase + offset in
  if buf_length buf <? pos + 8 then Ok (num 0)
  else
    n ← readU32 buf pos le;
    d ← readU32 buf (pos + 4) le;
    Ok (if d =? 0 then num 0 else fdiv (num n) (num d)).

Definition readGpsCoord (buf : bytes) (tiffBase offset : Z) (le : bool) : res number :=
  deg ← readRational buf tiffBase offset le;
  min ← readRational buf tiffBase (offset + 8) le;
  sec ← readRational buf tiffBase (offset + 16) le;
  Ok (fadd (fadd deg (fdiv min (num 60))) (fdiv sec (num 3600))).

(** ** Directories *)
Definition readEntry (buf : bytes) (entryPos : Z) (le : bool) : res IfdEntry :=
  tag ← readU16 buf entryPos le;
  type ← readU16 buf (entryPos + 2) le;
  count ← readU32 buf (entryPos + 4) le;
  valueOffset ← readU32 buf (entryPos + 8) le;
  Ok (mkEntry tag type count valueOffset).

(** The loop from entry [i], [todo] entries left. *)
Fixpoint read_entries (buf : bytes) (pos : Z) (le : bool) (todo : nat) (i : Z) : res (list IfdEntry) :=
  match todo with
  | O => Ok []
  | S todo' =>
      let entryPos := pos + 2 + i * 12 in
      if buf_length buf <? entryPos + 12 then Ok []
      else
        e ← readEntry buf entryPos le;
        rest ← read_entries buf pos le todo' (i + 1);
        Ok (e :: rest)
  end.

Definition readIfdEntries (buf : bytes) (tiffBase ifdOffset : Z) (le : bool) : res (list IfdEntry) :=
  let pos := tiffBase + ifdOffset in
  if buf_length buf <? pos + 2 then Ok []
  else
    count ← readU16 buf pos le;
    read_entries buf pos le (Z.to_nat count) 0.

Definition readIfdEntryValuePos (entry : IfdEntry) : Z := ie_valueOffset entry.

Definition getEntryStringValue (buf : bytes) (tiffBase : Z) (entry : IfdEntry) (le : bool) : string :=
  if negb (ie_type entry =? TYPE_ASCII) then ""
  else if ie_count entry <=? 4 then readAscii buf 0 (tiffBase + readIfdEntryValuePos entry) (ie_count entry)
  else readAscii buf tiffBase (ie_valueOffset entry) (ie_count entry).

Definition getEntryLong (entry : IfdEntry) (le : bool) (buf : bytes) (tiffBase : Z) : res Z :=
  if ie_type entry =? TYPE_LONG then Ok (ie_valueOffset entry)
  else if ie_type entry =? TYPE_SHORT then
    Ok (bit_and (ie_valueOffset entry) (if le then 0xffff else shift_right 0xffff0000 16))
  else readU32 buf (tiffBase + ie_valueOffset entry) le.

(** [i] is [entries.indexOf(entry)]: entries are compared by identity, so it is
    the position the entry was read at. *)
Definition entryAsciiOffset (ifdOffset : Z) (i : nat) (entry : IfdEntry) : Z :=
  if ie_count entry <=? 4 then ifdOffset + 2 + Z.of_nat i * 12 + 8 else ie_valueOffset entry.

(** ** The APP1 segment *)
Definition is_exif_header (data : bytes) (payloadStart : Z) : bool :=
  (payloadStart + 6 <? buf_length data) &&
  (byte_at data payloadStart === Some 0x45) && (byte_at data (payloadStart + 1) === Some 0x78) &&
  (byte_at data (payloadStart + 2) === Some 0x69) && (byte_at data (payloadStart + 3) === Some 0x66) &&
  (byte_at data (payloadStart + 4) === Some 0) && (byte_at data (payloadStart + 5) === Some 0).

(** The [while] loop; [None] when the fuel does not suffice. *)
Fixpoint scan_segments (fuel : nat) (data : bytes) (offset : Z) : option (res (option Z)) :=
  match fuel with
  | O => None
  | S fuel' =>
      if negb (offset <? buf_length data - 3) then Some (Ok None)
      else
      match readUInt16BE data offset with
      | Throw e => Some (Throw e)
      | Ok marker =>
      if negb (Z.land marker 0xff00 =? 0xff00) then Some (Ok None)
      else if (0xffd0 <=? marker) && (marker <=? 0xffd9) then scan_segments fuel' data (offset + 2)
      else
      match readUInt16BE data (offset + 2) with
      | Throw e => Some (Throw e)
      | Ok segLen =>
      if (marker =? JPEG_APP1) && is_exif_header data (offset + 4) then Some (Ok (Some (offset + 4 + 6)))
      else scan_segments fuel' data (offset + (2 + segLen))
      end end
  end.

(** The offset of the TIFF data; [data] bounds the number of segments. *)
Definition findApp1ExifSegment (data : bytes) : res (option Z) :=
  if buf_length data <? 2 then Ok None
  else
    soi ← readUInt16BE data 0;
    if negb (soi =? JPEG_SOI) then Ok None
    else opt_default (Ok None) (scan_segments (S (length data)) data 2).

(** ** The directories' fields *)
Fixpoint find_original (buf : bytes) (tiffBase ifdOffset : Z) (i : nat) (entries : list IfdEntry) : option string :=
  match entries with
  | [] => None
  | e :: entries' =>
      if ie_tag e =? TAG_DATETIME_ORIGINAL
      then Some (readAscii buf tiffBase (entryAsciiOffset ifdOffset i e) (ie_count e))
      else find_original buf tiffBase ifdOffset (S i) entries'
  end.

Definition parseExifIfd (buf : bytes) (tiffBase : Z) (entry : IfdEntry) (le : bool) : res (option string) :=
  exifIfdOffset ← getEntryLong entry le buf tiffBase;
  exifEntries ← readIfdEntries buf tiffBase exifIfdOffset le;
  Ok (find_original buf tiffBase exifIfdOffset 0 exifEntries).

(** The variables of the GPS loop. *)
Record GpsFields := mkGpsFields {
  gf_latRef : string;
  gf_lonRef : string;
  gf_lat : option number;  (* [Some] once [hasLat] *)
  gf_lon : option number;
}.

Definition is_coordinate (e : IfdEntry) : bool := (ie_type e =? TYPE_RATIONAL) && (ie_count e =? 3).

Definition gps_step (buf : bytes) (tiffBase ifdOffset : Z) (le : bool) (i : nat) (e : IfdEntry) (g : GpsFields) : res GpsFields :=
  if ie_tag e =? TAG_GPS_LAT_REF then
    Ok (mkGpsFields (readAscii buf tiffBase (entryAsciiOffset ifdOffset i e) (ie_count e)) (gf_lonRef g) (gf_lat g) (gf_lon g))
  else if ie_tag e =? TAG_GPS_LAT then
    if is_coordinate e then
      lat ← readGpsCoord buf tiffBase (ie_valueOffset e) le;
      Ok (mkGpsFields (gf_latRef g) (gf_lonRef g) (Some lat) (gf_lon g))
    else Ok g
  else if ie_tag e =? TAG_GPS_LON_REF then
    Ok (mkGpsFields (gf_latRef g) (readAscii buf tiffBase (entryAsciiOffset ifdOffset i e) (ie_count e)) (gf_lat g) (gf_lon g))
  else if ie_tag e =? TAG_GPS_LON then
    if is_coordinate e then
      lon ← readGpsCoord buf tiffBase (ie_valueOffset e) le;
      Ok (mkGpsFields (gf_latRef g) (gf_lonRef g) (gf_lat g) (Some lon))
    else Ok g
  else Ok g.

(** A loop over entries that may throw, with the entry's index. *)
Fixpoint each_entry {A} (f : nat -> IfdEntry -> A -> res A) (i : nat) (entries : list IfdEntry) (a : A) : res A :=
  match entries with
  | [] => Ok a
  | e :: entries' => a' ← f i e a; each_entry f (S i) entries' a'
  end.

Definition parseGpsIfd (buf : bytes) (tiffBase : Z) (entry : IfdEntry) (le : bool) : res (option Gps) :=
  gpsIfdOffset ← getEntryLong entry le buf tiffBase;
  gpsEntries ← readIfdEntries buf tiffBase gpsIfdOffset le;
  g ← each_entry (gps_step buf tiffBase gpsIfdOffset le) 0 gpsEntries (mkGpsFields "N" "E" None None);
  Ok (match gf_lat g, gf_lon g with
      | Some lat, Some lon =>
          Some (mkGps (if startsWith "S" (gf_latRef g) then nneg lat else lat)
                      (if startsWith "W" (gf_lonRef g) then nneg lon else lon))
      | _, _ => None
      end).

Definition metadata_step (buf : bytes) (tiffBase ifd0Offset : Z) (le : bool) (i : nat) (entry : IfdEntry) (m : ExifMetadata)
    : res ExifMetadata :=
  let text := readAscii buf tiffBase (entryAsciiOffset ifd0Offset i entry) (ie_count entry) in
  if ie_tag entry =? TAG_MAKE then
    Ok (mkExif (Some text) (em_model m) (em_dateTime m) (em_dateTimeOriginal m) (em_gps m))
  else if ie_tag entry =? TAG_MODEL then
    Ok (mkExif (em_make m) (Some text) (em_dateTime m) (em_dateTimeOriginal m) (em_gps m))
  else if ie_tag entry =? TAG_DATETIME then
    Ok (mkExif (em_make m) (em_model m) (Some text) (em_dateTimeOriginal m) (em_gps m))
  else if ie_tag entry =? TAG_EXIF_IFD then
    o ← parseExifIfd buf tiffBase entry le;
    Ok (mkExif (em_make m) (em_model m) (em_dateTime m) o (em_gps m))
  else if ie_tag entry =? TAG_GPS_IFD then
    g ← parseGpsIfd buf tiffBase entry le;
    Ok (mkExif (em_make m) (em_model m) (em_dateTime m) (em_dateTimeOriginal m) g)
  else Ok m.

Definition no_metadata : ExifMetadata := mkExif None None None None None.

Definition extractExifMetadata (data : bytes) : res ExifMetadata :=
  seg ← findApp1ExifSegment data;
  match seg with
  | None => Ok no_metadata
  | Some tiffBase =>
  let tiffData := drop (Z.to_nat tiffBase) data in
  if buf_length tiffData <? 8 then Ok no_metadata
  else
  byteOrder ← readUInt16BE tiffData 0;
  let le := byteOrder =? 0x4949 in
  if negb le && negb (byteOrder =? 0x4d4d) then Ok no_metadata
  else
  magic ← readU16 tiffData 2 le;
  if negb (magic =? 42) then Ok no_metadata
  else
  ifd0Offset ← readU32 tiffData 4 le;
  entries ← readIfdEntries data tiffBase ifd0Offset le;
  each_entry (metadata_step data tiffBase ifd0Offset le) 0 entries no_metadata
  end.

(** ** The EXIF parser: termination, bounds, round trip

    The segment scan ends and stays inside the buffer; the parser throws only on
    a directory pointer of an unusual type; and it reads back every field that an
    encoder writes, whatever the byte order. *)

Local Open Scope Z_scope.

(** ** Reads inside the buffer *)
Lemma read_bytes_Ok buf offset k :
  0 <= offset -> offset + k <= buf_length buf -> exists l, read_bytes buf offset k = Ok l.
Proof.
  intros H1 H2. unfold read_bytes. apply Z.leb_le in H1, H2. rewrite H1, H2. by eexists.
Qed.

Lemma readU16_Ok buf offset le :
  0 <= offset -> offset + 2 <= buf_length buf -> exists v, readU16 buf offset le = Ok v.
Proof.
  intros H1 H2. destruct (read_bytes_Ok buf offset 2 H1 H2) as [l Hl].
  unfold readU16, readUInt16LE, readUInt16BE. rewrite Hl. destruct le; by eexists.
Qed.

Lemma readU32_Ok buf offset le :
  0 <= offset -> offset + 4 <= buf_length buf -> exists v, readU32 buf offset le = Ok v.
Proof.
  intros H1 H2. destruct (read_bytes_Ok buf offset 4 H1 H2) as [l Hl].
  unfold readU32, readUInt32LE, readUInt32BE. rewrite Hl. destruct le; by eexists.
Qed.

Lemma read_bytes_Throw buf offset k e : read_bytes buf offset k = Throw e -> e = out_of_range.
Proof. unfold read_bytes. destruct (_ && _); congruence. Qed.

(** ** The segment scan *)
Definition wf_bytes (buf : bytes) : Prop := Forall (fun b => 0 <= b < 256) buf.

Lemma be_value_bounds l : wf_bytes l -> 0 <= be_value l.
Proof.
  unfold be_value. intros H. assert (Hg : forall acc, 0 <= acc -> 0 <= fold_left (fun acc b => acc * 256 + b) l acc).
  { induction H as [|b l Hb Hl IH]; intros acc Ha; simpl; [done|]. apply IH. lia. }
  by apply Hg.
Qed.

Lemma read_bytes_wf buf offset k l : wf_bytes buf -> read_bytes buf offset k = Ok l -> wf_bytes l.
Proof.
  unfold read_bytes. destruct (_ && _); [|done]. intros H [= <-]. apply Forall_take, Forall_drop, H.
Qed.

Lemma readUInt16BE_nonneg buf offset v : wf_bytes buf -> readUInt16BE buf offset = Ok v -> 0 <= v.
Proof.
  intros Hwf. unfold readUInt16BE. destruct (read_bytes buf offset 2) as [l|] eqn:E; [|done]. intros [= <-].
  eapply be_value_bounds, read_bytes_wf; eauto.
Qed.

(** From an offset inside the data, enough fuel gives a result, which is in range. *)
Lemma scan_segments_total data offset fuel :
  wf_bytes data -> 2 <= offset -> (0 < fuel)%nat -> buf_length data - offset < Z.of_nat fuel ->
  exists r, scan_segments fuel data offset = Some (Ok r) /\ (forall t, r = Some t -> 12 <= t < buf_length data).
Proof.
  intros Hwf. revert offset. induction fuel as [|fuel IH]; intros offset Ho Hp Hf; [lia|].
  cbn [scan_segments]. destruct (Z.ltb_spec offset (buf_length data - 3)) as [Hin|]; cbn [negb]; [|by eexists].
  destruct (readU16_Ok data offset false) as [marker Hm]; [lia..|]. cbn [readU16] in Hm. rewrite Hm.
  destruct (Z.land marker 65280 =? 65280); cbn [negb]; [|by eexists].
  destruct ((65488 <=? marker) && (marker <=? 65497)); [apply IH; lia|].
  destruct (readU16_Ok data (offset + 2) false) as [len Hl]; [lia..|]. cbn [readU16] in Hl. rewrite Hl.
  destruct ((marker =? JPEG_APP1) && is_exif_header data (offset + 4)) eqn:Hh.
  - exists (Some (offset + 4 + 6)). split; [done|]. intros t [= <-]. apply andb_true_iff in Hh as [_ Hh].
    unfold is_exif_header in Hh. rewrite !andb_true_iff in Hh. destruct Hh as [[[[[[Hlt _] _] _] _] _] _].
    apply Z.ltb_lt in Hlt. lia.
  - pose proof (readUInt16BE_nonneg _ _ _ Hwf Hl). apply IH; lia.
Qed.

Lemma exif_scan_total data :
  wf_bytes data -> exists r, findApp1ExifSegment data = Ok r /\ forall t, r = Some t -> 12 <= t < buf_length data.
Proof.
  intros Hwf. destruct (scan_segments_total data 2 (S (length data)) Hwf) as (r & Hr & Hb); [lia|lia|unfold buf_length; lia|].
  unfold findApp1ExifSegment. destruct (Z.ltb_spec (buf_length data) 2); [by exists None|].
  destruct (readU16_Ok data 0 false) as [soi Hs]; [lia..|]. cbn [readU16] in Hs. rewrite Hs. cbn [mbind res_bind].
  destruct (soi =? JPEG_SOI); cbn [negb]; [|by exists None]. rewrite Hr. by exists r.
Qed.

(** The search for the EXIF segment ends on every input: the loop needs no
    more iterations than the data has bytes, it never reads outside the buffer,
    and the TIFF offset it reports lies inside. *)
Theorem exif_scan_terminates data :
  wf_bytes data ->
  (exists r, scan_segments (S (length data)) data 2 = Some r) /\
  exists r, findApp1ExifSegment data = Ok r /\ forall t, r = Some t -> 12 <= t < buf_length data.
Proof.
  intros Hwf. destruct (scan_segments_total data 2 (S (length data)) Hwf) as (r & Hr & Hb); [lia|lia|unfold buf_length; lia|].
  split; [by eexists|by apply exif_scan_total].
Qed.

(** ** Directories *)
Lemma readU32_nonneg buf offset le v : wf_bytes buf -> readU32 buf offset le = Ok v -> 0 <= v.
Proof.
  intros Hwf. unfold readU32, readUInt32LE, readUInt32BE.
  destruct (read_bytes buf offset 4) as [l|] eqn:E; [|by destruct le].
  pose proof (read_bytes_wf _ _ _ _ Hwf E) as Hl. destruct le; intros [= <-]; apply be_value_bounds; [|done].
  by apply Forall_rev.
Qed.

Lemma readEntry_Ok buf pos le :
  wf_bytes buf -> 0 <= pos -> pos + 12 <= buf_length buf ->
  exists e, readEntry buf pos le = Ok e /\ 0 <= ie_valueOffset e.
Proof.
  intros Hwf H1 H2. unfold readEntry.
  destruct (readU16_Ok buf pos le) as [a ->]; [lia..|]. destruct (readU16_Ok buf (pos + 2) le) as [b Hb]; [lia..|].
  destruct (readU32_Ok buf (pos + 4) le) as [c Hc]; [lia..|]. destruct (readU32_Ok buf (pos + 8) le) as [d Hd]; [lia..|].
  cbn [mbind res_bind]. rewrite Hb. cbn [mbind res_bind]. rewrite Hc. cbn [mbind res_bind]. rewrite Hd.
  eexists. split; [done|]. by eapply readU32_nonneg.
Qed.

Lemma read_entries_Ok buf pos le todo i :
  wf_bytes buf -> 0 <= pos -> 0 <= i ->
  exists l, read_entries buf pos le todo i = Ok l /\ Forall (fun e => 0 <= ie_valueOffset e) l.
Proof.
  intros Hwf Hp. revert i. induction todo as [|todo IH]; intros i Hi; cbn [read_entries]; [by exists []|].
  destruct (Z.ltb_spec (buf_length buf) (pos + 2 + i * 12 + 12)); [by exists []|].
  destruct (readEntry_Ok buf (pos + 2 + i * 12) le) as (e & -> & He); [done|lia..|].
  destruct (IH (i + 1)) as (l & Hl & HF); [lia|]. cbn [mbind res_bind]. rewrite Hl. cbn [mbind res_bind].
  exists (e :: l). by split; [|constructor].
Qed.

Lemma readIfdEntries_Ok buf tiffBase ifdOffset le :
  wf_bytes buf -> 0 <= tiffBase + ifdOffset ->
  exists l, readIfdEntries buf tiffBase ifdOffset le = Ok l /\ Forall (fun e => 0 <= ie_valueOffset e) l.
Proof.
  intros Hwf Hp. unfold readIfdEntries.
  destruct (Z.ltb_spec (buf_length buf) (tiffBase + ifdOffset + 2)); [by exists []|].
  destruct (readU16_Ok buf (tiffBase + ifdOffset) le) as [c ->]; [lia..|]. cbn [mbind res_bind].
  by apply read_entries_Ok.
Qed.

Lemma readRational_Ok buf tiffBase offset le :
  0 <= tiffBase + offset -> exists n, readRational buf tiffBase offset le = Ok n.
Proof.
  intros Hp. unfold readRational. destruct (Z.ltb_spec (buf_length buf) (tiffBase + offset + 8)); [by eexists|].
  destruct (readU32_Ok buf (tiffBase + offset) le) as [a ->]; [lia..|].
  destruct (readU32_Ok buf (tiffBase + offset + 4) le) as [b Hb]; [lia..|]. cbn [mbind res_bind]. rewrite Hb. by eexists.
Qed.

Lemma readGpsCoord_Ok buf tiffBase offset le :
  0 <= tiffBase + offset -> exists n, readGpsCoord buf tiffBase offset le = Ok n.
Proof.
  intros Hp. unfold readGpsCoord. destruct (readRational_Ok buf tiffBase offset le Hp) as [a ->].
  destruct (readRational_Ok buf tiffBase (offset + 8) le) as [b Hb]; [lia|].
  destruct (readRational_Ok buf tiffBase (offset + 16) le) as [c Hc]; [lia|].
  cbn [mbind res_bind]. rewrite Hb. cbn [mbind res_bind]. rewrite Hc. by eexists.
Qed.

(** A loop whose body never throws on its entries does not throw. *)
Lemma each_entry_Ok {A} (f : nat -> IfdEntry -> A -> res A) i l a :
  (forall j e x, e ∈ l -> exists y, f j e x = Ok y) -> exists y, each_entry f i l a = Ok y.
Proof.
  revert i a. induction l as [|e l IH]; intros i a Hf; cbn [each_entry]; [by eexists|].
  destruct (Hf i e a) as [y ->]; [by left|]. cbn [mbind res_bind]. apply IH. intros j e' x He. apply Hf. by right.
Qed.

(** A directory pointer that is stored as the format prescribes. *)
Definition plain_pointer (le : bool) (e : IfdEntry) : bool :=
  (ie_type e =? TYPE_LONG) || ((ie_type e =? TYPE_SHORT) && le).

Lemma bit_and_ffff a : 0 <= bit_and a 0xffff.
Proof.
  unfold bit_and. change (to_int32 65535) with (Z.ones 16). rewrite Z.land_ones by lia.
  set (w := to_int32 a mod 2 ^ 16). assert (H : 0 <= w < 2 ^ 16) by (apply Z.mod_pos_bound; lia).
  unfold to_int32. rewrite (Z.mod_small w) by lia. destruct (Z.ltb_spec w (2 ^ 31)); lia.
Qed.

Lemma getEntryLong_plain e le buf tiffBase :
  plain_pointer le e = true -> 0 <= ie_valueOffset e -> exists v, getEntryLong e le buf tiffBase = Ok v /\ 0 <= v.
Proof.
  unfold plain_pointer, getEntryLong. intros Hp Hv. destruct (ie_type e =? TYPE_LONG); [by eexists|].
  cbn [orb] in Hp. apply andb_true_iff in Hp as [-> ->]. eexists. split; [done|]. apply bit_and_ffff.
Qed.

Lemma parseExifIfd_Ok buf tiffBase e le :
  wf_bytes buf -> 0 <= tiffBase -> 0 <= ie_valueOffset e -> plain_pointer le e = true ->
  exists r, parseExifIfd buf tiffBase e le = Ok r.
Proof.
  intros Hwf Ht Hv Hp. unfold parseExifIfd. destruct (getEntryLong_plain e le buf tiffBase Hp Hv) as (v & -> & Hv').
  cbn [mbind res_bind]. destruct (readIfdEntries_Ok buf tiffBase v le) as (l & -> & _); [done|lia|]. by eexists.
Qed.

Lemma parseGpsIfd_Ok buf tiffBase e le :
  wf_bytes buf -> 0 <= tiffBase -> 0 <= ie_valueOffset e -> plain_pointer le e = true ->
  exists r, parseGpsIfd buf tiffBase e le = Ok r.
Proof.
  intros Hwf Ht Hv Hp. unfold parseGpsIfd. destruct (getEntryLong_plain e le buf tiffBase Hp Hv) as (v & -> & Hv').
  cbn [mbind res_bind]. destruct (readIfdEntries_Ok buf tiffBase v le) as (l & -> & HF); [done|lia|].
  cbn [mbind res_bind]. destruct (each_entry_Ok (gps_step buf tiffBase v le) 0 l (mkGpsFields "N" "E" None None)) as [g ->];
    [|by eexists].
  intros j e' x He. rewrite Forall_forall in HF. specialize (HF e' He).
  destruct (readGpsCoord_Ok buf tiffBase (ie_valueOffset e') le) as [c Hc]; [lia|].
  unfold gps_step. rewrite Hc. cbn [mbind res_bind]. repeat case_match; by eexists.
Qed.

(** The IFD0 entries of an image, with the layout they are read with. *)
Inductive ifd0 (data : bytes) : Z -> Z -> bool -> list IfdEntry -> Prop :=
| Ifd0 tiffBase ifd0Offset le entries :
    findApp1ExifSegment data = Ok (Some tiffBase) ->
    readU32 (drop (Z.to_nat tiffBase) data) 4 le = Ok ifd0Offset ->
    readIfdEntries data tiffBase ifd0Offset le = Ok entries ->
    ifd0 data tiffBase ifd0Offset le entries.

Definition is_pointer (e : IfdEntry) : bool := (ie_tag e =? TAG_EXIF_IFD) || (ie_tag e =? TAG_GPS_IFD).

Lemma metadata_step_Ok data tiffBase off le i e m :
  wf_bytes data -> 0 <= tiffBase -> 0 <= ie_valueOffset e -> (is_pointer e = true -> plain_pointer le e = true) ->
  exists m', metadata_step data tiffBase off le i e m = Ok m'.
Proof.
  intros Hwf Ht Hv Hp. unfold metadata_step. unfold is_pointer in Hp.
  destruct (ie_tag e =? TAG_MAKE); [by eexists|]. destruct (ie_tag e =? TAG_MODEL); [by eexists|].
  destruct (ie_tag e =? TAG_DATETIME); [by eexists|]. destruct (ie_tag e =? TAG_EXIF_IFD).
  - destruct (parseExifIfd_Ok data tiffBase e le) as [r ->]; auto. by eexists.
  - destruct (ie_tag e =? TAG_GPS_IFD); [|by eexists].
    destruct (parseGpsIfd_Ok data tiffBase e le) as [r ->]; auto. by eexists.
Qed.

(** The parser fails on malformed images in one way only: a [RangeError], and
    only when the image has an Exif or GPS directory pointer that is neither a
    LONG nor a little-endian SHORT.  Every other image, however malformed, is
    parsed without an exception. *)
Theorem exif_throws_only_on_odd_pointers data e :
  wf_bytes data -> extractExifMetadata data = Throw e ->
  exists tiffBase off le entries entry,
    ifd0 data tiffBase off le entries /\ entry ∈ entries /\ is_pointer entry = true /\ plain_pointer le entry = false.
Proof.
  intros Hwf. unfold extractExifMetadata. destruct (exif_scan_total data Hwf) as (seg & Hseg & Hb). rewrite Hseg. cbn [mbind res_bind].
  destruct seg as [tiffBase|]; [|done]. specialize (Hb _ eq_refl).
  set (tiff := drop (Z.to_nat tiffBase) data). destruct (Z.ltb_spec (buf_length tiff) 8); [done|].
  destruct (readU16_Ok tiff 0 false) as [bo Hbo]; [lia..|]. cbn [readU16] in Hbo. rewrite Hbo. cbn [mbind res_bind].
  set (le := bo =? 18761). destruct (negb le && negb (bo =? 19789)); [done|].
  destruct (readU16_Ok tiff 2 le) as [magic ->]; [lia..|]. cbn [mbind res_bind]. destruct (negb (magic =? 42)); [done|].
  destruct (readU32_Ok tiff 4 le) as [off Hoff]; [lia..|]. rewrite Hoff. cbn [mbind res_bind].
  assert (0 <= off) by (eapply readU32_nonneg; [|exact Hoff]; by apply Forall_drop).
  destruct (readIfdEntries_Ok data tiffBase off le) as (entries & Hent & HF); [done|lia|]. rewrite Hent. cbn [mbind res_bind].
  intros Hthrow. destruct (decide (Exists (fun x => is_pointer x = true /\ plain_pointer le x = false) entries)) as [Hex|Hno].
  - apply Exists_exists in Hex as (x & Hx & H1 & H2). exists tiffBase, off, le, entries, x. by split_and!.
  - exfalso. destruct (each_entry_Ok (metadata_step data tiffBase off le) 0 entries no_metadata) as [y Hy]; [|congruence].
    intros j x m Hx. rewrite Forall_forall in HF. apply metadata_step_Ok; [done|lia|by apply HF|].
    intros Hpx. apply not_false_iff_true. intros Hf. apply Hno, Exists_exists. by exists x.
Qed.

(** ** A reference encoder

    A JPEG whose APP1 segment holds a TIFF directory of text fields, in either
    byte order: short values inline, longer ones after the directory. *)
Inductive text_field := Make | Model | DateTime.

Definition field_tag (f : text_field) : Z :=
  match f with Make => TAG_MAKE | Model => TAG_MODEL | DateTime => TAG_DATETIME end.

Definition set_text (m : ExifMetadata) (fs : text_field * string) : ExifMetadata :=
  let '(f, s) := fs in
  match f with
  | Make => mkExif (Some s) (em_model m) (em_dateTime m) (em_dateTimeOriginal m) (em_gps m)
  | Model => mkExif (em_make m) (Some s) (em_dateTime m) (em_dateTimeOriginal m) (em_gps m)
  | DateTime => mkExif (em_make m) (em_model m) (Some s) (em_dateTimeOriginal m) (em_gps m)
  end.

Definition order (le : bool) (l : list Z) : list Z := if le then rev l else l.
Definition enc16 (le : bool) (v : Z) : list Z := order le [v / 256; v mod 256].
Definition enc32 (le : bool) (v : Z) : list Z :=
  order le [v / 16777216; (v / 65536) mod 256; (v / 256) mod 256; v mod 256].

Definition text_bytes (s : string) : list Z := map (fun c => Z.of_nat (code c)) (chars s) ++ [0].

Definition is_inline (v : list Z) : bool := Nat.leb (length v) 4.

Definition enc_entry (le : bool) (pos : Z) (fs : text_field * string) : list Z :=
  let v := text_bytes (snd fs) in
  enc16 le (field_tag (fst fs)) ++ enc16 le TYPE_ASCII ++ enc32 le (buf_length v) ++
  (if is_inline v then v ++ repeat 0 (4 - length v) else enc32 le pos).

Definition data_of (fs : text_field * string) : list Z :=
  let v := text_bytes (snd fs) in if is_inline v then [] else v.

Fixpoint enc_dir (le : bool) (pos : Z) (l : list (text_field * string)) : list Z :=
  match l with
  | [] => []
  | fs :: l' => enc_entry le pos fs ++ enc_dir le (pos + buf_length (data_of fs)) l'
  end.

Definition enc_data (l : list (text_field * string)) : list Z := flat_map data_of l.

Definition enc_tiff (le : bool) (l : list (text_field * string)) : list Z :=
  (if le then [0x49; 0x49] else [0x4d; 0x4d]) ++ enc16 le 42 ++ enc32 le 8 ++
  enc16 le (Z.of_nat (length l)) ++ enc_dir le (14 + 12 * Z.of_nat (length l)) l ++ [0; 0; 0; 0] ++ enc_data l.

Definition exif_header : list Z := [0x45; 0x78; 0x69; 0x66; 0; 0].

Definition enc_jpeg (le : bool) (l : list (text_field * string)) (rest : bytes) : bytes :=
  [0xff; 0xd8; 0xff; 0xe1] ++ enc16 false (buf_length (enc_tiff le l) + 8) ++ exif_header ++ enc_tiff le l ++ rest.

Example enc_jpeg_ex :
  extractExifMetadata (enc_jpeg true [(Make, "Apple"); (Model, "X1"); (DateTime, "2026:03:10 14:30:00")] [0xff; 0xd9]) =
  Ok (mkExif (Some "Apple") (Some "X1") (Some "2026:03:10 14:30:00") None None).
Proof. vm_compute. reflexivity. Qed.

(** *** Reading what was written *)
Lemma length_order le l : length (order le l) = length l.
Proof. destruct le; [apply length_rev|done]. Qed.

Lemma length_enc16 le v : length (enc16 le v) = 2%nat.
Proof. apply length_order. Qed.
Lemma length_enc32 le v : length (enc32 le v) = 4%nat.
Proof. apply length_order. Qed.

Lemma buf_length_app a b : buf_length (a ++ b) = buf_length a + buf_length b.
Proof. unfold buf_length. rewrite length_app. lia. Qed.

Lemma read_bytes_mid p x q : read_bytes (p ++ x ++ q) (buf_length p) (buf_length x) = Ok x.
Proof.
  unfold read_bytes. rewrite !buf_length_app. unfold buf_length.
  destruct (Z.leb_spec 0 (Z.of_nat (length p))); [|lia].
  destruct (Z.leb_spec (Z.of_nat (length p) + Z.of_nat (length x))
              (Z.of_nat (length p) + (Z.of_nat (length x) + Z.of_nat (length q)))); [|lia].
  cbn [andb]. by rewrite !Nat2Z.id, drop_app_length, take_app_length.
Qed.

Lemma subarray_mid p x q a b :
  a = buf_length p -> b = a + buf_length x -> subarray (p ++ x ++ q) a b = x.
Proof.
  intros -> ->. unfold subarray, buf_length. rewrite Z.add_simpl_l, !Nat2Z.id. by rewrite drop_app_length, take_app_length.
Qed.

Lemma be_value_16 v : 0 <= v < 65536 -> be_value [v / 256; v mod 256] = v.
Proof. intros Hv. unfold be_value. simpl. pose proof (Z.div_mod v 256). lia. Qed.

Lemma be_value_32 v :
  be_value [v / 16777216; (v / 65536) mod 256; (v / 256) mod 256; v mod 256] = v.
Proof.
  unfold be_value. simpl. pose proof (Z.div_mod v 256 ltac:(lia)). pose proof (Z.div_mod (v / 256) 256 ltac:(lia)).
  pose proof (Z.div_mod (v / 65536) 256 ltac:(lia)).
  rewrite Z.div_div in * by lia. change (256 * 256) with 65536 in *. change (65536 * 256) with 16777216 in *. lia.
Qed.

Lemma readU16_enc le v p q off : 0 <= v < 65536 -> off = buf_length p -> readU16 (p ++ enc16 le v ++ q) off le = Ok v.
Proof.
  intros Hv ->. pose proof (read_bytes_mid p (enc16 le v) q) as H. unfold buf_length at 2 in H. rewrite length_enc16 in H.
  change (Z.of_nat 2) with 2 in H. unfold readU16, readUInt16LE, readUInt16BE. rewrite H.
  destruct le; cbn [mbind res_bind]; unfold le_value, enc16, order; rewrite ?rev_involutive; by rewrite be_value_16.
Qed.

Lemma readU32_enc le v p q off : off = buf_length p -> readU32 (p ++ enc32 le v ++ q) off le = Ok v.
Proof.
  intros ->. pose proof (read_bytes_mid p (enc32 le v) q) as H. unfold buf_length at 2 in H. rewrite length_enc32 in H.
  change (Z.of_nat 4) with 4 in H. unfold readU32, readUInt32LE, readUInt32BE. rewrite H.
  destruct le; cbn [mbind res_bind]; unfold le_value, enc32, order; rewrite ?rev_involutive; by rewrite be_value_32.
Qed.

(** Seven-bit text without NUL. *)
Definition plain_text (s : string) : bool := forallb (fun c => Nat.ltb 0 (code c) && Nat.ltb (code c) 128) (chars s).

Lemma ascii_text_bytes s : plain_text s = true -> chars (ascii_text (text_bytes s)) = chars s ++ [Ascii.ascii_of_nat 0].
Proof.
  intros Hs. unfold ascii_text, text_bytes. rewrite map_app, map_map. unfold of_chars, chars.
  rewrite String.list_ascii_of_string_of_list_ascii. f_equal. unfold plain_text, chars in Hs.
  induction (String.list_ascii_of_string s) as [|c l IH]; [done|]. cbn [forallb map] in *.
  apply andb_true_iff in Hs as [Hc Hl]. rewrite IH by done. f_equal.
  apply andb_true_iff in Hc as [_ Hc]. apply Nat.ltb_lt in Hc.
  change 127 with (Z.ones 7). rewrite Z.land_ones, Z.mod_small, Nat2Z.id by lia. apply Ascii.ascii_nat_embedding.
Qed.

Lemma strip_nuls_text s : plain_text s = true -> strip_nuls (ascii_text (text_bytes s)) = s.
Proof.
  intros Hs. unfold strip_nuls. rewrite (ascii_text_bytes s Hs), rev_unit. cbn [drop_nuls].
  assert (drop_nuls (rev (chars s)) = rev (chars s)) as Hd.
  { unfold plain_text in Hs. rewrite forallb_forall in Hs. destruct (rev (chars s)) as [|c l] eqn:E; [done|].
    cbn [drop_nuls]. assert (Hin : In c (chars s)) by (apply in_rev; rewrite E; by left). specialize (Hs c Hin).
    apply andb_true_iff in Hs as [Hc _]. apply Nat.ltb_lt in Hc. destruct (Nat.eqb_spec (code c) 0); [lia|done]. }
  assert (Nat.eqb (code (Ascii.ascii_of_nat 0)) 0 = true) as -> by done.
  rewrite Hd, rev_involutive. apply String.string_of_list_ascii_of_string.
Qed.

Lemma field_tag_bound f : 0 <= field_tag f < 65536.
Proof. destruct f; vm_compute; by split. Qed.

(** The entry the parser sees, and the value it reads through it. *)
Definition dec_entry (le : bool) (pos : Z) (fs : text_field * string) : IfdEntry :=
  let v := text_bytes (snd fs) in
  mkEntry (field_tag (fst fs)) TYPE_ASCII (buf_length v)
    (if is_inline v then be_value (order le (v ++ repeat 0 (4 - length v))) else pos).

Lemma buf_length_entry le pos fs : buf_length (enc_entry le pos fs) = 12.
Proof.
  unfold enc_entry, buf_length, is_inline. rewrite !length_app, !length_enc16, !length_enc32.
  destruct (Nat.leb_spec (length (text_bytes (snd fs))) 4); rewrite ?length_app, ?repeat_length, ?length_enc32; lia.
Qed.

Lemma readU32_raw le x p q off :
  length x = 4%nat -> off = buf_length p -> readU32 (p ++ x ++ q) off le = Ok (be_value (order le x)).
Proof.
  intros Hx ->. pose proof (read_bytes_mid p x q) as H. unfold buf_length at 2 in H. rewrite Hx in H.
  change (Z.of_nat 4) with 4 in H. unfold readU32, readUInt32LE, readUInt32BE. rewrite H. by destruct le.
Qed.

Lemma readEntry_enc le pos fs p q off :
  off = buf_length p -> readEntry (p ++ enc_entry le pos fs ++ q) off le = Ok (dec_entry le pos fs).
Proof.
  intros ->. unfold readEntry, enc_entry, dec_entry. set (v := text_bytes (snd fs)).
  set (last := if is_inline v then v ++ repeat 0 (4 - length v) else enc32 le pos).
  assert (Hlast : length last = 4%nat).
  { unfold last, is_inline. destruct (Nat.leb_spec (length v) 4); [|apply length_enc32].
    rewrite length_app, repeat_length. lia. }
  rewrite <- !app_assoc. rewrite (readU16_enc le (field_tag (fst fs)) p _ (buf_length p)) by (done || apply field_tag_bound). cbn [mbind res_bind].
  assert (Hp1 : buf_length p + 2 = buf_length (p ++ enc16 le (field_tag (fst fs)))).
  { rewrite buf_length_app. unfold buf_length at 3. by rewrite length_enc16. }
  rewrite (app_assoc p), Hp1, (readU16_enc le TYPE_ASCII (p ++ _)) by done. cbn [mbind res_bind].
  rewrite (app_assoc (p ++ _)).
  set (p2 := (p ++ enc16 le (field_tag fs.1)) ++ enc16 le TYPE_ASCII).
  assert (Hp2 : buf_length p + 4 = buf_length p2).
  { unfold p2. rewrite !buf_length_app. unfold buf_length at 3 4. rewrite !length_enc16. lia. }
  rewrite (readU32_enc le (buf_length v) p2 _ (buf_length p + 4)) by done. cbn [mbind res_bind]. rewrite (app_assoc p2).
  rewrite readU32_raw; [|done|].
  - cbn [mbind res_bind]. unfold last. destruct (is_inline v); [done|]. unfold enc32, order.
    destruct le; rewrite ?rev_involutive; by rewrite be_value_32.
  - rewrite buf_length_app, <- Hp2. unfold buf_length at 3. rewrite length_enc32. lia.
Qed.

Fixpoint dec_dir (le : bool) (pos : Z) (l : list (text_field * string)) : list IfdEntry :=
  match l with
  | [] => []
  | fs :: l' => dec_entry le pos fs :: dec_dir le (pos + buf_length (data_of fs)) l'
  end.

Lemma read_entries_enc le base pos l p q i :
  buf_length p = base + 2 + i * 12 ->
  read_entries (p ++ enc_dir le pos l ++ q) base le (length l) i = Ok (dec_dir le pos l).
Proof.
  revert p pos i. induction l as [|fs l IH]; intros p pos i Hp; [done|]. cbn [enc_dir dec_dir length read_entries].
  rewrite <- Hp, <- app_assoc.
  destruct (Z.ltb_spec (buf_length (p ++ enc_entry le pos fs ++ enc_dir le (pos + buf_length (data_of fs)) l ++ q))
              (buf_length p + 12)) as [Hlt|_].
  { rewrite !buf_length_app, buf_length_entry in Hlt. unfold buf_length in Hlt. lia. }
  rewrite readEntry_enc by done. cbn [mbind res_bind]. rewrite (app_assoc p), IH; [done|].
  rewrite buf_length_app, buf_length_entry. lia.
Qed.

(** The text of an entry, read through its inline bytes or its pointer. *)
Lemma readAscii_mid p x q tiffBase offset s :
  plain_text s = true -> x = text_bytes s -> tiffBase + offset = buf_length p ->
  readAscii (p ++ x ++ q) tiffBase offset (buf_length x) = s.
Proof.
  intros Hs -> Hp. unfold readAscii. rewrite Hp. destruct (Z.ltb_spec (buf_length (p ++ text_bytes s ++ q)) (buf_length p + buf_length (text_bytes s))) as [Hlt|_].
  { rewrite !buf_length_app in Hlt. unfold buf_length in Hlt. lia. }
  rewrite subarray_mid by done. by apply strip_nuls_text.
Qed.

Lemma inline_count v : (buf_length v <=? 4) = is_inline v.
Proof. unfold buf_length, is_inline. destruct (Nat.leb_spec (length v) 4); [apply Z.leb_le|apply Z.leb_gt]; lia. Qed.

Lemma entry_text le pos fs buf p q r q' i :
  plain_text (snd fs) = true ->
  buf = p ++ enc_entry le pos fs ++ q -> buf_length p = 22 + Z.of_nat i * 12 ->
  buf = r ++ data_of fs ++ q' -> buf_length r = 12 + pos ->
  let e := dec_entry le pos fs in
  readAscii buf 12 (entryAsciiOffset 8 i e) (ie_count e) = snd fs.
Proof.
  intros Hs Hb Hp Hd Hr. cbv zeta. unfold dec_entry, entryAsciiOffset, enc_entry, data_of in *. cbn [ie_count ie_valueOffset].
  rewrite inline_count. destruct (is_inline (text_bytes (snd fs))).
  - set (h := enc16 le (field_tag (fst fs)) ++ enc16 le TYPE_ASCII ++ enc32 le (buf_length (text_bytes (snd fs)))).
    assert (Hb' : buf = (p ++ h) ++ text_bytes (snd fs) ++ (repeat 0 (4 - length (text_bytes (snd fs))) ++ q)).
    { rewrite Hb. unfold h. by rewrite <- !app_assoc. }
    rewrite Hb'. apply readAscii_mid; [done|done|]. rewrite buf_length_app.
    assert (buf_length h = 8) as ->; [|lia]. unfold h, buf_length. by rewrite !length_app, !length_enc16, length_enc32.
  - rewrite Hd. apply readAscii_mid; [done|done|lia].
Qed.

Lemma metadata_step_text buf le i e fs m :
  ie_tag e = field_tag (fst fs) -> readAscii buf 12 (entryAsciiOffset 8 i e) (ie_count e) = snd fs ->
  metadata_step buf 12 8 le i e m = Ok (set_text m fs).
Proof. intros Ht Hr. unfold metadata_step. rewrite Ht, Hr. by destruct fs as [[] s]. Qed.

Lemma read_fields le pos l buf p q r q' i m :
  forallb (fun fs => plain_text (snd fs)) l = true ->
  buf = p ++ enc_dir le pos l ++ q -> buf_length p = 22 + Z.of_nat i * 12 ->
  buf = r ++ enc_data l ++ q' -> buf_length r = 12 + pos ->
  each_entry (metadata_step buf 12 8 le) i (dec_dir le pos l) m = Ok (fold_left set_text l m).
Proof.
  revert p pos i r m. induction l as [|fs l IH]; intros p pos i r m Hs Hb Hp Hd Hr; [done|].
  cbn [forallb enc_dir dec_dir each_entry fold_left] in *. unfold enc_data in Hd. cbn [flat_map] in Hd.
  apply andb_true_iff in Hs as [Hs Hl]. rewrite <- app_assoc in Hb. rewrite <- app_assoc in Hd.
  rewrite (metadata_step_text buf le i (dec_entry le pos fs) fs m); [|done|].
  2:{ by apply (entry_text le pos fs buf p (enc_dir le (pos + buf_length (data_of fs)) l ++ q) r (flat_map data_of l ++ q') i). }
  cbn [mbind res_bind]. apply (IH (p ++ enc_entry le pos fs) _ _ (r ++ data_of fs)); [done| | | |].
  - by rewrite <- app_assoc.
  - rewrite buf_length_app, buf_length_entry. lia.
  - by rewrite <- app_assoc.
  - rewrite buf_length_app. lia.
Qed.

Lemma buf_length_dir le pos l : buf_length (enc_dir le pos l) = 12 * Z.of_nat (length l).
Proof.
  revert pos. induction l as [|fs l IH]; intros pos; [done|]. cbn [enc_dir length].
  rewrite buf_length_app, buf_length_entry, IH. lia.
Qed.

(** The scan stops at the encoder's segment. *)
Lemma find_enc_jpeg le l rest :
  findApp1ExifSegment (enc_jpeg le l rest) = Ok (Some 12).
Proof.
  unfold findApp1ExifSegment, enc_jpeg. set (len := buf_length (enc_tiff le l) + 8).
  assert (Htiff : exists a t, enc_tiff le l = a :: t) by (unfold enc_tiff; destruct le; by eexists _, _).
  destruct Htiff as (a & t & Ht). rewrite Ht. unfold enc16, order, exif_header. cbn [app].
  match goal with |- context [buf_length ?d] => set (data := d) end.
  assert (Hlen : 13 <= buf_length data) by (unfold data, buf_length; cbn [length]; lia).
  destruct (Z.ltb_spec (buf_length data) 2); [lia|].
  assert (H0 : readUInt16BE data 0 = Ok 0xffd8).
  { unfold readUInt16BE, read_bytes. destruct (Z.leb_spec (0 + 2) (buf_length data)); [done|lia]. }
  assert (H2 : readUInt16BE data 2 = Ok 0xffe1).
  { unfold readUInt16BE, read_bytes. destruct (Z.leb_spec (2 + 2) (buf_length data)); [done|lia]. }
  assert (H4 : exists v, readUInt16BE data 4 = Ok v).
  { apply (readU16_Ok data 4 false); lia. }
  assert (Hh : byte_at data 6 = Some 0x45 /\ byte_at data 7 = Some 0x78 /\ byte_at data 8 = Some 0x69 /\
               byte_at data 9 = Some 0x66 /\ byte_at data 10 = Some 0 /\ byte_at data 11 = Some 0) by done.
  destruct H4 as [v H4], Hh as (B0 & B1 & B2 & B3 & B4 & B5). clearbody data. rewrite H0. cbn [mbind res_bind].
  change (negb (65496 =? JPEG_SOI)) with false. cbn [scan_segments].
  destruct (Z.ltb_spec 2 (buf_length data - 3)); [|lia]. cbn [negb]. rewrite H2.
  change (negb (Z.land 65505 65280 =? 65280)) with false. change ((65488 <=? 65505) && (65505 <=? 65497)) with false.
  change (2 + 2) with 4. rewrite H4. change (65505 =? JPEG_APP1) with true. unfold is_exif_header.
  change (2 + 4) with 6. cbn [Z.add Pos.add Pos.succ]. change (6 + 6) with 12. change (6 + 1) with 7.
  change (6 + 2) with 8. change (6 + 3) with 9. change (6 + 4) with 10. change (6 + 5) with 11.
  rewrite ?B0, ?B1, ?B2, ?B3, ?B4, ?B5. destruct (Z.ltb_spec 12 (buf_length data)); [done|lia].
Qed.

Lemma drop_enc_jpeg le l rest : drop (Z.to_nat 12) (enc_jpeg le l rest) = enc_tiff le l ++ rest.
Proof. done. Qed.

Lemma enc_tiff_header le l rest :
  let tiff := enc_tiff le l ++ rest in
  readUInt16BE tiff 0 = Ok (if le then 0x4949 else 0x4d4d) /\ readU16 tiff 2 le = Ok 42 /\ readU32 tiff 4 le = Ok 8 /\
  8 <= buf_length tiff.
Proof.
  cbv zeta. set (mark := if le then [0x49; 0x49] else [0x4d; 0x4d]).
  assert (Hm : buf_length mark = 2) by by destruct le.
  assert (Ht : forall t, enc_tiff le l ++ t = mark ++ enc16 le 42 ++ enc32 le 8 ++
      enc16 le (Z.of_nat (length l)) ++ enc_dir le (14 + 12 * Z.of_nat (length l)) l ++ [0; 0; 0; 0] ++ enc_data l ++ t).
  { intros t. unfold enc_tiff. by rewrite <- !app_assoc. }
  rewrite Ht. split_and!.
  - unfold readUInt16BE. pose proof (read_bytes_mid [] mark (enc16 le 42 ++ enc32 le 8 ++
      enc16 le (Z.of_nat (length l)) ++ enc_dir le (14 + 12 * Z.of_nat (length l)) l ++ [0; 0; 0; 0] ++ enc_data l ++ rest)) as H.
    rewrite Hm in H. change (buf_length []) with 0 in H. cbn [app] in H |- *. rewrite H. by destruct le.
  - by rewrite readU16_enc.
  - rewrite (app_assoc mark), readU32_enc; [done|]. rewrite buf_length_app, Hm. unfold buf_length. by rewrite length_enc16.
  - rewrite !buf_length_app, Hm. unfold buf_length. rewrite length_enc16, length_enc32. lia.
Qed.

Lemma enc_tiff_length le l : Z.of_nat (length l) <= buf_length (enc_tiff le l).
Proof. unfold enc_tiff. rewrite !buf_length_app, buf_length_dir. unfold buf_length. lia. Qed.

(** C40: What an encoder writes is read back: of a JPEG whose first segment is an Exif
    segment (it fits in one: 65535 bytes at most) with any list of make, model and
    date-time entries of 7-bit text without NULs, [extractExifMetadata] returns exactly these
    values, in either byte order, whether a value fits in its entry or is stored behind
    the directory, and whatever follows the segment; a field written twice has its
    last value, and a field not written is absent. *)
Theorem exif_text_roundtrip le l rest :
  forallb (fun fs => plain_text (snd fs)) l = true -> buf_length (enc_tiff le l) + 8 <= 65535 ->
  extractExifMetadata (enc_jpeg le l rest) = Ok (fold_left set_text l no_metadata).
Proof.
  intros Hs Hfit. assert (Hn : Z.of_nat (length l) < 65536) by (pose proof (enc_tiff_length le l); lia).
  unfold extractExifMetadata. rewrite find_enc_jpeg. cbn [mbind res_bind]. rewrite drop_enc_jpeg.
  destruct (enc_tiff_header le l rest) as (H0 & H2 & H4 & Hlen).
  destruct (Z.ltb_spec (buf_length (enc_tiff le l ++ rest)) 8); [lia|]. rewrite H0. cbn [mbind res_bind].
  assert (((if le then 18761 else 19789) =? 18761) = le) as -> by by destruct le.
  assert (negb le && negb ((if le then 18761 else 19789) =? 19789) = false) as -> by by destruct le.
  rewrite H2. cbn [mbind res_bind]. change (negb (42 =? 42)) with false. rewrite H4. cbn [mbind res_bind].
  set (pos := 14 + 12 * Z.of_nat (length l)).
  set (mark := if le then [0x49; 0x49] else [0x4d; 0x4d]). assert (Hm : buf_length mark = 2) by by destruct le.
  set (p := [0xff; 0xd8; 0xff; 0xe1] ++ enc16 false (buf_length (enc_tiff le l) + 8) ++ exif_header ++ mark ++
            enc16 le 42 ++ enc32 le 8).
  assert (Hp : buf_length p = 20).
  { unfold p. rewrite !buf_length_app, Hm. unfold buf_length. rewrite !length_enc16, length_enc32. done. }
  set (count := enc16 le (Z.of_nat (length l))). assert (Hc : buf_length count = 2) by by (unfold buf_length, count; rewrite length_enc16).
  assert (Hj : enc_jpeg le l rest = p ++ count ++ enc_dir le pos l ++ [0; 0; 0; 0] ++ enc_data l ++ rest).
  { unfold enc_jpeg, p, count, pos. unfold enc_tiff at 2. by rewrite <- !app_assoc. }
  assert (Hent : readIfdEntries (enc_jpeg le l rest) 12 8 le = Ok (dec_dir le pos l)).
  { unfold readIfdEntries. change (12 + 8) with 20. rewrite Hj.
    destruct (Z.ltb_spec (buf_length (p ++ count ++ enc_dir le pos l ++ [0; 0; 0; 0] ++ enc_data l ++ rest)) (20 + 2)) as [Hlt|_].
    { rewrite !buf_length_app, Hp, Hc in Hlt. unfold buf_length in Hlt. lia. }
    assert (readU16 (p ++ count ++ enc_dir le pos l ++ [0; 0; 0; 0] ++ enc_data l ++ rest) 20 le = Ok (Z.of_nat (length l))) as ->
      by (apply readU16_enc; [lia|done]). cbn [mbind res_bind]. rewrite Nat2Z.id, (app_assoc p).
    apply read_entries_enc. rewrite buf_length_app. lia. }
  rewrite Hent. cbn [mbind res_bind].
  apply (read_fields le pos l _ (p ++ count) ([0; 0; 0; 0] ++ enc_data l ++ rest) (p ++ count ++ enc_dir le pos l ++ [0; 0; 0; 0]) rest 0);
    [done|by rewrite Hj, <- app_assoc| |by rewrite Hj, <- !app_assoc|].
  - rewrite buf_length_app. lia.
  - rewrite !buf_length_app, Hp, Hc, buf_length_dir. change (buf_length [0; 0; 0; 0]) with 4. unfold pos. lia.
Qed.

Definition sample_fields : list (text_field * string) :=
  [(Make, "Apple"); (Model, "X1"); (DateTime, "2026:03:10 14:30:00")].

Lemma exif_text_roundtrip_witness :
  extractExifMetadata (enc_jpeg false sample_fields [0xff; 0xd9]) =
  Ok (mkExif (Some "Apple") (Some "X1") (Some "2026:03:10 14:30:00") None None).
Proof. apply (exif_text_roundtrip false sample_fields [0xff; 0xd9]); vm_compute; [reflexivity|discriminate]. Defined.

Lemma exif_scan_terminates_witness :
  exists r, findApp1ExifSegment [0xff; 0xd8; 0xff; 0xe0; 0; 4; 1; 2] = Ok r.
Proof.
  destruct (exif_scan_terminates [0xff; 0xd8; 0xff; 0xe0; 0; 4; 1; 2]) as [_ (r & Hr & _)].
  - repeat constructor; discriminate.
  - by exists r.
Defined.

(** A 38-byte image whose Exif pointer has type BYTE and points far outside. *)
Definition crafted_jpeg : bytes :=
  [0xff; 0xd8; 0xff; 0xe1; 0; 30] ++ exif_header ++ [0x49; 0x49; 42; 0; 8; 0; 0; 0; 1; 0] ++
  [0x69; 0x87; 1; 0; 1; 0; 0; 0; 255; 255; 255; 127] ++ [0; 0; 0; 0].

(** The parser throws on it; its callers expect empty metadata for images it
    cannot read. *)
Example crafted_jpeg_throws : extractExifMetadata crafted_jpeg = Throw out_of_range.
Proof. vm_compute. reflexivity. Qed.

Lemma exif_throws_only_on_odd_pointers_witness :
  exists tiffBase off le entries entry,
    ifd0 crafted_jpeg tiffBase off le entries /\ entry ∈ entries /\ is_pointer entry = true /\ plain_pointer le entry = false.
Proof.
  apply (exif_throws_only_on_odd_pointers crafted_jpeg out_of_range).
  - repeat constructor; discriminate.
  - vm_compute. reflexivity.
Defined.
