(* ===== verification/Geo.v ===== *)
(** * Positions and distance policies

    [packages/sdk/src/proofs/geo.ts] and the coordinate and proximity rules of
    [proofs/c2pa-validation.ts]. *)

From S2P Require Import Prelude JsNum JsString JsFloat JsValue Exif.

(** ** [geo.ts] *)
Section geo.
Context `{M : MathApi}.

Definition toRad (deg : number) : number := fdiv (fmul deg Math_PI) (num 180).

Definition haversineKm (lat1 lon1 lat2 lon2 : number) : number :=
  let dLat := toRad (fsub lat2 lat1) in
  let dLon := toRad (fsub lon2 lon1) in
  let a := fadd (Math_pow (Math_sin (fdiv dLat (num 2))) 2)
                (fmul (fmul (Math_cos (toRad lat1)) (Math_cos (toRad lat2)))
                      (Math_pow (Math_sin (fdiv dLon (num 2))) 2)) in
  fmul (fmul (num 6371) (num 2)) (Math_atan2 (Math_sqrt a) (Math_sqrt (fsub (num 1) a))).

Record GpsDistancePolicyResult := mkDistancePolicy { dp_distanceKm : number; dp_withinLimit : bool }.

Definition evaluateGpsDistancePolicy (gps expected : Gps) (maxDistanceKm : number) : GpsDistancePolicyResult :=
  let distanceKm := haversineKm (gps_lat gps) (gps_lon gps) (gps_lat expected) (gps_lon expected) in
  mkDistancePolicy distanceKm (distanceKm ≤ₙ maxDistanceKm).

(** ** Proximity messages *)
Record Proximity := mkProximity {
  px_checks : list string;
  px_failures : list string;
  px_distanceKm : option number;
}.

Definition evaluateC2paGpsProximity (gps : Gps) (expectedGps : option Gps) (maxGpsDist : number) (label : string) : Proximity :=
  match expectedGps with
  | None => mkProximity [label +:+ " GPS: " +:+ toFixed 4 (gps_lat gps) +:+ ", " +:+ toFixed 4 (gps_lon gps)] [] None
  | Some expected =>
      let policy := evaluateGpsDistancePolicy gps expected maxGpsDist in
      if dp_withinLimit policy then
        mkProximity [label +:+ " GPS within " +:+ number_to_string maxGpsDist +:+ "km of expected (" +:+
                     toFixed 1 (dp_distanceKm policy) +:+ "km)"] [] (Some (dp_distanceKm policy))
      else
        mkProximity [] [label +:+ " GPS " +:+ toFixed 1 (dp_distanceKm policy) +:+ "km from expected location (max " +:+
                        number_to_string maxGpsDist +:+ "km)"] (Some (dp_distanceKm policy))
  end.

Lemma proximity_failures gps expected limit label :
  px_failures (evaluateC2paGpsProximity gps (Some expected) limit label) = [] <->
  dp_withinLimit (evaluateGpsDistancePolicy gps expected limit) = true.
Proof.
  unfold evaluateC2paGpsProximity. destruct (dp_withinLimit (evaluateGpsDistancePolicy gps expected limit));
    cbn [px_failures]; split; (reflexivity || discriminate).
Qed.
End geo.

(** ** Coordinates *)
Definition validateGpsCoord (input : Gps) : option string :=
  if negb (isFinite (gps_lat input)) then Some "lat must be a finite number"
  else if negb (isFinite (gps_lon input)) then Some "lon must be a finite number"
  else if (gps_lat input <ₙ num (-90)) || (gps_lat input >ₙ num 90) then
    Some ("lat must be between -90 and 90 (got " +:+ number_to_string (gps_lat input) +:+ ")")
  else if (gps_lon input <ₙ num (-180)) || (gps_lon input >ₙ num 180) then
    Some ("lon must be between -180 and 180 (got " +:+ number_to_string (gps_lon input) +:+ ")")
  else None.

(** The parsed coordinate, [None] when the guard is false. *)
Definition isGpsCoord (value : jsval) : option Gps :=
  if negb (isRecord value) then None
  else
    match prop "lat" value, prop "lon" value with
    | VNum lat, VNum lon =>
        match validateGpsCoord (mkGps lat lon) with None => Some (mkGps lat lon) | Some _ => None end
    | _, _ => None
    end.

Record C2paImageRequirement := mkC2paRequirement {
  cr_expected_gps : option Gps;
  cr_max_gps_distance_km : option number;
}.

(** An optional coordinate field: [None] when it is present and not a coordinate. *)
Definition optional_gps (v : jsval) : option (option Gps) :=
  if is_undef v then Some None else Some <$> isGpsCoord v.

Definition isC2paImageRequirement (value : jsval) : option C2paImageRequirement :=
  if negb (isRecord value) then None
  else
    match optional_gps (prop "expected_gps" value) with
    | None => None
    | Some gps =>
        match prop "max_gps_distance_km" value with
        | VUndef => Some (mkC2paRequirement gps None)
        | VNum d => if negb (isFinite d) || (d ≤ₙ num 0) then None else Some (mkC2paRequirement gps (Some d))
        | _ => None
        end
    end.

(** The evidence's coordinate. *)
Definition isC2paImageEvidence (value : jsval) : option (option Gps) :=
  if negb (isRecord value) then None else optional_gps (prop "gps" value).

Definition DEFAULT_C2PA_MAX_GPS_DISTANCE_KM : number := num 50.

(** ** Symmetry of the distance *)

(** The sine is odd and an even power ignores the sign. *)
Class MathLaws `(M : MathApi) := {
  sin_odd : forall x, Math_sin (nneg x) = nneg (Math_sin x);
  pow_even : forall x, Math_pow (nneg x) 2 = Math_pow x 2;
}.

Section symmetry.
Context `{L : MathLaws}.

Lemma toRad_nneg x : toRad (nneg x) = nneg (toRad x).
Proof. unfold toRad, num. by rewrite fmul_nneg, fdiv_nneg. Qed.

Lemma half_sin_sq_swap a b :
  Math_pow (Math_sin (fdiv (toRad (fsub a b)) (num 2))) 2 = Math_pow (Math_sin (fdiv (toRad (fsub b a)) (num 2))) 2.
Proof. rewrite fsub_swap, toRad_nneg. unfold num. by rewrite fdiv_nneg, sin_odd, pow_even. Qed.

Lemma haversine_swap lat1 lon1 lat2 lon2 : haversineKm lat1 lon1 lat2 lon2 = haversineKm lat2 lon2 lat1 lon1.
Proof.
  unfold haversineKm. by rewrite (half_sin_sq_swap lat2 lat1), (half_sin_sq_swap lon2 lon1), (fmul_comm (Math_cos (toRad lat1))).
Qed.

(** The distance policy is a property of the two positions: which of them is
    the reported and which the expected one does not change the decision, in the
    rounded arithmetic the code runs in. *)
Theorem distance_policy_symmetric (p q : Gps) (limit : number) :
  evaluateGpsDistancePolicy p q limit = evaluateGpsDistancePolicy q p limit.
Proof. unfold evaluateGpsDistancePolicy. by rewrite haversine_swap. Qed.
End symmetry.

(** A rounded instance of the interface: the first terms of the series. *)
Definition series_math : MathApi := {|
  Math_sin := fun x => fsub x (fdiv (fmul (fmul x x) x) (num 6));
  Math_cos := fun x => fsub (num 1) (fdiv (fmul x x) (num 2));
  Math_sqrt := fun x => match x with Finite m e => if (m <? 0)%Z then NaN else Finite (Z.sqrt (m * pow2 e * 2 ^ 80)) (e + 40) | _ => x end;
  Math_atan2 := fun y x => fdiv y x;
  Math_pow := fun x _ => fmul (nabs x) (nabs x);
|}.

Lemma fmul_nneg_r x y : fmul x (nneg y) = nneg (fmul x y).
Proof. by rewrite fmul_comm, fmul_nneg, fmul_comm. Qed.

Lemma nadd_nneg x y : nadd (nneg x) (nneg y) = nneg (nadd x y).
Proof.
  destruct x as [|a|m e], y as [|b|n f]; try done; simpl; [by destruct a, b|].
  destruct (N.eqb e f); simpl; f_equal; lia.
Qed.

Lemma fsub_nneg x y : fsub (nneg x) (nneg y) = nneg (fsub x y).
Proof. unfold fsub, nsub. by rewrite nadd_nneg, fround_nneg. Qed.

Global Instance series_math_laws : MathLaws series_math.
Proof.
  split; intros x; cbn [Math_sin Math_pow series_math].
  - rewrite !fmul_nneg_r, !fmul_nneg, !nneg_invol. unfold num. by rewrite fdiv_nneg, fsub_nneg.
  - by destruct x as [| |m e]; cbn; rewrite ?Z.abs_opp.
Qed.

Lemma distance_policy_symmetric_witness :
  let tokyo := mkGps (Finite 71 1) (Finite 279 1) in
  let osaka := mkGps (Finite 69 1) (Finite 271 1) in
  evaluateGpsDistancePolicy (M := series_math) tokyo osaka (num 50) =
  evaluateGpsDistancePolicy (M := series_math) osaka tokyo (num 50).
Proof. apply (distance_policy_symmetric (L := series_math_laws)). Defined.
