(* ===== verification/ExifCheck.v ===== *)
(** * The EXIF checks

    The second half of [packages/sdk/src/proofs/exif-validation.ts]: camera,
    timestamp and position rules over the parsed metadata.  The arrays [checks]
    and [failures] the helpers push to are threaded as [Notes]. *)

From S2P Require Import Prelude JsNum JsString JsFloat JsValue SchemaUri UrlValidation Exif Geo.

(** [new Date(text).getTime()] for a local date and time, NaN when invalid. *)
Class DateApi := Date_getTime : string -> number.

Record Notes := mkNotes { nt_checks : list string; nt_failures : list string }.
Definition push_check (s : string) (n : Notes) : Notes := mkNotes (nt_checks n ++ [s]) (nt_failures n).
Definition push_failure (s : string) (n : Notes) : Notes := mkNotes (nt_checks n) (nt_failures n ++ [s]).

Record ExifValidationOptions := mkExifOptions {
  xo_maxAgeMs : option number;
  xo_expectedGps : option Gps;
  xo_maxDistanceKm : option number;
  xo_referenceTime : option number;
}.

Record ExifValidationResult := mkExifResult {
  xr_hasExif : bool;
  xr_hasCameraModel : bool;
  xr_hasTimestamp : bool;
  xr_hasGps : bool;
  xr_timestampRecent : bool;
  xr_gpsNearHint : option bool;
  xr_metadata : ExifMetadata;
  xr_checks : list string;
  xr_failures : list string;
}.

(** [n] digits, then the rest. *)
Fixpoint take_digits (n : nat) (l : list Ascii.ascii) : option (list Ascii.ascii * list Ascii.ascii) :=
  match n, l with
  | O, _ => Some ([], l)
  | S n', c :: l' => if is_digit c then '(a, b) ← take_digits n' l'; Some (c :: a, b) else None
  | S _, [] => None
  end.

(** [\d{n}] followed by the character of code [sep]. *)
Definition digits_then (n : nat) (sep : nat) (l : list Ascii.ascii) : option (list Ascii.ascii * list Ascii.ascii) :=
  '(a, rest) ← take_digits n l;
  match rest with c :: rest' => if Nat.eqb (code c) sep then Some (a, rest') else None | [] => None end.

(** [/^(\d{4}):(\d{2}):(\d{2}) (\d{2}):(\d{2}):(\d{2})$/], rewritten as an ISO date. *)
Definition exif_date_to_iso (dt : string) : option string :=
  '(y, l1) ← digits_then 4 58 (chars dt);
  '(mo, l2) ← digits_then 2 58 l1;
  '(d, l3) ← digits_then 2 32 l2;
  '(h, l4) ← digits_then 2 58 l3;
  '(mi, l5) ← digits_then 2 58 l4;
  '(s, l6) ← take_digits 2 l5;
  match l6 with
  | [] => Some (of_chars y +:+ "-" +:+ of_chars mo +:+ "-" +:+ of_chars d +:+ "T" +:+ of_chars h +:+ ":" +:+ of_chars mi +:+ ":" +:+ of_chars s)
  | _ => None
  end.

Example exif_date_ex : exif_date_to_iso "2026:03:10 14:30:00" = Some "2026-03-10T14:30:00".
Proof. reflexivity. Qed.

Section checks.
Context `{M : MathApi} `{D : DateApi}.

Definition parseExifDateTime (dt : string) : option number := Date_getTime <$> exif_date_to_iso dt.

(** [[a, b].filter(Boolean).join(" ")] *)
Definition join_present (a b : option string) : string :=
  js_join " " (omap truthy [a; b]).

Definition validateCameraModel (m : ExifMetadata) (n : Notes) : bool * Notes :=
  match truthy (em_make m), truthy (em_model m) with
  | None, None => (false, push_failure "no camera make/model in EXIF (possible AI-generated or screenshot)" n)
  | _, _ => (true, push_check ("camera: " +:+ join_present (em_make m) (em_model m)) n)
  end.

(** [metadata.dateTimeOriginal || metadata.dateTime], when truthy. *)
Definition timestamp_text (m : ExifMetadata) : option string := nullish (truthy (em_dateTimeOriginal m)) (truthy (em_dateTime m)).

Definition validateTimestamp (now : number) (m : ExifMetadata) (o : ExifValidationOptions) (n : Notes) : bool * bool * Notes :=
  match timestamp_text m with
  | None => (false, false, push_failure "no timestamp in EXIF" n)
  | Some dtStr =>
  match parseExifDateTime dtStr with
  | None => (true, false, push_failure ("unparseable EXIF timestamp: " +:+ dtStr) n)
  | Some dt =>
      let refTime := opt_default now (xo_referenceTime o) in
      let maxAge := opt_default (num 3600000) (xo_maxAgeMs o) in
      let ageMs := nsub refTime dt in
      let timestampRecent := (ageMs ≥ₙ num 0) && (ageMs ≤ₙ maxAge) in
      (true, timestampRecent,
       if timestampRecent then push_check ("timestamp recent: " +:+ dtStr) n
       else push_failure ("timestamp not recent: " +:+ dtStr +:+ " (age: " +:+
                          number_to_string (nround (fdiv ageMs (num 60000))) +:+ "min)") n)
  end end.

Definition validateGps (m : ExifMetadata) (o : ExifValidationOptions) (n : Notes) : bool * option bool * Notes :=
  match em_gps m with
  | None => (false, None, n)
  | Some gps =>
      let n1 := push_check ("GPS: " +:+ toFixed 4 (gps_lat gps) +:+ ", " +:+ toFixed 4 (gps_lon gps)) n in
      match xo_expectedGps o with
      | None => (true, None, n1)
      | Some expected =>
          let maxDist := opt_default (num 50) (xo_maxDistanceKm o) in
          let policy := evaluateC2paGpsProximity gps (Some expected) maxDist "EXIF" in
          let gpsNearHint := bool_decide (px_failures policy = []) in
          let distanceKm := opt_default (num 0) (px_distanceKm policy) in
          (true, Some gpsNearHint,
           if gpsNearHint then
             push_check ("GPS within " +:+ number_to_string maxDist +:+ "km of hint (" +:+ toFixed 1 distanceKm +:+ "km)") n1
           else
             push_failure ("GPS " +:+ toFixed 1 distanceKm +:+ "km from hint (max " +:+ number_to_string maxDist +:+ "km)") n1)
      end
  end.

Definition is_some {A} (o : option A) : bool := match o with Some _ => true | None => false end.

Definition has_exif (m : ExifMetadata) : bool :=
  is_some (truthy (em_make m)) || is_some (truthy (em_model m)) || is_some (truthy (em_dateTime m)) || is_some (em_gps m).

Definition validateExif (now : number) (data : bytes) (o : ExifValidationOptions) : res ExifValidationResult :=
  metadata ← extractExifMetadata data;
  if negb (has_exif metadata) then
    Ok (mkExifResult false false false false false None metadata []
          ["no EXIF metadata found (possible AI-generated image)"])
  else
    let n0 := push_check "EXIF metadata present" (mkNotes [] []) in
    let '(hasCameraModel, n1) := validateCameraModel metadata n0 in
    let '(hasTimestamp, timestampRecent, n2) := validateTimestamp now metadata o n1 in
    let '(hasGps, gpsNearHint, n3) := validateGps metadata o n2 in
    Ok (mkExifResult true hasCameraModel hasTimestamp hasGps timestampRecent gpsNearHint metadata (nt_checks n3) (nt_failures n3)).

(** The age window of a timestamp: an unparsed or NaN time is in no window. *)
Definition in_window (now : number) (o : ExifValidationOptions) (t : number) : bool :=
  let age := nsub (opt_default now (xo_referenceTime o)) t in
  (age ≥ₙ num 0) && (age ≤ₙ opt_default (num 3600000) (xo_maxAgeMs o)).

Lemma push_failure_nil t n : nt_failures (push_failure t n) = [] <-> False.
Proof. cbn. split; [|done]. intros H. by apply app_eq_nil in H as [_ ?]. Qed.

Lemma push_check_failures t n : nt_failures (push_check t n) = nt_failures n.
Proof. done. Qed.

Local Opaque push_check push_failure.

Lemma camera_exact m n b n' :
  validateCameraModel m n = (b, n') -> (nt_failures n' = [] <-> nt_failures n = [] /\ b = true).
Proof.
  unfold validateCameraModel. destruct (truthy (em_make m)), (truthy (em_model m)); intros H; injection H as <- <-;
    rewrite ?push_failure_nil, ?push_check_failures; intuition discriminate.
Qed.

Lemma timestamp_exact now m o n b r n' :
  validateTimestamp now m o n = (b, r, n') ->
  (r = true <-> exists text iso, timestamp_text m = Some text /\ exif_date_to_iso text = Some iso /\
     in_window now o (Date_getTime iso) = true) /\
  (nt_failures n' = [] <-> nt_failures n = [] /\ r = true).
Proof.
  unfold validateTimestamp, parseExifDateTime. destruct (timestamp_text m) as [text|].
  2:{ intros H; injection H as <- <- <-. rewrite push_failure_nil.
      split; [split; [discriminate|intros (? & ? & ? & _); discriminate]|intuition discriminate]. }
  destruct (exif_date_to_iso text) as [iso|] eqn:Hi; cbn [fmap option_fmap option_map].
  2:{ intros H; injection H as <- <- <-. rewrite push_failure_nil.
      split; [split; [discriminate|intros (? & ? & [= <-] & ? & _); congruence]|intuition discriminate]. }
  fold (in_window now o (Date_getTime iso)). destruct (in_window now o (Date_getTime iso)) eqn:Hw;
    intros H; injection H as <- <- <-; rewrite ?push_failure_nil, ?push_check_failures.
  - split; [split; [intros _; by exists text, iso|done]|intuition].
  - split; [|intuition discriminate]. split; [discriminate|]. intros (? & ? & [= <-] & ? & ?). congruence.
Qed.

Lemma gps_exact m o n b g n' :
  validateGps m o n = (b, g, n') ->
  (g = Some true <-> exists gps hint, em_gps m = Some gps /\ xo_expectedGps o = Some hint /\
     dp_withinLimit (evaluateGpsDistancePolicy gps hint (opt_default (num 50) (xo_maxDistanceKm o))) = true) /\
  (nt_failures n' = [] <-> nt_failures n = [] /\ g <> Some false).
Proof.
  unfold validateGps. destruct (em_gps m) as [gps|].
  2:{ intros H; injection H as <- <- <-. split; [|intuition discriminate].
      split; [discriminate|intros (? & ? & ? & _); discriminate]. }
  destruct (xo_expectedGps o) as [hint|].
  2:{ intros H; injection H as <- <- <-. rewrite push_check_failures. split; [|intuition discriminate].
      split; [discriminate|intros (? & ? & _ & ? & _); discriminate]. }
  set (limit := opt_default (num 50) (xo_maxDistanceKm o)).
  pose proof (proximity_failures gps hint limit "EXIF") as Hpx.
  set (policy := evaluateC2paGpsProximity gps (Some hint) limit "EXIF") in *. clearbody policy.
  destruct (bool_decide_reflect (px_failures policy = [])) as [He|He];
    intros H; injection H as <- <- <-; rewrite ?push_failure_nil, ?push_check_failures.
  - split; [split; [intros _; exists gps, hint; tauto|done]|intuition discriminate].
  - split; [|intuition]. split; [discriminate|]. intros (? & ? & [= <-] & [= <-] & ?). tauto.
Qed.

(** A validation reports a recent timestamp exactly when the picture carries a
    well-formed capture time inside the window, reports a match with the hint
    exactly when the position is within the limit, and has no failures exactly
    when the camera is identified, the timestamp is recent and the position, if
    both it and a hint are present, matches. *)
Theorem exif_validation_exact now data o r :
  validateExif now data o = Ok r -> xr_hasExif r = true ->
  (xr_timestampRecent r = true <->
     exists text iso, timestamp_text (xr_metadata r) = Some text /\ exif_date_to_iso text = Some iso /\
       in_window now o (Date_getTime iso) = true) /\
  (xr_gpsNearHint r = Some true <->
     exists gps hint, em_gps (xr_metadata r) = Some gps /\ xo_expectedGps o = Some hint /\
       dp_withinLimit (evaluateGpsDistancePolicy gps hint (opt_default (num 50) (xo_maxDistanceKm o))) = true) /\
  (xr_failures r = [] <->
     xr_hasCameraModel r = true /\ xr_timestampRecent r = true /\ xr_gpsNearHint r <> Some false).
Proof.
  unfold validateExif. destruct (extractExifMetadata data) as [m|]; [|done]. cbn [mbind res_bind].
  destruct (negb (has_exif m)); [by intros [= <-]|].
  destruct (validateCameraModel m _) as [cam n1] eqn:H1. destruct (validateTimestamp now m o n1) as [[ht tr] n2] eqn:H2.
  destruct (validateGps m o n2) as [[hg near] n3] eqn:H3. intros [= <-] _. cbn [xr_timestampRecent xr_metadata xr_gpsNearHint xr_failures xr_hasCameraModel].
  apply camera_exact in H1. apply timestamp_exact in H2 as [H2 F2]. apply gps_exact in H3 as [H3 F3].
  split_and!; [done|done|]. rewrite F3, F2, H1, push_check_failures. cbn [nt_failures]. tauto.
Qed.
End checks.

(** A picture from a real camera taken half an hour before it is judged. *)
Definition sample_dates : DateApi := fun iso => if iso === "2026-03-10T14:30:00" then num 1773153000000 else NaN.

Definition sample_photo : bytes :=
  [0xff; 0xd8; 0xff; 0xe1; 0; 70]%Z ++ [0x45; 0x78; 0x69; 0x66; 0; 0]%Z ++ [0x49; 0x49; 42; 0; 8; 0; 0; 0; 2; 0]%Z ++
  [0x0f; 1; 2; 0; 3; 0; 0; 0; 0x4d; 0x34; 0; 0]%Z ++ [0x32; 1; 2; 0; 20; 0; 0; 0; 38; 0; 0; 0]%Z ++ [0; 0; 0; 0]%Z ++
  map (fun c => Z.of_nat (code c)) (chars "2026:03:10 14:30:00") ++ [0]%Z.

Definition plain_options : ExifValidationOptions := mkExifOptions None None None None.

Lemma exif_validation_exact_witness :
  exists r, validateExif (M := series_math) (D := sample_dates) (num 1773154800000) sample_photo plain_options = Ok r /\
    xr_timestampRecent r = true /\ xr_failures r = [].
Proof.
  destruct (validateExif (M := series_math) (D := sample_dates) (num 1773154800000) sample_photo plain_options) as [r|] eqn:E;
    [|vm_compute in E; discriminate].
  destruct (exif_validation_exact (M := series_math) (D := sample_dates) (num 1773154800000) sample_photo plain_options r E)
    as (_ & _ & HF).
  - vm_compute in E. by injection E as <-.
  - exists r. split; [done|]. vm_compute in E. injection E as <-. split; [reflexivity|]. by apply HF.
Defined.

(** A capture time alone, in the Exif directory, does not count as metadata. *)
Example original_time_is_no_exif : has_exif (mkExif None None None (Some "2026:03:10 14:30:00") None) = false.
Proof. reflexivity. Qed.
