(* ===== verification/C2pa.v ===== *)
(** * Content Credentials

    [packages/sdk/src/proofs/c2pa-validation.ts]: running [c2patool] on a file
    and reading its report, the signature verdict, the signed position and its
    binding to an expected one.  The tool's report is an arbitrary JSON value: a
    read the source performs without a check throws, as it does there. *)

From S2P Require Import Prelude JsNum JsString JsFloat JsValue QueryTypes Samples PreimageStore EventLoop JsonCodec Sidecar Exif Geo.

(** ** Data *)
Record C2paManifest := mkManifest {
  cm_title : jsval;
  cm_claimGenerator : jsval;
  cm_signatureInfo : option (jsval * jsval);  (* issuer, time *)
  cm_assertions : jsval;
}.

Record C2paValidationResult := mkC2pa {
  cv_available : bool;
  cv_hasManifest : bool;
  cv_signatureValid : bool;
  cv_manifest : option C2paManifest;
  cv_gps : option Gps;
  cv_checks : list string;
  cv_failures : list string;
}.

Record C2paGpsBindingResult := mkBinding {
  cb_passed : bool;
  cb_distanceKm : option number;
  cb_checks : list string;
  cb_failures : list string;
}.

(** ** Binding the signed position *)
Section binding.
Context `{M : MathApi}.

Definition verifyC2paGpsBinding (v : C2paValidationResult) (expectedGps : Gps) (maxDistanceKm : number) : C2paGpsBindingResult :=
  if negb (isFinite maxDistanceKm) || (maxDistanceKm <ₙ num 0) then
    mkBinding false None [] ["C2PA GPS binding policy has an invalid distance limit"]
  else
  let '(checks, failures) :=
    if negb (cv_available v) then ([], ["C2PA: verifier unavailable — cannot bind signed GPS to expected location"])
    else if negb (cv_hasManifest v) then ([], ["C2PA: no signed manifest found — cannot bind GPS to expected location"])
    else if negb (cv_signatureValid v) then ([], ["C2PA: manifest signature invalid — cannot trust GPS assertion"])
    else (["C2PA: signed manifest verified"], []) in
  match cv_gps v with
  | None => mkBinding false None checks (failures ++ ["C2PA: signed GPS assertion missing from verified manifest"])
  | Some gps =>
      let proximity := evaluateC2paGpsProximity gps (Some expectedGps) maxDistanceKm "C2PA: signed" in
      let distanceKm := px_distanceKm proximity in
      match failures with
      | _ :: _ => mkBinding false distanceKm checks failures
      | [] =>
          match px_failures proximity with
          | [] =>
              let distanceLabel := match distanceKm with None => "unknown" | Some d => toFixed 1 d end in
              mkBinding true distanceKm
                (checks ++ ["C2PA: signed GPS bound to expected location (" +:+ distanceLabel +:+ "km <= " +:+
                            number_to_string maxDistanceKm +:+ "km)"]) []
          | fs => mkBinding false distanceKm checks fs
          end
      end
  end.
End binding.

(** ** Reading the report *)
Definition type_error : exn := mkExn "TypeError" "Cannot read properties of undefined".

(** [v.k], a TypeError on [null] and [undefined]. *)
Definition read_prop (k : string) (v : jsval) : res jsval :=
  match v with VUndef | VNull => Throw type_error | _ => Ok (prop k v) end.

(** The elements an array method or [for ... of] visits; other values throw. *)
Definition array_elements (v : jsval) : res (list jsval) :=
  match v with VArr l => Ok l | _ => Throw type_error end.

(** [codes.some((v) => v.code === code)] *)
Fixpoint some_code (code : string) (l : list jsval) : res bool :=
  match l with
  | [] => Ok false
  | v :: l' => c ← read_prop "code" v; if eq_str c code then Ok true else some_code code l'
  end.

(** [failureCodes.filter((v) => !IGNORABLE_FAILURE_CODES.has(v.code))]: the set is empty. *)
Fixpoint real_failures (l : list jsval) : res (list jsval) :=
  match l with
  | [] => Ok []
  | v :: l' => _ ← read_prop "code" v; rest ← real_failures l'; Ok (v :: rest)
  end.

Definition evaluateSignature (report : jsval) : res bool :=
  let active := prop "activeManifest" (prop "validation_results" report) in
  successCodes ← array_elements (or_default (VArr []) (prop "success" active));
  failureCodes ← array_elements (or_default (VArr []) (prop "failure" active));
  claimSignatureOk ← some_code "claimSignature.validated" successCodes;
  realFailures ← real_failures failureCodes;
  Ok (claimSignatureOk && bool_decide (length realFailures = 0)).

(** The active manifest and its raw assertions. *)
Definition parseActiveManifest (report : jsval) : option (jsval * jsval) :=
  let manifests := prop "manifests" report in
  let activeManifestLabel := prop "active_manifest" report in
  if negb (js_truthy manifests) || negb (js_truthy activeManifestLabel) then None
  else
    let active := prop (js_string activeManifestLabel) manifests in
    if negb (js_truthy active) then None else Some (active, prop "assertions" active).

Definition buildManifest (active rawAssertions : jsval) : C2paManifest :=
  let sigInfo := prop "signature_info" active in
  mkManifest (prop "title" active) (prop "claim_generator" active)
    (if js_truthy sigInfo then Some (prop "issuer" sigInfo, prop "time" sigInfo) else None)
    (if js_truthy rawAssertions then rawAssertions else VUndef).

(** ** The signed position *)
Definition GPS_KEY_PREFIXES : list string := ["EXIF:"; "exif:"; "@exif:"].

Definition is_nullish (v : jsval) : bool := match v with VUndef | VNull => true | _ => false end.

Fixpoint lookup_prefixes (prefixes : list string) (data : jsval) (field : string) : jsval :=
  match prefixes with
  | [] => VUndef
  | p :: prefixes' =>
      let val := prop (p +:+ field) data in
      if negb (is_nullish val) then val else lookup_prefixes prefixes' data field
  end.
Definition lookupGpsKeys (data : jsval) (field : string) : jsval := lookup_prefixes GPS_KEY_PREFIXES data field.

(** The last character, when it is one of [cs] in either case. *)
Definition ends_with_letter (cs : string) (s : string) : bool :=
  match rev (chars s) with c :: _ => existsb (Ascii.eqb (upper_char c)) (chars cs) | [] => false end.

Definition applyGpsDirection (value : number) (ref raw : jsval) (negativeChar : string) : number :=
  let by_suffix := match raw with VStr s => if ends_with_letter negativeChar s then nneg (nabs value) else value | _ => value end in
  match ref with
  | VStr r => if startsWith negativeChar (toUpperCase r) then nneg value else by_suffix
  | _ => by_suffix
  end.

(** [s.split(",")] *)
Fixpoint split_chars (sep : nat) (l : list Ascii.ascii) : list (list Ascii.ascii) :=
  match l with
  | [] => [[]]
  | c :: l' =>
      if Nat.eqb (code c) sep then [] :: split_chars sep l'
      else match split_chars sep l' with x :: xs => (c :: x) :: xs | [] => [[c]] end
  end.
Definition js_split (sep : nat) (s : string) : list string := map of_chars (split_chars sep (chars s)).

Definition strip_direction (s : string) : string :=
  if ends_with_letter "NSEW" s then of_chars (rev (drop 1 (rev (chars s)))) else s.

Definition parseGpsValue (raw : jsval) : option number :=
  match raw with
  | VNum n => Some n
  | VStr s =>
      let cleaned := trim (strip_direction s) in
      let decimal := parseFloat cleaned in
      if negb (includes "," cleaned) && isFinite decimal then Some decimal
      else
        let parts := map (fun p => parseFloat (trim p)) (js_split 44 cleaned) in
        if existsb (fun p => negb (isFinite p)) parts then None
        else
          match parts with
          | [d; m] => Some (fadd d (fdiv m (num 60)))
          | [d; m; s] => Some (fadd (fadd d (fdiv m (num 60))) (fdiv s (num 3600)))
          | _ => None
          end
  | _ => None
  end.

Example parseGpsValue_ex :
  map parseGpsValue [VStr "35.5"; VStr "35,30N"; VStr "35,30,36 "; VStr "x"; VNum (num 7); VStr "1,2,3,4"] =
  [Some (Finite 71 1); Some (Finite 71 1); Some (js_Number "35.51"); None; Some (num 7); None].
Proof. vm_compute. reflexivity. Qed.

(** [label.includes("exif")]: strings and arrays have the method. *)
Definition label_includes_exif (label : jsval) : res bool :=
  match label with
  | VStr s => Ok (includes "exif" s)
  | VArr l => Ok (existsb (fun x => eq_str x "exif") l)
  | _ => Throw type_error
  end.

(** The position of one assertion, [None] for [continue]. *)
Definition assertion_gps (data : jsval) : option Gps :=
  let latRaw := lookupGpsKeys data "GPSLatitude" in
  let lonRaw := lookupGpsKeys data "GPSLongitude" in
  if is_nullish latRaw || is_nullish lonRaw then None
  else
  match parseGpsValue latRaw, parseGpsValue lonRaw with
  | Some lat, Some lon =>
      let finalLat := applyGpsDirection lat (lookupGpsKeys data "GPSLatitudeRef") latRaw "S" in
      let finalLon := applyGpsDirection lon (lookupGpsKeys data "GPSLongitudeRef") lonRaw "W" in
      if negb (finalLat =ₙ num 0) || negb (finalLon =ₙ num 0) then Some (mkGps finalLat finalLon) else None
  | _, _ => None
  end.

Fixpoint first_gps (l : list jsval) : res (option Gps) :=
  match l with
  | [] => Ok None
  | assertion :: l' =>
      label ← read_prop "label" assertion;
      has ← label_includes_exif label;
      let data := prop "data" assertion in
      if negb has || negb (js_truthy data) then first_gps l'
      else match assertion_gps data with Some g => Ok (Some g) | None => first_gps l' end
  end.

Definition extractC2paGps (assertions : jsval) : res (option Gps) :=
  if negb (js_truthy assertions) then Ok None else l ← array_elements assertions; first_gps l.

(** ** Running the tool *)
Definition findC2paTool (override : option (option string)) (ex : SidecarExecutor) : option string :=
  match override with Some p => p | None => ex_which ex "c2patool" end.

Definition isC2paAvailable (toolPath : option (option string)) (executor : option SidecarExecutor) (serverSidecarExecutor : SidecarExecutor)
    : bool := match findC2paTool toolPath (opt_default serverSidecarExecutor executor) with Some _ => true | None => false end.

Definition SUPPORTED_EXTENSIONS : list string :=
  [".jpg"; ".jpeg"; ".png"; ".webp"; ".heic"; ".heif"; ".mp4"; ".mov"].

Definition noToolResult : C2paValidationResult :=
  mkC2pa false false false None None ["c2patool not available (skipped)"] [].
Definition noManifestResult (checks failures : list string) : C2paValidationResult :=
  mkC2pa true false false None None checks failures.

(** [filename.match(/\.[^.]+$/)?.[0] ?? ""] *)
Definition extension (filename : string) : string :=
  match rev (split_chars 46 (chars filename)) with
  | ((_ :: _) as last) :: _ :: _ => "." +:+ of_chars last
  | _ => ""
  end.

Example extension_ex : map extension ["a.JPG"; "photo"; "a.b.png"; "x."; ".mov"] = [".JPG"; ""; ".png"; ""; ".mov"].
Proof. reflexivity. Qed.

(** What the tool's run leaves: a report, or a note. *)
Inductive ToolRun :=
| Report (v : jsval)
| NoReport (checks failures : list string).

Definition read_tool_run `{J : JSON} (exitCode : Z) (stdout stderr : string) : ToolRun :=
  if negb (exitCode =? 0)%Z then
    let stderrLower := toLowerCase stderr in
    if includes "no claim found" stderrLower || includes "manifestnotfound" stderrLower || includes "no manifest" stderrLower
    then NoReport ["no C2PA manifest found"] []
    else NoReport [] ["c2patool error: " +:+ slice0 200 (trim stderr)]
  else
    match JSON_parse stdout with
    | Some v => Report v
    | None => NoReport [] ["failed to parse c2patool JSON output"]
    end.

(** The notes of a manifest's fields. *)
Definition note_if (v : jsval) (label : string) : list string := if js_truthy v then [label +:+ js_string v] else [].

Definition read_c2pa_report (report : jsval) : res C2paValidationResult :=
  if negb (js_truthy report) then Ok (noManifestResult [] [])
  else
  match parseActiveManifest report with
  | None => Ok (noManifestResult ["C2PA data present but no active manifest"] [])
  | Some (active, rawAssertions) =>
      let manifest := buildManifest active rawAssertions in
      match evaluateSignature report with
      | Throw e => Throw e
      | Ok signatureValid =>
      let info (f : jsval * jsval -> jsval) := match cm_signatureInfo manifest with Some i => f i | None => VUndef end in
      let checks := ["C2PA manifest found"] ++ note_if (cm_claimGenerator manifest) "claim generator: " ++
                    note_if (info fst) "signer: " ++ note_if (info snd) "signed at: " ++
                    (if signatureValid then ["C2PA signature valid"] else []) in
      let failures := if signatureValid then [] else ["C2PA signature validation failed"] in
      gps ← extractC2paGps rawAssertions;
      Ok (mkC2pa true true signatureValid (Some manifest) gps
            (checks ++ match gps with
                       | Some g => ["C2PA EXIF GPS: " +:+ toFixed 4 (gps_lat g) +:+ ", " +:+ toFixed 4 (gps_lon g)]
                       | None => []
                       end) failures)
      end
  end.

(** Files and processes: [E] is the rest of the world. *)
Section tool.
Context `{J : JSON} {E : Type}.
Record C2paIo := mkC2paIo {
  c2_mkdtemp : E -> E * res string;
  c2_write : string -> list Z -> E -> E * res unit;
  c2_spawn : list string -> E -> E * res (Z * string * string);  (* exit code, stdout, stderr *)
  c2_rm : string -> E -> E * res unit;
}.
Variable io : C2paIo.

Definition on_world {A} (f : E -> E * res A) : call E A := fun e => let '(e', r) := f e in (e', Settled r).

Definition lift_res {A} (r : res A) : call E A := fun e => (e, Settled r).

(** [try { return await c() } finally { await f() }] *)
Fixpoint tsettle {A} (t : task E A) : task E (res A) :=
  match t with
  | Settled r => Settled (Ok r)
  | Await k => Await (fun e => let '(e', t') := k e in (e', tsettle t'))
  end.
Definition settle {A} (c : call E A) : call E (res A) := fun e => let '(e', t) := c e in (e', tsettle t).

Definition try_finally {A} (c : call E A) (f : call E unit) : call E A :=
  await (settle c) (fun r => await f (fun _ => lift_res r)).

Definition runC2paTool (toolPath inputPath : string) : call E ToolRun :=
  await (on_world (c2_spawn io [toolPath; inputPath])) (fun '(exitCode, stdout, stderr) =>
    ret (read_tool_run exitCode stdout stderr)).

Definition validateC2pa (data : list Z) (filename : string) (toolPath : option (option string)) (ex : SidecarExecutor)
    : call E C2paValidationResult :=
  match truthy (findC2paTool toolPath ex) with
  | None => ret noToolResult
  | Some tool =>
  let ext := toLowerCase (extension filename) in
  if negb (existsb (String.eqb ext) SUPPORTED_EXTENSIONS) then
    ret (noManifestResult ["unsupported format for C2PA: " +:+ ext] [])
  else
  await (on_world (c2_mkdtemp io)) (fun tempDir =>
    let inputPath := tempDir +:+ "/input" +:+ ext in
    try_finally
      (await (on_world (c2_write io inputPath data)) (fun _ =>
         await (runC2paTool tool inputPath) (fun run =>
           match run with
           | NoReport checks failures => ret (noManifestResult checks failures)
           | Report report => lift_res (read_c2pa_report report)
           end)))
      (on_world (c2_rm io tempDir)))
  end.
End tool.

(** ** Content Credentials: fail-closed signatures, bound positions, clean-up *)

(** ** The signature verdict *)
Lemma some_code_true code l : some_code code l = Ok true -> exists v, v ∈ l /\ prop "code" v = VStr code.
Proof.
  induction l as [|v l IH]; [done|]. cbn [some_code]. unfold read_prop.
  assert (Hgo : forall c, prop "code" v = c ->
    (if eq_str c code then Ok true else some_code code l) = Ok true -> exists v0, v0 ∈ v :: l /\ prop "code" v0 = VStr code).
  { intros c Hc. destruct (eq_str c code) eqn:E.
    - intros _. exists v. split; [by left|]. apply eq_str_true in E. congruence.
    - intros H. destruct (IH H) as (x & Hx & Hp). exists x. split; [by right|done]. }
  destruct v; cbn [mbind res_bind]; try done; by apply Hgo.
Qed.

Lemma real_failures_all l r : real_failures l = Ok r -> r = l.
Proof.
  revert r. induction l as [|v l IH]; intros r; cbn [real_failures]; [by intros [= <-]|].
  destruct (read_prop "code" v) as [c|]; [|done]. cbn [mbind res_bind].
  destruct (real_failures l) as [r'|]; [|done]. cbn [mbind res_bind]. intros [= <-]. by rewrite (IH r').
Qed.

(** The validation results of the active manifest, as the report lists them. *)
Definition listed (outcome : string) (report : jsval) : jsval :=
  or_default (VArr []) (prop outcome (prop "activeManifest" (prop "validation_results" report))).

(** A clean report: the claim signature is among the successes and there is no failure entry. *)
Definition clean_report (report : jsval) : Prop :=
  (exists l v, listed "success" report = VArr l /\ v ∈ l /\ prop "code" v = VStr "claimSignature.validated") /\
  listed "failure" report = VArr [].

Lemma evaluateSignature_clean report : evaluateSignature report = Ok true -> clean_report report.
Proof.
  unfold evaluateSignature, clean_report. fold (listed "success" report) (listed "failure" report).
  destruct (listed "success" report) as [| | | | |ok| |] eqn:Hs; cbn [array_elements mbind res_bind]; try discriminate.
  destruct (listed "failure" report) as [| | | | |bad| |] eqn:Hf; cbn [array_elements mbind res_bind]; try discriminate.
  destruct (some_code "claimSignature.validated" ok) as [b|] eqn:Hc; cbn [mbind res_bind]; [|discriminate].
  destruct (real_failures bad) as [r|] eqn:Hr; cbn [mbind res_bind]; [|discriminate].
  intros H. injection H as H. apply andb_true_iff in H as [-> H]. apply bool_decide_eq_true in H.
  apply real_failures_all in Hr as ->. destruct bad; [|discriminate H]. split; [|done].
  apply some_code_true in Hc as (v & Hv & Hp). by exists ok, v.
Qed.

Lemma read_c2pa_report_valid report r :
  read_c2pa_report report = Ok r -> cv_signatureValid r = true ->
  cv_available r = true /\ cv_hasManifest r = true /\ clean_report report /\
  exists active raw, parseActiveManifest report = Some (active, raw) /\ extractC2paGps raw = Ok (cv_gps r).
Proof.
  unfold read_c2pa_report. destruct (negb (js_truthy report)).
  { intros H. injection H as <-. discriminate. }
  destruct (parseActiveManifest report) as [[active raw]|] eqn:Hp.
  2:{ intros H. injection H as <-. discriminate. }
  destruct (evaluateSignature report) as [b|] eqn:Hs; [|discriminate].
  destruct (extractC2paGps raw) as [gps|] eqn:Hg; cbn [mbind res_bind]; [|discriminate].
  intros H. injection H as <-. cbn. intros ->. split_and!; [done|done|by apply evaluateSignature_clean|].
  by exists active, raw.
Qed.

(** ** Running the tool *)
Section tool.
Context `{J : JSON} {E : Type} (io : C2paIo (E := E)).

Lemma resolves_tsettle {A} R (t : task E A) r :
  resolves R (tsettle t) r -> exists r0, r = Ok r0 /\ resolves R t r0.
Proof.
  induction t as [r0|k IH] using task_induction; simpl.
  - intros H%resolves_Settled. subst. exists r0. by split; [|constructor].
  - intros H. inversion H as [|? s s' t' ? HR Ht Hr]; subst. specialize (IH s).
    destruct (k s) as [s1 t1] eqn:Ek. simplify_eq/=. apply IH in Hr as (r0 & -> & Hr0).
    exists r0. split; [done|]. by eapply resolves_await.
Qed.

Lemma outcome_settle {A} R (c : call E A) e r :
  outcome R (settle c) e r -> exists r0, r = Ok r0 /\ outcome R c e r0.
Proof. unfold outcome, settle. destruct (c e) as [e' t]. simpl. apply resolves_tsettle. Qed.

Lemma outcome_finally {A} R (c : call E A) f e a :
  outcome R (try_finally c f) e (Ok a) -> outcome R c e (Ok a).
Proof.
  intros H. apply outcome_await in H as (r & e1 & H1 & _ & H). apply outcome_settle in H1 as (r0 & [= ->] & H1).
  apply outcome_await in H as (u & e2 & _ & _ & H). apply resolves_Settled in H. by subst.
Qed.

Lemma outcome_on_world {A} R (f : E -> E * res A) e r : outcome R (on_world f) e r -> r = (f e).2.
Proof. unfold outcome, on_world. destruct (f e). apply resolves_Settled. Qed.

(** The report is what the tool printed on a file it was given, exiting with 0. *)
Definition printed_by (tool : string) (report : jsval) : Prop :=
  exists path e out err, (c2_spawn io [tool; path] e).2 = Ok (0%Z, out, err) /\ JSON_parse out = Some report.

Lemma runC2paTool_report R tool path e report :
  outcome R (runC2paTool io tool path) e (Ok (Report report)) -> printed_by tool report.
Proof.
  intros H. apply outcome_await in H as ([[code out] err] & e1 & Ho & _ & H). apply outcome_on_world in Ho.
  apply outcome_ret in H. injection H as H. unfold read_tool_run in H. destruct (Z.eqb_spec code 0) as [->|]; cbn [negb] in H.
  - destruct (JSON_parse out) as [v|] eqn:Hp; [|discriminate H]. injection H as ->.
    by exists path, e, out, err.
  - match type of H with _ = (if ?b then _ else _) => destruct b; discriminate H end.
Qed.

(** C20: Content Credentials verify only when the verifier tool says so: a result
    with a valid signature comes from a run of the tool that exited with 0 and
    whose report has an active manifest, the claim-signature success and no
    failure entry at all; the reported position is the one of that manifest. *)
Theorem c2pa_signature_fails_closed R data filename toolPath ex e r :
  outcome R (validateC2pa io data filename toolPath ex) e (Ok r) -> cv_signatureValid r = true ->
  exists tool report active raw,
    findC2paTool toolPath ex = Some tool /\ printed_by tool report /\ clean_report report /\
    parseActiveManifest report = Some (active, raw) /\ extractC2paGps raw = Ok (cv_gps r).
Proof.
  unfold validateC2pa. destruct (truthy (findC2paTool toolPath ex)) as [tool|] eqn:Ht.
  2:{ intros H. apply outcome_ret in H. injection H as ->. discriminate. }
  apply truthy_Some in Ht as [Ht _]. cbv zeta.
  destruct (negb (existsb (String.eqb (toLowerCase (extension filename))) SUPPORTED_EXTENSIONS)).
  { intros H. apply outcome_ret in H. injection H as ->. discriminate. }
  intros H Hv. apply outcome_await in H as (dir & e1 & _ & _ & H). apply outcome_finally in H.
  apply outcome_await in H as (u & e2 & _ & _ & H). apply outcome_await in H as (run & e3 & Hrun & _ & H).
  destruct run as [report|cs fs].
  - apply resolves_Settled in H. symmetry in H. apply runC2paTool_report in Hrun.
    destruct (read_c2pa_report_valid report r H Hv) as (_ & _ & Hc & active & raw & Hp & Hg).
    by exists tool, report, active, raw.
  - apply outcome_ret in H. injection H as ->. discriminate.
Qed.

Lemma run_settle {A} (c : call E A) e : run_call (settle c) e = let '(e', r) := run_call c e in (e', Ok r).
Proof.
  unfold run_call, settle. destruct (c e) as [e1 t]. clear. revert e1.
  induction t as [r|k IH] using task_induction; intros e1; simpl; [done|].
  specialize (IH e1). destruct (k e1) as [e2 t2]. apply IH.
Qed.

(** The temporary directory is removed on every path: a run that created one,
    whether it succeeds, finds nothing or throws, ends by removing it. *)
Theorem c2pa_tempdir_removed data filename toolPath ex e e1 dir :
  c2_mkdtemp io e = (e1, Ok dir) ->
  (run_call (validateC2pa io data filename toolPath ex) e).1 = e \/
  exists e2, (run_call (validateC2pa io data filename toolPath ex) e).1 = (c2_rm io dir e2).1.
Proof.
  intros Hd. unfold validateC2pa. destruct (truthy (findC2paTool toolPath ex)) as [tool|]; [|by left]. cbv zeta.
  destruct (negb (existsb (String.eqb (toLowerCase (extension filename))) SUPPORTED_EXTENSIONS)); [by left|].
  right. rewrite run_call_await. unfold run_call at 1, on_world. rewrite Hd. cbn [run_alone].
  unfold try_finally. rewrite run_call_await, run_settle.
  match goal with |- context [let '(_, _) := run_call ?c e1 in _] => destruct (run_call c e1) as [e2 r] end.
  rewrite run_call_await. exists e2. unfold run_call at 1, on_world. destruct (c2_rm io dir e2) as [e3 [u|x]]; done.
Qed.
End tool.

(** ** The position binding *)

Lemma gps_binding_iff `{M : MathApi} v expected limit :
  let b := verifyC2paGpsBinding v expected limit in
  (cb_passed b = true <->
     isFinite limit = true /\ (limit <ₙ num 0) = false /\ cv_available v = true /\ cv_hasManifest v = true /\
     cv_signatureValid v = true /\
     exists gps, cv_gps v = Some gps /\ dp_withinLimit (evaluateGpsDistancePolicy gps expected limit) = true) /\
  (cb_passed b = true <-> cb_failures b = []).
Proof.
  cbv zeta. unfold verifyC2paGpsBinding. destruct (negb (isFinite limit) || (limit <ₙ num 0)) eqn:Hl.
  { cbn. split; [|by split]. split; [discriminate|]. intros (H1 & H2 & _). rewrite H1, H2 in Hl. discriminate. }
  apply orb_false_iff in Hl as [Hfin Hneg]. apply negb_false_iff in Hfin.
  destruct (cv_gps v) as [gps|].
  - pose proof (proximity_failures gps expected limit "C2PA: signed") as Hp.
    set (px := evaluateC2paGpsProximity gps (Some expected) limit "C2PA: signed") in *. clearbody px.
    destruct (cv_available v), (cv_hasManifest v), (cv_signatureValid v); cbn [negb cb_passed cb_failures app];
      try (split; [split; [discriminate|intuition discriminate]|split; discriminate]).
    destruct (px_failures px) as [|f fs]; cbn [cb_passed cb_failures].
    + split; [|by split]. split; [|done]. intros _. split_and!; try done. exists gps. split; [done|]. by apply Hp.
    + split; [|split; discriminate]. split; [discriminate|].
      intros (_ & _ & _ & _ & _ & g & Hg & Hw). injection Hg as <-. apply Hp in Hw. discriminate.
  - destruct (cv_available v), (cv_hasManifest v), (cv_signatureValid v); cbn [negb cb_passed cb_failures app];
      (split; [split; [discriminate|intros (_ & _ & _ & _ & _ & g & Hg & _); discriminate]|split; discriminate]).
Qed.

(** A position is bound exactly when the distance limit is a finite
    non-negative number, the manifest was found and its signature verified by an
    available tool, the manifest carries a position and that position lies within
    the limit; and the binding reports no failure exactly when it passed. *)
Theorem gps_binding_exact `{M : MathApi} v expected limit :
  let b := verifyC2paGpsBinding v expected limit in
  (cb_passed b = true <->
     isFinite limit = true /\ (limit <ₙ num 0) = false /\ cv_available v = true /\ cv_hasManifest v = true /\
     cv_signatureValid v = true /\
     exists gps, cv_gps v = Some gps /\ dp_withinLimit (evaluateGpsDistancePolicy gps expected limit) = true) /\
  (cb_passed b = true <-> cb_failures b = []).
Proof. apply gps_binding_iff. Qed.

(** ** Witnesses *)
Definition c2pa_report : jsval := VObj [
  ("active_manifest", VStr "m1");
  ("manifests", VObj [("m1", VObj [("title", VStr "photo"); ("assertions", VArr [VObj [("label", VStr "stds.exif");
     ("data", VObj [("EXIF:GPSLatitude", VStr "35,30N"); ("EXIF:GPSLongitude", VStr "139.5")])]])])]);
  ("validation_results", VObj [("activeManifest", VObj [
     ("success", VArr [VObj [("code", VStr "claimSignature.validated")]]); ("failure", VArr [])])])].

Definition c2pa_io : C2paIo (E := nat) := mkC2paIo
  (fun n => (S n, Ok "/tmp/anchr-c2pa-1")) (fun _ _ n => (n, Ok tt))
  (fun _ n => (n, Ok (0%Z, codec_stringify c2pa_report, ""))) (fun _ n => (pred n, Ok tt)).
Definition c2pa_executor : SidecarExecutor := mkExecutor (fun _ => false) (fun n => Some n) (fun _ => []).
Definition c2pa_run := run_call (validateC2pa (J := codec) c2pa_io [1; 2]%Z "photo.JPG" None c2pa_executor) 0%nat.
Definition c2pa_verdict (r : res C2paValidationResult) : C2paValidationResult :=
  match r with Ok v => v | Throw _ => noToolResult end.

Lemma c2pa_signature_fails_closed_witness :
  cv_gps (c2pa_verdict c2pa_run.2) = Some (mkGps (Finite 71 1) (Finite 279 1)) /\
  exists report, clean_report report /\ printed_by (J := codec) c2pa_io "c2patool" report.
Proof.
  split; [vm_compute; reflexivity|].
  destruct (c2pa_signature_fails_closed (J := codec) c2pa_io (fun _ => True) [1; 2]%Z "photo.JPG" None c2pa_executor 0%nat
    (c2pa_verdict c2pa_run.2)) as (tool & report & active & raw & Ht & Hp & Hc & _).
  - apply run_call_outcome. vm_compute. reflexivity.
  - vm_compute. reflexivity.
  - exists report. split; [exact Hc|]. injection Ht as <-. exact Hp.
Defined.

Lemma c2pa_tempdir_removed_witness :
  exists n, c2pa_run.1 = (c2_rm c2pa_io "/tmp/anchr-c2pa-1" n).1.
Proof.
  destruct (c2pa_tempdir_removed (J := codec) c2pa_io [1; 2]%Z "photo.JPG" None c2pa_executor 0%nat 1%nat "/tmp/anchr-c2pa-1")
    as [H|H].
  - reflexivity.
  - exists 1%nat. vm_compute. reflexivity.
  - exact H.
Defined.

(** A southern latitude written with a sign and with a reference letter: the
    reference negates the signed value, and the position moves to the other
    hemisphere; the same value with a letter suffix keeps its sign. *)
Example signed_latitude_flips :
  applyGpsDirection (num (-35)) (VStr "S") (VStr "-35") "S" = num 35 /\
  applyGpsDirection (num (-35)) VUndef (VStr "-35S") "S" = num (-35).
Proof. split; reflexivity. Qed.
