(* ===== verification/Proofmode.v ===== *)
(** * ProofMode bundles

    [packages/sdk/src/proofs/proofmode-validation.ts]: unpacking an archive with
    [unzip], reading [proof.json], comparing the photo's hash and running [gpg]
    on the detached signature.  Files and processes belong to the world [E]. *)

From S2P Require Import Prelude JsNum JsMap JsString JsFloat JsValue Samples PreimageStore EventLoop JsonCodec Exif C2pa.

Record ProofModeMetadata := mkProof {
  pm_fileHashSha256 : jsval;
  pm_proofGenerated : jsval;
  pm_manufacturer : jsval;
  pm_hardware : jsval;
  pm_screenSize : jsval;
  pm_locationProvider : jsval;
  pm_locationLatitude : number;
  pm_locationLongitude : number;
  pm_locationAccuracy : jsval;
  pm_locationAltitude : number;
  pm_locationSpeed : number;
  pm_locationBearing : number;
  pm_networkType : jsval;
  pm_locale : jsval;
}.

Record ProofModeData := mkProofMode {
  pd_photo : bytes;
  pd_photoFilename : string;
  pd_proof : option ProofModeMetadata;
  pd_hashValid : bool;
  pd_pgpValid : option bool;
  pd_hasOts : bool;
  pd_hasDeviceCheck : bool;
  pd_checks : list string;
  pd_failures : list string;
}.

(** The unpacked files by bare name, in insertion order. *)
Notation Entries := (jsmap string bytes).

Definition endsWith (suffix s : string) : bool :=
  startsWith (of_chars (rev (chars suffix))) (of_chars (rev (chars s))).

(** [Buffer.toString("utf-8")] on bytes: strings are byte strings. *)
Definition utf8_text (b : bytes) : string := of_chars (map (fun x => Ascii.ascii_of_nat (Z.to_nat x)) b).

(** ** [proof.json] *)

(** [parseFloat(v) || d] *)
Definition float_or (v : jsval) (d : Z) : number :=
  let n := parseFloat (js_string v) in if num_truthy n then n else num d.

Section parse.
Context `{J : JSON} `{N : Noble}.

Definition parseProofJson (raw : string) : option ProofModeMetadata :=
  match JSON_parse raw with
  | None | Some VNull | Some VUndef => None
  | Some obj =>
      let text k := or_default (VStr "") (prop k obj) in
      Some (mkProof (text "File Hash SHA256") (text "Proof Generated") (text "Manufacturer") (text "Hardware")
              (text "ScreenSize") (text "Location.Provider")
              (float_or (prop "Location.Latitude" obj) 0) (float_or (prop "Location.Longitude" obj) 0)
              (text "Location.Accuracy") (float_or (prop "Location.Altitude" obj) 0)
              (float_or (prop "Location.Speed" obj) (-1)) (float_or (prop "Location.Bearing" obj) (-1))
              (text "NetworkType") (text "Locale"))
  end.

(** [/\.(jpg|jpeg|png|heic|webp)$/i.test(name) && !name.startsWith("__MACOSX")] *)
Definition is_photo_name (name : string) : bool :=
  existsb (fun ext => endsWith ext (toLowerCase name)) [".jpg"; ".jpeg"; ".png"; ".heic"; ".webp"] &&
  negb (startsWith "__MACOSX" name).

Definition findPhotoEntry (entries : Entries) : option (string * bytes) :=
  List.find (fun '(name, _) => is_photo_name name) entries.

Definition hash_hex (b : bytes) : string := bytesToHex (sha256 b).

(** [v.slice(0, 16)]: strings and arrays have the method. *)
Definition slice16 (v : jsval) : res string :=
  match v with
  | VStr s => Ok (slice0 16 s)
  | VArr l => Ok (js_string (VArr (take 16 l)))
  | _ => Throw type_error
  end.

(** The accuracy note; [split] is a method of strings only. *)
Definition accuracy_note (p : ProofModeMetadata) : res (list string) :=
  if js_truthy (pm_locationProvider p) && negb (pm_locationLatitude p =ₙ num 0) then
    match pm_locationAccuracy p with
    | VStr a =>
        let accuracy := opt_default a (truthy (head (js_split 44 a))) in
        Ok ["ProofMode: GPS via " +:+ js_string (pm_locationProvider p) +:+ " (accuracy: " +:+
            toFixed 1 (parseFloat accuracy) +:+ "m)"]
    | _ => Throw type_error
    end
  else Ok [].

(** [proof], [hashValid], and the notes pushed. *)
Definition validateProofJson (entries : Entries) (photo : bytes)
    : res (option ProofModeMetadata * bool * list string * list string) :=
  match List.find (fun '(name, _) => endsWith ".proof.json" name) entries with
  | None => Ok (None, false, ["ProofMode: no proof.json (partial bundle)"], [])
  | Some (_, raw) =>
  match parseProofJson (utf8_text raw) with
  | None => Ok (None, false, [], [])
  | Some proof =>
      let parsed := "ProofMode: proof.json parsed (" +:+ js_string (pm_manufacturer proof) +:+ " " +:+
                    js_string (pm_hardware proof) +:+ ")" in
      let actualHash := hash_hex photo in
      let hashValid := eq_str (pm_fileHashSha256 proof) actualHash in
      failures ← (if hashValid then Ok []
                  else s ← slice16 (pm_fileHashSha256 proof);
                       Ok ["ProofMode: SHA256 mismatch (expected " +:+ s +:+ "..., got " +:+ slice0 16 actualHash +:+ "...)"]);
      note ← accuracy_note proof;
      Ok (Some proof, hashValid, [parsed] ++ (if hashValid then ["ProofMode: SHA256 hash matches"] else []) ++ note, failures)
  end end.

Definition checkAncillaryProofs (entries : Entries) : bool * bool * list string :=
  let hasOts := existsb (endsWith ".ots") (jm_keys entries) in
  let hasDeviceCheck := existsb (endsWith ".devicecheck") (jm_keys entries) in
  (hasOts, hasDeviceCheck,
   (if hasOts then ["ProofMode: OpenTimestamps proof present (Bitcoin anchored)"] else []) ++
   (if hasDeviceCheck then ["ProofMode: Apple DeviceCheck attestation present"] else [])).
End parse.

(** ** Files and processes *)
Inductive DirItem :=
| FileItem (name : string) (content : res bytes)
| DirectoryItem (name : string) (items : list DirItem).

(** [readDir]: files are keyed by their bare names; an unreadable file throws. *)
Fixpoint read_item (i : DirItem) (entries : Entries) : res Entries :=
  match i with
  | FileItem name (Ok content) => Ok (jm_set name content entries)
  | FileItem _ (Throw e) => Throw e
  | DirectoryItem name sub =>
      if name === "__MACOSX" then Ok entries
      else (fix go (l : list DirItem) (entries : Entries) : res Entries :=
              match l with
              | [] => Ok entries
              | x :: l' => match read_item x entries with Ok entries' => go l' entries' | Throw e => Throw e end
              end) sub entries
  end.

Fixpoint readDir (items : list DirItem) (entries : Entries) : res Entries :=
  match items with
  | [] => Ok entries
  | x :: items' => match read_item x entries with Ok entries' => readDir items' entries' | Throw e => Throw e end
  end.

Section world.
Context `{J : JSON} `{N : Noble} {E : Type}.

Record ProofModeIo := mkProofIo {
  pio_stamp : E -> E * string;                       (* the time and random suffix of a directory name *)
  pio_mkdir : string -> E -> E * res unit;
  pio_write : string -> bytes -> E -> E * res unit;
  pio_spawn : list string -> E -> E * res Z;         (* the exit code *)
  pio_readdir : string -> E -> E * res (list DirItem);
  pio_rm : string -> E -> E * res unit;
}.
Variable io : ProofModeIo.

(** A synchronous block of operations that may throw. *)
Definition then_ {A B} (f : E -> E * res A) (g : A -> E -> E * res B) : E -> E * res B := fun e =>
  match f e with (e', Ok a) => g a e' | (e', Throw x) => (e', Throw x) end.
Definition pure {A} (a : A) : E -> E * res A := fun e => (e, Ok a).
Notation "x <-- f ;; k" := (then_ f (fun x => k)) (at level 100, f at next level, right associativity).

(** The [try] block of [extractZipEntries]; the exit code of [unzip] is not read. *)
Definition unzip_session (tmpDir : string) (zip : bytes) : call E Entries :=
  let zipPath := tmpDir +:+ "/input.zip" in
  await (on_world (_ <-- pio_mkdir io tmpDir ;; _ <-- pio_write io zipPath zip ;;
                   pio_spawn io ["unzip"; "-o"; "-q"; "-d"; tmpDir; zipPath])) (fun _ =>
    on_world (items <-- pio_readdir io tmpDir ;;
              entries <-- (fun e => (e, readDir items [])) ;;
              _ <-- pio_rm io tmpDir ;; pure entries)).

Definition extractZipEntries (zip : bytes) : call E (option Entries) := fun e0 =>
  let '(e1, stamp) := pio_stamp io e0 in
  await (attempt (unzip_session ("/tmp/proofmode-" +:+ stamp) zip)) (fun r =>
    ret (match r with Some ((_ :: _) as entries) => Some entries | _ => None end)) e1.

(** The [try] block of [verifyPgpSignature]. *)
Definition pgp_session (tmpDir : string) (entries : Entries) (photo : bytes) : call E (option bool) :=
  let gpgHome := tmpDir +:+ "/gnupg" in
  match jm_get (hash_hex photo +:+ ".asc") entries, jm_get "pubkey.asc" entries with
  | Some sigData, Some pubkeyData =>
      await (on_world (_ <-- pio_mkdir io tmpDir ;;
                       _ <-- pio_write io (tmpDir +:+ "/photo.jpg") photo ;;
                       _ <-- pio_write io (tmpDir +:+ "/photo.sig.asc") sigData ;;
                       _ <-- pio_write io (tmpDir +:+ "/pubkey.asc") pubkeyData ;;
                       _ <-- pio_mkdir io gpgHome ;;
                       pio_spawn io ["gpg"; "--homedir"; gpgHome; "--batch"; "--yes"; "--import"; tmpDir +:+ "/pubkey.asc"]))
        (fun importCode =>
           if negb (importCode =? 0)%Z then on_world (_ <-- pio_rm io tmpDir ;; pure None)
           else
             await (on_world (pio_spawn io ["gpg"; "--homedir"; gpgHome; "--batch"; "--verify";
                                            tmpDir +:+ "/photo.sig.asc"; tmpDir +:+ "/photo.jpg"])) (fun verifyCode =>
               on_world (_ <-- pio_rm io tmpDir ;; pure (Some (verifyCode =? 0)%Z))))
  | _, _ => on_world (_ <-- pio_mkdir io tmpDir ;; pure None)
  end.

Definition verifyPgpSignature (entries : Entries) (photo : bytes) : call E (option bool) := fun e0 =>
  let '(e1, stamp) := pio_stamp io e0 in
  await (attempt (pgp_session ("/tmp/pgp-verify-" +:+ stamp) entries photo))
    (fun r => ret (match r with Some v => v | None => None end)) e1.

(** The verdict and the notes pushed. *)
Definition validatePgp (entries : Entries) (photo : bytes) : call E (option bool * list string * list string) :=
  let hasAsc := existsb (fun name => endsWith ".asc" name && negb (includes "proof" name) && negb (includes "pubkey" name))
                  (jm_keys entries) in
  let hasPubkey := jm_has "pubkey.asc" entries in
  if negb hasAsc || negb hasPubkey then ret (None, [], [])
  else
    await (verifyPgpSignature entries photo) (fun pgpValid =>
      ret (match pgpValid with
           | Some true => (pgpValid, ["ProofMode: PGP signature valid"], [])
           | Some false => (pgpValid, [], ["ProofMode: PGP signature invalid"])
           | None => (pgpValid, ["ProofMode: PGP signature present (gpg not available for verification)"], [])
           end)).

Definition parseProofModeZip (zip : bytes) : call E (option ProofModeData) :=
  await (extractZipEntries zip) (fun r =>
    match r with
    | None => ret None
    | Some entries =>
    match findPhotoEntry entries with
    | None => ret None
    | Some (photoFilename, photo) =>
    match validateProofJson entries photo with
    | Throw e => fail e
    | Ok (proof, hashValid, checks1, failures1) =>
        await (validatePgp entries photo) (fun '(pgpValid, checks2, failures2) =>
          let '(hasOts, hasDeviceCheck, checks3) := checkAncillaryProofs entries in
          ret (Some (mkProofMode photo photoFilename proof hashValid pgpValid hasOts hasDeviceCheck
            (("ProofMode: photo found (" +:+ photoFilename +:+ ")") :: checks1 ++ checks2 ++ checks3) (failures1 ++ failures2))))
    end end end).
End world.

(** ** ProofMode bundles: what a verdict rests on *)

Section proofmode.
Context `{J : JSON} `{N : Noble} {E : Type} (io : ProofModeIo (E := E)).

Lemma proof_json_backed entries photo proof hv cs fs :
  validateProofJson entries photo = Ok (proof, hv, cs, fs) ->
  (hv = true -> exists p, proof = Some p /\ pm_fileHashSha256 p = VStr (hash_hex photo)) /\
  (fs = [] -> proof = None \/ hv = true).
Proof.
  unfold validateProofJson. destruct (List.find _ entries) as [[name raw]|].
  2:{ intros H; injection H as <- <- _ <-. split; [discriminate|by left]. }
  destruct (parseProofJson (utf8_text raw)) as [p|].
  2:{ intros H; injection H as <- <- _ <-. split; [discriminate|by left]. }
  cbv zeta. destruct (eq_str (pm_fileHashSha256 p) (hash_hex photo)) eqn:Hh.
  - cbn [mbind res_bind]. destruct (accuracy_note p) as [note|]; cbn [mbind res_bind]; [|discriminate].
    intros H; injection H as <- <- _ <-. split; [|by right]. intros _. exists p. split; [done|by apply eq_str_true].
  - destruct (slice16 (pm_fileHashSha256 p)) as [s|]; cbn [mbind res_bind]; [|discriminate].
    destruct (accuracy_note p) as [note|]; cbn [mbind res_bind]; [|discriminate].
    intros H; injection H as <- <- _ <-. split; discriminate.
Qed.

(** gpg verified the signature file over the photo file and exited with 0. *)
Definition gpg_verified : Prop :=
  exists dir e, (pio_spawn io ["gpg"; "--homedir"; dir +:+ "/gnupg"; "--batch"; "--verify";
                               dir +:+ "/photo.sig.asc"; dir +:+ "/photo.jpg"] e).2 = Ok 0%Z.

Lemma then_snd {A B} (f : E -> E * res A) (g : A -> E -> E * res B) e b :
  (then_ f g e).2 = Ok b -> exists e' a, (g a e').2 = Ok b.
Proof. unfold then_. destruct (f e) as [e' [a|x]]; [|done]. intros H. by exists e', a. Qed.

(** A final block that returns a constant after a fallible step. *)
Lemma world_const {A B} R (f : E -> E * res A) (b b' : B) e :
  outcome R (on_world (then_ f (fun _ => pure b))) e (Ok b') -> b' = b.
Proof. intros H%outcome_on_world. symmetry in H. apply then_snd in H as (e' & a & H). by injection H. Qed.

Lemma pgp_session_backed R dir entries photo e :
  outcome R (pgp_session io dir entries photo) e (Ok (Some true)) ->
  gpg_verified /\ is_Some (jm_get (hash_hex photo +:+ ".asc") entries).
Proof.
  unfold pgp_session. destruct (jm_get (hash_hex photo +:+ ".asc") entries) as [sig|].
  2:{ intros H. by apply world_const in H. }
  destruct (jm_get "pubkey.asc" entries) as [pub|].
  2:{ intros H. by apply world_const in H. }
  intros H. split; [|by eexists]. apply outcome_await in H as (code & e3 & _ & _ & H). destruct (negb (code =? 0)%Z).
  - by apply world_const in H.
  - apply outcome_await in H as (vc & e4 & Hv & _ & H). apply outcome_on_world in Hv. apply world_const in H.
    injection H as Hc. symmetry in Hc. apply Z.eqb_eq in Hc. subst vc. by exists dir, e3.
Qed.

Lemma verifyPgp_backed R entries photo e :
  outcome R (verifyPgpSignature io entries photo) e (Ok (Some true)) ->
  gpg_verified /\ is_Some (jm_get (hash_hex photo +:+ ".asc") entries).
Proof.
  unfold verifyPgpSignature, outcome at 1. destruct (pio_stamp io e) as [e1 stamp]. intros H.
  apply outcome_await in H as (r & e2 & H1 & _ & H). apply outcome_ret in H. injection H as H.
  apply outcome_attempt in H1 as (o & Ho & H1). injection Ho as <-. destruct r as [v|]; [|discriminate H]. subst v.
  by apply pgp_session_backed with R ("/tmp/pgp-verify-" +:+ stamp) e1, H1.
Qed.

Lemma validatePgp_backed R entries photo e v cs fs :
  outcome R (validatePgp io entries photo) e (Ok (v, cs, fs)) ->
  (v = Some true -> gpg_verified /\ is_Some (jm_get (hash_hex photo +:+ ".asc") entries)) /\ (fs = [] <-> v <> Some false).
Proof.
  unfold validatePgp.
  match goal with |- context [if ?b then _ else _] => destruct b end.
  { intros H. apply outcome_ret in H. injection H as -> -> ->. split; [discriminate|]. by split. }
  intros H. apply outcome_await in H as (pv & e1 & H1 & _ & H). apply outcome_ret in H.
  destruct pv as [[]|]; injection H as -> -> ->; (split; [|intuition discriminate]); [|discriminate..].
  intros _. by eapply verifyPgp_backed.
Qed.

(** The verdict on a bundle rests on the bundle: the hash is reported valid
    only when [proof.json] names the SHA-256 digest of the very photo returned;
    the signature is reported valid only when gpg, run on a signature file named
    after that digest, exited with 0; and a bundle without failures has no
    mismatching hash and no rejected signature. *)
Theorem proofmode_verdict_backed R zip e d :
  outcome R (parseProofModeZip io zip) e (Ok (Some d)) ->
  (pd_hashValid d = true -> exists p, pd_proof d = Some p /\ pm_fileHashSha256 p = VStr (hash_hex (pd_photo d))) /\
  (pd_pgpValid d = Some true -> gpg_verified) /\
  (pd_failures d = [] -> (pd_proof d = None \/ pd_hashValid d = true) /\ pd_pgpValid d <> Some false).
Proof.
  intros H. apply outcome_await in H as (r & e1 & _ & _ & H). destruct r as [entries|]; [|by apply outcome_ret in H].
  destruct (findPhotoEntry entries) as [[name photo]|]; [|by apply outcome_ret in H].
  destruct (validateProofJson entries photo) as [[[[proof hv] c1] f1]|] eqn:Hj; [|by apply resolves_Settled in H].
  apply outcome_await in H as ([[pv c2] f2] & e2 & Hp & _ & H).
  destruct (checkAncillaryProofs entries) as [[ots dc] c3]. apply outcome_ret in H. injection H as ->.
  cbn [pd_hashValid pd_proof pd_photo pd_pgpValid pd_failures].
  apply proof_json_backed in Hj as [Hh Hf]. apply validatePgp_backed in Hp as [Hg Hf2].
  split_and!; [done|by intros H; apply Hg in H as [? _]|].
  intros Happ. apply app_eq_nil in Happ as [-> ->]. split; [by apply Hf|by apply Hf2].
Qed.
End proofmode.

(** ** Witness *)
Definition proofmode_json : string := codec_stringify (VObj [
  ("File Hash SHA256", VStr (hash_hex (N := toy_noble) [1; 2; 3]%Z)); ("Manufacturer", VStr "Acme"); ("Hardware", VStr "M1")]).
Definition text_content (s : string) : bytes := map (fun c => Z.of_nat (code c)) (chars s).

Definition proofmode_io : ProofModeIo (E := unit) := mkProofIo
  (fun e => (e, "1-abc")) (fun _ e => (e, Ok tt)) (fun _ _ e => (e, Ok tt)) (fun _ e => (e, Ok 0%Z))
  (fun _ e => (e, Ok [FileItem "input.zip" (Ok []); DirectoryItem "bundle" [FileItem "a.JPG" (Ok [1; 2; 3]%Z);
     FileItem "a.proof.json" (Ok (text_content proofmode_json));
     FileItem (hash_hex (N := toy_noble) [1; 2; 3]%Z +:+ ".asc") (Ok [7]%Z); FileItem "pubkey.asc" (Ok [8]%Z)]]))
  (fun _ e => (e, Ok tt)).

Definition proofmode_run := run_call (parseProofModeZip (J := codec) (N := toy_noble) proofmode_io []) tt.

Lemma proofmode_verdict_backed_witness :
  exists d, proofmode_run.2 = Ok (Some d) /\ pd_hashValid d = true /\ pd_failures d = [] /\ gpg_verified proofmode_io.
Proof.
  destruct proofmode_run.2 as [[d|]|] eqn:Hrun; try (vm_compute in Hrun; discriminate).
  destruct (proofmode_verdict_backed (J := codec) (N := toy_noble) proofmode_io (fun _ => True) [] tt d) as (_ & Hg & _).
  { apply run_call_outcome. exact Hrun. }
  exists d. split; [done|]. vm_compute in Hrun. injection Hrun as <-. split_and!; [reflexivity|reflexivity|].
  apply Hg. reflexivity.
Defined.
