(* ===== verification/IntegrityStore.v ===== *)
(** * The integrity store

    [packages/sdk/src/proofs/integrity-store.ts]: what was learnt about an
    attachment at upload time, keyed by attachment, with the module-level store
    and its purge. *)

From S2P Require Import Prelude JsNum JsMap JsString JsValue Exif Geo ExifCheck C2pa Proofmode.

Record ProofModeIntegrity := mkPmIntegrity {
  pi_proof : option ProofModeMetadata;
  pi_hashValid : bool;
  pi_pgpValid : option bool;
  pi_hasOts : bool;
  pi_hasDeviceCheck : bool;
  pi_checks : list string;
  pi_failures : list string;
}.

Record IntegrityMetadata := mkIntegrity {
  im_attachmentId : string;
  im_requestId : string;
  im_capturedAt : number;
  im_exif : ExifValidationResult;
  im_c2pa : C2paValidationResult;
  im_proofmode : option ProofModeIntegrity;
}.

(** The map of [createIntegrityStore]. *)
Notation IntegrityMap := (jsmap string IntegrityMetadata).

Definition storeIntegrity (metadata : IntegrityMetadata) (m : IntegrityMap) : IntegrityMap :=
  jm_set (im_attachmentId metadata) metadata m.
Definition getIntegrity (attachmentId : string) (m : IntegrityMap) : option IntegrityMetadata := jm_get attachmentId m.
Definition getIntegrityForRequest (requestId : string) (m : IntegrityMap) : list IntegrityMetadata :=
  List.filter (fun v => im_requestId v === requestId) (jm_values m).

Definition captured_before (cutoff : number) (v : IntegrityMetadata) : bool := im_capturedAt v <ₙ cutoff.

(** The loop over the entries: each one captured before the cutoff is deleted and counted. *)
Definition purge_step (cutoff : number) (acc : IntegrityMap * nat) (entry : string * IntegrityMetadata) : IntegrityMap * nat :=
  let '(m, count) := acc in
  if captured_before cutoff (snd entry) then (jm_delete (fst entry) m, S count) else (m, count).

Definition purge_loop (cutoff : number) (entries m : IntegrityMap) : IntegrityMap * nat :=
  fold_left (purge_step cutoff) entries (m, 0).

Definition purgeStaleIntegrity (maxAgeMs : option number) (now : number) (m : IntegrityMap) : IntegrityMap * nat :=
  purge_loop (nsub now (opt_default (num 7200000) maxAgeMs)) m m.
Definition clearIntegrityStore (m : IntegrityMap) : IntegrityMap := [].

(** Every record is found under its own attachment. *)
Definition store_ok (m : IntegrityMap) : Prop :=
  jm_wf m /\ forall k v, jm_get k m = Some v -> im_attachmentId v = k.

Inductive StoreOp := OpStore (md : IntegrityMetadata) | OpPurge (maxAge : option number) (now : number) | OpClear.
Definition run_store_op (op : StoreOp) (m : IntegrityMap) : IntegrityMap :=
  match op with
  | OpStore md => storeIntegrity md m
  | OpPurge a now => (purgeStaleIntegrity a now m).1
  | OpClear => clearIntegrityStore m
  end.

Definition key_captured_before (cutoff : number) (k : string) (entry : string * IntegrityMetadata) : bool :=
  captured_before cutoff (snd entry) && (k === fst entry).
Definition entry_captured_before (cutoff : number) (entry : string * IntegrityMetadata) : bool := captured_before cutoff (snd entry).

Lemma purge_loop_spec cutoff (entries m : IntegrityMap) c :
  let '(m', c') := fold_left (purge_step cutoff) entries (m, c) in
  (forall k, jm_get k m' = if existsb (key_captured_before cutoff k) entries then None else jm_get k m) /\
  (jm_wf m -> jm_wf m') /\ c' = c + length (List.filter (entry_captured_before cutoff) entries).
Proof.
  revert m c. induction entries as [|[k v] entries IH]; intros m c; cbn [fold_left existsb List.filter].
  { split_and!; [done|done|cbn; lia]. }
  change (purge_step cutoff (m, c) (k, v)) with (if captured_before cutoff v then (jm_delete k m, S c) else (m, c)).
  change (entry_captured_before cutoff (k, v)) with (captured_before cutoff v).
  destruct (captured_before cutoff v) eqn:Hs.
  - specialize (IH (jm_delete k m) (S c)). destruct (fold_left (purge_step cutoff) entries (jm_delete k m, S c)) as [m' c'].
    destruct IH as (Hg & Hw & Hc). split_and!.
    + intros j. rewrite Hg, jm_get_delete. unfold key_captured_before at 2. cbn [fst snd]. rewrite Hs. cbn [andb].
      destruct (bool_decide_reflect (j = k)); cbn [orb].
      * by destruct (existsb (key_captured_before cutoff j) entries).
      * done.
    + intros H. by apply Hw, jm_wf_delete.
    + cbn [length]. lia.
  - specialize (IH m c). destruct (fold_left (purge_step cutoff) entries (m, c)) as [m' c']. destruct IH as (Hg & Hw & Hc).
    split_and!; [|done|done]. intros j. rewrite Hg. unfold key_captured_before at 2. cbn [fst snd]. by rewrite Hs.
Qed.

Lemma existsb_stale_key cutoff (m : IntegrityMap) k :
  jm_wf m -> existsb (key_captured_before cutoff k) m =
             match jm_get k m with Some v => captured_before cutoff v | None => false end.
Proof.
  intros Hwf. destruct (existsb _ m) eqn:He.
  - apply existsb_exists in He as ([k' v] & Hin & Hb). unfold key_captured_before in Hb. cbn [fst snd] in Hb. apply andb_true_iff in Hb as [Hs Hk].
    apply bool_decide_eq_true in Hk as ->. apply list_elem_of_In in Hin.
    apply (jm_get_in k' v m Hwf) in Hin. by rewrite Hin.
  - destruct (jm_get k m) as [v|] eqn:Hg; [|done]. destruct (captured_before cutoff v) eqn:Hs; [|done].
    rewrite <- He. apply existsb_exists. exists (k, v). split.
    + apply list_elem_of_In. by apply jm_get_Some_in.
    + unfold key_captured_before. cbn [fst snd]. rewrite Hs. cbn [andb]. by apply bool_decide_eq_true.
Qed.

(** A purge removes exactly the records captured before the cutoff, keeps the
    others as they are, and returns how many it removed. *)
Theorem purge_exact maxAge now (m : IntegrityMap) :
  jm_wf m ->
  let cutoff := nsub now (opt_default (num 7200000) maxAge) in
  let '(m', count) := purgeStaleIntegrity maxAge now m in
  (forall k v, jm_get k m' = Some v <-> jm_get k m = Some v /\ captured_before cutoff v = false) /\
  count = length (List.filter (entry_captured_before cutoff) m).
Proof.
  intros Hwf. cbv zeta. unfold purgeStaleIntegrity, purge_loop. set (cutoff := nsub now _).
  pose proof (purge_loop_spec cutoff m m 0) as H. destruct (fold_left _ m (m, 0)) as [m' c'].
  destruct H as (Hg & _ & Hc). split; [|by rewrite Hc].
  intros k v. rewrite Hg, existsb_stale_key by done. destruct (jm_get k m) as [w|]; [|naive_solver].
  destruct (captured_before cutoff w) eqn:Hs; naive_solver congruence.
Qed.

Lemma integrity_purge_ok maxAge now m : store_ok m -> store_ok (purgeStaleIntegrity maxAge now m).1.
Proof.
  intros [Hwf Hk]. unfold purgeStaleIntegrity, purge_loop. set (cutoff := nsub now _).
  pose proof (purge_loop_spec cutoff m m 0) as H. destruct (fold_left _ m (m, 0)) as [m' c'].
  destruct H as (Hg & Hw & _). split; [by apply Hw|]. cbn [fst]. intros k v. rewrite Hg.
  destruct (existsb _ m); [done|]. apply Hk.
Qed.

(** After any sequence of stores, purges and clears every record is found
    under the attachment it describes, so a lookup by attachment never returns
    the metadata of another one. *)
Theorem integrity_lookup_own ops k v :
  jm_get k (fold_left (fun m op => run_store_op op m) ops []) = Some v -> im_attachmentId v = k.
Proof.
  assert (H : forall m, store_ok m -> store_ok (fold_left (fun m op => run_store_op op m) ops m)).
  { induction ops as [|op ops IH]; intros m Hm; cbn [fold_left]; [done|]. apply IH. destruct op as [md|a now|]; cbn.
    - destruct Hm as [Hwf Hk]. split; [by apply jm_wf_set|]. intros j w. unfold storeIntegrity. rewrite jm_get_set.
      destruct (bool_decide_reflect (j = im_attachmentId md)); [naive_solver|apply Hk].
    - by apply integrity_purge_ok.
    - split; [apply jm_wf_empty|done]. }
  apply (H []). split; [apply jm_wf_empty|done].
Qed.

(** ** Witnesses *)
Definition sample_integrity (id req : string) (t : Z) : IntegrityMetadata :=
  mkIntegrity id req (num t) (mkExifResult false false false false false None no_metadata [] [])
    noToolResult None.
Definition sample_store_ops : list StoreOp :=
  [OpStore (sample_integrity "a" "r1" 1000); OpStore (sample_integrity "b" "r1" 9000000); OpPurge None (num 10000000)].

Lemma purge_exact_witness :
  (purgeStaleIntegrity None (num 10000000) [("a", sample_integrity "a" "r1" 1000); ("b", sample_integrity "b" "r1" 9000000)]).2 = 1.
Proof.
  pose proof (purge_exact None (num 10000000) [("a", sample_integrity "a" "r1" 1000); ("b", sample_integrity "b" "r1" 9000000)]) as H.
  assert (Hwf : jm_wf [("a", sample_integrity "a" "r1" 1000); ("b", sample_integrity "b" "r1" 9000000)]).
  { unfold jm_wf. cbn. apply NoDup_cons. split; [set_solver|]. apply NoDup_singleton. }
  specialize (H Hwf). cbv zeta in H.
  destruct (purgeStaleIntegrity None (num 10000000) _) as [m' c]. destruct H as [_ ->]. vm_compute. reflexivity.
Defined.

Lemma integrity_lookup_own_witness :
  im_attachmentId (sample_integrity "b" "r1" 9000000) = "b".
Proof. apply (integrity_lookup_own sample_store_ops "b"). vm_compute. reflexivity. Defined.
