(* ===== verification/Blossom.v ===== *)
(** * Encrypted blob storage

    [packages/sdk/src/attachments/blossom.ts], [fetch-attachment.ts] and
    [provider-upload.ts].  The network, the clock and randomness belong to the
    world [E]; AES-GCM is the platform's ([WebCrypto]).  Typed arrays are views:
    [buffer] is the whole backing store, whatever part of it the view covers. *)

From S2P Require Import Prelude JsNum JsString JsValue SchemaUri QueryTypes Samples PreimageStore EventLoop JsonCodec Nostr UrlValidation C2pa.

(** ** Typed arrays *)
Record Uint8Array := mkU8 { u_buffer : list Z; u_offset : nat; u_length : nat }.
Definition u_bytes (u : Uint8Array) : list Z := take (u_length u) (drop (u_offset u) (u_buffer u)).

(** [new Uint8Array(arrayBuffer)] and [new Uint8Array(view)]: a view of all of a fresh buffer. *)
Definition fresh (l : list Z) : Uint8Array := mkU8 l 0 (length l).
Definition whole (u : Uint8Array) : Prop := u_offset u = 0 /\ u_length u = length (u_buffer u).

(** ** Third-party primitives *)
Class WebCrypto := {
  aes_gcm_encrypt : list Z -> list Z -> list Z -> res (list Z);  (* key, iv, data *)
  aes_gcm_decrypt : list Z -> list Z -> list Z -> res (list Z);
}.
Class HexDecoder := hexToBytes : string -> res (list Z).

Record AttachmentRuntimeConfig := mkAttachmentConfig {
  ac_publicBaseUrl : option string;
  ac_allowLocalhostAttachments : bool;
  ac_blossomServers : list string;
}.

Record BlossomUploadResult := mkUpload {
  bu_hash : string;
  bu_urls : list string;
  bu_encryptKey : string;
  bu_encryptIv : string;
  bu_sizeBytes : nat;
}.

Definition getBlossomConfig (config : AttachmentRuntimeConfig) : option (list string) :=
  match ac_blossomServers config with [] => None | urls => Some urls end.
Definition isBlossomEnabled (config : AttachmentRuntimeConfig) : bool :=
  match getBlossomConfig config with Some _ => true | None => false end.

(** [servers ?? config?.servers], when not empty. *)
Definition chosen_servers (servers : option (list string)) (config : AttachmentRuntimeConfig) : option (list string) :=
  match nullish servers (getBlossomConfig config) with Some ((_ :: _) as urls) => Some urls | _ => None end.

Record FetchResponse := mkResponse { rs_ok : bool; rs_status : Z; rs_body : res (list Z) }.

Section blossom.
Context `{U : UrlApi} `{N : Noble} `{L : NostrLib} `{J : JSON} `{W : WebCrypto} `{X : HexDecoder} {E : Type}.

(** [fi_get] answers a GET; an upload is sent by [fi_put], and [fi_settle n] says
    which of [n] outstanding uploads settles next, and how: whether the server
    accepted, or a rejection. *)
Record FetchIo := mkFetchIo {
  fi_get : string -> E -> E * res FetchResponse;
  fi_put : string -> string -> list Z -> E -> E;
  fi_settle : nat -> E -> E * (nat * res bool);
  fi_random : nat -> E -> E * list Z;
  fi_secretKey : E -> E * SecretKey;
  fi_now : E -> number;
  fi_sleep : number -> E -> E;
}.
Variable io : FetchIo.

(** ** Encryption *)
Record EncryptedBlob := mkBlob { eb_encrypted : list Z; eb_key : list Z; eb_iv : list Z }.

(** [data.buffer] is encrypted: the backing store of the view. *)
Definition encryptBlob (data : Uint8Array) : call E EncryptedBlob := fun e0 =>
  let '(e1, key) := fi_random io 32 e0 in
  let '(e2, iv) := fi_random io 12 e1 in
  await (fun e => (e, Settled (aes_gcm_encrypt key iv (u_buffer data)))) (fun encrypted => ret (mkBlob encrypted key iv)) e2.

Definition decryptBlob (encrypted key iv : Uint8Array) : call E (list Z) :=
  await (fun e => (e, Settled (aes_gcm_decrypt (u_buffer key) (u_buffer iv) (u_buffer encrypted)))) (fun d => ret d).

(** ** Upload *)
Definition event_value (ev : Event) : jsval :=
  VObj [("kind", VNum (num (ev_kind ev))); ("created_at", VNum (ev_created_at ev));
        ("tags", VArr (map (fun t => VArr (map VStr t)) (ev_tags ev))); ("content", VStr (ev_content ev));
        ("pubkey", VStr (ev_pubkey ev)); ("id", VStr (ev_id ev)); ("sig", VStr (ev_sig ev))].

Definition buildAuthEvent (secretKey : SecretKey) (hash serverEndpoint : string) (now : number) : string :=
  let template := mkTemplate 24242 (nfloor_div now 1000) ("Upload " +:+ hash +:+ " to " +:+ serverEndpoint)
    [["t"; "upload"]; ["x"; hash];
     ["expiration"; number_to_string (nadd (nfloor_div now 1000) (num 300))]] in
  btoa (map (fun c => Z.of_nat (code c)) (chars (JSON_stringify (event_value (finalizeEvent template secretKey))))).

(** The uploads are all sent, in order, before any of them settles. *)
Fixpoint send_all (secretKey : SecretKey) (hash : string) (body : list Z) (urls : list string) (e : E) : E :=
  match urls with
  | [] => e
  | url :: urls' =>
      send_all secretKey hash body urls'
        (fi_put io (url +:+ "/upload") ("Nostr " +:+ buildAuthEvent secretKey hash url (fi_now io e)) body e)
  end.

(** [Promise.allSettled]: they settle in any order; a success is recorded when it settles. *)
Fixpoint settle_all (n : nat) (pending : list string) (hash : string) (successUrls : list string) : call E (list string) :=
  match n with
  | O => ret successUrls
  | S n' => fun e =>
      let '(e', (i, answer)) := fi_settle io (length pending) e in
      let i := Nat.modulo i (length pending) in
      let successUrls' := match pending !! i, answer with
                          | Some url, Ok true => successUrls ++ [url +:+ "/" +:+ hash]
                          | _, _ => successUrls
                          end in
      (e', Await (settle_all n' (delete i pending) hash successUrls'))
  end.

Definition uploadToBlossom (data : Uint8Array) (secretKey : SecretKey) (servers : option (list string))
    (config : AttachmentRuntimeConfig) : call E (option BlossomUploadResult) :=
  match chosen_servers servers config with
  | None => ret None
  | Some urls =>
      await (encryptBlob data) (fun blob =>
        let hash := bytesToHex (sha256 (eb_encrypted blob)) in
        await (fun e => settle_all (length urls) urls hash [] (send_all secretKey hash (eb_encrypted blob) urls e))
          (fun successUrls =>
             match successUrls with
             | [] => ret None
             | _ => ret (Some (mkUpload hash successUrls (bytesToHex (eb_key blob)) (bytesToHex (eb_iv blob))
                                 (length (eb_encrypted blob))))
             end))
  end.

(** ** Download *)
Definition get_response (url : string) : call E FetchResponse := fun e =>
  let '(e', r) := fi_get io url e in (e', Settled r).

(** The body of the inner [try]: [None] for [continue]. *)
Definition fetch_blob (serverEndpoint hash encryptKey encryptIv : string) : call E (option (list Z)) :=
  await (get_response (serverEndpoint +:+ "/" +:+ hash)) (fun response =>
    if negb (rs_ok response) then ret None
    else
      await (fun e => (e, Settled (rs_body response))) (fun encrypted =>
        match hexToBytes encryptKey, hexToBytes encryptIv with
        | Ok key, Ok iv => await (decryptBlob (fresh encrypted) (fresh key) (fresh iv)) (fun d => ret (Some d))
        | Throw x, _ | _, Throw x => fail x
        end)).

Fixpoint try_servers (urls : list string) (hash encryptKey encryptIv : string) : call E (option (list Z)) :=
  match urls with
  | [] => ret None
  | url :: urls' =>
      await (attempt (fetch_blob url hash encryptKey encryptIv)) (fun r =>
        match r with
        | Some (Some d) => ret (Some d)
        | _ => try_servers urls' hash encryptKey encryptIv
        end)
  end.

(** [retries] attempts left. *)
Fixpoint download_attempts (retries : nat) (retryDelayMs : number) (urls : list string) (hash encryptKey encryptIv : string)
    : call E (option (list Z)) :=
  match retries with
  | O => ret None
  | S retries' =>
      await (try_servers urls hash encryptKey encryptIv) (fun r =>
        match r with
        | Some d => ret (Some d)
        | None =>
            match retries' with
            | O => ret None
            | _ => await (fun e => (fi_sleep io retryDelayMs e, Settled (Ok tt))) (fun _ =>
                     download_attempts retries' retryDelayMs urls hash encryptKey encryptIv)
            end
        end)
  end.

Definition downloadFromBlossom (hash encryptKey encryptIv : string) (servers : option (list string)) (maxRetries : option nat)
    (retryDelayMs : option number) (config : AttachmentRuntimeConfig) : call E (option (list Z)) :=
  match chosen_servers servers config with
  | None => ret None
  | Some urls => download_attempts (opt_default 3%nat maxRetries) (opt_default (num 5000) retryDelayMs) urls hash encryptKey encryptIv
  end.

(** ** [fetch-attachment.ts] *)
Definition is_blossom (ref : AttachmentRef) : bool :=
  match att_storage_kind ref with storage_blossom => true | storage_external => false end.

(** [blossomKeys?.[id]] *)
Definition key_material (blossomKeys : option BlossomKeyMap) (id : string) : option BlossomKeyMaterial :=
  snd <$> List.find (fun kv => kv.1 === id) (opt_default [] blossomKeys).

Definition fetchBlossomAttachment (ref : AttachmentRef) (keyMaterial : option BlossomKeyMaterial)
    (config : AttachmentRuntimeConfig) : call E (option (list Z)) :=
  if negb (is_blossom ref) then ret None
  else
  match truthy (att_blossom_hash ref) with
  | None => ret None
  | Some hash =>
  match keyMaterial with
  | None => ret None
  | Some k =>
      if negb (str_truthy (encrypt_key k)) || negb (str_truthy (encrypt_iv k)) then ret None
      else downloadFromBlossom hash (encrypt_key k) (encrypt_iv k) (att_blossom_servers ref) None None config
  end end.

Definition not_retrieved : string := "attachment could not be retrieved".

(** The plain URI, behind the URL guard. *)
Definition fetch_uri (ref : AttachmentRef) (config : AttachmentRuntimeConfig) : call E (list Z + string) :=
  if negb (str_truthy (att_uri ref)) then ret (inr not_retrieved)
  else
  match validateAttachmentUri (att_uri ref) (ac_allowLocalhostAttachments config) with
  | Some uriError => ret (inr ("attachment URI rejected (" +:+ uriError +:+ ")"))
  | None =>
      await (attempt (await (get_response (att_uri ref)) (fun response =>
               if rs_ok response then await (fun e => (e, Settled (rs_body response))) (fun b => ret (Some b)) else ret None)))
        (fun r => match r with Some (Some data) => ret (inl data) | _ => ret (inr not_retrieved) end)
  end.

(** [inl data], or [inr reason]. *)
Definition fetchAttachmentData (ref : AttachmentRef) (blossomKeys : option BlossomKeyMap) (config : AttachmentRuntimeConfig)
    : call E (list Z + string) :=
  if is_blossom ref then
    await (fetchBlossomAttachment ref (key_material blossomKeys (att_id ref)) config)
      (fun data => match data with Some d => ret (inl d) | None => fetch_uri ref config end)
  else fetch_uri ref config.

(** ** [provider-upload.ts] *)
Definition providerUpload (data : Uint8Array) (filename mimeType : string) (servers : option (list string))
    (config : AttachmentRuntimeConfig) : call E (option (AttachmentRef * BlossomUploadResult)) :=
  match chosen_servers servers config with
  | None => ret None
  | Some urls => fun e0 =>
      let '(e1, secretKey) := fi_secretKey io e0 in
      await (uploadToBlossom data secretKey (Some urls) config) (fun result =>
        match result with
        | None => ret None
        | Some r =>
            ret (Some (mkAttachmentRef (bu_hash r) (opt_default "" (head (bu_urls r))) mimeType storage_blossom (Some filename)
                         (Some (num (Z.of_nat (u_length data)))) (Some (bu_hash r)) (Some urls), r))
        end) e1
  end.
End blossom.

(** ** Encrypted blob storage: round trip, accepted URLs, guarded fetches *)

Section blossom.
Context `{U : UrlApi} `{N : Noble} `{L : NostrLib} `{J : JSON} `{W : WebCrypto} `{X : HexDecoder} {E : Type} (io : FetchIo (E := E)).

(** ** Upload *)
Lemma settle_all_urls R n pending hash acc e l :
  outcome R (settle_all io n pending hash acc) e (Ok l) ->
  exists l', l = acc ++ l' /\ length l' <= n /\ Forall (fun u => exists s, s ∈ pending /\ u = s +:+ "/" +:+ hash) l'.
Proof.
  revert pending acc e. induction n as [|n IH]; intros pending acc e H.
  { apply outcome_ret in H. injection H as ->. exists []. rewrite app_nil_r. by split_and!. }
  cbn [settle_all] in H. unfold outcome in H. destruct (fi_settle io (length pending) e) as [e1 [i answer]].
  inversion H as [|? s s' t ? HR Ht Hr]; subst.
  assert (Ho : outcome R (settle_all io n (delete (i mod length pending) pending) hash
    (match pending !! (i mod length pending), answer with Some url, Ok true => acc ++ [url +:+ "/" +:+ hash] | _, _ => acc end)) s (Ok l)).
  { unfold outcome. by rewrite Ht. }
  apply IH in Ho as (l' & Hl & Hn & HF). clear IH H Ht Hr.
  assert (HF' : Forall (fun u => exists s, s ∈ pending /\ u = s +:+ "/" +:+ hash) l').
  { eapply Forall_impl; [exact HF|]. intros u (srv & Hin & ->). exists srv. split; [|done].
    eapply elem_of_submseteq; [exact Hin|]. apply sublist_submseteq, sublist_delete. }
  destruct (pending !! (i mod length pending)) as [url|] eqn:Hu; [|exists l'; split_and!; [done|lia|done]].
  destruct answer as [[]|]; [|exists l'; split_and!; [done|lia|done]..].
  exists ((url +:+ "/" +:+ hash) :: l'). split_and!; [by rewrite Hl, <- app_assoc|cbn; lia|]. constructor; [|done].
  exists url. split; [by eapply list_elem_of_lookup_2|done].
Qed.

Lemma encryptBlob_outcome R data e b :
  outcome R (encryptBlob io data) e (Ok b) -> aes_gcm_encrypt (eb_key b) (eb_iv b) (u_buffer data) = Ok (eb_encrypted b).
Proof.
  unfold encryptBlob, outcome at 1. destruct (fi_random io 32 e) as [e1 key]. destruct (fi_random io 12 e1) as [e2 iv]. intros H.
  apply outcome_await in H as (enc & e3 & H1 & _ & H). apply resolves_Settled in H1. apply outcome_ret in H. injection H as ->.
  by symmetry.
Qed.

(** An upload that reports success was accepted: the blob is addressed by the
    SHA-256 digest of its ciphertext, the ciphertext is the encryption of the
    data's buffer under the returned key, and every URL returned is that of a
    server the upload was sent to; there is at least one. *)
Theorem upload_addresses_ciphertext R data sk servers config e r :
  outcome R (uploadToBlossom io data sk servers config) e (Ok (Some r)) ->
  exists urls key iv encrypted,
    chosen_servers servers config = Some urls /\
    aes_gcm_encrypt key iv (u_buffer data) = Ok encrypted /\
    bu_hash r = bytesToHex (sha256 encrypted) /\ bu_encryptKey r = bytesToHex key /\ bu_encryptIv r = bytesToHex iv /\
    bu_urls r <> [] /\ length (bu_urls r) <= length urls /\
    Forall (fun u => exists s, s ∈ urls /\ u = s +:+ "/" +:+ bu_hash r) (bu_urls r).
Proof.
  unfold uploadToBlossom. destruct (chosen_servers servers config) as [urls|]; [|intros H; by apply outcome_ret in H].
  intros H. apply outcome_await in H as (b & e1 & Hb & _ & H). apply encryptBlob_outcome in Hb.
  apply outcome_await in H as (l & e2 & Hs & _ & H). apply settle_all_urls in Hs as (l' & -> & Hn & HF). cbn [app] in H.
  destruct l' as [|u l']; apply outcome_ret in H; [discriminate|]. injection H as ->. cbn.
  exists urls, (eb_key b), (eb_iv b), (eb_encrypted b). by split_and!.
Qed.

(** ** Download *)
Class BlobLaws := {
  aes_decrypt_encrypt key iv data c : aes_gcm_encrypt key iv data = Ok c -> aes_gcm_decrypt key iv c = Ok data;
  hex_roundtrip l : Forall is_byte l -> hexToBytes (bytesToHex l) = Ok l;
}.

(** A server that answers every request for the blob with it, and one that does not answer with a body. *)
Definition serves (blob : list Z) (url : string) : Prop :=
  forall e, exists st, (fi_get io url e).2 = Ok (mkResponse true st (Ok blob)).
Definition unavailable (url : string) : Prop :=
  forall e, match (fi_get io url e).2 with Throw _ => True | Ok r => rs_ok r = false \/ exists x, rs_body r = Throw x end.

Lemma outcome_get R url e r : outcome R (get_response io url) e r -> r = (fi_get io url e).2.
Proof. unfold outcome, get_response. destruct (fi_get io url e). apply resolves_Settled. Qed.

Lemma fetch_unavailable R url hash k iv e d :
  unavailable (url +:+ "/" +:+ hash) -> ~ outcome R (fetch_blob io url hash k iv) e (Ok (Some d)).
Proof.
  intros Hu H. apply outcome_await in H as (r & e1 & Hg & _ & H). apply outcome_get in Hg.
  specialize (Hu e). rewrite <- Hg in Hu. destruct Hu as [Ho|[x Hx]].
  - rewrite Ho in H. by apply outcome_ret in H.
  - destruct (rs_ok r); [|by apply outcome_ret in H]. cbn [negb] in H.
    apply outcome_await in H as (b & e2 & Hb & _ & _). apply resolves_Settled in Hb. congruence.
Qed.
End blossom.

(** Every outcome of a call is [r0]. *)
Definition always {S A} (R : S -> Prop) (c : call S A) (s : S) (r0 : res A) : Prop := forall r, outcome R c s r -> r = r0.

Lemma always_settled {S A} (R : S -> Prop) (f : S -> S) (r : res A) s : always R (fun s => (f s, Settled r)) s r.
Proof. intros r' H. by apply resolves_Settled in H. Qed.

Lemma always_await {S A B} (R : S -> Prop) (c : call S A) (k : A -> call S B) s a r0 :
  always R c s (Ok a) -> (forall s', always R (k a) s' r0) -> always R (await c k) s r0.
Proof.
  intros Hc Hk r Hr. destruct r as [b|x].
  - apply outcome_await in Hr as (a' & s1 & H1 & _ & H2). apply Hc in H1. injection H1 as ->. by eapply Hk.
  - apply outcome_await_Throw in Hr as [H1|(a' & s1 & H1 & _ & H2)]; [by apply Hc in H1|].
    apply Hc in H1. injection H1 as ->. by eapply Hk.
Qed.

Lemma always_attempt {S A} (R : S -> Prop) (c : call S A) s a :
  always R c s (Ok a) -> always R (attempt c) s (Ok (Some a)).
Proof.
  unfold always, outcome, attempt. destruct (c s) as [s1 t]. cbn [snd]. clear s s1.
  induction t as [[x|x]|f IH] using task_induction; intros Hc r Hr; cbn [tattempt] in Hr.
  - apply resolves_Settled in Hr as ->. assert (H : Ok x = Ok a) by (apply Hc; constructor). by injection H as ->.
  - assert (H : Throw x = Ok a) by (apply Hc; constructor). discriminate.
  - inversion Hr as [|? s2 s3 t3 ? HR Et Hr']; subst. specialize (IH s2). destruct (f s2) as [s4 t4] eqn:Ef.
    injection Et as <- <-. apply IH; [|done]. intros r' Hr2. apply Hc. by eapply resolves_await.
Qed.

Section roundtrip.
Context `{U : UrlApi} `{N : Noble} `{L : NostrLib} `{J : JSON} `{W : WebCrypto} `{X : HexDecoder} `{B : !BlobLaws} {E : Type}
  (io : FetchIo (E := E)).
Variables (data : Uint8Array) (key iv encrypted : list Z).
Hypothesis Henc : aes_gcm_encrypt key iv (u_buffer data) = Ok encrypted.
Hypotheses (Hkey : Forall is_byte key) (Hiv : Forall is_byte iv).

(** A fetch from a server that serves the blob returns the data, whatever happens meanwhile. *)
Lemma fetch_serves R url hash e :
  serves io encrypted (url +:+ "/" +:+ hash) ->
  always R (fetch_blob io url hash (bytesToHex key) (bytesToHex iv)) e (Ok (Some (u_buffer data))).
Proof.
  intros Hs. destruct (Hs e) as [st Hg]. eapply always_await.
  { intros r Hr. apply outcome_get in Hr. by rewrite Hg in Hr. }
  intros e1. cbn [rs_ok negb rs_body]. eapply always_await; [apply always_settled|].
  intros e2. rewrite !hex_roundtrip by done. eapply always_await; [|intros e3; apply always_settled].
  unfold decryptBlob. cbn [u_buffer fresh]. rewrite (aes_decrypt_encrypt _ _ _ _ Henc).
  eapply always_await; [apply always_settled|]. intros e4. apply always_settled.
Qed.

Lemma try_servers_serves R urls hash e :
  Exists (fun u => serves io encrypted (u +:+ "/" +:+ hash)) urls ->
  Forall (fun u => serves io encrypted (u +:+ "/" +:+ hash) \/ unavailable io (u +:+ "/" +:+ hash)) urls ->
  always R (try_servers io urls hash (bytesToHex key) (bytesToHex iv)) e (Ok (Some (u_buffer data))).
Proof.
  intros Hex Hall. revert e. induction Hall as [|u urls Hu Hall IH]; intros e; [by inversion Hex|].
  cbn [try_servers]. destruct Hu as [Hu|Hu].
  - eapply always_await; [by apply always_attempt, fetch_serves|]. intros e1. apply always_settled.
  - inversion Hex as [? ? Hs|? ? Htl]; subst.
    { eapply always_await; [by apply always_attempt, fetch_serves|]. intros e1. apply always_settled. }
    intros r Hr. destruct r as [v|x].
    + apply outcome_await in Hr as (o & e1 & Ho & _ & Hr). apply outcome_attempt in Ho as (o' & [= ->] & Ho).
      destruct o' as [[d|]|]; [by exfalso; eapply fetch_unavailable; eauto|by eapply IH..].
    + apply outcome_await_Throw in Hr as [Hr|(o & e1 & Ho & _ & Hr)].
      * by apply outcome_attempt in Hr as (? & ? & _).
      * apply outcome_attempt in Ho as (o' & [= ->] & Ho).
        destruct o' as [[d|]|]; [by exfalso; eapply fetch_unavailable; eauto|by eapply IH..].
Qed.

(** C30: Whatever else runs meanwhile, a download returns the buffer that was
    encrypted as soon as one of the servers serves the blob and the others serve
    it or do not answer with a body, with any number of attempts allowed; for a
    view of a whole buffer this is the data itself. *)
Theorem blossom_roundtrip R hash servers config urls retries delay e r :
  chosen_servers servers config = Some urls -> (0 < opt_default 3%nat retries)%nat ->
  Exists (fun u => serves io encrypted (u +:+ "/" +:+ hash)) urls ->
  Forall (fun u => serves io encrypted (u +:+ "/" +:+ hash) \/ unavailable io (u +:+ "/" +:+ hash)) urls ->
  outcome R (downloadFromBlossom io hash (bytesToHex key) (bytesToHex iv) servers retries delay config) e r ->
  r = Ok (Some (u_buffer data)) /\ (whole data -> r = Ok (Some (u_bytes data))).
Proof.
  intros Hc Hn Hex Hall H. assert (Hr : r = Ok (Some (u_buffer data))).
  { unfold downloadFromBlossom in H. rewrite Hc in H. destruct (opt_default 3%nat retries) as [|n]; [lia|].
    cbn [download_attempts] in H. revert r H. eapply always_await; [by apply try_servers_serves|].
    intros e1. apply always_settled. }
  split; [done|]. intros [Ho Hl]. rewrite Hr. unfold u_bytes. by rewrite Ho, Hl, drop_0, take_ge.
Qed.
End roundtrip.

(** ** Plain URIs *)

(** A plain attachment URI the guard rejects is never requested: the world is
    left as it was and the caller learns the reason. *)
Theorem rejected_uri_not_fetched `{U : UrlApi} `{N : Noble} `{L : NostrLib} `{J : JSON} `{W : WebCrypto} `{X : HexDecoder}
    {E : Type} (io : FetchIo (E := E)) ref keys config reason e :
  att_storage_kind ref = storage_external -> att_uri ref <> "" ->
  validateAttachmentUri (att_uri ref) (ac_allowLocalhostAttachments config) = Some reason ->
  run_call (fetchAttachmentData io ref keys config) e = (e, Ok (inr ("attachment URI rejected (" +:+ reason +:+ ")"))).
Proof.
  intros Hk Hu Hv. unfold fetchAttachmentData, is_blossom, fetch_uri. rewrite Hk, Hv. unfold str_truthy.
  by rewrite bool_decide_false.
Qed.

(** ** Witnesses and examples *)
Definition toy_crypto : WebCrypto :=
  {| aes_gcm_encrypt := fun _ _ d => Ok (d ++ [1]%Z); aes_gcm_decrypt := fun _ _ c => Ok (removelast c) |}.
Definition toy_hex : HexDecoder := fun s => Ok (hex_pairs (chars s)).

Lemma toy_blob_laws : BlobLaws (N := toy_noble) (W := toy_crypto) (X := toy_hex).
Proof.
  constructor; cbn.
  - intros _ _ d c [= <-]. by rewrite removelast_last.
  - intros l Hl. unfold hexToBytes, toy_hex. f_equal. by apply (hex_decode (NobleLaws := toy_noble_laws)).
Qed.

(** The world records the URLs requested and sent to. *)
Definition logging_io (answer : string -> res FetchResponse) : FetchIo (E := list string) := mkFetchIo
  (fun url log => (log ++ [url], answer url)) (fun url _ _ log => log ++ [url]) (fun n log => (log, (0%nat, Ok true)))
  (fun n log => (log, repeat 5%Z n)) (fun log => (log, [3]%Z)) (fun _ => num 1000000) (fun _ log => log).

Definition no_config : AttachmentRuntimeConfig := mkAttachmentConfig None false [].
Definition mixed_answer (url : string) : res FetchResponse :=
  if startsWith "https://good" url then Ok (mkResponse true 200 (Ok [9; 8; 1]%Z)) else Throw (mkExn "TypeError" "fetch failed").

Lemma blossom_roundtrip_witness :
  (run_call (downloadFromBlossom (W := toy_crypto) (X := toy_hex) (logging_io mixed_answer)
     "h" (bytesToHex (Noble := toy_noble) [5]%Z) (bytesToHex (Noble := toy_noble) [6]%Z)
     (Some ["https://down.example"; "https://good.example"]) None None no_config) []).2 = Ok (Some [9; 8]%Z).
Proof.
  destruct (blossom_roundtrip (N := toy_noble) (W := toy_crypto) (X := toy_hex) (B := toy_blob_laws) (logging_io mixed_answer)
    (fresh [9; 8]%Z) [5]%Z [6]%Z [9; 8; 1]%Z eq_refl ltac:(repeat constructor; discriminate) ltac:(repeat constructor; discriminate)
    (fun _ => True) "h" (Some ["https://down.example"; "https://good.example"]) no_config
    ["https://down.example"; "https://good.example"] None None []
    (run_call (downloadFromBlossom (W := toy_crypto) (X := toy_hex) (logging_io mixed_answer)
       "h" (bytesToHex (Noble := toy_noble) [5]%Z) (bytesToHex (Noble := toy_noble) [6]%Z)
       (Some ["https://down.example"; "https://good.example"]) None None no_config) []).2) as [H _].
  - reflexivity.
  - cbn. lia.
  - right. left. intros e. by exists 200%Z.
  - constructor; [right; intros e; exact I|]. constructor; [left; intros e; by exists 200%Z|constructor].
  - apply run_call_outcome. reflexivity.
  - exact H.
Defined.

Definition upload_run := run_call (uploadToBlossom (N := toy_noble) (L := toy_nostr) (J := codec) (W := toy_crypto)
  (logging_io mixed_answer) (fresh [9; 8]%Z) [3]%Z (Some ["https://a.example"; "https://b.example"]) no_config) [].

Lemma upload_addresses_ciphertext_witness :
  exists r, upload_run.2 = Ok (Some r) /\ bu_hash r = bytesToHex (Noble := toy_noble) (sha256 (Noble := toy_noble) [9; 8; 1]%Z).
Proof.
  destruct upload_run.2 as [[r|]|] eqn:Hrun; try (vm_compute in Hrun; discriminate).
  destruct (upload_addresses_ciphertext (N := toy_noble) (L := toy_nostr) (J := codec) (W := toy_crypto) (logging_io mixed_answer)
    (fun _ => True) (fresh [9; 8]%Z) [3]%Z (Some ["https://a.example"; "https://b.example"]) no_config [] r)
    as (urls & key & iv & c & _ & Hc & Hh & _).
  - apply run_call_outcome. exact Hrun.
  - exists r. split; [done|]. injection Hc as <-. exact Hh.
Defined.

Definition local_url_api : UrlApi := fun s =>
  Some {| url_protocol := "http:"; url_username := ""; url_password := ""; url_hostname := "169.254.169.254";
          url_pathname := "/"; url_search := ""; url_hash := "" |}.
Definition local_ref (kind : AttachmentStorageKind) : AttachmentRef :=
  mkAttachmentRef "a1" "http://169.254.169.254/latest" "image/png" kind None None (Some "hash")
    (Some ["http://169.254.169.254/latest"]).

Lemma rejected_uri_not_fetched_witness :
  (run_call (fetchAttachmentData (U := local_url_api) (W := toy_crypto) (X := toy_hex) (logging_io mixed_answer)
     (local_ref storage_external) None no_config) []).1 = [].
Proof.
  rewrite (rejected_uri_not_fetched (U := local_url_api) (N := toy_noble) (L := toy_nostr) (J := codec) (W := toy_crypto) (X := toy_hex)
    (logging_io mixed_answer) (local_ref storage_external) None no_config "Only HTTPS URLs are allowed" []).
  - reflexivity.
  - reflexivity.
  - discriminate.
  - vm_compute. reflexivity.
Defined.

(** The blob servers come with the attachment reference and are not put through
    the guard: the same link-local address is requested when it is named as a
    blob server. *)
Example blob_servers_unguarded :
  (run_call (fetchAttachmentData (U := local_url_api) (W := toy_crypto) (X := toy_hex) (logging_io mixed_answer)
     (local_ref storage_blossom) (Some [("a1", mkBlossomKeyMaterial "00" "00")]) no_config) []).1 =
  repeat "http://169.254.169.254/latest/hash" 3.
Proof. vm_compute. reflexivity. Qed.

(** A view of part of a buffer: the whole buffer is encrypted and uploaded. *)
Example view_uploads_backing_store :
  let view := mkU8 [42; 9; 8; 43]%Z 1 2 in
  u_bytes view = [9; 8]%Z /\
  (run_call (encryptBlob (W := toy_crypto) (logging_io mixed_answer) view) []).2 =
  Ok (mkBlob [42; 9; 8; 43; 1]%Z (repeat 5%Z 32) (repeat 5%Z 12)).
Proof. split; vm_compute; reflexivity. Qed.
