(* ===== verification/PhotoIntegrity.v ===== *)
(** * The photo-integrity check

    [packages/sdk/src/proofs/verification/checks/photo-integrity.ts] and the C2PA
    image bundle of [proofs/c2pa-image-schema.ts]: signed manifests, ProofMode and
    EXIF records looked up in the integrity store or produced from the fetched
    attachments. *)

From S2P Require Import Prelude JsNum JsMap JsString JsFloat JsValue SchemaUri QueryTypes Samples PreimageStore EventLoop JsonCodec Nostr Sidecar.
From S2P Require Import ReplayGuard Tlsn Verifier UrlValidation Exif Geo ExifCheck C2pa Proofmode IntegrityStore Blossom.

Notation Acc := CheckAccumulator.

(** ** Options *)
Definition is_store_value (v : jsval) : bool :=
  isRecord v && is_fun (prop "get" v) && is_fun (prop "getForRequest" v) && is_fun (prop "store" v) && is_fun (prop "clear" v).

Definition isC2paImageSchemaOptions (value : jsval) : bool :=
  isRecord value &&
  match prop "c2paToolPath" value with VUndef | VNull | VStr _ => true | _ => false end &&
  (is_undef (prop "integrityStore" value) || is_store_value (prop "integrityStore" value)) &&
  (is_undef (prop "executor" value) || is_executor_value (prop "executor" value)).

Definition schemaOptionsRecord (value : jsval) : list (string * jsval) := if isRecord value then own_fields value else [].

Definition parseC2paImageSchemaOptions (value : jsval) : res jsval :=
  if isC2paImageSchemaOptions value then Ok value
  else Throw (mkExn "Error" "C2PA image Proof Schema options must be an object").

(** The object [createIntegrityStore] returns. *)
Definition default_store_value : jsval :=
  VObj [("store", VFun); ("get", VFun); ("getForRequest", VFun); ("purgeStale", VFun); ("clear", VFun)].

(** ** The records *)
Definition checkC2paSignature (c2pa : C2paValidationResult) (acc : Acc) : Acc :=
  if negb (cv_available c2pa) then push_failures ["C2PA: c2patool not available — cannot verify Content Credentials"] acc
  else if negb (cv_hasManifest c2pa) then push_failures ["C2PA: no Content Credentials found — use a C2PA-enabled camera"] acc
  else if cv_signatureValid c2pa then push_checks ["C2PA: valid Content Credentials signature"] acc
  else push_failures ["C2PA: Content Credentials signature invalid"] acc.

Section records.
Context `{M : MathApi}.

Definition push_proximity (p : Proximity) (acc : Acc) : Acc := push_failures (px_failures p) (push_checks (px_checks p) acc).

Definition checkC2paGpsBinding (c2pa : C2paValidationResult) (expectedGps : option Gps) (maxGpsDist : number) (acc : Acc) : Acc :=
  match expectedGps with
  | None =>
      let acc1 := checkC2paSignature c2pa acc in
      match cv_gps c2pa with
      | Some gps => push_proximity (evaluateC2paGpsProximity gps None maxGpsDist "C2PA") acc1
      | None => acc1
      end
  | Some expected =>
      let binding := verifyC2paGpsBinding c2pa expected maxGpsDist in
      push_failures (cb_failures binding) (push_checks (cb_checks binding) acc)
  end.

Definition checkProofModeRecord (proofmode : option ProofModeIntegrity) (expectedGps : option Gps) (maxGpsDist : number) (acc : Acc) : Acc :=
  match proofmode with
  | None => acc
  | Some p =>
      let acc1 := push_failures (pi_failures p) (push_checks (pi_checks p) acc) in
      match pi_proof p, expectedGps with
      | Some proof, Some expected =>
          if negb (pm_locationLatitude proof =ₙ num 0) || negb (pm_locationLongitude proof =ₙ num 0) then
            push_proximity (evaluateC2paGpsProximity (mkGps (pm_locationLatitude proof) (pm_locationLongitude proof))
                              (Some expected) maxGpsDist "ProofMode") acc1
          else acc1
      | _, _ => acc1
      end
  end.

Definition resolveC2paRequirement (payload : option jsval) (acc : Acc) : option C2paImageRequirement * Acc :=
  match payload with
  | None | Some VUndef => (Some (mkC2paRequirement None None), acc)
  | Some v =>
      match isC2paImageRequirement v with
      | Some r => (Some r, acc)
      | None => (None, push_failures ["C2PA image: query missing or invalid schema_requirement"] acc)
      end
  end.

Definition resolveC2paEvidence (payload : option jsval) (acc : Acc) : option (option Gps) * Acc :=
  match payload with
  | None | Some VUndef => (Some None, acc)
  | Some v =>
      match isC2paImageEvidence v with
      | Some g => (Some g, acc)
      | None => (None, push_failures ["C2PA image: invalid schema_evidence"] acc)
      end
  end.

Definition requirement_limit (r : C2paImageRequirement) : number :=
  opt_default DEFAULT_C2PA_MAX_GPS_DISTANCE_KM (cr_max_gps_distance_km r).

Definition checkSchemaEvidenceGps (requirement : C2paImageRequirement) (evidence : option Gps) (acc : Acc) : Acc :=
  match evidence with
  | Some gps => push_proximity (evaluateC2paGpsProximity gps (cr_expected_gps requirement) (requirement_limit requirement)
                                  "C2PA schema_evidence") acc
  | None => acc
  end.

Definition checkExifRecord (exif : ExifValidationResult) (acc : Acc) : Acc :=
  if negb (xr_hasExif exif) then push_checks ["EXIF: no metadata (stripped by provider for privacy)"] acc
  else
  let acc1 :=
    if xr_hasCameraModel exif then
      push_checks ["EXIF: camera identified (" +:+ join_present (em_make (xr_metadata exif)) (em_model (xr_metadata exif)) +:+ ")"] acc
    else push_checks ["EXIF: present but no camera model (screenshot or processed image)"] acc in
  let acc2 :=
    if xr_hasTimestamp exif then
      push_checks [if xr_timestampRecent exif then "EXIF: timestamp is recent" else "EXIF: timestamp is not recent (older photo)"] acc1
    else acc1 in
  if xr_hasGps exif then
    let acc3 := push_checks ["EXIF: GPS coordinates present"] acc2 in
    match xr_gpsNearHint exif with
    | Some true => push_checks ["EXIF: GPS matches location hint"] acc3
    | Some false => push_failures ["EXIF: GPS coordinates far from expected location"] acc3
    | None => acc3
    end
  else acc2.

Definition check_record (expectedGps : option Gps) (maxGpsDist : number) (acc : Acc) (r : IntegrityMetadata) : Acc :=
  checkExifRecord (im_exif r)
    (checkProofModeRecord (im_proofmode r) expectedGps maxGpsDist
       (checkC2paGpsBinding (im_c2pa r) expectedGps maxGpsDist acc)).
End records.

(** ** The check *)
Section photo.
Context `{M : MathApi} `{U : UrlApi} `{N : Noble} `{L : NostrLib} `{J : JSON} `{W : WebCrypto} `{X : HexDecoder} {E : Type}.

(** The module-level integrity store and the rest of the world. *)
Record PhotoState := mkPhoto { ph_integrity : IntegrityMap; ph_world : E }.
Definition set_world (e : E) (s : PhotoState) : PhotoState := mkPhoto (ph_integrity s) e.
Definition in_world {A} (c : call E A) : call PhotoState A := zoom ph_world set_world c.

Record StoreOps := mkStoreOps {
  so_get : string -> PhotoState -> option IntegrityMetadata;
  so_getForRequest : string -> PhotoState -> list IntegrityMetadata;
}.
Definition default_store : StoreOps :=
  mkStoreOps (fun id s => getIntegrity id (ph_integrity s)) (fun id s => getIntegrityForRequest id (ph_integrity s)).

Variables (c2io : C2paIo (E := E)) (fio : FetchIo (E := E)).
(** The environment's configuration, the platform's executor, and what a store
    or an executor given as an option does. *)
Variables (config : AttachmentRuntimeConfig) (serverSidecarExecutor hostExecutor : SidecarExecutor) (storeOf : jsval -> StoreOps).

Definition is_image (att : AttachmentRef) : bool := startsWith "image/" (att_mime_type att).

(** The loop over the attachments: the accumulator and [validated]. *)
Fixpoint verify_images (attachments : list AttachmentRef) (expectedGps : option Gps) (maxGpsDist : number)
    (toolPath : option (option string)) (ex : SidecarExecutor) (blossomKeys : option BlossomKeyMap)
    (acc : Acc) (validated : bool) : call PhotoState (Acc * bool) :=
  match attachments with
  | [] => ret (acc, validated)
  | att :: attachments' =>
      let continue acc validated := verify_images attachments' expectedGps maxGpsDist toolPath ex blossomKeys acc validated in
      if negb (is_image att) then continue acc validated
      else
        await (in_world (fetchAttachmentData fio att blossomKeys config)) (fun fetched =>
          match fetched with
          | inr reason => continue (push_failures ["C2PA: " +:+ reason] acc) validated
          | inl data =>
              await (in_world (validateC2pa c2io data (opt_default (att_id att) (att_filename att)) toolPath ex)) (fun c2pa =>
                continue (checkC2paGpsBinding c2pa expectedGps maxGpsDist acc) true)
          end)
  end.

Definition verifyC2paFromAttachments (attachments : list AttachmentRef) (expectedGps : option Gps) (maxGpsDist : number)
    (requiresC2pa : bool) (toolPath : option (option string)) (ex : SidecarExecutor) (blossomKeys : option BlossomKeyMap)
    (acc : Acc) : call PhotoState Acc :=
  match attachments with
  | [] => ret acc
  | _ =>
      await (verify_images attachments expectedGps maxGpsDist toolPath ex blossomKeys acc false) (fun '(acc', validated) =>
        if validated then ret acc'
        else if existsb is_image attachments then ret (push_failures ["C2PA: no image attachments could be verified"] acc')
        else if requiresC2pa then
          ret (push_failures ["C2PA: required Content Credentials evidence missing — no image submitted"] acc')
        else ret acc')
  end.

Definition verifyPhotoIntegrity (requirementId : string) (attachments : list AttachmentRef) (expectedGps : option Gps)
    (maxGpsDist : number) (requiresC2pa : bool) (store : StoreOps) (toolPath : option (option string))
    (ex : SidecarExecutor) (blossomKeys : option BlossomKeyMap) (acc : Acc) : call PhotoState Acc := fun s =>
  let own := omap (fun att => so_get store (att_id att) s) attachments in
  let records := match own with [] => so_getForRequest store requirementId s | _ => own end in
  match records with
  | [] => await (verifyC2paFromAttachments attachments expectedGps maxGpsDist requiresC2pa toolPath ex blossomKeys acc)
            (fun acc' => ret acc') s
  | _ => ret (fold_left (check_record expectedGps maxGpsDist) records acc) s
  end.

Definition createPhotoIntegrityCheck (defaultOptions : list (string * jsval)) : FactorCheck PhotoState :=
  mkCheck "photo-integrity" (fun ctx '(acc, v) =>
    let attachments := vi_attachments (cx_input ctx) in
    let '(req, acc1) := resolveC2paRequirement (vr_schema_requirement (cx_requirement ctx)) acc in
    let '(ev, acc2) := resolveC2paEvidence (vi_schema_evidence (cx_input ctx)) acc1 in
    match req, ev with
    | Some requirement, Some evidence =>
        let acc3 := checkSchemaEvidenceGps requirement evidence acc2 in
        match attachments with
        | [] => ret (push_failures ["C2PA: required Content Credentials evidence missing — no image submitted"] acc3, v)
        | _ =>
            let acc4 := push_checks ["attachment present"] acc3 in
            match parseC2paImageSchemaOptions (VObj (spread defaultOptions (schemaOptionsRecord (cx_schemaOptions ctx)))) with
            | Throw e => fail e
            | Ok options =>
                await (verifyPhotoIntegrity (vr_id (cx_requirement ctx)) attachments (cr_expected_gps requirement)
                         (requirement_limit requirement) true
                         (if is_undef (prop "integrityStore" options) then default_store else storeOf (prop "integrityStore" options))
                         (path_option (prop "c2paToolPath" options))
                         (if is_undef (prop "executor" options) then serverSidecarExecutor else hostExecutor)
                         (vo_blossomKeys (cx_options ctx)) acc4)
                  (fun acc' => ret (acc', v))
            end
        end
    | _, _ => ret (acc2, v)
    end).

(** ** The bundle *)
Definition createC2paImageSchemaBundle (ref : nat) (options : list (string * jsval)) : SchemaBundle PhotoState :=
  mkBundle ref ProofSchema_C2paImageV1 None None
    (Some [createEmptySubmissionCheck (fun _ => true);
           createPhotoIntegrityCheck (spread [("integrityStore", default_store_value)] options)])
    (Some parseC2paImageSchemaOptions)
    (Some (fun data _ => if isRecord data then data else VUndef)).
End photo.

(** ** The photo-integrity check fails closed

    A submission passes only on verified, correctly placed Content Credentials,
    whether they come from the integrity store or from the attachments. *)

(** ** Failures accumulate *)
Lemma push_failures_nil l a : acc_failures (push_failures l a) = [] <-> acc_failures a = [] /\ l = [].
Proof. cbn. split; [apply app_eq_nil|]. intros [-> ->]. done. Qed.

Lemma push_checks_failures l a : acc_failures (push_checks l a) = acc_failures a.
Proof. done. Qed.

Section records.
Context `{M : MathApi}.

(** Credentials that count: a verified signed manifest, and a signed position
    within the limit when one is expected. *)
Definition trusted (expected : option Gps) (limit : number) (c : C2paValidationResult) : Prop :=
  cv_available c = true /\ cv_hasManifest c = true /\ cv_signatureValid c = true /\
  forall g, expected = Some g -> exists gps, cv_gps c = Some gps /\ dp_withinLimit (evaluateGpsDistancePolicy gps g limit) = true.

Lemma signature_nil c acc :
  acc_failures (checkC2paSignature c acc) = [] ->
  acc_failures acc = [] /\ cv_available c = true /\ cv_hasManifest c = true /\ cv_signatureValid c = true.
Proof.
  unfold checkC2paSignature. destruct (cv_available c), (cv_hasManifest c), (cv_signatureValid c); cbn [negb];
    rewrite ?push_failures_nil, ?push_checks_failures; intuition discriminate.
Qed.

Lemma binding_nil c expected limit acc :
  acc_failures (checkC2paGpsBinding c expected limit acc) = [] -> acc_failures acc = [] /\ trusted expected limit c.
Proof.
  unfold checkC2paGpsBinding. destruct expected as [g|].
  - destruct (gps_binding_iff c g limit) as [H1 H2].
    set (b := verifyC2paGpsBinding c g limit) in *. clearbody b. rewrite push_failures_nil, push_checks_failures.
    intros [Ha Hb]. split; [done|]. apply H2, H1 in Hb as (_ & _ & Hav & Hman & Hsig & Hg).
    split_and!; try done. by intros g' [= <-].
  - intros H. assert (Hs : acc_failures (checkC2paSignature c acc) = []).
    { destruct (cv_gps c) as [gps|]; [|done]. unfold push_proximity in H.
      by rewrite push_failures_nil, push_checks_failures in H; destruct H. }
    apply signature_nil in Hs as (Ha & H1 & H2 & H3). by split.
Qed.

Lemma proofmode_nil p expected limit acc :
  acc_failures (checkProofModeRecord p expected limit acc) = [] ->
  acc_failures acc = [] /\ forall r, p = Some r -> pi_failures r = [].
Proof.
  unfold checkProofModeRecord, push_proximity. destruct p as [r|]; [|naive_solver]. intros H.
  assert (H1 : acc_failures (push_failures (pi_failures r) (push_checks (pi_checks r) acc)) = []).
  { destruct (pi_proof r) as [pr|]; [|done]. destruct expected as [g|]; [|done].
    destruct (negb (pm_locationLatitude pr =ₙ num 0) || negb (pm_locationLongitude pr =ₙ num 0)); [|done].
    rewrite push_failures_nil, push_checks_failures in H. by destruct H. }
  rewrite push_failures_nil, push_checks_failures in H1. destruct H1. split; [done|]. by intros r' [= <-].
Qed.

Lemma exif_nil x acc :
  acc_failures (checkExifRecord x acc) = [] -> acc_failures acc = [].
Proof.
  unfold checkExifRecord. destruct (xr_hasExif x); cbn [negb]; [|done].
  destruct (xr_hasCameraModel x), (xr_hasTimestamp x), (xr_hasGps x); try done;
    (destruct (xr_gpsNearHint x) as [[]|]; try done; rewrite push_failures_nil; by intros [? ?]).
Qed.

Lemma record_nil expected limit acc r :
  acc_failures (check_record expected limit acc r) = [] ->
  acc_failures acc = [] /\ trusted expected limit (im_c2pa r) /\ forall p, im_proofmode r = Some p -> pi_failures p = [].
Proof.
  unfold check_record. intros H. apply exif_nil in H. apply proofmode_nil in H as [H Hp]. apply binding_nil in H as [Ha Ht].
  by split_and!.
Qed.

(** A record that counts: trusted credentials, and a ProofMode record, if any, without failures. *)
Definition good_record_for (expected : option Gps) (limit : number) (r : IntegrityMetadata) : Prop :=
  trusted expected limit (im_c2pa r) /\ forall p, im_proofmode r = Some p -> pi_failures p = [].

Lemma records_nil expected limit records acc :
  acc_failures (fold_left (check_record expected limit) records acc) = [] ->
  acc_failures acc = [] /\ Forall (good_record_for expected limit) records.
Proof.
  revert acc. induction records as [|r records IH]; intros acc H; cbn [fold_left] in H; [by split|].
  apply IH in H as [H HF]. apply record_nil in H as (Ha & Hr). by split; [|constructor].
Qed.
End records.

Section photo.
Context `{M : MathApi} `{U : UrlApi} `{N : Noble} `{L : NostrLib} `{J : JSON} `{W : WebCrypto} `{X : HexDecoder} {E : Type}.
Context (c2io : C2paIo (E := E)) (fio : FetchIo (E := E)) (config : AttachmentRuntimeConfig).
Context (serverSidecarExecutor hostExecutor : SidecarExecutor) (storeOf : jsval -> StoreOps (E := E)).

(** The attachment was fetched and the tool's verdict on its bytes counts. *)
Definition image_verified (keys : option BlossomKeyMap) (toolPath : option (option string)) (ex : SidecarExecutor)
    (expected : option Gps) (limit : number) (att : AttachmentRef) : Prop :=
  exists e1 e2 data c2pa,
    outcome (fun _ => True) (fetchAttachmentData fio att keys config) e1 (Ok (inl data)) /\
    outcome (fun _ => True) (validateC2pa c2io data (opt_default (att_id att) (att_filename att)) toolPath ex) e2 (Ok c2pa) /\
    trusted expected limit c2pa.

Lemma verify_images_nil R attachments expected limit toolPath ex keys acc validated s acc' validated' :
  outcome R (verify_images c2io fio config attachments expected limit toolPath ex keys acc validated) s (Ok (acc', validated')) ->
  acc_failures acc' = [] ->
  acc_failures acc = [] /\
  Forall (fun att => is_image att = true -> image_verified keys toolPath ex expected limit att) attachments /\
  (validated' = true -> validated = true \/ Exists (fun att => is_image att = true) attachments).
Proof.
  revert acc validated s. induction attachments as [|att attachments IH]; intros acc validated s H Hf.
  { apply outcome_ret in H. injection H as -> ->. split_and!; [done|constructor|by left]. }
  cbn [verify_images] in H. destruct (is_image att) eqn:Hi; cbn [negb] in H.
  - apply outcome_await in H as (fetched & s1 & H1 & _ & H). apply outcome_zoom, resolves_anywhere in H1. destruct fetched as [data|reason].
    + apply outcome_await in H as (c2pa & s2 & H2 & _ & H). apply outcome_zoom, resolves_anywhere in H2.
      apply IH in H as (Ha & HF & Hv); [|done]. apply binding_nil in Ha as [Ha Ht].
      split_and!; [done| |intros _; right; by left]. constructor; [|done]. intros _. by eexists _, _, _, _.
    + apply IH in H as (Ha & _ & _); [|done]. apply push_failures_nil in Ha as [_ Hn]. discriminate.
  - apply IH in H as (Ha & HF & Hv); [|done]. split_and!; [done|by constructor; [rewrite Hi|]|].
    intros Hv'. destruct (Hv Hv') as [|Hex]; [by left|right; by right].
Qed.

Lemma from_attachments_nil R attachments expected limit toolPath ex keys acc s acc' :
  attachments <> [] ->
  outcome R (verifyC2paFromAttachments c2io fio config attachments expected limit true toolPath ex keys acc) s (Ok acc') ->
  acc_failures acc' = [] ->
  acc_failures acc = [] /\ Exists (fun att => is_image att = true) attachments /\
  Forall (fun att => is_image att = true -> image_verified keys toolPath ex expected limit att) attachments.
Proof.
  intros Hne H Hf. unfold verifyC2paFromAttachments in H. destruct attachments as [|a l]; [done|].
  apply outcome_await in H as ([acc1 validated] & s1 & H1 & _ & H). destruct validated.
  - apply outcome_ret in H. injection H as ->. apply verify_images_nil in H1 as (Ha & HF & Hv); [|done].
    split_and!; [done| |done]. by destruct (Hv eq_refl).
  - exfalso. destruct (existsb is_image (a :: l)); apply outcome_ret in H; injection H as ->;
      apply push_failures_nil in Hf as [_ Hf]; discriminate.
Qed.

(** A record the store holds for the submission: one of an attachment, or, when no
    attachment has one, one of the request. *)
Definition on_record (store : StoreOps (E := E)) (s : PhotoState (E := E)) (id : string) (attachments : list AttachmentRef) (r : IntegrityMetadata) : Prop :=
  (exists att, att ∈ attachments /\ so_get store (att_id att) s = Some r) \/
  ((forall att, att ∈ attachments -> so_get store (att_id att) s = None) /\ r ∈ so_getForRequest store id s).

(** The submission rests on records, all of which count, or, in their absence, on its
    images, all of which were verified. *)
Definition well_founded_submission (store : StoreOps (E := E)) (s : PhotoState (E := E)) (id : string) (attachments : list AttachmentRef)
    (keys : option BlossomKeyMap) (toolPath : option (option string)) (ex : SidecarExecutor) (expected : option Gps) (limit : number) : Prop :=
  ((exists r, on_record store s id attachments r) /\
   forall r, on_record store s id attachments r -> good_record_for expected limit r) \/
  ((forall r, ~ on_record store s id attachments r) /\
   Exists (fun att => is_image att = true) attachments /\
   Forall (fun att => is_image att = true -> image_verified keys toolPath ex expected limit att) attachments).

Lemma records_on_record store s id attachments r :
  let own := omap (fun att => so_get store (att_id att) s) attachments in
  r ∈ match own with [] => so_getForRequest store id s | _ => own end <-> on_record store s id attachments r.
Proof.
  intros own. unfold on_record.
  assert (Hown : forall x, x ∈ own <-> exists att, att ∈ attachments /\ so_get store (att_id att) s = Some x)
    by (intros x; unfold own; apply list_elem_of_omap).
  assert (Hnil : own = [] <-> forall att, att ∈ attachments -> so_get store (att_id att) s = None).
  { split.
    - intros E0 att Hatt. destruct (so_get store (att_id att) s) as [x|] eqn:Ex; [|done].
      exfalso. apply (not_elem_of_nil x). rewrite <- E0. apply Hown. by exists att.
    - intros Hn. destruct own as [|x l]; [done|]. destruct (proj1 (Hown x)) as (att & Hatt & Hx); [left|].
      by rewrite Hn in Hx. }
  destruct own as [|x l].
  - split; [intros Hr; right; split; [by apply Hnil|done]|]. intros [Ho|[_ Hr]]; [|done].
    apply Hown in Ho. by apply not_elem_of_nil in Ho.
  - rewrite Hown. split; [by left|]. intros [Ho|[Hn _]]; [done|]. by apply Hnil in Hn.
Qed.

Lemma integrity_nil R id attachments expected limit store toolPath ex keys acc s acc' :
  attachments <> [] ->
  outcome R (verifyPhotoIntegrity c2io fio config id attachments expected limit true store toolPath ex keys acc) s (Ok acc') ->
  acc_failures acc' = [] ->
  acc_failures acc = [] /\ well_founded_submission store s id attachments keys toolPath ex expected limit.
Proof.
  intros Hne H Hf. unfold verifyPhotoIntegrity, outcome in H. cbv beta zeta in H.
  pose proof (records_on_record store s id attachments) as Hon. cbv zeta in Hon.
  set (records := match omap (fun att => so_get store (att_id att) s) attachments with
                  | [] => so_getForRequest store id s | _ => omap (fun att => so_get store (att_id att) s) attachments end) in *.
  clearbody records. destruct records as [|r records].
  - apply (outcome_await R (verifyC2paFromAttachments c2io fio config attachments expected limit true toolPath ex keys acc))
      in H as (a & s1 & H1 & _ & H). apply outcome_ret in H. injection H as ->.
    apply from_attachments_nil in H1 as (Ha & Hex & HF); [|done|done]. split; [done|right]. split_and!; [|done|done].
    intros r Hr%Hon. by apply not_elem_of_nil in Hr.
  - apply (outcome_ret R) in H. injection H as ->. apply (records_nil expected limit (r :: records)) in Hf as [Ha HF].
    split; [done|left]. split; [exists r; apply Hon; left|]. intros r' Hr'%Hon. rewrite Forall_forall in HF. by apply HF.
Qed.

Lemma requirement_resolved payload acc req acc' :
  resolveC2paRequirement payload acc = (Some req, acc') -> acc' = acc.
Proof.
  unfold resolveC2paRequirement. destruct payload as [v|]; [|by intros [= _ <-]].
  destruct v; try (by intros [= _ <-]); destruct (isC2paImageRequirement _); by intros [= ? <-].
Qed.

Lemma evidence_resolved payload acc ev acc' :
  resolveC2paEvidence payload acc = (Some ev, acc') -> acc' = acc.
Proof.
  unfold resolveC2paEvidence. destruct payload as [v|]; [|by intros [= _ <-]].
  destruct v; try (by intros [= _ <-]); destruct (isC2paImageEvidence _); by intros [= ? <-].
Qed.

(** A requirement or evidence that does not parse leaves a failure. *)
Lemma unresolved_fails p1 p2 acc req acc1 ev acc2 :
  resolveC2paRequirement p1 acc = (req, acc1) -> resolveC2paEvidence p2 acc1 = (ev, acc2) ->
  req = None \/ ev = None -> acc_failures acc2 = [] -> False.
Proof.
  intros H1 H2 Hor Hf.
  assert (Hev : ev = None -> acc_failures acc2 <> []).
  { intros ->. revert H2. unfold resolveC2paEvidence. destruct p2 as [[]|]; try done;
      (destruct (isC2paImageEvidence _); [done|]; intros [= <-]; rewrite push_failures_nil; by intros [_ ?]). }
  destruct Hor as [->|He]; [|by apply Hev].
  assert (Hreq : acc_failures acc1 <> []).
  { revert H1. unfold resolveC2paRequirement. destruct p1 as [[]|]; try done;
      (destruct (isC2paImageRequirement _); [done|]; intros [= <-]; rewrite push_failures_nil; by intros [_ ?]). }
  destruct ev as [g|]; [|by apply Hev]. apply evidence_resolved in H2 as ->. done.
Qed.

(** What the check read the requirement as. *)
Definition required (ctx : FactorCheckContext) (req : C2paImageRequirement) : Prop :=
  match vr_schema_requirement (cx_requirement ctx) with
  | None | Some VUndef => req = mkC2paRequirement None None
  | Some v => isC2paImageRequirement v = Some req
  end.

Lemma resolve_required ctx acc req acc' :
  resolveC2paRequirement (vr_schema_requirement (cx_requirement ctx)) acc = (Some req, acc') -> required ctx req.
Proof.
  unfold resolveC2paRequirement, required. destruct (vr_schema_requirement (cx_requirement ctx)) as [v|]; [|by intros [= <- _]].
  destruct v; try (by intros [= <- _]); destruct (isC2paImageRequirement _); by intros [= <- _].
Qed.

(** The options of a run: the bundle's, overridden by those of the verification. *)
Definition photo_options (defaults : list (string * jsval)) (ctx : FactorCheckContext) : jsval :=
  VObj (spread defaults (schemaOptionsRecord (cx_schemaOptions ctx))).
Definition photo_store (options : jsval) : StoreOps (E := E) :=
  if is_undef (prop "integrityStore" options) then default_store else storeOf (prop "integrityStore" options).

(** C13: The photo check lets a submission through only on good Content
    Credentials.  When it leaves no failure, the requirement and the options are well
    formed, there is an attachment, and in the state the check started in either the
    integrity store of the options holds a record for the submission (of one of its
    attachments, or of the request when no attachment has one) and every such record
    has a verified manifest, with a signed position within the limit where one is
    expected, and no ProofMode failure; or it holds none, there is an image, and every
    image was fetched and the tool of the options verified the manifest of its bytes
    in the same way.  (With a record for one attachment the others are not examined:
    [unrecorded_image_unexamined].) *)
Theorem photo_check_fails_closed R defaults ctx acc v s acc' v' :
  outcome R (ck_run (createPhotoIntegrityCheck c2io fio config serverSidecarExecutor hostExecutor storeOf defaults) ctx (acc, v)) s
    (Ok (acc', v')) ->
  acc_failures acc' = [] ->
  let options := photo_options defaults ctx in
  acc_failures acc = [] /\ vi_attachments (cx_input ctx) <> [] /\ isC2paImageSchemaOptions options = true /\
  exists req, required ctx req /\
    well_founded_submission (photo_store options) s (vr_id (cx_requirement ctx)) (vi_attachments (cx_input ctx))
      (vo_blossomKeys (cx_options ctx)) (path_option (prop "c2paToolPath" options))
      (if is_undef (prop "executor" options) then serverSidecarExecutor else hostExecutor)
      (cr_expected_gps req) (requirement_limit req).
Proof.
  intros H Hf options. cbn [ck_run createPhotoIntegrityCheck] in H. fold (photo_options defaults ctx) in H. fold options in H.
  destruct (resolveC2paRequirement (vr_schema_requirement (cx_requirement ctx)) acc) as [req acc1] eqn:Hreq.
  destruct (resolveC2paEvidence (vi_schema_evidence (cx_input ctx)) acc1) as [ev acc2] eqn:Hev.
  assert (Hbad : (req = None \/ ev = None) -> outcome R (ret (acc2, v)) s (Ok (acc', v')) -> False).
  { intros Hor Ho. apply outcome_ret in Ho. injection Ho as -> ->. revert Hor Hf. eapply unresolved_fails; eauto. }
  destruct req as [req|]; [|by exfalso; apply Hbad; [left|]].
  destruct ev as [ev|]; [|by exfalso; apply Hbad; [right|]].
  apply resolve_required in Hreq as Hr. apply requirement_resolved in Hreq as ->.
  destruct (vi_attachments (cx_input ctx)) as [|att atts] eqn:Hatts.
  { exfalso. apply outcome_ret in H. injection H as -> ->. apply push_failures_nil in Hf as [_ Hf]. discriminate. }
  unfold parseC2paImageSchemaOptions in H. destruct (isC2paImageSchemaOptions options) eqn:Hopt; [|by apply resolves_Settled in H].
  apply outcome_await in H as (acc3 & s1 & H & _ & Hret). apply outcome_ret in Hret. injection Hret as -> ->.
  apply integrity_nil in H as (Ha & H); [|done|done]. rewrite push_checks_failures in Ha.
  assert (Ha2 : acc_failures acc2 = []).
  { unfold checkSchemaEvidenceGps, push_proximity in Ha. destruct ev as [g|]; [|done].
    rewrite push_failures_nil, push_checks_failures in Ha. by destruct Ha. }
  split; [by eapply evidence_resolved in Hev; subst|]. split_and!; [done|done|]. by exists req.
Qed.
End photo.

(** ** Witness and example *)
Definition good_c2pa : C2paValidationResult := mkC2pa true true true None (Some (mkGps (num 35) (num 139))) [] [].
Definition good_record (id : string) : IntegrityMetadata :=
  mkIntegrity id "q1" (num 0) (mkExifResult false false false false false None no_metadata [] []) good_c2pa None.
Definition image_ref (id : string) : AttachmentRef :=
  mkAttachmentRef id "https://files.example/x.jpg" "image/jpeg" storage_external None None None None.
Definition photo_ctx (atts : list AttachmentRef) : FactorCheckContext :=
  mkCheckContext (mkVerificationRequirement "q1" None [] None None
                    (Some (VObj [("expected_gps", VObj [("lat", VNum (num 35)); ("lon", VNum (num 139))])])) None)
    (mkVerificationInput atts None) (mkVerifyOptions None []) (VObj []).
(** The world counts the directories created; every fetch fails. *)
Definition no_fetch : FetchIo (E := nat) := mkFetchIo
  (fun _ n => (S n, Throw (mkExn "TypeError" "fetch failed"))) (fun _ _ _ n => n) (fun _ n => (n, (0, Ok true)))
  (fun k n => (n, repeat 5%Z k)) (fun n => (n, [3]%Z)) (fun _ => num 0) (fun _ n => n).
Definition photo_run (atts : list AttachmentRef) :=
  run_call (ck_run (createPhotoIntegrityCheck (M := series_math) (U := fun _ => None) (J := codec) (W := toy_crypto) (X := toy_hex)
    c2pa_io no_fetch no_config c2pa_executor c2pa_executor (fun _ => default_store) []) (photo_ctx atts) (mkAcc [] [] [], None))
    (mkPhoto [("a1", good_record "a1")] 0).
Definition photo_failures (r : res (Acc * option jsval)) : list string :=
  match r with Ok (acc, _) => acc_failures acc | Throw _ => ["rejected"] end.

Lemma photo_check_fails_closed_witness :
  photo_failures (photo_run [image_ref "a1"]).2 = [] /\
  trusted (M := series_math) (Some (mkGps (num 35) (num 139))) (num 50) (im_c2pa (good_record "a1")).
Proof.
  split; [vm_compute; reflexivity|].
  destruct (photo_run [image_ref "a1"]).2 as [[acc v]|] eqn:Hrun; [|vm_compute in Hrun; discriminate].
  destruct (photo_check_fails_closed (M := series_math) (U := fun _ => None) (J := codec) (W := toy_crypto) (X := toy_hex)
    c2pa_io no_fetch no_config c2pa_executor c2pa_executor (fun _ => default_store) (fun _ => True) [] (photo_ctx [image_ref "a1"])
    (mkAcc [] [] []) None (mkPhoto [("a1", good_record "a1")] 0) acc v) as (_ & _ & _ & req & Hreq & H).
  - apply run_call_outcome. exact Hrun.
  - vm_compute in Hrun. by injection Hrun as <- _.
  - vm_compute in Hreq. injection Hreq as <-.
    assert (Hon : on_record (photo_store (E := nat) (fun _ => default_store) (photo_options [] (photo_ctx [image_ref "a1"])))
      (mkPhoto [("a1", good_record "a1")] 0) "q1" [image_ref "a1"] (good_record "a1")).
    { left. exists (image_ref "a1"). split; [left|reflexivity]. }
    destruct H as [[_ H]|[H _]]; [exact (proj1 (H _ Hon))|destruct (H _ Hon)].
Defined.

(** An image without a record is not examined when another one has a record: the
    second image is neither fetched nor verified, and the check passes. *)
Example unrecorded_image_unexamined :
  photo_failures (photo_run [image_ref "a1"; image_ref "b2"]).2 = [] /\
  ph_world (photo_run [image_ref "a1"; image_ref "b2"]).1 = 0.
Proof. split; vm_compute; reflexivity. Qed.
