(* ===== verification/Attachments.v ===== *)
(** * Attachment references

    [packages/sdk/src/attachments/{mime,attachment-helpers,access}.ts]: MIME types
    from file names, and references made absolute and complete.  The [URL] class
    is the platform's: [UrlApi] for the parts of a URL, [UrlText] for its
    serialization and for resolution against a base. *)

From S2P Require Import Prelude JsNum JsString SchemaUri QueryTypes C2pa Blossom.

(** [new URL(s).toString()] and [new URL(s, base).toString()], [None] when the constructor throws. *)
Class UrlText := {
  URL_href : string -> option string;
  URL_resolve : string -> string -> option string;
}.

(** ** [mime.ts] *)

(** [extname] of [node:path]: the suffix of the last path component from its last
    dot, unless the component starts with that dot or is dots only. *)
Definition last_component (path : string) : string :=
  opt_default "" (List.hd_error (List.filter (fun s => str_truthy s) (rev (js_split 47 path)))).

Definition extname (path : string) : string :=
  let base := last_component path in
  match rev (split_chars 46 (chars base)) with
  | last :: ((_ :: _) as pre) =>
      if (base === "..") || bool_decide (pre = [[]]) then "" else "." +:+ of_chars last
  | _ => ""
  end.

Example extname_ex :
  map extname ["a.png"; "dir/b.tar.gz"; ".profile"; "x."; "noext"; "a.jpg/"; "..a"] = [".png"; ".gz"; ""; "."; ""; ".jpg"; ".a"].
Proof. vm_compute. reflexivity. Qed.

Definition MIME_TYPES : list (string * string) :=
  [(".gif", "image/gif"); (".heic", "image/heic"); (".heif", "image/heif"); (".jpeg", "image/jpeg"); (".jpg", "image/jpeg");
   (".png", "image/png"); (".webp", "image/webp")].

Definition octet_stream : string := "application/octet-stream".

Definition inferMimeTypeFromFilename (filename : string) : string :=
  opt_default octet_stream (snd <$> List.find (fun kv => fst kv === toLowerCase (extname filename)) MIME_TYPES).

(** ** [attachment-helpers.ts] *)
Notation AttachmentLike := (AttachmentRef + string)%type (only parsing).

Definition attachmentRefSource (ref : AttachmentLike) : string :=
  match ref with inl r => att_uri r | inr s => s end.

(** [s.split("/").filter(Boolean).pop()] *)
Definition last_segment (s : string) : option string := last (List.filter (fun x => str_truthy x) (js_split 47 s)).

Section access.
Context `{U : UrlApi} `{T : UrlText}.

Definition inferAttachmentId (value : string) : string :=
  match URL_parse value with
  | Some url => opt_default value (last_segment (url_pathname url))
  | None => opt_default value (last_segment value)
  end.

Record BlossomFields := mkBlossomFields { bf_hash : option string; bf_servers : option (list string) }.

(** [None] for the empty object. *)
Definition extractBlossomFields (ref : AttachmentLike) : option BlossomFields :=
  match ref with inl r => Some (mkBlossomFields (att_blossom_hash r) (att_blossom_servers r)) | inr _ => None end.

Definition blossom_hash_of (b : option BlossomFields) : option string := match b with Some f => bf_hash f | None => None end.
Definition blossom_servers_of (b : option BlossomFields) : option (list string) := match b with Some f => bf_servers f | None => None end.

Record StoredAttachment := mkStored {
  sa_filename : string;
  sa_mimeType : string;
  sa_absoluteUrl : string;
  sa_storageKind : AttachmentStorageKind;
}.

Definition normalizeFromResolved (ref : AttachmentLike) (resolved : StoredAttachment) (b : option BlossomFields) : AttachmentRef :=
  match ref with
  | inl r => mkAttachmentRef (att_id r) (sa_absoluteUrl resolved) (att_mime_type r) (att_storage_kind r)
               (Some (opt_default (sa_filename resolved) (att_filename r))) (att_size_bytes r) (blossom_hash_of b) (blossom_servers_of b)
  | inr _ => mkAttachmentRef (sa_filename resolved) (sa_absoluteUrl resolved) (sa_mimeType resolved) (sa_storageKind resolved)
               (Some (sa_filename resolved)) None (blossom_hash_of b) (blossom_servers_of b)
  end.

Definition normalizeFromRef (r : AttachmentRef) (b : option BlossomFields) : AttachmentRef :=
  mkAttachmentRef (if str_truthy (att_id r) then att_id r else inferAttachmentId (att_uri r)) (att_uri r)
    (if str_truthy (att_mime_type r) then att_mime_type r else octet_stream) (att_storage_kind r) (att_filename r) (att_size_bytes r)
    (blossom_hash_of b) (blossom_servers_of b).

Definition normalizeFromString (s : string) : AttachmentRef :=
  mkAttachmentRef (inferAttachmentId s) s octet_stream storage_external None None None None.

(** ** [access.ts] *)

(** [s.replace(/\/+$/, "")] *)
Fixpoint drop_slashes (l : list Ascii.ascii) : list Ascii.ascii :=
  match l with c :: l' => if Nat.eqb (code c) 47 then drop_slashes l' else l | [] => [] end.
Definition strip_slashes (s : string) : string := of_chars (rev (drop_slashes (rev (chars s)))).

Definition url_error : exn := mkExn "TypeError" "Invalid URL".

Definition attachmentPublicBaseUrl (requestUrl : option string) (config : AttachmentRuntimeConfig) : res string :=
  match truthy (ac_publicBaseUrl config), truthy requestUrl with
  | Some configured, _ => Ok (strip_slashes configured)
  | None, Some url => match URL_resolve "/" url with Some u => Ok (strip_slashes u) | None => Throw url_error end
  | None, None => Throw (mkExn "Error" ("Attachment base URL is not configured — set ATTACHMENT_PUBLIC_BASE_URL " +:+
                                        "(or PUBLIC_BASE_URL), or pass the incoming request URL"))
  end.

Definition buildAttachmentAbsoluteUrl (ref : AttachmentLike) (requestUrl : option string) (config : AttachmentRuntimeConfig) : res string :=
  let source := attachmentRefSource ref in
  match URL_href source with
  | Some u => Ok u
  | None =>
      base ← attachmentPublicBaseUrl requestUrl config;
      match URL_resolve source (base +:+ "/") with Some u => Ok u | None => Throw url_error end
  end.

Definition resolveStoredAttachment (ref : AttachmentLike) : option StoredAttachment :=
  let source := attachmentRefSource ref in
  match URL_parse source, URL_href source with
  | Some url, Some href =>
      let filename := opt_default "attachment" (last_segment (url_pathname url)) in
      Some (mkStored filename
        (match ref with
         | inr _ => inferMimeTypeFromFilename filename
         | inl r => if str_truthy (att_mime_type r) then att_mime_type r else inferMimeTypeFromFilename filename
         end) href
        (match ref with inr _ => storage_external | inl r => att_storage_kind r end))
  | _, _ => None
  end.

Definition normalizeAttachmentRef (ref : AttachmentLike) : AttachmentRef :=
  let b := extractBlossomFields ref in
  match resolveStoredAttachment ref with
  | Some resolved => normalizeFromResolved ref resolved b
  | None => match ref with inl r => normalizeFromRef r b | inr s => normalizeFromString s end
  end.

Definition set_uri (r : AttachmentRef) (uri : string) : AttachmentRef :=
  mkAttachmentRef (att_id r) uri (att_mime_type r) (att_storage_kind r) (att_filename r) (att_size_bytes r) (att_blossom_hash r)
    (att_blossom_servers r).

Definition materializeAttachmentRef (ref : AttachmentLike) (requestUrl : option string) (config : AttachmentRuntimeConfig)
    : res AttachmentRef :=
  let normalized := normalizeAttachmentRef ref in
  uri ← buildAttachmentAbsoluteUrl (inl normalized) requestUrl config;
  Ok (set_uri normalized uri).

Definition normalizeResultAttachments (result : QueryResult) : QueryResult :=
  match res_attachments result with
  | [] => result
  | atts => mkQueryResult (map (fun a => normalizeAttachmentRef (inl a)) atts) (res_notes result) (res_schema_evidence result)
  end.

(** ** Normalization is idempotent *)

(** A URL and its serialization are the same URL, and serializing again changes nothing. *)
Class UrlLaws := {
  href_parses s : URL_parse s = None <-> URL_href s = None;
  href_idem s t : URL_href s = Some t -> URL_href t = Some t;
  href_parts s t : URL_href s = Some t -> URL_parse t = URL_parse s;
}.

Context `{Laws : !UrlLaws}.

Lemma normalize_resolved ref url href :
  URL_parse (attachmentRefSource ref) = Some url -> URL_href (attachmentRefSource ref) = Some href ->
  normalizeAttachmentRef (inl (normalizeAttachmentRef ref)) = normalizeAttachmentRef ref.
Proof.
  intros Hu Hh. unfold normalizeAttachmentRef at 2 3. unfold resolveStoredAttachment. rewrite Hu, Hh.
  destruct ref as [r|s]; cbn [attachmentRefSource extractBlossomFields] in *; unfold normalizeAttachmentRef, resolveStoredAttachment;
    cbn [attachmentRefSource att_uri normalizeFromResolved sa_absoluteUrl];
    by rewrite (href_parts _ _ Hh), Hu, (href_idem _ _ Hh).
Qed.

Lemma normalize_unresolved ref :
  URL_parse (attachmentRefSource ref) = None ->
  normalizeAttachmentRef (inl (normalizeAttachmentRef ref)) = normalizeAttachmentRef ref.
Proof.
  intros Hu. unfold normalizeAttachmentRef at 2 3. unfold resolveStoredAttachment. rewrite Hu.
  destruct ref as [r|s]; cbn [attachmentRefSource] in Hu; unfold normalizeAttachmentRef, resolveStoredAttachment;
    cbn [attachmentRefSource att_uri normalizeFromRef normalizeFromString]; rewrite Hu; unfold normalizeFromRef, normalizeFromString;
    cbn; f_equal.
  - destruct (str_truthy (att_id r)) eqn:Ht; [by rewrite Ht|]. by destruct (str_truthy (inferAttachmentId (att_uri r))).
  - destruct (str_truthy (att_mime_type r)) eqn:Ht; [by rewrite Ht|done].
  - by destruct (str_truthy (inferAttachmentId s)).
Qed.

(** Normalizing an attachment reference is idempotent: a normalized
    reference, whether it started as a URL, a relative path or a full reference,
    is left as it is. *)
Theorem normalize_idempotent ref : normalizeAttachmentRef (inl (normalizeAttachmentRef ref)) = normalizeAttachmentRef ref.
Proof.
  destruct (URL_parse (attachmentRefSource ref)) as [url|] eqn:Hu; [|by apply normalize_unresolved].
  destruct (URL_href (attachmentRefSource ref)) as [href|] eqn:Hh; [by eapply normalize_resolved|].
  apply href_parses in Hh. congruence.
Qed.

(** A materialized reference is absolute: its address is a serialized URL, and
    an address that was one already is kept. *)
Theorem materialized_is_absolute ref requestUrl config r :
  (forall s b t, URL_resolve s b = Some t -> URL_href t = Some t) ->
  materializeAttachmentRef ref requestUrl config = Ok r ->
  URL_href (att_uri r) = Some (att_uri r) /\
  (URL_href (attachmentRefSource ref) = Some (attachmentRefSource ref) -> att_uri r = attachmentRefSource ref).
Proof.
  intros Hres. unfold materializeAttachmentRef. set (n := normalizeAttachmentRef ref). unfold buildAttachmentAbsoluteUrl. cbn [attachmentRefSource].
  destruct (URL_href (att_uri n)) as [u|] eqn:Hn; cbn [mbind res_bind].
  - intros [= <-]. cbn [att_uri set_uri]. split; [by eapply href_idem|]. intros Ha.
    assert (Hun : att_uri n = attachmentRefSource ref); [|rewrite Hun, Ha in Hn; congruence].
    unfold n, normalizeAttachmentRef, resolveStoredAttachment. rewrite Ha.
    destruct (URL_parse (attachmentRefSource ref)) as [url|] eqn:Hu; [by destruct ref|].
    apply href_parses in Hu. congruence.
  - destruct (attachmentPublicBaseUrl requestUrl config) as [base|]; cbn [mbind res_bind]; [|done].
    destruct (URL_resolve (att_uri n) (base +:+ "/")) as [t|] eqn:Ht; cbn [mbind res_bind]; [|done].
    intros [= <-]. cbn [att_uri set_uri]. split; [by eapply Hres|]. intros Ha. exfalso.
    assert (Hun : att_uri n = attachmentRefSource ref); [|rewrite Hun in Hn; congruence].
    unfold n, normalizeAttachmentRef, resolveStoredAttachment. rewrite Ha.
    destruct (URL_parse (attachmentRefSource ref)) as [url|] eqn:Hu; [by destruct ref|].
    apply href_parses in Hu. congruence.
Qed.
End access.

(** ** Witnesses: a URL parser for [https://] URLs *)
Definition simple_parse (s : string) : option UrlParts :=
  if startsWith "https://" s then
    Some (mkUrlParts "https:" "" "" "host" (slice 8 s) "" "")
  else None.
Definition simple_url : UrlApi := simple_parse.
Definition simple_text : UrlText :=
  {| URL_href := fun s => if startsWith "https://" s then Some s else None;
     URL_resolve := fun s b => if startsWith "https://" (b +:+ s) then Some (b +:+ s) else None |}.

Lemma simple_url_laws : UrlLaws (U := simple_url) (T := simple_text).
Proof.
  constructor; cbn; unfold URL_parse, simple_url, simple_parse.
  - intros s. by destruct (startsWith "https://" s).
  - intros s t. destruct (startsWith "https://" s) eqn:H; [|done]. intros [= <-]. by rewrite H.
  - intros s t. destruct (startsWith "https://" s) eqn:H; [|done]. intros [= <-]. by rewrite H.
Qed.

Lemma normalize_idempotent_witness :
  let n := normalizeAttachmentRef (U := simple_url) (T := simple_text) (inr "https://files.example/a/photo.PNG") in
  att_id n = "photo.PNG" /\ att_mime_type n = "image/png" /\
  normalizeAttachmentRef (U := simple_url) (T := simple_text) (inl n) = n.
Proof.
  cbv zeta. split; [vm_compute; reflexivity|]. split; [vm_compute; reflexivity|].
  apply (normalize_idempotent (U := simple_url) (T := simple_text) (Laws := simple_url_laws)).
Defined.

Lemma materialized_is_absolute_witness :
  exists r, materializeAttachmentRef (U := simple_url) (T := simple_text) (inr "a.png") None
    (mkAttachmentConfig (Some "https://base.example/") false []) = Ok r /\
  URL_href (UrlText := simple_text) (att_uri r) = Some (att_uri r).
Proof.
  destruct (materializeAttachmentRef (U := simple_url) (T := simple_text) (inr "a.png") None
    (mkAttachmentConfig (Some "https://base.example/") false [])) as [r|] eqn:E; [|vm_compute in E; discriminate].
  exists r. split; [done|].
  apply (materialized_is_absolute (U := simple_url) (T := simple_text) (Laws := simple_url_laws) (inr "a.png") None
    (mkAttachmentConfig (Some "https://base.example/") false []) r); [|exact E].
  intros s b t. cbn. destruct (startsWith "https://" (b +:+ s)) eqn:H; [|discriminate]. intros Ht. injection Ht as <-. by rewrite H.
Defined.
