(* ===== verification/Upload.v ===== *)
(** * Uploading evidence

    [packages/sdk/src/attachments/upload.ts] and [upload-helpers.ts], with
    [proofs/content-credentials.ts]: integrity is examined on the photo, the
    photo is encrypted and uploaded, and what was learnt is stored under the new
    attachment. *)

From S2P Require Import Prelude JsNum JsMap JsString JsFloat JsValue SchemaUri EventLoop QueryTypes PreimageStore Sidecar Nostr JsonCodec.
From S2P Require Import UrlValidation Exif Geo ExifCheck C2pa Proofmode IntegrityStore Blossom PhotoIntegrity Attachments.

Definition detectZip (rawBuffer : bytes) (filename : string) : bool :=
  endsWith ".zip" filename || ((byte_at rawBuffer 0 === Some 0x50%Z) && (byte_at rawBuffer 1 === Some 0x4b%Z)).

Definition extractProofModeIntegrity (d : ProofModeData) : ProofModeIntegrity :=
  mkPmIntegrity (pd_proof d) (pd_hashValid d) (pd_pgpValid d) (pd_hasOts d) (pd_hasDeviceCheck d) (pd_checks d) (pd_failures d).

(** [logIntegrity(queryId, exif, provenance, proofmode)]: the lines it logs, from
    the checks and failures of each examination. *)
Definition logIntegrity (queryId : string) (exifResult provenanceResult : list string * list string) (proofmode : option ProofModeIntegrity)
    : list string :=
  let checks := exifResult.1 ++ provenanceResult.1 ++ match proofmode with Some p => pi_checks p | None => [] end in
  let failures := exifResult.2 ++ provenanceResult.2 ++ match proofmode with Some p => pi_failures p | None => [] end in
  (if bool_decide (checks = []) then [] else [queryId +:+ ": " +:+ js_join "; " checks]) ++
  (if bool_decide (failures = []) then [] else [queryId +:+ " warnings: " +:+ js_join "; " failures]).

(** [s.replace(sub, "")]: the first occurrence. *)
Fixpoint remove_first (sub s : string) : string :=
  if startsWith sub s then slice (String.length sub) s
  else match s with String.String c s' => String.String c (remove_first sub s') | String.EmptyString => "" end.

Record UploadResult := mkUploadResult { ul_attachment : AttachmentRef; ul_encryption : BlossomKeyMaterial }.

Section upload.
Context `{M : MathApi} `{D : DateApi} `{U : UrlApi} `{N : Noble} `{L : NostrLib} `{J : JSON} `{W : WebCrypto} `{X : HexDecoder} {E : Type}.
Variables (c2io : C2paIo (E := E)) (fio : FetchIo (E := E)) (pmio : ProofModeIo (E := E)).
Variables (config : AttachmentRuntimeConfig) (serverSidecarExecutor : SidecarExecutor).
Notation State := (PhotoState (E := E)).

(** The photo, its name, and the ProofMode record of an archive. *)
Definition extractPhotoData (rawBuffer : bytes) (filename : string) : call State (bytes * string * option ProofModeIntegrity) :=
  if negb (detectZip rawBuffer filename) then ret (rawBuffer, filename, None)
  else
    await (in_world (parseProofModeZip pmio rawBuffer)) (fun pmData =>
      match pmData with
      | None => fail (mkExn "Error" "Invalid zip: no photo found in archive")
      | Some d => ret (pd_photo d, pd_photoFilename d, Some (extractProofModeIntegrity d))
      end).

Definition buildAttachmentRef (att : AttachmentRef) (b : BlossomUploadResult) : AttachmentRef :=
  mkAttachmentRef (att_id att) (att_uri att) (att_mime_type att) storage_blossom (att_filename att) (att_size_bytes att)
    (Some (bu_hash b)) (Some (map (remove_first ("/" +:+ bu_hash b)) (bu_urls b))).

Definition storeContentCredentialsIntegrity (attachmentId requestId : string) (capturedAt : number) (exif : ExifValidationResult)
    (provenance : C2paValidationResult) (proofmode : option ProofModeIntegrity) (s : State) : State :=
  mkPhoto (storeIntegrity (mkIntegrity attachmentId requestId capturedAt exif provenance proofmode) (ph_integrity s)) (ph_world s).

Definition world_now (s : State) : number := fi_now fio (ph_world s).

(** The last step: the reference, the integrity record, the result. *)
Definition record_upload (queryId : string) (exifResult : ExifValidationResult) (provenanceResult : C2paValidationResult)
    (proofmode : option ProofModeIntegrity) (result : option (AttachmentRef * BlossomUploadResult)) : call State UploadResult :=
  match result with
  | None => fail (mkExn "Error" ("Blossom upload failed for query " +:+ queryId))
  | Some (att, b) => fun s =>
      let attachment := buildAttachmentRef att b in
      (storeContentCredentialsIntegrity (att_id attachment) queryId (world_now s) exifResult provenanceResult proofmode s,
       Settled (Ok (mkUploadResult attachment (mkBlossomKeyMaterial (bu_encryptKey b) (bu_encryptIv b)))))
  end.

(** From the photo on. *)
Definition upload_photo (queryId : string) (expectedGps : option Gps) (photoBuffer : bytes) (photoFilename : string)
    (proofmode : option ProofModeIntegrity) : call State UploadResult := fun s0 =>
  match validateExif (world_now s0) photoBuffer (mkExifOptions None expectedGps None None) with
  | Throw x => fail x s0
  | Ok exifResult =>
      await (in_world (validateC2pa c2io photoBuffer photoFilename None serverSidecarExecutor)) (fun provenanceResult =>
      await (in_world (providerUpload fio (fresh photoBuffer) photoFilename (inferMimeTypeFromFilename photoFilename) None config))
        (record_upload queryId exifResult provenanceResult proofmode)) s0
  end.

Definition uploadAttachment (queryId : string) (content : res bytes) (filename : string) (expectedGps : option Gps)
    : call State UploadResult :=
  if negb (isBlossomEnabled config) then
    fail (mkExn "Error" "Blossom is not configured. Set BLOSSOM_SERVERS to enable attachment uploads.")
  else
    await (fun s => (s, Settled content)) (fun rawBuffer =>
    await (extractPhotoData rawBuffer filename) (fun '(photoBuffer, photoFilename, proofmode) =>
      upload_photo queryId expectedGps photoBuffer photoFilename proofmode)).

(** ** What a successful upload leaves behind *)
Lemma run_zoom {S F A} (get : S -> F) (put : F -> S -> S) (c : call F A) (s : S) r :
  (forall x t, get (put x t) = x) -> (forall x y t, put x (put y t) = put x t) ->
  (run_call (zoom get put c) s).2 = r -> (run_call c (get s)).2 = r.
Proof.
  intros Hgp Hpp. unfold run_call, zoom. destruct (c (get s)) as [e t]. intros <-. revert s e.
  induction t as [x|k IH] using task_induction; intros s e; cbn; [done|]. rewrite Hgp. specialize (IH e).
  destruct (k e) as [e' t'] eqn:Ek. cbn in IH. rewrite Hpp. apply IH.
Qed.

Lemma providerUpload_outcome R data filename mime e att b :
  outcome R (providerUpload fio data filename mime None config) e (Ok (Some (att, b))) ->
  att_id att = bu_hash b /\ exists sk e', outcome R (uploadToBlossom fio data sk (chosen_servers None config) config) e' (Ok (Some b)).
Proof.
  unfold providerUpload. destruct (chosen_servers None config) as [urls|] eqn:Hc; [|intros H; by apply outcome_ret in H].
  unfold outcome at 1. destruct (fi_secretKey fio e) as [e1 sk]. intros H.
  apply outcome_await in H as (r & e2 & H1 & _ & H). destruct r as [r|]; apply outcome_ret in H; [|discriminate].
  injection H as -> ->. split; [done|]. by exists sk, e1.
Qed.

Lemma upload_ciphertext R data sk servers e b :
  outcome R (uploadToBlossom fio data sk servers config) e (Ok (Some b)) ->
  exists key iv encrypted, aes_gcm_encrypt key iv (u_buffer data) = Ok encrypted /\
    bu_hash b = bytesToHex (sha256 encrypted) /\ bu_encryptKey b = bytesToHex key /\ bu_encryptIv b = bytesToHex iv.
Proof.
  unfold uploadToBlossom. destruct (chosen_servers servers config) as [urls|]; [|intros H; by apply outcome_ret in H].
  intros H. apply outcome_await in H as (bl & e1 & Hb & _ & H). apply encryptBlob_outcome in Hb.
  apply outcome_await in H as (l & e2 & _ & _ & H). destruct l; apply outcome_ret in H; [discriminate|]. injection H as ->.
  by exists (eb_key bl), (eb_iv bl), (eb_encrypted bl).
Qed.

(** The record and the result describe one photo. *)
Definition recorded (queryId : string) (expectedGps : option Gps) (s' : State) (r : UploadResult) : Prop :=
  exists photo rec key iv encrypted,
    getIntegrity (att_id (ul_attachment r)) (ph_integrity s') = Some rec /\
    im_requestId rec = queryId /\ im_attachmentId rec = att_id (ul_attachment r) /\
    aes_gcm_encrypt key iv photo = Ok encrypted /\
    att_id (ul_attachment r) = bytesToHex (sha256 encrypted) /\
    ul_encryption r = mkBlossomKeyMaterial (bytesToHex key) (bytesToHex iv) /\
    (exists now, validateExif now photo (mkExifOptions None expectedGps None None) = Ok (im_exif rec)) /\
    (exists name e, (run_call (validateC2pa c2io photo name None serverSidecarExecutor) e).2 = Ok (im_c2pa rec)).

Lemma upload_photo_recorded queryId expectedGps photo name pm s s' r :
  run_call (upload_photo queryId expectedGps photo name pm) s = (s', Ok r) -> recorded queryId expectedGps s' r.
Proof.
  unfold upload_photo. unfold run_call at 1.
  destruct (validateExif (world_now s) photo (mkExifOptions None expectedGps None None)) as [exif|] eqn:Hexif; [|done].
  fold (run_call (await (in_world (validateC2pa c2io photo name None serverSidecarExecutor)) (fun provenanceResult =>
    await (in_world (providerUpload fio (fresh photo) name (inferMimeTypeFromFilename name) None config))
      (record_upload queryId exif provenanceResult pm))) s).
  rewrite run_call_await.
  destruct (run_call (in_world (validateC2pa c2io photo name None serverSidecarExecutor)) s) as [s2 [c2pa|]] eqn:Hc2; [|done].
  rewrite run_call_await.
  destruct (run_call (in_world (providerUpload fio (fresh photo) name (inferMimeTypeFromFilename name) None config)) s2) as [s3 [[[att b]|]|]] eqn:Hup;
    [|done|done].
  unfold run_call at 1, record_upload. cbn [run_alone]. intros [= <- <-].
  assert (Hc2' : (run_call (validateC2pa c2io photo name None serverSidecarExecutor) (ph_world s)).2 = Ok c2pa).
  { eapply (run_zoom ph_world set_world); [done|done|]. unfold in_world in Hc2. by rewrite Hc2. }
  assert (Hup' : (run_call (providerUpload fio (fresh photo) name (inferMimeTypeFromFilename name) None config) (ph_world s2)).2 = Ok (Some (att, b))).
  { eapply (run_zoom ph_world set_world); [done|done|]. unfold in_world in Hup. by rewrite Hup. }
  apply run_call_outcome, providerUpload_outcome in Hup' as (Hid & sk & e' & Hb).
  apply upload_ciphertext in Hb as (key & iv & enc & Henc & Hh & Hk & Hi).
  exists photo, (mkIntegrity (att_id att) queryId (world_now s3) exif c2pa pm), key, iv, enc.
  cbn [ul_attachment ul_encryption att_id buildAttachmentRef ph_integrity storeContentCredentialsIntegrity im_requestId im_attachmentId im_exif im_c2pa].
  unfold getIntegrity, storeIntegrity. cbn [im_attachmentId]. rewrite jm_get_set_eq.
  split_and!; try done; [by rewrite Hid|by rewrite Hk, Hi|by exists (world_now s)|by exists name, (ph_world s)].
Qed.

(** An upload that succeeds stores what it learnt about the very bytes it
    uploaded: the attachment is addressed by the digest of the encrypted photo,
    the returned key material decrypts it, and the integrity record under that
    attachment holds the EXIF and Content Credentials results of the same photo
    for the same request. *)
Theorem upload_records_same_photo queryId content filename expectedGps s s' r :
  run_call (uploadAttachment queryId content filename expectedGps) s = (s', Ok r) -> recorded queryId expectedGps s' r.
Proof.
  unfold uploadAttachment. destruct (negb (isBlossomEnabled config)); [done|].
  rewrite run_call_await. destruct content as [raw|]; [|done]. unfold run_call at 1. cbn [run_alone].
  rewrite run_call_await. destruct (run_call (extractPhotoData raw filename) s) as [s1 [[[photo name] pm]|]]; [|done].
  apply upload_photo_recorded.
Qed.
End upload.

(** ** Witness *)
Definition upload_config : AttachmentRuntimeConfig := mkAttachmentConfig None false ["https://a.example"].
Definition upload_fio : FetchIo (E := nat) := mkFetchIo
  (fun _ n => (n, Throw (mkExn "TypeError" "fetch failed"))) (fun _ _ _ n => n) (fun _ n => (n, (0, Ok true)))
  (fun k n => (n, repeat 5%Z k)) (fun n => (n, [3]%Z)) (fun _ => num 1000) (fun _ n => n).
Definition upload_pmio : ProofModeIo (E := nat) := mkProofIo (fun n => (n, "s")) (fun _ n => (n, Ok tt)) (fun _ _ n => (n, Ok tt))
  (fun _ n => (n, Ok 0%Z)) (fun _ n => (n, Ok [])) (fun _ n => (n, Ok tt)).
Definition sample_upload := run_call (uploadAttachment (M := series_math) (D := fun _ => NaN) (N := toy_noble) (L := toy_nostr) (J := codec)
  (W := toy_crypto) c2pa_io upload_fio upload_pmio upload_config c2pa_executor "q1" (Ok [1; 2; 3]%Z) "photo.jpg" None) (mkPhoto [] 0).

Lemma upload_records_same_photo_witness :
  exists r, sample_upload.2 = Ok r /\
    recorded (M := series_math) (D := fun _ => NaN) (N := toy_noble) (J := codec) (W := toy_crypto) c2pa_io c2pa_executor "q1" None
      sample_upload.1 r.
Proof.
  destruct sample_upload as [s' [r|]] eqn:Hrun; [|vm_compute in Hrun; discriminate]. exists r. split; [done|].
  apply (upload_records_same_photo (M := series_math) (D := fun _ => NaN) (N := toy_noble) (L := toy_nostr) (J := codec)
    (W := toy_crypto) c2pa_io upload_fio upload_pmio upload_config c2pa_executor "q1" (Ok [1; 2; 3]%Z) "photo.jpg" None (mkPhoto [] 0)).
  exact Hrun.
Defined.
