(* ===== verification/Storage.v ===== *)
(** * Storage: files, persistence and actor state

    [packages/sdk/src/internal/runtime/fs.ts] and
    [packages/sdk/src/adapters/storage.ts]: the file functions, text and binary, with their
    error mapping, the persistence store over them, and the two actor state stores (in
    memory and IndexedDB).

    A disk maps paths to inodes and inodes to contents, because the claim of
    [replaceTextFileAtomically] depends on it: a write truncates the inode the
    path names, then fills it, while a rename rebinds the name.  Each step may
    fail: [dk_faults] is consumed one entry per step, [Some (e, s)] makes the step
    fail with [e], after [s] was written if it was a write. *)

From S2P Require Import Prelude JsNum JsMap JsString JsValue EventLoop.

(** ** The disk *)
Record Disk := mkDisk {
  dk_dir : gmap string nat;
  dk_data : gmap nat string;
  dk_next : nat;
  dk_faults : list (option (exn * string));
}.

Definition dk_content (d : Disk) (path : string) : option string :=
  i ← dk_dir d !! path; dk_data d !! i.

Definition dk_fault (d : Disk) : option (exn * string) := default None (head (dk_faults d)).
Definition dk_tick (d : Disk) : Disk := mkDisk (dk_dir d) (dk_data d) (dk_next d) (tail (dk_faults d)).

Definition denoNotFound (path : string) : exn :=
  mkExn "NotFound" ("No such file or directory (os error 2): " +:+ path).

(** [open] for writing: the named inode, truncated, or a fresh one. *)
Definition dk_open (path : string) (d : Disk) : nat * Disk :=
  match dk_dir d !! path with
  | Some i => (i, mkDisk (dk_dir d) (<[i := ""]> (dk_data d)) (dk_next d) (dk_faults d))
  | None =>
      (dk_next d, mkDisk (<[path := dk_next d]> (dk_dir d)) (<[dk_next d := ""]> (dk_data d))
                    (S (dk_next d)) (dk_faults d))
  end.

Definition dk_put (i : nat) (text : string) (d : Disk) : Disk :=
  mkDisk (dk_dir d) (<[i := text]> (dk_data d)) (dk_next d) (dk_faults d).

Definition dk_move (source target : string) (i : nat) (d : Disk) : Disk :=
  mkDisk (<[target := i]> (delete source (dk_dir d))) (dk_data d) (dk_next d) (dk_faults d).

(** [Deno.writeTextFile]: the file is opened and truncated, and filled later. *)
Definition deno_writeTextFile (path data : string) : call Disk unit := fun d =>
  match dk_fault d with
  | Some (e, _) => (dk_tick d, Settled (Throw e))
  | None =>
      let '(i, d1) := dk_open path (dk_tick d) in
      (d1, Await (fun d2 =>
         match dk_fault d2 with
         | Some (e, written) => (dk_put i written (dk_tick d2), Settled (Throw e))
         | None => (dk_put i data (dk_tick d2), Settled (Ok tt))
         end))
  end.

(** [Deno.rename] *)
Definition deno_rename (source target : string) : call Disk unit := fun d =>
  match dk_fault d with
  | Some (e, _) => (dk_tick d, Settled (Throw e))
  | None =>
      match dk_dir d !! source with
      | None => (dk_tick d, Settled (Throw (denoNotFound source)))
      | Some i => (dk_move source target i (dk_tick d), Settled (Ok tt))
      end
  end.

(** [Deno.readTextFile] and [Deno.stat] *)
Definition deno_readTextFile (path : string) : call Disk string := fun d =>
  match dk_fault d with
  | Some (e, _) => (dk_tick d, Settled (Throw e))
  | None =>
      (dk_tick d, Settled match dk_content d path with Some t => Ok t | None => Throw (denoNotFound path) end)
  end.

Definition deno_stat (path : string) : call Disk unit := fun d =>
  match dk_fault d with
  | Some (e, _) => (dk_tick d, Settled (Throw e))
  | None =>
      (dk_tick d, Settled match dk_content d path with Some _ => Ok tt | None => Throw (denoNotFound path) end)
  end.

(** ** [fs.ts] *)
Definition RuntimeFileNotFoundError (path : string) : exn :=
  mkExn "RuntimeFileNotFoundError" ("File not found: " +:+ path).

Definition readTextFile (path : string) : call Disk string :=
  try_catch (await (deno_readTextFile path) ret) (fun error =>
    if exn_class error === "NotFound" then fail (RuntimeFileNotFoundError path) else fail error).

Definition writeTextFile (path data : string) : call Disk unit :=
  await (deno_writeTextFile path data) ret.

Definition replaceTextFileAtomically (path data : string) : call Disk unit :=
  let tmpPath := path +:+ ".tmp" in
  await (deno_writeTextFile tmpPath data) (fun _ =>
  await (deno_rename tmpPath path) ret).

Definition fileExists (path : string) : call Disk bool :=
  try_catch (await (deno_stat path) (fun _ => ret true)) (fun _ => ret false).

(** ** [fs.ts]: binary files

    A buffer with the window a view has on it. *)
Record BufferView := mkBufferView { bv_buffer : list Z; bv_byteOffset : nat; bv_byteLength : nat }.
Definition view_bytes (v : BufferView) : list Z := take (bv_byteLength v) (drop (bv_byteOffset v) (bv_buffer v)).

(** What [writeFile] accepts. *)
Inductive FileData :=
| TextData (text : string)
| Uint8Data (v : BufferView)      (* [data instanceof Uint8Array] *)
| ViewData (v : BufferView)       (* another [ArrayBufferView] *)
| BufferData (buffer : list Z).   (* an [ArrayBuffer] *)

(** [new Uint8Array(buffer)] *)
Definition whole_buffer (buffer : list Z) : BufferView := mkBufferView buffer 0 (length buffer).

(** [toUint8Array(data)], of data that is not text. *)
Definition toUint8Array (data : FileData) : option BufferView :=
  match data with
  | TextData _ => None
  | Uint8Data v => Some v
  | ViewData v => Some (mkBufferView (bv_buffer v) (bv_byteOffset v) (bv_byteLength v))
  | BufferData buffer => Some (whole_buffer buffer)
  end.

Definition byte_char (z : Z) : Ascii.ascii := Ascii.ascii_of_nat (Z.to_nat z).

(** [Deno.writeFile] and [Deno.readFile]: as their text variants, on bytes. *)
Definition deno_writeFile (path : string) (bytes : list Z) : call Disk unit :=
  deno_writeTextFile path (of_chars (byte_char <$> bytes)).
Definition deno_readFile (path : string) : call Disk (list Z) := fun d =>
  match dk_fault d with
  | Some (e, _) => (dk_tick d, Settled (Throw e))
  | None =>
      (dk_tick d, Settled match dk_content d path with Some t => Ok (utf8 t) | None => Throw (denoNotFound path) end)
  end.

Definition readFile (path : string) : call Disk (list Z) := await (deno_readFile path) ret.

Definition writeFile (path : string) (data : FileData) : call Disk unit :=
  match data, toUint8Array data with
  | TextData text, _ => await (deno_writeTextFile path text) ret
  | _, Some v => await (deno_writeFile path (view_bytes v)) ret
  | _, None => ret tt
  end.

(** [copy.set(data)] into a zeroed array of the same length, whose buffer is
    returned. *)
Definition typed_set (source target : list Z) : list Z := source ++ drop (length source) target.
Definition readFileAsArrayBuffer (path : string) : call Disk (list Z) :=
  await (deno_readFile path) (fun data => ret (typed_set data (replicate (length data) 0%Z))).

(** [stat.mtime?.getTime() ?? 0] *)
Definition fileLastModified (mtime : string -> Disk -> option number) (path : string) : call Disk number :=
  await (deno_stat path) (fun _ d => (d, Settled (Ok (default (num 0) (mtime path d))))).

(** ** [storage.ts]: the file persistence store *)
Definition PersistenceNotFoundError (key : string) : exn :=
  mkExn "PersistenceNotFoundError" ("Persistence entry not found: " +:+ key).

Definition isPersistenceNotFoundError (error : exn) : bool := exn_class error === "PersistenceNotFoundError".

Definition fss_readText (key : string) : call Disk string :=
  try_catch (await (readTextFile key) ret) (fun error =>
    if exn_class error === "RuntimeFileNotFoundError" then fail (PersistenceNotFoundError key) else fail error).

Definition fss_writeText (key value : string) : call Disk unit := await (writeTextFile key value) ret.
Definition fss_replaceTextAtomically (key value : string) : call Disk unit :=
  await (replaceTextFileAtomically key value) ret.

(** ** [storage.ts]: the in-memory actor state store *)
Definition mss_init (initialEntries : list (string * string)) : jsmap string string :=
  foldl (fun m '(k, v) => jm_set k v m) [] initialEntries.
Definition mss_get (values : jsmap string string) (key : string) : option string := jm_get key values.
Definition mss_set (key value : string) (values : jsmap string string) : jsmap string string := jm_set key value values.
Definition mss_delete (key : string) (values : jsmap string string) : jsmap string string := jm_delete key values.

(** ** [storage.ts]: the IndexedDB actor state store

    The browser's databases by name, each a map from object store names to
    object stores; a database exists once it was opened.  A request reports by
    events; the promise settles at the first event that has a handler. *)
Notation IdbStore := (gmap string jsval).
Notation IdbDatabase := (gmap string IdbStore).
Notation Idb := (gmap string IdbDatabase).

Inductive idb_event (T : Type) : Type :=
| OnSuccess (result : T)
| OnRequestError
| OnTransactionError.
Arguments OnSuccess {T} result.
Arguments OnRequestError {T}.
Arguments OnTransactionError {T}.

Definition IndexedDbStateStoreError (message : string) : exn := mkExn "IndexedDbStateStoreError" message.

Inductive IDBTransactionMode := readonly | readwrite.
Definition mode_string (m : IDBTransactionMode) : string :=
  match m with readonly => "readonly" | readwrite => "readwrite" end.

(** What the handlers of [runRequest] do with each event. *)
Definition on_event {T} (mode : IDBTransactionMode) (storeName : string) (ev : idb_event T) : res T :=
  match ev with
  | OnSuccess r => Ok r
  | OnRequestError =>
      Throw (IndexedDbStateStoreError ("IndexedDB " +:+ mode_string mode +:+ " request failed for store " +:+ storeName))
  | OnTransactionError =>
      Throw (IndexedDbStateStoreError ("IndexedDB transaction failed for store " +:+ storeName))
  end.

(** The promise of the request: pending until the first event. *)
Definition request_promise {T} (mode : IDBTransactionMode) (storeName : string) (events : list (idb_event T)) : option (res T) :=
  on_event mode storeName <$> head events.

(** [factory.open(name, 1)] and the handlers of [openDatabase]: the upgrade
    handler runs only when the database did not exist, which is when version 1 is
    an upgrade.  [blocked]: the open request failed. *)
Definition upgrade (storeName : string) (db : IdbDatabase) : IdbDatabase :=
  match db !! storeName with Some _ => db | None => <[storeName := ∅]> db end.

Definition openDatabase (blocked : bool) (databaseName storeName : string) (idb : Idb) : Idb * res unit :=
  if blocked then
    (idb, Throw (IndexedDbStateStoreError ("Failed to open IndexedDB database " +:+ databaseName)))
  else
    match idb !! databaseName with
    | Some _ => (idb, Ok tt)
    | None => (<[databaseName := upgrade storeName ∅]> idb, Ok tt)
    end.

(** The native open request, whose handlers are properties; a handler acts on the
    state of the page. *)
Inductive open_event := OpenUpgradeNeeded | OpenSuccess | OpenError.
Record IDBOpenDBRequest (St : Type) := mkOpenRequest {
  or_onsuccess : option (St -> St);
  or_onerror : option (St -> St);
  or_onupgradeneeded : option (St -> St);
}.
Arguments mkOpenRequest {St}. Arguments or_onsuccess {St}. Arguments or_onerror {St}. Arguments or_onupgradeneeded {St}.

Definition fresh_request {St} : IDBOpenDBRequest St := mkOpenRequest None None None.
Definition fire {St} (r : IDBOpenDBRequest St) (ev : open_event) : St -> St :=
  default id (match ev with OpenUpgradeNeeded => or_onupgradeneeded r | OpenSuccess => or_onsuccess r | OpenError => or_onerror r end).

(** The setters and getters of [BrowserOpenRequest]: a handler is forwarded to the
    wrapped request, and cannot be read back. *)
Definition forward {St} (handler : option (St -> St)) : option (St -> St) := (fun h st => h st) <$> handler.
Definition bor_set_onsuccess {St} (h : option (St -> St)) (r : IDBOpenDBRequest St) :=
  mkOpenRequest (forward h) (or_onerror r) (or_onupgradeneeded r).
Definition bor_set_onerror {St} (h : option (St -> St)) (r : IDBOpenDBRequest St) :=
  mkOpenRequest (or_onsuccess r) (forward h) (or_onupgradeneeded r).
Definition bor_set_onupgradeneeded {St} (h : option (St -> St)) (r : IDBOpenDBRequest St) :=
  mkOpenRequest (or_onsuccess r) (or_onerror r) (forward h).
Definition bor_get_handler {St} (ev : open_event) (r : IDBOpenDBRequest St) : option (St -> St) := None.

(** The databases and the promise of [openDatabase]. *)
Notation OpenState := (Idb * option (res unit))%type.
Definition settle_open (r : res unit) (st : OpenState) : OpenState :=
  (st.1, match st.2 with Some r0 => Some r0 | None => Some r end).

(** The handlers [openDatabase] installs on the request the factory returned. *)
Definition install_open (databaseName storeName : string) (r : IDBOpenDBRequest OpenState) : IDBOpenDBRequest OpenState :=
  bor_set_onerror (Some (settle_open (Throw (IndexedDbStateStoreError ("Failed to open IndexedDB database " +:+ databaseName)))))
    (bor_set_onsuccess (Some (settle_open (Ok tt)))
      (bor_set_onupgradeneeded (Some (fun st => (alter (upgrade storeName) databaseName st.1, st.2))) r)).

(** What the browser does after [factory.open(name, 1)]: it fails, it opens the
    database there is, or it creates one at version 0 and has it upgraded. *)
Definition browser_open (blocked : bool) (databaseName : string) (idb : Idb) : Idb * list open_event :=
  if blocked then (idb, [OpenError])
  else match idb !! databaseName with
       | Some _ => (idb, [OpenSuccess])
       | None => (<[databaseName := ∅]> idb, [OpenUpgradeNeeded; OpenSuccess])
       end.

(** [openDatabase(browserIndexedDbFactory(indexedDB), ...)], event by event. *)
Definition browser_openDatabase (blocked : bool) (databaseName storeName : string) (idb : Idb) : OpenState :=
  let '(idb1, events) := browser_open blocked databaseName idb in
  foldl (fun st ev => fire (install_open databaseName storeName fresh_request) ev st) (idb1, None) events.

(** Through the forwarding wrapper, the events of the browser open the database as
    [openDatabase] says, and its promise always settles. *)
Theorem browser_open_refines blocked databaseName storeName idb :
  browser_openDatabase blocked databaseName storeName idb =
  let '(idb', r) := openDatabase blocked databaseName storeName idb in (idb', Some r).
Proof.
  unfold browser_openDatabase, browser_open, openDatabase. destruct blocked; [done|].
  destruct (idb !! databaseName) as [db|] eqn:E; [done|]. cbn. unfold settle_open. cbn. f_equal.
  apply map_eq. intros k. destruct (decide (k = databaseName)) as [->|Hne].
  - by rewrite lookup_alter_eq, !lookup_insert_eq.
  - by rewrite lookup_alter_ne, !lookup_insert_ne by done.
Qed.

(** [database.transaction(storeName, mode)] throws on an unknown store, which
    rejects the promise under construction.  [aborted] are the error events the
    request reports instead of success, with no effect on the store. *)
Definition runRequest {T} (database : res unit) (databaseName storeName : string) (mode : IDBTransactionMode)
    (operation : IdbStore -> IdbStore * T) (aborted : list (idb_event T)) (idb : Idb) : Idb * option (res T) :=
  match database with
  | Throw e => (idb, Some (Throw e))
  | Ok _ =>
      match idb !! databaseName ≫= (fun db => db !! storeName) with
      | None => (idb, Some (Throw (mkExn "NotFoundError" "One of the specified object stores was not found.")))
      | Some store =>
          match aborted with
          | [] =>
              let '(store', r) := operation store in
              (<[databaseName := <[storeName := store']> (default ∅ (idb !! databaseName))]> idb,
               request_promise mode storeName [OnSuccess r])
          | _ => (idb, request_promise mode storeName aborted)
          end
      end
  end.

Record IdbStateStore := mkIdbStateStore { iss_databaseName : string; iss_storeName : string; iss_database : res unit }.

(** [createIndexedDbStateStore]: [available] is whether a factory was given or
    the global one exists. *)
Definition createIndexedDbStateStore (available blocked : bool) (databaseName storeName : option string) (idb : Idb)
    : Idb * res IdbStateStore :=
  let databaseName := default "anchr-sdk-state" databaseName in
  let storeName := default "actor-state" storeName in
  if negb available then (idb, Throw (IndexedDbStateStoreError "IndexedDB is not available"))
  else
    let '(idb', database) := openDatabase blocked databaseName storeName idb in
    (idb', Ok (mkIdbStateStore databaseName storeName database)).

Definition iss_get (st : IdbStateStore) (key : string) (aborted : list (idb_event jsval)) (idb : Idb)
    : Idb * option (res (option string)) :=
  let '(idb', r) := runRequest (iss_database st) (iss_databaseName st) (iss_storeName st) readonly
    (fun s => (s, default VUndef (s !! key))) aborted idb in
  (idb', (fun r => value ← r; Ok (as_string value)) <$> r).

Definition iss_set (st : IdbStateStore) (key value : string) (aborted : list (idb_event jsval)) (idb : Idb)
    : Idb * option (res unit) :=
  let '(idb', r) := runRequest (iss_database st) (iss_databaseName st) (iss_storeName st) readwrite
    (fun s => (<[key := VStr value]> s, VStr key)) aborted idb in
  (idb', (fun r => _ ← r; Ok tt) <$> r).

Definition iss_delete (st : IdbStateStore) (key : string) (aborted : list (idb_event jsval)) (idb : Idb)
    : Idb * option (res unit) :=
  let '(idb', r) := runRequest (iss_database st) (iss_databaseName st) (iss_storeName st) readwrite
    (fun s => (delete key s, VUndef)) aborted idb in
  (idb', (fun r => _ ← r; Ok tt) <$> r).

(** ** Disks without hard links *)
Record disk_wf (d : Disk) : Prop := {
  dw_inj p q i : dk_dir d !! p = Some i -> dk_dir d !! q = Some i -> p = q;
  dw_next p i : dk_dir d !! p = Some i -> (i < dk_next d)%nat;
}.

Lemma disk_wf_tick d : disk_wf d -> disk_wf (dk_tick d).
Proof. intros [H1 H2]. by split. Qed.

Lemma disk_wf_put i t d : disk_wf d -> disk_wf (dk_put i t d).
Proof. intros [H1 H2]. by split. Qed.

Lemma disk_wf_open p d : disk_wf d -> disk_wf (dk_open p d).2.
Proof.
  intros [H1 H2]. unfold dk_open. destruct (dk_dir d !! p) as [i|] eqn:E; [by split|].
  assert (Hnew : forall q, dk_dir d !! q <> Some (dk_next d)) by (intros q Hq%H2; lia).
  split; simpl.
  - intros p1 p2 j Hp1 Hp2.
    apply lookup_insert_Some in Hp1, Hp2.
    destruct Hp1 as [[??]|[_ Hp1]], Hp2 as [[??]|[_ Hp2]]; simplify_eq; eauto; by edestruct Hnew.
  - intros q j [[<- <-]|[_ Hq%H2]]%lookup_insert_Some; lia.
Qed.

Lemma disk_wf_move p q i d : dk_dir d !! p = Some i -> disk_wf d -> disk_wf (dk_move p q i d).
Proof.
  intros Hp [H1 H2].
  assert (Hgone : forall r, delete p (dk_dir d) !! r <> Some i).
  { intros r [Hne Hr]%lookup_delete_Some. by apply Hne, (H1 _ _ i). }
  split; simpl.
  - intros p1 p2 j Hp1 Hp2.
    apply lookup_insert_Some in Hp1, Hp2.
    destruct Hp1 as [[??]|[_ Hp1]], Hp2 as [[??]|[_ Hp2]]; simplify_eq; [done|by edestruct Hgone..|].
    apply lookup_delete_Some in Hp1 as [_ Hp1], Hp2 as [_ Hp2]. eauto.
  - intros q1 j [[<- <-]|[_ [_ Hq]%lookup_delete_Some]]%lookup_insert_Some; eauto.
Qed.

Lemma tmp_ne (path : string) : path +:+ ".tmp" <> path.
Proof.
  induction path as [|c path IH]; [done|]. intros H. apply IH. by injection H.
Qed.

(** ** Storage: properties

    [replaceTextFileAtomically] is atomic when it runs alone, whatever fails and
    wherever it stops; two of them overlapping are not.  An IndexedDB database
    holds the object store of whoever created it only. *)

(** ** Contents after each step of the disk *)
Lemma content_tick d p : dk_content (dk_tick d) p = dk_content d p.
Proof. done. Qed.

Lemma open_dir p d : dk_dir (dk_open p d).2 !! p = Some (dk_open p d).1.
Proof. unfold dk_open. destruct (dk_dir d !! p) eqn:E; simpl; [done|]. by rewrite lookup_insert_eq. Qed.

Lemma content_open p q d : disk_wf d -> p <> q -> dk_content (dk_open p d).2 q = dk_content d q.
Proof.
  intros [H1 H2] Hpq. unfold dk_open, dk_content. destruct (dk_dir d !! p) as [i|] eqn:E; simpl.
  - destruct (dk_dir d !! q) as [j|] eqn:Eq; simpl; [|done]. rewrite lookup_insert_ne; [done|].
    intros ->. by apply Hpq, (H1 _ _ j).
  - rewrite lookup_insert_ne by done. destruct (dk_dir d !! q) as [j|] eqn:Eq; simpl; [|done].
    apply H2 in Eq. rewrite lookup_insert_ne; [done|lia].
Qed.

Lemma content_put p q i t d :
  disk_wf d -> dk_dir d !! p = Some i -> p <> q -> dk_content (dk_put i t d) q = dk_content d q.
Proof.
  intros [H1 H2] Hp Hpq. unfold dk_content. simpl. destruct (dk_dir d !! q) as [j|] eqn:Eq; simpl; [|done].
  rewrite lookup_insert_ne; [done|]. intros ->. by apply Hpq, (H1 _ _ j).
Qed.

Lemma content_put_eq p i t d : dk_dir d !! p = Some i -> dk_content (dk_put i t d) p = Some t.
Proof. intros Hp. unfold dk_content. simpl. rewrite Hp. simpl. by rewrite lookup_insert_eq. Qed.

Lemma content_move p q i d : dk_dir d !! p = Some i -> dk_content (dk_move p q i d) q = dk_content d p.
Proof. intros Hp. unfold dk_content. simpl. by rewrite lookup_insert_eq, Hp. Qed.

Lemma content_move_ne p q r i d :
  r <> p -> r <> q -> dk_content (dk_move p q i d) r = dk_content d r.
Proof. intros H1 H2. unfold dk_content. simpl. by rewrite lookup_insert_ne, lookup_delete_ne. Qed.

(** ** The two steps of a replacement *)

(** A write alone: other files keep their contents throughout, and the file
    holds the data if the write succeeds. *)
Lemma write_alone p q text d :
  disk_wf d -> p <> q ->
  Forall (fun d' => disk_wf d' /\ dk_content d' q = dk_content d q) (visited_call (deno_writeTextFile p text) d) /\
  ((run_call (deno_writeTextFile p text) d).2 = Ok tt ->
   dk_content (run_call (deno_writeTextFile p text) d).1 p = Some text).
Proof.
  intros Hwf Hpq. unfold visited_call, run_call, deno_writeTextFile.
  destruct (dk_fault d) as [[e w]|]; [by split; [apply Forall_singleton; split; [apply disk_wf_tick|]|]|].
  apply disk_wf_tick in Hwf. pose proof (open_dir p (dk_tick d)) as Hdir.
  pose proof (disk_wf_open p _ Hwf) as Hwf1. pose proof (content_open p q _ Hwf Hpq) as Hc1.
  destruct (dk_open p (dk_tick d)) as [i d1]. cbn [fst snd] in *. cbn [visited run_alone].
  destruct (dk_fault d1) as [[e w]|]; cbn [visited run_alone fst snd].
  - split; [|done]. apply Forall_cons. split; [done|]. apply Forall_singleton. split; [by apply disk_wf_put, disk_wf_tick|].
    by rewrite (content_put p) by (try apply disk_wf_tick; done).
  - split; [|intros _; by apply content_put_eq]. apply Forall_cons. split; [done|]. apply Forall_singleton.
    split; [by apply disk_wf_put, disk_wf_tick|].
    by rewrite (content_put p) by (try apply disk_wf_tick; done).
Qed.

(** A rename alone is one step: the target takes the contents of the source, or
    nothing changes. *)
Lemma rename_alone p q d :
  disk_wf d ->
  visited_call (deno_rename p q) d = [(run_call (deno_rename p q) d).1] /\
  disk_wf (run_call (deno_rename p q) d).1 /\
  dk_content (run_call (deno_rename p q) d).1 q =
    (if is_ok (run_call (deno_rename p q) d).2 then dk_content d p else dk_content d q).
Proof.
  intros Hwf. unfold visited_call, run_call, deno_rename. apply disk_wf_tick in Hwf.
  destruct (dk_fault d) as [[e w]|]; [done|]. destruct (dk_dir d !! p) as [i|] eqn:E; [|done].
  cbn [fst snd visited run_alone is_ok]. split; [done|]. split; [by apply disk_wf_move|]. by rewrite content_move.
Qed.

(** ** Binary files *)
Lemma byte_code z : (0 <= z < 256)%Z -> Z.of_nat (code (byte_char z)) = z.
Proof. intros Hz. unfold code, byte_char. rewrite Ascii.nat_ascii_embedding by lia. lia. Qed.

Lemma utf8_bytes bytes : Forall (fun z => 0 <= z < 256)%Z bytes -> utf8 (of_chars (byte_char <$> bytes)) = bytes.
Proof.
  intros Hb. unfold utf8. rewrite chars_of_chars, <- list_fmap_compose. induction Hb as [|z l Hz _ IH]; [done|].
  cbn. rewrite IH. f_equal. by apply byte_code.
Qed.

Lemma typed_set_full source : typed_set source (replicate (length source) 0%Z) = source.
Proof. unfold typed_set. by rewrite drop_ge, app_nil_r by (by rewrite length_replicate). Qed.

(** Without a fault in the way, a file holds exactly the bytes of the window that was
    written - none of the buffer around it - and both readers return them. *)
Theorem view_roundtrip path data v d :
  disk_wf d -> dk_faults d = [] -> toUint8Array data = Some v -> Forall (fun z => 0 <= z < 256)%Z (view_bytes v) ->
  (run_call (writeFile path data) d).2 = Ok tt /\
  let d' := (run_call (writeFile path data) d).1 in
  (run_call (readFile path) d').2 = Ok (view_bytes v) /\ (run_call (readFileAsArrayBuffer path) d').2 = Ok (view_bytes v).
Proof.
  intros Hwf Hf Hv Hb. set (text := of_chars (byte_char <$> view_bytes v)).
  assert (Hw : run_call (writeFile path data) d = run_call (deno_writeTextFile path text) d).
  { assert (H : writeFile path data = await (deno_writeFile path (view_bytes v)) ret).
    { destruct data; cbn in Hv; [done| | |]; by injection Hv as <-. }
    rewrite H, run_call_await. change (deno_writeFile path (view_bytes v)) with (deno_writeTextFile path text).
    by destruct (run_call (deno_writeTextFile path text) d) as [d1 [[]|e]]. }
  rewrite Hw. destruct (write_alone path (path +:+ ".tmp") text d Hwf) as [_ Hc]; [intros H; by apply (tmp_ne path)|].
  assert (Hok : exists d', run_call (deno_writeTextFile path text) d = (d', Ok tt) /\ dk_faults d' = []).
  { destruct d as [dir data0 next faults]. cbn in Hf. subst faults. unfold run_call, deno_writeTextFile, dk_open. cbn.
    destruct (dir !! path); cbn; eexists; (split; [reflexivity|done]). }
  destruct Hok as (d' & Hr & Hf'). rewrite Hr in *. cbn [fst snd] in *. specialize (Hc eq_refl). split; [done|].
  assert (Hread : run_call (deno_readFile path) d' = (dk_tick d', Ok (view_bytes v))).
  { unfold run_call, deno_readFile, dk_fault. rewrite Hf', Hc. cbn [default head from_option id run_alone]. unfold text. by rewrite utf8_bytes. }
  unfold readFile, readFileAsArrayBuffer. rewrite !run_call_await, Hread. cbn. by rewrite typed_set_full.
Qed.

(** ** Atomic replacement *)
Lemma replace_alone path text d :
  disk_wf d ->
  Forall (fun d' => disk_wf d' /\ (dk_content d' path = dk_content d path \/ dk_content d' path = Some text))
    (visited_call (replaceTextFileAtomically path text) d) /\
  dk_content (run_call (replaceTextFileAtomically path text) d).1 path =
    (if is_ok (run_call (replaceTextFileAtomically path text) d).2 then Some text else dk_content d path).
Proof.
  intros Hwf. destruct (write_alone (path +:+ ".tmp") path text d Hwf (tmp_ne path)) as [Hw Hok].
  unfold replaceTextFileAtomically. split.
  - apply visited_await; [eapply Forall_impl; [exact Hw|]; cbn beta; naive_solver|]. intros [] d1 E.
    pose proof (visited_last _ _ _ Hw) as [Hwf1 Hc1]. rewrite E in Hok, Hwf1, Hc1. cbn [fst snd] in *.
    destruct (rename_alone (path +:+ ".tmp") path d1 Hwf1) as (Hv & Hwf2 & Hc2).
    assert (Hend : disk_wf (run_call (deno_rename (path +:+ ".tmp") path) d1).1 /\
      (dk_content (run_call (deno_rename (path +:+ ".tmp") path) d1).1 path = dk_content d path \/
       dk_content (run_call (deno_rename (path +:+ ".tmp") path) d1).1 path = Some text)).
    { split; [done|]. rewrite Hc2. destruct (is_ok _); [right; by apply Hok|by left]. }
    apply visited_await; [by rewrite Hv; constructor|]. intros [] d2 E2. rewrite E2 in Hend. by constructor.
  - rewrite run_call_await. pose proof (visited_last _ _ _ Hw) as [Hwf1 Hc1].
    destruct (run_call (deno_writeTextFile _ _) d) as [d1 [[]|e]]; cbn [fst snd] in *; [|done].
    rewrite run_call_await. destruct (rename_alone (path +:+ ".tmp") path d1 Hwf1) as (_ & _ & Hc2).
    destruct (run_call (deno_rename _ _) d1) as [d2 [[]|e]]; cbn [fst snd is_ok run_call ret run_alone] in *; [|congruence].
    rewrite Hc2. by apply Hok.
Qed.

(** Atomic replacement: run alone on a disk without hard links, with any step
    failing at any point, a replacement passes through states in which the file
    has its old contents or all of the new ones, and never a part; it has the new
    ones exactly when the call succeeds. *)
Theorem replace_is_atomic path text d :
  disk_wf d ->
  Forall (fun d' => dk_content d' path = dk_content d path \/ dk_content d' path = Some text)
    (visited_call (replaceTextFileAtomically path text) d) /\
  dk_content (run_call (replaceTextFileAtomically path text) d).1 path =
    (if is_ok (run_call (replaceTextFileAtomically path text) d).2 then Some text else dk_content d path).
Proof.
  intros [H1 H2]%(replace_alone path text). split; [|done]. eapply Forall_impl; [exact H1|]. naive_solver.
Qed.

(** A disk with one file, and no failures to come. *)
Definition sample_disk : Disk := mkDisk {["store.json" := 0%nat]} {[0%nat := "old"]} 1 [].

Lemma sample_disk_wf : disk_wf sample_disk.
Proof.
  split; simpl; intros; repeat match goal with H : {[_ := _]} !! _ = Some _ |- _ => apply lookup_singleton_Some in H end;
    naive_solver lia.
Qed.

Lemma replace_is_atomic_witness :
  Forall (fun d' => dk_content d' "store.json" = dk_content sample_disk "store.json" \/ dk_content d' "store.json" = Some "new")
    (visited_call (replaceTextFileAtomically "store.json" "new") sample_disk) /\
  dk_content (run_call (replaceTextFileAtomically "store.json" "new") sample_disk).1 "store.json" =
    (if is_ok (run_call (replaceTextFileAtomically "store.json" "new") sample_disk).2
     then Some "new" else dk_content sample_disk "store.json").
Proof. apply (replace_is_atomic "store.json" "new"), sample_disk_wf. Defined.

(** ** Overlapping replacements

    Both write the one temporary path, so the guarantee is lost. *)
Definition replacing (text1 text2 : string) (c : call Disk unit) : Prop :=
  c = replaceTextFileAtomically "store.json" text1 \/ c = replaceTextFileAtomically "store.json" text2.

(** Two replacements of one file that overlap can leave it empty at a moment
    when a stop of the process makes that permanent, and can end with one of the
    calls rejected because the other renamed the temporary file it had written. *)
Theorem overlapping_replacements_break text1 text2 :
  (exists lp, loop_steps (replacing text1 text2) eq (mkLoop sample_disk []) lp /\
     dk_content (lp_state lp) "store.json" = Some "") /\
  (exists lp, loop_steps (replacing text1 text2) eq (mkLoop sample_disk []) lp /\
     lp_tasks lp = [Settled (Ok tt); Settled (Throw (denoNotFound "store.json.tmp"))] /\
     dk_content (lp_state lp) "store.json" = Some text2).
Proof.
  split; [eexists; split|eexists; split; [|split]].
  - apply (loop_play_steps _ _ [MoveCall (replaceTextFileAtomically "store.json" text1); MoveResume 0;
      MoveCall (replaceTextFileAtomically "store.json" text2); MoveResume 0]); [|reflexivity].
    repeat first [apply List.Forall_nil|apply Forall_cons; split; [first [exact I|by left|by right]|]].
  - reflexivity.
  - apply (loop_play_steps _ _ [MoveCall (replaceTextFileAtomically "store.json" text1);
      MoveCall (replaceTextFileAtomically "store.json" text2); MoveResume 0; MoveResume 1; MoveResume 0; MoveResume 1;
      MoveResume 0]); [|reflexivity].
    repeat first [apply List.Forall_nil|apply Forall_cons; split; [first [exact I|by left|by right]|]].
  - reflexivity.
  - reflexivity.
Qed.

(** ** IndexedDB *)

(** A request on an existing store succeeds and replaces that store. *)
Lemma request_succeeds {T} D n mode (op : IdbStore -> IdbStore * T) idb (store : IdbStore) :
  idb !! D ≫= (fun db => db !! n) = Some store ->
  exists idb', runRequest (Ok tt) D n mode op [] idb = (idb', Some (Ok (op store).2)) /\
    idb' !! D ≫= (fun db => db !! n) = Some (op store).1.
Proof.
  intros H. unfold runRequest. rewrite H. destruct (op store) as [store' r]. eexists. split; [reflexivity|].
  rewrite lookup_insert_eq. simpl. apply lookup_insert_eq.
Qed.

(** A store that opened its own database holds what was set last under each
    key. *)
Theorem idb_store_roundtrip databaseName storeName key value key' idb idb1 st :
  idb !! databaseName = None ->
  createIndexedDbStateStore true false (Some databaseName) (Some storeName) idb = (idb1, Ok st) ->
  let '(idb2, r) := iss_set st key value [] idb1 in
  r = Some (Ok tt) /\
  (iss_get st key' [] idb2).2 = Some (Ok (if key' === key then Some value else None)) /\
  (iss_get st key [] (iss_delete st key [] idb2).1).2 = Some (Ok None).
Proof.
  intros Hnew. unfold createIndexedDbStateStore, openDatabase, upgrade. cbn [negb default from_option id].
  rewrite Hnew, lookup_empty. intros [= <- <-].
  unfold iss_set, iss_get, iss_delete. cbn [iss_database iss_databaseName iss_storeName].
  edestruct (request_succeeds databaseName storeName readwrite
    (fun s : IdbStore => (<[key := VStr value]> s, VStr key))) as (idb2 & -> & H2).
  { rewrite lookup_insert_eq. simpl. apply lookup_insert_eq. }
  edestruct (request_succeeds databaseName storeName readonly
    (fun s : IdbStore => (s, default VUndef (s !! key')))) as (idb3 & -> & H3); [exact H2|].
  edestruct (request_succeeds databaseName storeName readwrite
    (fun s : IdbStore => (delete key s, VUndef))) as (idb4 & -> & H4); [exact H2|].
  cbn [fst]. edestruct (request_succeeds databaseName storeName readonly
    (fun s : IdbStore => (s, default VUndef (s !! key)))) as (idb5 & -> & H5); [exact H4|].
  cbn [fst snd]. split; [done|]. split.
  - case_bool_decide as E; [subst; by rewrite lookup_insert_eq|]. by rewrite lookup_insert_ne by done.
  - by rewrite lookup_delete_eq.
Qed.

Lemma idb_store_roundtrip_witness :
  let st := mkIdbStateStore "db" "a" (Ok tt) in
  let '(idb2, r) := iss_set st "k" "v" [] {["db" := {["a" := ∅]}]} in
  r = Some (Ok tt) /\
  (iss_get st "k" [] idb2).2 = Some (Ok (if "k" === "k" then Some "v" else None)) /\
  (iss_get st "k" [] (iss_delete st "k" [] idb2).1).2 = Some (Ok None).
Proof. apply (idb_store_roundtrip "db" "a" "k" "v" "k" ∅ {["db" := {["a" := ∅]}]}); reflexivity. Defined.

(** A second object store in an existing database: opening succeeds, because
    version 1 is no upgrade the second time, and every later operation of that
    store is rejected. *)
Theorem second_store_unavailable databaseName a b idb idb1 st1 idb2 st2 key value aborted :
  a <> b -> idb !! databaseName = None ->
  createIndexedDbStateStore true false (Some databaseName) (Some a) idb = (idb1, Ok st1) ->
  createIndexedDbStateStore true false (Some databaseName) (Some b) idb1 = (idb2, Ok st2) ->
  let rejected := Throw (mkExn "NotFoundError" "One of the specified object stores was not found.") in
  iss_set st2 key value aborted idb2 = (idb2, Some rejected) /\
  iss_delete st2 key aborted idb2 = (idb2, Some rejected) /\
  (iss_get st2 key aborted idb2).2 = Some (Throw (mkExn "NotFoundError" "One of the specified object stores was not found.")).
Proof.
  intros Hab Hnew. unfold createIndexedDbStateStore, openDatabase, upgrade. cbn [negb default from_option id].
  rewrite Hnew, lookup_empty. intros [= <- <-]. rewrite lookup_insert_eq. intros [= <- <-].
  unfold iss_set, iss_get, iss_delete, runRequest. cbn [iss_database iss_databaseName iss_storeName].
  rewrite lookup_insert_eq. cbn [mbind option_bind]. by rewrite lookup_insert_ne, lookup_empty by done.
Qed.

Lemma second_store_unavailable_witness :
  let st2 := mkIdbStateStore "db" "b" (Ok tt) in
  let idb2 := {["db" := {["a" := ∅]}]} in
  let rejected := Throw (mkExn "NotFoundError" "One of the specified object stores was not found.") in
  iss_set st2 "k" "v" [] idb2 = (idb2, Some rejected) /\
  iss_delete st2 "k" [] idb2 = (idb2, Some rejected) /\
  (iss_get st2 "k" [] idb2).2 = Some (Throw (mkExn "NotFoundError" "One of the specified object stores was not found.")).
Proof.
  apply (second_store_unavailable "db" "a" "b" ∅ {["db" := {["a" := ∅]}]} (mkIdbStateStore "db" "a" (Ok tt))
    {["db" := {["a" := ∅]}]} (mkIdbStateStore "db" "b" (Ok tt)) "k" "v" []); [discriminate|reflexivity..].
Defined.
