(* ===== verification/PreimageFile.v ===== *)
(** * The persistent preimage store

    [createPersistencePreimageStore] of
    [packages/sdk/src/payments/cashu/preimage-store.ts] over the file persistence
    of [adapters/storage.ts]: every [create] and [delete] rewrites the whole JSON
    document.  Entries read back from the file are whatever values the document
    holds, so the map is over dynamic values.

    The store refines the in-memory one ([PreimageStore]), a restart between two
    operations changes nothing, and a stop in the middle of one leaves the entries
    from before or from after it. *)

From S2P Require Import Prelude JsNum JsMap JsString JsValue JsonCodec EventLoop PreimageStore Storage.

(** [JSON.stringify(value, null, 2)] and what the code relies on. *)
Class JSONPretty := { JSON_pretty : jsval -> string }.
Class JSONPrettyLaws (J : JSON) (P : JSONPretty) := {
  parse_pretty v : json_ok v -> isRecord v = true -> JSON_parse (JSON_pretty v) = Some (json_norm v);
}.

Notation Values := (jsmap string jsval).

Section store.
Context `{N : Noble} `{J : JSON} `{P : JSONPretty}.

Record PersistentStore := mkPersistentStore { pst_entries : Values; pst_disk : Disk }.

Definition put_disk (d : Disk) (st : PersistentStore) : PersistentStore := mkPersistentStore (pst_entries st) d.
Definition put_entries (m : Values) (st : PersistentStore) : PersistentStore := mkPersistentStore m (pst_disk st).

(** [interface PreimageFileData] *)
Definition PreimageFileData (entries : Values) : jsval := VObj [("entries", VObj entries)].

(** [Object.entries(v)], and the [Map] built from it. *)
Definition object_entries (v : jsval) : res (list (string * jsval)) :=
  match v with
  | VUndef | VNull => Throw (mkExn "TypeError" "Cannot convert undefined or null to object")
  | VStr s => Ok (imap (fun i c => (pretty i, VStr (of_chars [c]))) (chars s))
  | _ => Ok (own_fields v)
  end.

Definition new_Map (l : list (string * jsval)) : Values := foldl (fun m '(k, v) => jm_set k v m) [] l.

Definition loadFromPersistence (key : string) : call Disk Values :=
  try_catch
    (await (fss_readText key) (fun text =>
     match JSON_parse text with
     | None => fail (mkExn "SyntaxError" "Unexpected token in JSON")
     | Some VNull => fail (mkExn "TypeError" "Cannot read properties of null (reading 'entries')")
     | Some data =>
         match object_entries (prop "entries" data) with
         | Ok l => ret (new_Map l)
         | Throw e => fail e
         end
     end))
    (fun error => if isPersistenceNotFoundError error then ret [] else fail error).

Definition saveToPersistence (key : string) (entries : Values) : call Disk unit :=
  let json := JSON_pretty (PreimageFileData entries) in
  await (fss_replaceTextAtomically key json) ret.

(** ** The methods *)
Definition entry_val (e : PreimageEntry) : jsval :=
  VObj [("hash", VStr (pe_hash e)); ("preimage", VStr (pe_preimage e)); ("created_at", VNum (pe_created_at e))].

Definition pst_create (key : string) (raw : list Z) (now : number) : call PersistentStore jsval := fun st =>
  let '(preimage, hash) := createPreimage raw in
  let entry := entry_val (mkPreimageEntry hash preimage now) in
  let entries := jm_set hash entry (pst_entries st) in
  await (zoom pst_disk put_disk (saveToPersistence key entries)) (fun _ => ret entry) (put_entries entries st).

(** [entries.get(hash)?.preimage ?? null] *)
Definition pst_getPreimage (hash : string) (st : PersistentStore) : jsval :=
  match jm_get hash (pst_entries st) with
  | None => VNull
  | Some entry => or_default VNull (prop "preimage" entry)
  end.

Definition pst_has (hash : string) (st : PersistentStore) : bool := jm_has hash (pst_entries st).

Definition pst_verify (hash preimage : string) (st : PersistentStore) : res bool :=
  match jm_get hash (pst_entries st) with
  | None => Ok false
  | Some entry =>
      if negb (js_truthy entry) then Ok false
      else
        match hex_pairs (chars preimage) with
        | [] => Throw (mkExn "TypeError" "Cannot read properties of null (reading 'map')")
        | raw => Ok (eq_str (prop "hash" entry) (bytesToHex (sha256 raw)))
        end
  end.

Definition pst_delete (key hash : string) : call PersistentStore unit := fun st =>
  let entries := jm_delete hash (pst_entries st) in
  await (zoom pst_disk put_disk (saveToPersistence key entries)) ret (put_entries entries st).

(** [createPersistencePreimageStore]: the entries the closures share, and the disk. *)
Definition createPersistencePreimageStore (key : string) (d : Disk) : res PersistentStore :=
  let '(d', r) := run_call (loadFromPersistence key) d in
  entries ← r; Ok (mkPersistentStore entries d').

(** ** The two stores side by side *)
Inductive PreimageOp :=
| OpCreate (raw : list Z) (now : number)
| OpDelete (hash : string)
| OpGetPreimage (hash : string)
| OpHas (hash : string)
| OpVerify (hash preimage : string).

Definition mem_op (o : PreimageOp) (m : jsmap string PreimageEntry) : jsmap string PreimageEntry * res jsval :=
  match o with
  | OpCreate raw now => let '(e, m') := ps_create m raw now in (m', Ok (entry_val e))
  | OpDelete h => (ps_delete m h, Ok VUndef)
  | OpGetPreimage h => (m, Ok (match ps_getPreimage m h with Some p => VStr p | None => VNull end))
  | OpHas h => (m, Ok (VBool (ps_has m h)))
  | OpVerify h p => (m, b ← ps_verify m h p; Ok (VBool b))
  end.

Definition file_op (key : string) (o : PreimageOp) (st : PersistentStore) : PersistentStore * res jsval :=
  match o with
  | OpCreate raw now => run_call (pst_create key raw now) st
  | OpDelete h => let '(st', r) := run_call (pst_delete key h) st in (st', _ ← r; Ok VUndef)
  | OpGetPreimage h => (st, Ok (pst_getPreimage h st))
  | OpHas h => (st, Ok (VBool (pst_has h st)))
  | OpVerify h p => (st, b ← pst_verify h p st; Ok (VBool b))
  end.

Fixpoint run_store_ops {T} (op : PreimageOp -> T -> T * res jsval) (os : list PreimageOp) (s : T) : T * list (res jsval) :=
  match os with
  | [] => (s, [])
  | o :: os' => let '(s1, r) := op o s in let '(s2, rs) := run_store_ops op os' s1 in (s2, r :: rs)
  end.

(** Times are finite numbers a document carries, as [Date.now()] is. *)
Definition time_ok (t : number) : bool := isFinite t && json_number t.
Definition op_ok (o : PreimageOp) : Prop :=
  match o with OpCreate _ now => time_ok now = true | _ => True end.
End store.

Arguments PersistentStore : clear implicits.

(** ** Maps of dynamic values *)
Definition entries_val (m : jsmap string PreimageEntry) : Values := prod_map id entry_val <$> m.

Lemma entries_val_keys m : jm_keys (entries_val m) = jm_keys m.
Proof. unfold jm_keys, entries_val. rewrite <- list_fmap_compose. by apply list_fmap_ext; intros ? []. Qed.

Lemma entries_val_get h m : jm_get h (entries_val m) = entry_val <$> jm_get h m.
Proof. induction m as [|[k e] m IH]; [done|]. simpl. by case_bool_decide. Qed.

Lemma entries_val_has h m : jm_has h (entries_val m) = jm_has h m.
Proof. unfold jm_has. rewrite entries_val_get. by destruct (jm_get h m). Qed.

Lemma entries_val_set h e m : jm_set h (entry_val e) (entries_val m) = entries_val (jm_set h e m).
Proof. induction m as [|[k e'] m IH]; [done|]. simpl. case_bool_decide; [done|]. simpl. by f_equal. Qed.

Lemma entries_val_delete h m : jm_delete h (entries_val m) = entries_val (jm_delete h m).
Proof.
  induction m as [|[k e] m IH]; [done|]. change (entries_val ((k, e) :: m)) with ((k, entry_val e) :: entries_val m).
  rewrite !jm_delete_cons. case_bool_decide; [done|]. simpl. by f_equal.
Qed.

Lemma jm_set_absent {V} (k : string) (v : V) m : k ∉ jm_keys m -> jm_set k v m = m ++ [(k, v)].
Proof.
  induction m as [|[k' v'] m IH]; intros Hk; [done|]. simpl in *. apply not_elem_of_cons in Hk as [Hne Hk].
  rewrite bool_decide_false by done. by rewrite IH.
Qed.

Lemma new_Map_wf (m : Values) : jm_wf m -> new_Map m = m.
Proof.
  intros Hwf. unfold new_Map.
  assert (Hgen : forall acc, jm_wf (acc ++ m) -> foldl (fun m '(k, v) => jm_set k v m) acc m = acc ++ m).
  { clear Hwf. induction m as [|[k v] m IH]; intros acc H; simpl; [by rewrite app_nil_r|].
    assert (Hk : k ∉ jm_keys acc).
    { unfold jm_wf, jm_keys in H. rewrite fmap_app in H. apply NoDup_app in H as (_ & H & _).
      intros Hk. apply (H k Hk). simpl. left. }
    rewrite jm_set_absent by done. rewrite IH; [by rewrite <- app_assoc|]. by rewrite <- app_assoc. }
  by apply (Hgen []).
Qed.

Section proofs.
Context `{N : Noble} `{J : JSON} `{P : JSONPretty}.
Context `{!JSONPrettyLaws J P}.
(** A SHA-256 digest is 32 bytes, printed as 64 hex digits. *)
Context (digest_length : forall raw, String.length (bytesToHex (sha256 raw)) = 64%nat).
Context (key : string).

(** Entries keyed by digests, each once: what the document carries in order. *)
Definition storable (m : jsmap string PreimageEntry) : Prop :=
  jm_wf m /\ Forall (fun k => String.length k = 64%nat) (jm_keys m) /\
  Forall (fun e => time_ok (pe_created_at e) = true) (jm_values m).

Lemma digest_key k : String.length k = 64%nat -> negb (index_key k) && (k !== "toJSON") = true.
Proof.
  intros Hk. apply andb_true_iff. split.
  - unfold index_key. by rewrite Hk.
  - apply negb_true_iff, bool_decide_eq_false. by intros ->.
Qed.

Lemma storable_document m : storable m -> json_ok (PreimageFileData (entries_val m)).
Proof.
  intros (Hwf & Hk & Ht). unfold json_ok, PreimageFileData. cbn [json_safe map fst snd forallb].
  rewrite !andb_true_r. apply andb_true_iff. split; [done|]. apply andb_true_iff. split.
  - unfold json_keys. change (map fst (entries_val m)) with (jm_keys (entries_val m)). rewrite entries_val_keys.
    rewrite bool_decide_true by exact Hwf. apply forallb_forall. intros k Hin.
    apply digest_key. by apply (proj1 (Forall_forall _ _) Hk), list_elem_of_In.
  - clear Hwf Hk. induction m as [|[k e] m IH]; [done|]. apply Forall_cons in Ht as [He Ht].
    change (entries_val ((k, e) :: m)) with ((k, entry_val e) :: entries_val m).
    cbn [forallb snd]. rewrite (IH Ht), andb_true_r. unfold entry_val.
    apply andb_true_iff in He as [_ He]. cbn in *. by rewrite He.
Qed.

(** The document of [m]. *)
Definition document (m : jsmap string PreimageEntry) : string := JSON_pretty (PreimageFileData (entries_val m)).

Lemma document_parses m : storable m -> JSON_parse (document m) = Some (PreimageFileData (entries_val m)).
Proof.
  intros Hm. unfold document. rewrite parse_pretty by (try apply storable_document; done). f_equal.
  destruct Hm as (_ & _ & Ht).
  unfold PreimageFileData. rewrite json_norm_obj_cons, json_norm_obj_nil. cbn [keep_field]. do 3 f_equal.
  induction m as [|[k e] m IH]; [done|]. apply Forall_cons in Ht as [He Ht].
  change (entries_val ((k, e) :: m)) with ((k, entry_val e) :: entries_val m).
  rewrite json_norm_obj_cons, (IH Ht). cbn [keep_field entry_val]. repeat f_equal.
  unfold entry_val. rewrite !json_norm_obj_cons, json_norm_obj_nil. apply andb_true_iff in He as [He _]. cbn in *. by rewrite He.
Qed.

(** What a restart finds: the file absent and nothing to hold, or the document. *)
Definition on_disk (m : jsmap string PreimageEntry) (d : Disk) : Prop :=
  dk_content d key = Some (document m) \/ dk_content d key = None /\ m = [].

(** The disk as a new process finds it. *)
Definition calm (d : Disk) : Disk := mkDisk (dk_dir d) (dk_data d) (dk_next d) [].

Lemma read_alone d :
  run_call (fss_readText key) (calm d) =
  (calm d, match dk_content d key with Some t => Ok t | None => Throw (PersistenceNotFoundError key) end).
Proof.
  unfold fss_readText, readTextFile. rewrite run_call_try, run_call_await, run_call_try, run_call_await.
  unfold run_call at 1, deno_readTextFile. cbn [dk_fault dk_faults calm head default from_option run_alone].
  change (dk_content _ key) with (dk_content d key). by destruct (dk_content d key).
Qed.

Lemma load_on_disk m d :
  storable m -> on_disk m d ->
  (run_call (loadFromPersistence key) (calm d)).2 = Ok (entries_val m).
Proof.
  intros Hm Hd. unfold loadFromPersistence. rewrite run_call_try, run_call_await, read_alone.
  destruct Hd as [->|[-> ->]].
  - rewrite document_parses by done. unfold run_call at 1. cbn [PreimageFileData prop assoc].
    rewrite bool_decide_true by done. cbn [opt_default object_entries own_fields ret run_alone snd].
    by rewrite new_Map_wf by (unfold jm_wf; rewrite entries_val_keys; apply Hm).
  - reflexivity.
Qed.

(** ** Saving, alone *)
Lemma visited_zoom_disk {A} (Q : PersistentStore -> Prop) (c : call Disk A) st :
  Forall (fun d => Q (put_disk d st)) (visited_call c (pst_disk st)) ->
  Forall Q (visited_call (zoom pst_disk put_disk c) st).
Proof.
  unfold visited_call, zoom. destruct (c (pst_disk st)) as [d t]. revert d.
  induction t as [r|f IH] using task_induction; intros d H; cbn [visited zoom_task] in *;
    [apply Forall_singleton; by inversion H|].
  apply Forall_cons in H as [H1 H2]. apply Forall_cons. split; [done|].
  change (pst_disk (put_disk d st)) with d. specialize (IH d). destruct (f d) as [d' t']. by apply IH.
Qed.

Lemma run_zoom_disk {A} (c : call Disk A) st :
  run_call (zoom pst_disk put_disk c) st = let '(d, r) := run_call c (pst_disk st) in (put_disk d st, r).
Proof.
  unfold run_call, zoom. destruct (c (pst_disk st)) as [d t]. revert d.
  induction t as [r|f IH] using task_induction; intros d; cbn [run_alone zoom_task]; [done|].
  change (pst_disk (put_disk d st)) with d. specialize (IH d). destruct (f d) as [d' t']. apply IH.
Qed.

Lemma save_alone m m' d :
  disk_wf d -> on_disk m d ->
  Forall (fun d' => disk_wf d' /\ (on_disk m d' \/ on_disk m' d'))
    (visited_call (saveToPersistence key (entries_val m')) d) /\
  (is_ok (run_call (saveToPersistence key (entries_val m')) d).2 = true ->
   on_disk m' (run_call (saveToPersistence key (entries_val m')) d).1).
Proof.
  intros Hwf Hd. unfold saveToPersistence, fss_replaceTextAtomically. fold (document m').
  rewrite !run_ret_tail. destruct (replace_alone key (document m') d Hwf) as [Hv Hend]. split.
  - do 2 apply visited_ret_tail. eapply Forall_impl; [exact Hv|]. cbn beta. intros d' [Hwf' [Hc|Hc]]; (split; [done|]).
    + left. unfold on_disk. by rewrite Hc.
    + right. by left.
  - intros Hok. left. by rewrite Hend, Hok.
Qed.

(** ** Refinement *)
Definition refines (m : jsmap string PreimageEntry) (st : PersistentStore) : Prop :=
  pst_entries st = entries_val m /\ storable m /\ disk_wf (pst_disk st) /\
  on_disk m (pst_disk st) /\ dk_faults (pst_disk st) = [].

Lemma write_calm p text d : dk_faults d = [] ->
  exists d' i, run_call (deno_writeTextFile p text) d = (d', Ok tt) /\ dk_faults d' = [] /\ dk_dir d' !! p = Some i.
Proof.
  intros Hf. unfold run_call, deno_writeTextFile. unfold dk_fault at 1. rewrite Hf. cbn [head default from_option id].
  pose proof (open_dir p (dk_tick d)) as Hdir.
  assert (Hf1 : dk_faults (dk_open p (dk_tick d)).2 = []).
  { unfold dk_open. destruct (dk_dir (dk_tick d) !! p); cbn; by rewrite Hf. }
  destruct (dk_open p (dk_tick d)) as [i d1]. cbn [fst snd run_alone] in *. unfold dk_fault. rewrite Hf1.
  cbn [head default from_option id run_alone]. do 2 eexists. split; [reflexivity|]. cbn. by rewrite Hf1.
Qed.

Lemma save_calm m d : dk_faults d = [] ->
  exists d', run_call (saveToPersistence key m) d = (d', Ok tt) /\ dk_faults d' = [].
Proof.
  intros Hf. unfold saveToPersistence, fss_replaceTextAtomically, replaceTextFileAtomically. rewrite !run_ret_tail.
  destruct (write_calm (key +:+ ".tmp") (JSON_pretty (PreimageFileData m)) d Hf) as (d1 & i & E & Hf1 & Hdir).
  rewrite run_call_await, E, run_ret_tail. unfold run_call, deno_rename, dk_fault. rewrite Hf1.
  cbn [head default from_option id]. rewrite Hdir. eexists. split; [reflexivity|]. cbn. by rewrite Hf1.
Qed.

(** A state change that is saved keeps the two stores in step. *)
Lemma save_refines m m' st :
  refines m st -> storable m' ->
  exists st', run_call (zoom pst_disk put_disk (saveToPersistence key (entries_val m'))) (put_entries (entries_val m') st)
    = (st', Ok tt) /\ refines m' st'.
Proof.
  intros (He & _ & Hdw & Hod & Hf) Hm'. rewrite run_zoom_disk. cbn [pst_disk put_entries].
  destruct (save_calm (entries_val m') _ Hf) as (d' & E & Hf'). destruct (save_alone m m' _ Hdw Hod) as [Hv Hok].
  apply visited_last in Hv. rewrite E in Hv, Hok |- *. eexists. split; [reflexivity|].
  split; [done|]. split_and!; try done; [apply Hv|]. by apply Hok.
Qed.

Lemma storable_create raw now p m :
  time_ok now = true -> storable m ->
  storable (jm_set (bytesToHex (sha256 raw)) (mkPreimageEntry (bytesToHex (sha256 raw)) p now) m).
Proof.
  intros Hnow (Hwf & Hk & Ht). split_and!; [by apply jm_wf_set| |].
  - rewrite jm_keys_set. case_match; [done|]. apply Forall_app. split; [done|]. by apply Forall_singleton.
  - rewrite Forall_forall in Ht |- *. intros e' He'. eapply elem_of_submseteq in He'; [|apply jm_values_set].
    apply elem_of_cons in He' as [->|He']; [done|]. by apply Ht.
Qed.

Lemma storable_delete (h : string) m : storable m -> storable (jm_delete h m).
Proof.
  intros (Hwf & Hk & Ht). split_and!; [by apply jm_wf_delete| |]; unfold jm_keys, jm_values, jm_delete in *;
    rewrite Forall_fmap, Forall_forall in *; intros x [_ Hx]%list_elem_of_filter; [by apply Hk|by apply Ht].
Qed.

Lemma op_refines o m st :
  refines m st -> op_ok o ->
  (file_op key o st).2 = (mem_op o m).2 /\ refines (mem_op o m).1 (file_op key o st).1.
Proof.
  intros Hr Ho. pose proof Hr as (He & Hm & _). destruct o as [raw now|h|h|h|h p].
  - set (e := mkPreimageEntry (bytesToHex (sha256 raw)) (bytesToHex raw) now).
    destruct (save_refines m (jm_set (pe_hash e) e m) st Hr) as (st' & E & Hr'); [by apply storable_create|].
    unfold file_op. change (run_call (pst_create key raw now) st) with
      (run_call (await (zoom pst_disk put_disk (saveToPersistence key (jm_set (pe_hash e) (entry_val e) (pst_entries st))))
        (fun _ => ret (entry_val e))) (put_entries (jm_set (pe_hash e) (entry_val e) (pst_entries st)) st)).
    by rewrite He, entries_val_set, run_call_await, E.
  - destruct (save_refines m (jm_delete h m) st Hr) as (st' & E & Hr'); [by apply storable_delete|].
    unfold file_op. change (run_call (pst_delete key h) st) with
      (run_call (await (zoom pst_disk put_disk (saveToPersistence key (jm_delete h (pst_entries st)))) ret)
        (put_entries (jm_delete h (pst_entries st)) st)).
    by rewrite He, entries_val_delete, run_ret_tail, E.
  - split; [|done]. cbn. unfold pst_getPreimage, ps_getPreimage. rewrite He, entries_val_get. by destruct (jm_get h m).
  - split; [|done]. cbn. unfold pst_has, ps_has. by rewrite He, entries_val_has.
  - split; [|done]. cbn. unfold pst_verify, ps_verify, verifyPreimageHash. rewrite He, entries_val_get.
    destruct (jm_get h m) as [e|]; [|done]. cbn. destruct (hex_pairs (chars p)); [done|]. cbn.
    do 2 f_equal. apply bool_decide_ext. split; congruence.
Qed.

Lemma ops_refine os m st :
  refines m st -> Forall op_ok os ->
  (run_store_ops (file_op key) os st).2 = (run_store_ops mem_op os m).2 /\
  refines (run_store_ops mem_op os m).1 (run_store_ops (file_op key) os st).1.
Proof.
  intros Hr Hos. revert m st Hr. induction Hos as [|o os Ho _ IH]; intros m st Hr; [done|]. simpl.
  destruct (op_refines o m st Hr Ho) as [H1 H2]. destruct (file_op key o st) as [st1 r], (mem_op o m) as [m1 r'].
  cbn [fst snd] in *. destruct (IH m1 st1 H2) as [H3 H4].
  destruct (run_store_ops (file_op key) os st1), (run_store_ops mem_op os m1). cbn [fst snd] in *. by subst.
Qed.

(** ** Where a stop leaves the file *)

(** The states an operation passes through. *)
Definition visited_op (o : PreimageOp) (st : PersistentStore) : list PersistentStore :=
  match o with
  | OpCreate raw now => visited_call (pst_create key raw now) st
  | OpDelete h => visited_call (pst_delete key h) st
  | _ => [st]
  end.

(** The entries of a restart of a process stopped in state [st]. *)
Definition restarted (st : PersistentStore) : res Values :=
  st' ← createPersistencePreimageStore key (calm (pst_disk st)); Ok (pst_entries st').

Lemma restarted_load m d es : storable m -> on_disk m d ->
  restarted (mkPersistentStore es d) = Ok (entries_val m).
Proof.
  intros Hm Hod. unfold restarted, createPersistencePreimageStore. cbn [pst_disk].
  pose proof (load_on_disk m d Hm Hod) as E. destruct (run_call _ _) as [d' r]. cbn in E. by subst.
Qed.

Lemma save_visited {A} m m' st (k : unit -> call PersistentStore A) :
  (forall u s, visited_call (k u) s = [s]) ->
  disk_wf (pst_disk st) -> on_disk m (pst_disk st) ->
  storable m -> storable m' ->
  Forall (fun st' => restarted st' = Ok (entries_val m) \/ restarted st' = Ok (entries_val m'))
    (visited_call (await (zoom pst_disk put_disk (saveToPersistence key (entries_val m'))) k)
       (put_entries (entries_val m') st)).
Proof.
  intros Hk Hdw Hod Hm Hm'. destruct (save_alone m m' _ Hdw Hod) as [Hv _].
  assert (H : Forall (fun st' => restarted st' = Ok (entries_val m) \/ restarted st' = Ok (entries_val m'))
    (visited_call (zoom pst_disk put_disk (saveToPersistence key (entries_val m'))) (put_entries (entries_val m') st))).
  { apply visited_zoom_disk. eapply Forall_impl; [exact Hv|]. cbn beta. intros d' [_ [H|H]]; [left|right]; by apply restarted_load. }
  apply visited_await; [done|]. intros u st' E. rewrite Hk. apply visited_last in H. rewrite E in H. by constructor.
Qed.

Lemma op_visited o m st :
  pst_entries st = entries_val m -> disk_wf (pst_disk st) -> on_disk m (pst_disk st) ->
  storable m -> op_ok o ->
  Forall (fun st' => restarted st' = Ok (entries_val m) \/ restarted st' = Ok (entries_val (mem_op o m).1))
    (visited_op o st).
Proof.
  intros He Hdw Hod Hm Ho. destruct o as [raw now|h|h|h|h p].
  - set (e := mkPreimageEntry (bytesToHex (sha256 raw)) (bytesToHex raw) now).
    change (visited_op (OpCreate raw now) st) with
      (visited_call (await (zoom pst_disk put_disk (saveToPersistence key (jm_set (pe_hash e) (entry_val e) (pst_entries st))))
        (fun _ => ret (entry_val e))) (put_entries (jm_set (pe_hash e) (entry_val e) (pst_entries st)) st)).
    rewrite He, entries_val_set. apply save_visited; try done. by apply storable_create.
  - change (visited_op (OpDelete h) st) with
      (visited_call (await (zoom pst_disk put_disk (saveToPersistence key (jm_delete h (pst_entries st)))) ret)
        (put_entries (jm_delete h (pst_entries st)) st)).
    rewrite He, entries_val_delete. apply save_visited; try done. by apply storable_delete.
  - apply Forall_singleton. left. destruct st. by apply restarted_load.
  - apply Forall_singleton. left. destruct st. by apply restarted_load.
  - apply Forall_singleton. left. destruct st. by apply restarted_load.
Qed.

(** ** Properties *)


(** C31: Crash safety of one operation that runs alone: in a store whose entries,
    keyed by SHA-256 hashes, agree with its file, whatever disk step of the operation
    fails and wherever the process stops during it, a restart finds the entries from
    before the operation or those from after it.  (Two operations in flight share the
    temporary file; the claim is not about them.) *)
Theorem preimage_store_crash_safe o m st :
  pst_entries st = entries_val m -> disk_wf (pst_disk st) -> on_disk m (pst_disk st) ->
  storable m -> op_ok o ->
  Forall (fun st' => restarted st' = Ok (entries_val m) \/ restarted st' = Ok (entries_val (mem_op o m).1))
    (visited_op o st).
Proof. apply op_visited. Qed.
End proofs.

(** ** Witnesses: the codec as the printer, the sample hash, an empty disk *)
Definition codec_pretty : JSONPretty := {| JSON_pretty := codec_stringify |}.

Lemma codec_pretty_laws : JSONPrettyLaws codec codec_pretty.
Proof. constructor. intros v H1 H2. by apply (parse_stringify (JSONLaws := codec_laws)). Qed.

Definition empty_disk : Disk := mkDisk ∅ ∅ 0 [].

Lemma empty_disk_wf : disk_wf empty_disk.
Proof. split; cbn; intros *; by rewrite lookup_empty. Qed.

(** A hash of 32 bytes: the first byte, then fives. *)
Definition noble32 : Noble := {|
  sha256 := fun raw => default 0%Z (head raw) :: replicate 31 5%Z;
  bytesToHex := bytesToHex (Noble := toy_noble);
|}.

Lemma noble32_length raw : String.length (bytesToHex (Noble := noble32) (sha256 (Noble := noble32) raw)) = 64%nat.
Proof. by destruct raw. Qed.

Definition sample_digest : string := bytesToHex (Noble := noble32) (sha256 (Noble := noble32) [1]%Z).
Definition sample_ops : list PreimageOp := [OpCreate [1]%Z (num 5); OpCreate [2]%Z (num 6); OpDelete sample_digest; OpHas sample_digest].


Lemma preimage_store_crash_safe_witness :
  Forall (fun st' => restarted (J := codec) "p" st' = Ok [] \/
      restarted (J := codec) "p" st' = Ok (entries_val (mem_op (N := noble32) (OpCreate [1]%Z (num 5)) []).1))
    (visited_op (N := noble32) (P := codec_pretty) "p" (OpCreate [1]%Z (num 5)) (mkPersistentStore [] empty_disk)).
Proof.
  apply (preimage_store_crash_safe (N := noble32) (J := codec) (P := codec_pretty)
    (JSONPrettyLaws0 := codec_pretty_laws) noble32_length "p" (OpCreate [1]%Z (num 5)) [] (mkPersistentStore [] empty_disk)).
  - reflexivity.
  - apply empty_disk_wf.
  - by right.
  - split_and!; constructor.
  - reflexivity.
Defined.
