(* ===== verification/FrostServer.v ===== *)
(** * The FROST peer server

    [adapters/oracle-service/server.ts] and the routes it mounts: key generation
    ([frost-dkg-routes.ts]), coordinator signing sessions ([frost-sign-routes.ts])
    and the signer rounds of [FrostSigner].  One state holds the signer's pending
    nonces, the coordinator's maps and the world they share; a request is a call of
    the event loop, so requests interleave at their [await]s.

    Bodies have the field types the routes declare ([c.req.json<...>()]); an absent
    field is [None], an unreadable body is no body.  The routes do not check these
    types, so a body with fields of other types is outside the model of the
    key-generation and signing routes: there, a threshold and a total that are both
    strings are compared as strings, and an object given for a signer's key is a new
    key of the coordinator's maps each time.  [server_requires_key] does not depend on
    the body; the theorems on sessions are about bodies of the declared types. *)

From S2P Require Import Prelude JsNum JsMap JsString JsValue QueryTypes Samples QueryDomain PreimageStore EventLoop CashuTypes CashuEscrow JsonCodec Sidecar.
From S2P Require Import FrostCli FrostSigner FrostSignerSpec FrostCoordinator.

(** ** Request bodies *)
Record DkgInitBody := mkDkgInitBody { di_threshold : option number; di_total : option number }.
Record DkgRoundBody := mkDkgRoundBody {
  db_signer_index : option number;
  db_package : option string;
  db_secret_package : option string;
}.
Record SignBody := mkSignBody { sb_message : option string }.
(** Commitments and shares have the same shape; [value] is the last field. *)
Record SubmitBody := mkSubmitBody {
  su_session_id : option string;
  su_signer_pubkey : option string;
  su_value : option string;
}.

(** [body?.x] tested for truthiness. *)
Definition str_of {B} (f : B -> option string) (body : option B) : option string := truthy (b ← body; f b).
Definition num_of {B} (f : B -> option number) (body : option B) : option number :=
  match (b ← body; f b) with Some n => if num_truthy n then Some n else None | None => None end.

Definition http_json (status : Z) (fields : list (string * jsval)) : HttpResponse := mkHttp status (VObj fields).
Definition size_val {A} (l : list A) : jsval := VNum (num (Z.of_nat (length l))).

Section routes.
Context `{J : JSON} {E : Type}.
Notation Coord := (CoordState (E := E)).

(** ** [frost-dkg-routes.ts] *)
Definition post_dkg_init (body : option DkgInitBody) (id : string) (now : number) : call Coord HttpResponse :=
  await (fun s => (s, Settled (Ok body))) (fun body s =>
  match num_of di_threshold body, num_of di_total body with
  | Some threshold, Some total =>
      if threshold >ₙ total then ret (http_error 400 (VStr "threshold cannot exceed total")) s
      else
        let '(s', session) := initDkg threshold total id now s in
        ret (http_json 201 [("session_id", VStr (dk_session_id session)); ("threshold", VNum (dk_threshold session));
               ("total_signers", VNum (dk_total_signers session)); ("current_round", VNum (num (dk_current_round session)))]) s'
  | _, _ => ret (http_error 400 (VStr "Missing threshold or total")) s
  end).

(** [[1, 2, 3].includes(Number(n))] *)
Definition round_of (n : string) : option Z := List.find (fun r => js_Number n =ₙ num r) [1; 2; 3]%Z.

Definition dkg_result_json (r : DkgRoundResult) : list (string * jsval) :=
  [("round", VNum (num (dr_round r))); ("complete", VBool (dr_complete r)); ("group_pubkey", dr_group_pubkey r);
   ("pubkey_package", dr_pubkey_package r)].

Definition post_dkg_round (sessionId n : string) (body : option DkgRoundBody) : call Coord HttpResponse :=
  match round_of n with
  | None => ret (http_error 400 (VStr "Round must be 1, 2, or 3"))
  | Some round =>
  await (fun s => (s, Settled (Ok body))) (fun body s =>
  match num_of db_signer_index body, str_of db_package body with
  | Some signer_index, Some package =>
      await (fun s => let '(s', r) := submitDkgPackage sessionId round signer_index package (b ← body; db_secret_package b) s in
                      (s', Settled r)) (fun result =>
      match result with
      | None => ret (http_error 404 (VStr "DKG session not found"))
      | Some r => ret (http_json 200 (dkg_result_json r))
      end) s
  | _, _ => ret (http_error 400 (VStr "Missing signer_index or package")) s
  end)
  end.

Definition get_dkg (sessionId : string) : call Coord HttpResponse := fun s =>
  match getDkgSession sessionId s with
  | None => ret (http_error 404 (VStr "Session not found")) s
  | Some d =>
      ret (http_json 200 [("session_id", VStr (dk_session_id d)); ("threshold", VNum (dk_threshold d));
             ("total_signers", VNum (dk_total_signers d)); ("current_round", VNum (num (dk_current_round d)));
             ("group_pubkey", dk_group_pubkey d); ("round1_count", size_val (dk_round1_packages d));
             ("round2_count", size_val (dk_round2_packages d)); ("key_packages_count", size_val (dk_key_packages d))]) s
  end.

(** ** [frost-sign-routes.ts] *)
Definition post_sign (frostConfig : option ThresholdOracleConfig) (queryId : string) (body : option SignBody)
    (id : string) (now : number) : call Coord HttpResponse :=
  await (fun s => (s, Settled (Ok body))) (fun body s =>
  match str_of sb_message body with
  | None => ret (http_error 400 (VStr "Missing message")) s
  | Some message =>
  match frostConfig with
  | None => ret (http_error 503 (VStr "FROST not configured")) s
  | Some config =>
      let '(s', session) := startSigning queryId message config id now s in
      ret (http_json 201 [("session_id", VStr (ss_session_id session)); ("query_id", VStr (ss_query_id session));
             ("message", VStr (ss_message session)); ("threshold", VNum (tc_threshold (ss_config session)))]) s'
  end end).

(** [session?.x.size ?? 0] and [session?.config.threshold ?? 0] *)
Definition opt_size {A} (f : FrostSigningSession -> list A) (session : option FrostSigningSession) : jsval :=
  match session with Some x => size_val (f x) | None => VNum (num 0) end.
Definition opt_threshold (session : option FrostSigningSession) : jsval :=
  VNum match session with Some x => tc_threshold (ss_config x) | None => num 0 end.

(** The path parameter is not read. *)
Definition post_commitments (queryId : string) (body : option SubmitBody) : call Coord HttpResponse :=
  await (fun s => (s, Settled (Ok body))) (fun body s =>
  match str_of su_session_id body, str_of su_signer_pubkey body, str_of su_value body with
  | Some session_id, Some signer_pubkey, Some commitment =>
      let s := submitNonceCommitment session_id signer_pubkey commitment s in
      let session := getSigningSession session_id s in
      ret (http_json 200 [("commitments_count", opt_size ss_nonce_commitments session); ("threshold", opt_threshold session)]) s
  | _, _, _ => ret (http_error 400 (VStr "Missing session_id, signer_pubkey, or commitment")) s
  end).

Variables (spawn : list string -> E -> E * ProcOutcome) (executor : SidecarExecutor).

(** The session object fetched before the aggregation is read after it. *)
Definition post_shares (queryId : string) (body : option SubmitBody) : call Coord HttpResponse :=
  await (fun s => (s, Settled (Ok body))) (fun body s =>
  match str_of su_session_id body, str_of su_signer_pubkey body, str_of su_value body with
  | Some session_id, Some signer_pubkey, Some share =>
      let s := submitSignatureShare session_id signer_pubkey share s in
      let address := jm_get session_id (fc_signing s) in
      let session s := a ← address; fc_objects s !! a in
      let pending s :=
        ret (http_json 200 [("shares_count", opt_size ss_signature_shares (session s)); ("threshold", opt_threshold (session s));
               ("finalized", VBool false)]) s in
      match session s with
      | Some x =>
          if num (Z.of_nat (jm_size (ss_signature_shares x))) ≥ₙ tc_threshold (ss_config x) then
            await (tryAggregate spawn executor session_id None) (fun aggResult s =>
              match aggResult with
              | Some signature =>
                  ret (http_json 200 [("shares_count", opt_size ss_signature_shares (session s));
                         ("threshold", opt_threshold (session s)); ("finalized", VBool true); ("signature", signature)]) s
              | None => pending s
              end) s
          else pending s
      | None => pending s
      end
  | _, _, _ => ret (http_error 400 (VStr "Missing session_id, signer_pubkey, or share")) s
  end).

Definition get_sign (queryId : string) : call Coord HttpResponse := fun s =>
  match getSigningSession queryId s with
  | None => ret (http_error 404 (VStr "Signing session not found")) s
  | Some found =>
      ret (http_json 200 [("session_id", VStr (ss_session_id found)); ("query_id", VStr (ss_query_id found));
             ("message", VStr (ss_message found)); ("threshold", VNum (tc_threshold (ss_config found)));
             ("commitments_count", size_val (ss_nonce_commitments found)); ("shares_count", size_val (ss_signature_shares found));
             ("finalized", VBool (ss_finalized found)); ("signature", opt_default VUndef (ss_group_signature found))]) s
  end.
End routes.

(** ** [server.ts] *)
Record OracleAppOptions := mkOracleAppOptions {
  oa_oracleId : option string;
  oa_apiKey : option string;
  oa_feePpm : option number;
  oa_frostConfig : option ThresholdOracleConfig;
  oa_frostNodeConfig : option FrostNodeConfig;
}.

(** The first argument is an id or the options, or absent. *)
Definition app_options (first : option (string + OracleAppOptions)) (apiKey : option string) : OracleAppOptions :=
  match first with
  | Some (inl oracleId) => mkOracleAppOptions (Some oracleId) apiKey None None None
  | Some (inr opts) =>
      mkOracleAppOptions (oa_oracleId opts) (nullish (oa_apiKey opts) apiKey) (oa_feePpm opts) (oa_frostConfig opts)
        (oa_frostNodeConfig opts)
  | None => mkOracleAppOptions None apiKey None None None
  end.

Inductive OracleRequest :=
| GetHealth
| GetInfo
| PostSignerRound1 (body : option jsval)
| PostSignerRound2 (body : option jsval)
| PostDkgInit (body : option DkgInitBody) (id : string) (now : number)
| PostDkgRound (sessionId n : string) (body : option DkgRoundBody)
| GetDkg (sessionId : string)
| PostSign (queryId : string) (body : option SignBody) (id : string) (now : number)
| PostCommitments (queryId : string) (body : option SubmitBody)
| PostShares (queryId : string) (body : option SubmitBody)
| GetSign (queryId : string).

Section server.
Context `{J : JSON} `{N : Noble} `{L : CashuLib} {E : Type}.
Context (spawn : list string -> E -> E * ProcOutcome) (randomUUID : E -> E * string)
  (verifyJson : jsval -> jsval -> jsval -> call E VerificationDetail) (executor : SidecarExecutor).

(** The nonces of the signer, the coordinator's maps, and the shared world. *)
Record AppState := mkApp {
  ap_pending : list (string * NonceSession);
  ap_log : list signer_event;
  ap_dkg : list (string * DkgSession);
  ap_objects : list FrostSigningSession;
  ap_signing : list (string * nat);
  ap_queries : list (string * string);
  ap_env : E;
}.

Definition ap_signer (s : AppState) : SignerState (E := E) := mkSignerState (ap_pending s) (ap_log s) (ap_env s).
Definition put_signer (g : SignerState (E := E)) (s : AppState) : AppState :=
  mkApp (sg_pending g) (sg_log g) (ap_dkg s) (ap_objects s) (ap_signing s) (ap_queries s) (sg_env g).
Definition ap_coord (s : AppState) : CoordState (E := E) := mkCoord (ap_dkg s) (ap_objects s) (ap_signing s) (ap_queries s) (ap_env s).
Definition put_coord (c : CoordState (E := E)) (s : AppState) : AppState :=
  mkApp (ap_pending s) (ap_log s) (fc_dkg c) (fc_objects c) (fc_signing c) (fc_queries c) (fc_env c).

Definition on_signer {A} (c : call (SignerState (E := E)) A) : call AppState A := zoom ap_signer put_signer c.
Definition on_coord {A} (c : call (CoordState (E := E)) A) : call AppState A := zoom ap_coord put_coord c.

(** The routes behind the authentication middleware. *)
Definition guarded_route (opts : OracleAppOptions) (req : OracleRequest) : option (call AppState HttpResponse) :=
  match req with
  | GetHealth | GetInfo => None
  | PostSignerRound1 body =>
      Some (on_signer (signer_round1 spawn randomUUID verifyJson executor (oa_frostNodeConfig opts) body))
  | PostSignerRound2 body => Some (on_signer (signer_round2 spawn executor (oa_frostNodeConfig opts) body))
  | PostDkgInit body id now => Some (on_coord (post_dkg_init body id now))
  | PostDkgRound sessionId n body => Some (on_coord (post_dkg_round sessionId n body))
  | GetDkg sessionId => Some (on_coord (get_dkg sessionId))
  | PostSign queryId body id now => Some (on_coord (post_sign (oa_frostConfig opts) queryId body id now))
  | PostCommitments queryId body => Some (on_coord (post_commitments queryId body))
  | PostShares queryId body => Some (on_coord (post_shares spawn executor queryId body))
  | GetSign queryId => Some (on_coord (get_sign queryId))
  end.

Definition buildOracleApp (opts : OracleAppOptions) (authorization xApiKey : option string) (req : OracleRequest)
    : call AppState HttpResponse :=
  let oracleId := opt_default "remote-oracle" (oa_oracleId opts) in
  match guarded_route opts req with
  | Some handler => buildAuthMiddleware (oa_apiKey opts) authorization xApiKey handler
  | None =>
      match req with
      | GetHealth => ret (http_json 200 [("ok", VBool true); ("oracle_id", VStr oracleId)])
      | _ => ret (http_json 200 [("id", VStr oracleId); ("name", VStr ("FROST Oracle " +:+ oracleId));
                    ("fee_ppm", VNum (opt_default (num 0) (oa_feePpm opts)))])
      end
  end.
End server.

(** ** The FROST peer server: properties

    Without the API key only [/health] and [/info] answer and nothing changes.
    Under every interleaving of requests, a finalized signing session holds at
    least a threshold of shares, and key-generation sessions are well formed.

    The argument is rely-guarantee: [coord_keeps] is how requests may change the
    coordinator's objects, and is stable enough for [tryAggregate] to finalize the
    session it looked at before its [await]. *)

(** ** Generic steps *)
Section generic.
Context {S : Type} (G : S -> S -> Prop) `{!PreOrder G}.

(** A segment that first moves the state and then goes on as a call. *)
Lemma wp_after {A} (c : call S A) s s1 Q :
  G s s1 -> call_wp G c s1 Q -> G s (c s1).1 /\ task_wp G (c s1).2 (c s1).1 Q.
Proof. intros H [H1 H2]. split; [by etrans|done]. Qed.

Lemma wp_request {A B} (body : A) (k : A -> call S B) s Q :
  (forall s', G s s' -> call_wp G (k body) s' Q) -> call_wp G (await (fun s => (s, Settled (Ok body))) k) s Q.
Proof. intros Hk. apply wp_await. split; [done|]. cbn. exact Hk. Qed.

Lemma wp_command `{J : JSON} spawn sub args path ex s :
  (forall cmd s, G s (spawn cmd s).1) -> call_wp G (runFrostCommand spawn sub args path ex) s (fun _ _ => True).
Proof.
  intros Hs. unfold runFrostCommand. destruct (truthy _) as [bin|]; [|split; [reflexivity|exact I]].
  unfold call_wp. specialize (Hs (bin :: sub :: args) s). destruct (spawn _ s) as [s1 o]. cbn in *. split; [done|].
  intros s2 _. split; [done|]. by destruct (cli_outcome o).
Qed.

(** A call on a component that determines what [G] sees. *)
Lemma wp_lift {E A} (get : S -> E) put (Ge : E -> E -> Prop) (c : call E A) s Q :
  (forall s s', G s s' <-> Ge (get s) (get s')) -> (forall e s, get (put e s) = e) ->
  call_wp Ge c (get s) Q -> call_wp G (zoom get put c) s (fun a s' => Q a (get s')).
Proof.
  intros HG Hget. unfold call_wp, zoom. destruct (c (get s)) as [e t]. cbn [fst snd]. intros [H1 H2]. split.
  { apply HG. by rewrite Hget. }
  clear H1. assert (He : get (put e s) = e) by apply Hget. revert He H2. generalize (put e s). clear s. revert e.
  induction t as [[a|er]|k IH] using task_induction; intros e s He H; cbn [zoom_task task_wp] in *; [by rewrite He|done|].
  intros s1 Hs1. assert (He1 : Ge e (get s1)) by (apply HG in Hs1; congruence). destruct (H (get s1) He1) as [H3 H4].
  specialize (IH (get s1)). destruct (k (get s1)) as [e1 t1]. cbn [fst snd] in *. split.
  - apply HG. by rewrite Hget.
  - apply (IH e1); [apply Hget|done].
Qed.
End generic.

Section coordinator.
Context `{J : JSON} {E : Type}.
Notation Coord := (CoordState (E := E)).
Implicit Types s : Coord.

(** ** What requests keep *)
Definition enough_shares (x : FrostSigningSession) : bool :=
  num (Z.of_nat (jm_size (ss_signature_shares x))) ≥ₙ tc_threshold (ss_config x).

Definition session_ok (x : FrostSigningSession) : Prop :=
  ss_finalized x = true ->
  enough_shares x = true /\ exists signature, ss_group_signature x = Some signature /\ js_truthy signature = true.

Definition dkg_ok (d : DkgSession) : Prop :=
  (dk_threshold d >ₙ dk_total_signers d) = false /\ num_truthy (dk_threshold d) = true /\
  (0 <= dk_current_round d <= 3)%Z.

Definition coord_inv (s : Coord) : Prop :=
  Forall session_ok (fc_objects s) /\ Forall dkg_ok (fc_dkg s).*2.

(** A session object stays where it is, under the same configuration, and its
    shares only grow. *)
Definition grown (x x' : FrostSigningSession) : Prop :=
  ss_config x' = ss_config x /\ (jm_size (ss_signature_shares x) <= jm_size (ss_signature_shares x'))%nat.

Definition coord_keeps (s s' : Coord) : Prop :=
  (forall a x, fc_objects s !! a = Some x -> exists x', fc_objects s' !! a = Some x' /\ grown x x') /\
  (coord_inv s -> coord_inv s').

Global Instance coord_keeps_preorder : PreOrder coord_keeps.
Proof.
  split.
  - intros s. split; [|done]. intros a x Hx. exists x. split; [done|]. by split.
  - intros s1 s2 s3 [H1 H2] [H3 H4]. split; [|auto]. intros a x Hx. destruct (H1 a x Hx) as (x2 & Hx2 & Hc2 & Hs2).
    destruct (H3 a x2 Hx2) as (x3 & Hx3 & Hc3 & Hs3). exists x3. split; [done|]. split; [congruence|lia].
Qed.

Lemma nge_mono a b t : (num a ≥ₙ t) = true -> (a <= b)%Z -> (num b ≥ₙ t) = true.
Proof.
  destruct t as [|[]|m e]; try done. unfold nge, ncompare, num. cbn. rewrite !Z.mul_1_r. intros H Hab.
  pose proof (pow2_pos e). destruct (Z.compare_spec (a * pow2 e) m) as [?|?|?]; [| done|];
  destruct (Z.compare_spec (b * pow2 e) m); try done; nia.
Qed.

Lemma enough_grown x x' : grown x x' -> enough_shares x = true -> enough_shares x' = true.
Proof. unfold enough_shares. intros [-> Hs] H. eapply nge_mono; [exact H|]. lia. Qed.

(** Changes that leave the sessions alone, or only add well-formed ones. *)
Lemma keeps_same s s' :
  fc_objects s' = fc_objects s -> (coord_inv s -> Forall dkg_ok (fc_dkg s').*2) -> coord_keeps s s'.
Proof.
  intros Ho Hd. split.
  - intros a x Hx. exists x. rewrite Ho. split; [done|]. by split.
  - intros Hs. split; [rewrite Ho; apply Hs|auto].
Qed.

Lemma keeps_update a f s :
  (forall x, fc_objects s !! a = Some x -> grown x (f x) /\ (session_ok x -> session_ok (f x))) ->
  coord_keeps s (update_object a f s).
Proof.
  intros Hf. split; cbn.
  - intros b x Hx. destruct (decide (a = b)) as [->|Hne].
    + exists (f x). rewrite list_lookup_alter_eq, Hx. split; [done|]. by apply Hf.
    + exists x. rewrite list_lookup_alter_ne by done. split; [done|]. by split.
  - intros [Ho Hd]. split; [|done]. cbn. apply Forall_lookup. intros b x Hx.
    destruct (decide (a = b)) as [->|Hne].
    + rewrite list_lookup_alter_eq in Hx. destruct (fc_objects s !! b) as [y|] eqn:Ey; [|done]. injection Hx as <-.
      apply Hf; [done|]. by apply (Forall_lookup_1 _ _ _ _ Ho Ey).
    + rewrite list_lookup_alter_ne in Hx by done. by apply (Forall_lookup_1 _ _ _ _ Ho Hx).
Qed.

Lemma size_set_grows (k v : string) m : (jm_size m <= jm_size (jm_set k v m))%nat.
Proof. rewrite jm_size_set. destruct (jm_has k m); lia. Qed.

Lemma open_session_lookup sid s a x :
  open_session_at sid s = Some (a, x) -> fc_objects s !! a = Some x /\ ss_finalized x = false.
Proof. unfold open_session_at. repeat case_match; naive_solver. Qed.

Lemma keeps_commitment sid pk c s : coord_keeps s (submitNonceCommitment sid pk c s).
Proof.
  unfold submitNonceCommitment. destruct (open_session_at sid s) as [[a x]|]; [|done].
  apply keeps_update. intros y _. split; [by split|]. done.
Qed.

Lemma keeps_share sid pk v s : coord_keeps s (submitSignatureShare sid pk v s).
Proof.
  unfold submitSignatureShare. destruct (open_session_at sid s) as [[a x]|]; [|done].
  apply keeps_update. intros y _.
  assert (Hg : grown y (add_share pk v y)) by (split; [done|apply size_set_grows]). split; [done|].
  intros Hy Hf. destruct (Hy Hf) as [He Hsig]. split; [by eapply enough_grown|done].
Qed.

Lemma keeps_finalize a signature s :
  (forall x, fc_objects s !! a = Some x -> enough_shares x = true) -> js_truthy signature = true ->
  coord_keeps s (update_object a (finalize_with signature) s).
Proof.
  intros He Ht. apply keeps_update. intros x Hx. split; [by split|]. intros _ _. split; [exact (He x Hx)|]. by exists signature.
Qed.

Lemma evict_objects now s : fc_objects (evictStaleSessions now s) = fc_objects s.
Proof. unfold evictStaleSessions. by destruct (fold_left _ _ _). Qed.

Lemma evict_dkg now s : Forall dkg_ok (fc_dkg s).*2 -> Forall dkg_ok (fc_dkg (evictStaleSessions now s)).*2.
Proof.
  unfold evictStaleSessions. destruct (fold_left _ _ _). cbn. rewrite !Forall_forall. intros H d Hd. apply H.
  apply list_elem_of_fmap in Hd as (kv & -> & Hkv). apply list_elem_of_fmap. exists kv. split; [done|].
  apply list_elem_of_In, filter_In in Hkv as [Hkv _]. by apply list_elem_of_In.
Qed.

Lemma dkg_set id d (m : list (string * DkgSession)) : dkg_ok d -> Forall dkg_ok m.*2 -> Forall dkg_ok (jm_set id d m).*2.
Proof.
  rewrite !Forall_forall. intros Hd Hm d' Hd'. pose proof (jm_values_set id d m) as Hs.
  eapply elem_of_submseteq in Hd'; [|exact Hs]. apply elem_of_cons in Hd' as [->|Hd']; [done|]. by apply Hm.
Qed.

Lemma keeps_init threshold total id now s :
  num_truthy threshold = true -> (threshold >ₙ total) = false -> coord_keeps s (initDkg threshold total id now s).1.
Proof.
  intros Ht Hle. apply keeps_same; cbn; [apply evict_objects|]. intros [_ Hd]. apply dkg_set; [|by apply evict_dkg].
  split_and!; cbn; [done|done|lia|lia].
Qed.

Lemma keeps_start q m config id now s : coord_keeps s (startSigning q m config id now s).1.
Proof.
  split; cbn; rewrite evict_objects.
  - intros a x Hx. exists x. split; [by apply lookup_app_l_Some|]. by split.
  - intros [Ho Hd]. split; cbn; rewrite ?evict_objects; [|by apply evict_dkg].
    apply Forall_app. split; [done|]. constructor; [|constructor]. intros [=].
Qed.

(** The session a round leaves behind. *)
Lemma dkg_step sid round i p secret s s' r d :
  jm_get sid (fc_dkg s) = Some d -> dkg_ok d -> submitDkgPackage sid round i p secret s = (s', r) ->
  s' = s \/ exists d', s' = set_dkg sid d' s /\ dkg_ok d'.
Proof.
  intros Hd (H1 & H2 & H3). unfold submitDkgPackage. rewrite Hd.
  destruct (Z.eqb round 1); [|destruct (Z.eqb round 2); [|destruct (Z.eqb round 3)]].
  - destruct (dkg_round1 d i p secret) as [d' r'] eqn:E1. intros [= <- _]. right. exists d'. split; [done|].
    unfold dkg_round1 in E1. injection E1 as <- _. split_and!; cbn; try done; destruct (reached _ _); lia.
  - destruct (JSON_parse p) as [v|]; [|intros [= <- _]; by left]. destruct (package_map v) as [m|e]; [|intros [= <- _]; by left].
    destruct (dkg_round2 d i m secret) as [d' r'] eqn:E2. intros [= <- _]. right. exists d'. split; [done|].
    unfold dkg_round2 in E2. injection E2 as <- _. split_and!; cbn; try done; destruct (reached _ _); lia.
  - destruct (dkg_round3 d i p) as [d' r'] eqn:E3. intros [= <- _]. right. exists d'. split; [done|].
    unfold dkg_round3 in E3. destruct (JSON_parse p); injection E3 as <- _; split_and!; cbn; try done; destruct (reached _ _); lia.
  - intros [= <- _]. by left.
Qed.

Lemma keeps_dkg sid round i p secret s : coord_keeps s (submitDkgPackage sid round i p secret s).1.
Proof.
  destruct (submitDkgPackage sid round i p secret s) as [s' r] eqn:Es. cbn.
  destruct (jm_get sid (fc_dkg s)) as [d|] eqn:Hd; [|unfold submitDkgPackage in Es; rewrite Hd in Es; by injection Es as <- _].
  assert (Hobj : fc_objects s' = fc_objects s).
  { unfold submitDkgPackage in Es. rewrite Hd in Es.
    repeat (case_match; try (injection Es as <- _; done)). }
  apply keeps_same; [done|]. intros [_ Hdkg].
  assert (Hok : dkg_ok d). { rewrite Forall_forall in Hdkg. apply Hdkg. by apply jm_get_values in Hd. }
  destruct (dkg_step _ _ _ _ _ _ _ _ _ Hd Hok Es) as [->|(d' & -> & Hd')]; [done|]. by apply dkg_set.
Qed.

(** ** The routes keep to it *)
Notation keeps_wp c s := (call_wp coord_keeps c s (fun _ _ => True)).

Lemma num_of_truthy {B} (f : B -> option number) body n : num_of f body = Some n -> num_truthy n = true.
Proof. unfold num_of. repeat case_match; naive_solver. Qed.

Lemma wp_answer (resp : HttpResponse) s s' : coord_keeps s s' ->
  coord_keeps s (ret resp s').1 /\ task_wp coord_keeps (ret resp s').2 (ret resp s').1 (fun _ _ => True).
Proof. intros H. by split. Qed.

Lemma post_dkg_init_keeps body id now s : keeps_wp (post_dkg_init body id now) s.
Proof.
  apply wp_request; [apply _|]. intros s1 _. unfold call_wp.
  destruct (num_of di_threshold body) as [t|] eqn:Ht; [|by apply wp_answer].
  destruct (num_of di_total body) as [n|]; [|by apply wp_answer].
  destruct (t >ₙ n) eqn:Hle; [by apply wp_answer|].
  pose proof (keeps_init t n id now s1 (num_of_truthy _ _ _ Ht) Hle) as Hk.
  destruct (initDkg t n id now s1) as [s2 session]. by apply wp_answer.
Qed.

Lemma post_dkg_round_keeps sid n body s : keeps_wp (post_dkg_round sid n body) s.
Proof.
  unfold post_dkg_round. destruct (round_of n) as [round|]; [|by apply wp_answer].
  apply wp_request; [apply _|]. intros s1 _. unfold call_wp.
  destruct (num_of db_signer_index body) as [i|]; [|by apply wp_answer].
  destruct (str_of db_package body) as [p|]; [|by apply wp_answer].
  apply wp_await. unfold call_wp.
  pose proof (keeps_dkg sid round i p (b ← body; db_secret_package b) s1) as Hk.
  destruct (submitDkgPackage _ _ _ _ _ s1) as [s2 [r|e]]; (split; [done|]); cbn; [|done].
  intros s3 _. destruct r; by apply wp_answer.
Qed.

Lemma get_dkg_keeps sid s : keeps_wp (get_dkg sid) s.
Proof. unfold call_wp, get_dkg. destruct (getDkgSession sid s); by apply wp_answer. Qed.

Lemma get_sign_keeps sid s : keeps_wp (get_sign sid) s.
Proof. unfold call_wp, get_sign. destruct (getSigningSession sid s); by apply wp_answer. Qed.

Lemma post_sign_keeps config q body id now s : keeps_wp (post_sign config q body id now) s.
Proof.
  apply wp_request; [apply _|]. intros s1 _. unfold call_wp.
  destruct (str_of sb_message body) as [m|]; [|by apply wp_answer]. destruct config as [config|]; [|by apply wp_answer].
  pose proof (keeps_start q m config id now s1) as Hk. destruct (startSigning _ _ _ _ _ s1) as [s2 session]. by apply wp_answer.
Qed.

Lemma post_commitments_keeps q body s : keeps_wp (post_commitments q body) s.
Proof.
  apply wp_request; [apply _|]. intros s1 _. unfold call_wp.
  destruct (str_of su_session_id body) as [sid|]; [|by apply wp_answer].
  destruct (str_of su_signer_pubkey body) as [pk|]; [|by apply wp_answer].
  destruct (str_of su_value body) as [c|]; [|by apply wp_answer].
  apply wp_answer, keeps_commitment.
Qed.

(** The session that had enough shares before the aggregation still has them
    when the signature arrives. *)
Lemma tryAggregate_keeps spawn executor sid pp s :
  (forall a x, open_session_at sid s = Some (a, x) -> enough_shares x = true) ->
  keeps_wp (tryAggregate spawn executor sid pp) s.
Proof.
  intros He. unfold call_wp, tryAggregate. destruct (open_session_at sid s) as [[a x]|] eqn:Ho; [|by split].
  specialize (He a x eq_refl). destruct (_ <ₙ _); [by split|]. destruct (open_session_lookup _ _ _ _ Ho) as [Hx _].
  apply (wp_seq coord_keeps _ _ s (fun _ _ => True)).
  - apply wp_command; [apply _|]. intros cmd t. unfold fc_spawn. destruct (spawn cmd (fc_env t)) as [e o]. cbn.
    apply keeps_same; [done|]. by intros [].
  - intros r s1 s2 HG _ _. unfold call_wp. destruct (cli_data r) as [d|]; [|by split].
    destruct (js_truthy (prop "signature" d)) eqn:Ht; [|by split]. split; [|done]. apply keeps_finalize; [|done].
    intros y Hy. destruct HG as [HG _]. destruct (HG a x Hx) as (y' & Hy' & Hg). simplify_eq. by eapply enough_grown.
Qed.

Lemma post_shares_keeps spawn executor q body s : keeps_wp (post_shares spawn executor q body) s.
Proof.
  apply wp_request; [apply _|]. intros s1 _. unfold call_wp.
  destruct (str_of su_session_id body) as [sid|]; [|by apply wp_answer].
  destruct (str_of su_signer_pubkey body) as [pk|]; [|by apply wp_answer].
  destruct (str_of su_value body) as [v|]; [|by apply wp_answer].
  pose proof (keeps_share sid pk v s1) as Hk. set (s2 := submitSignatureShare sid pk v s1) in *. clearbody s2.
  destruct (jm_get sid (fc_signing s2)) as [a|] eqn:Ha; cbn [mbind option_bind]; [|by apply wp_answer].
  destruct (fc_objects s2 !! a) as [x|] eqn:Hx; [|by apply wp_answer].
  destruct (_ ≥ₙ _) eqn:He; [|by apply wp_answer].
  apply (wp_after coord_keeps); [done|]. apply (wp_seq coord_keeps _ _ s2 (fun _ _ => True)).
  - apply tryAggregate_keeps. intros a' x' Ho. unfold open_session_at in Ho. rewrite Ha, Hx in Ho.
    destruct (ss_finalized x); [done|]. by injection Ho as <- <-.
  - intros r s3 s4 _ _ _. destruct r; by split.
Qed.
End coordinator.

(** ** The server *)
Section server.
Context `{J : JSON} `{N : Noble} `{L : CashuLib} {E : Type}.
Context (spawn : list string -> E -> E * ProcOutcome) (randomUUID : E -> E * string)
  (verifyJson : jsval -> jsval -> jsval -> call E VerificationDetail) (executor : SidecarExecutor).
Notation App := (AppState (E := E)).
Notation app := (buildOracleApp spawn randomUUID verifyJson executor).

Definition app_keeps (s s' : App) : Prop := coord_keeps (ap_coord s) (ap_coord s').

Global Instance app_keeps_preorder : PreOrder app_keeps.
Proof. split; [intros s; unfold app_keeps; reflexivity|]. intros s1 s2 s3 H1 H2. unfold app_keeps in *. by etrans. Qed.

Lemma on_coord_keeps {A} (c : call (CoordState (E := E)) A) s :
  call_wp coord_keeps c (ap_coord s) (fun _ _ => True) -> call_wp app_keeps (on_coord c) s (fun _ _ => True).
Proof. intros H. apply (wp_lift app_keeps ap_coord put_coord coord_keeps c s (fun _ _ => True)); [done| |done]. by intros []. Qed.

Lemma on_signer_keeps {A} (c : call (SignerState (E := E)) A) s : call_wp app_keeps (on_signer c) s (fun _ _ => True).
Proof.
  apply wp_zoom; [apply _|]. intros g t. unfold app_keeps. apply keeps_same; [done|]. by intros [].
Qed.

Lemma guarded_keeps opts req h s :
  guarded_route spawn randomUUID verifyJson executor opts req = Some h -> call_wp app_keeps h s (fun _ _ => True).
Proof.
  destruct req; intros [= <-]; first [apply on_signer_keeps|apply on_coord_keeps].
  - apply post_dkg_init_keeps.
  - apply post_dkg_round_keeps.
  - apply get_dkg_keeps.
  - apply post_sign_keeps.
  - apply post_commitments_keeps.
  - apply post_shares_keeps.
  - apply get_sign_keeps.
Qed.

Lemma auth_keeps key a x (h : call App HttpResponse) s :
  call_wp app_keeps h s (fun _ _ => True) -> call_wp app_keeps (buildAuthMiddleware key a x h) s (fun _ _ => True).
Proof. intros H. unfold buildAuthMiddleware. repeat case_match; try done; by apply wp_ret. Qed.

Lemma request_keeps opts a x req s : call_wp app_keeps (app opts a x req) s (fun _ _ => True).
Proof.
  unfold buildOracleApp. destruct (guarded_route _ _ _ _ opts req) as [h|] eqn:Hh.
  - eapply auth_keeps, guarded_keeps, Hh.
  - destruct req; try discriminate Hh; (split; [reflexivity|exact I]).
Qed.

(** Any request, with any headers. *)
Inductive app_request (opts : OracleAppOptions) : call App HttpResponse -> Prop :=
| any_request a x req : app_request opts (app opts a x req).

(** The rest of the world moves. *)
Definition app_world (s s' : App) : Prop := ap_coord s' = mkCoord (ap_dkg s) (ap_objects s) (ap_signing s) (ap_queries s) (ap_env s').

Definition app_init (e : E) : App := mkApp [] [] [] [] [] [] e.

(** ** Properties *)


(** C29: With a configured, non-empty API key, a request to any of the
    key-generation, signing and signer routes that carries the key neither as
    [Authorization: Bearer <key>] nor as [X-API-Key] is answered with 401 before its
    body is read, and changes nothing: no session, no nonce, no call of the signer
    binary.  Only [/health] and [/info] answer without it. *)
Theorem server_requires_key opts secret a x req s :
  oa_apiKey opts = Some secret -> secret <> "" -> a <> Some ("Bearer " +:+ secret) -> x <> Some secret ->
  req <> GetHealth -> req <> GetInfo ->
  app opts a x req s = ret (http_error 401 (VStr "Unauthorized")) s.
Proof.
  intros Hk Hs Ha Hx H1 H2. unfold buildOracleApp. rewrite Hk.
  destruct (guarded_route _ _ _ _ opts req) as [h|] eqn:Hh; [by apply auth_refuses|]. by destruct req.
Qed.
End server.

(** ** Witnesses: a 2-of-2 group, a binary that aggregates *)
Definition agg_uuid (e : unit) : unit * string := (e, "uuid").
Definition agg_verify (_ _ _ : jsval) : call unit VerificationDetail := ret (mkVerificationDetail true [] [] None None).
Definition agg_options (key : option string) : OracleAppOptions := mkOracleAppOptions None key None (Some group2) None.
Notation agg_app := (buildOracleApp (J := codec) (N := toy_noble) (L := sample_cashu (mkDecoded "" [])) agg_spawn agg_uuid agg_verify agg_executor).
Definition agg_share (pk : string) : call (AppState (E := unit)) HttpResponse :=
  agg_app (agg_options None) None None (PostShares "q1" (Some (mkSubmitBody (Some "frost_1") (Some pk) (Some "s")))).
Definition agg_calls : list (call (AppState (E := unit)) HttpResponse) :=
  [agg_app (agg_options None) None None (PostSign "q1" (Some (mkSignBody (Some "m1"))) "frost_1" (num 1000)); agg_share "a"; agg_share "b"].

Definition agg_final : AppState (E := unit) := foldl (fun s c => (run_call c s).1) (app_init tt) agg_calls.


Lemma server_requires_key_witness :
  agg_app (agg_options (Some "key")) (Some "Bearer guess") None (GetSign "q1") (app_init tt) =
  ret (http_error 401 (VStr "Unauthorized")) (app_init tt).
Proof.
  apply (server_requires_key (J := codec) (N := toy_noble) (L := sample_cashu (mkDecoded "" [])) agg_spawn agg_uuid agg_verify
    agg_executor (agg_options (Some "key")) "key"); first [reflexivity|discriminate].
Defined.

(** The query id of the path is not compared with the session: a share posted
    under one query is counted in, and can finalize, the session of another. *)
Example share_crosses_queries :
  let s := foldl (fun s c => (run_call c s).1) (app_init tt) (take 2 agg_calls) in
  let stray := agg_app (agg_options None) None None
    (PostShares "another-query" (Some (mkSubmitBody (Some "frost_1") (Some "b") (Some "s")))) in
  (fun x => (ss_query_id x, ss_finalized x)) <$> ap_objects (run_call stray s).1 = [("q1", true)].
Proof. vm_compute. reflexivity. Qed.
