(* ===== verification/OracleEvents.v ===== *)
(** * Oracle announcements, discovery and attestations

    [adapters/nostr/events/event-builders.ts] (kind 30088) with its reader and
    relay query [adapters/oracle-client/oracle-discovery.ts], and
    [adapters/nostr/events/oracle-attestation.ts] (kind 30103), with the field
    readers of [internal/runtime/types.ts].  The relay pool is third-party: what
    [querySync] answers is an argument. *)

From S2P Require Import Prelude JsNum JsMap JsString JsValue SchemaUri QueryTypes Samples PreimageStore EventLoop JsonCodec Nostr NostrEvents C2pa.

Definition ORACLE_ANNOUNCEMENT_VERSION : Z := 0.
Definition ORACLE_ATTESTATION_VERSION : Z := 0.

(** ** [internal/runtime/types.ts] *)

(** [isRecord] of this module refuses arrays. *)
Definition isPlainRecord (x : jsval) : bool := match x with VObj _ => true | _ => false end.
Definition isNumber (x : jsval) : bool := match x with VNum n => isFinite n | _ => false end.

Definition requireString (obj : jsval) (key : string) : res string :=
  match prop key obj with
  | VStr s => Ok s
  | _ => Throw (mkExn "TypeError" ("expected " +:+ key +:+ " to be a string"))
  end.

Definition optionalString (obj : jsval) (key : string) : res (option string) :=
  match prop key obj with
  | VUndef | VNull => Ok None
  | VStr s => Ok (Some s)
  | _ => Throw (mkExn "TypeError" ("expected " +:+ key +:+ " to be a string"))
  end.

Definition requireNumber (obj : jsval) (key : string) : res number :=
  match prop key obj with
  | VNum n => if isFinite n then Ok n else Throw (mkExn "TypeError" ("expected " +:+ key +:+ " to be a finite number"))
  | _ => Throw (mkExn "TypeError" ("expected " +:+ key +:+ " to be a finite number"))
  end.

Definition optionalNumber (obj : jsval) (key : string) : res (option number) :=
  match prop key obj with
  | VUndef | VNull => Ok None
  | VNum n => if isFinite n then Ok (Some n) else Throw (mkExn "TypeError" ("expected " +:+ key +:+ " to be a finite number"))
  | _ => Throw (mkExn "TypeError" ("expected " +:+ key +:+ " to be a finite number"))
  end.

(** ** Announcements *)
Definition lock_type_name (t : PaymentLockType) : string :=
  match t with lock_htlc => "htlc" | lock_p2pk_frost => "p2pk_frost" end.

(** [isPaymentLockType], with the value it narrows to. *)
Definition isPaymentLockType (x : jsval) : option PaymentLockType :=
  match x with
  | VStr s => if s === "htlc" then Some lock_htlc else if s === "p2pk_frost" then Some lock_p2pk_frost else None
  | _ => None
  end.

Record OracleAnnouncement := mkAnnouncement {
  an_id : string;
  an_name : string;
  an_endpoint : option string;
  an_fee_ppm : number;
  an_supported_schemas : list string;
  an_supported_payment_lock_types : list PaymentLockType;
  an_min_amount_sats : option number;
  an_max_amount_sats : option number;
  an_description : option string;
  an_pubkey : string;
  an_announced_at : number;
}.

Section announcements.
Context `{U : UrlApi} `{N : NostrLib} `{J : JSON}.

Definition requireSchemaUris (value : jsval) : res (list string) :=
  match as_string_array value with
  | Some l => if forallb isSchemaUri l then Ok l
              else Throw (mkExn "TypeError" "expected supported_schemas to contain HTTPS URLs")
  | None => Throw (mkExn "TypeError" "expected supported_schemas to contain HTTPS URLs")
  end.

Definition requirePaymentLockTypes (value : jsval) : res (list PaymentLockType) :=
  match value with
  | VArr l =>
      match mapM isPaymentLockType l with
      | Some ts => Ok ts
      | None => Throw (mkExn "TypeError" "expected supported_payment_lock_types to contain known values")
      end
  | _ => Throw (mkExn "TypeError" "expected supported_payment_lock_types to contain known values")
  end.

Definition announcement_fields (info : OracleInfo) : list (string * jsval) :=
  [("version", VNum (num ORACLE_ANNOUNCEMENT_VERSION)); ("name", VStr (oi_name info))] ++
  match oi_endpoint info with Some x => [("endpoint", VStr x)] | None => [] end ++
  [("fee_ppm", VNum (oi_fee_ppm info));
   ("supported_schemas", VArr (VStr <$> opt_default [] (oi_supported_schemas info)));
   ("supported_payment_lock_types", VArr (VStr ∘ lock_type_name <$> opt_default [] (oi_supported_payment_lock_types info)))] ++
  match oi_min_amount_sats info with Some x => [("min_amount_sats", VNum x)] | None => [] end ++
  match oi_max_amount_sats info with Some x => [("max_amount_sats", VNum x)] | None => [] end ++
  match oi_description info with Some x => [("description", VStr x)] | None => [] end.

Definition buildOracleAnnouncementEvent (secretKey : list Z) (info : OracleInfo) (relayUrls : option (list string))
    (nowMs : number) : Event :=
  let tags := [["d"; oi_id info]; ["t"; "anchr-oracle"]] ++
              ((fun schema => ["s"; schema]) <$> opt_default [] (oi_supported_schemas info)) ++
              ((fun url => ["relay"; url]) <$> opt_default [] relayUrls) in
  finalizeEvent (mkTemplate KIND_ORACLE_ANNOUNCEMENT (seconds nowMs) (JSON_stringify (VObj (announcement_fields info))) tags)
    secretKey.

(** The object literal of the parser, which throws at the first bad field. *)
Definition read_announcement (id : string) (content : jsval) (event : Event) : res OracleAnnouncement :=
  name ← requireString content "name";
  endpoint ← optionalString content "endpoint";
  fee_ppm ← requireNumber content "fee_ppm";
  schemas ← requireSchemaUris (prop "supported_schemas" content);
  locks ← requirePaymentLockTypes (prop "supported_payment_lock_types" content);
  min_amount ← optionalNumber content "min_amount_sats";
  max_amount ← optionalNumber content "max_amount_sats";
  description ← optionalString content "description";
  Ok (mkAnnouncement id name endpoint fee_ppm schemas locks min_amount max_amount description (ev_pubkey event)
        (ev_created_at event)).

Definition parseOracleAnnouncementEvent (event : Event) : option OracleAnnouncement :=
  match truthy (findTagValue (ev_tags event) "d") with
  | None => None
  | Some id =>
      match JSON_parse (ev_content event) with
      | None => None
      | Some content =>
          if negb (isPlainRecord content) then None
          else if negb (eq_num (prop "version" content) (num ORACLE_ANNOUNCEMENT_VERSION)) then None
          else res_option (read_announcement id content event)
      end
  end.

(** [announcements.sort((a, b) => b.announced_at - a.announced_at)], the stable
    sort, most recent first. *)
Fixpoint insert_recent (a : OracleAnnouncement) (l : list OracleAnnouncement) : list OracleAnnouncement :=
  match l with
  | [] => [a]
  | x :: l' => if an_announced_at x <ₙ an_announced_at a then a :: l else x :: insert_recent a l'
  end.
Definition sort_recent (l : list OracleAnnouncement) : list OracleAnnouncement :=
  fold_left (fun acc a => insert_recent a acc) l [].

Record DiscoveryOptions := mkDiscoveryOptions {
  do_schema : option string;
  do_since : option number;
  do_limit : option number;
}.

Record DiscoveryFilter := mkDiscoveryFilter {
  df_kinds : list Z;
  df_t : list string;
  df_s : option (list string);
  df_since : option number;
  df_limit : option number;
}.

Definition discovery_filter (options : DiscoveryOptions) : DiscoveryFilter :=
  mkDiscoveryFilter [KIND_ORACLE_ANNOUNCEMENT] ["anchr-oracle"] ((fun s => [s]) <$> do_schema options) (do_since options)
    (do_limit options).

(** The pool: a query, closing the relays, and the grace delay after it. *)
Context {E : Type} (querySync : list string -> DiscoveryFilter -> call E (list Event))
  (pool_close : list string -> E -> E) (delay : Z -> call E unit).

Definition RELAY_CLOSE_GRACE_MS : Z := 250.

Definition discoverOracles (relayUrls : list string) (options : DiscoveryOptions) : call E (list OracleAnnouncement) :=
  match relayUrls with
  | [] => ret []
  | _ =>
      try_finally
        (await (querySync relayUrls (discovery_filter options)) (fun events =>
           ret (sort_recent (omap parseOracleAnnouncementEvent events))))
        (fun e => await (delay RELAY_CLOSE_GRACE_MS) ret (pool_close relayUrls e))
  end.
End announcements.

(** ** Attestations *)
Record OracleAttestationPayload := mkAttestationPayload {
  ap_oracle_id : string;
  ap_query_id : string;
  ap_passed : bool;
  ap_checks : list string;
  ap_failures : list string;
  ap_attested_at : number;
  ap_details : jsval;  (* VUndef: absent *)
}.

Section attestations.
Context `{N : NostrLib} `{J : JSON}.

Definition attestation_payload (a : OracleAttestation) : list (string * jsval) :=
  [("version", VNum (num ORACLE_ATTESTATION_VERSION)); ("oracle_id", VStr (oa_oracle_id a)); ("query_id", VStr (oa_query_id a));
   ("passed", VBool (oa_passed a)); ("checks", VArr (VStr <$> oa_checks a)); ("failures", VArr (VStr <$> oa_failures a));
   ("attested_at", VNum (oa_attested_at a)); ("details", opt_field (oa_schema_verdict a))].

Definition buildOracleAttestationEvent (secretKey : list Z) (queryEventId responseEventId : string) (a : OracleAttestation)
    (nowMs : number) : Event :=
  finalizeEvent (mkTemplate KIND_ORACLE_ATTESTATION (seconds nowMs) (JSON_stringify (VObj (attestation_payload a)))
    [["e"; queryEventId]; ["e"; responseEventId]; ["d"; oa_query_id a]; ["t"; "anchr"]; ["t"; "attestation"];
     ["result"; if oa_passed a then "pass" else "fail"]]) secretKey.

(** [isOracleAttestationPayload], with what it narrows to. *)
Definition isOracleAttestationPayload (value : jsval) : option OracleAttestationPayload :=
  if negb (isRecord value) || negb (eq_num (prop "version" value) (num ORACLE_ATTESTATION_VERSION)) then None
  else
  match prop "oracle_id" value, prop "query_id" value, prop "passed" value, as_string_array (prop "checks" value),
        as_string_array (prop "failures" value), prop "attested_at" value with
  | VStr oracle_id, VStr query_id, VBool passed, Some checks, Some failures, VNum attested_at =>
      Some (mkAttestationPayload oracle_id query_id passed checks failures attested_at (prop "details" value))
  | _, _, _, _, _, _ => None
  end.

Definition parseOracleAttestationPayload (content : string) : res OracleAttestationPayload :=
  match JSON_parse content with
  | None => Throw (mkExn "SyntaxError" "Unexpected token in JSON")
  | Some parsed =>
      match isOracleAttestationPayload parsed with
      | Some p => Ok p
      | None => Throw (mkExn "Error" "invalid OracleAttestationPayload")
      end
  end.

Definition toOracleAttestation (p : OracleAttestationPayload) : OracleAttestation :=
  mkAttestation (ap_oracle_id p) (ap_query_id p) (ap_passed p) (ap_checks p) (ap_failures p) (ap_attested_at p)
    (match ap_details p with VUndef => None | v => Some v end).
End attestations.

(** ** Oracle announcements, discovery and attestations: properties *)

(** ** Reading back what was written *)

(** The normal form of an array of strings. *)
Lemma json_norm_strings l : json_norm (VArr (VStr <$> l)) = VArr (VStr <$> l).
Proof.
  change (json_norm (VArr (VStr <$> l))) with
    (VArr (map (fun x => match x with VUndef | VFun => VNull | _ => json_norm x end) (VStr <$> l))).
  f_equal. induction l as [|s l IH]; [done|]. rewrite !fmap_cons. cbn [map]. f_equal. exact IH.
Qed.

Lemma lock_types_parse ts : mapM isPaymentLockType (VStr <$> (lock_type_name <$> ts)) = Some ts.
Proof. apply mapM_Some_2. induction ts as [|t ts IH]; [constructor|]. constructor; [by destruct t|done]. Qed.

(** Reading a field of a serialized object none of whose fields is dropped. *)
Lemma prop_norm_assoc k o :
  Forall (fun kv => keep_field kv.2 = true) o ->
  prop k (json_norm (VObj o)) = opt_default VUndef (json_norm <$> assoc k o).
Proof.
  induction 1 as [|[k' v] o Hv _ IH]; [done|]. cbn [snd] in Hv. cbn [assoc].
  destruct (bool_decide_reflect (k = k')) as [->|Hne].
  - by rewrite prop_json_norm_here.
  - by rewrite prop_json_norm_skip.
Qed.

Lemma read_string_field k o s :
  Forall (fun kv => keep_field kv.2 = true) o -> assoc k o = Some (VStr s) -> requireString (json_norm (VObj o)) k = Ok s.
Proof. intros Ho Hk. unfold requireString. by rewrite prop_norm_assoc, Hk. Qed.

Lemma read_opt_string_field k o s :
  Forall (fun kv => keep_field kv.2 = true) o -> assoc k o = VStr <$> s -> optionalString (json_norm (VObj o)) k = Ok s.
Proof. intros Ho Hk. unfold optionalString. rewrite prop_norm_assoc, Hk by done. by destruct s. Qed.

Lemma read_number_field k o n :
  Forall (fun kv => keep_field kv.2 = true) o -> assoc k o = Some (VNum n) -> isFinite n = true ->
  requireNumber (json_norm (VObj o)) k = Ok n.
Proof. intros Ho Hk Hn. unfold requireNumber. rewrite prop_norm_assoc, Hk by done. cbn. by rewrite Hn, Hn. Qed.

Lemma read_opt_number_field k o n :
  Forall (fun kv => keep_field kv.2 = true) o -> assoc k o = VNum <$> n -> (forall x, n = Some x -> isFinite x = true) ->
  optionalNumber (json_norm (VObj o)) k = Ok n.
Proof.
  intros Ho Hk Hn. unfold optionalNumber. rewrite prop_norm_assoc, Hk by done. destruct n as [n|]; [|done].
  specialize (Hn n eq_refl). cbn. by rewrite Hn, Hn.
Qed.

Lemma announcement_kept info : Forall (fun kv => keep_field kv.2 = true) (announcement_fields info).
Proof. destruct info as [? ? [] ? ? ? [] [] []]; repeat constructor. Qed.

Lemma announcement_assoc info :
  assoc "version" (announcement_fields info) = Some (VNum (num ORACLE_ANNOUNCEMENT_VERSION)) /\
  assoc "name" (announcement_fields info) = Some (VStr (oi_name info)) /\
  assoc "endpoint" (announcement_fields info) = VStr <$> oi_endpoint info /\
  assoc "fee_ppm" (announcement_fields info) = Some (VNum (oi_fee_ppm info)) /\
  assoc "supported_schemas" (announcement_fields info) = Some (VArr (VStr <$> opt_default [] (oi_supported_schemas info))) /\
  assoc "supported_payment_lock_types" (announcement_fields info) =
    Some (VArr (VStr <$> (lock_type_name <$> opt_default [] (oi_supported_payment_lock_types info)))) /\
  assoc "min_amount_sats" (announcement_fields info) = VNum <$> oi_min_amount_sats info /\
  assoc "max_amount_sats" (announcement_fields info) = VNum <$> oi_max_amount_sats info /\
  assoc "description" (announcement_fields info) = VStr <$> oi_description info.
Proof.
  destruct info as [? ? [] ? ? ? [] [] []]; split_and!; try reflexivity; cbv [announcement_fields]; cbn; by rewrite list_fmap_compose.
Qed.

Section roundtrips.
Context `{U : UrlApi} `{N : NostrLib} `{J : JSON} `{!NostrLaws N} `{!JSONLaws J}.

(** An announcement read back by whoever discovers the oracle is what the
    oracle described, with absent lists read as empty, attributed to the key
    that signed it. *)
Theorem announcement_roundtrip sk info relays now :
  json_ok (VObj (announcement_fields info)) -> oi_id info <> "" -> isFinite (oi_fee_ppm info) = true ->
  forallb isSchemaUri (opt_default [] (oi_supported_schemas info)) = true ->
  (forall x, oi_min_amount_sats info = Some x -> isFinite x = true) ->
  (forall x, oi_max_amount_sats info = Some x -> isFinite x = true) ->
  parseOracleAnnouncementEvent (buildOracleAnnouncementEvent sk info relays now) =
  Some (mkAnnouncement (oi_id info) (oi_name info) (oi_endpoint info) (oi_fee_ppm info)
          (opt_default [] (oi_supported_schemas info)) (opt_default [] (oi_supported_payment_lock_types info))
          (oi_min_amount_sats info) (oi_max_amount_sats info) (oi_description info) (getPublicKey sk) (seconds now)).
Proof.
  intros Hok Hid Hfee Hs Hmin Hmax. unfold parseOracleAnnouncementEvent, buildOracleAnnouncementEvent.
  match goal with |- context [finalizeEvent ?t sk] => destruct (finalize_keeps t sk) as (_ & Hc & Ht & Hat & Hpk);
    set (ev := finalizeEvent t sk) in *; clearbody ev end.
  rewrite Hc, Ht. cbn [et_tags et_content app findTagValue lookup list_lookup]. rewrite bool_decide_true by done.
  rewrite (proj2 (truthy_Some (Some (oi_id info)) (oi_id info))) by done.
  rewrite (parse_stringify (VObj (announcement_fields info))) by done.
  destruct (json_norm_obj (announcement_fields info)) as [o' Ho'].
  rewrite Ho'. cbn [isPlainRecord negb]. rewrite <- Ho'. clear Ho' o' Hok.
  destruct (announcement_assoc info) as (A1 & A2 & A3 & A4 & A5 & A6 & A7 & A8 & A9).
  pose proof (announcement_kept info) as Hkept.
  rewrite (prop_norm_assoc "version") by apply announcement_kept.
  rewrite A1. cbn [opt_default fmap option_fmap option_map].
  unfold read_announcement.
  rewrite (read_string_field _ _ _ Hkept A2). cbn [mbind res_bind].
  rewrite (read_opt_string_field _ _ _ Hkept A3). cbn [mbind res_bind].
  rewrite (read_number_field _ _ _ Hkept A4 Hfee). cbn [mbind res_bind].
  rewrite !(prop_norm_assoc "supported_schemas"), !(prop_norm_assoc "supported_payment_lock_types") by apply announcement_kept.
  rewrite A5, A6.
  cbn [opt_default fmap option_fmap option_map]. rewrite !json_norm_strings.
  unfold requireSchemaUris. cbn [as_string_array]. rewrite all_strings_map, Hs. cbn [mbind res_bind].
  unfold requirePaymentLockTypes. rewrite lock_types_parse. cbn [mbind res_bind].
  rewrite (read_opt_number_field _ _ _ Hkept A7 Hmin). cbn [mbind res_bind].
  rewrite (read_opt_number_field _ _ _ Hkept A8 Hmax). cbn [mbind res_bind].
  rewrite (read_opt_string_field _ _ _ Hkept A9). cbn [mbind res_bind].
  rewrite Hat, Hpk. reflexivity.
Qed.

(** An attestation read back from its event is the one attested, its schema
    verdict as serialization keeps it, under the oracle's key and with a
    [result] tag that says the same as the payload. *)
Theorem attestation_roundtrip sk queryEvent responseEvent a now :
  json_ok (VObj (attestation_payload a)) -> isFinite (oa_attested_at a) = true ->
  (forall v, oa_schema_verdict a = Some v -> keep_field v = true) ->
  let event := buildOracleAttestationEvent sk queryEvent responseEvent a now in
  ev_pubkey event = getPublicKey sk /\ findAllTagValues (ev_tags event) "result" = [if oa_passed a then "pass" else "fail"] /\
  (p ← parseOracleAttestationPayload (ev_content event); Ok (toOracleAttestation p)) =
    Ok (mkAttestation (oa_oracle_id a) (oa_query_id a) (oa_passed a) (oa_checks a) (oa_failures a) (oa_attested_at a)
          (json_norm <$> oa_schema_verdict a)).
Proof.
  intros Hok Hat Hv. unfold buildOracleAttestationEvent. cbv zeta.
  match goal with |- context [finalizeEvent ?t sk] => destruct (finalize_keeps t sk) as (_ & Hc & Ht & _ & Hpk) end.
  rewrite Hc, Ht, Hpk. cbn [et_content et_tags]. split; [done|]. split; [done|].
  unfold parseOracleAttestationPayload. rewrite (parse_stringify (VObj (attestation_payload a))) by done.
  unfold isOracleAttestationPayload. destruct (json_norm_obj (attestation_payload a)) as [o' Ho'].
  rewrite Ho' at 1. cbn [isRecord negb orb]. clear Ho' o'. unfold attestation_payload.
  rewrite (prop_json_norm_here "version") by done. change (eq_num _ _) with true. cbn [negb].
  rewrite !(prop_json_norm_skip _ "version") by done. rewrite (prop_json_norm_here "oracle_id") by done.
  rewrite !(prop_json_norm_skip _ "oracle_id") by done. rewrite (prop_json_norm_here "query_id") by done.
  rewrite !(prop_json_norm_skip _ "query_id") by done. rewrite (prop_json_norm_here "passed") by done.
  rewrite !(prop_json_norm_skip _ "passed") by done. rewrite (prop_json_norm_here "checks") by done.
  rewrite !(prop_json_norm_skip _ "checks") by done. rewrite (prop_json_norm_here "failures") by done.
  rewrite !(prop_json_norm_skip _ "failures") by done. rewrite (prop_json_norm_here "attested_at") by done.
  rewrite !(prop_json_norm_skip _ "attested_at") by done. rewrite !json_norm_strings, json_norm_num by done.
  cbn [as_string_array]. rewrite !all_strings_map. cbn [mbind res_bind]. unfold toOracleAttestation.
  cbn [ap_oracle_id ap_query_id ap_passed ap_checks ap_failures ap_attested_at ap_details]. do 2 f_equal.
  destruct (oa_schema_verdict a) as [v|]; cbn [opt_field opt_default]; [|by rewrite prop_json_norm_drop].
  specialize (Hv v eq_refl). rewrite prop_json_norm_here by done. by destruct v as [| | |n| | | |]; try done; cbn; destruct (isFinite n).
Qed.
End roundtrips.

(** ** Discovery *)
Lemma insert_recent_perm a l : insert_recent a l ≡ₚ a :: l.
Proof.
  induction l as [|x l IH]; [done|]. cbn [insert_recent]. destruct (_ <ₙ _); [done|]. rewrite IH. apply Permutation_swap.
Qed.

Lemma sort_recent_perm l : sort_recent l ≡ₚ l.
Proof.
  unfold sort_recent. assert (Hgen : forall acc, fold_left (fun acc a => insert_recent a acc) l acc ≡ₚ l ++ acc).
  { induction l as [|a l IH]; intros acc; [done|]. cbn [fold_left app]. rewrite IH, insert_recent_perm.
    by rewrite Permutation_middle. }
  by rewrite (Hgen []), app_nil_r.
Qed.

(** Most recent first. *)
Definition recent_first (a b : OracleAnnouncement) : Prop := (an_announced_at a <ₙ an_announced_at b) = false.

Lemma insert_recent_sorted a l :
  Forall (fun x => isFinite (an_announced_at x) = true) (a :: l) ->
  StronglySorted recent_first l -> StronglySorted recent_first (insert_recent a l).
Proof.
  intros Hf Hs. induction Hs as [|x l Hs IH Hx]; [repeat constructor|]. cbn [insert_recent].
  apply Forall_cons in Hf as [Ha Hf]. pose proof Hf as Hf'. apply Forall_cons in Hf' as [Hfx Hfl].
  destruct (an_announced_at x <ₙ an_announced_at a) eqn:Hlt.
  - constructor; [by constructor|]. constructor; [by apply nlt_asym|]. rewrite Forall_forall in *.
    intros y Hy. apply (ncompare_finite_trans _ (an_announced_at x)); [done|done|by apply Hfl|by apply nlt_asym|by apply Hx].
  - constructor; [by apply IH; constructor|]. rewrite insert_recent_perm. by constructor.
Qed.

Lemma sort_recent_sorted l :
  Forall (fun x => isFinite (an_announced_at x) = true) l -> StronglySorted recent_first (sort_recent l).
Proof.
  intros Hf. unfold sort_recent.
  assert (Hgen : forall acc, Forall (fun x => isFinite (an_announced_at x) = true) acc -> StronglySorted recent_first acc ->
    StronglySorted recent_first (fold_left (fun acc a => insert_recent a acc) l acc)).
  { induction Hf as [|a l Ha Hl IH]; intros acc Hacc Hs; [done|]. cbn [fold_left]. apply IH.
    - rewrite insert_recent_perm. by constructor.
    - apply insert_recent_sorted; [by constructor|done]. }
  by apply Hgen; constructor.
Qed.

Section discovery.
Context `{U : UrlApi} `{J : JSON} {E : Type}.
Context (querySync : list string -> DiscoveryFilter -> call E (list Event))
  (pool_close : list string -> E -> E) (delay : Z -> call E unit).

Lemma announcement_time ev a : parseOracleAnnouncementEvent ev = Some a -> an_announced_at a = ev_created_at ev.
Proof.
  unfold parseOracleAnnouncementEvent. destruct (truthy _) as [id|]; [|done]. destruct (JSON_parse _) as [c|]; [|done].
  destruct (negb _); [done|]. destruct (negb _); [done|].
  destruct (read_announcement id c ev) as [a'|] eqn:Hr; [|done]. intros [= <-]. unfold read_announcement in Hr.
  repeat (apply bind_Ok in Hr as (? & _ & Hr)). by injection Hr as <-.
Qed.

(** Discovery returns exactly the well-formed announcements among the events the
    relays answered, most recent first. *)
Theorem discovery_exact R relays options e l :
  relays <> [] -> outcome R (discoverOracles querySync pool_close delay relays options) e (Ok l) ->
  exists events, outcome R (querySync relays (discovery_filter options)) e (Ok events) /\
    l ≡ₚ omap parseOracleAnnouncementEvent events /\
    (Forall (fun ev => isFinite (ev_created_at ev) = true) events -> StronglySorted recent_first l).
Proof.
  intros Hne H. unfold discoverOracles in H. destruct relays as [|r relays]; [done|].
  apply outcome_finally, outcome_await in H as (events & e1 & He & _ & H). apply outcome_ret in H as [= ->].
  exists events. split; [done|]. split; [apply sort_recent_perm|]. intros Hf. apply sort_recent_sorted.
  apply Forall_forall. intros a (ev & Hev & Ha)%list_elem_of_omap. rewrite (announcement_time _ _ Ha).
  by apply (proj1 (Forall_forall _ _) Hf).
Qed.

(** The connections are closed on every path: whatever the query did, the last
    things that happen are the close and the grace delay after it. *)
Theorem discovery_closes relays options e :
  relays <> [] ->
  exists e1, (run_call (discoverOracles querySync pool_close delay relays options) e).1 =
    (run_call (delay RELAY_CLOSE_GRACE_MS) (pool_close relays e1)).1.
Proof.
  intros Hne. unfold discoverOracles. destruct relays as [|r relays]; [done|]. unfold try_finally.
  rewrite run_call_await, run_settle.
  match goal with |- context [let '(_, _) := run_call ?c e in _] => destruct (run_call c e) as [e1 res] end.
  exists e1. rewrite run_call_await.
  change (run_call (fun e => await (delay RELAY_CLOSE_GRACE_MS) ret (pool_close (r :: relays) e)) e1) with
    (run_call (await (delay RELAY_CLOSE_GRACE_MS) ret) (pool_close (r :: relays) e1)).
  rewrite run_call_await. destruct (run_call (delay RELAY_CLOSE_GRACE_MS) _) as [e2 [u|x]]; done.
Qed.
End discovery.

(** ** Witnesses *)
Definition announced_info : OracleInfo :=
  mkOracleInfo "o1" "Oracle" None (num 50) (Some ["https://anchr.dev/spec/proof/tlsn/v0"]) (Some [lock_htlc]) None (Some (num 9)) None.

Definition sample_announcement : OracleAnnouncement :=
  mkAnnouncement "o1" "Oracle" None (num 50) ["https://anchr.dev/spec/proof/tlsn/v0"] [lock_htlc] None (Some (num 9)) None "pk7" (num 5).

Lemma announcement_roundtrip_witness :
  parseOracleAnnouncementEvent (U := sample_urls) (J := codec)
    (buildOracleAnnouncementEvent (N := toy_nostr) (J := codec) [7]%Z announced_info None (num 5000)) = Some sample_announcement.
Proof.
  apply (announcement_roundtrip (U := sample_urls) (N := toy_nostr) (J := codec) (NostrLaws0 := toy_nostr_laws)
    (JSONLaws0 := codec_laws) [7]%Z announced_info None (num 5000)).
  - vm_compute. reflexivity.
  - discriminate.
  - reflexivity.
  - vm_compute. reflexivity.
  - intros x [=].
  - intros x [= <-]. reflexivity.
Defined.

Definition passed_attestation : OracleAttestation := mkAttestation "o1" "q1" true ["c"] [] (num 3) (Some (VBool true)).

Lemma attestation_roundtrip_witness :
  let event := buildOracleAttestationEvent (N := toy_nostr) (J := codec) [7]%Z "e1" "e2" passed_attestation (num 5000) in
  ev_pubkey event = "pk7" /\ findAllTagValues (ev_tags event) "result" = ["pass"] /\
  (p ← parseOracleAttestationPayload (J := codec) (ev_content event); Ok (toOracleAttestation p)) = Ok passed_attestation.
Proof.
  apply (attestation_roundtrip (N := toy_nostr) (J := codec) (NostrLaws0 := toy_nostr_laws)
    (JSONLaws0 := codec_laws) [7]%Z "e1" "e2" passed_attestation (num 5000)).
  - vm_compute. reflexivity.
  - reflexivity.
  - intros v [= <-]. reflexivity.
Defined.

Definition two_announcements : list Event :=
  [buildOracleAnnouncementEvent (N := toy_nostr) (J := codec) [7]%Z announced_info None (num 5000);
   buildOracleAnnouncementEvent (N := toy_nostr) (J := codec) [8]%Z announced_info None (num 9000)].
Definition toy_query (_ : list string) (_ : DiscoveryFilter) : call nat (list Event) := ret two_announcements.
Definition toy_delay (_ : Z) : call nat unit := ret tt.
Definition toy_discovered : list OracleAnnouncement :=
  sort_recent (omap (parseOracleAnnouncementEvent (U := sample_urls) (J := codec)) two_announcements).

Lemma discovery_exact_witness :
  exists events, outcome (fun _ => True) (toy_query ["r"] (discovery_filter (mkDiscoveryOptions None None None))) 1 (Ok events) /\
    toy_discovered ≡ₚ omap (parseOracleAnnouncementEvent (U := sample_urls) (J := codec)) events /\
    (Forall (fun ev => isFinite (ev_created_at ev) = true) events -> StronglySorted recent_first toy_discovered).
Proof.
  apply (discovery_exact (U := sample_urls) (J := codec) toy_query (fun _ => pred) toy_delay); [discriminate|].
  apply run_call_outcome. reflexivity.
Defined.

Lemma discovery_closes_witness :
  exists e1, (run_call (discoverOracles (U := sample_urls) (J := codec) toy_query (fun _ => pred) toy_delay ["r"]
      (mkDiscoveryOptions None None None)) 1).1 = (run_call (toy_delay RELAY_CLOSE_GRACE_MS) (pred e1)).1.
Proof. apply (discovery_closes (U := sample_urls) (J := codec) toy_query (fun _ => pred) toy_delay). discriminate. Defined.
