(* ===== verification/Config.v ===== *)
(** * Configuration from the environment

    [packages/sdk/src/internal/runtime/config.ts] and the level selection of
    [logger.ts].  The environment is a function that may throw (a process without
    permission to read it); [join] of [node:path] and the default data directory
    are arguments. *)

From S2P Require Import Prelude JsNum JsMap JsString JsValue SchemaUri EventLoop QueryTypes PreimageStore Nostr C2pa UrlValidation Blossom Attachments.

Definition EnvReader := string -> option string.

(** [Deno.env.get] inside [try]. *)
Definition readServerEnv (env : string -> res (option string)) : EnvReader := fun name =>
  match env name with Ok v => v | Throw _ => None end.

Definition readNumberEnv (readEnv : EnvReader) (name : string) (fallback : number) : number :=
  match truthy (readEnv name) with
  | None => fallback
  | Some value =>
      let parsed := js_Number value in
      if negb (isFinite parsed) || (parsed ≤ₙ num 0) then fallback else parsed
  end.

(** [value.split(",").map((item) => item.trim()).filter(Boolean)] *)
Definition list_items (value : string) : list string := List.filter str_truthy (trim <$> js_split 44 value).

Fixpoint readStringListEnv (readEnv : EnvReader) (names : list string) : list string :=
  match names with
  | [] => []
  | name :: names' =>
      match truthy (readEnv name) with
      | None => readStringListEnv readEnv names'
      | Some value => list_items value
      end
  end.

Fixpoint readFirstEnv (readEnv : EnvReader) (names : list string) : option string :=
  match names with
  | [] => None
  | name :: names' => match readEnv name with Some v => Some v | None => readFirstEnv readEnv names' end
  end.

Record RuntimeConfig := mkRuntimeConfig {
  rc_httpApiPort : number;
  rc_previewMaxDimension : number;
  rc_previewJpegQuality : number;
  rc_httpApiKeys : list string;
  rc_trustedOraclePubkeys : list string;
  rc_preimageStorePath : string;
}.

Record OracleNostrRuntimeConfig := mkOracleNostrConfig { on_secretKeyHex : option string; on_relayUrls : list string }.

Section config.
Context (join : string -> string -> string) (DEFAULT_RUNTIME_DATA_DIR : string).

(** [readEnv(name)?.trim() || undefined] *)
Definition trimmed (readEnv : EnvReader) (name : string) : option string := truthy (trim <$> readEnv name).

Definition resolveRuntimeConfig (readEnv : EnvReader) : RuntimeConfig :=
  let runtimeDataDir := opt_default DEFAULT_RUNTIME_DATA_DIR (readEnv "RUNTIME_DATA_DIR") in
  mkRuntimeConfig
    (readNumberEnv readEnv "HTTP_API_PORT" (readNumberEnv readEnv "PORT" (num 3000)))
    (readNumberEnv readEnv "PREVIEW_MAX_DIMENSION" (num 768))
    (readNumberEnv readEnv "PREVIEW_JPEG_QUALITY" (num 75))
    (readStringListEnv readEnv ["HTTP_API_KEYS"; "HTTP_API_KEY"])
    (readStringListEnv readEnv ["TRUSTED_ORACLE_PUBKEYS"])
    (opt_default (join runtimeDataDir "preimages.json") (trimmed readEnv "PREIMAGE_STORE_PATH")).
End config.

(** ** The sections of [serverConfigPort] *)
Definition logging_level (readEnv : EnvReader) : option string := readFirstEnv readEnv ["ANCHR_LOG_LEVEL"; "LOG_LEVEL"].

Definition attachments_config (readEnv : EnvReader) : AttachmentRuntimeConfig :=
  mkAttachmentConfig (readFirstEnv readEnv ["ATTACHMENT_PUBLIC_BASE_URL"; "PUBLIC_BASE_URL"])
    (bool_decide (readEnv "ANCHR_ALLOW_LOCALHOST_ATTACHMENTS" = Some "1"))
    (strip_slashes <$> readStringListEnv readEnv ["BLOSSOM_SERVERS"]).

Definition oracleNostr_config (readEnv : EnvReader) : OracleNostrRuntimeConfig :=
  mkOracleNostrConfig (trimmed readEnv "ORACLE_NOSTR_SECRET_KEY") (readStringListEnv readEnv ["NOSTR_RELAYS"]).

Definition cashu_mintUrl (readEnv : EnvReader) : option string := trimmed readEnv "CASHU_MINT_URL".

(** The port: each section is read when it is asked for. *)
Record LoggingRuntimeConfig := mkLoggingConfig { lc_logLevel : option string }.
Record CashuRuntimeConfig := mkCashuConfig { cc_mintUrl : option string }.
Record AnchrConfigPort := mkConfigPort {
  cp_runtime : unit -> RuntimeConfig;
  cp_logging : unit -> LoggingRuntimeConfig;
  cp_attachments : unit -> AttachmentRuntimeConfig;
  cp_oracleNostr : unit -> OracleNostrRuntimeConfig;
  cp_cashu : unit -> CashuRuntimeConfig;
}.

Definition serverConfigPort (join : string -> string -> string) (dataDir : string) (env : string -> res (option string)) : AnchrConfigPort :=
  let readEnv := readServerEnv env in
  mkConfigPort (fun _ => resolveRuntimeConfig join dataDir readEnv) (fun _ => mkLoggingConfig (logging_level readEnv))
    (fun _ => attachments_config readEnv) (fun _ => oracleNostr_config readEnv) (fun _ => mkCashuConfig (cashu_mintUrl readEnv)).

(** ** [logger.ts] *)
Definition LEVEL_ALIASES : list (string * string) :=
  [("trace", "trace"); ("debug", "debug"); ("info", "info"); ("warn", "warning"); ("warning", "warning"); ("error", "error");
   ("fatal", "fatal")].

(** [LEVEL_ALIASES[raw]] also finds what the object inherits; of the inherited
    names only these are lower case. *)
Definition level_alias (raw : string) : option jsval :=
  match jm_get raw LEVEL_ALIASES with
  | Some l => Some (VStr l)
  | None => if raw === "constructor" then Some VFun else if raw === "__proto__" then Some (VObj []) else None
  end.

Definition configuredLogLevel (logLevel : option string) : jsval :=
  match logLevel with
  | Some l => opt_default (VStr "info") (level_alias (toLowerCase (trim l)))
  | None => VStr "info"
  end.

(** ** Lemmas *)
Lemma drop_space_app_ns l c l' : is_space c = false -> drop_space (l ++ c :: l') = drop_space l ++ c :: l'.
Proof. intros Hc. induction l as [|a l IH]; cbn; [by rewrite Hc|]. destruct (is_space a); [done|done]. Qed.

Lemma drop_space_fix l : (forall c l', l = c :: l' -> is_space c = false) -> drop_space l = l.
Proof. destruct l as [|c l]; [done|]. intros H. cbn. by rewrite (H c l). Qed.

(** Trimming twice is trimming once. *)
Lemma trim_idem s : trim (trim s) = trim s.
Proof.
  unfold trim. rewrite !chars_of_chars. set (l := drop_space (chars s)).
  assert (Hl : forall c l', l = c :: l' -> is_space c = false) by (intros c l' E; by eapply drop_space_head).
  assert (Hr : forall c l', drop_space (rev l) = c :: l' -> is_space c = false) by (intros c l' E; by eapply drop_space_head).
  clearbody l.
  assert (Hhead : drop_space (rev (drop_space (rev l))) = rev (drop_space (rev l))).
  { destruct l as [|c l]; [done|]. specialize (Hl c l eq_refl). cbn [rev]. rewrite drop_space_app_ns by done.
    rewrite rev_app_distr. cbn. by rewrite Hl. }
  rewrite Hhead, rev_involutive. f_equal. f_equal. by apply drop_space_fix.
Qed.

Lemma list_items_clean value : Forall (fun s => s <> "" /\ trim s = s) (list_items value).
Proof.
  apply Forall_forall. intros s Hs. unfold list_items in Hs. apply list_elem_of_In, filter_In in Hs as [Hs Ht].
  split; [intros ->; done|]. apply list_elem_of_In, list_elem_of_fmap in Hs as (x & -> & _). apply trim_idem.
Qed.

Lemma list_env_clean readEnv names : Forall (fun s => s <> "" /\ trim s = s) (readStringListEnv readEnv names).
Proof. induction names as [|n names IH]; [constructor|]. cbn. destruct (truthy _); [apply list_items_clean|done]. Qed.

Lemma number_env_positive readEnv name fallback :
  isFinite fallback = true -> (num 0 <ₙ fallback) = true ->
  isFinite (readNumberEnv readEnv name fallback) = true /\ (num 0 <ₙ readNumberEnv readEnv name fallback) = true.
Proof.
  intros H1 H2. unfold readNumberEnv. destruct (truthy _) as [v|]; [|done]. cbv zeta. set (x := js_Number v). clearbody x.
  destruct (isFinite x) eqn:Hf; [|done]. destruct (x ≤ₙ num 0) eqn:Hle; [done|]. cbn [negb orb]. split; [done|].
  destruct x as [| |m e]; try done. unfold nle, nlt, num in *. cbn [ncompare] in *.
  destruct (Z.compare_spec (m * pow2 0) (0 * pow2 e)); try done.
  destruct (Z.compare_spec (0 * pow2 e) (m * pow2 0)); (done || lia).
Qed.

(** ** Properties *)

(** C32: Whatever the environment holds, the resolved configuration is usable: the
    port and the preview settings are finite positive numbers, lists hold trimmed
    non-empty entries, and the preimage file has a path if the default has one. *)
Theorem runtime_config_well_formed join dir readEnv :
  (forall d, join d "preimages.json" <> "") ->
  let c := resolveRuntimeConfig join dir readEnv in
  Forall (fun n => isFinite n = true /\ (num 0 <ₙ n) = true) [rc_httpApiPort c; rc_previewMaxDimension c; rc_previewJpegQuality c] /\
  Forall (fun s => s <> "" /\ trim s = s) (rc_httpApiKeys c ++ rc_trustedOraclePubkeys c) /\
  rc_preimageStorePath c <> "".
Proof.
  intros Hj c. split_and!.
  - repeat (apply Forall_cons; split); [..|by apply List.Forall_nil]; apply number_env_positive; try done;
      by apply number_env_positive.
  - apply Forall_app. split; apply list_env_clean.
  - unfold c, resolveRuntimeConfig, trimmed. cbn [rc_preimageStorePath].
    destruct (truthy _) as [p|] eqn:Hp; [|apply Hj]. by apply truthy_Some in Hp as [_ ?].
Qed.

(** The first listed variable that is set to a non-empty text decides a list,
    even when it holds no entry: a blank [HTTP_API_KEYS] hides [HTTP_API_KEY]. *)
Theorem first_variable_decides readEnv names1 name names2 value :
  Forall (fun n => truthy (readEnv n) = None) names1 -> truthy (readEnv name) = Some value ->
  readStringListEnv readEnv (names1 ++ name :: names2) = list_items value.
Proof. intros H Hn. induction H as [|n names1 Hn1 _ IH]; cbn; [by rewrite Hn|]. by rewrite Hn1. Qed.

Lemma runtime_config_well_formed_witness :
  let c := resolveRuntimeConfig (fun d f => d +:+ "/" +:+ f) "/data" (fun n => if n === "PORT" then Some "-1" else None) in
  Forall (fun n => isFinite n = true /\ (num 0 <ₙ n) = true) [rc_httpApiPort c; rc_previewMaxDimension c; rc_previewJpegQuality c] /\
  Forall (fun s => s <> "" /\ trim s = s) (rc_httpApiKeys c ++ rc_trustedOraclePubkeys c) /\
  rc_preimageStorePath c <> "".
Proof.
  apply (runtime_config_well_formed (fun d f => d +:+ "/" +:+ f) "/data" (fun n => if n === "PORT" then Some "-1" else None)).
  intros d. by destruct d.
Defined.

Lemma first_variable_decides_witness :
  readStringListEnv (fun n => if n === "HTTP_API_KEYS" then Some " , " else Some "key") ["HTTP_API_KEYS"; "HTTP_API_KEY"] = [].
Proof.
  apply (first_variable_decides (fun n => if n === "HTTP_API_KEYS" then Some " , " else Some "key") [] "HTTP_API_KEYS"
    ["HTTP_API_KEY"] " , "); [constructor|reflexivity].
Defined.

Example config_ex :
  let env n := if n === "HTTP_API_PORT" then Some "abc" else if n === "PORT" then Some " 8080 "
    else if n === "BLOSSOM_SERVERS" then Some "https://a.b//, ,https://c" else None in
  let c := resolveRuntimeConfig (fun d f => d +:+ "/" +:+ f) "/data" env in
  (rc_httpApiPort c, ac_blossomServers (attachments_config env), rc_preimageStorePath c) =
  (num 8080, ["https://a.b"; "https://c"], "/data/preimages.json").
Proof. vm_compute. reflexivity. Qed.

(** A log level named like an inherited property is not a level. *)
Example log_levels :
  map (fun l => configuredLogLevel (Some l)) [" WARN "; "verbose"; "constructor"] = [VStr "warning"; VStr "info"; VFun].
Proof. vm_compute. reflexivity. Qed.
