(* ===== verification/CashuWallet.v ===== *)
(** * Minting a payment token

    The rest of [packages/sdk/src/payments/cashu/cashu-wallet.ts]: configuration,
    and [createBountyToken], which asks the mint for an invoice, polls the quote
    until it is paid or a deadline passes, and mints.  The mint and the clock are
    the world [E]; the poll loop takes fuel, and [bounty_terminates] says how much
    is enough. *)

From S2P Require Import Prelude JsNum JsMap JsString JsValue EventLoop PreimageStore CashuTypes C2pa.

(** [getCashuConfig]: the trimmed mint URL, when there is one. *)
Definition getCashuConfig (mintUrl : option string) : option string := truthy (trim <$> mintUrl).
Definition isCashuEnabled (mintUrl : option string) : bool :=
  match getCashuConfig mintUrl with Some _ => true | None => false end.

(** [getCashuWallet]: the mint it talks to and whether through the caller's
    request function. *)
Record WalletHandle := mkWalletHandle { wh_mintUrl : string; wh_customRequest : bool; wh_unit : string }.
Definition getCashuWallet (customRequest : bool) (mintUrl : option string) : option WalletHandle :=
  (fun url => mkWalletHandle url customRequest "sat") <$> getCashuConfig mintUrl.

(** [getWalletAndConfig] of [cashu-escrow-helpers.ts]: the wallet with its mint
    loaded and the configuration, or nothing. *)
Definition getWalletAndConfig {E} (loadMint : WalletHandle -> call E unit) (mintUrl : option string)
    : call E (option (WalletHandle * string)) :=
  match getCashuWallet false mintUrl, getCashuConfig mintUrl with
  | Some wallet, Some config => await (loadMint wallet) (fun _ => ret (Some (wallet, config)))
  | _, _ => ret None
  end.

(** The wallet that is returned talks to the configured mint, and its keys were
    loaded; a mint that does not answer is an exception, not a missing wallet. *)
Lemma wallet_and_config_agree {E} (loadMint : WalletHandle -> call E unit) mintUrl R e r :
  outcome R (getWalletAndConfig loadMint mintUrl) e (Ok r) ->
  match r with
  | Some (wallet, config) => getCashuConfig mintUrl = Some config /\ wh_mintUrl wallet = config /\ outcome R (loadMint wallet) e (Ok tt)
  | None => isCashuEnabled mintUrl = false
  end.
Proof.
  unfold getWalletAndConfig, getCashuWallet, isCashuEnabled. destruct (getCashuConfig mintUrl) as [url|]; cbn.
  - intros H. apply outcome_await in H as ([] & e1 & Hl & _ & H). by apply outcome_ret in H as [= ->].
  - intros H. by apply outcome_ret in H as [= ->].
Qed.

Record MintQuote := mkMintQuote { mq_quote : string; mq_request : string }.

Record BountyToken := mkBountyToken { bt_token : string; bt_proofs : list CashuProof }.

(** What the loop and the function did; [Polling]: the fuel ran out first. *)
Inductive poll_end := PollBreak | PollDeadline | PollIssued | PollOut.
Inductive bounty_outcome := Polling | Returned (token : option BountyToken).

Section bounty.
Context `{L : CashuLib} {E : Type}.

(** The wallet's mint operations, [onInvoice], [Date.now()] and [setTimeout]. *)
Record MintApi := mkMintApi {
  ma_loadMint : E -> E * res unit;
  ma_createMintQuote : number -> E -> E * res MintQuote;
  ma_checkQuote : string -> E -> E * res string;
  ma_mintProofs : number -> string -> E -> E * res (list CashuProof);
  ma_onInvoice : option (string -> E -> E * res unit);
  ma_now : E -> Z;
  ma_sleep : number -> E -> E;
}.
Context (api : MintApi).

Definition encodeToken (mintUrl : string) (proofs : list CashuProof) : string := getEncodedToken mintUrl proofs.

Definition sleep (ms : number) : call E unit := fun e => (ma_sleep api ms e, Settled (Ok tt)).

(** [while (Date.now() < deadline) { ... }] *)
Fixpoint poll_quote (fuel : nat) (deadline pollInterval : number) (quote : string) : call E poll_end :=
  match fuel with
  | O => ret PollOut
  | S fuel' => fun e =>
      if negb (num (ma_now api e) <ₙ deadline) then ret PollDeadline e
      else
        await (on_world (ma_checkQuote api quote)) (fun state =>
          if state === "PAID" then ret PollBreak
          else if state === "ISSUED" then ret PollIssued
          else await (sleep pollInterval) (fun _ => poll_quote fuel' deadline pollInterval quote)) e
  end.

Definition mint_paid (mintUrl : string) (amountSats : number) (quote : string) : call E bounty_outcome :=
  await (on_world (ma_checkQuote api quote)) (fun finalState =>
    if negb (finalState === "PAID") then ret (Returned None)
    else
      await (on_world (ma_mintProofs api amountSats quote)) (fun proofs =>
        ret (Returned (Some (mkBountyToken (encodeToken mintUrl proofs) proofs))))).

Definition createBountyToken (fuel : nat) (mintUrl : option string) (amountSats : number)
    (pollIntervalMs invoiceTimeoutMs : option number) : call E bounty_outcome :=
  match getCashuConfig mintUrl with
  | None => ret (Returned None)
  | Some url =>
      let pollInterval := opt_default (num 2000) pollIntervalMs in
      let timeoutMs := opt_default (num (5 * 60000)) invoiceTimeoutMs in
      try_catch
        (await (on_world (ma_loadMint api)) (fun _ =>
         await (on_world (ma_createMintQuote api amountSats)) (fun mintQuote =>
         let poll e :=
           await (poll_quote fuel (nadd (num (ma_now api e)) timeoutMs) pollInterval (mq_quote mintQuote)) (fun p =>
             match p with
             | PollOut => ret Polling
             | PollIssued => ret (Returned None)
             | PollBreak | PollDeadline => mint_paid url amountSats (mq_quote mintQuote)
             end) e in
         match ma_onInvoice api with
         | Some onInvoice => await (on_world (onInvoice (mq_request mintQuote))) (fun _ => poll)
         | None => poll
         end)))
        (fun _ => ret (Returned None))
  end.

(** ** Properties *)

(** No proofs without payment: a token is returned only when the mint reported
    the quote of this invoice as paid and then minted the amount for it; the
    token is the encoding of what it minted, for the configured mint. *)
Theorem bounty_needs_payment R fuel mintUrl amount poll timeout e t :
  outcome R (createBountyToken fuel mintUrl amount poll timeout) e (Ok (Returned (Some t))) ->
  exists url q e1 e2 e3, getCashuConfig mintUrl = Some url /\ (ma_createMintQuote api amount e1).2 = Ok q /\
    (ma_checkQuote api (mq_quote q) e2).2 = Ok "PAID" /\
    (ma_mintProofs api amount (mq_quote q) e3).2 = Ok (bt_proofs t) /\ bt_token t = getEncodedToken url (bt_proofs t).
Proof.
  unfold createBountyToken. destruct (getCashuConfig mintUrl) as [url|] eqn:Hu; [|intros H; by apply outcome_ret in H].
  cbv zeta. intros H. apply outcome_try in H as [(a & Ha & H)|(x & s' & _ & H)]; [|by apply outcome_ret in H].
  injection Ha as <-. apply outcome_await in H as ([] & e1 & _ & _ & H). apply outcome_await in H as (q & e2 & Hq & _ & H).
  assert (Hpoll : exists e', outcome R (fun e => await (poll_quote fuel
      (nadd (num (ma_now api e)) (opt_default (num (5 * 60000)) timeout)) (opt_default (num 2000) poll) (mq_quote q)) (fun p =>
    match p with PollOut => ret Polling | PollIssued => ret (Returned None)
    | PollBreak | PollDeadline => mint_paid url amount (mq_quote q) end) e) e' (Ok (Returned (Some t)))).
  { destruct (ma_onInvoice api) as [f|]; [|by exists e2]. apply outcome_await in H as ([] & e3 & _ & _ & H). by exists e3. }
  destruct Hpoll as [e' Hp]. unfold outcome in Hp. apply (outcome_await R _ _ e') in Hp as (p & e4 & _ & _ & Hp).
  assert (Hm : outcome R (mint_paid url amount (mq_quote q)) e4 (Ok (Returned (Some t)))).
  { destruct p; [done|done|by apply outcome_ret in Hp..]. }
  unfold mint_paid in Hm. apply outcome_await in Hm as (st & e5 & Hst & _ & Hm).
  destruct (bool_decide_reflect (st = "PAID")) as [->|]; cbn in Hm; [|by apply outcome_ret in Hm].
  apply outcome_await in Hm as (proofs & e6 & Hpf & _ & Hm). apply outcome_ret in Hm as [= ->].
  exists url, q, e1, e4, e5. cbn [bt_proofs bt_token].
  unfold outcome, on_world in Hq, Hst, Hpf.
  destruct (ma_createMintQuote api amount e1), (ma_checkQuote api (mq_quote q) e4), (ma_mintProofs api amount (mq_quote q) e5).
  cbn in *. apply resolves_Settled in Hq, Hst, Hpf. by subst.
Qed.

(** The clock does not go back while the mint answers, and a sleep lasts. *)
Record clock_ok : Prop := {
  clock_check q e : (ma_now api e <= ma_now api (ma_checkQuote api q e).1)%Z;
  clock_sleep p e : (ma_now api e + p <= ma_now api (ma_sleep api (num p) e))%Z;
}.

Lemma poll_once n deadline p q e :
  run_call (poll_quote (S n) deadline p q) e =
  if negb (num (ma_now api e) <ₙ deadline) then (e, Ok PollDeadline)
  else run_call (await (on_world (ma_checkQuote api q)) (fun state =>
    if state === "PAID" then ret PollBreak else if state === "ISSUED" then ret PollIssued
    else await (sleep p) (fun _ => poll_quote n deadline p q))) e.
Proof. unfold run_call. cbn [poll_quote]. by destruct (negb _). Qed.

Lemma poll_terminates n D P q e :
  clock_ok -> (1 <= P)%Z -> (D - ma_now api e <= Z.of_nat n * P)%Z ->
  (run_call (poll_quote (S n) (num D) (num P) q) e).2 <> Ok PollOut.
Proof.
  intros [Hcheck Hsleep] HP. revert e. induction n as [|n IH]; intros e Hn.
  - rewrite poll_once, nlt_num. destruct (Z.ltb_spec (ma_now api e) D); [lia|done].
  - rewrite poll_once, nlt_num. destruct (Z.ltb_spec (ma_now api e) D); [|done]. cbn [negb].
    rewrite run_call_await. unfold run_call at 1, on_world. specialize (Hcheck q e).
    destruct (ma_checkQuote api q e) as [e1 [st|x]]; cbn [run_alone fst] in *; [|done].
    destruct (st === "PAID"); [done|]. destruct (st === "ISSUED"); [done|].
    rewrite run_call_await. unfold run_call at 1, sleep. cbn [run_alone]. apply IH.
    specialize (Hsleep P e1). nia.
Qed.

Lemma run_call_at {A} (k : E -> call E A) e : run_call (fun e => k e e) e = run_call (k e) e.
Proof. done. Qed.

Lemma mint_paid_returns url amount q e : (run_call (mint_paid url amount q) e).2 <> Ok Polling.
Proof.
  unfold mint_paid. rewrite run_call_await. destruct (run_call (on_world (ma_checkQuote api q)) e) as [e1 [st|x]]; [|done].
  destruct (negb (st === "PAID")); [done|]. rewrite run_call_await.
  by destruct (run_call (on_world (ma_mintProofs api amount q)) e1) as [e2 [ps|x]].
Qed.

(** Polling ends: with a clock that moves, a positive poll interval and fuel for
    as many polls as fit in the timeout, the call returns - a token or [null] -
    and never throws. *)
Theorem bounty_terminates n mintUrl amount P T e :
  clock_ok -> (1 <= P)%Z -> (T <= Z.of_nat n * P)%Z ->
  exists r, (run_call (createBountyToken (S n) mintUrl amount (Some (num P)) (Some (num T))) e).2 = Ok (Returned r).
Proof.
  intros Hclock HP HT. unfold createBountyToken. destruct (getCashuConfig mintUrl) as [url|]; [|by eexists]. cbv zeta.
  rewrite run_call_try. cbn [opt_default].
  match goal with |- context [match run_call ?c e with _ => _ end] => assert (Hc : (run_call c e).2 <> Ok Polling) end.
  { rewrite run_call_await. destruct (run_call (on_world (ma_loadMint api)) e) as [e1 [[]|x]]; [|done].
    rewrite run_call_await. destruct (run_call (on_world (ma_createMintQuote api amount)) e1) as [e2 [q|x]]; [|done].
    assert (Hpoll : forall e3, (run_call (fun e => await (poll_quote (S n) (nadd (num (ma_now api e)) (num T)) (num P) (mq_quote q))
       (fun p => match p with PollOut => ret Polling | PollIssued => ret (Returned None)
        | PollBreak | PollDeadline => mint_paid url amount (mq_quote q) end) e) e3).2 <> Ok Polling).
    { intros e3. rewrite (run_call_at (fun e => await (poll_quote (S n) (nadd (num (ma_now api e)) (num T)) (num P) (mq_quote q)) _)).
      rewrite nadd_num, run_call_await.
      pose proof (poll_terminates n (ma_now api e3 + T) P (mq_quote q) e3 Hclock HP) as Hp.
      destruct (run_call (poll_quote _ _ _ _) e3) as [e4 [p|x]]; [|done]. cbn [snd] in Hp.
      destruct p; [apply mint_paid_returns|apply mint_paid_returns|done|exfalso; apply Hp; [lia|done]]. }
    destruct (ma_onInvoice api) as [f|]; [|apply Hpoll]. rewrite run_call_await.
    destruct (run_call (on_world (f (mq_request q))) e2) as [e3 [[]|x]]; [|done]. apply Hpoll. }
  match goal with |- context [match run_call ?c e with _ => _ end] => destruct (run_call c e) as [e1 [[|r]|x]] end.
  - by exfalso.
  - by exists r.
  - by exists None.
Qed.
End bounty.

(** ** Witnesses: a mint whose invoice is paid at time 3 *)
Definition slow_mint : MintApi (E := Z) := {|
  ma_loadMint := fun e => (e, Ok tt);
  ma_createMintQuote := fun _ e => (e, Ok (mkMintQuote "q" "lnbc1"));
  ma_checkQuote := fun _ e => (e, Ok (if (e <? 3)%Z then "UNPAID" else "PAID"));
  ma_mintProofs := fun a _ e => (e, Ok [sample_proof "s" 8]);
  ma_onInvoice := None;
  ma_now := fun e => e;
  ma_sleep := fun ms e => match ms with Finite m 0 => Z.max e (e + m) | _ => e end%Z;
|}.

Lemma slow_mint_clock : clock_ok slow_mint.
Proof. split; cbn; intros; lia. Qed.

Definition slow_lib : CashuLib := sample_cashu (mkDecoded "https://mint" []).

Lemma bounty_needs_payment_witness :
  exists url q e1 e2 e3, getCashuConfig (Some " https://mint ") = Some url /\
    (ma_createMintQuote slow_mint (num 8) e1).2 = Ok q /\
    (ma_checkQuote slow_mint (mq_quote q) e2).2 = Ok "PAID" /\
    (ma_mintProofs slow_mint (num 8) (mq_quote q) e3).2 = Ok [sample_proof "s" 8] /\
    "cashuB:https://mint" = getEncodedToken (CashuLib := slow_lib) url [sample_proof "s" 8].
Proof.
  apply (bounty_needs_payment (L := slow_lib) slow_mint (fun _ => True) 10 (Some " https://mint ") (num 8) (Some (num 1))
    (Some (num 10)) 0%Z (mkBountyToken "cashuB:https://mint" [sample_proof "s" 8])).
  apply run_call_outcome. vm_compute. reflexivity.
Defined.

Lemma bounty_terminates_witness :
  exists r, (run_call (createBountyToken (L := slow_lib) slow_mint 6 (Some "https://mint") (num 8) (Some (num 2)) (Some (num 10))) 0%Z).2
    = Ok (Returned r).
Proof.
  apply (bounty_terminates (L := slow_lib) slow_mint 5 (Some "https://mint") (num 8) 2 10 0%Z); [apply slow_mint_clock|lia|lia].
Defined.
