(* ===== verification/Identity.v ===== *)
(** * Identities, signers and relay publishing

    The rest of [packages/protocol/src/nostr.ts] (secret keys, the keypair and
    NIP-07 signers), [packages/sdk/src/identity.ts],
    [adapters/nostr/crypto/encryption.ts] and the publishing side of
    [adapters/nostr/client.ts], whose relay pool is third-party. *)

From S2P Require Import Prelude JsNum JsMap JsString JsValue PreimageStore Nostr RelayClient.

Section keys.
Context `{N : NostrLib} `{H : Noble}.

(** The loop of [hexToBytes]: two characters per byte. *)
Fixpoint hex_bytes (l : list Ascii.ascii) : list Z :=
  match l with
  | a :: b :: l' => parse_pair a b :: hex_bytes l'
  | _ => []
  end.

Definition hexToBytesProtocol (hex : string) : res (list Z) :=
  if negb (Nat.even (String.length hex)) then Throw (mkExn "Error" "hex length must be even")
  else Ok (hex_bytes (chars hex)).

(** The bytes nip19 decodes an [nsec] to. *)
Fixpoint byte_values (l : list jsval) : list Z :=
  match l with
  | VNum (Finite m 0) :: l' => m :: byte_values l'
  | _ :: l' => byte_values l'
  | [] => []
  end.
Definition decoded_bytes (v : jsval) : list Z := match v with VArr l => byte_values l | _ => [] end.

Definition normalizeSecretKey (input : string) : res (list Z) :=
  if is_hex64 input then hexToBytesProtocol input
  else if startsWith "nsec1" input then
    decoded ← nip19Decode input;
    if decoded.1 !== "nsec" then Throw (mkExn "Error" ("Expected nsec bech32, got: " +:+ decoded.1))
    else Ok (decoded_bytes decoded.2)
  else Throw (mkExn "Error" "Not a valid secret key (hex or nsec)").

(** ** [identity.ts] *)
Record NostrIdentity := mkIdentity {
  id_secretKey : list Z;
  id_publicKey : string;
  id_secretKeyHex : string;
}.

(** [generateEphemeralIdentity] on the 32 random bytes of the key. *)
Definition generateEphemeralIdentity (random : list Z) : NostrIdentity :=
  let keypair := generateKeypair random in
  mkIdentity (kp_secretKey keypair) (kp_publicKey keypair) (bytesToHex (kp_secretKey keypair)).

Definition restoreIdentity (secretKeyHex : string) : res NostrIdentity :=
  secretKey ← normalizeSecretKey secretKeyHex;
  Ok (mkIdentity secretKey (getPublicKey secretKey) secretKeyHex).

(** ** [encryption.ts] *)
Definition PROTOCOL_VERSION : string := "anchr:v1".

Definition deriveRegionKey (regionCode : string) : list Z :=
  sha256 (utf8 (PROTOCOL_VERSION +:+ ":" +:+ toUpperCase regionCode)).
Definition regionKeyHex (regionCode : string) : string := bytesToHex (deriveRegionKey regionCode).
Definition deriveConversationKey (secretKey : list Z) (recipientPubKey : string) : res ConversationKey :=
  getConversationKey secretKey recipientPubKey.
Definition encryptWithKey (plaintext : string) (key : ConversationKey) : res string := nip44Encrypt plaintext key.
Definition decryptWithKey (ciphertext : string) (key : ConversationKey) : res string := nip44Decrypt ciphertext key.
End keys.

(** ** Signers *)
Section signers.
Context `{N : NostrLib} {E : Type}.

(** [interface NostrSigner]: both methods may reject. *)
Record NostrSigner := mkSigner {
  sn_getPublicKey : E -> E * res string;
  sn_signEvent : EventTemplate -> E -> E * res Event;
}.

Definition createKeypairSigner (identity : Keypair) : NostrSigner :=
  mkSigner (fun e => (e, Ok (kp_publicKey identity))) (fun t e => (e, Ok (signEvent t (kp_secretKey identity)))).

(** [globalThis.nostr]: the value and, when it passes the guard, its methods. *)
Definition isNip07Provider (value : jsval) : bool :=
  isRecord value && is_fun (if has_prop "getPublicKey" value then prop "getPublicKey" value else VUndef) &&
  is_fun (if has_prop "signEvent" value then prop "signEvent" value else VUndef).

Definition resolveWindowNostr (value : jsval) (methods : NostrSigner) : option NostrSigner :=
  if isNip07Provider value then Some methods else None.

Definition Nip07UnavailableError : exn := mkExn "Nip07UnavailableError" "NIP-07 provider is not available".

(** The returned signer forwards to the provider. *)
Definition createNip07Signer (provider : option NostrSigner) (value : jsval) (methods : NostrSigner) : res NostrSigner :=
  match nullish provider (resolveWindowNostr value methods) with
  | None => Throw Nip07UnavailableError
  | Some resolved => Ok (mkSigner (sn_getPublicKey resolved) (sn_signEvent resolved))
  end.
End signers.

(** ** [client.ts]: publishing to every relay *)

(** [String(r.reason ?? "unknown")] *)
Definition reason_text (reason : jsval) : string := js_string (or_default (VStr "unknown") reason).

(** The outcome of a relay: accepted, or the reason of the rejection. *)
Fixpoint settle_publish (relays : list string) (results : list (option jsval)) : PublishResult :=
  match relays, results with
  | relay :: relays', r :: results' =>
      let rest := settle_publish relays' results' in
      match r with
      | None => mkPublishResult (relay :: pr_successes rest) (pr_failures rest)
      | Some reason => mkPublishResult (pr_successes rest) ((relay, reason_text reason) :: pr_failures rest)
      end
  | _, _ => mkPublishResult [] []
  end.

(** ** Lemmas *)
Lemma hex_char_digits b : is_byte b -> is_hex_char (hex_char (b / 16)) = true /\ is_hex_char (hex_char (b mod 16)) = true.
Proof.
  intros [H1 H2].
  assert (Hall : forallb (fun n => let b := Z.of_nat n in is_hex_char (hex_char (b / 16)) && is_hex_char (hex_char (b mod 16)))
    (seq 0 256) = true) by (vm_compute; reflexivity).
  rewrite forallb_forall in Hall. specialize (Hall (Z.to_nat b)). cbv zeta in Hall. rewrite Z2Nat.id in Hall by lia.
  apply andb_true_iff, Hall, in_seq. lia.
Qed.

Lemma hex_string_hex l : Forall is_byte l -> forallb is_hex_char (chars (hex_string l)) = true.
Proof.
  induction 1 as [|b l Hb _ IH]; [done|]. destruct (hex_char_digits b Hb) as [Ha Hc].
  change (chars (hex_string (b :: l))) with (hex_char (b / 16) :: hex_char (b mod 16) :: chars (hex_string l)).
  cbn [forallb]. by rewrite Ha, Hc.
Qed.

Lemma hex_string_length l : String.length (hex_string l) = (2 * length l)%nat.
Proof. induction l as [|b l IH]; [done|]. cbn [hex_string String.length length]. lia. Qed.

Lemma hex_bytes_string l : Forall is_byte l -> hex_bytes (chars (hex_string l)) = l.
Proof.
  induction 1 as [|b l Hb _ IH]; [done|]. destruct (hex_char_pair b Hb) as (_ & _ & Hp).
  change (chars (hex_string (b :: l))) with (hex_char (b / 16) :: hex_char (b mod 16) :: chars (hex_string l)).
  cbn [hex_bytes]. by rewrite Hp, IH.
Qed.

Lemma upper_lower c : upper_char (lower_char c) = upper_char c.
Proof.
  assert (Hall : forallb (fun n => bool_decide (upper_char (lower_char (Ascii.ascii_of_nat n)) = upper_char (Ascii.ascii_of_nat n)))
    (seq 0 256) = true) by (vm_compute; reflexivity).
  rewrite forallb_forall in Hall. specialize (Hall (Ascii.nat_of_ascii c)).
  rewrite Ascii.ascii_nat_embedding in Hall. eapply bool_decide_eq_true, Hall, in_seq.
  pose proof (Ascii.nat_ascii_bounded c). lia.
Qed.

Lemma toUpperCase_lower s : toUpperCase (toLowerCase s) = toUpperCase s.
Proof.
  unfold toUpperCase. f_equal. induction s as [|c s IH]; [done|].
  change (chars (toLowerCase (String.String c s))) with (lower_char c :: chars (toLowerCase s)).
  change (chars (String.String c s)) with (c :: chars s). rewrite !fmap_cons. by rewrite upper_lower, IH.
Qed.

(** ** Properties *)
Section properties.
Context `{N : NostrLib} `{H : Noble}.

(** A stored identity is restored: the hex form of a fresh identity's secret
    gives back the same identity, for any 32 bytes. *)
Theorem identity_roundtrip sk :
  (forall l, Forall is_byte l -> bytesToHex l = hex_string l) -> Forall is_byte sk -> length sk = 32%nat ->
  restoreIdentity (id_secretKeyHex (generateEphemeralIdentity sk)) = Ok (generateEphemeralIdentity sk).
Proof.
  intros Hhex Hb Hl. unfold generateEphemeralIdentity, restoreIdentity. cbn [id_secretKeyHex kp_secretKey generateKeypair kp_publicKey].
  rewrite (Hhex sk Hb). unfold normalizeSecretKey.
  assert (H64 : is_hex64 (hex_string sk) = true).
  { unfold is_hex64. by rewrite hex_string_length, Hl, hex_string_hex. }
  rewrite H64. unfold hexToBytesProtocol. rewrite hex_string_length, Hl. cbn [Nat.even negb Nat.mul Nat.add].
  by rewrite hex_bytes_string.
Qed.

(** The region key does not depend on the case the region code is written in. *)
Theorem region_key_case region : regionKeyHex (toLowerCase region) = regionKeyHex region.
Proof. unfold regionKeyHex, deriveRegionKey. by rewrite toUpperCase_lower. Qed.

(** A keypair signer signs under the key it reports. *)
Theorem keypair_signer_consistent `{!NostrLaws N} {E : Type} sk t (e : E) :
  exists event, sn_signEvent (createKeypairSigner (generateKeypair sk)) t e = (e, Ok event) /\
    sn_getPublicKey (createKeypairSigner (generateKeypair sk)) e = (e, Ok (ev_pubkey event)).
Proof.
  eexists. split; [reflexivity|]. cbn [sn_getPublicKey createKeypairSigner generateKeypair kp_publicKey kp_secretKey].
  destruct (finalize_keeps t sk) as (_ & _ & _ & _ & Hpk). unfold signEvent. by rewrite Hpk.
Qed.
End properties.

(** Publishing reports every relay once: accepted relays as successes, the others
    as failures with their reason, each list in the order of the relays. *)
Theorem publish_partitions relays results :
  length results = length relays ->
  let p := settle_publish relays results in
  pr_successes p = (zip relays results ≫= fun '(relay, r) => match r with None => [relay] | Some _ => [] end) /\
  (pr_failures p).*1 = (zip relays results ≫= fun '(relay, r) => match r with None => [] | Some _ => [relay] end) /\
  pr_successes p ++ (pr_failures p).*1 ≡ₚ relays.
Proof.
  revert results. induction relays as [|relay relays IH]; intros [|r results] Hl; try done.
  cbn [length] in Hl. destruct (IH results) as (H1 & H2 & H3); [lia|]. cbn [settle_publish zip zip_with].
  rewrite !bind_cons. destruct r as [reason|]; cbn [pr_successes pr_failures app fmap list_fmap fst].
  - split; [done|]. split; [by f_equal|]. etrans; [symmetry; apply Permutation_middle|]. by constructor.
  - split; [by f_equal|]. split; [done|]. by constructor.
Qed.

(** ** Witnesses *)
Lemma identity_roundtrip_witness :
  restoreIdentity (N := toy_nostr) (id_secretKeyHex (generateEphemeralIdentity (N := toy_nostr) (H := toy_noble) (replicate 32 171%Z)))
  = Ok (generateEphemeralIdentity (N := toy_nostr) (H := toy_noble) (replicate 32 171%Z)).
Proof.
  apply (identity_roundtrip (N := toy_nostr) (H := toy_noble)); [done| |done].
  apply Forall_replicate. split; lia.
Defined.

Lemma keypair_signer_consistent_witness :
  exists event, sn_signEvent (createKeypairSigner (N := toy_nostr) (generateKeypair (N := toy_nostr) [7]%Z))
      (mkTemplate 4 (num 0) "c" []) tt = (tt, Ok event) /\
    sn_getPublicKey (createKeypairSigner (N := toy_nostr) (generateKeypair (N := toy_nostr) [7]%Z)) tt = (tt, Ok (ev_pubkey event)).
Proof. apply (keypair_signer_consistent (N := toy_nostr) (NostrLaws0 := toy_nostr_laws)). Defined.

Lemma publish_partitions_witness :
  pr_successes (settle_publish ["a"; "b"] [None; Some VUndef]) ++ (pr_failures (settle_publish ["a"; "b"] [None; Some VUndef])).*1
  ≡ₚ ["a"; "b"].
Proof. apply (publish_partitions ["a"; "b"] [None; Some VUndef]). reflexivity. Defined.

(** An identity restored from an [nsec] keeps that text in the field documented
    as the hex-encoded secret. *)
Example nsec_kept_as_hex :
  let lib := {| ConversationKey := unit; getPublicKey := key_name; getConversationKey := fun _ _ => Ok tt;
    nip44Encrypt := fun m _ => Ok m; nip44Decrypt := fun c _ => Ok c;
    finalizeEvent := fun t sk => mkEvent "" "" (num 0) 0 [] "" "";
    nip19Decode := fun _ => Ok ("nsec", VArr [VNum (num 7)]) |} in
  id_secretKeyHex <$> res_option (restoreIdentity (N := lib) "nsec1qqq") = Some "nsec1qqq".
Proof. vm_compute. reflexivity. Qed.
