(* ===== verification/ProviderServe.v ===== *)
(** * Serving requests: subscriptions of the Provider

    [serve] and [stop] of [createProvider] in [packages/sdk/src/provider.ts].
    Each [serve] opens a subscription whose events start jobs ([handleJob] of
    [Provider]) and stores the one [stop] closure; [stop] runs it.  The relay
    client delivers no event on a closed subscription. *)

From S2P Require Import Prelude JsNum JsMap JsString JsValue EventLoop Nostr RelayClient.

(** The filter of the subscription: requests, of the region when one is set. *)
Definition serve_filter (regionCode : option string) : Filter :=
  mkFilter [KIND_QUERY_REQUEST] None
    (match truthy regionCode with Some r => [("region", [toUpperCase r])] | None => [] end).

(** The state the closures share: subscriptions in the order they were opened
    with whether they are open, the stored [stop], the serve promises that are
    resolved, and the jobs started. *)
Record ServeState := mkServe {
  sv_subs : list bool;
  sv_stop : option nat;
  sv_resolved : list nat;
  sv_jobs : list (nat * Event);
}.

Definition serve_init : ServeState := mkServe [] None [] [].

Definition serve_start (s : ServeState) : ServeState :=
  mkServe (sv_subs s ++ [true]) (Some (length (sv_subs s))) (sv_resolved s) (sv_jobs s).

(** [if (state.stop !== undefined) state.stop()] *)
Definition stop_serving (s : ServeState) : ServeState :=
  match sv_stop s with
  | None => s
  | Some i => mkServe (<[i := false]> (sv_subs s)) None (sv_resolved s ++ [i]) (sv_jobs s)
  end.

(** An event on a subscription: the job starts, and its failure is swallowed. *)
Definition serve_deliver (i : nat) (event : Event) (s : ServeState) : ServeState :=
  mkServe (sv_subs s) (sv_stop s) (sv_resolved s) (sv_jobs s ++ [(i, event)]).

Inductive serve_step : ServeState -> ServeState -> Prop :=
| step_serve s : serve_step s (serve_start s)
| step_stop s : serve_step s (stop_serving s)
| step_deliver i event s : sv_subs s !! i = Some true -> serve_step s (serve_deliver i event s).

(** A host that serves again only after it stopped. *)
Inductive careful_step : ServeState -> ServeState -> Prop :=
| careful_serve s : sv_stop s = None -> careful_step s (serve_start s)
| careful_stop s : careful_step s (stop_serving s)
| careful_deliver i event s : sv_subs s !! i = Some true -> careful_step s (serve_deliver i event s).

(** ** Invariants *)

(** The stored [stop] is for an open subscription. *)
Definition stop_ok (s : ServeState) : Prop := forall i, sv_stop s = Some i -> sv_subs s !! i = Some true.

(** The open subscription is the one [stop] closes. *)
Definition only_current (s : ServeState) : Prop := forall i, sv_subs s !! i = Some true -> sv_stop s = Some i.

(** Every serve is over or current. *)
Definition serves_settled (s : ServeState) : Prop :=
  forall i, (i < length (sv_subs s))%nat -> sv_stop s = Some i \/ i ∈ sv_resolved s.

Lemma careful_ok s s' :
  careful_step s s' -> stop_ok s /\ only_current s /\ serves_settled s -> stop_ok s' /\ only_current s' /\ serves_settled s'.
Proof.
  intros Hst (H1 & H2 & H3). destruct Hst as [s Hn|s|i event s Hi]; [| |by split].
  - split_and!; intros i Hi; cbn in *.
    + injection Hi as <-. by apply list_lookup_middle.
    + apply lookup_app_Some in Hi as [Hi|[Hge Hi]]; [by apply H2 in Hi; rewrite Hn in Hi|].
      apply list_lookup_singleton_Some in Hi as [Hz _]. f_equal. lia.
    + rewrite length_app in Hi. cbn in Hi. destruct (decide (i < length (sv_subs s))%nat) as [Hlt|]; [|left; f_equal; lia].
      right. destruct (H3 i Hlt); [congruence|done].
  - unfold stop_serving. destruct (sv_stop s) as [j|] eqn:Ej; [|by split]. split_and!; intros i Hi; cbn in *; [done| |].
    + apply list_lookup_insert_Some in Hi as [(_ & [=] & _)|[Hne Hi]]. apply H2 in Hi. rewrite Ej in Hi. congruence.
    + right. rewrite length_insert in Hi. apply elem_of_app. destruct (H3 i Hi) as [Hs|Hr]; [right|by left].
      rewrite Ej in Hs. injection Hs as ->. by apply list_elem_of_singleton.
Qed.

Lemma careful_reachable s : rtc careful_step serve_init s -> stop_ok s /\ only_current s /\ serves_settled s.
Proof.
  intros H. assert (H0 : stop_ok serve_init /\ only_current serve_init /\ serves_settled serve_init)
    by (split_and!; intros i Hi; [done|done|by apply Nat.nlt_0_r in Hi]).
  revert H0. induction H; eauto using careful_ok.
Qed.

(** ** Properties *)

(** A host that serves one subscription at a time can stop: after [stop] no
    subscription is open, so no further event can start a job, and every serve
    promise that was started is resolved. *)
Theorem stop_ends_serving s event i :
  rtc careful_step serve_init s ->
  (forall j, sv_subs (stop_serving s) !! j <> Some true) /\
  (forall j, (j < length (sv_subs s))%nat -> j ∈ sv_resolved (stop_serving s)) /\
  ~ (exists s', serve_step (stop_serving s) s' /\ sv_jobs s' = sv_jobs (stop_serving s) ++ [(i, event)]).
Proof.
  intros Hr. destruct (careful_reachable s Hr) as (H1 & H2 & H3).
  assert (Hclosed : forall j, sv_subs (stop_serving s) !! j <> Some true).
  { intros j Hj. unfold stop_serving in Hj. destruct (sv_stop s) as [k|] eqn:Ek.
    - cbn in Hj. apply list_lookup_insert_Some in Hj as [(_ & [=] & _)|[Hne Hj]]. apply H2 in Hj. congruence.
    - apply H2 in Hj. congruence. }
  split; [done|]. split.
  { intros j Hj. unfold stop_serving. destruct (sv_stop s) as [k|] eqn:Ek; cbn; [|by destruct (H3 j Hj); [congruence|]].
    apply elem_of_app. destruct (H3 j Hj) as [Hs|]; [|by left]. right. apply list_elem_of_singleton. congruence. }
  intros (s' & Hst & Hjobs). inversion Hst as [t|t|j ev t Hj]; subst.
  - cbn in Hjobs. apply (f_equal length) in Hjobs. rewrite length_app in Hjobs. cbn in Hjobs. lia.
  - assert (Hsame : sv_jobs (stop_serving (stop_serving s)) = sv_jobs (stop_serving s))
      by (unfold stop_serving at 1; by destruct (sv_stop (stop_serving s))).
    rewrite Hsame in Hjobs. apply (f_equal length) in Hjobs. rewrite length_app in Hjobs. cbn in Hjobs. lia.
  - by apply Hclosed in Hj.
Qed.

Definition some_request : Event := mkEvent "e1" "customer" (num 0) KIND_QUERY_REQUEST [] "" "".

Lemma stop_ends_serving_witness :
  forall j, sv_subs (stop_serving (serve_start serve_init)) !! j <> Some true.
Proof.
  apply (stop_ends_serving (serve_start serve_init) some_request 0).
  eapply rtc_l; [by apply careful_serve|]. apply rtc_refl.
Defined.

(** Serving twice without stopping in between loses the first subscription: its
    promise is never resolved, and after [stop] an event still starts a job. *)
Theorem second_serve_leaks :
  let s := stop_serving (serve_start (serve_start serve_init)) in
  rtc serve_step serve_init s /\ sv_subs s = [true; false] /\ sv_resolved s = [1%nat] /\
  serve_step s (serve_deliver 0 some_request s) /\
  forall s', rtc serve_step s s' -> 0%nat ∉ sv_resolved s' /\ sv_subs s' !! 0%nat = Some true.
Proof.
  cbv zeta. split_and!.
  - eapply rtc_l; [apply step_serve|]. eapply rtc_l; [apply step_serve|]. eapply rtc_l; [apply step_stop|]. apply rtc_refl.
  - reflexivity.
  - reflexivity.
  - by apply step_deliver.
  - intros s' Hr.
    assert (Hinv : forall a b, rtc serve_step a b ->
      0%nat ∉ sv_resolved a /\ sv_subs a !! 0%nat = Some true /\ sv_stop a <> Some 0%nat ->
      0%nat ∉ sv_resolved b /\ sv_subs b !! 0%nat = Some true /\ sv_stop b <> Some 0%nat).
    { induction 1 as [a|a b c Hst _ IH]; [done|]. intros (H1 & H2 & H3). apply IH. clear IH.
      destruct Hst as [s|s|i ev s Hi]; cbn; [| |by split_and!].
      - split_and!; [done|by apply lookup_app_l_Some|]. intros [= Hl]. by destruct (sv_subs s).
      - unfold stop_serving. destruct (sv_stop s) as [j|] eqn:Ej; [|split_and!; [done|done|by rewrite Ej]]. cbn. split_and!; [|by rewrite list_lookup_insert_ne by congruence|done].
        rewrite elem_of_app, list_elem_of_singleton. intros [?|?]; [done|congruence]. }
    destruct (Hinv _ _ Hr) as (H1 & H2 & _); [|done]. cbn. split_and!; [|done|done].
    rewrite list_elem_of_singleton. lia.
Qed.
