(* ===== verification/FrostBootstrap.v ===== *)
(** * The FROST node configuration file

    [loadFrostNodeConfig] and [saveFrostNodeConfig] of
    [payments/frost/frost-config.ts], over the file persistence of [Storage]: the
    key package of a signer, written in place. *)

From S2P Require Import Prelude JsNum JsMap JsString JsValue PreimageStore EventLoop CashuTypes CashuEscrow JsonCodec Sidecar FrostCli FrostSigner Storage.
From S2P Require Import PreimageFile.

Definition peer_json (p : PeerConfig) : jsval :=
  VObj [("signer_index", VNum (pc_signer_index p)); ("endpoint", VStr (pc_endpoint p)); ("api_key", str_field (pc_api_key p))].

Definition node_config_json (c : FrostNodeConfig) : jsval :=
  VObj [("signer_index", VNum (nc_signer_index c)); ("total_signers", VNum (nc_total_signers c));
        ("threshold", VNum (nc_threshold c)); ("key_package", nc_key_package c); ("pubkey_package", nc_pubkey_package c);
        ("group_pubkey", VStr (nc_group_pubkey c)); ("peers", VArr (peer_json <$> nc_peers c))].

Section config.
Context `{J : JSON} `{P : JSONPretty}.

(** The parsed value is not checked. *)
Definition loadFrostNodeConfig (filePath : string) : call Disk jsval :=
  await (fss_readText filePath) (fun text =>
    match JSON_parse text with
    | Some config => ret config
    | None => fail (mkExn "SyntaxError" "Unexpected token in JSON")
    end).

Definition saveFrostNodeConfig (filePath : string) (config : FrostNodeConfig) : call Disk unit :=
  await (fss_writeText filePath (JSON_pretty (node_config_json config))) ret.

(** A configuration that was saved loads as what the JSON document keeps of it. *)
Theorem frost_config_roundtrip `{!JSONPrettyLaws J P} path config d :
  disk_wf d -> dk_faults d = [] -> json_ok (node_config_json config) ->
  (run_call (saveFrostNodeConfig path config) d).2 = Ok tt /\
  (run_call (loadFrostNodeConfig path) (run_call (saveFrostNodeConfig path config) d).1).2 = Ok (json_norm (node_config_json config)).
Proof.
  intros Hwf Hf Hok. unfold saveFrostNodeConfig, fss_writeText, writeTextFile. rewrite !run_ret_tail.
  destruct (write_calm path (JSON_pretty (node_config_json config)) d Hf) as (d1 & i & E & Hf1 & _).
  destruct (write_alone path (path +:+ ".tmp") (JSON_pretty (node_config_json config)) d Hwf) as [_ Hc];
    [intros Heq; by apply (tmp_ne path)|].
  rewrite E in Hc |- *. cbn [fst snd] in *. split; [done|]. unfold loadFrostNodeConfig. rewrite run_call_await.
  assert (Hd : calm d1 = d1) by (destruct d1; cbn in *; by subst).
  pose proof (read_alone path d1) as Hr. rewrite Hd, (Hc eq_refl) in Hr. rewrite Hr.
  by rewrite parse_pretty.
Qed.

(** Saving is not atomic: on every disk the file is empty at a point in the
    middle of it, whatever it held before. *)
Theorem frost_config_save_truncates path config d :
  dk_faults d = [] -> Exists (fun d' => dk_content d' path = Some "") (visited_call (saveFrostNodeConfig path config) d).
Proof.
  intros Hf. unfold saveFrostNodeConfig, fss_writeText, writeTextFile, visited_call, await, deno_writeTextFile, dk_fault.
  rewrite Hf. cbn [head default from_option id]. pose proof (open_dir path (dk_tick d)) as Hdir.
  assert (Hempty : dk_data (dk_open path (dk_tick d)).2 !! (dk_open path (dk_tick d)).1 = Some "").
  { unfold dk_open. destruct (dk_dir (dk_tick d) !! path); cbn; apply lookup_insert_eq. }
  destruct (dk_open path (dk_tick d)) as [i d1]. cbn [fst snd tbind visited] in *. left. unfold dk_content.
  by rewrite Hdir.
Qed.
End config.

(** ** Witnesses *)
Definition sample_node : FrostNodeConfig :=
  mkNodeConfig (num 1) (num 3) (num 2) (VObj [("share", VStr "k")]) VNull "group" [mkPeer (num 2) "http://peer" None].

Lemma frost_config_roundtrip_witness :
  (run_call (saveFrostNodeConfig (P := codec_pretty) "frost.json" sample_node) empty_disk).2 = Ok tt /\
  (run_call (loadFrostNodeConfig (J := codec) "frost.json")
     (run_call (saveFrostNodeConfig (P := codec_pretty) "frost.json" sample_node) empty_disk).1).2
  = Ok (json_norm (node_config_json sample_node)).
Proof.
  apply (frost_config_roundtrip (J := codec) (P := codec_pretty) (JSONPrettyLaws0 := codec_pretty_laws)).
  - apply empty_disk_wf.
  - reflexivity.
  - vm_compute. reflexivity.
Defined.

Lemma frost_config_save_truncates_witness :
  Exists (fun d' => dk_content d' "frost.json" = Some "")
    (visited_call (saveFrostNodeConfig (P := codec_pretty) "frost.json" sample_node) empty_disk).
Proof. apply (frost_config_save_truncates (P := codec_pretty) "frost.json" sample_node empty_disk). reflexivity. Defined.

(** ** Key generation for a threshold cluster

    [scripts/frost-dkg-bootstrap.ts]: the three rounds of distributed key
    generation driven on one machine through the command line bridge, routing the
    packages between signers, and the configuration files that hold the shares.

    The number of signers is a natural number, as the loops need one; a failure
    or [Deno.exit(1)] anywhere is an exception, and success is a normal return.
    Files carry a permission mode. *)

(** ** Arguments *)
Record ParsedArgs := mkParsedArgs {
  pa_threshold : option number;
  pa_total : option number;
  pa_outputDir : option string;
  pa_basePort : option number;
  pa_apiKey : option string;
}.

(** [Number(raw[++i])]: a missing value is [Number(undefined)], NaN. *)
Definition arg_number (v : option string) : number := match v with Some s => js_Number s | None => NaN end.

Fixpoint parse_args (raw : list string) (r : ParsedArgs) : ParsedArgs :=
  match raw with
  | [] => r
  | flag :: rest =>
      let next r' := match rest with [] => r' | _ :: rest' => parse_args rest' r' end in
      let v := head rest in
      if flag === "--threshold" then
        next (mkParsedArgs (Some (arg_number v)) (pa_total r) (pa_outputDir r) (pa_basePort r) (pa_apiKey r))
      else if flag === "--total" then
        next (mkParsedArgs (pa_threshold r) (Some (arg_number v)) (pa_outputDir r) (pa_basePort r) (pa_apiKey r))
      else if flag === "--output-dir" then
        next (mkParsedArgs (pa_threshold r) (pa_total r) v (pa_basePort r) (pa_apiKey r))
      else if flag === "--base-port" then
        next (mkParsedArgs (pa_threshold r) (pa_total r) (pa_outputDir r) (Some (arg_number v)) (pa_apiKey r))
      else if flag === "--api-key" then
        next (mkParsedArgs (pa_threshold r) (pa_total r) (pa_outputDir r) (pa_basePort r) v)
      else parse_args rest r
  end.
Definition parseArgs (raw : list string) : ParsedArgs := parse_args raw (mkParsedArgs None None None None None).

Example parseArgs_ex :
  let a := parseArgs ["--total"; "5"; "x"; "--api-key"; "k"; "--threshold"] in
  (pa_total a, pa_apiKey a, pa_threshold a) = (Some (num 5), Some "k", Some NaN).
Proof. vm_compute. reflexivity. Qed.

(** ** Packages *)
Record Round1 := mkRound1 { r1_secretPackage : string; r1_package : string; r1_identifier : string }.
Record Round2 := mkRound2 { r2_secretPackage : string; r2_packages : jsval }.

Definition raise_type_error {A} (m : string) : res A := Throw (mkExn "TypeError" m).

(** A property of a value that may be nullish. *)
Definition prop_checked (k : string) (v : jsval) : res jsval :=
  match v with VUndef | VNull => raise_type_error "Cannot read properties of undefined" | _ => Ok (prop k v) end.

(** What [slice] is called on; of the values a report can hold, only strings are
    considered to have it. *)
Definition as_text (v : jsval) : res string :=
  match v with VStr s => Ok s | _ => raise_type_error "slice is not a function" end.

Section packages.
Context `{J : JSON}.

(** [othersMap]: the round-1 packages of all signers but [i], by identifier. *)
Fixpoint others_from (i j : nat) (l : list Round1) (acc : list (string * jsval)) : res (list (string * jsval)) :=
  match l with
  | [] => Ok acc
  | r :: l' =>
      if Nat.eqb j i then others_from i (S j) l' acc
      else
        match JSON_parse (r1_package r) with
        | None => Throw (mkExn "SyntaxError" "Unexpected token in JSON")
        | Some v => others_from i (S j) l' (set_field (r1_identifier r) v acc)
        end
  end.
Definition othersMap (i : nat) (round1 : list Round1) : res (list (string * jsval)) := others_from i 0 round1 [].

(** [r2ForMe]: from every other signer the package it made for [i]. *)
Fixpoint mine_from (i j : nat) (myId : string) (l : list (Round1 * Round2)) (acc : list (string * jsval))
    : res (list (string * jsval)) :=
  match l with
  | [] => Ok acc
  | (r1, r2) :: l' =>
      if Nat.eqb j i then mine_from i (S j) myId l' acc
      else
        package ← prop_checked myId (r2_packages r2);
        mine_from i (S j) myId l' (set_field (r1_identifier r1) package acc)
  end.
Definition r2ForMe (i : nat) (myId : string) (round1 : list Round1) (round2 : list Round2) : res (list (string * jsval)) :=
  mine_from i 0 myId (zip round1 round2) [].

(** ** The script *)
Context {E : Type} (spawn : list string -> E -> E * ProcOutcome) (executor : SidecarExecutor).

Record Boot := mkBoot { bo_files : gmap string (string * Z); bo_env : E }.

Definition bo_spawn (cmd : list string) (s : Boot) : Boot * ProcOutcome :=
  let '(e, o) := spawn cmd (bo_env s) in (mkBoot (bo_files s) e, o).

Definition boot_fail {A} (m : string) : call Boot A := fail (mkExn "exit" m).
(** The synchronous part of a segment: an exception ends the call. *)
Definition sync_part {A B} (r : res A) (k : A -> call Boot B) : call Boot B :=
  match r with Ok a => k a | Throw e => fail e end.

(** Round 1 of signers [i], ..., [i + n - 1], pushed to [acc]. *)
Fixpoint run_round1 (n i : nat) (total threshold : number) (acc : list Round1) : call Boot (list Round1) :=
  match n with
  | O => ret acc
  | S n' =>
      await (dkgRound1 bo_spawn (num (Z.of_nat i)) total threshold None executor) (fun r =>
      if negb (cr_ok r) then boot_fail "Round 1 failed"
      else
      sync_part (d ← reply_data r;
            id ← prop_checked "identifier" (prop "secret_package" d);
            id ← as_text id;
            Ok (mkRound1 (JSON_stringify (prop "secret_package" d)) (JSON_stringify (prop "package" d)) id)) (fun r1 =>
      run_round1 n' (S i) total threshold (acc ++ [r1])))
  end.

Fixpoint run_round2 (round1 pending : list Round1) (i : nat) (acc : list Round2) : call Boot (list Round2) :=
  match pending with
  | [] => ret acc
  | mine :: pending' =>
      sync_part (othersMap i round1) (fun others =>
      await (dkgRound2 bo_spawn (r1_secretPackage mine) (JSON_stringify (VObj others)) None executor) (fun r =>
      if negb (cr_ok r) then boot_fail "Round 2 failed"
      else
      sync_part (d ← reply_data r;
            Ok (mkRound2 (JSON_stringify (prop "secret_package" d)) (prop "packages" d))) (fun r2 =>
      run_round2 round1 pending' (S i) (acc ++ [r2]))))
  end.

(** The peers of every signer, the signer itself included. *)
Definition peer_list (n : nat) (basePort : number) (apiKey : string) : list PeerConfig :=
  (fun j => mkPeer (num (Z.of_nat (S j)))
     ("http://localhost:" +:+ number_to_string (nadd basePort (num (Z.of_nat j)))) (Some apiKey)) <$> seq 0 n.

Fixpoint run_round3 (round1 : list Round1) (round2 : list Round2) (pending : list (Round1 * Round2)) (i : nat)
    (total threshold : number) (peers : list PeerConfig) (acc : list FrostNodeConfig) : call Boot (list FrostNodeConfig) :=
  match pending with
  | [] => ret acc
  | (r1, r2) :: pending' =>
      sync_part (othersMap i round1) (fun othersR1 =>
      sync_part (r2ForMe i (r1_identifier r1) round1 round2) (fun forMe =>
      await (dkgRound3 bo_spawn (r2_secretPackage r2) (JSON_stringify (VObj othersR1)) (JSON_stringify (VObj forMe)) None executor)
        (fun r =>
      if negb (cr_ok r) then boot_fail "Round 3 failed"
      else
      sync_part (d ← reply_data r;
            group ← as_text (prop "group_pubkey" d);
            Ok (mkNodeConfig (num (Z.of_nat (S i))) total threshold (prop "key_package" d) (prop "pubkey_package" d) group peers))
        (fun config =>
      run_round3 round1 round2 pending' (S i) total threshold peers (acc ++ [config])))))
  end.

(** [new Set(gps).size !== 1] *)
Definition keys_agree (configs : list FrostNodeConfig) : bool :=
  match configs with
  | [] => false
  | c :: cs => forallb (fun c' => nc_group_pubkey c' === nc_group_pubkey c) cs
  end.

Definition DEFAULT_MODE : Z := 420.  (* 0o644 *)
Definition OWNER_ONLY : Z := 384.    (* 0o600 *)

(** [writeTextFileSync]: a new file gets the default mode. *)
Definition write_sync (path text : string) (files : gmap string (string * Z)) : gmap string (string * Z) :=
  <[path := (text, match files !! path with Some (_, m) => m | None => DEFAULT_MODE end)]> files.
Definition chmod_sync (path : string) (mode : Z) (files : gmap string (string * Z)) : gmap string (string * Z) :=
  match files !! path with Some (t, _) => <[path := (t, mode)]> files | None => files end.

Context `{P : JSONPretty} (join : string -> string -> string) (chmod_works : bool).

Definition config_path (outputDir : string) (config : FrostNodeConfig) : string :=
  join outputDir ("signer-" +:+ number_to_string (nc_signer_index config) +:+ ".json").

(** One iteration of the save loop, as the states it passes through. *)
Definition save_config (outputDir : string) (config : FrostNodeConfig) (files : gmap string (string * Z))
    : gmap string (string * Z) * gmap string (string * Z) :=
  let path := config_path outputDir config in
  let written := write_sync path (JSON_pretty (node_config_json config)) files in
  (written, if chmod_works then chmod_sync path OWNER_ONLY written else written).

Definition save_configs (outputDir : string) (configs : list FrostNodeConfig) (files : gmap string (string * Z))
    : gmap string (string * Z) :=
  fold_left (fun files c => (save_config outputDir c files).2) configs files.

Definition bootstrap (n : nat) (threshold basePort : number) (outputDir apiKey : string) : call Boot (list FrostNodeConfig) :=
  if negb (isFrostSignerAvailable executor) then boot_fail "frost-signer binary not found"
  else
  let total := num (Z.of_nat n) in
  await (run_round1 n 1 total threshold []) (fun round1 =>
  await (run_round2 round1 round1 0 []) (fun round2 =>
  await (run_round3 round1 round2 (zip round1 round2) 0 total threshold (peer_list n basePort apiKey) []) (fun configs s =>
  if negb (keys_agree configs) then boot_fail "Group pubkeys don't match!" s
  else ret configs (mkBoot (save_configs outputDir configs (bo_files s)) (bo_env s))))).
End packages.

(** ** Key generation for a threshold cluster: properties *)

(** ** Routing *)
Lemma assoc_set k k' v o : assoc k (set_field k' v o) = if k === k' then Some v else assoc k o.
Proof.
  induction o as [|[k0 v0] o IH]; cbn [set_field assoc]; [done|].
  destruct (bool_decide_reflect (k' = k0)) as [<-|Hne]; cbn [assoc].
  - by destruct (k === k').
  - rewrite IH. destruct (bool_decide_reflect (k = k0)) as [->|]; [|done]. by rewrite bool_decide_false.
Qed.

(** Every entry of the list but the [i]-th is put under its identifier, and
    nothing else is. *)
Lemma mine_from_spec i myId l j acc m :
  NoDup ((r1_identifier ∘ fst) <$> l) -> mine_from i j myId l acc = Ok m ->
  (forall k r1 r2, l !! k = Some (r1, r2) ->
     assoc (r1_identifier r1) m = if Nat.eqb (j + k) i then assoc (r1_identifier r1) acc else Some (prop myId (r2_packages r2))) /\
  (forall id, id ∉ (r1_identifier ∘ fst) <$> l -> assoc id m = assoc id acc).
Proof.
  revert j acc. induction l as [|[a b] l IH]; intros j acc Hd H.
  - injection H as <-. split; [intros k r1 r2 Hk; by rewrite lookup_nil in Hk|done].
  - rewrite fmap_cons in Hd. apply NoDup_cons in Hd as [Hnew Hd]. cbn [mine_from] in H.
    destruct (Nat.eqb_spec j i) as [Hji|Hji].
    + destruct (IH (S j) acc Hd H) as [H1 H2]. split.
      * intros [|k] r1 r2 Hk; cbn in Hk; [injection Hk as <- <-|].
        -- rewrite Nat.add_0_r, (proj2 (Nat.eqb_eq _ _) Hji). by apply H2.
        -- rewrite (H1 k r1 r2 Hk). by rewrite Nat.add_succ_r.
      * intros id Hid. rewrite fmap_cons in Hid. apply not_elem_of_cons in Hid as [_ Hid]. by apply H2.
    + apply bind_Ok in H as (package & Hp & H).
      assert (Hpk : package = prop myId (r2_packages b)) by (unfold prop_checked, raise_type_error in Hp; destruct (r2_packages b); congruence).
      destruct (IH (S j) _ Hd H) as [H1 H2]. split.
      * intros [|k] r1 r2 Hk; cbn in Hk; [injection Hk as <- <-|].
        -- rewrite Nat.add_0_r, (proj2 (Nat.eqb_neq _ _) Hji). rewrite H2 by done. rewrite assoc_set, bool_decide_true by done. by rewrite Hpk.
        -- rewrite (H1 k r1 r2 Hk), Nat.add_succ_r. destruct (Nat.eqb _ i); [|done]. rewrite assoc_set, bool_decide_false; [done|].
           intros Heq. apply Hnew. cbn. rewrite <- Heq. apply list_elem_of_fmap. exists (r1, r2). split; [done|].
           by eapply list_elem_of_lookup_2.
      * intros id Hid. rewrite fmap_cons in Hid. apply not_elem_of_cons in Hid as [Hne Hid]. rewrite H2 by done.
        rewrite assoc_set, bool_decide_false; [done|]. exact Hne.
Qed.

(** Routing: the round-2 packages handed to signer [i] are, for every other
    signer, exactly the one that signer made for [i], under the maker's
    identifier, and none from [i] itself. *)
Theorem packages_routed i myId round1 round2 m :
  NoDup (r1_identifier <$> round1) -> length round2 = length round1 -> r2ForMe i myId round1 round2 = Ok m ->
  forall j r1 r2, round1 !! j = Some r1 -> round2 !! j = Some r2 ->
    assoc (r1_identifier r1) m = if Nat.eqb j i then None else Some (prop myId (r2_packages r2)).
Proof.
  intros Hd Hl Hm j r1 r2 H1 H2. unfold r2ForMe in Hm. apply mine_from_spec in Hm as [Hm _].
  - apply (Hm j r1 r2). apply lookup_zip_Some. by split.
  - rewrite (list_fmap_compose fst r1_identifier (zip round1 round2)), fst_zip by lia. done.
Qed.

(** ** Success *)
Section success.
Context `{J : JSON} {E : Type} (spawn : list string -> E -> E * ProcOutcome) (executor : SidecarExecutor).
Context `{P : JSONPretty} (join : string -> string -> string) (chmod_works : bool).
Notation State := (Boot (E := E)).

Lemma outcome_sync {A B} R (r : res A) (k : A -> call State B) s b :
  outcome R (sync_part r k) s (Ok b) -> exists a, r = Ok a /\ outcome R (k a) s (Ok b).
Proof. destruct r as [a|e]; cbn; intros H; [by exists a|]. by apply resolves_Settled in H. Qed.

Lemma boot_fail_none {A} R m s (a : A) : ~ outcome R (boot_fail (E := E) m) s (Ok a).
Proof. intros H. by apply resolves_Settled in H. Qed.

Lemma round1_length R n i total threshold acc s l :
  outcome R (run_round1 spawn executor n i total threshold acc) s (Ok l) -> length l = (length acc + n)%nat.
Proof.
  revert i acc s. induction n as [|n IH]; intros i acc s H; cbn [run_round1] in H.
  - apply outcome_ret in H as [= ->]. lia.
  - apply outcome_await in H as (r & s1 & _ & _ & H). destruct (cr_ok r); cbn [negb] in H; [|by apply boot_fail_none in H].
    apply outcome_sync in H as (r1 & _ & H). apply IH in H. rewrite H, length_app. cbn. lia.
Qed.

Lemma round2_length R round1 pending i acc s l :
  outcome R (run_round2 spawn executor round1 pending i acc) s (Ok l) -> length l = (length acc + length pending)%nat.
Proof.
  revert i acc s. induction pending as [|p pending IH]; intros i acc s H; cbn [run_round2] in H.
  - apply outcome_ret in H as [= ->]. cbn. lia.
  - apply outcome_sync in H as (others & _ & H). apply outcome_await in H as (r & s1 & _ & _ & H).
    destruct (cr_ok r); cbn [negb] in H; [|by apply boot_fail_none in H].
    apply outcome_sync in H as (r2 & _ & H). apply IH in H. rewrite H, length_app. cbn. lia.
Qed.

(** The configurations of signers [i + 1], ... in order. *)
Definition configs_for (total threshold : number) (peers : list PeerConfig) (i : nat) (l : list FrostNodeConfig) : Prop :=
  forall k c, l !! k = Some c ->
    nc_signer_index c = num (Z.of_nat (S (i + k))) /\ nc_total_signers c = total /\ nc_threshold c = threshold /\ nc_peers c = peers.

Lemma round3_configs R round1 round2 pending i total threshold peers acc s l :
  length acc = i -> configs_for total threshold peers 0 acc ->
  outcome R (run_round3 spawn executor round1 round2 pending i total threshold peers acc) s (Ok l) ->
  length l = (i + length pending)%nat /\ configs_for total threshold peers 0 l.
Proof.
  revert i acc s. induction pending as [|[r1 r2] pending IH]; intros i acc s Hi Hacc H; cbn [run_round3] in H.
  - apply outcome_ret in H as [= ->]. cbn. split; [lia|done].
  - apply outcome_sync in H as (others & _ & H). apply outcome_sync in H as (forMe & _ & H).
    apply outcome_await in H as (r & s1 & _ & _ & H). destruct (cr_ok r); cbn [negb] in H; [|by apply boot_fail_none in H].
    apply outcome_sync in H as (c & Hc & H).
    apply bind_Ok in Hc as (d & _ & Hc). apply bind_Ok in Hc as (g & _ & Hc). injection Hc as <-.
    apply IH in H as [H1 H2]; [|rewrite length_app; cbn; lia|].
    + split; [cbn; lia|done].
    + intros k c [Hk|[Hk Hc]]%lookup_app_Some; [by apply Hacc|]. apply list_lookup_singleton_Some in Hc as [Hz <-].
      cbn [nc_signer_index nc_total_signers nc_threshold nc_peers]. split_and!; try done. do 2 f_equal. lia.
Qed.

Lemma keys_agree_all configs : keys_agree configs = true ->
  configs <> [] /\ forall c c', c ∈ configs -> c' ∈ configs -> nc_group_pubkey c = nc_group_pubkey c'.
Proof.
  destruct configs as [|c0 cs]; [done|]. intros H. split; [done|]. cbn in H. rewrite forallb_forall in H.
  assert (Hall : forall c, c ∈ c0 :: cs -> nc_group_pubkey c = nc_group_pubkey c0).
  { intros c [->|Hc]%elem_of_cons; [done|]. apply list_elem_of_In, H in Hc. by apply bool_decide_eq_true_1 in Hc. }
  intros c c' Hc Hc'. by rewrite (Hall c Hc), (Hall c' Hc').
Qed.

(** A successful bootstrap of [n] signers yields one configuration per signer,
    numbered 1 to [n], all with the same threshold, total and peers, and all with
    the same group key; there is at least one. *)
Theorem bootstrap_consistent R n threshold basePort dir apiKey s configs :
  outcome R (bootstrap spawn executor join chmod_works n threshold basePort dir apiKey) s (Ok configs) ->
  length configs = n /\ configs <> [] /\
  configs_for (num (Z.of_nat n)) threshold (peer_list n basePort apiKey) 0 configs /\
  (forall c c', c ∈ configs -> c' ∈ configs -> nc_group_pubkey c = nc_group_pubkey c').
Proof.
  unfold bootstrap. intros H. destruct (isFrostSignerAvailable executor); cbn [negb] in H; [|by apply boot_fail_none in H].
  apply outcome_await in H as (round1 & s1 & Hr1 & _ & H). apply outcome_await in H as (round2 & s2 & Hr2 & _ & H).
  apply outcome_await in H as (cs & s3 & Hr3 & _ & H).
  apply round1_length in Hr1. apply round2_length in Hr2. cbn [length] in *.
  apply round3_configs in Hr3 as [Hl Hc]; [|done|intros k c Hk; by rewrite lookup_nil in Hk].
  unfold outcome in H. destruct (keys_agree cs) eqn:Hk; cbn [negb] in H; [|by apply resolves_Settled in H].
  apply resolves_Settled in H. injection H as ->. destruct (keys_agree_all cs Hk) as [Hne Hsame].
  split_and!; try done. rewrite Hl, length_zip. lia.
Qed.

(** ** The files *)
Lemma save_other dir c files path : config_path join dir c <> path ->
  (save_config join chmod_works dir c files).2 !! path = files !! path.
Proof.
  intros Hne. unfold save_config, write_sync, chmod_sync. cbn [snd]. destruct chmod_works; [|by rewrite lookup_insert_ne].
  rewrite lookup_insert_eq. by rewrite !lookup_insert_ne.
Qed.

Lemma save_own dir c files :
  chmod_works = true ->
  (save_config join chmod_works dir c files).2 !! config_path join dir c = Some (JSON_pretty (node_config_json c), OWNER_ONLY).
Proof. intros ->. unfold save_config, write_sync, chmod_sync. cbn [snd]. rewrite lookup_insert_eq. apply lookup_insert_eq. Qed.

(** Every share is stored, readable by its owner only, when permissions can be
    set and the files have different names. *)
Theorem shares_stored dir configs files :
  chmod_works = true -> NoDup (config_path join dir <$> configs) ->
  forall c, c ∈ configs ->
    save_configs join chmod_works dir configs files !! config_path join dir c = Some (JSON_pretty (node_config_json c), OWNER_ONLY).
Proof.
  intros Hch. unfold save_configs. revert files. induction configs as [|c0 configs IH]; intros files Hd c Hc.
  { by apply not_elem_of_nil in Hc. }
  rewrite fmap_cons in Hd. apply NoDup_cons in Hd as [Hnew Hd]. cbn [fold_left]. apply elem_of_cons in Hc as [->|Hc]; [|by apply IH].
  assert (Hkeep : forall l fs, config_path join dir c0 ∉ config_path join dir <$> l ->
    fold_left (fun files c => (save_config join chmod_works dir c files).2) l fs !! config_path join dir c0 =
    fs !! config_path join dir c0).
  { induction l as [|x l IHl]; intros fs Hx; [done|]. rewrite fmap_cons in Hx. apply not_elem_of_cons in Hx as [Hxne Hx].
    cbn [fold_left]. rewrite IHl by done. by apply save_other. }
  rewrite Hkeep by done. by apply save_own.
Qed.

(** ... but each new file exists with the default mode, holding the share, before
    its mode is restricted. *)
Theorem share_readable_before_chmod dir c files :
  files !! config_path join dir c = None ->
  (save_config join chmod_works dir c files).1 !! config_path join dir c = Some (JSON_pretty (node_config_json c), DEFAULT_MODE).
Proof. intros H. unfold save_config, write_sync. cbn [fst]. rewrite H. apply lookup_insert_eq. Qed.
End success.

(** ** Witnesses: a binary that answers each round *)
Definition dkg_reply (v : jsval) : ProcOutcome := ProcExited 0 (codec_stringify v) "".
Definition dkg_spawn (cmd : list string) (e : nat) : nat * ProcOutcome :=
  match cmd !! 1 with
  | Some "dkg-round1" =>
      (S e, dkg_reply (VObj [("secret_package", VObj [("identifier", VStr ("id" +:+ pretty e))]); ("package", VNum (num (Z.of_nat e)))]))
  | Some "dkg-round2" =>
      (e, dkg_reply (VObj [("secret_package", VNull); ("packages", VObj [("id0", VStr "for0"); ("id1", VStr "for1")])]))
  | _ => (e, dkg_reply (VObj [("key_package", VStr "k"); ("pubkey_package", VStr "p"); ("group_pubkey", VStr "group")]))
  end.
Definition dkg_executor : SidecarExecutor := mkExecutor (fun _ => false) (fun n => Some n) (fun _ => []).

Definition dkg_run : call (Boot (E := nat)) (list FrostNodeConfig) :=
  bootstrap (J := codec) dkg_spawn dkg_executor (P := codec_pretty) (fun d f => d +:+ "/" +:+ f) true 2 (num 2) (num 4001) ".frost" "key".
Definition dkg_configs : list FrostNodeConfig :=
  (fun i => mkNodeConfig (num i) (num 2) (num 2) (VStr "k") (VStr "p") "group" (peer_list 2 (num 4001) "key")) <$> [1; 2]%Z.

Lemma bootstrap_consistent_witness :
  length dkg_configs = 2%nat /\ dkg_configs <> [] /\
  configs_for (num 2) (num 2) (peer_list 2 (num 4001) "key") 0 dkg_configs /\
  (forall c c', c ∈ dkg_configs -> c' ∈ dkg_configs -> nc_group_pubkey c = nc_group_pubkey c').
Proof.
  apply (bootstrap_consistent (J := codec) dkg_spawn dkg_executor (P := codec_pretty) (fun d f => d +:+ "/" +:+ f) true (fun _ => True)
    2 (num 2) (num 4001) ".frost" "key" (mkBoot ∅ 0)).
  apply run_call_outcome. vm_compute. reflexivity.
Defined.

Definition two_round1 : list Round1 := [mkRound1 "s" "p" "a"; mkRound1 "s" "p" "b"].
Definition two_round2 : list Round2 := [mkRound2 "s" (VObj [("b", VStr "a-to-b")]); mkRound2 "s" (VObj [("a", VStr "b-to-a")])].

Lemma packages_routed_witness : assoc "b" [("b", VStr "b-to-a")] = Some (VStr "b-to-a").
Proof.
  apply (packages_routed 0 "a" two_round1 two_round2 [("b", VStr "b-to-a")] ltac:(vm_compute; repeat constructor; set_solver) eq_refl eq_refl 1
    (mkRound1 "s" "p" "b") (mkRound2 "s" (VObj [("a", VStr "b-to-a")])) eq_refl eq_refl).
Defined.

Lemma shares_stored_witness :
  forall c, c ∈ dkg_configs ->
    save_configs (P := codec_pretty) (fun d f => d +:+ "/" +:+ f) true ".frost" dkg_configs ∅ !!
      config_path (fun d f => d +:+ "/" +:+ f) ".frost" c = Some (codec_stringify (node_config_json c), OWNER_ONLY).
Proof.
  apply (shares_stored (P := codec_pretty) (fun d f => d +:+ "/" +:+ f) true ".frost" dkg_configs ∅); [reflexivity|].
  vm_compute. repeat constructor; set_solver.
Defined.

Lemma share_readable_before_chmod_witness :
  (save_config (P := codec_pretty) (fun d f => d +:+ "/" +:+ f) true ".frost" sample_node ∅).1 !!
    config_path (fun d f => d +:+ "/" +:+ f) ".frost" sample_node = Some (codec_stringify (node_config_json sample_node), DEFAULT_MODE).
Proof. apply (share_readable_before_chmod (P := codec_pretty) (fun d f => d +:+ "/" +:+ f) true ".frost" sample_node ∅). reflexivity. Defined.
