(* ===== verification/Runtime.v ===== *)
(** * The server runtime: processes, binaries, logging

    [packages/sdk/src/internal/runtime]: [process.ts] (spawning with eagerly
    collected output), [which.ts] and [sidecar-execution.ts] (locating binaries),
    [env.ts], [runtime.ts], and the pipeline of [logger.ts].  The operating system
    and the logging library are arguments. *)

From S2P Require Import Prelude JsNum JsMap JsString JsValue JsonCodec PreimageStore Sidecar Config.

(** ** [process.ts] *)
Definition mapStdio (value : option string) : string :=
  match value with
  | Some v => if v === "pipe" then "piped" else if v === "ignore" then "null" else "inherit"
  | None => "inherit"
  end.

Record SpawnOptions := mkSpawnOptions {
  so_stdout : option string;
  so_stderr : option string;
  so_stdin : option string;
  so_cwd : option string;
  so_env : option (list (string * string));
}.

(** The arguments of [new Deno.Command]. *)
Record Command := mkCommand {
  cm_command : string;
  cm_args : list string;
  cm_stdout : string;
  cm_stderr : string;
  cm_stdin : string;
  cm_cwd : option string;
  cm_env : option (list (string * string));
}.

Definition spawn_command (cmd : list string) (opts : option SpawnOptions) : res Command :=
  match cmd with
  | [] => Throw (mkExn "Error" "Cannot spawn an empty command")
  | command :: args =>
      Ok (mkCommand command args (mapStdio (opts ≫= so_stdout)) (mapStdio (opts ≫= so_stderr)) (mapStdio (opts ≫= so_stdin))
            (opts ≫= so_cwd) (opts ≫= so_env))
  end.

Inductive Pipe := Stdout | Stderr.

(** What a child does, as the runtime sees it: output on a pipe, the end or the
    failure of a pipe, and the exit, in any order. *)
Inductive ChildEvent :=
| Chunk (p : Pipe) (bytes : list Z)
| PipeClosed (p : Pipe)
| PipeBroken (p : Pipe)
| Exited (code : Z).

(** The closure of [collectStream]: the chunks read so far and whether the reading
    loop has ended. *)
Record Collector := mkCollector { co_chunks : list (list Z); co_done : bool }.

(** [collectStream(stream)]: a missing stream is an empty, closed one. *)
Definition collectStream (piped : bool) : Collector := mkCollector [] (negb piped).

Definition pipe_is (p p' : Pipe) : bool := match p, p' with Stdout, Stdout | Stderr, Stderr => true | _, _ => false end.

Definition collect (p : Pipe) (ev : ChildEvent) (c : Collector) : Collector :=
  if co_done c then c
  else match ev with
       | Chunk p' b => if pipe_is p p' then mkCollector (co_chunks c ++ [b]) false else c
       | PipeClosed p' | PipeBroken p' => if pipe_is p p' then mkCollector (co_chunks c) true else c
       | Exited _ => c
       end.

Record SpawnResult := mkSpawnResult { sp_stdout : Collector; sp_stderr : Collector; sp_exitCode : option Z }.

(** [spawn] with a child whose pipes are present or not. *)
Definition spawned (out err : bool) : SpawnResult := mkSpawnResult (collectStream out) (collectStream err) None.

Definition child_event (r : SpawnResult) (ev : ChildEvent) : SpawnResult :=
  mkSpawnResult (collect Stdout ev (sp_stdout r)) (collect Stderr ev (sp_stderr r))
    (match ev with Exited code => Some code | _ => sp_exitCode r end).

(** Reading the returned stream to its end: the chunks once the loop has ended;
    until then the reader waits. *)
Definition replay (c : Collector) : option (list Z) := if co_done c then Some (concat (co_chunks c)) else None.

(** Reference: one reader that consumes a pipe until it ends or fails. *)
Fixpoint read_pipe (p : Pipe) (evs : list ChildEvent) : option (list Z) :=
  match evs with
  | [] => None
  | Chunk p' b :: evs' => if pipe_is p p' then app b <$> read_pipe p evs' else read_pipe p evs'
  | PipeClosed p' :: evs' | PipeBroken p' :: evs' => if pipe_is p p' then Some [] else read_pipe p evs'
  | Exited _ :: evs' => read_pipe p evs'
  end.

Lemma collect_done p evs c : co_done c = true -> foldl (fun c ev => collect p ev c) c evs = c.
Proof. intros H. induction evs as [|ev evs IH]; [done|]. cbn. unfold collect at 2. by rewrite H. Qed.

Lemma collect_all p evs c : co_done c = false ->
  replay (foldl (fun c ev => collect p ev c) c evs) = app (concat (co_chunks c)) <$> read_pipe p evs.
Proof.
  revert c. induction evs as [|ev evs IH]; intros c Hc; [unfold replay; cbn; by rewrite Hc|].
  destruct ev as [p' b|p'|p'|code]; cbn [foldl read_pipe]; unfold collect at 2; rewrite Hc.
  - destruct (pipe_is p p'); [|by apply IH]. rewrite IH by done. cbn [co_chunks]. rewrite concat_app. cbn. rewrite app_nil_r.
    destruct (read_pipe p evs); [|done]. cbn. by rewrite <- app_assoc.
  - destruct (pipe_is p p'); [|by apply IH]. rewrite collect_done by done. unfold replay. cbn. by rewrite app_nil_r.
  - destruct (pipe_is p p'); [|by apply IH]. rewrite collect_done by done. unfold replay. cbn. by rewrite app_nil_r.
  - by apply IH.
Qed.

Lemma child_split evs r :
  let r' := foldl child_event r evs in
  sp_stdout r' = foldl (fun c ev => collect Stdout ev c) (sp_stdout r) evs /\
  sp_stderr r' = foldl (fun c ev => collect Stderr ev c) (sp_stderr r) evs.
Proof. revert r. induction evs as [|ev evs IH]; intros r; [done|]. apply (IH (child_event r ev)). Qed.

(** However output on the two pipes and the exit interleave, each returned stream
    replays exactly what a dedicated reader of that pipe sees, in order, ending
    where the pipe ends or fails; and the exit code is unknown until an exit. *)
Theorem output_replayed evs :
  let r := foldl child_event (spawned true true) evs in
  replay (sp_stdout r) = read_pipe Stdout evs /\ replay (sp_stderr r) = read_pipe Stderr evs /\
  (Forall (fun ev => match ev with Exited _ => False | _ => True end) evs -> sp_exitCode r = None).
Proof.
  cbv zeta. destruct (child_split evs (spawned true true)) as [-> ->]. split_and!.
  - rewrite collect_all by done. cbn. by destruct (read_pipe Stdout evs).
  - rewrite collect_all by done. cbn. by destruct (read_pipe Stderr evs).
  - intros H. assert (Hg : forall r, sp_exitCode r = None -> sp_exitCode (foldl child_event r evs) = None); [|by apply Hg].
    induction H as [|ev evs Hev _ IH]; intros r Hr; [done|]. cbn. apply IH. by destruct ev.
Qed.

Example output_replayed_ex :
  let r := foldl child_event (spawned true false)
    [Chunk Stdout [1]; Chunk Stderr [9]; Exited 3; Chunk Stdout [2; 3]; PipeBroken Stdout; Chunk Stdout [4]]%Z in
  (replay (sp_stdout r), replay (sp_stderr r), sp_exitCode r) = (Some [1; 2; 3]%Z, Some [], Some 3%Z).
Proof. reflexivity. Qed.

(** ** [which.ts], [sidecar-execution.ts] *)
Section binaries.
(** [outputSync] of [which name] (exit code and decoded output) and [statSync]. *)
Context (run_which : string -> res (Z * string)) (stat_isFile : string -> res bool) (localPaths : string -> list string).

Definition which (name : string) : option string :=
  match run_which name with
  | Throw _ => None
  | Ok (code, stdout) => if negb (Z.eqb code 0) then None else truthy (Some (trim stdout))
  end.

Definition isFile (path : string) : bool := match stat_isFile path with Ok b => b | Throw _ => false end.

Definition serverSidecarExecutor : SidecarExecutor := mkExecutor isFile which localPaths.

(** A binary that is found is a local file that exists, or what a successful
    [which] printed when no local file exists: a trimmed, non-empty path. *)
Theorem found_binary_sound name p : find_binary serverSidecarExecutor name = Some p ->
  (In p (localPaths name) /\ stat_isFile p = Ok true) \/
  (Forall (fun q => stat_isFile q <> Ok true) (localPaths name) /\
   exists stdout, run_which name = Ok (0%Z, stdout) /\ p = trim stdout /\ trim p = p /\ p <> "").
Proof.
  assert (Hf : forall q, isFile q = true <-> stat_isFile q = Ok true)
    by (intros q; unfold isFile; destruct (stat_isFile q) as [[]|]; split; congruence).
  unfold find_binary. cbn. destruct (List.find isFile (localPaths name)) as [q|] eqn:Hq.
  - intros [= <-]. apply find_some in Hq as [Hin Hq]. left. split; [done|]. by apply Hf.
  - intros Hw. right. split; [apply Forall_forall; intros q Hin Hs; apply Hf in Hs; rewrite (find_none _ _ Hq q) in Hs;
      [done|by apply list_elem_of_In]|].
    unfold which in Hw. destruct (run_which name) as [[code out]|]; [|done].
    destruct (Z.eqb_spec code 0) as [->|]; cbn [negb] in Hw; [|done]. exists out.
    apply truthy_Some in Hw as [Hw Hne]. injection Hw as <-. split_and!; try done. apply trim_idem.
Qed.
End binaries.

Lemma found_binary_sound_witness :
  (In "/usr/bin/gpg" [] /\ (Ok false : res bool) = Ok true) \/
  (Forall (fun q : string => (Ok false : res bool) <> Ok true) [] /\
   exists stdout, (Ok (0%Z, " /usr/bin/gpg ") : res (Z * string)) = Ok (0%Z, stdout) /\
     "/usr/bin/gpg" = trim stdout /\ trim "/usr/bin/gpg" = "/usr/bin/gpg" /\ "/usr/bin/gpg" <> "").
Proof. apply (found_binary_sound (fun _ => Ok (0%Z, " /usr/bin/gpg ")) (fun _ => Ok false) (fun _ => []) "gpg"). reflexivity. Defined.

(** ** [env.ts], on the decoded path of the module *)
Fixpoint last_slash (i : Z) (l : list Ascii.ascii) (found : Z) : Z :=
  match l with
  | [] => found
  | c :: l' => last_slash (i + 1) l' (if Nat.eqb (code c) 47 then i else found)
  end.

Definition moduleDir (pathname : string) : string :=
  let slash := last_slash 0 (chars pathname) (-1) in
  if (slash <=? 0)%Z then "/" else of_chars (take (Z.to_nat slash) (chars pathname)).

Lemma last_slash_none i l found : Forall (fun c => code c <> 47%nat) l -> last_slash i l found = found.
Proof. intros H. revert i. induction H as [|c l Hc _ IH]; intros i; [done|]. cbn. rewrite (proj2 (Nat.eqb_neq _ _) Hc). apply IH. Qed.

Lemma last_slash_app i l c l' found :
  code c = 47%nat -> Forall (fun c => code c <> 47%nat) l' -> last_slash i (l ++ c :: l') found = (i + Z.of_nat (length l))%Z.
Proof.
  intros Hc Hl. revert i found. induction l as [|x l IH]; intros i found; cbn [last_slash app].
  - rewrite (proj2 (Nat.eqb_eq _ _) Hc), last_slash_none by done. cbn. lia.
  - rewrite IH. cbn [length]. lia.
Qed.

(** The directory of a module [dir/base] is [dir]. *)
Theorem moduleDir_of_file dir base : dir <> "" -> Forall (fun c => code c <> 47%nat) (chars base) ->
  moduleDir (dir +:+ "/" +:+ base) = dir.
Proof.
  intros Hd Hb. unfold moduleDir. rewrite !chars_app. cbn [chars String.list_ascii_of_string app].
  rewrite last_slash_app by done. destruct (Z.leb_spec (0 + Z.of_nat (length (chars dir))) 0) as [Hle|Hgt].
  - destruct (chars dir) eqn:E; [|cbn in Hle; lia]. apply (f_equal of_chars) in E. by rewrite of_chars_chars in E.
  - rewrite Z.add_0_l, Nat2Z.id, take_app_length. apply of_chars_chars.
Qed.

Lemma moduleDir_of_file_witness : moduleDir "/srv/app/mod.ts" = "/srv/app".
Proof. apply (moduleDir_of_file "/srv/app" "mod.ts"); [done|]. repeat constructor; done. Defined.

(** ** [runtime.ts], given the globals *)
Inductive RuntimeTarget := RBrowser | RDeno | RNode | RWorker.

Definition isNodeProcess (value : jsval) : bool :=
  isRecord value && has_prop "versions" value &&
  let versions := prop "versions" value in
  isRecord versions && has_prop "node" versions && is_str (prop "node" versions).

Definition detectRuntimeTarget (denoVersion : option string) (process importScripts : jsval) : RuntimeTarget :=
  match denoVersion with
  | Some _ => RDeno
  | None => if isNodeProcess process then RNode else if is_fun importScripts then RWorker else RBrowser
  end.

Section targets.
Context (denoVersion : option string) (process importScripts : jsval).
Notation target := (detectRuntimeTarget denoVersion process importScripts).

Definition isBrowserRuntime : bool := match target with RBrowser => true | _ => false end.
Definition isDenoRuntime : bool := match target with RDeno => true | _ => false end.
Definition isNodeRuntime : bool := match target with RNode => true | _ => false end.
Definition isWorkerRuntime : bool := match target with RWorker => true | _ => false end.

(** Exactly one of the four holds, whatever the globals are. *)
Lemma one_runtime : List.filter id [isBrowserRuntime; isDenoRuntime; isNodeRuntime; isWorkerRuntime] = [true].
Proof. unfold isBrowserRuntime, isDenoRuntime, isNodeRuntime, isWorkerRuntime. by destruct target. Qed.
End targets.

Example detectRuntimeTarget_ex :
  detectRuntimeTarget None (VObj [("versions", VObj [("node", VStr "22")])]) VFun = RNode /\
  detectRuntimeTarget None (VObj []) VFun = RWorker.
Proof. split; reflexivity. Qed.

(** ** [logger.ts] *)

(** An argument of a log call: an [Error], a value, or a value [JSON.stringify]
    throws on (a cycle), with its [String(value)]. *)
Inductive LogArg :=
| LogError (stack : option string) (message : string)
| LogValue (v : jsval)
| LogCyclic (text : string).

Section logger.
Context `{J : JSON}.

(** [undefined] and functions have no JSON text: the result is then [undefined]. *)
Definition formatArg (value : LogArg) : option string :=
  match value with
  | LogError stack message => Some (opt_default message stack)
  | LogValue (VStr s) => Some s
  | LogValue (VUndef | VFun) => None
  | LogValue v => Some (JSON_stringify v)
  | LogCyclic text => Some text
  end.

(** [Array.prototype.join] renders [undefined] as the empty string. *)
Definition joinArgs (args : list LogArg) : string := js_join " " (opt_default "" ∘ formatArg <$> args).
End logger.

Record LoggerEntry := mkLoggerEntry { le_category : list string; le_lowestLevel : jsval }.
Record Pipeline (Sink : Type) := mkPipeline { pl_sink : Sink; pl_loggers : list LoggerEntry }.
Arguments mkPipeline {Sink}. Arguments pl_sink {Sink}. Arguments pl_loggers {Sink}.

Record LoggingOptions (Sink : Type) := mkLoggingOptions {
  lo_sink : option Sink;
  lo_reset : option bool;
  lo_config : option (option string);
}.
Arguments mkLoggingOptions {Sink}. Arguments lo_sink {Sink}. Arguments lo_reset {Sink}. Arguments lo_config {Sink}.

Section pipeline.
(** The library's state, [configureSync] (with its [reset] flag) and console sink,
    and the level the environment configures. *)
Context {Sink LT : Type} (configureSync : bool -> Pipeline Sink -> LT -> LT * res unit).
Context (consoleSink : Sink) (getLoggingConfig : option string).

Record LogState := mkLogState { lg_configured : bool; lg_lib : LT }.

Definition anchr_pipeline (options : LoggingOptions Sink) : Pipeline Sink :=
  mkPipeline (opt_default consoleSink (lo_sink options))
    [mkLoggerEntry [] (configuredLogLevel (opt_default getLoggingConfig (lo_config options)));
     mkLoggerEntry ["logtape"; "meta"] (VStr "warning")].

(** An exception of [configureSync] is swallowed. *)
Definition configureAnchrLogging (options : LoggingOptions Sink) (s : LogState) : LogState :=
  mkLogState true (configureSync (opt_default false (lo_reset options)) (anchr_pipeline options) (lg_lib s)).1.

Definition no_logging_options : LoggingOptions Sink := mkLoggingOptions None None None.

Definition ensureConfigured (s : LogState) : LogState :=
  if lg_configured s then s else configureAnchrLogging no_logging_options s.

(** The effect of [getLogger] on the pipeline. *)
Definition getLogger (s : LogState) : LogState := ensureConfigured s.

Inductive LogOp := OpGetLogger | OpConfigure (options : LoggingOptions Sink).
Definition log_op (s : LogState) (op : LogOp) : LogState :=
  match op with OpGetLogger => getLogger s | OpConfigure options => configureAnchrLogging options s end.

(** The library refuses to replace a configuration unless asked to. *)
Context (is_configured : LT -> Prop).
Context (no_silent_replacement : forall p lt, is_configured lt -> (configureSync false p lt).1 = lt).

(** A host that configured the library first keeps its pipeline: no sequence of
    loggers and of configurations without [reset] changes it. *)
Theorem host_pipeline_wins s ops :
  is_configured (lg_lib s) -> Forall (fun op => match op with OpGetLogger => True | OpConfigure o => lo_reset o <> Some true end) ops ->
  lg_lib (foldl log_op s ops) = lg_lib s.
Proof.
  intros Hs H. revert s Hs. induction H as [|op ops Hop _ IH]; intros s Hs; [done|]. cbn [foldl].
  assert (Hone : lg_lib (log_op s op) = lg_lib s).
  { destruct op as [|o]; cbn.
    - unfold getLogger, ensureConfigured. destruct (lg_configured s); [done|]. by apply no_silent_replacement.
    - destruct (lo_reset o) as [[]|]; [done| |]; by apply no_silent_replacement. }
  rewrite IH; [done|by rewrite Hone].
Qed.
End pipeline.

(** The implicit configuration happens at most once: creating more loggers leaves
    the pipeline alone, whatever the library did with the first attempt. *)
Lemma getLogger_once {Sink LT} (configureSync : bool -> Pipeline Sink -> LT -> LT * res unit) c g s n :
  Nat.iter (S n) (getLogger configureSync c g) s = getLogger configureSync c g s.
Proof.
  induction n as [|n IH]; [done|]. change (Nat.iter (S (S n)) ?f s) with (f (Nat.iter (S n) f s)). rewrite IH.
  unfold getLogger, ensureConfigured. destruct (lg_configured s) eqn:E; [by rewrite E|done].
Qed.

Definition toy_configure (reset : bool) (p : Pipeline string) (lt : option (Pipeline string)) : option (Pipeline string) * res unit :=
  match lt with
  | Some q => if reset then (Some p, Ok tt) else (Some q, Throw (mkExn "ConfigError" "already configured"))
  | None => (Some p, Ok tt)
  end.

Lemma host_pipeline_wins_witness :
  let host := Some (mkPipeline "host" []) in
  lg_lib (foldl (log_op toy_configure "console" None) (mkLogState false host)
    [OpGetLogger; OpConfigure (mkLoggingOptions (Some "mine") None None)]) = host.
Proof.
  apply (host_pipeline_wins toy_configure "console" None (fun lt => lt <> None)).
  - intros p [q|] H; [done|by destruct H].
  - done.
  - repeat constructor. done.
Defined.

(** An undefined argument leaves an empty place in the line. *)
Example joinArgs_ex :
  joinArgs (J := codec) [LogValue (VStr "a"); LogValue VUndef; LogError None "boom"] = "a  boom".
Proof. reflexivity. Qed.
