(* ===== verification/MemoryRelay.v ===== *)
(** * The in-memory relay and payment client

    [packages/sdk/src/testing/relay.ts] and [cashu.ts]: the adapters the SDK ships
    for simulations.  The relay keeps its subscriptions in opening order and hands
    an event to each matching one in a microtask of its own, so that delivery
    happens after [publish] returns.  [mr_delivered] is not in the code: it records
    the calls of the handlers, in order. *)

From S2P Require Import Prelude JsNum JsMap JsString JsValue EventLoop Nostr NostrEvents RelayClient CashuTypes CashuClient Provider.

(** ** Filters *)

(** One [#x] entry of a filter: [values.some((v) => eventValues.includes(v))] over
    the second components of the event's tags of that name. *)
Definition tag_filter_passes (event : Event) (entry : string * list string) : bool :=
  let eventValues := (fun t => t !! 1) <$> List.filter (fun t => bool_decide (t !! 0 = Some entry.1)) (ev_tags event) in
  existsb (fun v => bool_decide (Some v ∈ eventValues)) entry.2.

Definition matchesFilter (filter : Filter) (event : Event) : bool :=
  if negb (bool_decide (ev_kind event ∈ fl_kinds filter)) then false
  else if match fl_authors filter with Some authors => negb (bool_decide (ev_pubkey event ∈ authors)) | None => false end then false
  else forallb (tag_filter_passes event) (fl_tags filter).

Lemma tag_filter_spec event entry : tag_filter_passes event entry = tag_matches (ev_tags event) entry.
Proof.
  apply eq_bool_prop_intro. rewrite !Is_true_true. unfold tag_filter_passes, tag_matches. rewrite !existsb_exists. split.
  - intros (v & Hv & H). apply bool_decide_eq_true, list_elem_of_fmap in H as (t & Ht & Hin).
    apply list_elem_of_In, filter_In in Hin as [Hin Hk]. exists t. split; [done|]. rewrite Hk, <- Ht. cbn.
    by apply bool_decide_eq_true, list_elem_of_In.
  - intros (t & Hin & [Hk Hv]%andb_true_iff). destruct (t !! 1) as [v|] eqn:Ev; [|done]. apply bool_decide_eq_true in Hv.
    exists v. split; [by apply list_elem_of_In|]. apply bool_decide_eq_true, list_elem_of_fmap. exists t. split; [done|].
    by apply list_elem_of_In, filter_In.
Qed.

(** The filter of the in-memory relay is the one relays are assumed to apply. *)
Lemma matchesFilter_spec filter event : matchesFilter filter event = filter_matches filter event.
Proof.
  unfold matchesFilter, filter_matches. destruct (bool_decide (ev_kind event ∈ fl_kinds filter)); cbn [negb andb]; [|done].
  assert (Ht : forallb (tag_filter_passes event) (fl_tags filter) = forallb (tag_matches (ev_tags event)) (fl_tags filter)).
  { induction (fl_tags filter) as [|x l IH]; [done|]. cbn. by rewrite tag_filter_spec, IH. }
  rewrite Ht. destruct (fl_authors filter) as [authors|]; [|done]. by destruct (bool_decide (ev_pubkey event ∈ authors)).
Qed.

(** ** The relay *)
Record SubRecord := mkSubRecord { sb_id : nat; sb_filter : Filter }.

Record MemoryRelay := mkMemoryRelay {
  mr_subscriptions : list SubRecord;
  mr_nextId : nat;
  mr_microtasks : list (SubRecord * Event);
  mr_delivered : list (SubRecord * Event);
}.

Definition createInMemoryRelayClient : MemoryRelay := mkMemoryRelay [] 1 [] [].

Definition relay_publish (event : Event) (r : MemoryRelay) : MemoryRelay :=
  mkMemoryRelay (mr_subscriptions r) (mr_nextId r)
    (mr_microtasks r ++ ((fun sub => (sub, event)) <$> List.filter (fun sub => matchesFilter (sb_filter sub) event) (mr_subscriptions r)))
    (mr_delivered r).

Definition relay_subscribe (filter : Filter) (r : MemoryRelay) : MemoryRelay * nat :=
  (mkMemoryRelay (mr_subscriptions r ++ [mkSubRecord (mr_nextId r) filter]) (S (mr_nextId r)) (mr_microtasks r) (mr_delivered r),
   mr_nextId r).

Definition relay_close_sub (id : nat) (r : MemoryRelay) : MemoryRelay :=
  mkMemoryRelay (List.filter (fun sub => negb (Nat.eqb (sb_id sub) id)) (mr_subscriptions r)) (mr_nextId r) (mr_microtasks r)
    (mr_delivered r).

Definition relay_close (r : MemoryRelay) : MemoryRelay := mkMemoryRelay [] (mr_nextId r) (mr_microtasks r) (mr_delivered r).

(** The event loop runs the oldest microtask: [sub.onEvent(event)]. *)
Definition run_microtask (r : MemoryRelay) : MemoryRelay :=
  match mr_microtasks r with
  | [] => r
  | d :: rest => mkMemoryRelay (mr_subscriptions r) (mr_nextId r) rest (mr_delivered r ++ [d])
  end.

Inductive relay_op :=
| RelayPublish (event : Event)
| RelaySubscribe (filter : Filter)
| RelayCloseSub (id : nat)
| RelayClose
| RelayTick.

Definition relay_step (r : MemoryRelay) (op : relay_op) : MemoryRelay :=
  match op with
  | RelayPublish event => relay_publish event r
  | RelaySubscribe filter => (relay_subscribe filter r).1
  | RelayCloseSub id => relay_close_sub id r
  | RelayClose => relay_close r
  | RelayTick => run_microtask r
  end.

Definition relay_run (ops : list relay_op) (r : MemoryRelay) : MemoryRelay := foldl relay_step r ops.

(** Everything handed over, or about to be. *)
Definition relay_queue (r : MemoryRelay) : list (SubRecord * Event) := mr_delivered r ++ mr_microtasks r.

(** What one operation adds to it. *)
Definition op_sends (r : MemoryRelay) (op : relay_op) : list (SubRecord * Event) :=
  match op with
  | RelayPublish event =>
      (fun sub => (sub, event)) <$> List.filter (fun sub => matchesFilter (sb_filter sub) event) (mr_subscriptions r)
  | _ => []
  end.

Lemma relay_queue_step r op : relay_queue (relay_step r op) = relay_queue r ++ op_sends r op.
Proof.
  unfold relay_queue. destruct op; cbn; rewrite ?app_nil_r; try done; [by rewrite app_assoc|].
  unfold run_microtask. destruct (mr_microtasks r) as [|d rest] eqn:E; cbn; [by rewrite E|]. by rewrite <- app_assoc.
Qed.

(** Subscriptions have distinct, spent identifiers. *)
Definition relay_wf (r : MemoryRelay) : Prop :=
  NoDup (sb_id <$> mr_subscriptions r) /\ Forall (fun s => (sb_id s < mr_nextId r)%nat) (mr_subscriptions r).

Lemma filter_sublist {A} (f : A -> bool) l : List.filter f l `sublist_of` l.
Proof. induction l as [|x l IH]; cbn; [constructor|]. destruct (f x); by constructor. Qed.

Lemma relay_wf_step r op : relay_wf r -> relay_wf (relay_step r op).
Proof.
  intros [H1 H2]. destruct op as [ev|f|id| |]; cbn; unfold relay_wf; cbn.
  - done.
  - split.
    + rewrite fmap_app. apply NoDup_app. split_and!; [done| |apply NoDup_singleton]. cbn.
      intros x Hx Hn. apply list_elem_of_singleton in Hn as ->. apply list_elem_of_fmap in Hx as (s & Hs & Hin).
      rewrite Forall_forall in H2. apply H2 in Hin. lia.
    + apply Forall_app. split; [|repeat constructor]. eapply Forall_impl; [exact H2|]. cbn. lia.
  - split; [|apply Forall_forall; intros s Hs; apply list_elem_of_In, filter_In in Hs as [Hs _];
      rewrite Forall_forall in H2; by apply H2, list_elem_of_In].
    eapply sublist_NoDup; [exact H1|]. apply fmap_sublist, filter_sublist.
  - split; constructor.
  - unfold run_microtask. by destruct (mr_microtasks r).
Qed.

(** ** What the relay guarantees *)

(** Every handler call is for an event that was published while its subscription
    was open and that its filter accepts, and calls happen in the order of
    publication: what is handed over is the concatenation of what each operation
    sent to the subscriptions open at that moment. *)
Fixpoint sends_of (r : MemoryRelay) (ops : list relay_op) : list (SubRecord * Event) :=
  match ops with [] => [] | op :: ops' => op_sends r op ++ sends_of (relay_step r op) ops' end.

Lemma relay_queue_run ops r : relay_queue (relay_run ops r) = relay_queue r ++ sends_of r ops.
Proof.
  revert r. induction ops as [|op ops IH]; intros r; cbn; [by rewrite app_nil_r|].
  unfold relay_run in IH. by rewrite IH, relay_queue_step, <- app_assoc.
Qed.

Lemma sends_match r ops : Forall (fun d => matchesFilter (sb_filter d.1) d.2 = true) (sends_of r ops).
Proof.
  revert r. induction ops as [|op ops IH]; intros r; cbn; [constructor|]. apply Forall_app. split; [|apply IH].
  destruct op; try constructor. cbn. apply Forall_forall. intros d Hd. apply list_elem_of_fmap in Hd as (s & -> & Hs).
  by apply list_elem_of_In, filter_In in Hs as [_ Hs].
Qed.

Lemma drain_all n r : (length (mr_microtasks r) <= n)%nat ->
  mr_delivered (relay_run (replicate n RelayTick) r) = relay_queue r /\ mr_microtasks (relay_run (replicate n RelayTick) r) = [].
Proof.
  revert r. induction n as [|n IH]; intros r Hn.
  - cbn. unfold relay_queue. destruct (mr_microtasks r); [by rewrite app_nil_r|cbn in Hn; lia].
  - cbn [replicate relay_run foldl relay_step]. destruct (IH (run_microtask r)) as [H1 H2].
    { unfold run_microtask. destruct (mr_microtasks r) as [|d rest] eqn:E; [rewrite E; cbn; lia|]. cbn in *. lia. }
    split; [|exact H2]. unfold relay_run in H1. rewrite H1. change (run_microtask r) with (relay_step r RelayTick).
    rewrite relay_queue_step. cbn. by rewrite app_nil_r.
Qed.

Lemma relay_wf_run ops r : relay_wf r -> relay_wf (relay_run ops r).
Proof. revert r. induction ops as [|op ops IH]; intros r Hr; [done|]. by apply IH, relay_wf_step. Qed.

(** The relay delivers exactly: once the event loop has run enough microtasks,
    the handler calls are, in order, those of [sends_of]: for every publication
    one call per subscription open at that moment whose filter accepts the event,
    and no other.  At every moment the calls made are for accepted events, and
    identifiers of open subscriptions are distinct. *)
Theorem memory_relay_exact ops n :
  let r := relay_run ops createInMemoryRelayClient in
  (length (mr_microtasks r) <= n)%nat ->
  mr_delivered (relay_run (replicate n RelayTick) r) = sends_of createInMemoryRelayClient ops /\
  Forall (fun d => filter_matches (sb_filter d.1) d.2 = true) (mr_delivered r) /\
  relay_wf r.
Proof.
  cbv zeta. intros Hn. destruct (drain_all n _ Hn) as [-> _]. rewrite relay_queue_run. split_and!; [done| |].
  - pose proof (relay_queue_run ops createInMemoryRelayClient) as Hq. cbn in Hq.
    assert (Hall : Forall (fun d => filter_matches (sb_filter d.1) d.2 = true) (relay_queue (relay_run ops createInMemoryRelayClient))).
    { rewrite Hq. eapply Forall_impl; [apply sends_match|]. intros d H. by rewrite <- matchesFilter_spec. }
    by apply Forall_app in Hall as [Hall _].
  - apply relay_wf_run. split; constructor.
Qed.

Definition plain_event (kind : Z) (author : string) : Event := mkEvent "e1" author (num 0) kind [["p"; "bob"]] "" "".
Definition two_subscribers : list relay_op :=
  [RelaySubscribe (mkFilter [4%Z] None [("p", ["bob"])]); RelaySubscribe (mkFilter [4%Z] (Some ["carol"]) []);
   RelayPublish (plain_event 4 "alice"); RelayCloseSub 1; RelayPublish (plain_event 4 "carol")].

Lemma memory_relay_exact_witness :
  mr_delivered (relay_run (replicate 2 RelayTick) (relay_run two_subscribers createInMemoryRelayClient)) =
  [(mkSubRecord 1 (mkFilter [4%Z] None [("p", ["bob"])]), plain_event 4 "alice");
   (mkSubRecord 2 (mkFilter [4%Z] (Some ["carol"]) []), plain_event 4 "carol")].
Proof. apply (memory_relay_exact two_subscribers 2). vm_compute. lia. Defined.

(** A handler can still be called after its subscription was closed, with an event
    published before. *)
Example delivered_after_close :
  let r := relay_run two_subscribers createInMemoryRelayClient in
  (fun s => sb_id s) <$> mr_subscriptions r = [2%nat] /\ (fun d => sb_id d.1) <$> mr_delivered (run_microtask r) = [1%nat].
Proof. vm_compute. split; reflexivity. Qed.

(** ** The payment client *)
Record MemoryCashu := mkMemoryCashu { mc_binds : list BindProviderParams; mc_redeems : list RedeemHtlcParams }.

Section cashu.
Context {E : Type} (get : E -> MemoryCashu) (put : MemoryCashu -> E -> E).

(** [createInMemoryCashuClient], with its two recorded lists as a part of the
    world; the amount it echoes defaults to 100. *)
Definition createInMemoryCashuClient (mintUrl : option string) (amountSats : option number) : PaymentClient E :=
  let amountSats := opt_default (num 100) amountSats in
  mkPaymentClient (opt_default "https://mint.test.example" mintUrl)
    (fun params e => ret (mkCashuToken "cashuB-in-memory-bound" (bp_amountSats params) [] [])
       (put (mkMemoryCashu (mc_binds (get e) ++ [params]) (mc_redeems (get e))) e))
    (fun _ => ret (mkLockResult [] amountSats))
    (fun params e => ret ([], amountSats) (put (mkMemoryCashu (mc_binds (get e)) (mc_redeems (get e) ++ [params])) e)).
End cashu.
