(* ===== verification/Simulation.v ===== *)
(** * A whole exchange

    [examples/paid-request-simulation/mod.ts]: a Customer, a Provider and an Oracle
    connected by one relay.  Each actor is run against the events the others have
    published so far, and publishes its own; a round does this once for all three,
    and rounds are repeated from an empty relay until nothing new appears.  An
    actor run on too short a history stops at the wait for what is missing, with
    the events it published before, so that rounds are the exchange as it unfolds:
    what an actor publishes depends only on what was published earlier.

    The simulation itself is the instance with the constants of the source. *)

From S2P Require Import Prelude JsNum JsMap JsString JsValue JsonCodec EventLoop SchemaUri Samples Nostr NostrEvents RelayClient CashuTypes CashuClient.
From S2P Require Import QueryTypes Provider Customer ProviderServe MemoryRelay.

Record World := mkWorld { wd_sent : list Event; wd_cashu : MemoryCashu }.
Definition empty_world : World := mkWorld [] (mkMemoryCashu [] []).

(** The relay as one actor sees it: its publications are recorded, and a
    subscription delivers the matching events of the others. *)
Definition board_relay (relayUrl : string) (inbox : list Event) : RelayClient World :=
  mkRelay (fun ev w => (mkWorld (wd_sent w ++ [ev]) (wd_cashu w), Ok (mkPublishResult [relayUrl] []))) (fun _ w => (w, 0)) (fun _ w => w)
    (fun sub _ w => (w, List.filter (matchesFilter (sub_filter sub)) inbox)).

Definition memory_cashu (mintUrl : string) : PaymentClient World :=
  createInMemoryCashuClient wd_cashu (fun c w => mkWorld (wd_sent w) c) (Some mintUrl) None.

(** What the parties bring: keys (of the Customer's request and of the Provider's
    hash request, which are fresh, of the Provider and of the Oracle), the query
    identifier, the time, and the terms. *)
Record Parties := mkParties {
  px_customer : Keypair;
  px_bootstrap : Keypair;
  px_provider : Keypair;
  px_oracle : Keypair;
  px_queryId : string;
  px_now : number;
  px_relayUrl : string;
  px_mint : string;
  px_schema : string;
  px_predicate : jsval;
  px_maxAmount : number;
  px_fundingProofs : list jsval;
  px_amount : number;
  px_data : jsval;
  px_proof : string;
  px_hash : string;
  px_preimage : string;
}.

Section exchange.
Context `{N : NostrLib} `{J : JSON} `{U : UrlApi} (x : Parties).

(** ** The actors *)
Definition sim_customer (inbox : list Event) : CustomerConfig (E := World) (V := unit) :=
  mkCustomer [(kp_publicKey (px_oracle x), Some (fun _ => ret (px_hash x)))] (px_mint x) (memory_cashu (px_mint x))
    (board_relay (px_relayUrl x) inbox) (num 50) (num 500) pickOracleForRequest (fun offers => Ok (selectCheapestOffer offers))
    [] (fun _ _ => false) (fun _ => None) (fun _ _ _ _ => ret true) None (fun _ => px_now x) (fun _ => px_now x) (fun _ => px_now x)
    (fun w => (w, px_queryId x)) (fun w => (w, px_customer x)).

Definition sim_request : RequestOptions (E := World) :=
  mkRequestOptions (px_schema x) (px_predicate x) None None (px_maxAmount x) None (VArr (px_fundingProofs x)) None None None.

Definition sim_provider (inbox : list Event) : JobContext (E := World) (G := unit) :=
  mkJobContext (px_provider x) [kp_publicKey (px_oracle x)] (memory_cashu (px_mint x)) (board_relay (px_relayUrl x) inbox) None
    (num 500) (num 10000) (num 500) [] (fun _ _ => false) (fun _ => None) [] (fun _ => px_now x) (fun _ => px_now x)
    (fun w => (w, px_bootstrap x)).

Definition sim_handler (request : ProviderRequestEvent (G := unit)) : call World (option (ProviderOffer (E := World))) :=
  ret (Some (mkOffer (VNum (px_amount x)) (fun _ => ret (px_data x, inr (px_proof x))))).

Definition customer_run (inbox : list Event) : World * res (RequestResult + PaymentRecoveryError) :=
  run_call (customer_request (sim_customer inbox) sim_request) empty_world.

(** Every notice starts a job; jobs share the world. *)
Definition provider_run (inbox : list Event) : JobsState (E := World) :=
  foldl (fun s event => (run_call (handleJob (sim_provider inbox) sim_handler event) s).1) (mkJobsState [] empty_world)
    (List.filter (matchesFilter (serve_filter None)) inbox).

(** The Oracle of the simulation: [serveHashRequests] with a constant hash, the map
    from request events to query identifiers, and the delivery of the preimage for
    every result. *)
Record SimOracle := mkSimOracle { so_queryIds : list (string * string); so_sent : list Event }.

Definition oracle_hash (event : Event) (s : SimOracle) : SimOracle :=
  if matchesFilter (mkFilter [KIND_DIRECT_MESSAGE] None [("p", [kp_publicKey (px_oracle x)])]) event then
    match parseHashRequestEvent event (kp_secretKey (px_oracle x)) (ev_pubkey event) with
    | None => s
    | Some queryId =>
        match buildHashResponseEvent (px_oracle x) (ev_pubkey event) (mkHashResponse queryId (px_hash x)) (px_now x) with
        | Ok response => mkSimOracle (so_queryIds s) (so_sent s ++ [response])
        | Throw _ => s
        end
    end
  else s.

Definition oracle_notice (event : Event) (s : SimOracle) : SimOracle :=
  if matchesFilter (mkFilter [KIND_QUERY_REQUEST] None []) event then
    match parseQueryRequestEvent event with
    | None => s
    | Some payload => mkSimOracle (jm_set (ev_id event) (qr_query_id payload) (so_queryIds s)) (so_sent s)
    end
  else s.

Definition oracle_result (event : Event) (s : SimOracle) : SimOracle :=
  if matchesFilter (mkFilter [KIND_QUERY_RESPONSE] None []) event then
    match findTagValue (ev_tags event) "e" with
    | None => s
    | Some requestId =>
    match jm_get requestId (so_queryIds s) with
    | None => s
    | Some queryId =>
        match buildPreimageDeliveryEvent (px_oracle x) (ev_pubkey event) (mkPreimageDelivery queryId requestId (px_preimage x))
                (px_now x) with
        | Ok delivery => mkSimOracle (so_queryIds s) (so_sent s ++ [delivery])
        | Throw _ => s
        end
    end end
  else s.

Definition sim_oracle_event (s : SimOracle) (event : Event) : SimOracle :=
  oracle_result event (oracle_notice event (oracle_hash event s)).
Definition sim_oracle_run (inbox : list Event) : SimOracle := foldl sim_oracle_event (mkSimOracle [] []) inbox.

(** ** Rounds *)
Record Board := mkBoard { bd_customer : list Event; bd_provider : list Event; bd_oracle : list Event }.

Definition round (b : Board) : Board :=
  mkBoard (wd_sent (customer_run (bd_provider b ++ bd_oracle b)).1)
    (wd_sent (pv_env (provider_run (bd_customer b ++ bd_oracle b))))
    (so_sent (sim_oracle_run (bd_customer b ++ bd_provider b))).

Definition board (n : nat) : Board := Nat.iter n round (mkBoard [] [] []).

Record PaidRequestSimulationResult := mkSimulationResult {
  ps_providerPubkey : string;
  ps_proof : string;
  ps_data : jsval;
  ps_customerBinds : list (number * string * string * nat);
  ps_providerRedeems : list RedeemHtlcParams;
}.

(** After [n] rounds: what the Customer's request returned and the recorded
    payment calls. *)
Definition simulation (n : nat) : res PaidRequestSimulationResult :=
  let b := board n in
  let '(cw, outcome) := customer_run (bd_provider b ++ bd_oracle b) in
  let pw := pv_env (provider_run (bd_customer b ++ bd_oracle b)) in
  match outcome with
  | Throw e => Throw e
  | Ok (inr e) => Throw (pe_error e)
  | Ok (inl result) =>
      Ok (mkSimulationResult (rr_providerPubkey result) (rr_proof result) (rr_data result)
            ((fun p => (bp_amountSats p, bp_providerPubkey p, bp_hashHex p, length (bp_fundingProofs p))) <$> mc_binds (wd_cashu cw))
            (mc_redeems (wd_cashu pw)))
  end.
End exchange.

Definition HASH_HEX : string := "0123456701234567012345670123456701234567012345670123456701234567".
Definition PREIMAGE_HEX : string := "89abcdef89abcdef89abcdef89abcdef89abcdef89abcdef89abcdef89abcdef".
Definition sim_parties (customer bootstrap provider oracle : Keypair) (now : number) (attachment : jsval) : Parties :=
  mkParties customer bootstrap provider oracle "q1" now "mock://paid-request-simulation" "https://mint.test.example"
    ProofSchema_TlsnV1 (VObj [("target", VStr "https://api.example.org/account")]) (num 1000) [VStr "wallet-proof"] (num 100)
    (VObj [("schema", VStr ProofSchema_TlsnV1); ("attachment", attachment)]) "simulation-proof-bytes" HASH_HEX PREIMAGE_HEX.

Definition toy_simulation (n : nat) : res PaidRequestSimulationResult :=
  simulation (N := toy_nostr) (J := codec) (U := sample_urls)
    (sim_parties (mkKeypair [3%Z] "pk3") (mkKeypair [5%Z] "pk5") (mkKeypair [2%Z] "pk2") (mkKeypair [9%Z] "pk9") (num 4000000) VNull) n.
