(* ===== verification/SimulationSpec.v ===== *)
(** * A whole exchange: it completes

    The events of the exchange in the order they appear, what each actor does on a
    history that holds them, and the round after which nothing changes. *)

From S2P Require Import Prelude JsNum JsMap JsString JsValue JsonCodec EventLoop SchemaUri Samples Nostr NostrEvents RelayClient CashuTypes CashuClient.
From S2P Require Import QueryTypes Provider Customer ProviderServe MemoryRelay Simulation.

(** ** Running calls without interference *)
Lemma run_call_attempt {S A} (c : call S A) s :
  run_call (attempt c) s = match run_call c s with (s', Ok a) => (s', Ok (Some a)) | (s', Throw _) => (s', Ok None) end.
Proof.
  unfold run_call, attempt. destruct (c s) as [s1 t]. clear c s. revert s1.
  induction t as [[a|e]|f IH] using task_induction; intros s1; simpl; [done..|].
  specialize (IH s1). destruct (f s1) as [s2 t2]. apply IH.
Qed.

Lemma run_call_zoom {S E A} (get : S -> E) (put : E -> S -> S) (c : call E A) s :
  (forall e s, get (put e s) = e) -> (forall e e' s, put e (put e' s) = put e s) ->
  run_call (zoom get put c) s = let '(e, r) := run_call c (get s) in (put e s, r).
Proof.
  intros Hget Hput. unfold run_call, zoom. destruct (c (get s)) as [e t]. clear c.
  assert (Hg : forall e, run_alone (zoom_task get put t) (put e s) = let '(e', r) := run_alone t e in (put e' s, r)).
  { clear e. induction t as [r|f IH] using task_induction; intros e; cbn; [done|].
    rewrite Hget. specialize (IH e). destruct (f e) as [e' t']. cbn in *. rewrite Hput. apply IH. }
  apply Hg.
Qed.

(** [enter c] starts the run of a call defined by a function on the state, and
    [step_await] runs the awaited call at the head. *)
Ltac refold_run :=
  match goal with |- context [match ?c ?s with (s', t) => run_alone t s' end] =>
    change (match c s with (s', t) => run_alone t s' end) with (run_call c s) end.
Ltac enter c := unfold run_call at 1, c at 1; try refold_run.

Lemma run_outside {E A} (c : call E A) (s : JobsState (E := E)) :
  run_call (outside c) s = let '(e, r) := run_call c (pv_env s) in (put_world e s, r).
Proof. unfold outside. by apply run_call_zoom. Qed.

Lemma run_noting {E A} ev (c : call JobsState A) (s : JobsState (E := E)) : run_call (noting ev c) s = run_call c (note ev s).
Proof. done. Qed.

(** Objects with fixed keys are carried when their values are. *)
Lemma json_ok_obj o : json_keys (map fst o) = true -> Forall (fun kv => json_ok kv.2) o -> json_ok (VObj o).
Proof.
  intros Hk Hv. unfold json_ok in *. cbn [json_safe]. rewrite Hk. apply forallb_forall. intros kv Hin.
  rewrite Forall_forall in Hv. by apply Hv, list_elem_of_In.
Qed.
Ltac carry := repeat first [assumption | reflexivity | apply json_ok_obj | apply Forall_nil_2 | apply Forall_cons_2].

(** ** Direct messages read back *)
Section messages.
Context `{N : NostrLib} `{J : JSON} `{!NostrLaws N} `{!JSONLaws J}.

Lemma hash_request_reads_back kp sk qid now e :
  buildHashRequestEvent kp (getPublicKey sk) qid now = Ok e ->
  parseHashRequestEvent e sk (getPublicKey (kp_secretKey kp)) = Some qid.
Proof.
  intros H. unfold parseHashRequestEvent. rewrite ((fun ok => dm_roundtrip _ _ _ _ _ ok H) eq_refl).
  unfold hasVersion. simpl set_field. by read_field.
Qed.

Lemma hash_response_reads_back kp sk hr now e :
  buildHashResponseEvent kp (getPublicKey sk) hr now = Ok e ->
  parseHashResponseEvent e sk (getPublicKey (kp_secretKey kp)) = Some hr.
Proof.
  intros H. unfold parseHashResponseEvent. rewrite ((fun ok => dm_roundtrip _ _ _ _ _ ok H) eq_refl).
  unfold hasVersion. simpl set_field. read_field. by destruct hr.
Qed.

Lemma preimage_reads_back kp sk pd now e :
  buildPreimageDeliveryEvent kp (getPublicKey sk) pd now = Ok e ->
  parsePreimageDeliveryEvent e sk (getPublicKey (kp_secretKey kp)) = Some pd.
Proof.
  intros H. unfold parsePreimageDeliveryEvent. rewrite ((fun ok => dm_roundtrip _ _ _ _ _ ok H) eq_refl).
  unfold hasVersion, preimage_fields. simpl set_field. read_field. by destruct pd.
Qed.

(** What the filters see of a direct message. *)
Lemma dm_shape kp to text now e : build_dm kp to text now = Ok e ->
  ev_kind e = KIND_DIRECT_MESSAGE /\ ev_tags e = [["p"; to]] /\ ev_pubkey e = getPublicKey (kp_secretKey kp).
Proof. intros (c & _ & H)%bind_Ok. injection H as <-. by rewrite ev_kind_signed, ev_tags_signed, ev_pubkey_signed. Qed.
End messages.

Lemma finite_floor n d : isFinite n = true -> isFinite (nfloor_div n d) = true.
Proof. by destruct n. Qed.
Lemma finite_add n m : isFinite n = true -> isFinite m = true -> isFinite (nadd n m) = true.
Proof. destruct n, m; cbn; try done. by destruct (N.eqb _ _). Qed.
Lemma finite_mul n m : isFinite n = true -> isFinite m = true -> isFinite (nmul n m) = true.
Proof. by destruct n, m. Qed.

(** A wait on the board answers with the first match of its history. *)
Lemma run_wait_result {T} url inbox n f (m : Event -> option T) t w :
  run_call (wait_result (board_relay url inbox) (mkSub n f) m t) w = (w, Ok (first_match m (List.filter (matchesFilter f) inbox))).
Proof.
  unfold run_call, wait_result.
  change (rc_events (board_relay url inbox) (mkSub n f) t w) with (w, List.filter (matchesFilter f) inbox). cbv iota beta.
  rewrite wait_run_events. reflexivity.
Qed.

Lemma run_wait {T} url inbox f (m : Event -> option T) t w :
  run_call (waitForFirstEvent (board_relay url inbox) f m t) w = (w, Ok (first_match m (List.filter (matchesFilter f) inbox))).
Proof. apply run_wait_result. Qed.

Section completes.
Context `{N : NostrLib} `{J : JSON} `{U : UrlApi} `{!NostrLaws N} `{!JSONLaws J}.
Context (id_nonempty : forall t sk, ev_id (finalizeEvent t sk) <> "") (key_nonempty : forall sk, getPublicKey sk <> "").
Context (x : Parties).

(** Keys belong to their owners; the terms are acceptable. *)
Definition own_key (kp : Keypair) : Prop := kp_publicKey kp = getPublicKey (kp_secretKey kp).
Definition parties_ok : Prop :=
  own_key (px_customer x) /\ own_key (px_bootstrap x) /\ own_key (px_provider x) /\ own_key (px_oracle x) /\
  kp_publicKey (px_bootstrap x) <> kp_publicKey (px_provider x) /\
  isFinite (px_now x) = true /\ isSchemaUri (px_schema x) = true /\
  isInteger (px_maxAmount x) = true /\ (px_maxAmount x ≤ₙ num 0) = false /\
  isValidOfferAmount (px_amount x) = true /\ (px_amount x ≤ₙ num 0) = false /\ (px_amount x >ₙ px_maxAmount x) = false /\
  keep_field (px_predicate x) = true /\ keep_field (px_data x) = true.
Context (ok : parties_ok).

Notation cpub := (kp_publicKey (px_customer x)).
Notation ppub := (kp_publicKey (px_provider x)).
Notation opub := (kp_publicKey (px_oracle x)).

(** ** The events, in the order they appear *)
Definition notice_payload : QueryRequestPayload :=
  request_payload (sim_customer x []) (sim_request x) (px_customer x) (px_queryId x) opub (px_now x).
Definition sim_notice : Event := buildQueryRequestEvent (px_customer x) notice_payload None (px_now x).
Notation rid := (ev_id sim_notice).
Definition sim_offer : Event :=
  buildOfferFeedbackEvent (px_provider x) rid cpub (mkOfferPayload ppub (px_amount x)) (px_now x).
Definition sim_prepared : Prepared :=
  mkPrepared (px_customer x) (px_queryId x) opub (px_hash x) rid (mkCustomerOffer ppub (px_amount x) (ev_id sim_offer) (px_now x))
    (nadd (nfloor_div (px_now x) 1000) (num DEFAULT_LOCKTIME_SECONDS)).
Definition sim_lock : CashuToken := mkCashuToken "cashuB-in-memory-bound" (px_amount x) [] [].

(** The terms are values a JSON document carries. *)
Definition terms_carried : Prop :=
  json_ok (px_predicate x) /\ json_ok (px_data x) /\
  Forall (fun n => json_number n = true)
    [px_maxAmount x; px_amount x; qr_expires_at notice_payload; pp_locktimeSeconds sim_prepared].
Context (carried : terms_carried).

Lemma notice_carried :
  json_ok (VObj (set_field "version" (VNum (num QUERY_REQUEST_VERSION)) (request_fields notice_payload))).
Proof.
  destruct carried as (_ & _ & [Hm [_ [He _]%Forall_cons]%Forall_cons]%Forall_cons).
  simpl set_field. by carry.
Qed.

Lemma offer_carried :
  json_ok (VObj (set_field "version" (VNum (num OFFER_FEEDBACK_VERSION)) (offer_fields (mkOfferPayload ppub (px_amount x))))).
Proof.
  destruct carried as (_ & _ & [_ [Ha _]%Forall_cons]%Forall_cons). simpl set_field. by carry.
Qed.

Lemma selection_carried :
  json_ok (VObj (set_field "version" (VNum (num SELECTION_FEEDBACK_VERSION))
    (selection_fields (selection_payload (sim_customer x []) (sim_request x) sim_prepared (ct_token sim_lock))))).
Proof.
  destruct carried as (Hp & _ & [Hm [Ha [_ [Hl _]%Forall_cons]%Forall_cons]%Forall_cons]%Forall_cons).
  simpl set_field. by carry.
Qed.

Lemma response_carried : json_ok (VObj (response_fields (px_schema x) (px_data x) (proof_for_json (inr (px_proof x))))).
Proof. destruct carried as (_ & Hd & _). by carry. Qed.

Context (selection hreq hresp result delivery : Event).
Context (Hselection : buildSelectionFeedbackEvent (px_customer x) rid
  (selection_payload (sim_customer x []) (sim_request x) sim_prepared (ct_token sim_lock)) (px_now x) = Ok selection).
Context (Hhreq : buildHashRequestEvent (px_bootstrap x) opub (px_queryId x) (px_now x) = Ok hreq).
Context (Hhresp : buildHashResponseEvent (px_oracle x) (kp_publicKey (px_bootstrap x)) (mkHashResponse (px_queryId x) (px_hash x))
  (px_now x) = Ok hresp).
Context (Hresult : buildQueryResponseEvent (px_provider x) rid cpub (px_schema x) (px_data x) (inr (px_proof x))
  (Some opub) (Some (px_queryId x)) (px_now x) = Ok result).
Context (Hdelivery : buildPreimageDeliveryEvent (px_oracle x) ppub (mkPreimageDelivery (px_queryId x) rid (px_preimage x))
  (px_now x) = Ok delivery).

(** ** The Customer *)
Lemma offer_kept inbox : keep_offer (sim_customer x inbox) (sim_request x) sim_offer =
  Some (mkCustomerOffer ppub (px_amount x) (ev_id sim_offer) (px_now x)).
Proof.
  destruct ok as (Hc & _ & Hp & _ & _ & _ & _ & _ & _ & Hv & _ & Hle & _).
  unfold keep_offer, sim_offer. rewrite offer_roundtrip; [|apply offer_carried| |exact Hp|apply id_nonempty|by rewrite Hc].
  - cbn. rewrite Hv, Hle. done.
  - unfold isValidOfferAmount in Hv. by apply andb_true_iff in Hv as [[? _]%andb_true_iff _].
Qed.

Definition sent (w : World) (l : list Event) : World := mkWorld (wd_sent w ++ l) (wd_cashu w).

Definition feedback_filter : Filter := mkFilter [KIND_QUERY_FEEDBACK] None [("e", [rid])].
Definition result_filter : Filter := mkFilter [KIND_QUERY_RESPONSE] (Some [ppub]) [("e", [rid])].

Lemma run_prepare inbox w :
  run_call (prepare (sim_customer x inbox) (sim_request x)) w =
  (sent w [sim_notice],
   let offers := List.filter (matchesFilter feedback_filter) inbox in
   selected ← choose_offer (sim_customer x inbox) (sim_request x) (omap (keep_offer (sim_customer x inbox) (sim_request x)) offers)
                (count_offers offers);
   Ok (mkPrepared (px_customer x) (px_queryId x) opub (px_hash x) rid selected
         (nadd (nfloor_div (px_now x) 1000) (num DEFAULT_LOCKTIME_SECONDS)))).
Proof.
  destruct ok as (_ & _ & _ & _ & _ & _ & Hs & Hi & Hp & _).
  unfold run_call, prepare. assert (Hchk : check_request (sim_request x) = Ok (num DEFAULT_LOCKTIME_SECONDS)).
  { unfold check_request. cbn [rq_schema rq_maxAmount rq_fundingProofs rq_locktimeSeconds sim_request opt_default].
    rewrite Hs, (isInteger_isFinite _ Hi), Hi, Hp. vm_compute. reflexivity. }
  rewrite Hchk. cbn [cu_oracleSelector sim_customer pickOracleForRequest cu_oracles fmap list_fmap fst findCustomerOracle List.find].
  rewrite bool_decide_true by done. unfold oracle_client. cbn [snd cu_fresh_identity cu_newQueryId].
  fold (sim_customer x inbox).
  change (run_call (await (ret (px_hash x)) (gather (sim_customer x inbox) (sim_request x) (num DEFAULT_LOCKTIME_SECONDS) (px_customer x)
    (px_queryId x) opub)) w = (sent w [sim_notice], let offers := List.filter (matchesFilter feedback_filter) inbox in
   selected ← choose_offer (sim_customer x inbox) (sim_request x) (omap (keep_offer (sim_customer x inbox) (sim_request x)) offers)
                (count_offers offers);
   Ok (mkPrepared (px_customer x) (px_queryId x) opub (px_hash x) rid selected
         (nadd (nfloor_div (px_now x) 1000) (num DEFAULT_LOCKTIME_SECONDS))))).
  rewrite run_call_await. change (run_call (ret (px_hash x)) w) with (w, Ok (px_hash x)). cbv iota beta.
  enter @gather. rewrite run_call_await.
  match goal with |- context [run_call (publish ?rc ?ev) w] => change (run_call (publish rc ev) w) with (sent w [sim_notice], Ok (mkPublishResult [px_relayUrl x] [])) end.
  cbv iota beta. cbn [pr_successes]. rewrite bool_decide_false by done. rewrite run_call_await.
  match goal with |- context [run_call (save_state ?c ?q ?r) ?s] => change (run_call (save_state c q r) s) with (s, Ok tt) end.
  cbv iota beta. rewrite run_call_await.
  match goal with |- context [run_call (collect_offers ?c ?q ?r) ?s] =>
    change (run_call (collect_offers c q r) s) with
      (s, Ok (omap (keep_offer (sim_customer x inbox) (sim_request x)) (List.filter (matchesFilter feedback_filter) inbox),
              count_offers (List.filter (matchesFilter feedback_filter) inbox)) : res (list Offer * nat)) end.
  cbv iota beta zeta. unfold run_call. by destruct (choose_offer _ _ _ _) as [o|e].
Qed.

Definition recovery (e : exn) : PaymentRecoveryError := attachPaymentRecoveryMaterial e sim_lock (kp_secretKey (px_customer x)).

(** The wait for the result and the verdict on it. *)
Definition received (inbox : list Event) : RequestResult + PaymentRecoveryError :=
  let timeout := inr (recovery (result_timeout (sim_customer x inbox) sim_prepared)) in
  match List.filter (matchesFilter result_filter) inbox with
  | [] => timeout
  | event :: _ =>
      match parseQueryResponseEvent event (kp_secretKey (px_customer x)) ppub with
      | None => timeout
      | Some response =>
          inl (mkRequestResult (rp_data response) (rp_proof response) ppub (rp_schema response) None [] (ct_token sim_lock)
                 (kp_secretKey (px_customer x)))
      end
  end.

Lemma run_receive inbox w :
  run_call (receive (sim_customer x inbox) (sim_request x) sim_prepared sim_lock) w =
  (w, match received inbox with inl r => Ok r | inr e => Throw (pe_error e) end).
Proof.
  unfold receive. rewrite run_call_await. unfold received.
  match goal with |- context [run_call (waitForFirstEvent ?rc ?f ?m ?t) ?s] =>
    assert (Hw : run_call (waitForFirstEvent rc f m t) s = (s, Ok (head (List.filter (matchesFilter result_filter) inbox)))) end.
  { change (cu_relayClient (sim_customer x inbox)) with (board_relay (px_relayUrl x) inbox). rewrite run_wait.
    change (mkFilter [KIND_QUERY_RESPONSE] (Some [cf_providerPubkey (pp_selected sim_prepared)]) [("e", [pp_requestEventId sim_prepared])])
      with result_filter. by destruct (List.filter _ inbox). }
  rewrite Hw. destruct (List.filter (matchesFilter result_filter) inbox) as [|ev evs]; [done|]. cbn [head]. cbv iota beta.
  unfold cf_providerPubkey, pp_selected, sim_prepared. cbn [pp_identity].
  destruct (parseQueryResponseEvent ev (kp_secretKey (px_customer x)) ppub) as [response|]; [|done]. reflexivity.
Qed.

Lemma run_deliver inbox w :
  run_call (guarded_deliver (sim_customer x inbox) (sim_request x) sim_prepared sim_lock) w = (sent w [selection], Ok (received inbox)).
Proof.
  destruct ok as (_ & _ & _ & _ & _ & _ & _ & _ & _ & Hv & _).
  assert (Hd : run_call (deliver (sim_customer x inbox) (sim_request x) sim_prepared sim_lock) w =
    (sent w [selection], match received inbox with inl r => Ok r | inr e => Throw (pe_error e) end)).
  { unfold deliver. cbn [ct_amountSats sim_lock cf_amountSats pp_selected sim_prepared].
    unfold isValidOfferAmount in Hv. apply andb_true_iff in Hv as [[Hf _]%andb_true_iff _].
    rewrite neqn_refl by done. cbn [negb]. fold sim_prepared. unfold run_call at 1. change (ct_changeProofs sim_lock) with (@nil CashuProof). cbv beta zeta iota.
    change (buildSelectionFeedbackEvent (pp_identity sim_prepared) (pp_requestEventId sim_prepared)
      (selection_payload (sim_customer x inbox) (sim_request x) sim_prepared (ct_token sim_lock)) (cu_date_now (sim_customer x inbox) w))
      with (buildSelectionFeedbackEvent (px_customer x) rid
        (selection_payload (sim_customer x []) (sim_request x) sim_prepared (ct_token sim_lock)) (px_now x)).
    rewrite Hselection. refold_run. rewrite run_call_await.
    match goal with |- context [run_call (publish ?rc ?ev) w] =>
      change (run_call (publish rc ev) w) with (sent w [selection], Ok (mkPublishResult [px_relayUrl x] [])) end.
    cbv iota beta. rewrite run_call_await.
    match goal with |- context [run_call (save_state ?c ?q ?r) ?s] => change (run_call (save_state c q r) s) with (s, Ok tt) end.
    cbv iota beta. apply run_receive. }
  unfold guarded_deliver. rewrite run_call_try, run_call_await, Hd. unfold received.
  destruct (List.filter _ inbox) as [|ev evs]; [done|]. by destruct (parseQueryResponseEvent ev _ _).
Qed.

(** The Customer on a history without offers: it has published its notice. *)
Lemma customer_waits inbox : List.filter (matchesFilter feedback_filter) inbox = [] ->
  wd_sent (customer_run x inbox).1 = [sim_notice].
Proof.
  intros Hf. unfold customer_run, customer_request. rewrite run_call_await, run_prepare. cbv zeta. rewrite Hf. done.
Qed.

(** ... and on a history with the one offer. *)
Lemma customer_selects inbox : List.filter (matchesFilter feedback_filter) inbox = [sim_offer] ->
  customer_run x inbox =
  (mkWorld [sim_notice; selection] (mkMemoryCashu [bind_params_of (sim_request x) sim_prepared] []), Ok (received inbox)).
Proof.
  intros Hf. unfold customer_run, customer_request. rewrite run_call_await, run_prepare. cbv zeta. rewrite Hf.
  cbn [omap list_omap]. rewrite offer_kept. cbv iota beta. unfold choose_offer. cbn [cu_offerSelector sim_customer selectCheapestOffer fold_left].
  destruct ok as (_ & _ & _ & _ & _ & _ & _ & _ & _ & Hv & _ & Hle & _).
  cbn [mbind res_bind cf_amountSats sim_request rq_maxAmount]. rewrite Hv, Hle. cbn [negb]. cbn [mbind res_bind].
  fold (sim_customer x inbox) (sim_request x) sim_prepared. rewrite run_call_await.
  match goal with |- context [run_call (cc_bindProvider ?c ?p) ?s] => change (run_call (cc_bindProvider c p) s) with
    (mkWorld [sim_notice] (mkMemoryCashu [bind_params_of (sim_request x) sim_prepared] []), Ok sim_lock) end.
  cbv iota beta. rewrite run_deliver. reflexivity.
Qed.

(** ** The Provider *)
Definition sim_selection_filter : Filter := mkFilter [KIND_QUERY_FEEDBACK] (Some [cpub]) [("e", [rid])].
Definition hash_filter : Filter := mkFilter [KIND_DIRECT_MESSAGE] (Some [opub]) [("p", [kp_publicKey (px_bootstrap x)])].
Definition sim_preimage_filter : Filter := mkFilter [KIND_DIRECT_MESSAGE] (Some [opub]) [("p", [ppub])].

Definition sim_execution : SelectionExecutionPayload :=
  execution_norm (sf_execution (selection_payload (sim_customer x []) (sim_request x) sim_prepared (ct_token sim_lock))).
Definition sim_job : Job := mkJob sim_notice notice_payload (px_amount x) (ev_id sim_offer).
Definition sim_redeem : RedeemHtlcParams := mkRedeemParams (ct_token sim_lock) (px_preimage x) (kp_secretKey (px_provider x)).

Lemma amount_finite : isFinite (px_amount x) = true.
Proof.
  destruct ok as (_ & _ & _ & _ & _ & _ & _ & _ & _ & Hv & _). unfold isValidOfferAmount in Hv.
  by apply andb_true_iff in Hv as [[? _]%andb_true_iff _].
Qed.

Lemma notice_parses : parseQueryRequestEvent sim_notice = Some notice_payload.
Proof.
  destruct ok as (_ & _ & _ & _ & _ & Hn & _ & Hi & _). apply request_notice_roundtrip; [apply notice_carried| |].
  - by apply isInteger_isFinite.
  - cbn. apply finite_mul; [|done]. apply finite_floor, finite_add; done.
Qed.

Lemma selection_matched inbox : match_selection (sim_provider x inbox) cpub selection = Some (ct_token sim_lock, sim_execution).
Proof.
  destruct ok as (Hc & _ & Hp & _ & _ & Hn & _ & Hi & _ & _ & _ & _ & Hk & _). unfold match_selection.
  cbn [sim_provider jc_identity]. rewrite bool_decide_true; cbn [negb].
  - assert (Hs : execution_sendable (sf_execution (selection_payload (sim_customer x []) (sim_request x) sim_prepared (ct_token sim_lock)))).
    { unfold execution_sendable. split_and!; [by apply isInteger_isFinite|apply amount_finite| |done|by intros c [=]].
      cbn. apply finite_add; [by apply finite_floor|done]. }
    by rewrite Hc, (selection_reads_back _ _ _ _ _ _ selection_carried Hs Hp Hselection).
  - apply bind_Ok in Hselection as (c & _ & Hev). injection Hev as <-. by rewrite ev_tags_signed.
Qed.

Lemma preimage_matched inbox : match_preimage (sim_provider x inbox) opub (px_queryId x) rid delivery = Some (px_preimage x).
Proof.
  destruct ok as (_ & _ & Hp & Ho & _). unfold match_preimage. cbn [sim_provider jc_identity]. rewrite Ho. rewrite Hp in Hdelivery.
  rewrite (preimage_reads_back _ _ _ _ _ Hdelivery). cbn. by rewrite !bool_decide_true.
Qed.

Lemma hash_matched : match_hash (kp_secretKey (px_bootstrap x)) opub (px_queryId x) hresp = Some (px_hash x).
Proof.
  destruct ok as (_ & Hb & _ & Ho & _). unfold match_hash. rewrite Ho. rewrite Hb in Hhresp.
  rewrite (hash_response_reads_back _ _ _ _ _ Hhresp). cbn. by rewrite bool_decide_true.
Qed.

(** What each part of a job makes of the world, given the history it reads; the
    log is not followed. *)
Definition redeem_world (inbox : list Event) (w : World) : World :=
  match first_match (keeping (match_preimage (sim_provider x inbox) opub (px_queryId x) rid)) (List.filter (matchesFilter sim_preimage_filter) inbox) with
  | None => w
  | Some (_, preimage) => mkWorld (wd_sent w) (mkMemoryCashu (mc_binds (wd_cashu w))
      (mc_redeems (wd_cashu w) ++ [mkRedeemParams (ct_token sim_lock) preimage (kp_secretKey (px_provider x))]))
  end.

Definition selected_world (inbox : list Event) (w : World) : World :=
  match first_match (match_hash (kp_secretKey (px_bootstrap x)) opub (px_queryId x)) (List.filter (matchesFilter hash_filter) inbox) with
  | None => sent w [hreq]
  | Some _ => redeem_world inbox (sent (sent w [hreq]) [result])
  end.

Lemma run_redeem inbox s responseId :
  let after := run_call (job_redeem (sim_provider x inbox) sim_job (ct_token sim_lock) responseId) s in
  after.2 = Ok tt /\
  pv_env after.1 = redeem_world inbox (pv_env s).
Proof.
  cbv zeta. unfold job_redeem, redeem_world. rewrite run_call_await, run_outside. unfold waitForPreimage.
  cbn [jc_relayClient sim_provider jc_identity jc_preimageTimeoutMs sim_job jb_payload jb_event notice_payload request_payload qr_oracle_pubkey qr_query_id].
  rewrite run_wait. fold (sim_provider x inbox).
  change (preimage_filter (sim_provider x inbox) opub) with sim_preimage_filter.
  destruct (first_match _ _) as [[ev preimage]|]; done.
Qed.

Lemma run_produce inbox s :
  let after := run_call (job_produce (sim_provider x inbox) sim_job
    (mkOffer (VNum (px_amount x)) (fun _ => ret (px_data x, inr (px_proof x)))) (ct_token sim_lock) sim_execution) s in
  after.2 = Ok tt /\ pv_env after.1 = redeem_world inbox (sent (pv_env s) [result]).
Proof.
  cbv zeta. unfold job_produce. rewrite run_noting.
  rewrite run_call_await, run_call_attempt, run_outside. cbn [po_produce].
  match goal with |- context [run_call (ret ?a) ?e] => change (run_call (ret a) e) with (e, Ok a) end. cbv iota beta.
  unfold run_call. cbv beta.
  match goal with |- context [buildQueryResponseEvent ?a ?b ?c ?d ?e ?f ?g ?h ?i] =>
    change (buildQueryResponseEvent a b c d e f g h i) with (buildQueryResponseEvent (px_provider x) rid cpub (px_schema x) (px_data x)
      (inr (px_proof x)) (Some opub) (Some (px_queryId x)) (px_now x)) end.
  rewrite Hresult. cbv iota beta. refold_run. rewrite run_call_await, run_outside.
  match goal with |- context [run_call (publish ?rc ?ev) ?e] =>
    change (run_call (publish rc ev) e) with (sent (pv_env s) [result], Ok (mkPublishResult [px_relayUrl x] [])) end.
  cbv iota beta. rewrite run_noting, run_call_await, run_outside.
  match goal with |- context [run_call (save_progress ?c ?r) ?e] => change (run_call (save_progress c r) e) with (e, Ok tt) end.
  cbv iota beta. apply run_redeem.
Qed.

Lemma run_hash inbox w :
  run_call (request_hash (sim_provider x inbox) opub (px_queryId x)) w =
  (sent w [hreq], match first_match (match_hash (kp_secretKey (px_bootstrap x)) opub (px_queryId x)) (List.filter (matchesFilter hash_filter) inbox) with
                  | Some h => Ok h | None => Throw (timeout_error (num 10000)) end).
Proof.
  destruct ok as (_ & _ & _ & Ho & _). unfold request_hash, getOracleClient.
  cbn [sim_provider jc_oracleClients jm_get]. unfold createNostrOracleClient.
  assert (Hne : str_truthy opub = true) by (unfold str_truthy; rewrite Ho, bool_decide_false by apply key_nonempty; done).
  rewrite Hne. fold (sim_provider x inbox). unfold run_call, requestHash. cbn [opt_default].
  change (jc_fresh_identity (sim_provider x inbox) w) with (w, px_bootstrap x). cbv iota beta. unfold subscribe.
  cbn [jc_relayClient sim_provider board_relay rc_subscribe]. cbv iota beta.
  change (jc_date_now (sim_provider x inbox) w) with (px_now x). rewrite Hhreq. refold_run. rewrite run_call_await.
  fold (board_relay (px_relayUrl x) inbox).
  match goal with |- context [run_call (publish ?rc ?ev) ?e] =>
    change (run_call (publish rc ev) e) with (sent w [hreq], Ok (mkPublishResult [px_relayUrl x] [])) end.
  cbv iota beta. cbn [pr_successes]. rewrite bool_decide_false by done.
  match goal with |- context [run_call (fun e3 => await ?c ?k e3) ?s] =>
    change (run_call (fun e3 => await c k e3) s) with (run_call (await c k) s) end.
  rewrite run_call_await, run_wait_result. fold hash_filter. cbv iota beta. by destruct (first_match _ _).
Qed.

Lemma run_selected inbox s :
  let after := run_call (job_selected (sim_provider x inbox) sim_job
    (mkOffer (VNum (px_amount x)) (fun _ => ret (px_data x, inr (px_proof x)))) (Some (selection, (ct_token sim_lock, sim_execution)))) s in
  after.2 = Ok tt /\ pv_env after.1 = selected_world inbox (pv_env s).
Proof.
  destruct ok as (_ & _ & _ & _ & _ & _ & _ & Hi & _). cbv zeta. unfold job_selected. rewrite run_noting.
  assert (Hm : selection_matches (sim_provider x inbox) sim_job sim_execution = true).
  { unfold selection_matches. cbn. rewrite (neqn_refl (px_maxAmount x)) by (by apply isInteger_isFinite).
    rewrite (neqn_refl (px_amount x)) by apply amount_finite. by rewrite !bool_decide_true. }
  rewrite Hm. cbn [negb]. rewrite run_call_await, run_call_attempt, run_outside.
  change (qr_oracle_pubkey (jb_payload sim_job)) with opub. change (qr_query_id (jb_payload sim_job)) with (px_queryId x).
  rewrite run_hash. unfold selected_world. destruct (first_match _ _) as [h|]; [|done]. cbv iota beta.
  rewrite run_noting.
  rewrite run_call_await, run_call_attempt, run_outside.
  match goal with |- context [run_call (cc_verifyProviderPaymentLock ?c ?p) ?e] =>
    change (run_call (cc_verifyProviderPaymentLock c p) e) with (e, Ok (mkLockResult [] (num 100))) end.
  cbv iota beta. rewrite run_noting.
  apply run_produce.
Qed.

(** A job for the notice, up to the selection and beyond. *)
Lemma run_job inbox s :
  let seen := List.filter (matchesFilter sim_selection_filter) inbox in
  seen = [] \/ seen = [selection] ->
  let after := run_call (handleJob (sim_provider x inbox) (sim_handler x) sim_notice) s in
  pv_env after.1 = match seen with [] => sent (pv_env s) [sim_offer] | _ => selected_world inbox (sent (pv_env s) [sim_offer]) end.
Proof.
  intros seen Hseen. destruct ok as (_ & _ & _ & _ & _ & _ & Hs & _ & _ & _ & Hpos & Hle & _). cbv zeta. unfold handleJob.
  rewrite notice_parses. cbn [negb]. unfold canOfferForRequest. rewrite bool_decide_true by (cbn; left).
  cbn [negb]. change (qr_schema notice_payload) with (px_schema x). rewrite Hs. cbn [negb].
  cbn [sim_provider jc_proofGenerators]. fold (sim_provider x inbox).
  rewrite run_call_await, run_call_attempt, run_outside.
  match goal with |- context [run_call (sim_handler ?c ?r) ?e] => change (run_call (sim_handler c r) e) with
    (e, Ok (Some (mkOffer (VNum (px_amount x)) (fun _ => ret (px_data x, inr (px_proof x)))))
       : res (option (ProviderOffer (E := World)))) end.
  cbv iota beta. unfold run_call, job_offer. cbn [po_amountSats]. change (qr_max_amount_sats notice_payload) with (px_maxAmount x).
  rewrite Hpos, Hle. cbn [orb]. cbv zeta. unfold noting.
  refold_run. rewrite run_call_await, run_outside.
  match goal with |- context [run_call (publish ?rc ?ev) ?e] =>
    change (run_call (publish rc ev) e) with (sent (pv_env s) [sim_offer], Ok (mkPublishResult [px_relayUrl x] [])) end.
  cbv iota beta. rewrite run_call_await, run_outside.
  match goal with |- context [run_call (save_progress ?c ?r) ?e] => change (run_call (save_progress c r) e) with (e, Ok tt) end.
  cbv iota beta. rewrite run_call_await, run_outside.
  unfold waitForSelection. change (jc_relayClient (sim_provider x inbox)) with (board_relay (px_relayUrl x) inbox).
  rewrite run_wait. change (qr_customer_pubkey notice_payload) with cpub. change (selection_filter rid cpub) with sim_selection_filter.
  fold seen.
  destruct Hseen as [->| ->]; cbn [first_match]; [done|]. unfold keeping. rewrite selection_matched. cbn [fmap option_fmap option_map]. cbv iota beta.
  match goal with |- context [run_call (job_selected ?c ?j ?o ?sel) ?t] => destruct (run_selected inbox t) as [_ H]; exact H end.
Qed.

(** ** What the filters see *)
Definition shape (e : Event) (kind : Z) (author : string) (tags : list (list string)) : Prop :=
  ev_kind e = kind /\ ev_pubkey e = author /\ ev_tags e = tags.

Lemma notice_shape : exists tags, shape sim_notice KIND_QUERY_REQUEST cpub tags.
Proof.
  destruct ok as (Hc & _). eexists. unfold shape, sim_notice, buildQueryRequestEvent. rewrite ev_kind_signed, ev_tags_signed, ev_pubkey_signed. done.
Qed.
Lemma offer_shape : shape sim_offer KIND_QUERY_FEEDBACK ppub [["e"; rid; ""; "request"]; ["p"; cpub]; ["status"; "payment-required"]].
Proof.
  destruct ok as (_ & _ & Hp & _). unfold shape, sim_offer, buildOfferFeedbackEvent. rewrite ev_kind_signed, ev_tags_signed, ev_pubkey_signed. done.
Qed.
Lemma selection_shape : shape selection KIND_QUERY_FEEDBACK cpub [["e"; rid; ""; "request"]; ["p"; ppub]; ["status"; "processing"]].
Proof.
  destruct ok as (Hc & _). apply bind_Ok in Hselection as (c & _ & Hev). injection Hev as <-. unfold shape.
  rewrite ev_kind_signed, ev_tags_signed, ev_pubkey_signed. done.
Qed.
Lemma result_shape : exists tags, shape result KIND_QUERY_RESPONSE ppub (["e"; rid; ""; "request"] :: tags).
Proof.
  destruct ok as (_ & _ & Hp & _). apply bind_Ok in Hresult as (c & _ & Hev). apply bind_Ok in Hev as (tags & _ & Hev). injection Hev as <-.
  eexists. unfold shape. rewrite ev_kind_signed, ev_tags_signed, ev_pubkey_signed. done.
Qed.
Lemma hreq_shape : shape hreq KIND_DIRECT_MESSAGE (kp_publicKey (px_bootstrap x)) [["p"; opub]].
Proof. destruct ok as (_ & Hb & _). apply dm_shape in Hhreq as (H1 & H2 & H3). rewrite <- Hb in H3. done. Qed.
Lemma hresp_shape : shape hresp KIND_DIRECT_MESSAGE opub [["p"; kp_publicKey (px_bootstrap x)]].
Proof. destruct ok as (_ & _ & _ & Ho & _). apply dm_shape in Hhresp as (H1 & H2 & H3). rewrite <- Ho in H3. done. Qed.
Lemma delivery_shape : shape delivery KIND_DIRECT_MESSAGE opub [["p"; ppub]].
Proof. destruct ok as (_ & _ & _ & Ho & _). apply dm_shape in Hdelivery as (H1 & H2 & H3). rewrite <- Ho in H3. done. Qed.

Lemma kind_refused f e k a tags : shape e k a tags -> k ∉ fl_kinds f -> matchesFilter f e = false.
Proof. intros (Hk & _) Hn. unfold matchesFilter. rewrite bool_decide_false; [done|]. by rewrite Hk. Qed.

Lemma tag_accepts e k a n v rest tags : shape e k a ((n :: v :: rest) :: tags) -> tag_filter_passes e (n, [v]) = true.
Proof.
  intros (_ & _ & Ht). rewrite tag_filter_spec. unfold tag_matches. rewrite Ht. cbn. rewrite !bool_decide_true by (done || left). done.
Qed.

Lemma tag_refuses e k a n v w : shape e k a [[n; w]] -> v <> w -> tag_filter_passes e (n, [v]) = false.
Proof.
  intros (_ & _ & Ht) Hne. rewrite tag_filter_spec. unfold tag_matches. rewrite Ht. cbn. rewrite (bool_decide_false (w ∈ [v])); [by rewrite andb_false_r|].
  intros ->%list_elem_of_singleton. done.
Qed.

Lemma filter_accepts e k a tags f : shape e k a tags -> k ∈ fl_kinds f ->
  match fl_authors f with Some l => a ∈ l | None => True end ->
  forallb (tag_filter_passes e) (fl_tags f) = true -> matchesFilter f e = true.
Proof.
  intros (Hk & Ha & _) H1 H2 H3. unfold matchesFilter. rewrite Hk, Ha, bool_decide_true by done. cbn [negb].
  destruct (fl_authors f) as [l|]; [rewrite bool_decide_true by done|]; cbn [negb]; exact H3.
Qed.

Lemma tags_accepted e k a n v rest tags : shape e k a ((n :: v :: rest) :: tags) -> forallb (tag_filter_passes e) [(n, [v])] = true.
Proof. intros Hs. cbn [forallb]. by rewrite (tag_accepts _ _ _ _ _ _ _ Hs). Qed.

Lemma recipient_refused e k a n v w kinds authors : shape e k a [[n; w]] -> v <> w ->
  matchesFilter (mkFilter kinds authors [(n, [v])]) e = false.
Proof.
  intros Hs Hne. unfold matchesFilter. cbn [fl_kinds fl_authors fl_tags forallb]. rewrite (tag_refuses _ _ _ _ _ _ Hs) by done.
  repeat case_match; done.
Qed.

(** Decides every filter of the goal on the events whose shapes are known. *)
Ltac sieve :=
  repeat match goal with
  | Hs : shape ?e _ _ _ |- context [matchesFilter ?f ?e] =>
      first [ rewrite (kind_refused f e _ _ _ Hs) by (intros ?%list_elem_of_singleton; done)
            | rewrite (recipient_refused e _ _ _ _ _ _ _ Hs) by congruence
            | rewrite (filter_accepts e _ _ _ f Hs) by
                (first [by left | exact I | reflexivity | by cbn; left | by apply (tags_accepted _ _ _ _ _ _ _ Hs)]) ]
  end.

Lemma customer_view :
  let sees l := (List.filter (matchesFilter feedback_filter) l, List.filter (matchesFilter result_filter) l) in
  sees [] = ([], []) /\ sees [sim_offer] = ([sim_offer], []) /\ sees [sim_offer; hreq] = ([sim_offer], []) /\
  sees [sim_offer; hreq; hresp] = ([sim_offer], []) /\ sees [sim_offer; hreq; result; hresp] = ([sim_offer], [result]) /\
  sees [sim_offer; hreq; result; hresp; delivery] = ([sim_offer], [result]).
Proof.
  pose proof offer_shape. pose proof hreq_shape. pose proof hresp_shape. pose proof delivery_shape. destruct result_shape as [tags ?].
  cbv zeta. unfold feedback_filter, result_filter. cbn [List.filter]. sieve. by split_and!.
Qed.

Lemma provider_view :
  let sees l := (List.filter (matchesFilter (serve_filter None)) l, List.filter (matchesFilter sim_selection_filter) l,
                 List.filter (matchesFilter hash_filter) l, List.filter (matchesFilter sim_preimage_filter) l) in
  sees [] = ([], [], [], []) /\ sees [sim_notice] = ([sim_notice], [], [], []) /\
  sees [sim_notice; selection] = ([sim_notice], [selection], [], []) /\
  sees [sim_notice; selection; hresp] = ([sim_notice], [selection], [hresp], []) /\
  sees [sim_notice; selection; hresp; delivery] = ([sim_notice], [selection], [hresp], [delivery]).
Proof.
  destruct ok as (_ & _ & _ & _ & Hne & _).
  pose proof selection_shape. pose proof hresp_shape. pose proof delivery_shape. destruct notice_shape as [tags ?].
  cbv zeta. unfold serve_filter, sim_selection_filter, hash_filter, sim_preimage_filter. cbn [truthy List.filter]. sieve. by split_and!.
Qed.

(** The Provider's publications and redemptions on a history, by what it sees. *)
Definition provider_world (inbox : list Event) : World := pv_env (provider_run x inbox).

Lemma provider_world_at inbox S H P :
  (List.filter (matchesFilter (serve_filter None)) inbox, List.filter (matchesFilter sim_selection_filter) inbox,
   List.filter (matchesFilter hash_filter) inbox, List.filter (matchesFilter sim_preimage_filter) inbox) = ([sim_notice], S, H, P) ->
  S = [] \/ S = [selection] -> H = [] \/ H = [hresp] -> P = [] \/ P = [delivery] ->
  provider_world inbox =
  match S, H, P with
  | [], _, _ => sent empty_world [sim_offer]
  | _, [], _ => sent empty_world [sim_offer; hreq]
  | _, _, [] => sent empty_world [sim_offer; hreq; result]
  | _, _, _ => mkWorld [sim_offer; hreq; result] (mkMemoryCashu [] [sim_redeem])
  end.
Proof.
  intros [= E1 E2 E3 E4] HS HH HP. unfold provider_world, provider_run. rewrite E1. cbn [foldl]. rewrite run_job by (by rewrite E2).
  rewrite E2. destruct HS as [->| ->]; [done|]. unfold selected_world, redeem_world. rewrite E3, E4.
  destruct HH as [->| ->]; [done|]. cbn [first_match]. rewrite hash_matched. destruct HP as [->| ->]; [done|]. cbn [first_match].
  unfold keeping. by rewrite preimage_matched.
Qed.

Lemma provider_worlds :
  provider_world [] = empty_world /\
  provider_world [sim_notice] = sent empty_world [sim_offer] /\
  provider_world [sim_notice; selection] = sent empty_world [sim_offer; hreq] /\
  provider_world [sim_notice; selection; hresp] = sent empty_world [sim_offer; hreq; result] /\
  provider_world [sim_notice; selection; hresp; delivery] =
    mkWorld [sim_offer; hreq; result] (mkMemoryCashu [] [sim_redeem]).
Proof.
  destruct provider_view as (_ & H1 & H2 & H3 & H4).
  split_and!; [done|by rewrite (provider_world_at _ _ _ _ H1); auto|by rewrite (provider_world_at _ _ _ _ H2); auto
    |by rewrite (provider_world_at _ _ _ _ H3); auto|by rewrite (provider_world_at _ _ _ _ H4); auto].
Qed.

(** ** The Oracle *)
Lemma oracle_runs :
  let answers l := so_sent (sim_oracle_run x l) in
  answers [] = [] /\ answers [sim_notice] = [] /\ answers [sim_notice; sim_offer] = [] /\
  answers [sim_notice; selection; sim_offer] = [] /\ answers [sim_notice; selection; sim_offer; hreq] = [hresp] /\
  answers [sim_notice; selection; sim_offer; hreq; result] = [hresp; delivery].
Proof.
  pose proof selection_shape. pose proof offer_shape. pose proof hreq_shape as Hq. destruct notice_shape as [tags ?].
  destruct result_shape as [tags' Hr].
  assert (Hn : forall s, sim_oracle_event x s sim_notice = mkSimOracle (jm_set rid (px_queryId x) (so_queryIds s)) (so_sent s)).
  { intros s. unfold sim_oracle_event, oracle_hash, oracle_notice, oracle_result. sieve. by rewrite notice_parses. }
  assert (Hf : forall s, sim_oracle_event x s selection = s /\ sim_oracle_event x s sim_offer = s).
  { intros s. unfold sim_oracle_event, oracle_hash, oracle_notice, oracle_result. by sieve. }
  assert (Hh : forall s, sim_oracle_event x s hreq = mkSimOracle (so_queryIds s) (so_sent s ++ [hresp])).
  { intros s. unfold sim_oracle_event, oracle_hash, oracle_notice, oracle_result. sieve. destruct Hq as (_ & Ha & _). rewrite Ha.
    destruct ok as (_ & Hb & _ & Ho & _). pose proof Hhreq as Hb'. rewrite Ho in Hb'.
    pose proof (hash_request_reads_back _ _ _ _ _ Hb') as Hp. rewrite <- Hb in Hp. by rewrite Hp, Hhresp. }
  assert (Hd : forall s, jm_get rid (so_queryIds s) = Some (px_queryId x) ->
    sim_oracle_event x s result = mkSimOracle (so_queryIds s) (so_sent s ++ [delivery])).
  { intros s Hs. unfold sim_oracle_event, oracle_hash, oracle_notice, oracle_result. sieve. destruct Hr as (_ & Ha & Ht).
    rewrite Ha, Ht. cbn [findTagValue]. rewrite bool_decide_true by done. cbn. by rewrite Hs, Hdelivery. }
  cbv zeta. unfold sim_oracle_run. cbn [foldl]. split_and!; [done|by rewrite Hn| | | |].
  - rewrite Hn. by rewrite (proj2 (Hf _)).
  - rewrite Hn, (proj1 (Hf _)), (proj2 (Hf _)). done.
  - rewrite Hn, (proj1 (Hf _)), (proj2 (Hf _)), Hh. done.
  - rewrite Hn, (proj1 (Hf _)), (proj2 (Hf _)), Hh, Hd; [done|]. cbn [so_queryIds]. apply jm_get_set_eq.
Qed.

(** ** The rounds *)
Lemma result_received inbox : List.filter (matchesFilter result_filter) inbox = [result] ->
  received inbox = inl (mkRequestResult (json_norm (px_data x)) (px_proof x) ppub (px_schema x) None [] (ct_token sim_lock)
    (kp_secretKey (px_customer x))).
Proof.
  intros Hf. destruct ok as (Hc & _ & Hp & _ & _ & _ & _ & _ & _ & _ & _ & _ & _ & Hd). unfold received. rewrite Hf.
  pose proof Hresult as Hr. rewrite Hc in Hr. rewrite Hp. rewrite (response_roundtrip _ _ _ _ _ _ _ _ _ _ response_carried Hd Hr). done.
Qed.

Definition full_board : Board := mkBoard [sim_notice; selection] [sim_offer; hreq; result] [hresp; delivery].

Lemma round_at c p o :
  round x (mkBoard c p o) = mkBoard (wd_sent (customer_run x (p ++ o)).1) (wd_sent (provider_world (c ++ o))) (so_sent (sim_oracle_run x (c ++ p))).
Proof. done. Qed.

Lemma board_full : board x 7 = full_board /\ round x full_board = full_board.
Proof.
  destruct provider_worlds as (P0 & P1 & P2 & P3 & P4). destruct oracle_runs as (O0 & O1 & O2 & O3 & O4 & O5).
  pose proof customer_view as HC. cbv zeta in HC, O0, O1, O2, O3, O4, O5.
  assert (Hc : forall l F, List.filter (matchesFilter feedback_filter) l = F -> F = [] \/ F = [sim_offer] ->
    wd_sent (customer_run x l).1 = match F with [] => [sim_notice] | _ => [sim_notice; selection] end).
  { intros l F Hf [->| ->]; [by apply customer_waits|]. by rewrite (customer_selects _ Hf). }
  assert (Hview : forall l F R, (List.filter (matchesFilter feedback_filter) l, List.filter (matchesFilter result_filter) l) = (F, R) ->
    List.filter (matchesFilter feedback_filter) l = F) by (by intros l F R [= -> _]).
  destruct HC as (C0 & C1 & C2 & C3 & C4 & C5).
  apply Hview in C0, C1, C2, C3, C4, C5.
  assert (B1 : board x 1 = mkBoard [sim_notice] [] []).
  { change (board x 1) with (round x (mkBoard [] [] [])). rewrite round_at. cbn [app]. by rewrite (Hc _ _ C0), P0, O0 by auto. }
  assert (B2 : board x 2 = mkBoard [sim_notice] [sim_offer] []).
  { change (board x 2) with (round x (board x 1)). rewrite B1, round_at. cbn [app]. by rewrite (Hc _ _ C0), P1, O1 by auto. }
  assert (B3 : board x 3 = mkBoard [sim_notice; selection] [sim_offer] []).
  { change (board x 3) with (round x (board x 2)). rewrite B2, round_at. cbn [app]. by rewrite (Hc _ _ C1), P1, O2 by auto. }
  assert (B4 : board x 4 = mkBoard [sim_notice; selection] [sim_offer; hreq] []).
  { change (board x 4) with (round x (board x 3)). rewrite B3, round_at. cbn [app]. by rewrite (Hc _ _ C1), P2, O3 by auto. }
  assert (B5 : board x 5 = mkBoard [sim_notice; selection] [sim_offer; hreq] [hresp]).
  { change (board x 5) with (round x (board x 4)). rewrite B4, round_at. cbn [app]. by rewrite (Hc _ _ C2), P2, O4 by auto. }
  assert (B6 : board x 6 = mkBoard [sim_notice; selection] [sim_offer; hreq; result] [hresp]).
  { change (board x 6) with (round x (board x 5)). rewrite B5, round_at. cbn [app]. by rewrite (Hc _ _ C3), P3, O4 by auto. }
  assert (B7 : board x 7 = full_board).
  { change (board x 7) with (round x (board x 6)). rewrite B6, round_at. cbn [app]. by rewrite (Hc _ _ C4), P3, O5 by auto. }
  split; [done|]. unfold full_board. rewrite round_at. cbn [app]. by rewrite (Hc _ _ C5), P4, O5 by auto.
Qed.

Lemma simulation_full n : (7 <= n)%nat ->
  simulation x n = Ok (mkSimulationResult ppub (px_proof x) (json_norm (px_data x))
    [(px_amount x, ppub, px_hash x, length (px_fundingProofs x))] [sim_redeem]).
Proof.
  intros Hn. destruct board_full as [H7 Hfix].
  assert (Hb : board x n = full_board).
  { replace n with ((n - 7) + 7)%nat by lia. generalize (n - 7)%nat. intros k. induction k as [|k IH]; [done|].
    change (board x (S k + 7)) with (round x (board x (k + 7))). by rewrite IH. }
  unfold simulation. rewrite Hb. cbn [full_board bd_customer bd_provider bd_oracle app].
  destruct customer_view as (_ & _ & _ & _ & _ & HC). destruct provider_worlds as (_ & _ & _ & _ & HP).
  assert (Hview : forall l F R, (List.filter (matchesFilter feedback_filter) l, List.filter (matchesFilter result_filter) l) = (F, R) ->
    List.filter (matchesFilter feedback_filter) l = F /\ List.filter (matchesFilter result_filter) l = R) by (by intros l F R [= -> ->]).
  apply Hview in HC as [HF HR]. rewrite (customer_selects _ HF), (result_received _ HR). unfold provider_world in HP. rewrite HP. done.
Qed.
End completes.

(** ** The exchange completes *)
Section theorem.
Context `{N : NostrLib} `{J : JSON} `{U : UrlApi} `{!NostrLaws N} `{!JSONLaws J}.

(** A text NIP-44 encrypts: of 1 to 65535 bytes. *)
Definition nip44_text (m : string) : bool := Nat.leb 1 (String.length m) && (Z.of_nat (String.length m) <=? 65535)%Z.

(** The texts the parties encrypt in one exchange, and their keys. *)
Definition exchange_texts (x : Parties) : list string :=
  [stringifyPayload (selection_fields (selection_payload (sim_customer x []) (sim_request x) (sim_prepared x) (ct_token (sim_lock x))))
     SELECTION_FEEDBACK_VERSION;
   JSON_stringify (VObj (response_fields (px_schema x) (px_data x) (px_proof x)));
   JSON_stringify (VObj (oracle_response_fields (px_schema x) (px_data x) (px_proof x) (px_queryId x) (ev_id (sim_notice x))));
   stringifyPayload [("type", VStr "hash_request"); ("query_id", VStr (px_queryId x))] HASH_REQUEST_VERSION;
   stringifyPayload [("type", VStr "hash_response"); ("query_id", VStr (px_queryId x)); ("hash", VStr (px_hash x))]
     HASH_RESPONSE_VERSION;
   stringifyPayload (preimage_fields (mkPreimageDelivery (px_queryId x) (ev_id (sim_notice x)) (px_preimage x)))
     PREIMAGE_DELIVERY_VERSION].
Definition exchange_keys (x : Parties) : list SecretKey :=
  kp_secretKey <$> [px_customer x; px_bootstrap x; px_provider x; px_oracle x].

(** NIP-44 between two of the parties takes every text of a legal size. *)
Definition encrypts_between (x : Parties) : Prop :=
  forall m a b, nip44_text m = true -> a ∈ exchange_keys x -> b ∈ exchange_keys x ->
    exists c, encryptNip44 m a (getPublicKey b) = Ok c.

(** Builders succeed when encryption does. *)
Lemma exchange_builds (x : Parties) : parties_ok x -> encrypts_between x -> Forall (fun m => nip44_text m = true) (exchange_texts x) ->
  exists selection hreq hresp result delivery,
    buildSelectionFeedbackEvent (px_customer x) (ev_id (sim_notice x))
      (selection_payload (sim_customer x []) (sim_request x) (sim_prepared x) (ct_token (sim_lock x))) (px_now x) = Ok selection /\
    buildHashRequestEvent (px_bootstrap x) (kp_publicKey (px_oracle x)) (px_queryId x) (px_now x) = Ok hreq /\
    buildHashResponseEvent (px_oracle x) (kp_publicKey (px_bootstrap x)) (mkHashResponse (px_queryId x) (px_hash x)) (px_now x) = Ok hresp /\
    buildQueryResponseEvent (px_provider x) (ev_id (sim_notice x)) (kp_publicKey (px_customer x)) (px_schema x) (px_data x)
      (inr (px_proof x)) (Some (kp_publicKey (px_oracle x))) (Some (px_queryId x)) (px_now x) = Ok result /\
    buildPreimageDeliveryEvent (px_oracle x) (kp_publicKey (px_provider x))
      (mkPreimageDelivery (px_queryId x) (ev_id (sim_notice x)) (px_preimage x)) (px_now x) = Ok delivery.
Proof.
  intros (Hc & Hb & Hp & Ho & _) He Ht. unfold own_key in *.
  apply Forall_cons in Ht as [T1 Ht]. apply Forall_cons in Ht as [T2 Ht]. apply Forall_cons in Ht as [T3 Ht].
  apply Forall_cons in Ht as [T4 Ht]. apply Forall_cons in Ht as [T5 Ht]. apply Forall_cons in Ht as [T6 _].
  assert (Hk : kp_secretKey (px_customer x) ∈ exchange_keys x /\ kp_secretKey (px_bootstrap x) ∈ exchange_keys x /\
               kp_secretKey (px_provider x) ∈ exchange_keys x /\ kp_secretKey (px_oracle x) ∈ exchange_keys x).
  { unfold exchange_keys. split_and!; cbn; set_solver. }
  destruct Hk as (Kc & Kb & Kp & Ko).
  destruct (He _ _ _ T1 Kc Kp) as [c1 E1]. destruct (He _ _ _ T2 Kp Kc) as [c2 E2]. destruct (He _ _ _ T3 Kp Ko) as [c3 E3].
  destruct (He _ _ _ T4 Kb Ko) as [c4 E4]. destruct (He _ _ _ T5 Ko Kb) as [c5 E5]. destruct (He _ _ _ T6 Ko Kp) as [c6 E6].
  rewrite <- Hp in E1, E6. rewrite <- Hc in E2. rewrite <- Ho in E3, E4. rewrite <- Hb in E5.
  do 5 eexists. split_and!.
  - unfold buildSelectionFeedbackEvent.
    change (sf_selected_provider_pubkey _) with (kp_publicKey (px_provider x)). rewrite E1. reflexivity.
  - unfold buildHashRequestEvent, build_dm. rewrite E4. reflexivity.
  - unfold buildHashResponseEvent, build_dm. cbn [hr_query_id hr_hash]. rewrite E5. reflexivity.
  - unfold buildQueryResponseEvent. cbv zeta. unfold proof_for_json, opt_default. rewrite E2. cbn [mbind res_bind]. rewrite E3. reflexivity.
  - unfold buildPreimageDeliveryEvent, build_dm. rewrite E6. reflexivity.
Qed.

End theorem.

(** ** The simulation of the source *)

