(* ===== verification/Regex.v ===== *)
(** * Regular expressions

    The part of the language's regular expressions the repository uses: their
    syntax, read from the text of the literal, and backtracking matching with its
    priorities (greedy and lazy repetition, alternatives from left to right),
    captures, back references and one-character lookaround.  [Match] is the
    meaning without the search order; [run] enumerates exactly its outcomes, in the
    order in which the engine tries them.

    A repetition stops when an iteration consumes nothing, as in the language; the
    captures of earlier iterations are kept, which no pattern of the repository
    observes. *)

From S2P Require Import Prelude JsNum JsMap JsString.

Inductive regex :=
| REps
| RChar (p : Ascii.ascii -> bool)
| RSeq (r1 r2 : regex)
| RAlt (r1 r2 : regex)
| RStar (greedy : bool) (r : regex)
| RGroup (n : nat) (r : regex)
| RBack (n : nat)
| RBol
| REol
| RWordB
| RNotAhead (p : Ascii.ascii -> bool)
| RNotBehind (p : Ascii.ascii -> bool).

(** What was consumed (last character first), what is left, and the captures. *)
Record mstate := mkMs {
  ms_before : list Ascii.ascii;
  ms_after : list Ascii.ascii;
  ms_groups : list (nat * list Ascii.ascii);
}.

(** Captures by number: a later one replaces an earlier one. *)
Fixpoint group_get (n : nat) (l : list (nat * list Ascii.ascii)) : option (list Ascii.ascii) :=
  match l with [] => None | (m, t) :: l' => if Nat.eqb n m then Some t else group_get n l' end.
Definition group_set (n : nat) (t : list Ascii.ascii) (l : list (nat * list Ascii.ascii)) : list (nat * list Ascii.ascii) := (n, t) :: l.

Definition is_word (c : Ascii.ascii) : bool :=
  let n := code c in
  (Nat.leb 48 n && Nat.leb n 57) || (Nat.leb 65 n && Nat.leb n 90) || (Nat.leb 97 n && Nat.leb n 122) || Nat.eqb n 95.

Definition head_is (p : Ascii.ascii -> bool) (l : list Ascii.ascii) : bool := match l with c :: _ => p c | [] => false end.

Definition word_boundary (st : mstate) : bool := xorb (head_is is_word (ms_before st)) (head_is is_word (ms_after st)).

(** The text consumed between two states. *)
Definition consumed (st st' : mstate) : list Ascii.ascii :=
  rev (take (length (ms_before st') - length (ms_before st)) (ms_before st')).

Fixpoint eat (t : list Ascii.ascii) (st : mstate) : option mstate :=
  match t with
  | [] => Some st
  | c :: t' =>
      match ms_after st with
      | d :: rest => if Ascii.eqb c d then eat t' (mkMs (d :: ms_before st) rest (ms_groups st)) else None
      | [] => None
      end
  end.

Definition guard_st (b : bool) (st : mstate) : list mstate := if b then [st] else [].

(** An iteration must consume something. *)
Definition advances (st st' : mstate) : bool := Nat.ltb (length (ms_after st')) (length (ms_after st)).

Fixpoint star_run (body : mstate -> list mstate) (greedy : bool) (fuel : nat) (st : mstate) : list mstate :=
  match fuel with
  | O => [st]
  | S fuel' =>
      let more := flat_map (star_run body greedy fuel') (List.filter (advances st) (body st)) in
      if greedy then more ++ [st] else st :: more
  end.

Fixpoint run (r : regex) (st : mstate) : list mstate :=
  match r with
  | REps => [st]
  | RChar p =>
      match ms_after st with
      | c :: rest => guard_st (p c) (mkMs (c :: ms_before st) rest (ms_groups st))
      | [] => []
      end
  | RSeq r1 r2 => flat_map (run r2) (run r1 st)
  | RAlt r1 r2 => run r1 st ++ run r2 st
  | RStar greedy r => star_run (run r) greedy (length (ms_after st)) st
  | RGroup n r => map (fun st' => mkMs (ms_before st') (ms_after st') (group_set n (consumed st st') (ms_groups st'))) (run r st)
  | RBack n => match eat (opt_default [] (group_get n (ms_groups st))) st with Some st' => [st'] | None => [] end
  | RBol => guard_st (match ms_before st with [] => true | _ => false end) st
  | REol => guard_st (match ms_after st with [] => true | _ => false end) st
  | RWordB => guard_st (word_boundary st) st
  | RNotAhead p => guard_st (negb (head_is p (ms_after st))) st
  | RNotBehind p => guard_st (negb (head_is p (ms_before st))) st
  end.

(** ** Meaning *)
Inductive Match : regex -> mstate -> mstate -> Prop :=
| m_eps st : Match REps st st
| m_char p c before after groups : p c = true -> Match (RChar p) (mkMs before (c :: after) groups) (mkMs (c :: before) after groups)
| m_seq r1 r2 st st1 st2 : Match r1 st st1 -> Match r2 st1 st2 -> Match (RSeq r1 r2) st st2
| m_alt_l r1 r2 st st' : Match r1 st st' -> Match (RAlt r1 r2) st st'
| m_alt_r r1 r2 st st' : Match r2 st st' -> Match (RAlt r1 r2) st st'
| m_star_stop g r st : Match (RStar g r) st st
| m_star_more g r st st1 st2 :
    Match r st st1 -> (length (ms_after st1) < length (ms_after st))%nat -> Match (RStar g r) st1 st2 -> Match (RStar g r) st st2
| m_group n r st st' :
    Match r st st' -> Match (RGroup n r) st (mkMs (ms_before st') (ms_after st') (group_set n (consumed st st') (ms_groups st')))
| m_back n st st' : eat (opt_default [] (group_get n (ms_groups st))) st = Some st' -> Match (RBack n) st st'
| m_bol after groups : Match RBol (mkMs [] after groups) (mkMs [] after groups)
| m_eol before groups : Match REol (mkMs before [] groups) (mkMs before [] groups)
| m_wordb st : word_boundary st = true -> Match RWordB st st
| m_ahead p st : head_is p (ms_after st) = false -> Match (RNotAhead p) st st
| m_behind p st : head_is p (ms_before st) = false -> Match (RNotBehind p) st st.

Lemma elem_of_guard b st st' : st' ∈ guard_st b st <-> b = true /\ st' = st.
Proof. unfold guard_st. destruct b; [rewrite list_elem_of_singleton|rewrite elem_of_nil]; naive_solver. Qed.

Lemma elem_of_flat_map {A B} (f : A -> list B) l y : y ∈ flat_map f l <-> exists x, x ∈ l /\ y ∈ f x.
Proof.
  rewrite list_elem_of_In, in_flat_map. split; intros (x & H1 & H2); exists x; split; try (by apply list_elem_of_In);
    by rewrite <- ?list_elem_of_In.
Qed.

(** The fuel of a repetition is enough: each iteration shortens what is left. *)
Lemma star_run_spec r g (Hr : forall st st', st' ∈ run r st <-> Match r st st') fuel st st' :
  (length (ms_after st) <= fuel)%nat -> st' ∈ star_run (run r) g fuel st <-> Match (RStar g r) st st'.
Proof.
  revert st st'. induction fuel as [|fuel IH]; intros st st' Hf.
  - cbn. rewrite list_elem_of_singleton. split; [intros ->; constructor|]. intros H. inversion H; subst; [done|lia].
  - cbn [star_run]. assert (Hmore : forall st', st' ∈ flat_map (star_run (run r) g fuel) (List.filter (advances st) (run r st)) <->
      exists st1, Match r st st1 /\ (length (ms_after st1) < length (ms_after st))%nat /\ Match (RStar g r) st1 st').
    { intros st2. rewrite elem_of_flat_map. split.
      - intros (st1 & H1 & H2). apply list_elem_of_In, filter_In in H1 as [H1 Hp]. apply list_elem_of_In, Hr in H1.
        unfold advances in Hp. apply Nat.ltb_lt in Hp. exists st1. split_and!; [done|done|]. apply IH; [lia|done].
      - intros (st1 & H1 & Hp & H2). exists st1. split; [|apply IH; [lia|done]].
        apply list_elem_of_In, filter_In. split; [by apply list_elem_of_In, Hr|]. by apply Nat.ltb_lt. }
    assert (Hgoal : (st' ∈ flat_map (star_run (run r) g fuel) (List.filter (advances st) (run r st)) \/ st' = st) <-> Match (RStar g r) st st').
    { rewrite Hmore. split.
      - intros [(st1 & H1 & Hp & H2)| ->]; [by eapply m_star_more|constructor].
      - intros H. inversion H; subst; [by right|left]. eauto. }
    rewrite <- Hgoal. destruct g; [rewrite elem_of_app, list_elem_of_singleton|rewrite elem_of_cons]; tauto.
Qed.

(** The search enumerates exactly the matches. *)
Lemma run_spec r st st' : st' ∈ run r st <-> Match r st st'.
Proof.
  revert st st'. induction r as [|p|r1 IH1 r2 IH2|r1 IH1 r2 IH2|g r IH|n r IH|n| | | |p|p]; intros st st'; cbn [run].
  - rewrite list_elem_of_singleton. split; [intros ->; constructor|by inversion 1].
  - destruct st as [before [|c after] groups]; cbn.
    + split; [by intros ?%not_elem_of_nil|by inversion 1].
    + rewrite elem_of_guard. split; [intros [Hp ->]; by constructor|by inversion 1].
  - rewrite elem_of_flat_map. split.
    + intros (st1 & H1%IH1 & H2%IH2). by eapply m_seq.
    + inversion 1; subst. eexists. rewrite IH1, IH2. eauto.
  - rewrite elem_of_app, IH1, IH2. split; [intros [H|H]; by constructor|inversion 1; auto].
  - by apply star_run_spec.
  - rewrite list_elem_of_In, in_map_iff. split.
    + intros (st1 & <- & H1). constructor. by apply IH, list_elem_of_In.
    + inversion 1; subst. eexists. split; [reflexivity|]. by apply list_elem_of_In, IH.
  - destruct (eat _ st) as [st1|] eqn:E.
    + rewrite list_elem_of_singleton. split; [intros ->; by constructor|]. inversion 1; subst. congruence.
    + split; [by intros ?%not_elem_of_nil|]. inversion 1; subst. congruence.
  - rewrite elem_of_guard. destruct st as [[|c before] after groups]; cbn; split; try (by intros [? ->]; constructor); by inversion 1.
  - rewrite elem_of_guard. destruct st as [before [|c after] groups]; cbn; split; try (by intros [? ->]; constructor); by inversion 1.
  - rewrite elem_of_guard. split; [intros [H ->]; by constructor|by inversion 1].
  - rewrite elem_of_guard, negb_true_iff. split; [intros [H ->]; by constructor|by inversion 1].
  - rewrite elem_of_guard, negb_true_iff. split; [intros [H ->]; by constructor|by inversion 1].
Qed.

(** A match consumes a prefix of what was left. *)
Lemma eat_consumes t st st' : eat t st = Some st' -> ms_after st = t ++ ms_after st' /\ ms_before st' = rev t ++ ms_before st.
Proof.
  revert st. induction t as [|c t IH]; intros st H; cbn in H; [by injection H as <-|].
  destruct (ms_after st) as [|d rest] eqn:E; [done|]. destruct (Ascii.eqb_spec c d) as [->|]; [|done].
  apply IH in H as [H1 H2]. cbn in *. subst. split; [done|]. by rewrite H2, <- app_assoc.
Qed.

Lemma match_consumes r st st' : Match r st st' -> exists t, ms_after st = t ++ ms_after st' /\ ms_before st' = rev t ++ ms_before st.
Proof.
  induction 1 as [st|p c before after groups Hp|r1 r2 st st1 st2 _ (t1 & A1 & B1) _ (t2 & A2 & B2)|r1 r2 st st' _ IH|r1 r2 st st' _ IH
    |g r st|g r st st1 st2 _ (t1 & A1 & B1) _ _ (t2 & A2 & B2)|n r st st' _ IH|n st st' He|after groups|before groups|st|p st|p st];
    try (by exists []); try done.
  - by exists [c].
  - exists (t1 ++ t2). split; [by rewrite A1, A2, app_assoc|]. by rewrite B2, B1, rev_app_distr, app_assoc.
  - exists (t1 ++ t2). split; [by rewrite A1, A2, app_assoc|]. by rewrite B2, B1, rev_app_distr, app_assoc.
  - apply eat_consumes in He. eauto.
Qed.

(** ** Searching *)
Record found := mkFound { fd_index : nat; fd_text : string; fd_groups : list (nat * list Ascii.ascii); fd_end : mstate }.

(** [re.exec] from a position: the first position at which the pattern matches,
    with the match the engine prefers there. *)
Fixpoint exec_from (r : regex) (before after : list Ascii.ascii) : option found :=
  let here := mkMs before after [] in
  match run r here with
  | st :: _ => Some (mkFound (length before) (of_chars (consumed here st)) (ms_groups st) st)
  | [] => match after with [] => None | c :: rest => exec_from r (c :: before) rest end
  end.

Definition exec (r : regex) (s : string) : option found := exec_from r [] (chars s).
Definition test (r : regex) (s : string) : bool := match exec r s with Some _ => true | None => false end.

(** [m[n]] *)
Definition capture (n : nat) (m : found) : string :=
  match n with O => fd_text m | _ => of_chars (opt_default [] (group_get n (fd_groups m))) end.

(** The state after skipping [i] characters of a text. *)
Definition at_pos (i : nat) (l : list Ascii.ascii) : mstate := mkMs (rev (take i l)) (drop i l) [].

Lemma exec_from_spec r l i :
  (i <= length l)%nat ->
  match exec_from r (rev (take i l)) (drop i l) with
  | Some m => (i <= fd_index m <= length l)%nat /\ Match r (at_pos (fd_index m) l) (fd_end m) /\
      fd_text m = of_chars (consumed (at_pos (fd_index m) l) (fd_end m)) /\ fd_groups m = ms_groups (fd_end m) /\
      (exists rest, run r (at_pos (fd_index m) l) = fd_end m :: rest) /\
      forall j st, (i <= j < fd_index m)%nat -> ~ Match r (at_pos j l) st
  | None => forall j st, (i <= j <= length l)%nat -> ~ Match r (at_pos j l) st
  end.
Proof.
  remember (length l - i)%nat as n eqn:Hn. revert i Hn. induction n as [|n IH]; intros i Hn Hi.
  - assert (i = length l) as -> by lia. rewrite drop_all. cbn [exec_from].
    assert (Hmk : mkMs (rev (take (length l) l)) [] [] = at_pos (length l) l) by (unfold at_pos; by rewrite drop_all). rewrite Hmk.
    destruct (run r (at_pos (length l) l)) as [|st rest] eqn:E; cbn.
    + intros j st Hj Hm. assert (j = length l) as -> by lia. apply run_spec in Hm. rewrite E in Hm. by apply not_elem_of_nil in Hm.
    + rewrite length_rev, length_take, Nat.min_id. split_and!; try done; [apply run_spec; rewrite E; left|by eexists|].
      intros j st' Hj. lia.
  - destruct (drop i l) as [|c rest] eqn:Ed.
    { apply (f_equal length) in Ed. rewrite length_drop in Ed. cbn in Ed. lia. }
    cbn [exec_from]. rewrite <- Ed. fold (at_pos i l). destruct (run r (at_pos i l)) as [|st more] eqn:E.
    + assert (Hc : c :: rev (take i l) = rev (take (S i) l)).
      { rewrite <- rev_unit. f_equal. symmetry. apply take_S_r. rewrite <- (Nat.add_0_r i), <- lookup_drop, Ed. done. }
      assert (Hr : rest = drop (S i) l) by (by rewrite <- Nat.add_1_r, <- drop_drop, Ed).
      rewrite Hc, Hr. specialize (IH (S i) ltac:(lia) ltac:(lia)).
      assert (Hnot : forall st, ~ Match r (at_pos i l) st).
      { intros st Hm. apply run_spec in Hm. rewrite E in Hm. by apply not_elem_of_nil in Hm. }
      destruct (exec_from r (rev (take (S i) l)) (drop (S i) l)) as [m|].
      * destruct IH as (H1 & H2 & H3 & H4 & H5 & H6). split_and!; try done; [lia|lia|]. intros j st Hj.
        destruct (decide (j = i)) as [->|]; [apply Hnot|]. apply H6. lia.
      * intros j st Hj. destruct (decide (j = i)) as [->|]; [apply Hnot|]. apply IH. lia.
    + cbn [fd_index fd_end fd_text fd_groups]. rewrite length_rev, length_take. replace (i `min` length l)%nat with i by lia.
      split_and!; try done; [apply run_spec; rewrite E; left|by eexists|]. intros j st' Hj. lia.
Qed.

(** [exec] finds the leftmost match: where it finds one the pattern matches the
    reported text and matches nowhere to the left, with the preferred of the
    matches there; and when it finds none there is none. *)
Theorem exec_leftmost r s :
  match exec r s with
  | Some m => (fd_index m <= length (chars s))%nat /\ Match r (at_pos (fd_index m) (chars s)) (fd_end m) /\
      chars s = take (fd_index m) (chars s) ++ chars (fd_text m) ++ ms_after (fd_end m) /\
      head (run r (at_pos (fd_index m) (chars s))) = Some (fd_end m) /\
      forall j st, (j < fd_index m)%nat -> ~ Match r (at_pos j (chars s)) st
  | None => forall j st, (j <= length (chars s))%nat -> ~ Match r (at_pos j (chars s)) st
  end.
Proof.
  unfold exec. pose proof (exec_from_spec r (chars s) 0 ltac:(lia)) as H. change (rev (take 0 (chars s))) with (@nil Ascii.ascii) in H. rewrite drop_0 in H.
  destruct (exec_from r [] (chars s)) as [m|].
  - destruct H as (H1 & H2 & H3 & H4 & (rest & H5) & H6). split_and!; [lia|done| |by rewrite H5|intros j st Hj; apply H6; lia].
    apply match_consumes in H2 as (t & Ha & Hb). rewrite H3. unfold consumed. rewrite Hb. cbn [at_pos ms_before].
    rewrite length_app, Nat.add_sub, take_app_length, chars_of_chars. cbn [at_pos ms_after] in Ha.
    rewrite rev_involutive, <- Ha. by rewrite take_drop.
  - intros j st Hj. apply H. lia.
Qed.

(** ** All matches, and replacement *)

(** [s.matchAll(re)] and [re.exec] in a loop, for a global pattern: the next search
    starts where the last match ended, one further when it was empty. *)
Fixpoint match_all (fuel : nat) (r : regex) (before after : list Ascii.ascii) : list found :=
  match fuel with
  | O => []
  | S fuel' =>
      match exec_from r before after with
      | None => []
      | Some m =>
          let st := fd_end m in
          m :: if Nat.eqb (String.length (fd_text m)) 0 then
                 match ms_after st with [] => [] | c :: rest => match_all fuel' r (c :: ms_before st) rest end
               else match_all fuel' r (ms_before st) (ms_after st)
      end
  end.
Definition matchAll (r : regex) (s : string) : list found := match_all (S (S (length (chars s)))) r [] (chars s).

(** [s.replace(re, f)] for a global pattern: the texts between the matches are
    kept. *)
Fixpoint splice (f : found -> string) (l : list Ascii.ascii) (pos : nat) (ms : list found) : list Ascii.ascii :=
  match ms with
  | [] => drop pos l
  | m :: ms' =>
      take (fd_index m - pos) (drop pos l) ++ chars (f m) ++ splice f l (fd_index m + String.length (fd_text m)) ms'
  end.
Definition replaceAll (r : regex) (f : found -> string) (s : string) : string := of_chars (splice f (chars s) 0 (matchAll r s)).

(** ** Syntax *)
Definition is_c (n : nat) (c : Ascii.ascii) : bool := Nat.eqb (code c) n.
Definition char_class := Ascii.ascii -> bool.

(** Case folding of the [i] flag, on letters. *)
Definition fold_case (ci : bool) (p : char_class) : char_class := fun c =>
  p c || (ci && (p (upper_char c) ||
                 let n := code c in (Nat.leb 65 n && Nat.leb n 90) && p (Ascii.ascii_of_nat (n + 32)))).

(** [\s], [\w], [\d], [\n], and an escaped character that stands for itself. *)
Definition class_escape (c : Ascii.ascii) : char_class :=
  if is_c 115 c then (fun d => is_space d)
  else if is_c 83 c then (fun d => negb (is_space d))
  else if is_c 119 c then is_word
  else if is_c 100 c then (fun d => Nat.leb 48 (code d) && Nat.leb (code d) 57)
  else if is_c 110 c then is_c 10
  else is_c (code c).

(** The inside of a bracketed class, after the [^]: a list of items up to the
    closing bracket. *)
Fixpoint class_items (l : list Ascii.ascii) : option (char_class * list Ascii.ascii) :=
  match l with
  | [] => None
  | c :: rest =>
      if is_c 93 c then Some (fun _ => false, rest)
      else if is_c 92 c then
        match rest with
        | [] => None
        | e :: rest' => match class_items rest' with Some (p, l') => Some (fun d => class_escape e d || p d, l') | None => None end
        end
      else
        match rest with
        | dash :: hi :: rest' =>
            if is_c 45 dash && negb (is_c 93 hi) then
              match class_items rest' with
              | Some (p, l') => Some (fun d => (Nat.leb (code c) (code d) && Nat.leb (code d) (code hi)) || p d, l')
              | None => None
              end
            else match class_items rest with Some (p, l') => Some (fun d => is_c (code c) d || p d, l') | None => None end
        | _ => match class_items rest with Some (p, l') => Some (fun d => is_c (code c) d || p d, l') | None => None end
        end
  end.

Definition bracket (ci : bool) (l : list Ascii.ascii) : option (char_class * list Ascii.ascii) :=
  match l with
  | c :: rest =>
      if is_c 94 c then match class_items rest with Some (p, l') => Some (fun d => negb (fold_case ci p d), l') | None => None end
      else match class_items l with Some (p, l') => Some (fold_case ci p, l') | None => None end
  | [] => None
  end.

(** [{n}] and [{n,m}] *)
Fixpoint read_digits (acc : nat) (l : list Ascii.ascii) : nat * list Ascii.ascii :=
  match l with
  | c :: rest => if Nat.leb 48 (code c) && Nat.leb (code c) 57 then read_digits (acc * 10 + (code c - 48)) rest else (acc, l)
  | [] => (acc, [])
  end.

Fixpoint times (n : nat) (r : regex) : regex := match n with O => REps | S n' => RSeq r (times n' r) end.
Fixpoint up_to (n : nat) (r : regex) : regex := match n with O => REps | S n' => RAlt (RSeq r (up_to n' r)) REps end.

Definition lazy_mark (l : list Ascii.ascii) : bool * list Ascii.ascii :=
  match l with c :: rest => if is_c 63 c then (false, rest) else (true, l) | [] => (true, []) end.

Definition quantified (r : regex) (l : list Ascii.ascii) : regex * list Ascii.ascii :=
  match l with
  | c :: rest =>
      if is_c 42 c then let '(g, l') := lazy_mark rest in (RStar g r, l')
      else if is_c 43 c then let '(g, l') := lazy_mark rest in (RSeq r (RStar g r), l')
      else if is_c 63 c then let '(g, l') := lazy_mark rest in (if g then RAlt r REps else RAlt REps r, l')
      else if is_c 123 c then
        let '(n, l1) := read_digits 0 rest in
        match l1 with
        | d :: l2 =>
            if is_c 125 d then (times n r, l2)
            else let '(m, l3) := read_digits 0 l2 in (RSeq (times n r) (up_to (m - n) r), drop 1 l3)
        | [] => (r, l)
        end
      else (r, l)
  | [] => (r, [])
  end.

(** A pattern, up to the closing parenthesis or the end; [n] is the number of the
    next capture. *)
Fixpoint parse_alt (fuel : nat) (ci : bool) (n : nat) (l : list Ascii.ascii) {struct fuel} : option (regex * nat * list Ascii.ascii) :=
  match fuel with
  | O => None
  | S fuel' =>
      match parse_seq fuel' ci n l with
      | Some (r, n', c :: rest) =>
          if is_c 124 c then
            match parse_alt fuel' ci n' rest with
            | Some (r', n'', rest') => Some (RAlt r r', n'', rest')
            | None => None
            end
          else Some (r, n', c :: rest)
      | other => other
      end
  end
with parse_seq (fuel : nat) (ci : bool) (n : nat) (l : list Ascii.ascii) {struct fuel} : option (regex * nat * list Ascii.ascii) :=
  match fuel with
  | O => None
  | S fuel' =>
      match l with
      | [] => Some (REps, n, [])
      | c :: rest =>
          if is_c 124 c || is_c 41 c then Some (REps, n, l)
          else
            match parse_atom fuel' ci n l with
            | None => None
            | Some (a, n', l1) =>
                let '(a', l2) := quantified a l1 in
                match parse_seq fuel' ci n' l2 with
                | Some (r, n'', l3) => Some (RSeq a' r, n'', l3)
                | None => None
                end
            end
      end
  end
with parse_atom (fuel : nat) (ci : bool) (n : nat) (l : list Ascii.ascii) {struct fuel} : option (regex * nat * list Ascii.ascii) :=
  match fuel with
  | O => None
  | S fuel' =>
      match l with
      | [] => None
      | c :: rest =>
          if is_c 94 c then Some (RBol, n, rest)
          else if is_c 36 c then Some (REol, n, rest)
          else if is_c 46 c then Some (RChar (fun d => negb (is_c 10 d || is_c 13 d)), n, rest)
          else if is_c 91 c then match bracket ci rest with Some (p, l') => Some (RChar p, n, l') | None => None end
          else if is_c 92 c then
            match rest with
            | [] => None
            | e :: rest' =>
                if is_c 98 e then Some (RWordB, n, rest')
                else if Nat.leb 49 (code e) && Nat.leb (code e) 57 then Some (RBack (code e - 48), n, rest')
                else Some (RChar (fold_case ci (class_escape e)), n, rest')
            end
          else if is_c 40 c then
            match rest with
            | q :: k :: rest' =>
                if is_c 63 q && is_c 58 k then
                  match parse_alt fuel' ci n rest' with Some (r, n', close :: l') => Some (r, n', l') | _ => None end
                else if is_c 63 q && is_c 33 k then
                  (* a negative lookahead for one character *)
                  match parse_atom fuel' ci n rest' with Some (RChar p, n', close :: l') => Some (RNotAhead p, n', l') | _ => None end
                else if is_c 63 q && is_c 60 k then
                  (* a negative lookbehind for one character *)
                  match parse_atom fuel' ci n (drop 1 rest') with Some (RChar p, n', close :: l') => Some (RNotBehind p, n', l') | _ => None end
                else match parse_alt fuel' ci (S n) rest with Some (r, n', close :: l') => Some (RGroup n r, n', l') | _ => None end
            | _ => match parse_alt fuel' ci (S n) rest with Some (r, n', close :: l') => Some (RGroup n r, n', l') | _ => None end
            end
          else Some (RChar (fold_case ci (is_c (code c))), n, rest)
      end
  end.

Definition parse_regex (ci : bool) (source : string) : option regex :=
  let l := chars source in
  match parse_alt (S (3 * length l + 3)) ci 1 l with Some (r, _, []) => Some r | _ => None end.

(** [/source/] and [/source/i]; what is not a pattern matches nothing. *)
Definition rx (source : string) : regex := opt_default (RChar (fun _ => false)) (parse_regex false source).
Definition rxi (source : string) : regex := opt_default (RChar (fun _ => false)) (parse_regex true source).
Definition is_pattern (source : string) : bool := match parse_regex false source with Some _ => true | None => false end.

Example regex_ex :
  (capture 0 <$> exec (rx "\bas\s+([A-Z][\w$]*)\b") "x as  Foo$;", capture 1 <$> exec (rx "<\s*(a+?)(a*)>") "< aaa>",
   capture 2 <$> exec (rx "<\s*(a+?)(a*)>") "< aaa>", test (rx ":\s*any\b(?!\.)") "x: any.y", test (rx "(?<![.\w])import") "re.import",
   fd_index <$> exec (rx "(?<![.\w])import\(('|`)(x+)\1") "y import('xx`) import(`x`)",
   (fun m => (fd_index m, fd_text m)) <$> matchAll (rx "a*") "baa", replaceAll (rx "'(?:\\.|[^'\\])*'") (fun _ => "''") "x='a\'b'+'c'",
   test (rxi "\blegacy\b") "Legacy", test (rx "^a{2,3}$") "aaaa")
  = (Some "as  Foo", Some "a", Some "aa", false, false, Some 15, [(0, ""); (1, "aa"); (3, "")], "x=''+''", true, false)%nat.
Proof. vm_compute. reflexivity. Qed.
