(* ===== verification/Patterns.v ===== *)
(** * Recognizers and the patterns they stand for

    Several components model a literal pattern of the source by a hand-written
    recognizer.  Here the recognizers are shown equal to the pattern itself, read
    from its text and searched by the engine of [Regex].

    For patterns without captures that are looked at, lookaround and word
    boundaries, matching is a Boolean function of the remaining text. *)

From S2P Require Import Prelude JsNum JsMap JsString SchemaUri CashuTypes CashuClient UrlValidation Regex.

(** [q] is what must hold of the text after the match. *)
Fixpoint star_accepts (body : list Ascii.ascii -> (list Ascii.ascii -> bool) -> bool) (fuel : nat) (l : list Ascii.ascii)
    (q : list Ascii.ascii -> bool) : bool :=
  match fuel with
  | O => q l
  | S fuel' => q l || body l (fun l' => Nat.ltb (length l') (length l) && star_accepts body fuel' l' q)
  end.

Fixpoint accepts (r : regex) (l : list Ascii.ascii) (q : list Ascii.ascii -> bool) : bool :=
  match r with
  | REps => q l
  | RChar p => match l with c :: l' => p c && q l' | [] => false end
  | RSeq r1 r2 => accepts r1 l (fun l' => accepts r2 l' q)
  | RAlt r1 r2 => accepts r1 l q || accepts r2 l q
  | RStar _ r => star_accepts (accepts r) (length l) l q
  | RGroup _ r => accepts r l q
  | REol => match l with [] => q [] | _ => false end
  | _ => false
  end.

Fixpoint simple (r : regex) : bool :=
  match r with
  | REps | RChar _ | REol => true
  | RSeq r1 r2 | RAlt r1 r2 => simple r1 && simple r2
  | RStar _ r | RGroup _ r => simple r
  | _ => false
  end.

Lemma existsb_flat_map {A B} (q : B -> bool) (f : A -> list B) l : existsb q (flat_map f l) = existsb (fun x => existsb q (f x)) l.
Proof. induction l as [|x l IH]; [done|]. cbn. by rewrite existsb_app, IH. Qed.

Lemma existsb_ext_all {A} (f g : A -> bool) l : (forall x, f x = g x) -> existsb f l = existsb g l.
Proof. intros H. induction l as [|x l IH]; [done|]. cbn. by rewrite H, IH. Qed.

Lemma existsb_filter {A} (f q : A -> bool) l : existsb q (List.filter f l) = existsb (fun x => f x && q x) l.
Proof. induction l as [|x l IH]; [done|]. cbn. destruct (f x); cbn; by rewrite IH. Qed.

Lemma existsb_map {A B} (q : B -> bool) (f : A -> B) l : existsb q (map f l) = existsb (fun x => q (f x)) l.
Proof. induction l as [|x l IH]; [done|]. cbn. by rewrite IH. Qed.

Lemma accepts_ext r l q q' : (forall l, q l = q' l) -> accepts r l q = accepts r l q'.
Proof.
  revert l q q'. induction r as [|p|r1 IH1 r2 IH2|r1 IH1 r2 IH2|g r IH|n r IH|n| | | |p|p]; intros l q q' H; cbn; try done.
  - destruct l; [done|]. by rewrite H.
  - apply IH1. intros l'. by apply IH2.
  - by rewrite (IH1 l q q'), (IH2 l q q').
  - generalize (length l) at 1 2. intros fuel. revert l. induction fuel as [|fuel IHf]; intros l; cbn; [done|].
    rewrite H. f_equal. apply IH. intros l'. by rewrite IHf.
  - by apply IH.
  - by destruct l.
Qed.

(** The search has a match that is followed by [q] exactly when the text is accepted. *)
Lemma run_accepts r st q : simple r = true -> existsb (fun st' => q (ms_after st')) (run r st) = accepts r (ms_after st) q.
Proof.
  revert st q. induction r as [|p|r1 IH1 r2 IH2|r1 IH1 r2 IH2|g r IH|n r IH|n| | | |p|p]; intros st q Hs; cbn in Hs; try done; cbn [run accepts].
  - cbn. by rewrite orb_false_r.
  - destruct (ms_after st) as [|c rest]; [done|]. unfold guard_st. destruct (p c); cbn; [by rewrite orb_false_r|done].
  - apply andb_true_iff in Hs as [H1 H2]. rewrite existsb_flat_map, <- IH1 by done. apply existsb_ext_all. intros st'. by apply IH2.
  - apply andb_true_iff in Hs as [H1 H2]. by rewrite existsb_app, IH1, IH2.
  - generalize (length (ms_after st)) as fuel. intros fuel. revert st. induction fuel as [|fuel IHf]; intros st; cbn [star_run star_accepts].
    + cbn. by rewrite orb_false_r.
    + assert (Hmore : existsb (fun st' => q (ms_after st')) (flat_map (star_run (run r) g fuel) (List.filter (advances st) (run r st))) =
        accepts r (ms_after st) (fun l' => Nat.ltb (length l') (length (ms_after st)) && star_accepts (accepts r) fuel l' q)).
      { rewrite existsb_flat_map, existsb_filter, <- IH by done. apply existsb_ext_all. intros st'. unfold advances. by rewrite IHf. }
      destruct g; [rewrite existsb_app, Hmore; cbn; rewrite orb_false_r; apply orb_comm|cbn; by rewrite Hmore].
  - rewrite existsb_map. cbn. by apply IH.
  - unfold guard_st. destruct (ms_after st) as [|c l] eqn:E; cbn; [by rewrite E, orb_false_r|done].
Qed.

(** An anchored pattern is tested at the start of the text only. *)
Lemma test_anchored r s : simple r = true -> test (RSeq RBol r) s = accepts r (chars s) (fun _ => true).
Proof.
  intros Hs. pose proof (run_accepts r (mkMs [] (chars s) []) (fun _ => true) Hs) as Hacc. cbn [ms_after] in Hacc. rewrite <- Hacc.
  unfold test, exec.
  assert (Hlater : forall b a, b <> [] -> exec_from (RSeq RBol r) b a = None).
  { intros b a. revert b. induction a as [|c a IH]; intros b Hb; cbn; destruct b; try done. by apply IH. }
  assert (Hrun : run (RSeq RBol r) (mkMs [] (chars s) []) = run r (mkMs [] (chars s) [])) by (cbn; by rewrite app_nil_r).
  destruct (chars s) as [|c l] eqn:El; cbn [exec_from]; rewrite Hrun; destruct (run r _); try done. by rewrite Hlater.
Qed.

(** ** Classes *)
Lemma star_char p l q : star_accepts (accepts (RChar p)) (length l) l q = q l || match l with c :: l' => p c && star_accepts (accepts (RChar p)) (length l') l' q | [] => false end.
Proof. destruct l as [|c l]; cbn; [by rewrite orb_false_r|]. by rewrite (Nat.leb_refl (length l)). Qed.

(** A greedy class followed by something that cannot start with it. *)
Lemma star_span p l q : (forall c l', p c = true -> q (c :: l') = false) ->
  star_accepts (accepts (RChar p)) (length l) l q = q (span p l).2.
Proof.
  intros Hq. induction l as [|c l IH]; [done|]. rewrite star_char. cbn [span]. destruct (p c) eqn:Hc.
  - rewrite IH, Hq by done. by destruct (span p l).
  - cbn. by rewrite orb_false_r.
Qed.

Lemma span_ext p p' l : (forall c, p c = p' c) -> span p l = span p' l.
Proof. intros H. induction l as [|c l IH]; [done|]. cbn. by rewrite H, IH. Qed.

Lemma times_char p n l q : accepts (times n (RChar p)) l q = (Nat.leb n (length l) && forallb p (take n l)) && q (drop n l).
Proof.
  revert l. induction n as [|n IH]; intros l; [done|]. cbn [times accepts]. destruct l as [|c l]; [done|]. rewrite IH. cbn.
  destruct (p c), (Nat.leb n (length l)), (forallb p (take n l)); done.
Qed.

Ltac by_chars := intros c; destruct c as [[] [] [] [] [] [] [] []]; vm_compute; reflexivity.

(** ** Keys and hashes *)
Lemma length_chars s : length (chars s) = String.length s.
Proof. induction s as [|c s IH]; [done|]. cbn. by f_equal. Qed.

Definition HEX64 : regex := rx "^[0-9a-fA-F]{64}$".

Lemma hex64_pattern s : test HEX64 s = is_hex64 s.
Proof.
  assert (Hrx : exists p, (forall c, p c = is_hex_char c) /\ HEX64 = RSeq RBol (RSeq (times 64 (RChar p)) (RSeq REol REps))).
  { eexists. split; [|reflexivity]. by_chars. }
  destruct Hrx as (p & Hp & ->). rewrite test_anchored by reflexivity. cbn [accepts]. rewrite times_char.
  unfold is_hex64. rewrite <- length_chars. set (l := chars s). destruct (Nat.leb_spec 64 (length l)) as [Hle|Hlt]; cbn [andb].
  - destruct (Nat.eqb_spec (length l) 64) as [He|Hne]; cbn [andb].
    + rewrite take_ge, drop_ge by lia. rewrite andb_true_r. clearbody l. clear -Hp. induction l as [|c l IH]; [done|]. cbn. by rewrite Hp, IH.
    + destruct (drop 64 l) eqn:Ed; [|by rewrite andb_false_r]. apply (f_equal length) in Ed. rewrite length_drop in Ed. cbn in Ed. lia.
  - destruct (Nat.eqb_spec (length l) 64); [lia|done].
Qed.

(** ** Literal text *)
Fixpoint lit (s : string) (r : regex) : regex :=
  match s with EmptyString => r | String c s' => RSeq (RChar (fold_case false (is_c (code c)))) (lit s' r) end.

Lemma is_c_eq a c : fold_case false (is_c (code a)) c = Ascii.eqb a c.
Proof.
  unfold fold_case, is_c, code. rewrite orb_false_r. destruct (Ascii.eqb_spec a c) as [->|Hne]; [apply Nat.eqb_refl|].
  apply Nat.eqb_neq. intros E. apply Hne. apply (f_equal Ascii.ascii_of_nat) in E. by rewrite !Ascii.ascii_nat_embedding in E.
Qed.

Lemma lit_accepts s r l q :
  accepts (lit s r) l q = startsWith s (of_chars l) && accepts r (drop (String.length s) l) q.
Proof.
  revert l. induction s as [|a s IH]; intros l; [by destruct l|]. cbn [lit accepts]. destruct l as [|c l]; [done|].
  rewrite is_c_eq, IH. unfold startsWith. cbn. destruct (Ascii.ascii_dec a c) as [->|Hne].
  - by rewrite Ascii.eqb_refl.
  - by rewrite (proj2 (Ascii.eqb_neq a c) Hne).
Qed.

Lemma lit_simple s r : simple (lit s r) = simple r.
Proof. induction s; [done|]. cbn. done. Qed.

(** A class taken at most [n] times, before something that cannot start with it. *)
Lemma up_to_span p n l q : (forall c l', p c = true -> q (c :: l') = false) ->
  accepts (up_to n (RChar p)) l q = q (take_upto n p l).2.
Proof.
  intros Hq. revert l. induction n as [|n IH]; intros l; [by destruct l|]. cbn [up_to accepts take_upto].
  destruct l as [|c l]; [done|]. rewrite IH. destruct (p c) eqn:Hc; cbn.
  - rewrite Hq by done. destruct (take_upto n p l). cbn. by rewrite orb_false_r.
  - done.
Qed.

Lemma take_upto_ext p p' n l : (forall c, p c = p' c) -> take_upto n p l = take_upto n p' l.
Proof. intros H. revert l. induction n as [|n IH]; intros [|c l]; try done. cbn. by rewrite H, IH. Qed.

Lemma accepts_seq r1 r2 l q : accepts (RSeq r1 r2) l q = accepts r1 l (fun l' => accepts r2 l' q).
Proof. done. Qed.
Lemma accepts_end l : accepts (RSeq REol REps) l (fun _ => true) = match l with [] => true | _ => false end.
Proof. by destruct l. Qed.

(** [class+] and [class{1,n}] *)
Definition one_or_more (p : char_class) : regex := RSeq (RChar p) (RStar true (RChar p)).
Definition one_to (n : nat) (p : char_class) : regex := RSeq (times 1 (RChar p)) (up_to n (RChar p)).

Lemma plus_span p l q : (forall c l', p c = true -> q (c :: l') = false) ->
  accepts (one_or_more p) l q = match span p l with ([], _) => false | (_, rest) => q rest end.
Proof.
  intros Hq. unfold one_or_more. destruct l as [|c l]; [done|].
  change (p c && star_accepts (accepts (RChar p)) (length l) l q = match span p (c :: l) with ([], _) => false | (_, rest) => q rest end).
  rewrite star_span by done. cbn [span]. destruct (p c); [|done]. by destruct (span p l).
Qed.

Lemma bounded_span p n l q : (forall c l', p c = true -> q (c :: l') = false) ->
  accepts (one_to n p) l q = match take_upto (S n) p l with ([], _) => false | (_, rest) => q rest end.
Proof.
  intros Hq. unfold one_to. rewrite accepts_seq, times_char. rewrite up_to_span by done. destruct l as [|c l]; [done|]. cbn.
  destruct (p c); [|done]. rewrite take_0, drop_0. by destruct (take_upto n p l).
Qed.

(** Text that does not start with a character of the class. *)
Lemma lit_stops p a s r q : p a = false -> forall c l', p c = true -> accepts (lit (String a s) r) (c :: l') q = false.
Proof.
  intros Ha c l' Hc. rewrite lit_accepts. unfold startsWith. cbn. destruct (Ascii.ascii_dec a c) as [->|]; [congruence|done].
Qed.
Lemma end_stops (p : char_class) : forall c l', p c = true -> accepts (RSeq REol REps) (c :: l') (fun _ => true) = false.
Proof. done. Qed.

Lemma slice_chars n s : chars (slice n s) = drop n (chars s).
Proof. revert s. induction n as [|n IH]; intros [|c s]; try done. cbn. apply IH. Qed.

(** ** Proof Schema paths *)
Definition SCHEMA_PATH : regex := rx "^\/spec\/proof\/[a-z0-9-]+\/v\d+$".

Lemma schema_path_pattern s : test SCHEMA_PATH s = schema_path_matches s.
Proof.
  assert (Hrx : exists p d, (forall c, p c = is_slug_char c) /\ (forall c, d c = is_digit c) /\
    SCHEMA_PATH = RSeq RBol (lit "/spec/proof/" (RSeq (one_or_more p) (lit "/v" (RSeq (one_or_more d) (RSeq REol REps)))))).
  { do 2 eexists. split_and!; [| |reflexivity]; by_chars. }
  destruct Hrx as (p & d & Hp & Hd & ->). rewrite test_anchored by reflexivity. rewrite lit_accepts, of_chars_chars.
  unfold schema_path_matches. f_equal. rewrite accepts_seq, slice_chars, plus_span by (apply lit_stops; by rewrite Hp).
  rewrite (span_ext p is_slug_char) by done. destruct (span is_slug_char _) as [[|c word] rest]; [done|].
  rewrite lit_accepts, accepts_seq, slice_chars, chars_of_chars, plus_span by (intros c'; by apply end_stops).
  rewrite (span_ext d is_digit) by done. done.
Qed.

(** ** Dotted quads *)
Definition LOOPBACK_QUAD : regex := rx "^127\.\d{1,3}\.\d{1,3}\.\d{1,3}$".
Definition MAPPED_QUAD : regex := rx "^::ffff:(\d{1,3}\.\d{1,3}\.\d{1,3}\.\d{1,3})$".

Lemma code_eqb a c : Nat.eqb (code c) (code a) = Ascii.eqb a c.
Proof. rewrite <- is_c_eq. unfold fold_case, is_c. by rewrite orb_false_r. Qed.

Lemma one_to_field k d a r l q : (forall c, d c = is_digit c) -> is_digit a = false ->
  accepts (RSeq (one_to k d) (lit (String a "") r)) l q =
  match field (S k) is_digit (code a) l with Some (_, rest) => accepts r rest q | None => false end.
Proof.
  intros Hd Ha. rewrite accepts_seq, bounded_span by (apply lit_stops; by rewrite Hd). rewrite (take_upto_ext d is_digit) by done.
  unfold field. destruct (take_upto (S k) is_digit l) as [[|c0 w] rest]; [done|]. rewrite lit_accepts. unfold startsWith.
  destruct rest as [|c rest]; [done|]. rewrite code_eqb. cbn. destruct (Ascii.ascii_dec a c) as [->|Hne].
  - rewrite Ascii.eqb_refl, drop_0. by destruct rest.
  - by rewrite (proj2 (Ascii.eqb_neq a c) Hne).
Qed.

Lemma quad_accepts d l : (forall c, d c = is_digit c) ->
  accepts (RSeq (one_to 2 d) (lit "." (RSeq (one_to 2 d) (lit "." (RSeq (one_to 2 d) (lit "."
    (RSeq (one_to 2 d) (RSeq REol REps)))))))) l (fun _ => true) = is_dotted_quad l.
Proof.
  intros Hd. unfold is_dotted_quad. do 3 (rewrite one_to_field by done; destruct (field 3 is_digit _ _) as [[? ?]|]; [|done]).
  rewrite accepts_seq, bounded_span by (intros c'; by apply end_stops). rewrite (take_upto_ext d is_digit) by done.
  unfold last_field. by destruct (take_upto 3 is_digit _) as [[|? ?] [|? ?]].
Qed.

(** The first field of a quad that starts with [127.] is [127]. *)
Lemma field_127 l : startsWith "127." (of_chars l) = true -> field 3 is_digit 46 l = Some (take 3 l, drop 4 l).
Proof.
  intros H. assert (Hl : exists rest, l = chars "127." ++ rest).
  { exists (drop 4 l). revert H. unfold startsWith. do 4 (destruct l as [|? l]; [done|cbn [of_chars String.string_of_list_ascii String.prefix];
      destruct (Ascii.ascii_dec _ _) as [<-|]; [|done]]). done. }
  destruct Hl as [rest ->]. reflexivity.
Qed.

Lemma loopback_quad_pattern s : test LOOPBACK_QUAD s = is_127_quad (chars s).
Proof.
  assert (Hrx : exists d, (forall c, d c = is_digit c) /\ LOOPBACK_QUAD = RSeq RBol (lit "127." (RSeq (one_to 2 d) (lit "."
    (RSeq (one_to 2 d) (lit "." (RSeq (one_to 2 d) (RSeq REol REps)))))))).
  { eexists. split; [|reflexivity]. by_chars. }
  destruct Hrx as (d & Hd & ->). rewrite test_anchored, lit_accepts by reflexivity. unfold is_127_quad.
  destruct (startsWith "127." _) eqn:E; [|done]. cbn [andb]. unfold is_dotted_quad. rewrite field_127 by done.
  change (String.length "127.") with 4%nat. do 2 (rewrite one_to_field by done; destruct (field 3 is_digit _ _) as [[? ?]|]; [|done]).
  rewrite accepts_seq, bounded_span by (intros c'; by apply end_stops). rewrite (take_upto_ext d is_digit) by done.
  unfold last_field. by destruct (take_upto 3 is_digit _) as [[|? ?] [|? ?]].
Qed.

Lemma mapped_quad_pattern s : test MAPPED_QUAD s = match after "::ffff:" s with Some rest => is_dotted_quad rest | None => false end.
Proof.
  assert (Hrx : exists d, (forall c, d c = is_digit c) /\ MAPPED_QUAD = RSeq RBol (lit "::ffff:" (RSeq (RGroup 1 (RSeq (one_to 2 d) (lit "."
    (RSeq (one_to 2 d) (lit "." (RSeq (one_to 2 d) (lit "." (RSeq (one_to 2 d) REps)))))))) (RSeq REol REps)))).
  { eexists. split; [|reflexivity]. by_chars. }
  destruct Hrx as (d & Hd & ->). rewrite test_anchored, lit_accepts, of_chars_chars by reflexivity. unfold after.
  destruct (startsWith "::ffff:" s); [|done]. rewrite slice_chars. exact (quad_accepts d _ Hd).
Qed.

(** ** Private ranges *)
Definition PRIVATE_IPV4_SOURCES : list string :=
  ["^127\."; "^10\."; "^172\.(1[6-9]|2\d|3[01])\."; "^192\.168\."; "^169\.254\."; "^0\."].

Lemma prefix_pattern p r s : (forall l, accepts r l (fun _ => true) = true) -> simple r = true ->
  test (RSeq RBol (lit p r)) s = startsWith p s.
Proof. intros Hr Hs. rewrite test_anchored by (by rewrite lit_simple). by rewrite lit_accepts, of_chars_chars, Hr, andb_true_r. Qed.

Lemma matches_172_pattern s : test (rx "^172\.(1[6-9]|2\d|3[01])\.") s = matches_172 s.
Proof.
  assert (Hrx : exists p1 p2 p3 a1 a2 a3 dot, (forall c, p1 c = Nat.leb 54 (code c) && Nat.leb (code c) 57) /\ (forall c, p2 c = is_digit c) /\
    (forall c, p3 c = Nat.eqb (code c) 48 || Nat.eqb (code c) 49) /\ (forall c, a1 c = Nat.eqb (code c) 49) /\ (forall c, a2 c = Nat.eqb (code c) 50) /\
    (forall c, a3 c = Nat.eqb (code c) 51) /\ (forall c, dot c = Nat.eqb (code c) 46) /\
    rx "^172\.(1[6-9]|2\d|3[01])\." = RSeq RBol (lit "172." (RSeq (RGroup 1 (RAlt (RSeq (RChar a1) (RSeq (RChar p1) REps))
      (RAlt (RSeq (RChar a2) (RSeq (RChar p2) REps)) (RSeq (RChar a3) (RSeq (RChar p3) REps))))) (RSeq (RChar dot) REps)))).
  { do 7 eexists. split_and!; [| | | | | | |reflexivity]; by_chars. }
  destruct Hrx as (p1 & p2 & p3 & a1 & a2 & a3 & dot & H1 & H2 & H3 & Ha1 & Ha2 & Ha3 & Hd & ->).
  rewrite test_anchored, lit_accepts, of_chars_chars by reflexivity. unfold matches_172, after.
  destruct (startsWith "172." s); [|done]. rewrite slice_chars. cbn [andb]. destruct (drop _ (chars s)) as [|a [|b [|c l]]]; cbn;
    rewrite ?H1, ?H2, ?H3, ?Ha1, ?Ha2, ?Ha3, ?Hd; repeat (rewrite ?andb_false_r; cbn); try done.
  destruct (Nat.eqb (code c) 46); rewrite ?andb_true_r, ?andb_false_r; cbn; by rewrite ?orb_assoc.
Qed.

Lemma private_patterns s : existsb (fun pattern => test (rx pattern) s) PRIVATE_IPV4_SOURCES = matches_private s.
Proof.
  unfold matches_private, PRIVATE_IPV4_PATTERNS, PRIVATE_IPV4_SOURCES. cbn [existsb]. rewrite matches_172_pattern.
  change (rx "^127\.") with (RSeq RBol (lit "127." REps)). change (rx "^10\.") with (RSeq RBol (lit "10." REps)).
  change (rx "^192\.168\.") with (RSeq RBol (lit "192.168." REps)). change (rx "^169\.254\.") with (RSeq RBol (lit "169.254." REps)).
  change (rx "^0\.") with (RSeq RBol (lit "0." REps)). by rewrite !prefix_pattern.
Qed.

(** C33: the hand-written recognizers the development uses for the patterns of the
    source are those patterns: for every text, searching the literal pattern, read
    from its text and matched by backtracking, answers as the recognizer does, for
    keys and hashes, for the path of a Proof Schema URL, for the loopback and mapped
    dotted quads and for the private address ranges. *)
Theorem recognizers_are_patterns s :
  test (rx "^[0-9a-fA-F]{64}$") s = is_hex64 s /\
  test (rx "^\/spec\/proof\/[a-z0-9-]+\/v\d+$") s = schema_path_matches s /\
  test (rx "^127\.\d{1,3}\.\d{1,3}\.\d{1,3}$") s = is_127_quad (chars s) /\
  test (rx "^::ffff:(\d{1,3}\.\d{1,3}\.\d{1,3}\.\d{1,3})$") s = match after "::ffff:" s with Some rest => is_dotted_quad rest | None => false end /\
  existsb (fun pattern => test (rx pattern) s) PRIVATE_IPV4_SOURCES = matches_private s.
Proof.
  split_and!; [apply hex64_pattern|apply schema_path_pattern|apply loopback_quad_pattern|apply mapped_quad_pattern|apply private_patterns].
Qed.
