(* ===== verification/LintScan.v ===== *)
(** * Line lints

    The repository's line scanners: [scripts/lint-deprecation.ts],
    [scripts/check-no-local-paths.ts], [scripts/lint-no-history-comments.ts],
    [scripts/lint-no-dynamic-import.ts], [scripts/lint-no-test-sanitizer-bypass.ts]
    and [scripts/lint-no-unit-network-listener.ts].  They share their skeleton
    (list the tracked files, read each, split it into lines, report what a line
    matches), written once here and instantiated per script; the patterns are the
    literals of the source, read by [Regex].

    [git], the file system and [jsr:@std/path] are the host's, through [LintHost]. *)

From S2P Require Import Prelude JsNum JsMap JsString C2pa Proofmode Regex.

Definition LF : string := String.String (Ascii.ascii_of_nat 10) "".

(** ** Host *)
Record GitOutput := mkGitOutput { git_code : Z; git_stdout : list Z; git_stderr : list Z }.

Class LintHost := {
  ROOT : string;
  (** [relative(from, to)] of jsr:@std/path *)
  relative : string -> string -> string;
  (** [Deno.readTextFile]: [None] when it rejects. *)
  readTextFile : string -> option string;
  (** [new Deno.Command("git", { args, cwd }).output()] *)
  run_git : list string -> string -> GitOutput;
}.

Inductive console_line := OutLine (s : string) | ErrLine (s : string).
Inductive script_end := ScriptExit (code : Z) | ScriptThrow (e : exn).

(** ** The skeleton *)
Record Hit (A : Type) := mkHit { hit_file : string; hit_line : nat; hit_text : string; hit_what : A }.
Arguments mkHit {A} _ _ _ _.
Arguments hit_file {A} _. Arguments hit_line {A} _. Arguments hit_text {A} _. Arguments hit_what {A} _.

(** [for (let i = 0; i < lines.length; i++)]: [look] is the body, [None] a
    [continue]. *)
Fixpoint scan_from {A} (look : nat -> string -> option A) (file : string) (i : nat) (lines : list string) : list (Hit A) :=
  match lines with
  | [] => []
  | line :: rest =>
      match look i line with
      | Some a => mkHit file (S i) (trim line) a :: scan_from look file (S i) rest
      | None => scan_from look file (S i) rest
      end
  end.

(** [for (const p of PATTERNS)]: the first pattern that matches, with its match. *)
Fixpoint first_pattern (patterns : list (string * regex)) (line : string) : option (string * string) :=
  match patterns with
  | [] => None
  | (name, re) :: rest =>
      match exec re line with
      | Some m => Some (capture 0 m, name)
      | None => first_pattern rest line
      end
  end.

Section skeleton.
Context {A : Type} `{H : LintHost}.
Context (scanText : string -> string -> list (Hit A)) (SELF_EXEMPT : list string).

Definition lint_scanFile (path : string) : list (Hit A) :=
  match readTextFile path with
  | None => []
  | Some text =>
      let rel := opt_default path (truthy (Some (relative ROOT path))) in
      if existsb (String.eqb rel) SELF_EXEMPT then [] else scanText text rel
  end.

Definition tracked (keep : string -> bool) (stdout : list Z) : list string :=
  List.filter keep (List.filter str_truthy (js_split 0 (utf8_text stdout))).

Definition lint_scanRepo (args : list string) (keep : string -> bool) (root : string) : list console_line * res (list (Hit A)) :=
  let out := run_git args root in
  if negb (Z.eqb (git_code out) 0) then
    ([ErrLine (utf8_text (git_stderr out))], Throw (mkExn "Error" "git ls-files failed"))
  else ([], Ok (flat_map (fun name => lint_scanFile (root +:+ name)) (tracked keep (git_stdout out)))).
End skeleton.

(** [readStdin]: the chunks read until end of input are laid one after another in
    a fresh array. *)
Definition array_set (out : list Z) (off : nat) (c : list Z) : list Z := take off out ++ c ++ drop (off + length c) out.

Fixpoint lay_chunks (out : list Z) (off : nat) (chunks : list (list Z)) : list Z :=
  match chunks with [] => out | c :: rest => lay_chunks (array_set out off c) (off + length c) rest end.

Definition readStdin (chunks : list (list Z)) : string :=
  let total := fold_left (fun a c => (a + length c)%nat) chunks 0%nat in
  utf8_text (lay_chunks (repeat 0%Z total) 0 chunks).

(** What [report] prints: one line when clean, else a heading, the hits and the
    advice. *)
Definition lint_report {A} (clean heading : string) (describe : Hit A -> string) (advice : string) (hits : list (Hit A)) : list console_line :=
  match hits with
  | [] => [OutLine clean]
  | _ =>
      [ErrLine (heading +:+ pretty (Z.of_nat (length hits)) +:+ " hit(s)" +:+ LF)] ++
      flat_map (fun h => [ErrLine ("  " +:+ describe h); ErrLine ("      " +:+ hit_text h)]) hits ++ [ErrLine advice]
  end.

Definition at_line {A} (h : Hit A) : string := hit_file h +:+ ":" +:+ pretty (Z.of_nat (hit_line h)).

(** [s.replace(re, f)] without the [g] flag *)
Definition replaceFirst (r : regex) (f : found -> string) (s : string) : string :=
  of_chars (splice f (chars s) 0 (match exec r s with Some m => [m] | None => [] end)).

(** The script body: [--stdin], files, or the repository. *)
Definition lint_main {A} `{LintHost} (scanText : string -> string -> list (Hit A)) (scanFile : string -> list (Hit A))
    (scanRepo : list console_line * res (list (Hit A))) (report : list (Hit A) -> list console_line)
    (args : list string) (stdin : list (list Z)) : list console_line * script_end :=
  let finish hits := (report hits, ScriptExit (if Nat.eqb (length hits) 0 then 0 else 1)) in
  if existsb (String.eqb "--stdin") args then finish (scanText (readStdin stdin) "<stdin>")
  else match args with
  | _ :: _ => finish (flat_map scanFile args)
  | [] => match scanRepo with (out, Ok hits) => finish hits | (out, Throw e) => (out, ScriptThrow e) end
  end.

Definition LS_FILES : list string := ["ls-files"; "-z"].
Definition LS_FILES_ALL : list string := ["ls-files"; "-co"; "--exclude-standard"; "-z"].
Definition TS_TSX_RS : regex := rx "\.(ts|tsx|rs)$".
Definition TS_TSX : regex := rx "\.(ts|tsx)$".

(** ** [lint-deprecation.ts] *)
Definition deprecation_PATTERNS : list (string * regex) :=
  [("@deprecated tag", rx "@deprecated\b"); ("'deprecated' word", rxi "\bdeprecated\b"); ("'legacy' word", rxi "\blegacy\b");
   ("'backward(s) compat' phrase", rxi "\bbackwards?[\s_-]?compat")].
Definition deprecation_OPT_OUT : regex := rx "allow-deprecation-vocab:".
Definition deprecation_SELF_EXEMPT : list string := ["scripts/lint-deprecation.ts"; "scripts/lint-deprecation.test.ts"].

(** The match and the pattern's name. *)
Definition deprecation_look (_ : nat) (line : string) : option (string * string) :=
  if test deprecation_OPT_OUT line then None else first_pattern deprecation_PATTERNS line.
Definition deprecation_scanText (text file : string) : list (Hit (string * string)) :=
  scan_from deprecation_look file 0 (js_split 10 text).

Definition named_hit (h : Hit (string * string)) : string := at_line h +:+ "  [" +:+ (hit_what h).2 +:+ "]  " +:+ (hit_what h).1.
Definition deprecation_report : list (Hit (string * string)) -> list console_line :=
  lint_report "✓ no deprecation vocabulary detected" "✗ deprecation vocabulary: " named_hit
    (LF +:+ "Policy: pre-1.0 has no users — delete the path instead of marking it." +:+ LF +:+
     "If a regression is the worry, add a test that locks the new behaviour." +:+ LF +:+
     "If you genuinely need the word (e.g. post-1.0 SemVer notice), append" +:+ LF +:+
     dquote +:+ "allow-deprecation-vocab: <reason>" +:+ dquote +:+ " on the same line.").

(** ** [check-no-local-paths.ts] *)
Definition paths_PATTERNS : list (string * regex) :=
  [("macOS user home", rx "\/Users\/[a-zA-Z0-9._-]+\/"); ("Linux user home", rx "\/home\/[a-zA-Z0-9._-]+\/");
   ("macOS TMPDIR", rx "\/private\/var\/folders\/");
   ("tilde home path", rx ("(?:^|[\s" +:+ dquote +:+ "'`(=])~\/[.\w][\w.-]*"));
   ("$HOME path", rx "\$HOME\/[\w.-]+")].
Definition paths_TEXT_EXTS : regex := rx "\.(ts|tsx|js|jsx|json|md|rs|sh|yml|yaml|toml|html|css)$".
Definition paths_OPT_OUT : regex := rx "allow-local-path:".
Definition paths_SELF_EXEMPT : list string := ["scripts/check-no-local-paths.ts"; "scripts/check-no-local-paths.test.ts"].

Definition paths_look (_ : nat) (line : string) : option string :=
  if test paths_OPT_OUT line then None else (fun '(m, _) => trim m) <$> first_pattern paths_PATTERNS line.
Definition paths_scanText (text file : string) : list (Hit string) := scan_from paths_look file 0 (js_split 10 text).

Definition paths_report : list (Hit string) -> list console_line :=
  lint_report "✓ no local paths detected" "✗ local path leak: " (fun h => at_line h +:+ "  " +:+ hit_what h)
    (LF +:+ "Fix: remove the path, or if it's legitimate content, append " +:+
     dquote +:+ "allow-local-path: <reason>" +:+ dquote +:+ " on the same line.").

(** ** [lint-no-history-comments.ts] *)
Definition history_PATTERNS : list (string * regex) :=
  [("'originally'", rxi "\boriginally\b"); ("'formerly'", rxi "\bformerly\b"); ("'previously'", rxi "\bpreviously\b");
   ("'historically'", rxi "\bhistorically\b"); ("'back when'", rxi "\bback when\b");
   ("'used to <past-verb>'",
    rxi "\bused to (be|was|were|use|used|live|reside|hold|return|returned|work|worked|exist|existed|sit|sat|do|did|have|had|fire|fired|throw|threw|wrap|wrapped|delegate|delegated|invoke|invoked|emit|emitted|store|stored|read|wrote|own|owned|contain|contained|include|included)\b");
   ("'before the/this/... <refactor-verb>'",
    rxi "\bbefore (the|this|my|a|an|our|previous|prior) (refactor|rewrite|migration|rename|extraction|cleanup|introduction|split|switch|removal|move)\b");
   ("'in the (prior|previous|earlier|original) ...'",
    rxi "\bin (the )?(prior|previous|earlier|original) (version|implementation|commit|pr|design|code|iteration|approach|build|state|impl|refactor)\b");
   ("'the (original|prior|previous|earlier) [<word>] <impl-noun>'",
    rxi "\bthe (original|prior|previous|earlier)( [\w:.@/-]+)? (version|implementation|design|code|approach|impl|test|file|module|name|api|behaviou?r|signature|commit|pr|iteration|build|refactor)\b");
   ("'removed in favour of'", rxi "\bremoved in favou?r of\b")].
Definition history_SELF_EXEMPT : list string := ["scripts/lint-no-history-comments.ts"; "scripts/lint-no-history-comments.test.ts"].
Definition history_OPT_OUT : regex := rx "allow-history:\s*\S".

(** [s[i] === ch && s[i - 1] !== "\\"]; [prev] is [s[i - 1]]. *)
Fixpoint count_unescaped (prev : option Ascii.ascii) (s : list Ascii.ascii) (ch : Ascii.ascii) : nat :=
  match s with
  | [] => 0
  | c :: rest =>
      (if Ascii.eqb c ch && negb (match prev with Some b => is_c 92 b | None => false end) then 1 else 0) + count_unescaped (Some c) rest ch
  end.
Definition countUnescaped (s : string) (ch : Ascii.ascii) : nat := count_unescaped None (chars s) ch.

(** [line.indexOf("//")] *)
Fixpoint index_of (sub : string) (l : list Ascii.ascii) : option nat :=
  if startsWith sub (of_chars l) then Some 0
  else match l with [] => None | _ :: rest => S <$> index_of sub rest end.

Definition commentBody (line : string) : option string :=
  let trimmed := trim line in
  if startsWith "//" trimmed then Some (slice 2 trimmed)
  else if startsWith "/*" trimmed then Some (replaceFirst (rx "\*\/\s*$") (fun _ => "") (slice 2 trimmed))
  else if startsWith "*" trimmed then Some (slice 1 trimmed)
  else
  match index_of "//" (chars line) with
  | None => None
  | Some idx =>
      let before := slice0 idx line in
      let odd ch := Nat.odd (countUnescaped before (Ascii.ascii_of_nat ch)) in
      if odd 34 || odd 39 || odd 96 then None else Some (slice (idx + 2) line)
  end.

Definition history_look (_ : nat) (line : string) : option (string * string) :=
  if test history_OPT_OUT line then None
  else match commentBody line with None => None | Some body => first_pattern history_PATTERNS body end.
Definition history_scanText (text file : string) : list (Hit (string * string)) := scan_from history_look file 0 (js_split 10 text).

Definition history_report : list (Hit (string * string)) -> list console_line :=
  lint_report "✓ no history-narrative comments detected" "✗ history comments: " named_hit
    (LF +:+ "Policy: comments that narrate what the code USED to do rot the" +:+ LF +:+
     "moment the next refactor lands. Delete the comment; if the why" +:+ LF +:+
     "behind the change matters, put it in the commit message and the" +:+ LF +:+
     "PR description (those don't live in the source). For the rare" +:+ LF +:+
     "genuinely load-bearing case, append " +:+ dquote +:+ "allow-history: <reason>" +:+ dquote +:+ LF +:+ "on the same line.").

(** ** [lint-no-dynamic-import.ts] *)
Definition DYNAMIC_IMPORT : regex := rx ("(?<![.\w])import\s*\(\s*([" +:+ dquote +:+ "'`])([^" +:+ dquote +:+ "'`]+)\1").
Definition NODE_MODULE : regex := rx "^node:".
Definition dynamic_OPT_OUT : regex := rx "allow-dynamic-import:".
Definition dynamic_SELF_EXEMPT : list string := ["scripts/lint-no-dynamic-import.ts"; "scripts/lint-no-dynamic-import.test.ts"].
Definition MAIN_GUARD : regex := rx "\bif\s*\(\s*import\.meta\.main\s*\)".

(** The brace count of the guard's own line. *)
Definition brace (c : Ascii.ascii) : Z := if is_c 123 c then 1%Z else if is_c 125 c then (-1)%Z else 0%Z.
Definition open_braces (line : string) : Z := fold_left (fun d c => (d + brace c)%Z) (chars line) 0%Z.

(** The characters of a line inside the block, until the block closes: the depth,
    and whether the block is still open. *)
Fixpoint block_line (depth : Z) (l : list Ascii.ascii) : Z * bool :=
  match l with
  | [] => (depth, true)
  | c :: rest =>
      if is_c 123 c then block_line (depth + 1)%Z rest
      else if is_c 125 c then
        let depth' := (depth - 1)%Z in
        if Z.leb depth' 0 then (depth', false) else block_line depth' rest
      else block_line depth rest
  end.

Fixpoint main_mask (depth : Z) (active : bool) (lines : list string) : list bool :=
  match lines with
  | [] => []
  | line :: rest =>
      if negb active && test MAIN_GUARD line then
        let depth' := open_braces line in
        true :: main_mask depth' (negb (Z.leb depth' 0)) rest
      else if active then
        let '(depth', active') := block_line depth (chars line) in true :: main_mask depth' active' rest
      else false :: main_mask depth active rest
  end.
Definition computeMainBlockMask (lines : list string) : list bool := main_mask 0 false lines.

Definition dynamic_look (mask : list bool) (i : nat) (line : string) : option unit :=
  match exec DYNAMIC_IMPORT line with
  | None => None
  | Some m =>
      if test dynamic_OPT_OUT line then None
      else if opt_default false (mask !! i) then None
      else if test NODE_MODULE (capture 2 m) then None
      else Some tt
  end.
Definition dynamic_scanText (text file : string) : list (Hit unit) :=
  let lines := js_split 10 text in
  scan_from (dynamic_look (computeMainBlockMask lines)) file 0 lines.

Definition dynamic_report : list (Hit unit) -> list console_line :=
  lint_report "✓ no banned dynamic or inline imports detected" "✗ dynamic / inline import: " at_line
    (LF +:+ "Policy: prefer static `import` declarations. `import(...)` call" +:+ LF +:+
     "expressions — `await import(...)`, `import(...).then(...)`, and" +:+ LF +:+
     "type-position `Promise<import(" +:+ dquote +:+ "./foo.ts" +:+ dquote +:+ ").Bar>` — defeat static" +:+ LF +:+
     "analysis and break bundler tree-shaking. Convert the call to a" +:+ LF +:+
     "top-of-file `import` (or `import type` for type-only references)" +:+ LF +:+
     "— or, if a genuine platform conditional / script-mode entry /" +:+ LF +:+
     "lazy-load is required, append " +:+ dquote +:+ "allow-dynamic-import: <reason>" +:+ dquote +:+ LF +:+
     "on the same line. Auto-exempt patterns: `node:*` targets and" +:+ LF +:+
     "lines inside `if (import.meta.main) { ... }` blocks.").

(** ** [lint-no-test-sanitizer-bypass.ts] *)
Definition SANITIZER_BYPASS : regex := rx "\b(sanitizeOps|sanitizeResources|sanitizeExit)\s*:\s*false\b".
Definition sanitizer_SELF_EXEMPT : list string :=
  ["scripts/lint-no-test-sanitizer-bypass.ts"; "scripts/lint-no-test-sanitizer-bypass.test.ts"].
Definition sanitizer_look (_ : nat) (line : string) : option string := capture 1 <$> exec SANITIZER_BYPASS line.
Definition sanitizer_scanText (text file : string) : list (Hit string) := scan_from sanitizer_look file 0 (js_split 10 text).
Definition sanitizer_report : list (Hit string) -> list console_line :=
  lint_report "no disabled Deno test sanitizers detected" "disabled Deno test sanitizer: " at_line
    (LF +:+ "Keep Deno test sanitizers enabled. Fix open resources, pending ops, " +:+
     "or process exits in the test instead of setting a sanitizer option to false.").

(** ** [lint-no-unit-network-listener.ts] *)
Definition LISTENER_RE : regex := rx "\bDeno\.(serve|listen)\s*\(".
Definition listener_SELF_EXEMPT : list string :=
  ["scripts/lint-no-unit-network-listener.ts"; "scripts/lint-no-unit-network-listener.test.ts"].
Definition isUnitTestPath (path : string) : bool :=
  startsWith "packages/" path && endsWith ".test.ts" path && negb (endsWith ".integration.test.ts" path).
Definition listener_look (_ : nat) (line : string) : option string :=
  (fun m => "Deno." +:+ capture 1 m) <$> exec LISTENER_RE line.
Definition listener_scanText (text file : string) : list (Hit string) := scan_from listener_look file 0 (js_split 10 text).
Definition listener_report : list (Hit string) -> list console_line :=
  lint_report "no Deno network listeners detected in unit tests" "Deno network listener in unit test: " at_line
    (LF +:+ "Unit tests must not bind TCP listeners. Use in-process request helpers, dependency injection, " +:+
     "or move coverage of protocol messages to *.integration.test.ts.").

(** ** The scripts *)
Section scripts.
Context `{H : LintHost}.

Definition deprecation_scanFile := lint_scanFile deprecation_scanText deprecation_SELF_EXEMPT.
Definition deprecation_scanRepo := lint_scanRepo deprecation_scanText deprecation_SELF_EXEMPT LS_FILES (test TS_TSX_RS) ROOT.
Definition deprecation_main := lint_main deprecation_scanText deprecation_scanFile deprecation_scanRepo deprecation_report.

Definition paths_scanFile := lint_scanFile paths_scanText paths_SELF_EXEMPT.
Definition paths_scanRepo := lint_scanRepo paths_scanText paths_SELF_EXEMPT LS_FILES (test paths_TEXT_EXTS) ROOT.
Definition paths_main := lint_main paths_scanText paths_scanFile paths_scanRepo paths_report.

Definition history_scanFile := lint_scanFile history_scanText history_SELF_EXEMPT.
Definition history_scanRepo := lint_scanRepo history_scanText history_SELF_EXEMPT LS_FILES (test TS_TSX_RS) ROOT.
Definition history_main := lint_main history_scanText history_scanFile history_scanRepo history_report.

Definition dynamic_scanFile := lint_scanFile dynamic_scanText dynamic_SELF_EXEMPT.
Definition dynamic_scanRepo := lint_scanRepo dynamic_scanText dynamic_SELF_EXEMPT LS_FILES (test TS_TSX) ROOT.
Definition dynamic_main := lint_main dynamic_scanText dynamic_scanFile dynamic_scanRepo dynamic_report.

(** Two scripts scan the repository only, untracked files included. *)
Definition repo_main {A} (scanRepo : list console_line * res (list (Hit A))) (report : list (Hit A) -> list console_line)
    : list console_line * script_end :=
  match scanRepo with
  | (out, Throw e) => (out, ScriptThrow e)
  | (out, Ok hits) => (report hits, ScriptExit (if Nat.ltb 0 (length hits) then 1 else 0))
  end.

Definition sanitizer_scanFile := lint_scanFile sanitizer_scanText sanitizer_SELF_EXEMPT.
Definition sanitizer_scanRepo := lint_scanRepo sanitizer_scanText sanitizer_SELF_EXEMPT LS_FILES_ALL (test TS_TSX).
Definition sanitizer_main := repo_main (sanitizer_scanRepo ROOT) sanitizer_report.

Definition listener_scanFile := lint_scanFile listener_scanText listener_SELF_EXEMPT.
Definition listener_scanRepo := lint_scanRepo listener_scanText listener_SELF_EXEMPT LS_FILES_ALL isUnitTestPath.
Definition listener_main := repo_main (listener_scanRepo ROOT) listener_report.
End scripts.

(** ** What the line lints decide

    The exit code of each line lint, in terms of the lines of the scanned files and
    the meaning of its patterns ([Match], without the search order). *)

(** The pattern matches somewhere in the text. *)
Definition matches (r : regex) (s : string) : Prop := exists j st, (j <= length (chars s))%nat /\ Match r (at_pos j (chars s)) st.

Lemma exec_matches r s : (exists m, exec r s = Some m) <-> matches r s.
Proof.
  unfold exec. pose proof (exec_from_spec r (chars s) 0 ltac:(lia)) as H. change (rev (take 0 (chars s))) with (@nil Ascii.ascii) in H.
  rewrite drop_0 in H. destruct (exec_from r [] (chars s)) as [m|].
  - split; [|by eauto]. intros _. destruct H as (H1 & H2 & _). exists (fd_index m), (fd_end m). split; [lia|done].
  - split; [by intros [? ?]|]. intros (j & st & Hj & Hm). exfalso. apply (H j st); [lia|done].
Qed.

Lemma test_matches r s : test r s = true <-> matches r s.
Proof. rewrite <- exec_matches. unfold test. destruct (exec r s); naive_solver. Qed.

Lemma test_no_match r s : test r s = false <-> ~ matches r s.
Proof. rewrite <- test_matches. by destruct (test r s). Qed.

Lemma first_pattern_None patterns line : first_pattern patterns line = None <-> Forall (fun p => ~ matches p.2 line) patterns.
Proof.
  induction patterns as [|[name re] rest IH]; cbn; [by split; [constructor|]|]. rewrite Forall_cons. cbn. rewrite <- IH, <- exec_matches.
  destruct (exec re line) as [m|]; split; [done| |naive_solver|naive_solver]. intros [H _]. exfalso. eauto.
Qed.

(** ** Scanning *)
Lemma scan_from_spec {A} (look : nat -> string -> option A) file i lines h :
  h ∈ scan_from look file i lines <->
  exists k line a, lines !! k = Some line /\ look (i + k)%nat line = Some a /\ h = mkHit file (S (i + k)) (trim line) a.
Proof.
  revert i. induction lines as [|line lines IH]; intros i; cbn.
  - rewrite elem_of_nil. split; [done|]. by intros (k & ? & ? & ? & _).
  - assert (Hrest : h ∈ scan_from look file (S i) lines <->
      exists k l a, (line :: lines) !! S k = Some l /\ look (i + S k)%nat l = Some a /\ h = mkHit file (S (i + S k)) (trim l) a).
    { rewrite IH. setoid_rewrite Nat.add_succ_r. done. }
    destruct (look i line) as [a|] eqn:E; [rewrite elem_of_cons|]; rewrite Hrest; split.
    + intros [->|(k & l & b & H)]; [exists 0%nat, line, a; by rewrite Nat.add_0_r|by exists (S k), l, b].
    + intros ([|k] & l & b & Hl & Hb & ->); [left|right; eauto 10]. cbn in Hl. injection Hl as ->. rewrite Nat.add_0_r in *. congruence.
    + intros (k & l & b & H). by exists (S k), l, b.
    + intros ([|k] & l & b & Hl & Hb & ->); [|eauto 10]. cbn in Hl. injection Hl as ->. rewrite Nat.add_0_r in Hb. congruence.
Qed.

Lemma scan_from_nil {A} (look : nat -> string -> option A) file lines :
  scan_from look file 0 lines = [] <-> forall i line, lines !! i = Some line -> look i line = None.
Proof.
  split.
  - intros H i line Hl. destruct (look i line) as [a|] eqn:E; [|done]. exfalso.
    apply (not_elem_of_nil (mkHit file (S i) (trim line) a)). rewrite <- H. apply scan_from_spec. eauto 10.
  - intros H. destruct (scan_from look file 0 lines) as [|h l] eqn:E; [done|]. exfalso.
    assert (Hh : h ∈ scan_from look file 0 lines) by (rewrite E; left). apply scan_from_spec in Hh as (k & line & a & Hl & Ha & _).
    cbn in Ha. rewrite (H _ _ Hl) in Ha. done.
Qed.

Lemma flat_map_nil {A B} (f : A -> list B) l : flat_map f l = [] <-> forall x, x ∈ l -> f x = [].
Proof.
  induction l as [|x l IH]; cbn; [split; [by intros _ ? ?%not_elem_of_nil|done]|]. rewrite app_nil, IH. split.
  - intros [Hx Hl] y Hy. apply elem_of_cons in Hy as [->|Hy]; auto.
  - intros H. split; [apply H; left|]. intros y Hy. apply H. by right.
Qed.

Section clean.
Context `{H : LintHost}.

(** The lines a script is asked to judge: those of the listed files it keeps, can
    read and does not exempt. *)
Definition repo_line (args : list string) (keep : string -> bool) (exempt : list string) (lines : list string) (i : nat) (line : string) : Prop :=
  exists name text, name ∈ tracked keep (git_stdout (run_git args ROOT)) /\ readTextFile (ROOT +:+ name) = Some text /\
    opt_default (ROOT +:+ name) (truthy (Some (relative ROOT (ROOT +:+ name)))) ∉ exempt /\ lines = js_split 10 text /\ lines !! i = Some line.

Definition exits_zero (r : list console_line * script_end) : Prop := r.2 = ScriptExit 0.

Lemma existsb_eqb x l : existsb (String.eqb x) l = true <-> x ∈ l.
Proof.
  rewrite existsb_exists, list_elem_of_In. split; [intros (y & Hy & ->%String.eqb_eq); done|]. intros Hx. exists x. by rewrite String.eqb_refl.
Qed.

Lemma scanRepo_clean {A} (look : list string -> nat -> string -> option A) exempt args keep :
  (exists hits, (lint_scanRepo (fun text file => scan_from (look (js_split 10 text)) file 0 (js_split 10 text)) exempt args keep ROOT).2 = Ok hits /\ hits = [])
  <-> git_code (run_git args ROOT) = 0%Z /\ forall lines i line, repo_line args keep exempt lines i line -> look lines i line = None.
Proof.
  unfold lint_scanRepo. destruct (Z.eqb_spec (git_code (run_git args ROOT)) 0) as [Hc|Hc]; cbn; [|naive_solver].
  assert (Hall : flat_map (fun name => lint_scanFile (fun text file => scan_from (look (js_split 10 text)) file 0 (js_split 10 text)) exempt (ROOT +:+ name))
    (tracked keep (git_stdout (run_git args ROOT))) = [] <-> forall lines i line, repo_line args keep exempt lines i line -> look lines i line = None).
  { rewrite flat_map_nil. unfold lint_scanFile, repo_line. split.
    - intros Hf lines i line (name & text & Hn & Hr & Hx & -> & Hl). specialize (Hf name Hn). rewrite Hr in Hf.
      destruct (existsb _ exempt) eqn:Ex in Hf; [by apply existsb_eqb in Ex|]. rewrite scan_from_nil in Hf. eauto.
    - intros Hl name Hn. destruct (readTextFile (ROOT +:+ name)) as [text|] eqn:Hr; [|done].
      destruct (existsb _ exempt) eqn:Ex; [done|]. apply scan_from_nil. intros i line Hi. apply (Hl (js_split 10 text)).
      exists name, text. split_and!; try done. intros Hin. apply existsb_eqb in Hin. congruence. }
  rewrite <- Hall. naive_solver.
Qed.

Lemma scanRepo_bad {A} (look : list string -> nat -> string -> option A) (bad : list string -> nat -> string -> Prop) exempt args keep :
  (forall lines i line, look lines i line = None <-> ~ bad lines i line) ->
  (exists hits, (lint_scanRepo (fun text file => scan_from (look (js_split 10 text)) file 0 (js_split 10 text)) exempt args keep ROOT).2 = Ok hits /\ hits = [])
  <-> git_code (run_git args ROOT) = 0%Z /\ forall lines i line, repo_line args keep exempt lines i line -> ~ bad lines i line.
Proof. intros Hbad. rewrite scanRepo_clean. by setoid_rewrite Hbad. Qed.

Lemma lint_main_zero {A} (scanText : string -> string -> list (Hit A)) scanFile scanRepo report stdin :
  exits_zero (lint_main scanText scanFile scanRepo report [] stdin) <-> exists hits, scanRepo.2 = Ok hits /\ hits = [].
Proof. unfold exits_zero, lint_main. destruct scanRepo as [out [[|h hits]|e]]; cbn; naive_solver. Qed.

Lemma repo_main_zero {A} (scanRepo : list console_line * res (list (Hit A))) report :
  exits_zero (repo_main scanRepo report) <-> exists hits, scanRepo.2 = Ok hits /\ hits = [].
Proof. unfold exits_zero, repo_main. destruct scanRepo as [out [[|h hits]|e]]; cbn; naive_solver. Qed.
End clean.

(** ** The six lints *)

(** A line without the opt-out marker on which a pattern matches. *)
Definition banned (opt_out : regex) (patterns : list (string * regex)) (line body : string) : Prop :=
  ~ matches opt_out line /\ Exists (fun p => matches p.2 body) patterns.

(** The leftmost dynamic import of a line is not of a [node:] module, and the line
    is neither marked nor in a main block.  The script's header bans every such call;
    its code looks at no other import of the line ([second_import_hidden]). *)
Definition banned_import (lines : list string) (i : nat) (line : string) : Prop :=
  exists m, exec DYNAMIC_IMPORT line = Some m /\ ~ matches dynamic_OPT_OUT line /\
    opt_default false (computeMainBlockMask lines !! i) = false /\ ~ matches NODE_MODULE (capture 2 m).

Lemma not_banned opt_out patterns line body :
  (if test opt_out line then None else first_pattern patterns body) = None <-> ~ banned opt_out patterns line body.
Proof.
  unfold banned. destruct (test opt_out line) eqn:E.
  - apply test_matches in E. naive_solver.
  - apply test_no_match in E. rewrite first_pattern_None, List.Forall_Exists_neg. tauto.
Qed.

Lemma not_banned_import lines i line : dynamic_look (computeMainBlockMask lines) i line = None <-> ~ banned_import lines i line.
Proof.
  unfold dynamic_look, banned_import. setoid_rewrite <- test_no_match. destruct (exec DYNAMIC_IMPORT line) as [m|]; [|naive_solver].
  destruct (test dynamic_OPT_OUT line), (opt_default false _), (test NODE_MODULE (capture 2 m)) eqn:E; naive_solver congruence.
Qed.

Lemma not_banned_path i line : paths_look i line = None <-> ~ banned paths_OPT_OUT paths_PATTERNS line line.
Proof. rewrite <- not_banned. unfold paths_look. destruct (test paths_OPT_OUT line); [done|]. by destruct (first_pattern paths_PATTERNS line) as [[]|]. Qed.

Lemma not_banned_history i line :
  history_look i line = None <-> ~ (exists body, commentBody line = Some body /\ banned history_OPT_OUT history_PATTERNS line body).
Proof.
  unfold history_look. destruct (commentBody line) as [body|].
  - rewrite not_banned. naive_solver.
  - destruct (test history_OPT_OUT line); naive_solver.
Qed.

Lemma fmap_exec_None {A} r (f : found -> A) s : f <$> exec r s = None <-> ~ matches r s.
Proof. rewrite <- exec_matches. destruct (exec r s); cbn; naive_solver. Qed.

Section exact.
Context `{H : LintHost}.

Lemma history_clean :
  (exists hits, history_scanRepo.2 = Ok hits /\ hits = []) <-> git_code (run_git LS_FILES ROOT) = 0%Z /\
    forall lines i line body, repo_line LS_FILES (test TS_TSX_RS) history_SELF_EXEMPT lines i line -> commentBody line = Some body ->
      ~ banned history_OPT_OUT history_PATTERNS line body.
Proof.
  etransitivity; [apply (scanRepo_bad (fun _ => history_look) (fun _ _ line => exists body, commentBody line = Some body /\
    banned history_OPT_OUT history_PATTERNS line body)); intros; apply not_banned_history|]. naive_solver.
Qed.

End exact.

(** The chunks of standard input, in order. *)
Lemma lay_chunks_concat chunks out off :
  (off + length (concat chunks) = length out)%nat -> lay_chunks out off chunks = take off out ++ concat chunks.
Proof.
  revert out off. induction chunks as [|c chunks IH]; intros out off; cbn; [rewrite Nat.add_0_r, app_nil_r; intros ->; by rewrite firstn_all|].
  rewrite length_app. intros Hl. rewrite IH; unfold array_set.
  - rewrite app_assoc, take_app_length'; [by rewrite <- app_assoc|]. rewrite length_app, length_take. lia.
  - rewrite !length_app, length_take, length_drop. lia.
Qed.

Theorem readStdin_concat chunks : readStdin chunks = utf8_text (concat chunks).
Proof.
  unfold readStdin. f_equal. rewrite lay_chunks_concat; [done|]. rewrite repeat_length. cbn.
  assert (Hf : forall (l : list (list Z)) n, fold_left (fun a c => (a + length c)%nat) l n = (n + length (concat l))%nat).
  { induction l as [|c l IH]; intros n; cbn; [lia|]. rewrite IH, length_app. lia. }
  by rewrite Hf.
Qed.

(** The scripts' own tests, on one line each. *)
Example line_lints_ex :
  (fmap hit_what (deprecation_scanText ("ok" +:+ LF +:+ "/** @deprecated use x */" +:+ LF +:+ "const Legacy = 1; // allow-deprecation-vocab: y" +:+ LF +:+ "delegacy backwards-compatible") "f"),
   fmap (fun h => (hit_line h, hit_what h)) (paths_scanText ("see /Users/bob/x" +:+ LF +:+ "cd ~/.ssh" +:+ LF +:+ "a~/b") "f"),
   fmap hit_what (history_scanText ("x(); // this used to be y" +:+ LF +:+ "s = '// originally'" +:+ LF +:+ " * the previous impl") "f"),
   fmap hit_line (dynamic_scanText ("await import('./a.ts');" +:+ LF +:+ "if (import.meta.main) {" +:+ LF +:+ "  await import('./b.ts');" +:+ LF +:+ "}" +:+ LF +:+ "import('node:fs')" +:+ LF +:+ "x: import(`c`).D") "f"),
   fmap hit_what (sanitizer_scanText "{ sanitizeOps : false }" "f"), fmap hit_what (listener_scanText "Deno.listen ({})" "f"))
  = ([("@deprecated", "@deprecated tag"); ("backwards-compat", "'backward(s) compat' phrase")],
     [(1, "/Users/bob/"); (2, "~/.ssh")],
     [("used to be", "'used to <past-verb>'"); ("the previous impl", "'the (original|prior|previous|earlier) [<word>] <impl-noun>'")],
     [1; 6], ["sanitizeOps"], ["Deno.listen"])%nat.
Proof. vm_compute. reflexivity. Qed.

(** Only the first import of a line is judged: a [node:] import hides the one that
    follows it. *)
Example second_import_hidden :
  (length (dynamic_scanText "x = [import('./a.ts'), import('node:fs')]" "f"), length (dynamic_scanText "x = [import('node:fs'), import('./a.ts')]" "f"))
  = (1, 0)%nat.
Proof. vm_compute. reflexivity. Qed.

(** A guard after a closing brace on its own line opens no block. *)
Example else_main_guard :
  computeMainBlockMask ["} else if (import.meta.main) {"; "  await import('./b.ts');"; "}"] = [true; false; false].
Proof. vm_compute. reflexivity. Qed.
