(* ===== verification/ArchLint.v ===== *)
(** * Architecture lint

    [scripts/arch-lint.ts]: the imports of a source file by pattern, where a
    relative import points, the layering rules between packages and folders, and the
    walk over the browser-portable import graph.  Directory walks, files and
    [relative] are the host's. *)

From S2P Require Import Prelude JsNum JsMap JsString JsValue C2pa Proofmode PreimageFile Regex LintScan.

(** ** Tables

    Lookups by name in a record are by its own keys: package names and specifiers
    that [Object.prototype] happens to define are left aside. *)
Definition PUBLIC_SURFACE_DIRS : list string := ["examples"; "e2e"; "scripts"].

Record Violation := mkViolation { vi_file : string; vi_line : nat; vi_code : string; vi_severity : string; vi_message : string }.

Definition ALLOWED_PACKAGE_DEPS (pkg : string) : option (list string) :=
  if pkg === "protocol" then Some [] else if pkg === "sdk" then Some ["protocol"] else None.

Definition arch_OPT_OUT : regex := rx "\/\/\s*allow-arch:".
Definition REQUEST_PUBLIC_REEXPORT_TARGETS : list string :=
  ["packages/sdk/src/requests/domain/ports.ts"; "packages/sdk/src/requests/application/ports.ts";
   "packages/sdk/src/requests/domain/oracle-types.ts"].

Definition quotes : string := dquote +:+ "'".
Definition REEXPORT_RE : regex :=
  rx ("export\s+(?:type\s+)?(?:\*(?:\s+as\s+[A-Za-z0-9_$]+)?|\{[\s\S]*?\})\s+from\s+[" +:+ quotes +:+ "]([^" +:+ quotes +:+ "]+)[" +:+ quotes +:+ "]").
Definition APP_VOCAB : regex :=
  rx "\b(market|marketplace|markets|marketplaces|Market|Marketplace|Markets|Marketplaces|MARKET|MARKETPLACE|bounty|bounties|Bounty|Bounties|BOUNTY)\b".
Definition SDK_KIND_CONST : regex := rx "\bexport\s+const\s+(KIND_|ANCHR_)[A-Z_0-9]+\s*=\s*\d+".
Definition ENV_READ : regex := rx "\bDeno\.env\.(?:get|set|delete)\b".
Definition ENV_READ_ALLOWED : list string :=
  ["packages/sdk/src/internal/runtime/"; "packages/sdk/src/testing/helpers.ts";
   "packages/sdk/src/adapters/oracle-service/server-entry.ts"].
Definition RUNTIME_API_READ : regex := rx "\bDeno\.".

Definition PORTABLE_ENTRYPOINTS : list string :=
  ["packages/protocol/src/mod.ts"; "packages/protocol/src/events.ts"; "packages/protocol/src/nostr.ts"; "packages/protocol/src/schema.ts";
   "packages/protocol/src/types.ts"; "packages/sdk/src/customer.ts"; "packages/sdk/src/customer-types.ts"; "packages/sdk/src/provider.ts";
   "packages/sdk/src/provider-types.ts"; "packages/sdk/src/oracle.ts"; "packages/sdk/src/schema.ts"; "packages/sdk/src/values.ts";
   "packages/sdk/src/adapters/oracle-client/index.ts"; "packages/sdk/src/adapters/types.ts"].

Definition PORTABLE_PUBLIC_IMPORT_TARGETS : list (string * string) :=
  [("@anchr/protocol", "packages/protocol/src/mod.ts"); ("@anchr/protocol/events", "packages/protocol/src/events.ts");
   ("@anchr/protocol/nostr", "packages/protocol/src/nostr.ts"); ("@anchr/protocol/schema", "packages/protocol/src/schema.ts");
   ("@anchr/protocol/types", "packages/protocol/src/types.ts"); ("@anchr/sdk/customer", "packages/sdk/src/customer.ts");
   ("@anchr/sdk/provider", "packages/sdk/src/provider.ts"); ("@anchr/sdk/oracle", "packages/sdk/src/oracle.ts");
   ("@anchr/sdk/schema", "packages/sdk/src/schema.ts"); ("@anchr/sdk/adapters/oracle-client", "packages/sdk/src/adapters/oracle-client/index.ts")].

Definition PORTABLE_GRAPH_LEAF_TARGETS : list string := ["packages/sdk/src/requests/domain/ports.ts"].

Definition PORTABLE_SERVER_ONLY_TARGETS : list string :=
  ["packages/sdk/src/internal/runtime/config.ts"; "packages/sdk/src/internal/runtime/env.ts"; "packages/sdk/src/internal/runtime/fs.ts";
   "packages/sdk/src/internal/runtime/logger.ts"; "packages/sdk/src/internal/runtime/mod.ts"; "packages/sdk/src/internal/runtime/process.ts";
   "packages/sdk/src/internal/runtime/runtime.ts"; "packages/sdk/src/internal/runtime/sidecar-execution.ts";
   "packages/sdk/src/internal/runtime/which.ts"; "packages/sdk/src/adapters/oracle-service/"; "packages/sdk/src/adapters/nostr/hash-responder.ts";
   "packages/sdk/src/adapters/nostr/oracle-service.ts"; "packages/sdk/src/payments/frost/"; "packages/sdk/src/proofs/c2pa-validation.ts";
   "packages/sdk/src/proofs/tlsn-validation.ts"].

Definition IMPORT_RE : regex :=
  rx ("(?:^|\n)\s*(?:import|export)\b[\s\S]*?\bfrom\s+[" +:+ quotes +:+ "]([^" +:+ quotes +:+ "]+)[" +:+ quotes +:+ "]").
Definition DYNAMIC_IMPORT_RE : regex := rx ("\bimport\s*\(\s*[" +:+ quotes +:+ "]([^" +:+ quotes +:+ "]+)[" +:+ quotes +:+ "]\s*\)").

(** ** Imports of a file *)

(** Block comments blanked but for their line breaks, line comments cut. *)
Definition strip_comments (source : string) : string :=
  replaceAll (rx "(^|\n)([^\n]*?)\/\/[^\n]*") (fun m => capture 1 m +:+ capture 2 m)
    (replaceAll (rx "\/\*[\s\S]*?\*\/") (fun m => replaceAll (rx "[^\n]") (fun _ => " ") (capture 0 m)) source).

(** [lineOf]: one more than the line breaks before the offset. *)
Definition line_of (stripped : string) (offset : nat) : nat := S (length (List.filter (is_c 10) (take offset (chars stripped)))).

Definition trimStart (s : string) : string := of_chars (drop_space (chars s)).

Record ImportRef := mkImportRef { im_specifier : string; im_line : nat; im_typeOnly : bool }.

Definition extractImports (source : string) : list ImportRef :=
  let stripped := strip_comments source in
  flat_map (fun re => map (fun m =>
    let statement := trimStart (capture 0 m) in
    mkImportRef (capture 1 m) (line_of stripped (fd_index m))
      (test (rx "^import\s+type\b") statement || test (rx "^export\s+type\b") statement)) (matchAll re stripped))
    [IMPORT_RE; DYNAMIC_IMPORT_RE].

Definition extractReExports (source : string) : list (string * nat) :=
  let stripped := strip_comments source in
  map (fun m => (capture 1 m, line_of stripped (fd_index m))) (matchAll REEXPORT_RE stripped).

(** ** Where an import points *)

(** [for (const p of specParts)]: the segments of the specifier applied to a
    directory; [pop] on an empty array does nothing. *)
Fixpoint merge_parts (merged specParts : list string) : list string :=
  match specParts with
  | [] => merged
  | p :: rest =>
      if (p === ".") || (p === "") then merge_parts merged rest
      else if p === ".." then merge_parts (removelast merged) rest
      else merge_parts (merged ++ [p]) rest
  end.

Definition merged_path (specifier fileRel : string) : list string :=
  merge_parts (removelast (js_split 47 fileRel)) (js_split 47 specifier).

Definition resolvePackageDep (specifier fileRel : string) : option string :=
  if startsWith "@anchr/" specifier then js_split 47 specifier !! 1%nat
  else
  match (if includes "packages/" specifier then exec (rx "packages\/([^/]+)") specifier else None) with
  | Some m => Some (capture 1 m)
  | None =>
      if startsWith "packages/" fileRel && startsWith "../" specifier then
        match merged_path specifier fileRel with
        | head :: dep :: _ => if (head === "packages") && str_truthy dep then Some dep else None
        | _ => None
        end
      else None
  end.

Definition resolveRelativeImportTarget (specifier fileRel : string) : option string :=
  if negb (startsWith "." specifier) then None else Some (js_join "/" (merged_path specifier fileRel)).

Definition toSourceFileRel (targetRel : string) : string :=
  if endsWith ".ts" targetRel || endsWith ".tsx" targetRel then targetRel else targetRel +:+ ".ts".

Definition resolvePortableImportTarget (specifier fileRel : string) : option string :=
  match List.find (fun '(k, _) => String.eqb k specifier) PORTABLE_PUBLIC_IMPORT_TARGETS with
  | Some (_, publicTarget) => Some publicTarget
  | None => toSourceFileRel <$> resolveRelativeImportTarget specifier fileRel
  end.

Definition relativeTargetsPackageSrc (specifier fileRel : string) : bool :=
  if negb (startsWith "." specifier) then false
  else let merged := merged_path specifier fileRel in
       (match merged with head :: _ => head === "packages" | [] => false end) && existsb (String.eqb "src") merged.

(** ** Content *)

(** Lines outside comments and without the opt-out. *)
Definition content_look (pattern : regex) (_ : nat) (line : string) : option string :=
  let trimmed := trimStart line in
  if startsWith "//" trimmed || startsWith "*" trimmed then None
  else if test arch_OPT_OUT line then None
  else capture 0 <$> exec pattern line.

Fixpoint content_from (pattern : regex) (i : nat) (lines : list string) : list (nat * string) :=
  match lines with
  | [] => []
  | line :: rest =>
      match content_look pattern i line with
      | Some m => (S i, m) :: content_from pattern (S i) rest
      | None => content_from pattern (S i) rest
      end
  end.
Definition scanContentLines (source : string) (pattern : regex) : list (nat * string) := content_from pattern 0 (js_split 10 source).

Definition lineAllowsArch (source : string) (line : nat) : bool :=
  test arch_OPT_OUT (opt_default "" (js_split 10 source !! (line - 1)%nat)).

(** ** Rules *)
Definition isPublicAnchrSpecifier (specifier : string) : bool :=
  (specifier === "@anchr/sdk") || startsWith "@anchr/sdk/" specifier ||
  (specifier === "@anchr/protocol") || startsWith "@anchr/protocol/" specifier.

Definition isPortableServerOnlyTarget (fileRel : string) : bool :=
  existsb (fun target => if endsWith "/" target then startsWith target fileRel else String.eqb fileRel target) PORTABLE_SERVER_ONLY_TARGETS.

Definition isPortableGraphLeafTarget (fileRel : string) : bool := existsb (String.eqb fileRel) PORTABLE_GRAPH_LEAF_TARGETS.

Definition allowedByImporter : list (string * list string) :=
  [("packages/sdk/src/attachments/", ["packages/sdk/src/requests/domain/types.ts"]);
   ("packages/sdk/src/customer.ts", ["packages/sdk/src/requests/domain/ports.ts"]);
   ("packages/sdk/src/index.ts", ["packages/sdk/src/requests/domain/ports.ts"]);
   ("packages/sdk/src/customer-types.ts", ["packages/sdk/src/requests/domain/ports.ts"]);
   ("packages/sdk/src/provider.ts", ["packages/sdk/src/requests/domain/ports.ts"]);
   ("packages/sdk/src/provider-types.ts", ["packages/sdk/src/requests/domain/ports.ts"]);
   ("packages/sdk/src/payments/",
     ["packages/sdk/src/requests/application/ports.ts"; "packages/sdk/src/requests/application/query-verifier.ts";
      "packages/sdk/src/requests/domain/types.ts"]);
   ("packages/sdk/src/proofs/", ["packages/sdk/src/requests/domain/types.ts"]);
   ("packages/sdk/src/adapters/nostr/",
     ["packages/sdk/src/requests/application/ports.ts"; "packages/sdk/src/requests/application/query-verifier.ts";
      "packages/sdk/src/requests/domain/oracle-types.ts"; "packages/sdk/src/requests/domain/types.ts"]);
   ("packages/sdk/src/adapters/oracle-client/",
     ["packages/sdk/src/requests/application/ports.ts"; "packages/sdk/src/requests/application/query-verifier.ts";
      "packages/sdk/src/requests/domain/oracle-types.ts"; "packages/sdk/src/requests/domain/types.ts"]);
   ("packages/sdk/src/adapters/oracle-service/",
     ["packages/sdk/src/requests/application/query-verifier.ts"; "packages/sdk/src/requests/domain/oracle-types.ts";
      "packages/sdk/src/requests/domain/types.ts"]);
   ("packages/sdk/src/testing/",
     ["packages/sdk/src/requests/application/ports.ts"; "packages/sdk/src/requests/application/query-escrow-validation.ts";
      "packages/sdk/src/requests/application/query-service.ts"; "packages/sdk/src/requests/domain/oracle-types.ts";
      "packages/sdk/src/requests/domain/types.ts"])].

Definition isAllowedSdkRequestImport (fileRel targetRel : string) : bool :=
  if negb (startsWith "packages/sdk/src/" fileRel) then true
  else if startsWith "packages/sdk/src/requests/" fileRel then true
  else if negb (startsWith "packages/sdk/src/requests/" targetRel) then true
  else existsb (fun '(importer, targets) => startsWith importer fileRel && existsb (String.eqb targetRel) targets) allowedByImporter.

Definition featureTargets : list string :=
  ["packages/sdk/src/adapters/"; "packages/sdk/src/attachments/"; "packages/sdk/src/payments/"; "packages/sdk/src/proofs/"].

Definition isAllowedRequestFeatureImport (fileRel targetRel : string) : bool :=
  if negb (startsWith "packages/sdk/src/requests/" fileRel) then true
  else if negb (startsWith "packages/sdk/src/" targetRel) then true
  else if startsWith "packages/sdk/src/requests/" targetRel then true
  else if negb (existsb (fun prefix => startsWith prefix targetRel) featureTargets) then true
  else if startsWith "packages/sdk/src/requests/" fileRel && (targetRel === "packages/sdk/src/proofs/mod.ts") then true
  else false.

Definition quoted (s : string) : string := dquote +:+ s +:+ dquote.
Definition arch_error (file : string) (line : nat) (code message : string) : Violation := mkViolation file line code "error" message.

(** ** A package file *)
Definition escaped_imports (fileRel source : string) : list Violation :=
  flat_map (fun im =>
    match resolveRelativeImportTarget (im_specifier im) fileRel with
    | None => []
    | Some target =>
        match List.find (fun dir => String.eqb target dir || startsWith (dir +:+ "/") target) PUBLIC_SURFACE_DIRS with
        | Some escapedInto => [arch_error fileRel (im_line im) "E030"
            ("package code must not import from " +:+ escapedInto +:+ "/ (found " +:+ quoted (im_specifier im) +:+ ")")]
        | None => []
        end
    end) (extractImports source).

Definition content_errors (fileRel source : string) (pattern : regex) (code : string) (message : string -> string) : list Violation :=
  map (fun '(line, m) => arch_error fileRel line code (message m)) (scanContentLines source pattern).

Definition sdk_content (fileRel source : string) : list Violation :=
  content_errors fileRel source SDK_KIND_CONST "E027"
    (fun _ => "Nostr kind constant defined in sdk; import it from @anchr/protocol/nostr instead") ++
  if negb (endsWith ".test.ts" fileRel) && negb (existsb (fun allowed => startsWith allowed fileRel) ENV_READ_ALLOWED)
  then content_errors fileRel source ENV_READ "E028"
    (fun _ => "direct env read outside the documented config surfaces; take config through options/deps")
  else [].

Definition dep_errors (pkg : string) (allowed : list string) (fileRel source : string) : list Violation :=
  flat_map (fun im =>
    match truthy (resolvePackageDep (im_specifier im) fileRel) with
    | None => []
    | Some dep =>
        if String.eqb dep pkg then []
        else if negb (existsb (String.eqb dep) allowed) then
          [arch_error fileRel (im_line im) (if pkg === "protocol" then "E025" else "E017")
            ("Package " +:+ quoted pkg +:+ " must not depend on " +:+ quoted dep +:+ " (allowed: " +:+
             opt_default "none" (truthy (Some (js_join ", " allowed))) +:+ ")")]
        else []
    end) (extractImports source).

Definition request_imports (fileRel source : string) : list Violation :=
  flat_map (fun im =>
    match truthy (resolveRelativeImportTarget (im_specifier im) fileRel) with
    | None => []
    | Some target =>
        if negb (isAllowedSdkRequestImport fileRel target) || negb (isAllowedRequestFeatureImport fileRel target) then
          [arch_error fileRel (im_line im) "E026"
            ("SDK request internals may be imported only through documented request-scoped state or lifecycle ports (found " +:+
             quoted (im_specifier im) +:+ ")")]
        else []
    end) (extractImports source).

Definition request_reexports (fileRel source : string) : list Violation :=
  if startsWith "packages/sdk/src/requests/" fileRel || startsWith "packages/sdk/src/testing/" fileRel then []
  else
  flat_map (fun '(specifier, line) =>
    match truthy (resolveRelativeImportTarget specifier fileRel) with
    | None => []
    | Some target =>
        if negb (startsWith "packages/sdk/src/requests/" target) then []
        else if existsb (String.eqb target) REQUEST_PUBLIC_REEXPORT_TARGETS then []
        else [arch_error fileRel line "E029"
          ("re-exporting a requests/ internal type to a public surface; only documented request ports/contracts may be re-published (found " +:+
           quoted specifier +:+ ")")]
    end) (extractReExports source).

Definition checkPackageFile (pkg fileRel source : string) : list Violation :=
  let violations :=
    escaped_imports fileRel source ++
    content_errors fileRel source APP_VOCAB "E022" (fun m => "application vocabulary " +:+ quoted m +:+ " not allowed in packages/") ++
    (if pkg === "sdk" then sdk_content fileRel source else []) in
  match ALLOWED_PACKAGE_DEPS pkg with
  | None => violations
  | Some allowed =>
      violations ++ dep_errors pkg allowed fileRel source ++
      (if pkg === "sdk" then request_imports fileRel source ++ request_reexports fileRel source else [])
  end.

(** ** A public surface file *)
Definition checkPublicSurfaceFile (fileRel source : string) : list Violation :=
  flat_map (fun im =>
    let specifier := im_specifier im in
    (if startsWith "@anchr/" specifier && negb (isPublicAnchrSpecifier specifier) then
       [arch_error fileRel (im_line im) "E023"
         ("public repository surfaces may import only @anchr/sdk or @anchr/protocol (found " +:+ quoted specifier +:+ ")")] else []) ++
    (if relativeTargetsPackageSrc specifier fileRel then
       [arch_error fileRel (im_line im) "E023"
         ("public repository surfaces must use @anchr/* public subpaths, not " +:+ quoted specifier)] else [])) (extractImports source).

(** ** The browser-portable import graph *)
Class ArchHost := {
  (** What [Deno.readTextFile] rejects with. *)
  read_failure : string -> exn;
  (** [walk(dir, { exts: [".ts", ".tsx"], skip })] of jsr:@std/fs: the paths it
      yields, then the error it stops with. *)
  walk_dir : string -> list string -> list string * option exn;
  arch_cwd : string;
}.

Section arch.
Context `{H : LintHost} `{W : ArchHost}.

Definition read_source (path : string) : res string :=
  match readTextFile path with Some source => Ok source | None => Throw (read_failure path) end.

(** What one import of a portable file leads to: an error, a file to visit, or
    nothing. *)
Definition portable_import (fileRel source : string) (im : ImportRef) : list Violation * option string :=
  let error message := ([arch_error fileRel (im_line im) "E031" message], None) in
  let specifier := im_specifier im in
  if im_typeOnly im then ([], None)
  else if lineAllowsArch source (im_line im) then ([], None)
  else if startsWith "node:" specifier then error ("portable browser surface must not import runtime module " +:+ quoted specifier)
  else
  match resolvePortableImportTarget specifier fileRel with
  | None => ([], None)
  | Some target =>
      if negb (startsWith "packages/sdk/src/" target) && negb (startsWith "packages/protocol/src/" target) then ([], None)
      else if isPortableServerOnlyTarget target then
        error ("portable browser surface must not import server-only SDK adapter " +:+ quoted specifier)
      else ([], Some target)
  end.

Definition runtime_errors (fileRel source : string) : list Violation :=
  content_errors fileRel source RUNTIME_API_READ "E031"
    (fun m => "portable browser surface must not reference runtime API " +:+ quoted m).

(** What visiting a file adds: its violations and the files to push, in order. *)
Definition portable_visit (visited : list string) (fileRel source : string) : list Violation * list string :=
  if isPortableGraphLeafTarget fileRel then (runtime_errors fileRel source, [])
  else
    let found := map (portable_import fileRel source) (extractImports source) in
    (runtime_errors fileRel source ++ flat_map fst found,
     List.filter (fun target => negb (existsb (String.eqb target) visited)) (omap snd found)).

(** [pending] is a stack, its last element first.  [None]: out of fuel. *)
Fixpoint portable_loop (fuel : nat) (visited pending : list string) (violations : list Violation) : option (res (list Violation)) :=
  match fuel with
  | O => None
  | S fuel' =>
      match pending with
      | [] => Some (Ok violations)
      | fileRel :: pending' =>
          if existsb (String.eqb fileRel) visited then portable_loop fuel' visited pending' violations
          else
          let visited' := fileRel :: visited in
          match read_source (ROOT +:+ fileRel) with
          | Throw e => Some (Throw e)
          | Ok source =>
              let '(errors, targets) := portable_visit visited' fileRel source in
              portable_loop fuel' visited' (rev targets ++ pending') (violations ++ errors)
          end
      end
  end.

Definition checkPortableBrowserSurface (fuel : nat) : option (res (list Violation)) :=
  portable_loop fuel [] (rev PORTABLE_ENTRYPOINTS) [].

(** ** [main] *)
Definition PKG_DIR : string := ROOT +:+ "packages/".

Definition checkPath (abs : string) : res (list Violation) :=
  if negb (endsWith ".ts" abs) && negb (endsWith ".tsx" abs) then Ok []
  else
  source ← read_source abs;
  let rel := relative ROOT abs in
  if startsWith PKG_DIR abs then
    if endsWith ".test.ts" abs || endsWith ".test.tsx" abs then Ok []
    else Ok (checkPackageFile (opt_default "" (head (js_split 47 (relative PKG_DIR abs)))) rel source)
  else if existsb (fun dir => startsWith (dir +:+ "/") rel) PUBLIC_SURFACE_DIRS then Ok (checkPublicSurfaceFile rel source)
  else Ok [].

(** Paths checked one after another; what was found before an error stays. *)
Fixpoint check_paths (paths : list string) (violations : list Violation) : list Violation * option exn :=
  match paths with
  | [] => (violations, None)
  | p :: rest => match checkPath p with Ok vs => check_paths rest (violations ++ vs) | Throw e => (violations, Some e) end
  end.

Definition check_walk (walked : list string * option exn) (violations : list Violation) : list Violation * option exn :=
  match check_paths walked.1 violations with
  | (violations', None) => (violations', walked.2)
  | failed => failed
  end.

(** A missing directory is skipped. *)
Fixpoint check_dirs (dirs : list string) (violations : list Violation) : list Violation * option exn :=
  match dirs with
  | [] => (violations, None)
  | dir :: rest =>
      match check_walk (walk_dir (ROOT +:+ dir) ["node_modules"; "dist\/"]) violations with
      | (violations', None) => check_dirs rest violations'
      | (violations', Some e) => if exn_class e === "NotFound" then check_dirs rest violations' else (violations', Some e)
      end
  end.

Definition check_all (fileArgs : list string) (violations : list Violation) : list Violation * option exn :=
  match fileArgs with
  | _ :: _ => check_paths (map (fun file => if startsWith "/" file then file else arch_cwd +:+ "/" +:+ file) fileArgs) violations
  | [] =>
      match check_walk (walk_dir PKG_DIR ["\.test\.tsx?$"; "node_modules"; "dist\/"]) violations with
      | (violations', None) => check_dirs PUBLIC_SURFACE_DIRS violations'
      | failed => failed
      end
  end.

Definition violation_json (v : Violation) : jsval :=
  VObj [("file", VStr (vi_file v)); ("line", VNum (num (Z.of_nat (vi_line v)))); ("code", VStr (vi_code v));
        ("severity", VStr (vi_severity v)); ("message", VStr (vi_message v))].

Definition is_severity (severity : string) (v : Violation) : bool := vi_severity v === severity.

Definition arch_main `{JSONPretty} (fuel : nat) (args : list string) : option (list console_line * script_end) :=
  let onlyErrors := existsb (String.eqb "--errors-only") args in
  let jsonOutput := existsb (String.eqb "--json") args in
  let fileArgs := List.filter (fun arg => negb (startsWith "--" arg)) args in
  match checkPortableBrowserSurface fuel with
  | None => None
  | Some (Throw e) => Some ([], ScriptThrow e)
  | Some (Ok portable) =>
      match check_all fileArgs portable with
      | (_, Some e) => Some ([], ScriptThrow e)
      | (violations, None) =>
          let printable := if onlyErrors then List.filter (is_severity "error") violations else violations in
          let shown := if jsonOutput then [OutLine (JSON_pretty (VArr (map violation_json printable)))]
            else map (fun v => ErrLine (toUpperCase (vi_severity v) +:+ " [" +:+ vi_code v +:+ "] " +:+ vi_file v +:+ ":" +:+
                   pretty (Z.of_nat (vi_line v)) +:+ " — " +:+ vi_message v)) printable in
          let errors := List.filter (is_severity "error") violations in
          let warns := List.filter (is_severity "warn") violations in
          Some (if Nat.ltb 0 (length errors) then
            (shown ++ [ErrLine (LF +:+ "✗ " +:+ pretty (Z.of_nat (length errors)) +:+ " architecture error(s), " +:+
               pretty (Z.of_nat (length warns)) +:+ " warning(s)")], ScriptExit 1)
          else (shown ++ (if jsonOutput then [] else [OutLine "✓ No architecture violations found."]), ScriptExit 0))
      end
  end.
End arch.

(** ** The portable import graph is walked exactly

    The worklist of [checkPortableBrowserSurface] against the reachability relation
    it computes: it terminates on every finite graph, visits exactly the files
    reachable from the entry points and reports exactly their violations. *)

Section portable.
Context `{H : LintHost} `{W : ArchHost}.

Definition source_of (f : string) : option string := readTextFile (ROOT +:+ f).

(** *** What the rule forbids, stated apart from the script's loop *)
Definition has_prefix (p s : string) : Prop := exists rest, s = p +:+ rest.

Lemma startsWith_prefix p s : startsWith p s = true <-> has_prefix p s.
Proof.
  unfold startsWith, has_prefix. revert s. induction p as [|c p IH]; intros s.
  - split; [by eexists|by destruct s].
  - destruct s as [|d s]; [split; [done|by intros [rest [=]]]|]. cbn [String.prefix].
    destruct (Ascii.ascii_dec c d) as [->|Hne].
    + rewrite IH. split; intros [rest Hr]; exists rest; [by subst|by injection Hr].
    + split; [done|]. intros [rest Hr]. by injection Hr as -> _.
Qed.

(** A line of the file that names the runtime API, outside line comments and without
    the opt-out. *)
Definition names_runtime_api (source : string) (line : nat) (text : string) : Prop :=
  exists content m, js_split 10 source !! line = Some content /\ exec RUNTIME_API_READ content = Some m /\ text = capture 0 m /\
    ~ has_prefix "//" (trimStart content) /\ ~ has_prefix "*" (trimStart content) /\ test arch_OPT_OUT content = false.

(** An import of values that the scanner sees and whose line does not opt out. *)
Definition value_import (source : string) (im : ImportRef) : Prop :=
  im ∈ extractImports source /\ im_typeOnly im = false /\ lineAllowsArch source (im_line im) = false.

(** An import that points at a source file of the two published packages. *)
Definition points_to (f : string) (im : ImportRef) (target : string) : Prop :=
  ~ has_prefix "node:" (im_specifier im) /\ resolvePortableImportTarget (im_specifier im) f = Some target /\
  (has_prefix "packages/sdk/src/" target \/ has_prefix "packages/protocol/src/" target).

(** A server-only file: listed, or under a listed directory. *)
Definition server_only (target : string) : Prop :=
  exists entry, entry ∈ PORTABLE_SERVER_ONLY_TARGETS /\
    if endsWith "/" entry then has_prefix entry target else target = entry.

Definition leaf (f : string) : Prop := f ∈ PORTABLE_GRAPH_LEAF_TARGETS.

(** An import the walk follows. *)
Definition followed (f source : string) (im : ImportRef) (target : string) : Prop :=
  ~ leaf f /\ value_import source im /\ points_to f im target /\ ~ server_only target.

(** A file reached from the entry points through the imports that are followed. *)
Inductive PortableReach : string -> Prop :=
| pr_entry f : f ∈ PORTABLE_ENTRYPOINTS -> PortableReach f
| pr_import f source im target :
    PortableReach f -> source_of f = Some source -> followed f source im target -> PortableReach target.

(** What is wrong with a portable file: a runtime API on one of its lines, or an
    import of a runtime module or of a server-only file. *)
Inductive file_violation (f source : string) : Violation -> Prop :=
| fv_runtime_api line text : names_runtime_api source line text ->
    file_violation f source (mkViolation f (S line) "E031" "error"
      ("portable browser surface must not reference runtime API " +:+ quoted text))
| fv_runtime_module im : ~ leaf f -> value_import source im -> has_prefix "node:" (im_specifier im) ->
    file_violation f source (mkViolation f (im_line im) "E031" "error"
      ("portable browser surface must not import runtime module " +:+ quoted (im_specifier im)))
| fv_server_only im target : ~ leaf f -> value_import source im -> points_to f im target -> server_only target ->
    file_violation f source (mkViolation f (im_line im) "E031" "error"
      ("portable browser surface must not import server-only SDK adapter " +:+ quoted (im_specifier im))).

(** *** The script's tests decide it *)
Lemma leaf_decided f : isPortableGraphLeafTarget f = true <-> leaf f.
Proof. apply existsb_eqb. Qed.

Lemma server_only_decided t : isPortableServerOnlyTarget t = true <-> server_only t.
Proof.
  unfold isPortableServerOnlyTarget, server_only. rewrite existsb_exists. split; intros (e & He & Ht); exists e;
    (split; [by apply list_elem_of_In|]); destruct (endsWith "/" e);
    first [by apply startsWith_prefix|by apply String.eqb_eq].
Qed.

Lemma content_from_spec pattern lines i n text :
  (n, text) ∈ content_from pattern i lines <->
  exists k content, n = S (i + k) /\ lines !! k = Some content /\ content_look pattern (i + k) content = Some text.
Proof.
  revert i. induction lines as [|l lines IH]; intros i; cbn [content_from].
  - split; [by intros ?%elem_of_nil|]. by intros (k & c & _ & ? & _).
  - assert (Hrest : (n, text) ∈ content_from pattern (S i) lines <->
      exists k content, n = S (i + S k) /\ lines !! k = Some content /\ content_look pattern (i + S k) content = Some text).
    { rewrite IH. split; intros (k & c & ? & ? & ?); exists k, c; replace (i + S k)%nat with (S i + k)%nat in * by lia; done. }
    destruct (content_look pattern i l) as [m|] eqn:El.
    + rewrite elem_of_cons, Hrest. split.
      * intros [[= -> ->]|(k & c & H1)]; [exists 0%nat, l; by rewrite Nat.add_0_r|by exists (S k), c].
      * intros ([|k] & c & -> & Hc & Hl); [left|right; by exists k, c]. cbn in Hc. injection Hc as <-.
        rewrite Nat.add_0_r in *. congruence.
    + rewrite Hrest. split; [intros (k & c & H1); by exists (S k), c|].
      intros ([|k] & c & -> & Hc & Hl); [|by exists k, c]. cbn in Hc. injection Hc as <-. rewrite Nat.add_0_r in Hl. congruence.
Qed.

Lemma content_look_spec i content text :
  content_look RUNTIME_API_READ i content = Some text <->
  exists m, exec RUNTIME_API_READ content = Some m /\ text = capture 0 m /\
    ~ has_prefix "//" (trimStart content) /\ ~ has_prefix "*" (trimStart content) /\ test arch_OPT_OUT content = false.
Proof.
  unfold content_look. setoid_rewrite <- startsWith_prefix; setoid_rewrite not_true_iff_false.
  destruct (startsWith "//" _); cbn [orb]; [split; [done|]; by intros (m & _ & _ & ? & _)|].
  destruct (startsWith "*" _); [split; [done|]; by intros (m & _ & _ & _ & ? & _)|].
  destruct (test arch_OPT_OUT content); [split; [done|]; by intros (m & _ & _ & _ & _ & ?)|].
  destruct (exec RUNTIME_API_READ content) as [m|]; cbn; [|split; [done|]; by intros (m & ? & _)].
  split; [intros [= <-]; by exists m|]. by intros (m' & [= <-] & -> & _).
Qed.

Lemma runtime_errors_spec f source v :
  v ∈ runtime_errors f source <-> exists line text, names_runtime_api source line text /\
    v = mkViolation f (S line) "E031" "error" ("portable browser surface must not reference runtime API " +:+ quoted text).
Proof.
  unfold runtime_errors, content_errors, scanContentLines, names_runtime_api.
  rewrite list_elem_of_In, in_map_iff. split.
  - intros ([n text] & <- & Hin%list_elem_of_In). apply content_from_spec in Hin as (k & c & -> & Hc & Hl).
    apply content_look_spec in Hl as (m & Hm). exists k, text. split; [by exists c, m|done].
  - intros (line & text & (c & m & Hc & Hm) & ->). exists (S line, text). split; [done|]. apply list_elem_of_In, content_from_spec.
    exists line, c. split_and!; [done|done|]. apply content_look_spec. by exists m.
Qed.

Lemma portable_import_spec f source im :
  im ∈ extractImports source ->
  (forall v, v ∈ (portable_import f source im).1 <->
     value_import source im /\
     ((has_prefix "node:" (im_specifier im) /\
       v = mkViolation f (im_line im) "E031" "error" ("portable browser surface must not import runtime module " +:+ quoted (im_specifier im))) \/
      (exists target, points_to f im target /\ server_only target /\
       v = mkViolation f (im_line im) "E031" "error" ("portable browser surface must not import server-only SDK adapter " +:+ quoted (im_specifier im))))) /\
  (forall target, (portable_import f source im).2 = Some target <-> value_import source im /\ points_to f im target /\ ~ server_only target).
Proof.
  intros Him. unfold portable_import, value_import, points_to.
  setoid_rewrite <- server_only_decided. setoid_rewrite <- startsWith_prefix.
  destruct (im_typeOnly im); cbn [fst snd]; [setoid_rewrite elem_of_nil; naive_solver|].
  destruct (lineAllowsArch source (im_line im)); cbn [fst snd]; [setoid_rewrite elem_of_nil; naive_solver|].
  destruct (startsWith "node:" (im_specifier im)); cbn [fst snd].
  { setoid_rewrite list_elem_of_singleton. unfold arch_error. naive_solver. }
  destruct (resolvePortableImportTarget (im_specifier im) f) as [t|]; cbn [fst snd]; [|setoid_rewrite elem_of_nil; naive_solver].
  destruct (negb (startsWith "packages/sdk/src/" t) && negb (startsWith "packages/protocol/src/" t)) eqn:Ein; cbn [fst snd].
  { apply andb_true_iff in Ein as [E1%negb_true_iff E2%negb_true_iff]. setoid_rewrite elem_of_nil.
    split; intros x; (split; [done|]); [intros (_ & [[? _]|(target & (_ & [= <-] & [?|?]) & _)])|intros (_ & (_ & [= <-] & [?|?]) & _)]; congruence. }
  assert (Hin : startsWith "packages/sdk/src/" t = true \/ startsWith "packages/protocol/src/" t = true)
    by (apply andb_false_iff in Ein; rewrite !negb_false_iff in Ein; done).
  unfold arch_error. destruct (isPortableServerOnlyTarget t) eqn:E3; cbn [fst snd].
  - setoid_rewrite list_elem_of_singleton. split; intros x; split; [| |done|].
    + intros ->. split; [done|]. right. by exists t.
    + by intros (_ & [[? _]|(target & _ & _ & ->)]).
    + intros (_ & (_ & [= <-] & _) & Hno). congruence.
  - setoid_rewrite elem_of_nil. split; intros x; split; [done| | |].
    + intros (_ & [[? _]|(target & (_ & [= <-] & _) & ? & _)]); congruence.
    + intros [= <-]. split_and!; [done..|congruence].
    + by intros (_ & (_ & ? & _) & _).
Qed.

Lemma elem_results {A B C} (g : A -> list B * C) l v : v ∈ flat_map fst (map g l) <-> exists x, x ∈ l /\ v ∈ (g x).1.
Proof. induction l as [|x l IH]; cbn; [split; [by intros ?%elem_of_nil|by intros (y & ?%elem_of_nil & _)]|]. rewrite elem_of_app, IH. setoid_rewrite elem_of_cons. naive_solver. Qed.

Lemma elem_targets {A B C} (g : A -> B * option C) l t : t ∈ omap snd (map g l) <-> exists x, x ∈ l /\ (g x).2 = Some t.
Proof.
  induction l as [|x l IH]; cbn; [split; [by intros ?%elem_of_nil|by intros (y & ?%elem_of_nil & _)]|]. setoid_rewrite elem_of_cons.
  destruct (g x).2 as [c|] eqn:E; [rewrite elem_of_cons, IH|rewrite IH]; naive_solver.
Qed.

Lemma visit_violation visited f source v : v ∈ (portable_visit visited f source).1 <-> file_violation f source v.
Proof.
  assert (Hrun : (exists line text, names_runtime_api source line text /\
    v = mkViolation f (S line) "E031" "error" ("portable browser surface must not reference runtime API " +:+ quoted text)) ->
    file_violation f source v) by (intros (line & text & Hn & ->); by constructor).
  unfold portable_visit. destruct (isPortableGraphLeafTarget f) eqn:El; cbn [fst].
  - apply leaf_decided in El. rewrite runtime_errors_spec. split; [done|]. destruct 1; [eauto|done..].
  - assert (Hleaf : ~ leaf f) by (rewrite <- leaf_decided; congruence).
    rewrite elem_of_app, elem_results, runtime_errors_spec. split.
    + intros [H1|(im & Him & Hv)]; [by apply Hrun|].
      apply (portable_import_spec f source im Him) in Hv as [Hval [[Hp ->]|(t & Hp & Hs & ->)]]; by econstructor.
    + destruct 1 as [line text Hn|im _ Hval Hp|im t _ Hval Hp Hs]; [left; eauto|right..];
        (exists im; split; [by destruct Hval|]; apply portable_import_spec; [by destruct Hval|]; split; [done|]); [by left|right; by exists t].
Qed.

(** The files a visit leads to. *)
Definition leads_to (f source target : string) : Prop := exists im, followed f source im target.

Lemma visit_target visited f source target :
  target ∈ (portable_visit visited f source).2 <-> leads_to f source target /\ target ∉ visited.
Proof.
  unfold portable_visit, leads_to, followed. destruct (isPortableGraphLeafTarget f) eqn:El; cbn [snd].
  - apply leaf_decided in El. split; [by intros ?%elem_of_nil|]. by intros [(im & ? & _) _].
  - assert (Hleaf : ~ leaf f) by (rewrite <- leaf_decided; congruence).
    rewrite list_elem_of_In, filter_In, <- list_elem_of_In, elem_targets, negb_true_iff, <- not_true_iff_false, existsb_eqb.
    split; intros [(im & Hex) H2]; (split; [|done]); exists im.
    + destruct Hex as [Him Hf]. apply (portable_import_spec f source im Him) in Hf as (Hval & Hp & Hs). done.
    + destruct Hex as (_ & Hval & Hp & Hs). split; [by destruct Hval|]. apply portable_import_spec; [by destruct Hval|done].
Qed.

Definition weight (f : string) : nat := match source_of f with Some source => length (extractImports source) | None => 0 end.

Lemma omap_length {A B} (f : A -> option B) l : (length (omap f l) <= length l)%nat.
Proof. induction l as [|x l IH]; cbn; [lia|]. destruct (f x); cbn; lia. Qed.

Lemma List_filter_length {A} (f : A -> bool) l : (length (List.filter f l) <= length l)%nat.
Proof. induction l as [|x l IH]; cbn; [lia|]. destruct (f x); cbn; lia. Qed.

Lemma visit_length visited f source : source_of f = Some source -> (length (portable_visit visited f source).2 <= weight f)%nat.
Proof.
  intros Hs. unfold weight, portable_visit. rewrite Hs. destruct (isPortableGraphLeafTarget f); cbn; [lia|].
  etransitivity; [apply List_filter_length|]. etransitivity; [apply omap_length|]. by rewrite length_map.
Qed.

(** The pushes the unvisited files can still make. *)
Definition left_over (files visited : list string) : nat := sum_list_with weight (filter (.∉ visited) files).

Lemma left_over_visit files visited f : f ∈ files -> f ∉ visited -> (weight f + left_over files (f :: visited) <= left_over files visited)%nat.
Proof.
  unfold left_over. intros Hf Hv.
  assert (Hmono : forall l, (sum_list_with weight (filter (.∉ f :: visited) l) <= sum_list_with weight (filter (.∉ visited) l))%nat).
  { induction l as [|x l IH]; [done|]. rewrite !filter_cons. destruct (decide (x ∉ visited)), (decide (x ∉ f :: visited)); cbn; try lia.
    exfalso. apply n. set_solver. }
  induction files as [|x l IH]; [by apply not_elem_of_nil in Hf|]. rewrite !filter_cons. destruct (decide (x = f)) as [->|Hne].
  - rewrite decide_False by set_solver. rewrite decide_True by done. cbn. specialize (Hmono l). lia.
  - assert (Hl : f ∈ l) by set_solver. specialize (IH Hl).
    destruct (decide (x ∉ visited)), (decide (x ∉ f :: visited)); cbn; try lia. exfalso. apply n. set_solver.
Qed.

(** The state of the walk: what was visited is reachable and readable, what is
    pending is reachable, nothing reachable in one step is lost, and the violations
    are those of the visited files. *)
Record walk_inv (visited pending : list string) (violations : list Violation) : Prop := {
  wi_reach : forall f, f ∈ visited \/ f ∈ pending -> PortableReach f;
  wi_read : forall f, f ∈ visited -> is_Some (source_of f);
  wi_entry : forall f, f ∈ PORTABLE_ENTRYPOINTS -> f ∈ visited \/ f ∈ pending;
  wi_closed : forall f source target, f ∈ visited -> source_of f = Some source -> leads_to f source target -> target ∈ visited \/ target ∈ pending;
  wi_violations : forall v, v ∈ violations <-> exists f source, f ∈ visited /\ source_of f = Some source /\ file_violation f source v;
}.

Lemma walk_inv_init : walk_inv [] (rev PORTABLE_ENTRYPOINTS) [].
Proof.
  assert (Hrev : forall f, f ∈ rev PORTABLE_ENTRYPOINTS <-> f ∈ PORTABLE_ENTRYPOINTS).
  { intros f. rewrite !list_elem_of_In. symmetry. apply in_rev. }
  split.
  - intros f [Hf|Hf]; [by apply not_elem_of_nil in Hf|]. apply pr_entry. by apply Hrev.
  - by intros f ?%not_elem_of_nil.
  - intros f Hf. right. by apply Hrev.
  - by intros f source target ?%not_elem_of_nil.
  - intros v. rewrite elem_of_nil. split; [done|]. by intros (f & source & ?%not_elem_of_nil & _).
Qed.

Lemma walk_inv_skip visited pending violations f :
  walk_inv visited (f :: pending) violations -> f ∈ visited -> walk_inv visited pending violations.
Proof.
  intros [I1 I2 I3 I4 I5] Hf. split; try done.
  - intros g Hg. apply I1. rewrite elem_of_cons. tauto.
  - intros g Hg. destruct (I3 g Hg) as [?|[->|?]%elem_of_cons]; auto.
  - intros g source target Hg Hs Hl. destruct (I4 g source target Hg Hs Hl) as [?|[->|?]%elem_of_cons]; auto.
Qed.

Lemma walk_inv_visit visited pending violations f source :
  walk_inv visited (f :: pending) violations -> source_of f = Some source ->
  walk_inv (f :: visited) (rev (portable_visit (f :: visited) f source).2 ++ pending) (violations ++ (portable_visit (f :: visited) f source).1).
Proof.
  intros [I1 I2 I3 I4 I5] Hs.
  assert (Hrev : forall g, g ∈ rev (portable_visit (f :: visited) f source).2 <-> leads_to f source g /\ g ∉ f :: visited).
  { intros g. rewrite <- visit_target, !list_elem_of_In. symmetry. apply in_rev. }
  split.
  - intros g. rewrite elem_of_app, Hrev, elem_of_cons. intros [[->|Hg]|[[(im & Him) _]|Hg]].
    + apply I1. right. left.
    + apply I1. by left.
    + apply (pr_import f source im); try done. apply I1. right. left.
    + apply I1. right. by right.
  - intros g [->|Hg]%elem_of_cons; [by eexists|by apply I2].
  - intros g Hg. rewrite elem_of_app, !elem_of_cons. destruct (I3 g Hg) as [?|[->|?]%elem_of_cons]; auto.
  - intros g src target Hg Hgs Hl. rewrite elem_of_app, Hrev. destruct (decide (target ∈ f :: visited)) as [|Hnot]; [by left|]. right.
    apply elem_of_cons in Hg as [->|Hg]; [left; by simplify_eq|]. right.
    rewrite elem_of_cons in Hnot. destruct (I4 g src target Hg Hgs Hl) as [?|[->|?]%elem_of_cons]; [exfalso; auto|exfalso; auto|done].
  - intros v. rewrite elem_of_app, visit_violation, I5. setoid_rewrite elem_of_cons. naive_solver.
Qed.

(** When nothing is pending, everything reachable was visited. *)
Lemma walk_inv_done visited violations f : walk_inv visited [] violations -> PortableReach f -> f ∈ visited.
Proof.
  intros [I1 I2 I3 I4 I5]. induction 1 as [f Hf|f source im target _ IH Hs Him].
  - destruct (I3 f Hf) as [|Hn]; [done|]. by apply not_elem_of_nil in Hn.
  - destruct (I4 f source target IH Hs) as [|Hn]; [by exists im|done|]. by apply not_elem_of_nil in Hn.
Qed.

Definition exact_outcome (r : option (res (list Violation))) : Prop :=
  (exists violations, r = Some (Ok violations) /\ (forall f, PortableReach f -> is_Some (source_of f)) /\
     forall v, v ∈ violations <-> exists f source, PortableReach f /\ source_of f = Some source /\ file_violation f source v) \/
  exists f, PortableReach f /\ source_of f = None /\ r = Some (Throw (read_failure (ROOT +:+ f))).

Lemma portable_loop_exact files fuel visited pending violations :
  (forall f, PortableReach f -> f ∈ files) -> walk_inv visited pending violations ->
  (length pending + left_over files visited < fuel)%nat -> exact_outcome (portable_loop fuel visited pending violations).
Proof.
  intros Hfiles. revert visited pending violations. induction fuel as [|fuel IH]; intros visited pending violations Hinv Hfuel; [lia|].
  cbn [portable_loop]. destruct pending as [|f pending].
  - left. exists violations. pose proof (walk_inv_done visited violations) as Hdone. destruct Hinv as [I1 I2 I3 I4 I5].
    split_and!; [done|intros f Hf; apply I2; by apply Hdone|]. intros v. rewrite I5.
    split; intros (f & source & Hf & Hs & Hv); exists f, source; split_and!; try done; [apply I1; by left|by apply Hdone].
  - cbn in Hfuel. destruct (existsb (String.eqb f) visited) eqn:Ev.
    + apply existsb_eqb in Ev. apply IH; [by eapply walk_inv_skip|lia].
    + assert (Hv : f ∉ visited) by (intros Hin; apply existsb_eqb in Hin; congruence).
      assert (Hf : PortableReach f) by (destruct Hinv as [I1 _ _ _ _]; apply I1; right; left).
      unfold read_source. fold (source_of f). destruct (source_of f) as [source|] eqn:Es; [|right; eauto].
      pose proof (walk_inv_visit _ _ _ _ _ Hinv Es) as Hinv'. pose proof (visit_length (f :: visited) f source Es) as Hlen.
      pose proof (left_over_visit files visited f (Hfiles f Hf) Hv) as Hleft.
      destruct (portable_visit (f :: visited) f source) as [errors targets]. apply IH; [done|]. rewrite length_app, length_rev. cbn in *. lia.
Qed.

End portable.

(** A small tree: one entry point imports another and uses the runtime API; the
    others are empty. *)
Definition sample_customer : string :=
  "import { a } from './values.ts';" +:+ LF +:+ "const x = Deno.args;" +:+ LF.
Definition sample_host : LintHost := {|
  ROOT := "/r/";
  relative := fun _ to => slice 3 to;
  readTextFile := fun path =>
    if path === "/r/packages/sdk/src/customer.ts" then Some sample_customer
    else if existsb (fun f => String.eqb ("/r/" +:+ f) path) PORTABLE_ENTRYPOINTS then Some "" else None;
  run_git := fun _ _ => mkGitOutput 0 [] []
|}.
Definition sample_arch : ArchHost := {|
  read_failure := fun path => mkExn "NotFound" path; walk_dir := fun _ _ => ([], None); arch_cwd := "/r" |}.

Definition sample_imports (f : string) : list ImportRef :=
  match source_of (H := sample_host) f with Some source => extractImports source | None => [] end.

Lemma sample_reach f : PortableReach (H := sample_host) f -> f ∈ PORTABLE_ENTRYPOINTS.
Proof.
  assert (Hstep : Forall (fun f => Forall (fun im => forall source target, source_of (H := sample_host) f = Some source ->
    followed f source im target -> target ∈ PORTABLE_ENTRYPOINTS) (sample_imports f)) PORTABLE_ENTRYPOINTS).
  { repeat (apply Forall_cons; split; [vm_compute sample_imports; repeat (apply Forall_cons; split)|]); try apply Forall_nil; try done.
    vm_compute source_of. intros source target [= <-] (_ & _ & (_ & Ht & _) & _). vm_compute in Ht. injection Ht as <-.
    apply list_elem_of_In. vm_compute. tauto. }
  induction 1 as [f Hf|f source im target Hr IH Hs Him]; [done|].
  rewrite Forall_forall in Hstep. specialize (Hstep f IH). rewrite Forall_forall in Hstep.
  apply (Hstep im) with (source := source); [|done|done]. unfold sample_imports. rewrite Hs. by destruct Him as (_ & [? _] & _).
Qed.


(** ** Where imports point *)
Definition plain_segment (p : string) : Prop := p <> "" /\ p <> "." /\ p <> "..".

(** A resolved import has only plain segments, however many times the specifier
    goes up. *)
Theorem merged_plain specifier fileRel :
  Forall plain_segment (removelast (js_split 47 fileRel)) -> Forall plain_segment (merged_path specifier fileRel).
Proof.
  unfold merged_path. generalize (removelast (js_split 47 fileRel)) as merged. generalize (js_split 47 specifier) as parts.
  induction parts as [|p parts IH]; intros merged Hm; [done|]. cbn [merge_parts].
  destruct (bool_decide_reflect (p = ".")) as [|H1]; [by apply IH|]. destruct (bool_decide_reflect (p = "")) as [|H2]; [by apply IH|].
  cbn [orb]. destruct (bool_decide_reflect (p = "..")) as [|H3]; apply IH.
  - clear -Hm. induction merged as [|x [|y l] IH]; [done|constructor|]. inversion Hm; subst. constructor; [done|by apply IH].
  - apply Forall_app. split; [done|]. by repeat constructor.
Qed.

(** The scripts' own tests of the resolver and of the rules. *)
Example arch_rules_ex :
  (resolveRelativeImportTarget "../../../requests/application/ports.ts" "packages/sdk/src/adapters/nostr/events/events.ts",
   isAllowedSdkRequestImport "packages/sdk/src/attachments/upload.ts" "packages/sdk/src/requests/application/query-service.ts",
   map vi_code (checkPackageFile "sdk" "packages/sdk/src/attachments/upload.ts" "import { createQueryService } from '../requests/application/query-service.ts';"),
   map vi_code (checkPackageFile "sdk" "packages/sdk/src/index.ts" "export type { Query } from './requests/domain/types.ts';"),
   map vi_code (checkPackageFile "protocol" "packages/protocol/src/mod.ts" "import { x } from '@anchr/sdk';"),
   map vi_code (checkPublicSurfaceFile "examples/a/mod.ts" "import { x } from '../../packages/sdk/src/index.ts';"))
  = (Some "packages/sdk/src/requests/application/ports.ts", false, ["E026"], ["E026"; "E029"], ["E025"], ["E023"]).
Proof. vm_compute. reflexivity. Qed.

(** The pattern of an import starts at the line break before it: an import that is
    not on the first line is reported one line too early, and the opt-out is looked
    for on that line. *)
Definition marked_import : string := "const a = 1;" +:+ LF +:+ "import fs from 'node:fs'; // allow-arch: needed here".
Definition marked_before : string := "// allow-arch: about a" +:+ LF +:+ "import fs from 'node:fs';".
Example opt_out_line_off :
  (map im_line (extractImports marked_import), map (lineAllowsArch marked_import) [1; 2],
   map im_line (extractImports marked_before), map (lineAllowsArch marked_before) [1; 2],
   map (fun s => map (fun im => (portable_import "packages/sdk/src/customer.ts" s im).1 === []) (extractImports s)) [marked_import; marked_before])
  = ([1], [false; true], [1], [true; false], [[false]; [true]])%nat.
Proof. vm_compute. reflexivity. Qed.

(** An import for its side effects has no [from]: it is not seen, and its text is
    part of the next import that has one. *)
Example side_effect_import_unseen :
  map im_specifier (extractImports ("import 'node:fs';" +:+ LF +:+ "import { a } from './a.ts';")) = ["./a.ts"].
Proof. vm_compute. reflexivity. Qed.

(** The rules on package imports do not look for the opt-out at all. *)
Example import_rules_ignore_opt_out :
  map vi_code (checkPackageFile "protocol" "packages/protocol/src/mod.ts" "import { x } from '@anchr/sdk'; // allow-arch: reason") = ["E025"].
Proof. vm_compute. reflexivity. Qed.
