(* ===== verification/ShipGate.v ===== *)
(** * Pre-ship verification hooks

    [scripts/silent-bypass-verify.ts] and [scripts/arch-lint-llm-verify.ts]: which
    shell commands ship the work, which changed files need a review, and the record
    that binds a review to the hash of the diff.  The two scripts are the same code
    with other names, thresholds and messages, collected in [GateConfig].

    [git], the clock and the environment are a [ShipHost], taken anew at each run;
    the files are a state, which writing the record changes.  [Deno.chdir] to the
    root reported by [git] succeeds. *)

From S2P Require Import Prelude JsNum JsMap JsString JsValue PreimageStore JsonCodec C2pa Proofmode PreimageFile Regex LintScan.

Definition SHIPPING_VERBS : list (string * string) := [("git", "push"); ("gh", "pr")].
Definition IN_SCOPE_RE : regex := rx "^packages\/[^/]+\/src\/.+\.(ts|tsx)$".

Record VerificationRecord := mkRecord { vr_diff_sha256 : string; vr_reviewed_at : string; vr_files : list string }.

(** ** Commands *)

(** [buf] holds the current segment, last character first. *)
Fixpoint segments (buf l : list Ascii.ascii) : list string :=
  match l with
  | [] => [of_chars (rev buf)]
  | c :: rest =>
      let plain :=
        if is_c 59 c || is_c 124 c || is_c 10 c then of_chars (rev buf) :: segments [] rest
        else segments (c :: buf) rest in
      match rest with
      | next :: rest' =>
          if (is_c 38 c && is_c 38 next) || (is_c 124 c && is_c 124 next) then of_chars (rev buf) :: segments [] rest'
          else plain
      | [] => plain
      end
  end.

Definition commandSegments (command : string) : list string :=
  List.filter str_truthy (map trim (segments [] (chars command))).

(** [s.split(re)] for a pattern that matches no empty text and has no captures. *)
Fixpoint split_at (l : list Ascii.ascii) (pos : nat) (ms : list found) : list string :=
  match ms with
  | [] => [of_chars (drop pos l)]
  | m :: rest => of_chars (take (fd_index m - pos) (drop pos l)) :: split_at l (fd_index m + String.length (fd_text m)) rest
  end.
Definition split_regex (r : regex) (s : string) : list string := split_at (chars s) 0 (matchAll r s).

(** [VAR=value] *)
Definition is_assignment (tok : string) : bool :=
  match index_of "=" (chars tok) with
  | Some (S eq) => test (rx "^[A-Za-z_][A-Za-z0-9_]*$") (slice0 (S eq) tok)
  | _ => false
  end.

Fixpoint skip_assignments (tokens : list string) : list string :=
  match tokens with
  | tok :: rest => if is_assignment tok then skip_assignments rest else tokens
  | [] => []
  end.

Definition extractHead (segment : string) : string * list string :=
  match skip_assignments (split_regex (rx "\s+") segment) with
  | [] => ("", [])
  | tok :: args => (List.last (js_split 47 tok) tok, args)
  end.

Definition isShippingCommand (command : string) : bool :=
  existsb (fun seg =>
    let '(head, args) := extractHead seg in
    str_truthy head && existsb (fun '(verb, arg) => (head === verb) && (List.hd_error args === Some arg)) SHIPPING_VERBS)
    (commandSegments command).

(** ** The gate *)
Record GateConfig := mkGateConfig {
  gc_base_env : string;
  gc_record_env : string;
  gc_record_name : string;
  gc_min_lines : nat;
  gc_skip : string -> bool;
  gc_label : string;
  (** the texts of a refusal_text: no record (before and after the list), and a stale one *)
  gc_needed : string * string;
  gc_stale : string * string;
}.

Record ShipHost := mkShipHost {
  (** [git] with the working directory and the arguments *)
  sh_git : string -> list string -> GitOutput;
  sh_cwd : string;
  sh_env : string -> option string;
  (** [new Date().toISOString()] *)
  sh_now : string;
  (** the error of writing a file, if any *)
  sh_write_error : string -> option exn;
}.

Notation FileTree := (string -> option string).

Definition resolve_path (cwd path : string) : string := if startsWith "/" path then path else cwd +:+ "/" +:+ path.
Definition put_file (path text : string) (fs : FileTree) : FileTree := fun p => if String.eqb p path then Some text else fs p.

(** [inScope.sort()] *)
Fixpoint insert_string (x : string) (l : list string) : list string :=
  match l with [] => [x] | y :: l' => if String.leb x y then x :: l else y :: insert_string x l' end.
Definition sort_strings (l : list string) : list string := fold_right insert_string [] l.

Section gate.
Context `{N : Noble} `{J : JSON} `{P : JSONPretty}.
Context (cfg : GateConfig) (host : ShipHost).

Definition runGit (cwd : string) (args : list string) : bool * string :=
  let out := sh_git host cwd args in (Z.eqb (git_code out) 0, utf8_text (git_stdout out)).

Definition large_enough (root : string) (fs : FileTree) (f : string) : bool :=
  match fs (resolve_path root f) with
  | Some text => Nat.leb (gc_min_lines cfg) (length (js_split 10 text))
  | None => false
  end.

Definition inScopeChangedFiles (root : string) (fs : FileTree) (base : string) : list string :=
  match runGit root ["diff"; "--name-only"; base +:+ "...HEAD"] with
  | (false, _) => []
  | (true, out) =>
      let files := List.filter str_truthy (map trim (js_split 10 out)) in
      sort_strings (List.filter (fun f => test IN_SCOPE_RE f && negb (gc_skip cfg f) && large_enough root fs f) files)
  end.

(** The digest in lower-case hexadecimal. *)
Definition diffHash (root base : string) (files : list string) : string :=
  match files with
  | [] => ""
  | _ =>
      match runGit root (["diff"; base +:+ "...HEAD"; "--"] ++ files) with
      | (false, _) => ""
      | (true, out) => hex_string (sha256 (utf8 out))
      end
  end.

Definition readRecord (root : string) (fs : FileTree) (path : string) : option VerificationRecord :=
  match fs (resolve_path root path) with
  | None => None
  | Some raw =>
      match JSON_parse raw with
      | None => None
      | Some parsed =>
          match prop "diff_sha256" parsed, prop "reviewed_at" parsed, prop "files" parsed with
          | VStr h, VStr t, VArr files => Some (mkRecord h t (map js_string files))
          | _, _, _ => None
          end
      end
  end.

Definition emitDeny (reason : string) : console_line :=
  OutLine (JSON_stringify (VObj [("hookSpecificOutput", VObj [("hookEventName", VStr "PreToolUse"); ("permissionDecision", VStr "deny");
    ("permissionDecisionReason", VStr reason)])])).
Definition emitAllow (message : string) : console_line :=
  OutLine (JSON_stringify (VObj [("hookSpecificOutput", VObj [("hookEventName", VStr "PreToolUse"); ("additionalContext", VStr message)])])).

Definition repoRoot : string :=
  match runGit (sh_cwd host) ["rev-parse"; "--show-toplevel"] with (true, out) => trim out | (false, _) => sh_cwd host end.
Definition gate_base : string := opt_default "origin/main" (sh_env host (gc_base_env cfg)).
Definition recordPath : string := opt_default (repoRoot +:+ "/" +:+ gc_record_name cfg) (sh_env host (gc_record_env cfg)).

Definition record_json (r : VerificationRecord) : jsval :=
  VObj [("diff_sha256", VStr (vr_diff_sha256 r)); ("reviewed_at", VStr (vr_reviewed_at r)); ("files", VArr (map VStr (vr_files r)))].

(** [--record] *)
Definition writeVerificationRecord (fs : FileTree) : FileTree * list console_line * script_end :=
  let files := inScopeChangedFiles repoRoot fs gate_base in
  match files with
  | [] => (fs, [OutLine (gc_label cfg +:+ ": no in-scope files in the current diff; no record needed.")], ScriptExit 0)
  | _ =>
      let record := mkRecord (diffHash repoRoot gate_base files) (sh_now host) files in
      match sh_write_error host (resolve_path repoRoot recordPath) with
      | Some e => (fs, [], ScriptThrow e)
      | None =>
          (put_file (resolve_path repoRoot recordPath) (JSON_pretty (record_json record) +:+ LF) fs,
           [OutLine ("✓ wrote " +:+ recordPath +:+ " (" +:+ pretty (Z.of_nat (length files)) +:+ " file(s))")], ScriptExit 0)
      end
  end.

Definition refusal_text (record : option VerificationRecord) (files : list string) : string :=
  let fileList := js_join LF (map (fun f => "  - " +:+ f) files) in
  match record with
  | None => (gc_needed cfg).1 +:+ fileList +:+ LF +:+ LF +:+ (gc_needed cfg).2
  | Some r => (gc_stale cfg).1 +:+ "(reviewed " +:+ vr_reviewed_at r +:+ "). Files currently in scope:" +:+ LF +:+ LF +:+
      fileList +:+ LF +:+ LF +:+ (gc_stale cfg).2
  end.

(** What the hook answers on a shipping command. *)
Definition decide_shipping (fs : FileTree) : list console_line :=
  let files := inScopeChangedFiles repoRoot fs gate_base in
  match files with
  | [] => []
  | _ =>
      let currentHash := diffHash repoRoot gate_base files in
      let record := readRecord repoRoot fs recordPath in
      match record with
      | Some r =>
          if vr_diff_sha256 r === currentHash
          then [emitAllow (gc_label cfg +:+ ": this exact diff was reviewed at " +:+ vr_reviewed_at r +:+ "; allowed.")]
          else [emitDeny (refusal_text record files)]
      | None => [emitDeny (refusal_text record files)]
      end
  end.

(** The payload's command; values other than strings, outside the payload's type,
    ship nothing. *)
Definition payload_ships (payload : jsval) : res bool :=
  match payload with
  | VNull | VUndef => Throw (mkExn "TypeError" "Cannot read properties of null (reading 'tool_name')")
  | _ =>
      Ok ((prop "tool_name" payload === VStr "Bash") &&
          match prop "tool_input" payload with
          | VNull | VUndef => isShippingCommand ""
          | input => match prop "command" input with VStr command => isShippingCommand command | _ => false end
          end)
  end.

Definition gate_hook (fs : FileTree) (stdin : list (list Z)) : list console_line * script_end :=
  match JSON_parse (readStdin stdin) with
  | None => ([], ScriptExit 0)
  | Some payload =>
      match payload_ships payload with
      | Throw e => ([], ScriptThrow e)
      | Ok false => ([], ScriptExit 0)
      | Ok true => (decide_shipping fs, ScriptExit 0)
      end
  end.

Definition gate_main (fs : FileTree) (args : list string) (stdin : list (list Z)) : FileTree * list console_line * script_end :=
  if existsb (String.eqb "--record") args then writeVerificationRecord fs
  else let '(out, code) := gate_hook fs stdin in (fs, out, code).
End gate.

(** ** The two scripts *)
Definition silent_bypass : GateConfig := {|
  gc_base_env := "BYPASS_BASE"; gc_record_env := "BYPASS_RECORD"; gc_record_name := ".silent-bypass-verified.json";
  gc_min_lines := 50; gc_skip := fun _ => false; gc_label := "silent-bypass";
  gc_needed := ("Pre-ship verification needed." +:+ LF +:+ LF +:+
      "The current branch modifies load-bearing TypeScript that the check-silent-bypass skill has not reviewed:" +:+ LF +:+ LF,
      "Invoke /check-silent-bypass to scan for the three patterns " +:+
      "(unchecked branch, swallowed-error-as-success, claim-without-side-effect). " +:+
      "On a clean review the skill writes .silent-bypass-verified.json with the diff hash and the push will proceed.");
  gc_stale := ("Pre-ship verification stale." +:+ LF +:+ LF +:+ "The diff has changed since the last check-silent-bypass review ",
      "Re-invoke /check-silent-bypass to refresh the verification record.") |}.

Definition arch_lint_llm : GateConfig := {|
  gc_base_env := "ARCH_BASE"; gc_record_env := "ARCH_RECORD"; gc_record_name := ".arch-lint-llm-verified.json";
  gc_min_lines := 150;
  gc_skip := fun f => endsWith ".test.ts" f || endsWith ".test.tsx" f || endsWith ".d.ts" f; gc_label := "arch-lint-llm";
  gc_needed := ("Pre-ship architecture review needed." +:+ LF +:+ LF +:+
      "The current branch modifies substantial layer files that the arch-lint-llm skill has not reviewed:" +:+ LF +:+ LF,
      "Invoke /arch-lint-llm to scan for the six categories " +:+
      "(cohesion, hidden service locator, duplication, intimacy, SRP, domain leakage). " +:+
      "On a clean review the skill writes .arch-lint-llm-verified.json with the diff hash and the push will proceed.");
  gc_stale := ("Pre-ship architecture review stale." +:+ LF +:+ LF +:+ "The diff has changed since the last arch-lint-llm review ",
      "Re-invoke /arch-lint-llm to refresh the verification record.") |}.

Section gates.
Context `{N : Noble} `{J : JSON} `{P : JSONPretty}.
Definition bypass_main := gate_main silent_bypass.

(** The parts of [arch-lint-llm-verify.ts]. *)
Definition llm_isShippingCommand : string -> bool := isShippingCommand.
Definition llm_runGit := runGit.
Definition llm_diffHash := diffHash.
Definition llm_readRecord := readRecord.
Definition llm_repoRoot := repoRoot.
Definition llm_inScopeChangedFiles := inScopeChangedFiles arch_lint_llm.
Definition llm_writeVerificationRecord := writeVerificationRecord arch_lint_llm.
Definition llm_hook := gate_hook arch_lint_llm.
Definition llm_main := gate_main arch_lint_llm.
End gates.

(** The scripts' own tests of the parser. *)
Example ship_ex :
  (commandSegments "a && b || c ; d | e", extractHead "NODE_ENV=prod DEBUG=1 git push origin main", extractHead "/usr/local/bin/git push origin",
   extractHead "FOO=bar BAZ=qux",
   map isShippingCommand ["git push"; "NODE_ENV=prod git push --force-with-lease"; "cd repo && git push origin main"; "gh pr create --fill"; "/usr/bin/git push"],
   map isShippingCommand ["git status"; "git commit -m 'wip'"; "ls -la"; "echo 'remember to git push'"; "gh issue create --title foo"])
  = (["a"; "b"; "c"; "d"; "e"], ("git", ["push"; "origin"; "main"]), ("git", ["push"; "origin"]), ("", []),
     [true; true; true; true; true], [false; false; false; false; false]).
Proof. vm_compute. reflexivity. Qed.

(** A command put in the background starts a new command context, and [git] takes
    options before its subcommand: neither push is recognised. *)
Example unrecognised_pushes : map isShippingCommand ["sleep 1 & git push"; "git -C . push"] = [false; false].
Proof. vm_compute. reflexivity. Qed.

(** ** A review vouches for one diff

    The record written after a review against the hook that reads it at the next
    shipping command. *)

(** What the scripts rely on: a pretty-printed document followed by a line break
    parses back, for the values a document carries. *)
Class RecordLaws (J : JSON) (P : JSONPretty) := {
  parse_record v : json_ok v -> isRecord v = true -> JSON_parse (JSON_pretty v +:+ LF) = Some (json_norm v);
}.

Lemma norm_strings (l : list string) : json_norm (VArr (map VStr l)) = VArr (map VStr l).
Proof. cbn. f_equal. induction l as [|s l IH]; [done|]. cbn. by rewrite IH. Qed.

Lemma norm_record r : json_norm (record_json r) = record_json r.
Proof.
  unfold record_json. rewrite !json_norm_obj_cons, json_norm_obj_nil. cbn [keep_field]. by rewrite norm_strings.
Qed.

Lemma record_carried r : json_ok (record_json r).
Proof. unfold json_ok, record_json. cbn. induction (vr_files r) as [|f l IH]; [done|]. exact IH. Qed.

Lemma hex_string_inj a b : Forall is_byte a -> Forall is_byte b -> hex_string a = hex_string b -> a = b.
Proof.
  intros Ha Hb E. rewrite <- (@hex_decode toy_noble toy_noble_laws a Ha), <- (@hex_decode toy_noble toy_noble_laws b Hb). cbn. by rewrite E.
Qed.

Section binds.
Context `{N : Noble} `{J : JSON} `{P : JSONPretty} `{L : !RecordLaws J P}.
Context (cfg : GateConfig).

(** The record read back is the record written. *)
Lemma readRecord_put root fs path r :
  fs (resolve_path root path) = Some (JSON_pretty (record_json r) +:+ LF) -> readRecord root fs path = Some r.
Proof.
  intros Hf. unfold readRecord. rewrite Hf, parse_record by (apply record_carried || done). rewrite norm_record. cbn.
  destruct r as [h t files]. cbn. do 2 f_equal. rewrite List.map_map. apply List.map_id.
Qed.

Lemma record_written host fs fs' out : writeVerificationRecord cfg host fs = (fs', out, ScriptExit 0) ->
  inScopeChangedFiles cfg host (repoRoot host) fs (gate_base cfg host) <> [] ->
  fs' (resolve_path (repoRoot host) (recordPath cfg host)) = Some (JSON_pretty (record_json
    (mkRecord (diffHash host (repoRoot host) (gate_base cfg host) (inScopeChangedFiles cfg host (repoRoot host) fs (gate_base cfg host)))
       (sh_now host) (inScopeChangedFiles cfg host (repoRoot host) fs (gate_base cfg host)))) +:+ LF).
Proof.
  unfold writeVerificationRecord. destruct (inScopeChangedFiles _ _ _ _ _) as [|f files]; [done|]. intros H _.
  destruct (sh_write_error host _); [done|]. injection H as <- _. unfold put_file. by rewrite String.eqb_refl.
Qed.

(** The diff of the files in scope, when [git] produces it. *)
Definition scoped_diff (host : ShipHost) (fs : FileTree) (d : string) : Prop :=
  let files := inScopeChangedFiles cfg host (repoRoot host) fs (gate_base cfg host) in
  files <> [] /\ runGit host (repoRoot host) (["diff"; gate_base cfg host +:+ "...HEAD"; "--"] ++ files) = (true, d).

Lemma scoped_hash host fs d : scoped_diff host fs d ->
  diffHash host (repoRoot host) (gate_base cfg host) (inScopeChangedFiles cfg host (repoRoot host) fs (gate_base cfg host)) = hex_string (sha256 (utf8 d)).
Proof. intros [Hne Hgit]. unfold diffHash. destruct (inScopeChangedFiles _ _ _ _ _); [done|]. by rewrite Hgit. Qed.

(** C35: where [git] prints the diff of the files in scope, a review vouches for
    exactly the diff it saw.  Once a record was written for a diff that [git] printed,
    and the record file is still what was written, the hook lets a shipping command
    through when [git] prints the reviewed diff again and refuses it, naming the stale
    review, when it prints one with another digest, whatever else changed in the
    repository.  (When printing the diff fails on both occasions the command is let
    through: [failed_diff_vouches].) *)
Theorem gate_binds_diff host1 host2 fs1 fs1' fs2 out d1 d2 :
  writeVerificationRecord cfg host1 fs1 = (fs1', out, ScriptExit 0) ->
  scoped_diff host1 fs1 d1 -> scoped_diff host2 fs2 d2 ->
  resolve_path (repoRoot host2) (recordPath cfg host2) = resolve_path (repoRoot host1) (recordPath cfg host1) ->
  fs2 (resolve_path (repoRoot host1) (recordPath cfg host1)) = fs1' (resolve_path (repoRoot host1) (recordPath cfg host1)) ->
  Forall is_byte (sha256 (utf8 d1)) -> Forall is_byte (sha256 (utf8 d2)) ->
  (d1 = d2 -> decide_shipping cfg host2 fs2 =
     [emitAllow (gc_label cfg +:+ ": this exact diff was reviewed at " +:+ sh_now host1 +:+ "; allowed.")]) /\
  (sha256 (utf8 d1) <> sha256 (utf8 d2) -> exists r, vr_reviewed_at r = sh_now host1 /\
     decide_shipping cfg host2 fs2 =
       [emitDeny (refusal_text cfg (Some r) (inScopeChangedFiles cfg host2 (repoRoot host2) fs2 (gate_base cfg host2)))]).
Proof.
  intros Hw Hd1 Hd2 Hpath Hfile Hb1 Hb2. pose proof (record_written _ _ _ _ Hw (proj1 Hd1)) as Hrec. rewrite <- Hfile, <- Hpath in Hrec.
  apply readRecord_put in Hrec. pose proof (scoped_hash _ _ _ Hd1) as H1. pose proof (scoped_hash _ _ _ Hd2) as H2.
  destruct Hd2 as [Hne2 _]. unfold decide_shipping. rewrite Hrec, H2. cbn [vr_diff_sha256 vr_reviewed_at].
  destruct (inScopeChangedFiles cfg host2 _ fs2 _) as [|f files] eqn:Ef; [done|]. rewrite H1. split.
  - intros ->. by rewrite bool_decide_true.
  - intros Hne. rewrite bool_decide_false; [by eexists (mkRecord _ _ _)|]. intros E. by apply Hne, hex_string_inj.
Qed.

(** Silence on a shipping command means nothing in scope changed: the hook refuses
    whenever no record exists. *)
Theorem gate_refuses_unreviewed host fs :
  inScopeChangedFiles cfg host (repoRoot host) fs (gate_base cfg host) <> [] ->
  fs (resolve_path (repoRoot host) (recordPath cfg host)) = None ->
  decide_shipping cfg host fs = [emitDeny (refusal_text cfg None (inScopeChangedFiles cfg host (repoRoot host) fs (gate_base cfg host)))].
Proof.
  intros Hne Hno. unfold decide_shipping, readRecord. rewrite Hno. by destruct (inScopeChangedFiles _ _ _ _ _).
Qed.
End binds.

(** ** Witness: two runs of the hook around a review *)
Definition line_codec : JSON := {|
  JSON_parse := fun s => match rev (chars s) with c :: l => codec_parse (of_chars (rev l)) | [] => None end;
  JSON_stringify := codec_stringify |}.

Lemma line_codec_laws : RecordLaws line_codec codec_pretty.
Proof.
  constructor. intros v Hok Hv. unfold JSON_parse, JSON_pretty, line_codec, codec_pretty.
  assert (Hc : chars (codec_stringify v +:+ LF) = chars (codec_stringify v) ++ [Ascii.ascii_of_nat 10]).
  { generalize (codec_stringify v) as t. induction t as [|c t IH]; [done|].
    change (c :: chars (t +:+ LF) = c :: (chars t ++ [Ascii.ascii_of_nat 10])). by rewrite IH. }
  rewrite Hc, rev_unit, rev_involutive, of_chars_chars. by apply (parse_stringify (JSONLaws := codec_laws)).
Qed.

Definition long_source : string := of_chars (repeat (Ascii.ascii_of_nat 10) 60).
Definition gate_host (diff now : string) : ShipHost := {|
  sh_git := fun _ args => match args with
    | "rev-parse" :: _ => mkGitOutput 0 (utf8 "/r") []
    | "diff" :: "--name-only" :: _ => mkGitOutput 0 (utf8 ("packages/sdk/src/x.ts" +:+ LF)) []
    | _ => mkGitOutput 0 (utf8 diff) []
    end;
  sh_cwd := "/r"; sh_env := fun _ => None; sh_now := now; sh_write_error := fun _ => None |}.
Definition gate_files : FileTree := fun p => if p === "/r/packages/sdk/src/x.ts" then Some long_source else None.

Definition after_review : FileTree := (writeVerificationRecord (N := toy_noble) (P := codec_pretty) silent_bypass (gate_host "+a" "t1") gate_files).1.1.

Lemma gate_binds_diff_witness :
  decide_shipping (N := toy_noble) (J := line_codec) silent_bypass (gate_host "+a" "t2") after_review =
    [emitAllow (J := line_codec) "silent-bypass: this exact diff was reviewed at t1; allowed."] /\
  exists r, vr_reviewed_at r = "t1" /\ decide_shipping (N := toy_noble) (J := line_codec) silent_bypass (gate_host "+b" "t2") after_review =
    [emitDeny (J := line_codec) (refusal_text silent_bypass (Some r) ["packages/sdk/src/x.ts"])].
Proof.
  pose proof (fun d2 => gate_binds_diff (N := toy_noble) (J := line_codec) (P := codec_pretty) (L := line_codec_laws) silent_bypass
    (gate_host "+a" "t1") (gate_host d2 "t2") gate_files after_review after_review
    (writeVerificationRecord (N := toy_noble) (P := codec_pretty) silent_bypass (gate_host "+a" "t1") gate_files).1.2 "+a" d2) as Hg.
  split.
  - refine (proj1 (Hg "+a" _ _ _ _ _ _ _) _); try (vm_compute; reflexivity); try (split; [vm_compute; discriminate|vm_compute; reflexivity]);
      repeat constructor; vm_compute; discriminate.
  - refine (proj2 (Hg "+b" _ _ _ _ _ _ _) _); try (vm_compute; reflexivity); try (split; [vm_compute; discriminate|vm_compute; reflexivity]);
      try (vm_compute; discriminate); repeat constructor; vm_compute; discriminate.
Defined.

(** When [git] lists the files but fails to print their diff, the digest is the empty
    text on both sides: a record written then vouches for every later run in which
    it fails again. *)
Definition failing_host (now : string) : ShipHost := {|
  sh_git := fun _ args => match args with
    | "rev-parse" :: _ => mkGitOutput 0 (utf8 "/r") []
    | "diff" :: "--name-only" :: _ => mkGitOutput 0 (utf8 ("packages/sdk/src/x.ts" +:+ LF)) []
    | _ => mkGitOutput 128 [] []
    end;
  sh_cwd := "/r"; sh_env := fun _ => None; sh_now := now; sh_write_error := fun _ => None |}.
Example failed_diff_vouches :
  decide_shipping (N := toy_noble) (J := line_codec) silent_bypass (failing_host "t2")
    (writeVerificationRecord (N := toy_noble) (P := codec_pretty) silent_bypass (failing_host "t1") gate_files).1.1 =
  [emitAllow (J := line_codec) "silent-bypass: this exact diff was reviewed at t1; allowed."].
Proof. vm_compute. reflexivity. Qed.
