(* ===== verification/LintInvariants.v ===== *)
(** * Invariant lint

    [scripts/lint-invariants.ts]: the invariants declared in the threat model, the
    tests that name them, and the lock file that pins the text of each.  The
    directory walk is the host's. *)

From S2P Require Import Prelude JsNum JsMap JsString JsValue PreimageStore JsonCodec C2pa Proofmode PreimageFile Regex LintScan.

Record InvViolation := mkInvViolation { iv_code : string; iv_message : string; iv_file : option string; iv_line : option nat }.
Record Invariant := mkInvariant { in_id : string; in_body : string; in_status : string; in_startLine : nat }.

(** ** The threat model *)
Definition detectStatus (body : string) : string :=
  match exec (rxi "\*\*Status:\*\*\s+`?([a-z-]+)(?:-PR-\d+)?`?") body with
  | None => "enforced"
  | Some m => if toLowerCase (capture 1 m) === "cross-referenced" then "cross-referenced" else "enforced"
  end.

Definition INV_HEADING : regex := rx "^### (INV-\d+):".

(** [flush]: the current invariant, if any, with the body read so far. *)
Definition flush_inv (cur : option (string * nat)) (bodyLines : list string) : list Invariant :=
  match cur with
  | None => []
  | Some (id, startLine) => let body := trim (js_join LF bodyLines) in [mkInvariant id body (detectStatus body) startLine]
  end.

Definition push_body (cur : option (string * nat)) (bodyLines : list string) (line : string) : list string :=
  match cur with Some _ => bodyLines ++ [line] | None => bodyLines end.

Fixpoint parse_inv (i : nat) (lines : list string) (inFence : bool) (cur : option (string * nat)) (bodyLines : list string) : list Invariant :=
  match lines with
  | [] => flush_inv cur bodyLines
  | line :: rest =>
      if startsWith "```" line then parse_inv (S i) rest (negb inFence) cur (push_body cur bodyLines line)
      else if inFence then parse_inv (S i) rest inFence cur (push_body cur bodyLines line)
      else
      match exec INV_HEADING line with
      | Some m => flush_inv cur bodyLines ++ parse_inv (S i) rest inFence (Some (capture 1 m, S i)) []
      | None =>
          if test (rx "^## ") line || test (rx "^### ") line then flush_inv cur bodyLines ++ parse_inv (S i) rest inFence None []
          else parse_inv (S i) rest inFence cur (push_body cur bodyLines line)
      end
  end.
Definition parseInvariants (md : string) : list Invariant := parse_inv 0 (js_split 10 md) false None [].

(** ** References in tests *)
Notation Refs := (jsmap string (list (string * nat))).

Definition add_ref (file : string) (line : nat) (refs : Refs) (id : string) : Refs :=
  jm_set id (opt_default [] (jm_get id refs) ++ [(file, line)]) refs.

(** The invariants one line names: annotated tests, metadata comments, Rust tests. *)
Definition line_refs (line : string) : list string :=
  map (capture 1) (matchAll (rx ("test\(\s*[" +:+ dquote +:+ "'`](INV-\d+):")) line) ++
  map (capture 1) (matchAll (rx "\/\/\s*(INV-\d+)\b") line) ++
  map (fun m => "INV-" +:+ padStart0 2 (capture 1 m)) (matchAll (rx "fn\s+inv_(\d+)_") line).

Fixpoint file_refs (file : string) (i : nat) (lines : list string) (inBlockComment : bool) (refs : Refs) : Refs :=
  match lines with
  | [] => refs
  | line :: rest =>
      if inBlockComment then file_refs file (S i) rest (negb (includes "*/" line)) refs
      else
        let opens := includes "/*" line && negb (includes "*/" line) in
        file_refs file (S i) rest opens (fold_left (add_ref file (S i)) (line_refs line) refs)
  end.

Definition SKIPPED_DIRS : regex := rx "\/(node_modules|dist|target|\.git|vendor)\/".
Definition skip_entry (path : string) : bool :=
  test SKIPPED_DIRS path || endsWith "lint-invariants.ts" path || endsWith "lint-invariants.test.ts" path.

(** [walk(ROOT, { includeDirs: false, exts })] of jsr:@std/fs *)
Class WalkHost := walk_sources : list string * option exn.

Section lint.
Context `{N : Noble} `{J : JSON} `{H : LintHost} `{W : WalkHost}.

Definition THREAT_MODEL : string := ROOT +:+ "docs/threat-model.md".
Definition LOCK_FILE : string := ROOT +:+ "docs/threat-model.lock.json".

Definition entry_refs (refs : Refs) (path : string) : Refs :=
  if skip_entry path then refs
  else match readTextFile path with
       | None => refs
       | Some content => file_refs path 0 (js_split 10 content) false refs
       end.

Definition collectTestReferences : res Refs :=
  match walk_sources with
  | (paths, None) => Ok (fold_left entry_refs paths [])
  | (_, Some e) => Throw e
  end.

Definition computeBodyHash (body : string) : string := "sha256:" +:+ hex_string (sha256 (utf8 body)).

Definition loadLock : jsval :=
  match readTextFile LOCK_FILE with
  | None => VObj []
  | Some raw => opt_default (VObj []) (JSON_parse raw)
  end.

(** ** The rules *)
Definition refs_of (refs : Refs) (id : string) : list (string * nat) := opt_default [] (jm_get id refs).

Definition rule_I001 (refs : Refs) (inv : Invariant) : list InvViolation :=
  if Nat.eqb (length (refs_of refs (in_id inv))) 0 then
    [mkInvViolation "I001"
      (in_id inv +:+ " declared with status=" +:+ in_status inv +:+ " but has no matching test. Add test(" +:+ dquote +:+ in_id inv +:+ ": ..." +:+ dquote +:+
       ") in TS, fn inv_" +:+ toLowerCase (slice 4 (in_id inv)) +:+ "_*() in Rust, or a // " +:+ in_id inv +:+ " metadata comment.")
      (Some (relative ROOT THREAT_MODEL)) (Some (in_startLine inv))]
  else [].

Definition rule_I002 (invariantIds : list string) (entry : string * list (string * nat)) : list InvViolation :=
  let '(id, locs) := entry in
  if existsb (String.eqb id) invariantIds then []
  else map (fun '(file, line) => mkInvViolation "I002"
    ("Test references " +:+ id +:+ " but it is not declared in docs/threat-model.md. Either declare it or remove the reference.")
    (Some (relative ROOT file)) (Some line)) locs.

Definition lock_violation (code message : string) : InvViolation := mkInvViolation code message (Some "docs/threat-model.lock.json") None.

(** [!entry.justification || entry.justification.trim() === ""] *)
Definition no_justification (entry : jsval) : res bool :=
  match prop "justification" entry with
  | VStr s => Ok (is_blank s)
  | v => if js_truthy v then Throw (mkExn "TypeError" "entry.justification.trim is not a function") else Ok true
  end.

Definition rule_I003 (lock : jsval) (inv : Invariant) : res (list InvViolation) :=
  let hash := computeBodyHash (in_body inv) in
  match lock with
  | VNull | VUndef => Throw (mkExn "TypeError" "Cannot read properties of null")
  | _ =>
      let entry := prop (in_id inv) lock in
      if negb (js_truthy entry) then
        Ok [lock_violation "I003" (in_id inv +:+ " is declared in threat-model.md but missing from threat-model.lock.json. Add an entry with hash=" +:+
              hash +:+ " and a justification.")]
      else
        blank ← no_justification entry;
        Ok ((if prop "hash" entry === VStr hash then []
             else [lock_violation "I003" (in_id inv +:+ " body hash drifted. Expected " +:+ js_string (prop "hash" entry) +:+ ", got " +:+ hash +:+
                    ". Update the lock entry with the new hash and a justification string explaining why the invariant changed.")]) ++
            (if (blank : bool) then [lock_violation "I003" (in_id inv +:+
                    " lock entry has empty justification. Describe why this invariant was added or changed.")] else []))
  end.

Definition rule_I004 (invariantIds : list string) (id : string) : list InvViolation :=
  if existsb (String.eqb id) invariantIds then []
  else [lock_violation "I004" (id +:+ " is in lock.json but not declared in threat-model.md. Remove the orphan lock entry or re-add the invariant.")].

(** A loop whose body may throw, its results one after another. *)
Fixpoint concat_res {A B} (f : A -> res (list B)) (l : list A) : res (list B) :=
  match l with
  | [] => Ok []
  | x :: l' => a ← f x; b ← concat_res f l'; Ok (a ++ b)
  end.

Definition inv_lint : res (list InvViolation) :=
  match readTextFile THREAT_MODEL with
  | None => Ok [mkInvViolation "I000" ("Missing " +:+ relative ROOT THREAT_MODEL +:+ ". Create it before running this lint.") None None]
  | Some md =>
      let invariants := parseInvariants md in
      let invariantIds := map in_id invariants in
      refs ← collectTestReferences;
      let lock := loadLock in
      drift ← concat_res (rule_I003 lock) invariants;
      keys ← object_entries lock;
      Ok (flat_map (rule_I001 refs) invariants ++ flat_map (rule_I002 invariantIds) refs ++ drift ++ flat_map (rule_I004 invariantIds) keys.*1)
  end.

Definition format_violation (v : InvViolation) : string :=
  let loc := match truthy (iv_file v) with
    | Some file => file +:+ match iv_line v with Some (S n) => ":" +:+ pretty (Z.of_nat (S n)) | _ => "" end
    | None => ""
    end in
  "[" +:+ iv_code v +:+ "] " +:+ loc +:+ (if str_truthy loc then "  " else "") +:+ iv_message v.

Definition inv_main : list console_line * script_end :=
  match inv_lint with
  | Throw e => ([], ScriptThrow e)
  | Ok [] => ([OutLine "✓ invariant lint passed"], ScriptExit 0)
  | Ok violations =>
      (ErrLine ("✗ invariant lint found " +:+ pretty (Z.of_nat (length violations)) +:+ " violation(s):" +:+ LF) ::
         map (fun v => ErrLine (format_violation v)) violations, ScriptExit 1)
  end.
End lint.

(** ** The invariant lint is exact

    It passes exactly when the invariants declared in the threat model are those the
    tests name and those the lock file pins with the hash of their text. *)

(** ** References *)

(** The invariants a file names outside block comments, with their lines. *)
Fixpoint file_names (i : nat) (lines : list string) (inBlockComment : bool) : list (string * nat) :=
  match lines with
  | [] => []
  | line :: rest =>
      if inBlockComment then file_names (S i) rest (negb (includes "*/" line))
      else map (fun id => (id, S i)) (line_refs line) ++ file_names (S i) rest (includes "/*" line && negb (includes "*/" line))
  end.

Definition add_name (file : string) (refs : Refs) (n : string * nat) : Refs := add_ref file n.2 refs n.1.

Lemma fold_left_map {A B C} (f : C -> B -> C) (g : A -> B) l c : fold_left f (map g l) c = fold_left (fun c a => f c (g a)) l c.
Proof. revert c. induction l as [|a l IH]; intros c; [done|]. cbn. by rewrite IH. Qed.

Lemma file_refs_names file i lines b refs : file_refs file i lines b refs = fold_left (add_name file) (file_names i lines b) refs.
Proof.
  revert i b refs. induction lines as [|line lines IH]; intros i b refs; [done|]. cbn [file_refs file_names]. destruct b; [by rewrite IH|].
  rewrite fold_left_app, <- IH, fold_left_map. done.
Qed.

(** The map: unique keys, no empty entry, and the recorded references. *)
Record refs_sound (refs : Refs) : Prop := { ro_wf : jm_wf refs; ro_some : forall id locs, jm_get id refs = Some locs -> locs <> [] }.

Lemma add_ref_ok file line refs id : refs_sound refs -> refs_sound (add_ref file line refs id).
Proof.
  intros [Hwf Hs]. split; [by apply jm_wf_set|]. intros id' locs. unfold add_ref. rewrite jm_get_set. case_bool_decide; [|apply Hs].
  intros [= <-]. by destruct (opt_default [] _).
Qed.

Lemma add_ref_get file line refs id id' : refs_of (add_ref file line refs id) id' = refs_of refs id' ++ (if decide (id' = id) then [(file, line)] else []).
Proof.
  unfold refs_of, add_ref. rewrite jm_get_set. case_decide as E; [subst; by rewrite bool_decide_true|].
  rewrite bool_decide_false by done. by rewrite app_nil_r.
Qed.

Lemma fold_names_ok file names refs : refs_sound refs -> refs_sound (fold_left (add_name file) names refs).
Proof. revert refs. induction names as [|n names IH]; intros refs Hr; [done|]. cbn. by apply IH, add_ref_ok. Qed.

Lemma fold_names_get file names refs id :
  refs_of (fold_left (add_name file) names refs) id <> [] <-> refs_of refs id <> [] \/ id ∈ names.*1.
Proof.
  revert refs. induction names as [|[id' line] names IH]; intros refs; cbn; [rewrite elem_of_nil; tauto|].
  rewrite IH, elem_of_cons. unfold add_name at 1. cbn [fst snd]. rewrite add_ref_get. case_decide as E.
  - split; [tauto|]. intros _. left. by destruct (refs_of refs id).
  - rewrite app_nil_r. tauto.
Qed.

Section exact.
Context `{N : Noble} `{J : JSON} `{H : LintHost} `{W : WalkHost}.

(** The tests among the walked files name the invariant. *)
Definition named_in (path : string) (id : string) : Prop :=
  skip_entry path = false /\ exists content, readTextFile path = Some content /\ id ∈ (file_names 0 (js_split 10 content) false).*1.

Lemma entry_refs_spec refs path : refs_sound refs ->
  refs_sound (entry_refs refs path) /\ forall id, refs_of (entry_refs refs path) id <> [] <-> refs_of refs id <> [] \/ named_in path id.
Proof.
  intros Hr. unfold entry_refs, named_in. destruct (skip_entry path); [split; [done|]; intros id; split; [auto|]; by intros [|[? _]]|].
  destruct (readTextFile path) as [content|]; [|split; [done|]; intros id; split; [auto|]; by intros [|(_ & ? & ? & _)]].
  rewrite file_refs_names. split; [by apply fold_names_ok|]. intros id. rewrite fold_names_get. naive_solver.
Qed.

Lemma collect_refs_spec paths refs : refs_sound refs ->
  refs_sound (fold_left entry_refs paths refs) /\
  forall id, refs_of (fold_left entry_refs paths refs) id <> [] <-> refs_of refs id <> [] \/ exists path, path ∈ paths /\ named_in path id.
Proof.
  revert refs. induction paths as [|path paths IH]; intros refs Hr; cbn.
  - split; [done|]. intros id. split; [auto|]. intros [|(p & ?%not_elem_of_nil & _)]; done.
  - destruct (entry_refs_spec refs path Hr) as [Hr' Hg]. destruct (IH _ Hr') as [H1 H2]. split; [done|]. intros id.
    rewrite H2, Hg. setoid_rewrite elem_of_cons. naive_solver.
Qed.

(** ** The rules *)
Lemma rule_I001_nil refs inv : rule_I001 refs inv = [] <-> refs_of refs (in_id inv) <> [].
Proof. unfold rule_I001. destruct (refs_of refs (in_id inv)); cbn; split; done. Qed.

Lemma rule_I002_nil ids id locs : locs <> [] -> rule_I002 ids (id, locs) = [] <-> id ∈ ids.
Proof.
  intros Hne. unfold rule_I002. rewrite <- existsb_eqb. destruct (existsb (String.eqb id) ids); [done|].
  destruct locs as [|[f l] locs]; [done|]. split; done.
Qed.

Lemma rule_I004_nil ids id : rule_I004 ids id = [] <-> id ∈ ids.
Proof. unfold rule_I004. rewrite <- existsb_eqb. destruct (existsb (String.eqb id) ids); done. Qed.

(** The lock file pins the invariant: the hash of its present text, with a reason. *)
Definition pinned (lock : jsval) (inv : Invariant) : Prop :=
  let entry := prop (in_id inv) lock in
  js_truthy entry = true /\ prop "hash" entry = VStr (computeBodyHash (in_body inv)) /\
  exists reason, prop "justification" entry = VStr reason /\ is_blank reason = false.

Lemma justified entry : no_justification entry = Ok false <-> exists reason, prop "justification" entry = VStr reason /\ is_blank reason = false.
Proof.
  unfold no_justification. destruct (prop "justification" entry) as [| |b|n|s|l|o|]; cbn [js_truthy].
  5: { split; [intros [= Hb]; by exists s|]. intros (r & [= ->] & ->). done. }
  all: split; [try destruct b; try destruct (num_truthy n); intros [=]|intros (r & [=] & _)].
Qed.

Lemma rule_I003_nil lock inv : rule_I003 lock inv = Ok [] <-> pinned lock inv.
Proof.
  unfold rule_I003, pinned. destruct lock as [| |b|n|s|l|o|]; try (cbn; split; [done|by intros (? & _)]).
  destruct (js_truthy (prop (in_id inv) (VObj o))); cbn [negb]; [|split; [done|by intros (? & _)]].
  rewrite <- justified, bind_Ok. set (entry := prop (in_id inv) (VObj o)). split.
  - intros (blank & Hb & [= Hn]). apply app_nil in Hn as [H1 H2]. destruct blank; [done|]. case_bool_decide; done.
  - intros (_ & Hh & Hj). exists false. split; [done|]. by rewrite bool_decide_true.
Qed.

Lemma concat_res_nil {A B} (f : A -> res (list B)) l : concat_res f l = Ok [] <-> forall x, x ∈ l -> f x = Ok [].
Proof.
  induction l as [|x l IH]; cbn; [split; [by intros _ ? ?%not_elem_of_nil|done]|]. setoid_rewrite elem_of_cons. rewrite bind_Ok. split.
  - intros (a & Ha & Hb). apply bind_Ok in Hb as (b & Hb & [= Hab]). apply app_nil in Hab as [-> ->].
    intros y [->|Hy]; [done|]. by apply IH.
  - intros Hall. exists []. split; [by apply Hall; left|]. rewrite (proj2 IH) by eauto. done.
Qed.

(** Declared, named by a walked test, and listed in the lock file. *)
Definition declared (md id : string) : Prop := exists inv, inv ∈ parseInvariants md /\ in_id inv = id.

Lemma declared_ids md id : id ∈ map in_id (parseInvariants md) <-> declared md id.
Proof. unfold declared. rewrite list_elem_of_In, in_map_iff. setoid_rewrite <- list_elem_of_In. naive_solver. Qed.

Lemma refs_declared md refs : refs_sound refs ->
  (forall e, e ∈ refs -> rule_I002 (map in_id (parseInvariants md)) e = []) <-> (forall id, refs_of refs id <> [] -> declared md id).
Proof.
  intros [Hwf Hs]. split.
  - intros Hr id Hid. unfold refs_of in Hid. destruct (jm_get id refs) as [locs|] eqn:E; [|done]. apply declared_ids.
    apply (rule_I002_nil _ id locs); [by eapply Hs|]. apply Hr. by apply jm_get_Some_in.
  - intros Hd [id locs] He. apply jm_get_in in He; [|done]. apply rule_I002_nil; [by eapply Hs|]. apply declared_ids, Hd.
    unfold refs_of. rewrite He. by eapply Hs.
Qed.

(** C39: the invariant lint passes exactly when the threat model can be read and the
    three accounts agree: the invariants it declares are those the walked tests
    name, each is pinned in the lock file by the hash of its present text with a
    reason, and the lock file lists no other. *)
Theorem invariant_lint_exact :
  inv_main.2 = ScriptExit 0 <-> exists md paths keys,
    readTextFile THREAT_MODEL = Some md /\ walk_sources = (paths, None) /\ object_entries loadLock = Ok keys /\
    (forall id, declared md id <-> exists path, path ∈ paths /\ named_in path id) /\
    (forall inv, inv ∈ parseInvariants md -> pinned loadLock inv) /\
    (forall id, id ∈ keys.*1 -> declared md id).
Proof.
  assert (Hmain : inv_main.2 = ScriptExit 0 <-> inv_lint = Ok []).
  { unfold inv_main. destruct inv_lint as [[|v vs]|e]; cbn; split; try done. }
  rewrite Hmain. unfold inv_lint. destruct (readTextFile THREAT_MODEL) as [md|]; [|split; [done|by intros (? & ? & ? & ? & _)]].
  rewrite bind_Ok. setoid_rewrite bind_Ok. setoid_rewrite bind_Ok. unfold collectTestReferences.
  destruct walk_sources as [paths [e|]]; [split; [by intros (? & ? & _)|by intros (? & ? & ? & _ & ? & _)]|].
  destruct (collect_refs_spec paths [] ltac:(split; [apply jm_wf_empty|done])) as [Hok Hget].
  assert (Hrefs : forall id, refs_of (fold_left entry_refs paths []) id <> [] <-> exists path, path ∈ paths /\ named_in path id).
  { intros id. rewrite Hget. cbn. naive_solver. }
  split.
  - intros (refs & [= <-] & drift & Hd & keys & Hk & [= Hn]). apply app_nil in Hn as [H1 Hn]. apply app_nil in Hn as [H2 Hn].
    apply app_nil in Hn as [-> H4]. rewrite flat_map_nil in H1. rewrite flat_map_nil in H2. rewrite flat_map_nil in H4. rewrite concat_res_nil in Hd.
    exists md, paths, keys. split_and!; try done.
    + intros id. rewrite <- Hrefs. split; [|by apply refs_declared]. intros (inv & Hinv & <-). by apply rule_I001_nil, H1.
    + intros inv Hinv. by apply rule_I003_nil, Hd.
    + intros id Hid. by apply declared_ids, rule_I004_nil, H4.
  - intros (md' & paths' & keys & [= <-] & [= <-] & Hk & Hdecl & Hpin & Hkeys).
    eexists. split; [done|]. exists []. split; [apply concat_res_nil; intros inv Hinv; by apply rule_I003_nil, Hpin|].
    exists keys. split; [done|]. f_equal. repeat (apply app_nil; split); try done; apply flat_map_nil.
    + intros inv Hinv. apply rule_I001_nil, Hrefs, Hdecl. by exists inv.
    + apply refs_declared; [done|]. intros id Hid. by apply Hdecl, Hrefs.
    + intros id Hid. by apply rule_I004_nil, declared_ids, Hkeys.
Qed.
End exact.

(** Headings inside a fence are text; a heading of the same or a higher level ends
    the invariant. *)
Example parse_inv_ex :
  map (fun inv => (in_id inv, in_body inv, in_status inv, in_startLine inv))
    (parseInvariants (js_join LF ["### INV-01: one"; "**Status:** `cross-referenced`"; "```"; "### INV-99: not one"; "```"; "## Next"; "### INV-02: two"; "text"]))
  = [("INV-01", js_join LF ["**Status:** `cross-referenced`"; "```"; "### INV-99: not one"; "```"], "cross-referenced", 1%nat);
     ("INV-02", "text", "enforced", 7%nat)].
Proof. vm_compute. reflexivity. Qed.

Definition inv_host (test_text : string) : LintHost := {|
  ROOT := "/r/"; relative := fun _ to => slice 3 to;
  readTextFile := fun path =>
    if path === "/r/docs/threat-model.md" then Some ("### INV-01: one" +:+ LF +:+ "text")
    else if path === "/r/docs/threat-model.lock.json" then Some "lock" else if path === "/r/a.test.ts" then Some test_text else None;
  run_git := fun _ _ => mkGitOutput 0 [] [] |}.
Definition lock_codec (hash : string) : JSON := {|
  JSON_parse := fun _ => Some (VObj [("INV-01", VObj [("hash", VStr hash); ("justification", VStr "first")])]); JSON_stringify := fun _ => "" |}.
Example invariant_lint_ex :
  let run hash text := (inv_main (N := toy_noble) (J := lock_codec hash) (H := inv_host text) (W := (["/r/a.test.ts"], None))).2 in
  let good := computeBodyHash (N := toy_noble) "text" in
  (run good "test('INV-01: x', f)", run "sha256:00" "test('INV-01: x', f)", run good "test('INV-02: x', f) // INV-01", run good "fn inv_1_holds()")
  = (ScriptExit 0, ScriptExit 1, ScriptExit 1, ScriptExit 0).
Proof. vm_compute. reflexivity. Qed.
