(* ===== verification/LintTypes.v ===== *)
(** * Type-safety lint

    [scripts/lint-types.ts]: casts and [any] by pattern, line by line, outside
    comments and string literals. *)

From S2P Require Import Prelude JsNum JsMap JsString JsValue C2pa Proofmode Regex LintScan ArchLint.

Definition HARD_SCOPE : list string := ["packages/"].
Definition SOFT_EXEMPT : list string := [".test.ts"; ".test.tsx"; "/test/"; "scripts/"].

Record TypeViolation := mkTypeViolation {
  tv_file : string; tv_line : nat; tv_col : nat; tv_code : string; tv_severity : string; tv_excerpt : string }.

(** The line with its string literals emptied. *)
Definition strip_literals (line : string) : string :=
  replaceAll (rx "'(?:\\.|[^'\\])*'") (fun _ => "''")
    (replaceAll (rx (dquote +:+ "(?:\\.|[^" +:+ dquote +:+ "\\])*" +:+ dquote)) (fun _ => dquote +:+ dquote)
      (replaceAll (rx "`(?:\\.|[^`\\])*`") (fun _ => "``") line)).

Definition comment_line (trimmed : string) : bool := startsWith "//" trimmed || startsWith "*" trimmed || startsWith "/*" trimmed.

(** [while ((m = re.exec(stripped)) !== null)] *)
Definition reports (lineNo : nat) (trimmed code severity : string) (keep : found -> bool) (re : regex) (stripped : string) : list TypeViolation :=
  map (fun m => mkTypeViolation "" lineNo (S (fd_index m)) code severity trimmed) (List.filter keep (matchAll re stripped)).

Definition T003_RE : regex := rx "\bas\s+unknown\s+as\b".
Definition T001_RE : regex := rx "\bas\s+any\b".
Definition COLON_ANY : regex := rx ":\s*any\b(?!\.)".
Definition GENERIC_ANY : regex := rx "<\s*any\s*[,>]".
Definition T010_RE : regex := rx "\bas\s+([A-Z][\w$]*)\b".
Definition T011_RE : regex := rx "\bunknown\b".

Definition detect (line : string) (lineNo : nat) : list TypeViolation :=
  let trimmed := trim line in
  if comment_line trimmed then []
  else
  let stripped := strip_literals line in
  let all _ := true in
  reports lineNo trimmed "T003" "error" all T003_RE stripped ++
  reports lineNo trimmed "T001" "error" all T001_RE stripped ++
  reports lineNo trimmed "T002" "error" all COLON_ANY stripped ++
  reports lineNo trimmed "T002" "error" all GENERIC_ANY stripped ++
  reports lineNo trimmed "T010" "warn" (fun m => capture 1 m !== "unknown") T010_RE stripped ++
  reports lineNo trimmed "T011" "warn" all T011_RE stripped.

Definition isInScope (rel : string) : bool := existsb (fun p => startsWith p rel) HARD_SCOPE.
Definition isSoftExempt (rel : string) : bool := existsb (fun p => includes p rel) SOFT_EXEMPT.

Definition TYPE_ALLOW : regex := rx "\/\/\s*type-lint-allow:".
Definition is_soft (code : string) : bool := (code === "T010") || (code === "T011").
Definition is_hard (code : string) : bool := (code === "T001") || (code === "T002") || (code === "T003").

Definition muted (softExempt allowComment : bool) (v : TypeViolation) : bool :=
  (is_soft (tv_code v) && (softExempt || allowComment)) || (is_hard (tv_code v) && allowComment).

Definition with_file (rel : string) (v : TypeViolation) : TypeViolation :=
  mkTypeViolation rel (tv_line v) (tv_col v) (tv_code v) (tv_severity v) (tv_excerpt v).

(** [prev] is the line before, empty for the first. *)
Fixpoint check_lines (rel : string) (softExempt : bool) (i : nat) (prev : string) (lines : list string) : list TypeViolation :=
  match lines with
  | [] => []
  | line :: rest =>
      let allowComment := test TYPE_ALLOW line || test TYPE_ALLOW prev in
      map (with_file rel) (List.filter (fun v => negb (muted softExempt allowComment v)) (detect line (S i))) ++
      check_lines rel softExempt (S i) line rest
  end.
Definition checkFile (rel source : string) : list TypeViolation := check_lines rel (isSoftExempt rel) 0 "" (js_split 10 source).

Section main.
Context `{H : LintHost} `{W : ArchHost}.

Definition TYPE_SKIP : list string := ["node_modules"; "\.deno\b"; "\.local\b"; "dist\/"; "build\/"].

(** What was found before an error stays. *)
Fixpoint type_paths (paths : list string) (violations : list TypeViolation) : list TypeViolation * option exn :=
  match paths with
  | [] => (violations, None)
  | path :: rest =>
      let rel := relative ROOT path in
      match read_source path with
      | Throw e => (violations, Some e)
      | Ok source => type_paths rest (if isInScope rel then violations ++ checkFile rel source else violations)
      end
  end.

Fixpoint type_dirs (dirs : list string) (violations : list TypeViolation) : list TypeViolation * option exn :=
  match dirs with
  | [] => (violations, None)
  | dir :: rest =>
      let '(paths, stopped) := walk_dir (ROOT +:+ dir) TYPE_SKIP in
      let '(violations', failed) := type_paths paths violations in
      match (match failed with Some e => Some e | None => stopped end) with
      | None => type_dirs rest violations'
      | Some e => if exn_class e === "NotFound" then type_dirs rest violations' else (violations', Some e)
      end
  end.

Definition type_severity (severity : string) (v : TypeViolation) : bool := tv_severity v === severity.

Definition types_main (args : list string) : list console_line * script_end :=
  let onlyErrors := existsb (String.eqb "--errors-only") args in
  let showAll := existsb (String.eqb "--all") args in
  match type_dirs HARD_SCOPE [] with
  | (_, Some e) => ([], ScriptThrow e)
  | (violations, None) =>
      let errors := List.filter (type_severity "error") violations in
      let warns := List.filter (type_severity "warn") violations in
      let printed := if onlyErrors then errors else if showAll then violations else errors in
      let shown := map (fun v => ErrLine (toUpperCase (tv_severity v) +:+ " [" +:+ tv_code v +:+ "] " +:+ tv_file v +:+ ":" +:+
        pretty (Z.of_nat (tv_line v)) +:+ ":" +:+ pretty (Z.of_nat (tv_col v)) +:+ " — " +:+ tv_excerpt v)) printed in
      let count l := pretty (Z.of_nat (length (A := TypeViolation) l)) in
      if Nat.ltb 0 (length errors) then
        (shown ++ [ErrLine (LF +:+ "✗ " +:+ count errors +:+ " hard error(s), " +:+ count warns +:+ " warning(s) (run with --all to list warnings).")], ScriptExit 1)
      else
        (shown ++ (if Nat.ltb 0 (length warns) && showAll then [ErrLine (LF +:+ count warns +:+ " warning(s) — see above.")] else []) ++
         [OutLine ("✓ type-safety lint passed (errors=0, warnings=" +:+ count warns +:+ ").")], ScriptExit 0)
  end.
End main.

(** ** What a file reports *)

(** A hard rule fires on a line: its pattern matches outside literals. *)
Definition hard_hit (line : string) : Prop :=
  comment_line (trim line) = false /\ exists re, re ∈ [T003_RE; T001_RE; COLON_ANY; GENERIC_ANY] /\ matches re (strip_literals line).

Definition line_allowed (line prev : string) : bool := test TYPE_ALLOW line || test TYPE_ALLOW prev.

Lemma matchAll_nil r s : matchAll r s = [] <-> ~ matches r s.
Proof.
  unfold matchAll. rewrite <- exec_matches. unfold exec. cbn [match_all]. destruct (exec_from r [] (chars s)) as [m|].
  - split; [done|]. intros Hn. exfalso. apply Hn. by eexists.
  - split; [by intros _ [? ?]|done].
Qed.

Lemma reports_nil n t c sev re s : reports n t c sev (fun _ => true) re s = [] <-> ~ matches re s.
Proof.
  unfold reports. rewrite <- matchAll_nil.
  assert (Hf : forall l : list found, List.filter (fun _ => true) l = l) by (induction l as [|x l IH]; [done|]; cbn; by rewrite IH).
  rewrite Hf. by destruct (matchAll re s).
Qed.

Definition is_error (v : TypeViolation) : bool := tv_severity v === "error".

Lemma filter_reports n t c sev keep re s : List.filter is_error (reports n t c sev keep re s) = if sev === "error" then reports n t c sev keep re s else [].
Proof.
  unfold reports. induction (List.filter keep (matchAll re s)) as [|m l IH]; cbn; [by destruct (bool_decide _)|].
  unfold is_error at 1. cbn [tv_severity]. destruct (bool_decide (sev = "error")); by rewrite IH.
Qed.

Lemma detect_errors line n : List.filter is_error (detect line n) = [] <-> ~ hard_hit line.
Proof.
  unfold detect, hard_hit. destruct (comment_line (trim line)); [split; [by intros _ [? _]|done]|].
  rewrite !List.filter_app, !filter_reports. cbn [bool_decide]. rewrite !bool_decide_true, !bool_decide_false by done.
  rewrite !app_nil, !reports_nil. setoid_rewrite elem_of_cons. setoid_rewrite elem_of_cons. setoid_rewrite elem_of_cons.
  setoid_rewrite list_elem_of_singleton. split.
  - intros (H1 & H2 & H3 & H4 & _) (_ & re & [->|[->|[->| ->]]] & Hm); auto.
  - intros Hn. split_and!; try done; intros Hm; apply Hn; (split; [done|]); eauto 10.
Qed.

(** The severity follows from the code. *)
Lemma detect_codes line n v : v ∈ detect line n -> (is_error v = true /\ is_hard (tv_code v) = true /\ is_soft (tv_code v) = false) \/
  (is_error v = false /\ is_hard (tv_code v) = false).
Proof.
  assert (Hr : forall t c sev keep re s, v ∈ reports n t c sev keep re s -> tv_code v = c /\ tv_severity v = sev).
  { intros t c sev keep re s. unfold reports. rewrite list_elem_of_In, in_map_iff. by intros (m & <- & _). }
  unfold detect. destruct (comment_line (trim line)); [by intros ?%not_elem_of_nil|].
  rewrite !elem_of_app. unfold is_error. intros [Hv|[Hv|[Hv|[Hv|[Hv|Hv]]]]]; apply Hr in Hv as [-> ->]; vm_compute; tauto.
Qed.

Lemma filter_unmuted soft allow l :
  (forall v, v ∈ l -> (is_error v = true /\ is_hard (tv_code v) = true /\ is_soft (tv_code v) = false) \/ (is_error v = false /\ is_hard (tv_code v) = false)) ->
  List.filter is_error (List.filter (fun v => negb (muted soft allow v)) l) = if allow then [] else List.filter is_error l.
Proof.
  induction l as [|v l IH]; intros Hl; [by destruct allow|]. cbn [List.filter].
  assert (Hm : is_error v = true -> muted soft allow v = allow).
  { intros He. destruct (Hl v ltac:(left)) as [(_ & H1 & H2)|[H1 _]]; [|congruence]. unfold muted. by rewrite H1, H2. }
  specialize (IH ltac:(intros w Hw; apply Hl; by right)). destruct (is_error v) eqn:Ev.
  - rewrite Hm by done. destruct allow; cbn [negb List.filter]; rewrite ?Ev; by rewrite IH.
  - destruct (negb _); cbn [List.filter]; rewrite ?Ev; by rewrite IH.
Qed.

Lemma filter_with_file rel l : List.filter is_error (map (with_file rel) l) = map (with_file rel) (List.filter is_error l).
Proof.
  induction l as [|v l IH]; [done|]. cbn [map List.filter]. change (is_error (with_file rel v)) with (is_error v).
  destruct (is_error v); cbn [map]; by rewrite IH.
Qed.

Lemma check_lines_errors rel soft i prev lines :
  List.filter is_error (check_lines rel soft i prev lines) = [] <->
  forall k line, lines !! k = Some line ->
    line_allowed line (match k with O => prev | S k' => opt_default "" (lines !! k') end) = true \/ ~ hard_hit line.
Proof.
  revert i prev. induction lines as [|line lines IH]; intros i prev; cbn [check_lines]; [split; [intros _ k l; by rewrite lookup_nil|done]|].
  rewrite List.filter_app, filter_with_file, filter_unmuted by (intros v; apply detect_codes). rewrite app_nil, IH. fold (line_allowed line prev).
  assert (Hhead : map (with_file rel) (if line_allowed line prev then [] else List.filter is_error (detect line (S i))) = [] <->
    line_allowed line prev = true \/ ~ hard_hit line).
  { rewrite <- (detect_errors line (S i)). destruct (line_allowed line prev); [cbn; tauto|].
    destruct (List.filter is_error (detect line (S i))); cbn; naive_solver. }
  rewrite Hhead. split.
  - intros [Hh Ht] [|k] l Hl; cbn in Hl; [by injection Hl as <-|]. specialize (Ht k l Hl). by destruct k.
  - intros Hall. split; [exact (Hall 0%nat line eq_refl)|]. intros k l Hl. specialize (Hall (S k) l Hl). by destruct k.
Qed.

(** a file reports no hard error exactly when every line on which a hard rule's
    pattern matches outside comments and string literals carries the allow comment,
    on it or on the line before; being a test or a script changes nothing. *)
Theorem hard_rules_exact rel source :
  List.filter is_error (checkFile rel source) = [] <->
  forall k line, js_split 10 source !! k = Some line -> hard_hit line ->
    line_allowed line (match k with O => "" | S k' => opt_default "" (js_split 10 source !! k') end) = true.
Proof.
  unfold checkFile. rewrite check_lines_errors. split; intros Hall k line Hl.
  - intros Hh. by destruct (Hall k line Hl).
  - destruct (line_allowed line _) eqn:E; [by left|right]. intros Hh. specialize (Hall k line Hl Hh). congruence.
Qed.

Example types_ex :
  (map (fun v => (tv_code v, tv_col v)) (checkFile "packages/a.ts" "const x = y as any; // z"),
   map tv_code (checkFile "packages/a.test.ts" "f(x as unknown as Foo, 'as any')"),
   map tv_code (checkFile "packages/a.ts" ("// type-lint-allow: reason" +:+ LF +:+ "const m: Map<any, any> = y as any;" +:+ LF +:+ "let z: any.b")))
  = ([("T001", 13%nat)], ["T003"], []).
Proof. vm_compute. reflexivity. Qed.
