(* ===== verification/RepoChecks.v ===== *)
(** * Formatter gate, Proof Schema pages, review candidates

    [scripts/lint-fmt.ts], [scripts/check-proof-schema-pages.ts] and
    [scripts/arch-lint-candidates.ts].  The formatter, directory listings and the
    locale's order are the host's. *)

From S2P Require Import Prelude JsNum JsMap JsString JsValue C2pa Proofmode Regex LintScan ArchLint.

(** ** [lint-fmt.ts] *)
Definition CHUNK_SIZE : nat := 120.

Definition fmt_entry (acc : list string * list string) (entry : jsval) : list string * list string :=
  match entry with
  | VStr s =>
      if startsWith "*." s then (acc.1, acc.2 ++ [slice 1 s])
      else (acc.1 ++ [if endsWith "/" s then s else s +:+ "/"], acc.2)
  | _ => acc
  end.

(** The prefixes and the suffixes left out, from [deno.json]. *)
Definition readFmtExclude (config : jsval) : list string * list string :=
  let builtin := (["node_modules/"], [".lock"]) in
  if isRecord config && has_prop "fmt" config then
    let fmt := prop "fmt" config in
    if isRecord fmt && has_prop "exclude" fmt then
      match prop "exclude" fmt with VArr exclude => fold_left fmt_entry exclude builtin | _ => builtin end
    else builtin
  else builtin.

Definition SOURCE_EXTENSIONS : list string := [".ts"; ".tsx"; ".js"; ".jsx"; ".mts"; ".mjs"; ".cts"; ".cjs"; ".jsonc"].

Definition shouldCheckFormat (exclude : list string * list string) (path : string) : bool :=
  if existsb (fun prefix => startsWith prefix path) exclude.1 then false
  else if existsb (fun suffix => endsWith suffix path) exclude.2 then false
  else if (path === "deno.json") || endsWith "/deno.json" path then true
  else existsb (fun ext => endsWith ext path) SOURCE_EXTENSIONS.

(** [for (let i = 0; i < values.length; i += size) chunks.push(values.slice(i, i + size))] *)
Fixpoint chunk_loop {A} (fuel : nat) (values : list A) (i size : nat) : list (list A) :=
  match fuel with
  | O => []
  | S fuel' => if Nat.ltb i (length values) then take size (drop i values) :: chunk_loop fuel' values (i + size) size else []
  end.
Definition chunk {A} (values : list A) (size : nat) : list (list A) := chunk_loop (S (length values)) values 0 size.

Section fmt.
Context `{H : LintHost} (exclude : list string * list string).
(** the exit code of [deno fmt --check --config deno.json ...files] *)
Context (deno_fmt : list string -> Z).

Definition listTrackedFiles : list console_line * res (list string) :=
  let out := run_git LS_FILES ROOT in
  if negb (Z.eqb (git_code out) 0) then
    ([ErrLine (utf8_text (git_stderr out))], Throw (mkExn "Error" "git ls-files failed"))
  else ([], Ok (tracked (shouldCheckFormat exclude) (git_stdout out))).

(** The first failing chunk ends the loop. *)
Fixpoint check_chunks (chunks : list (list string)) : Z :=
  match chunks with [] => 0%Z | c :: rest => let code := deno_fmt c in if Z.eqb code 0 then check_chunks rest else code end.

Definition lintFormat : list console_line * res Z :=
  match listTrackedFiles with
  | (out, Throw e) => (out, Throw e)
  | (_, Ok []) => ([OutLine "✓ deno fmt check passed (0 files)"], Ok 0%Z)
  | (_, Ok files) =>
      let code := check_chunks (chunk files CHUNK_SIZE) in
      if Z.eqb code 0 then ([OutLine ("✓ deno fmt check passed (" +:+ pretty (Z.of_nat (length files)) +:+ " files)")], Ok 0%Z)
      else ([], Ok code)
  end.
End fmt.

(** Chunks are the files in order, none longer than the size. *)
Lemma chunk_loop_concat {A} fuel (values : list A) i size : (0 < size)%nat -> (length values - i < fuel)%nat ->
  concat (chunk_loop fuel values i size) = drop i values.
Proof.
  intros Hs. revert i. induction fuel as [|fuel IH]; intros i Hf; [lia|]. cbn [chunk_loop]. destruct (Nat.ltb_spec i (length values)).
  - cbn [concat]. rewrite IH by lia. rewrite <- drop_drop. apply take_drop.
  - by rewrite drop_ge.
Qed.

Lemma chunk_loop_small {A} fuel (values : list A) i size c : c ∈ chunk_loop fuel values i size -> (length c <= size)%nat.
Proof.
  revert i. induction fuel as [|fuel IH]; intros i; cbn [chunk_loop]; [by intros ?%not_elem_of_nil|].
  destruct (Nat.ltb i (length values)); [|by intros ?%not_elem_of_nil]. intros [->|Hc]%elem_of_cons; [rewrite length_take; lia|eauto].
Qed.

Lemma check_chunks_zero deno_fmt chunks : check_chunks deno_fmt chunks = 0%Z <-> Forall (fun c => deno_fmt c = 0%Z) chunks.
Proof.
  induction chunks as [|c chunks IH]; cbn; [split; [constructor|done]|]. rewrite Forall_cons, <- IH.
  destruct (Z.eqb_spec (deno_fmt c) 0) as [E|E]; [tauto|]. split; [done|tauto].
Qed.

(** the formatter gate answers 0 exactly when [git] lists the files and the
    formatter accepts the calls it is given: one per chunk, of at most 120 files
    each, which together are every tracked file the filter keeps, once and in
    order. *)
Theorem fmt_gate_exact `{H : LintHost} exclude deno_fmt :
  (lintFormat exclude deno_fmt).2 = Ok 0%Z <->
  git_code (run_git LS_FILES ROOT) = 0%Z /\ exists calls,
    concat calls = tracked (shouldCheckFormat exclude) (git_stdout (run_git LS_FILES ROOT)) /\
    calls = chunk (tracked (shouldCheckFormat exclude) (git_stdout (run_git LS_FILES ROOT))) CHUNK_SIZE /\
    Forall (fun c => (length c <= CHUNK_SIZE)%nat /\ deno_fmt c = 0%Z) calls.
Proof.
  unfold lintFormat, listTrackedFiles. destruct (Z.eqb_spec (git_code (run_git LS_FILES ROOT)) 0) as [Hc|Hc]; cbn [negb]; [|split; [done|tauto]].
  set (files := tracked _ _).
  assert (Hconcat : concat (chunk files CHUNK_SIZE) = files) by (unfold chunk; rewrite chunk_loop_concat by (unfold CHUNK_SIZE; lia); apply drop_0).
  assert (Hiff : check_chunks deno_fmt (chunk files CHUNK_SIZE) = 0%Z <-> exists calls, concat calls = files /\ calls = chunk files CHUNK_SIZE /\
    Forall (fun c => (length c <= CHUNK_SIZE)%nat /\ deno_fmt c = 0%Z) calls).
  { rewrite check_chunks_zero. split.
    - intros Hall. exists (chunk files CHUNK_SIZE). split_and!; try done. apply Forall_forall. intros c Hin. split; [by eapply chunk_loop_small|].
      rewrite Forall_forall in Hall. by apply Hall.
    - intros (calls & _ & -> & Hall). eapply Forall_impl; [done|]. by intros c [_ ?]. }
  destruct files as [|f fs].
  - cbn in Hiff. rewrite <- Hiff. tauto.
  - rewrite <- Hiff. destruct (Z.eqb_spec (check_chunks deno_fmt (chunk (f :: fs) CHUNK_SIZE)) 0) as [E|E]; cbn; [tauto|].
    split; [intros [= ?]; done|tauto].
Qed.

(** ** [check-proof-schema-pages.ts] *)
Definition SITE_ROOT : string := "spec-site".
Definition CNAME : string := "anchr-spec.org".
Definition MANIFEST_PATH : string := SITE_ROOT +:+ "/schemas.json".
Definition requiredSections : list string :=
  ["Predicate Shape"; "Proof Payload Shape"; "Response Data Shape"; "Verification Requirements"].

Record SchemaPageCheck := mkPage { pg_url : string; pg_path : string }.

Definition page_error (message : string) : exn := mkExn "Error" message.

Definition readStringField (entry : jsval) (field location : string) : res string :=
  match prop field entry with
  | VStr value => if is_blank value then Throw (page_error (location +:+ "." +:+ field +:+ " must be a non-empty string")) else Ok value
  | _ => Throw (page_error (location +:+ "." +:+ field +:+ " must be a non-empty string"))
  end.

Definition manifest_entry (index : nat) (entry : jsval) (urls paths : list string) : res SchemaPageCheck :=
  let location := MANIFEST_PATH +:+ "[" +:+ pretty (Z.of_nat index) +:+ "]" in
  match entry with
  | VObj _ =>
      url ← readStringField entry "url" location;
      path ← readStringField entry "path" location;
      if negb (startsWith (SITE_ROOT +:+ "/") path) then Throw (page_error (location +:+ ".path must stay under " +:+ SITE_ROOT +:+ "/"))
      else if existsb (String.eqb url) urls then Throw (page_error (MANIFEST_PATH +:+ " contains duplicate url: " +:+ url))
      else if existsb (String.eqb path) paths then Throw (page_error (MANIFEST_PATH +:+ " contains duplicate path: " +:+ path))
      else Ok (mkPage url path)
  | _ => Throw (page_error (location +:+ " must be an object with url and path"))
  end.

Fixpoint manifest_entries (index : nat) (entries : list jsval) (urls paths : list string) : res (list SchemaPageCheck) :=
  match entries with
  | [] => Ok []
  | entry :: rest =>
      page ← manifest_entry index entry urls paths;
      pages ← manifest_entries (S index) rest (pg_url page :: urls) (pg_path page :: paths);
      Ok (page :: pages)
  end.

Section pages.
Context `{J : JSON} `{H : LintHost} `{W : ArchHost}.
(** the message of the platform's parse error *)
Context (syntax_error : string -> string).

Definition parseManifest (raw : string) : res (list SchemaPageCheck) :=
  match JSON_parse raw with
  | None => Throw (page_error (MANIFEST_PATH +:+ " must be valid JSON: " +:+ syntax_error raw))
  | Some (VArr []) => Throw (page_error (MANIFEST_PATH +:+ " must list at least one schema page"))
  | Some (VArr entries) => manifest_entries 0 entries [] []
  | Some _ => Throw (page_error (MANIFEST_PATH +:+ " must be an array of { url, path } entries"))
  end.

Definition readText (path : string) : res string :=
  match read_source path with
  | Throw e => Throw (if exn_class e === "NotFound" then page_error ("missing required file: " +:+ path) else e)
  | ok => ok
  end.

Definition assertIncludes (haystack needle path : string) : res unit :=
  throw_if (negb (includes needle haystack)) "Error" (path +:+ " must include " +:+ needle).

Definition readSchemaPage (page : SchemaPageCheck) : res string :=
  match read_source (pg_path page) with
  | Throw e => Throw (if exn_class e === "NotFound"
      then page_error (MANIFEST_PATH +:+ " lists missing page for " +:+ pg_url page +:+ ": " +:+ pg_path page) else e)
  | ok => ok
  end.

Definition check_page (page : SchemaPageCheck) : res unit :=
  html ← readSchemaPage page;
  assertIncludes html (pg_url page) (pg_path page) ≫= fun _ =>
  for_each (fun _ section => assertIncludes html section (pg_path page)) 0 requiredSections.

Definition schema_pages_main : res (list console_line) :=
  cname ← readText (SITE_ROOT +:+ "/CNAME");
  if trim cname !== CNAME then Throw (page_error (SITE_ROOT +:+ "/CNAME must be " +:+ CNAME))
  else
  readText (SITE_ROOT +:+ "/index.html") ≫= fun _ =>
  readText (SITE_ROOT +:+ "/README.md") ≫= fun _ =>
  raw ← readText MANIFEST_PATH;
  pages ← parseManifest raw;
  for_each (fun _ page => check_page page) 0 pages ≫= fun _ =>
  Ok [OutLine "Proof Schema pages check passed"].

Lemma manifest_entry_ok index entry urls paths page : manifest_entry index entry urls paths = Ok page ->
  startsWith (SITE_ROOT +:+ "/") (pg_path page) = true /\ pg_url page ∉ urls /\ pg_path page ∉ paths.
Proof.
  unfold manifest_entry. destruct entry as [| | | | | |o|]; try done. intros (url & _ & H1)%bind_Ok. apply bind_Ok in H1 as (path & _ & H1).
  destruct (startsWith _ path) eqn:Es; [|done]. cbn [negb] in H1. destruct (existsb (String.eqb url) urls) eqn:Eu; [done|].
  destruct (existsb (String.eqb path) paths) eqn:Ep; [done|]. injection H1 as <-. cbn.
  split_and!; [done|intros Hin%existsb_eqb; congruence|intros Hin%existsb_eqb; congruence].
Qed.

Lemma manifest_entries_ok index entries urls paths pages : manifest_entries index entries urls paths = Ok pages ->
  length pages = length entries /\ Forall (fun p => startsWith (SITE_ROOT +:+ "/") (pg_path p) = true) pages /\
  NoDup (map pg_url pages) /\ NoDup (map pg_path pages) /\
  Forall (fun p => pg_url p ∉ urls /\ pg_path p ∉ paths) pages.
Proof.
  revert index urls paths pages. induction entries as [|entry entries IH]; intros index urls paths pages; cbn; [intros [= <-]; by repeat constructor|].
  intros (page & Hp & H1)%bind_Ok. apply bind_Ok in H1 as (rest & Hr & [= <-]). apply manifest_entry_ok in Hp as (Hs & Hu & Hpath).
  apply IH in Hr as (Hlen & Hall & Hnu & Hnp & Hnot). rewrite Forall_forall in Hnot.
  assert (Hin : forall {B} (f : SchemaPageCheck -> B) x, x ∈ map f rest -> exists p, p ∈ rest /\ f p = x).
  { intros B f x. rewrite list_elem_of_In, in_map_iff. intros (p & <- & Hp). exists p. split; [by apply list_elem_of_In|done]. }
  split_and!; cbn; [by rewrite Hlen|by constructor| | |].
  - constructor; [|done]. intros (p & Hp & E)%Hin. destruct (Hnot p Hp) as [Hn _]. apply Hn. rewrite E. left.
  - constructor; [|done]. intros (p & Hp & E)%Hin. destruct (Hnot p Hp) as [_ Hn]. apply Hn. rewrite E. left.
  - constructor; [done|]. apply Forall_forall. intros p Hp. destruct (Hnot p Hp) as [H1 H2]. split; intros Hx; [apply H1|apply H2]; by right.
Qed.

Lemma check_page_ok page : check_page page = Ok tt <-> exists html, read_source (pg_path page) = Ok html /\
  includes (pg_url page) html = true /\ Forall (fun section => includes section html = true) requiredSections.
Proof.
  unfold check_page, readSchemaPage. rewrite bind_Ok. destruct (read_source (pg_path page)) as [html|e].
  - split.
    + intros (h & [= <-] & H1). exists html. apply bind_Ok in H1 as ([] & H1 & H2). split; [done|].
      apply throw_if_Ok_tt, negb_false_iff in H1. split; [done|]. apply for_each_Forall in H2. eapply Forall_impl; [exact H2|].
      intros section Hs. by apply throw_if_Ok_tt, negb_false_iff in Hs.
    + intros (h & [= <-] & H1 & H2). exists html. split; [done|].
      assert (Hurl : assertIncludes html (pg_url page) (pg_path page) = Ok tt) by (unfold assertIncludes; by rewrite H1).
      rewrite Hurl. cbn [mbind res_bind].
      apply for_each_Forall. eapply Forall_impl; [exact H2|]. intros section Hs. unfold assertIncludes. by rewrite Hs.
  - split; [by intros (h & ? & _)|by intros (h & ? & _)].
Qed.

(** When the page check passes, the manifest lists at least one page, no URL and
    no path twice, every path with the site's prefix, and every listed page exists
    and contains its own URL and the four required sections. *)
Theorem schema_pages_sound out raw pages :
  schema_pages_main = Ok out -> read_source MANIFEST_PATH = Ok raw -> parseManifest raw = Ok pages ->
  pages <> [] /\ NoDup (map pg_url pages) /\ NoDup (map pg_path pages) /\
  Forall (fun p => startsWith (SITE_ROOT +:+ "/") (pg_path p) = true /\ exists html, read_source (pg_path p) = Ok html /\
    includes (pg_url p) html = true /\ Forall (fun section => includes section html = true) requiredSections) pages.
Proof.
  intros Hmain Hraw Hpages. unfold schema_pages_main in Hmain. apply bind_Ok in Hmain as (cname & _ & Hmain).
  destruct (negb _); [done|]. apply bind_Ok in Hmain as (? & _ & Hmain). apply bind_Ok in Hmain as (? & _ & Hmain).
  apply bind_Ok in Hmain as (raw' & Hr & Hmain). unfold readText in Hr. rewrite Hraw in Hr. injection Hr as <-.
  apply bind_Ok in Hmain as (pages' & Hp & Hmain). rewrite Hpages in Hp. injection Hp as <-.
  apply bind_Ok in Hmain as ([] & Hall & _). apply for_each_Forall in Hall.
  unfold parseManifest in Hpages. destruct (JSON_parse raw) as [[| | | | |[|e entries]| |]|]; try done.
  apply manifest_entries_ok in Hpages as (Hlen & Hs & Hu & Hp & _). split_and!; [by destruct pages|done|done|].
  rewrite Forall_forall in *. intros p Hin. split; [by apply Hs|]. by apply check_page_ok, Hall.
Qed.
End pages.

(** A path keeps the prefix and still leaves the site's directory. *)
Example manifest_path_escapes :
  manifest_entry 0 (VObj [("url", VStr "u"); ("path", VStr "spec-site/../README.md")]) [] [] = Ok (mkPage "u" "spec-site/../README.md").
Proof. vm_compute. reflexivity. Qed.

(** ** [arch-lint-candidates.ts] *)
Definition TOP_PER_LAYER : nat := 4.

Record Candidate := mkCandidate { ca_rel : string; ca_lines : nat }.

(** [out.sort((a, b) => b.lines - a.lines)], which is stable. *)
Fixpoint insert_candidate (c : Candidate) (l : list Candidate) : list Candidate :=
  match l with
  | [] => [c]
  | d :: l' => if Nat.leb (ca_lines d) (ca_lines c) then c :: l else d :: insert_candidate c l'
  end.
Definition sort_candidates (l : list Candidate) : list Candidate := fold_right insert_candidate [] l.

(** [n.toString().padStart(5)] *)
Definition padStart5 (s : string) : string := of_chars (repeat (Ascii.ascii_of_nat 32) (5 - String.length s)) +:+ s.

Record DirEntry := mkDirEntry { de_name : string; de_isDirectory : bool }.

Section candidates.
Context `{H : LintHost} `{W : ArchHost}.
(** [Deno.readDir]: the entries, then the error it stops with; [localeCompare] as an
    order *)
Context (readDir : string -> list DirEntry * option exn) (locale_le : string -> string -> bool).

(** The walk stops, silently, at the first file that cannot be read. *)
Fixpoint layer_files (paths : list string) : list Candidate :=
  match paths with
  | [] => []
  | path :: rest =>
      match readTextFile path with
      | Some text => mkCandidate (relative ROOT path) (length (js_split 10 text)) :: layer_files rest
      | None => []
      end
  end.

Definition listLayer (absDir layerLabel : string) : list Candidate :=
  let out := sort_candidates (layer_files (walk_dir absDir ["\.test\.tsx?$"; "node_modules"]).1) in
  map (fun c => mkCandidate (opt_default layerLabel (truthy (Some (ca_rel c)))) (ca_lines c)) out.

Fixpoint insert_group (g : string * string) (l : list (string * string)) : list (string * string) :=
  match l with [] => [g] | h :: l' => if locale_le g.1 h.1 then g :: l else h :: insert_group g l' end.

Definition workspaceGroups (topDir childDir : string) : res (list (string * string)) :=
  let '(entries, stopped) := readDir (ROOT +:+ topDir) in
  let suffix := if str_truthy childDir then childDir +:+ "/" else "" in
  let out := map (fun e => (topDir +:+ "/" +:+ de_name e +:+ "/" +:+ suffix, ROOT +:+ topDir +:+ "/" +:+ de_name e +:+ "/" +:+ childDir))
    (List.filter de_isDirectory entries) in
  let sorted := fold_right insert_group [] out in
  match stopped with
  | Some e => if exn_class e === "NotFound" then Ok sorted else Throw e
  | None => Ok sorted
  end.

(** [args.find((a, i, all) => all[i - 1] === "--layer")] *)
Fixpoint layer_arg (args : list string) : option string :=
  match args with
  | a :: ((b :: _) as rest) => if a === "--layer" then Some b else layer_arg rest
  | _ => None
  end.

Definition show_group (full : bool) (g : string * string) : list console_line :=
  match listLayer g.2 g.1 with
  | [] => []
  | cands =>
      let picked := if full then cands else take TOP_PER_LAYER cands in
      OutLine ("# " +:+ g.1 +:+ " — " +:+ pretty (Z.of_nat (length picked)) +:+ " candidate(s)") ::
      map (fun c => OutLine ("  " +:+ padStart5 (pretty (Z.of_nat (ca_lines c))) +:+ "  " +:+ ca_rel c)) picked ++ [OutLine ""]
  end.

Definition candidates_main (args : list string) : res (list console_line) :=
  let full := existsb (String.eqb "--full") args in
  packages ← workspaceGroups "packages" "src";
  examples ← workspaceGroups "examples" "src";
  e2e ← workspaceGroups "e2e" "";
  let groups := packages ++ examples ++ e2e ++ [("scripts/", ROOT +:+ "scripts")] in
  let filtered := match truthy (layer_arg args) with Some layer => List.filter (fun g => includes layer g.1) groups | None => groups end in
  Ok (flat_map (show_group full) filtered).
End candidates.

(** What is picked is the largest: sorting keeps the files and puts them in
    decreasing size, so a file left out is no larger than one picked. *)
Lemma insert_candidate_perm c l : insert_candidate c l ≡ₚ c :: l.
Proof. induction l as [|d l IH]; [done|]. cbn. destruct (Nat.leb _ _); [done|]. rewrite IH. constructor. Qed.

Lemma sort_candidates_perm l : sort_candidates l ≡ₚ l.
Proof. induction l as [|c l IH]; [done|]. cbn. by rewrite insert_candidate_perm, IH. Qed.

Definition larger (c d : Candidate) : Prop := (ca_lines d <= ca_lines c)%nat.

Lemma insert_candidate_sorted c l : StronglySorted larger l -> StronglySorted larger (insert_candidate c l).
Proof.
  induction 1 as [|d l Hs IH Hd]; [by repeat constructor|]. cbn. destruct (Nat.leb_spec (ca_lines d) (ca_lines c)) as [Hle|Hlt].
  - constructor; [by constructor|]. constructor; [done|]. eapply Forall_impl; [exact Hd|]. unfold larger. lia.
  - constructor; [done|]. rewrite insert_candidate_perm. constructor; [unfold larger; lia|done].
Qed.

Theorem picked_are_largest l n c d :
  c ∈ take n (sort_candidates l) -> d ∈ drop n (sort_candidates l) -> (ca_lines d <= ca_lines c)%nat.
Proof.
  assert (Hs : StronglySorted larger (sort_candidates l)).
  { induction l as [|x l IH]; [constructor|]. by apply insert_candidate_sorted. }
  generalize dependent (sort_candidates l). intros s Hs. revert n. induction Hs as [|x s Hs IH Hx]; intros [|n]; cbn;
    [by intros ?%not_elem_of_nil|by intros ?%not_elem_of_nil|by intros ?%not_elem_of_nil|].
  intros [->|Hc]%elem_of_cons Hd; [|by eapply IH]. rewrite Forall_forall in Hx. apply Hx.
  rewrite <- (take_drop n s). apply elem_of_app. by right.
Qed.
