(* ===== verification/ServiceFixture.v ===== *)
(** * An honest escrow through the query service

    [packages/sdk/src/testing/oracle-registry.ts] and
    [packages/sdk/src/testing/protocol-helpers.ts]: the registry with its built-in
    oracle, the mock escrow port, and the fixtures that drive a query of the real
    service from creation to work in progress.  With them, the liveness of the
    escrow flow: an honest run of the service's own handlers ends with the payment
    released and the preimage revealed. *)

From S2P Require Import Prelude JsNum JsMap JsString JsValue SchemaUri QueryTypes Samples.
From S2P Require Import QueryDomain OracleRegistry QueryVerification PreimageStore EventLoop QueryService QuerySettlement CashuTypes.

(** ** [oracle-registry.ts] *)
Definition BUILT_IN_ORACLE_ID : string := "built-in".

Definition builtInOracle (now : number) : Oracle :=
  mkOracle (mkOracleInfo BUILT_IN_ORACLE_ID "Built-in test oracle" None (num 0) None None None None None)
    (fun query _ _ => Ok (mkAttestation BUILT_IN_ORACLE_ID (q_id query) true ["accepted by built-in test oracle"] [] now None)).

(** [createOracleRegistry(options)] *)
Definition test_registry (skipBuiltIn : bool) (now : number) : jsmap string Oracle :=
  if skipBuiltIn then [] else jm_set BUILT_IN_ORACLE_ID (builtInOracle now) [].

Definition test_resolve (m : jsmap string Oracle) (oracleId : option string) (acceptableIds : option (list string)) : option Oracle :=
  match truthy oracleId with
  | Some id =>
      match nonempty acceptableIds with
      | Some ids => if bool_decide (id ∈ ids) then registry_get m id else None
      | None => registry_get m id
      end
  | None =>
      match acceptableIds with
      | Some [id] => registry_get m id
      | _ => registry_get m BUILT_IN_ORACLE_ID
      end
  end.

Definition test_resolveMultiple (m : jsmap string Oracle) (acceptableIds : option (list string)) (count : number) : list Oracle :=
  take_oracles (match nonempty acceptableIds with Some ids => omap (fun id => jm_get id m) ids | None => jm_values m end) count [].

Definition test_registry_ops (m : jsmap string Oracle) : OracleRegistryOps := mkRegistryOps (test_resolve m) (test_resolveMultiple m).

(** ** [protocol-helpers.ts] *)
Definition makeMockOracle (id : string) (passFn : option (Query -> QueryResult -> bool)) (now : number) : Oracle :=
  mkOracle (mkOracleInfo id ("Mock " +:+ id) None (num 0) None None None None None)
    (fun query result _ =>
      let passed := match passFn with Some f => f query result | None => true end in
      Ok (mkAttestation id (q_id query) passed (if passed then ["mock check passed"] else []) (if passed then [] else ["mock check failed"]) now None)).

Section mock.
Context `{L : CashuLib} `{J : JSON}.

Definition sum_proofs (proofs : list CashuProof) : number := fold_left (fun sum p => nadd sum (pf_amount p)) proofs (num 0).

(** [provider_pubkey] in the form with its prefix. *)
Definition mock_provider_hex (provider_pubkey : string) : string :=
  if startsWith "02" provider_pubkey || startsWith "03" provider_pubkey then provider_pubkey else "02" +:+ provider_pubkey.

(** [tags?.find((t) => t[0] === "pubkeys")]; [Throw]: the [TypeError]s of the
    accesses, all caught by the caller. *)
Fixpoint find_pubkeys (tags : list jsval) : res (option jsval) :=
  match tags with
  | [] => Ok None
  | t :: rest =>
      match get_index 0 t with
      | None => Throw (mkExn "TypeError" "Cannot read properties of null (reading '0')")
      | Some x => if eq_str x "pubkeys" then Ok (Some t) else find_pubkeys rest
      end
  end.

Definition pubkey_tag (tags : jsval) : res (option jsval) :=
  match tags with
  | VUndef | VNull => Ok None
  | VArr l => find_pubkeys l
  | _ => Throw (mkExn "TypeError" "tags.find is not a function")
  end.

Definition mock_locked_keys (tag : jsval) : res (list jsval) :=
  match tag with VArr l => Ok (drop 1 l) | _ => Throw (mkExn "TypeError" "pubkeyTag.slice is not a function") end.

(** What one proof says: a verdict to return, or nothing. *)
Definition mock_lock_of (payment_hash provider_pubkey : string) (proof : CashuProof) : res (option EscrowTokenLockResult) :=
  match JSON_parse (pf_secret proof) with
  | Some (VArr secret) =>
      if negb (eq_str (index 0 secret) "HTLC") then Ok None
      else
        let body := index 1 secret in
        if negb (eq_str (prop "data" body) payment_hash) then
          Ok (Some (mkEscrowLock false (Some "HTLC hash mismatch: token hashlock does not match query")))
        else
          tag ← pubkey_tag (prop "tags" body);
          match tag with
          | None => Ok None
          | Some t =>
              keys ← mock_locked_keys t;
              if existsb (fun k => eq_str k provider_pubkey) keys || existsb (fun k => eq_str k (mock_provider_hex provider_pubkey)) keys then Ok None
              else Ok (Some (mkEscrowLock false (Some "HTLC token not locked to selected provider")))
          end
  | _ => Ok None
  end.

Fixpoint mock_locks (payment_hash provider_pubkey : string) (proofs : list CashuProof) : res EscrowTokenLockResult :=
  match proofs with
  | [] => Ok (mkEscrowLock true None)
  | p :: rest =>
      verdict ← mock_lock_of payment_hash provider_pubkey p;
      match verdict with Some r => Ok r | None => mock_locks payment_hash provider_pubkey rest end
  end.

Definition createMockEscrowProvider : EscrowProvider :=
  mkEscrowProvider
    (fun ref expected_sats =>
      match getDecodedToken ref None with
      | Throw _ => Ok (mkEscrowAmount false None (Some "Invalid token"))
      | Ok decoded =>
          let total := sum_proofs (tok_proofs decoded) in
          if total <ₙ expected_sats then
            Ok (mkEscrowAmount false (Some total)
              (Some ("Insufficient amount: got " +:+ number_to_string total +:+ ", expected " +:+ number_to_string expected_sats)))
          else Ok (mkEscrowAmount true (Some total) None)
      end)
    (fun ref payment_hash provider_pubkey =>
      match getDecodedToken ref None with
      | Throw _ => Ok (mkEscrowLock true None)
      | Ok decoded =>
          match mock_locks payment_hash provider_pubkey (tok_proofs decoded) with
          | Ok r => Ok r
          | Throw _ => Ok (mkEscrowLock true None)
          end
      end).
End mock.

Section fixtures.
Context `{N : Noble} `{U : UrlApi} `{L : CashuLib} `{J : JSON}.

(** A service over a fresh store, registry and preimage store. *)
Definition service_with (registry : jsmap string Oracle) (now : number) : ServiceDeps * SvcState :=
  (service_deps (Some (test_registry_ops registry)) true (Some createMockEscrowProvider) None None, mkSvcState [] [] now).

Definition makeServiceWithPreimage (mockOracle : option Oracle) (mockOracles : option (list Oracle)) (now : number) : ServiceDeps * SvcState :=
  let registry := test_registry true now in
  service_with
    match mockOracles with
    | Some os => fold_left registry_register os registry
    | None => registry_register registry (opt_default (makeMockOracle "test-oracle" None now) mockOracle)
    end now.

Definition makeQuorumService (oracleIds : list string) (passFns : string -> option (Query -> QueryResult -> bool)) (now : number)
    : ServiceDeps * SvcState :=
  service_with (fold_left registry_register (map (fun id => makeMockOracle id (passFns id) now) oracleIds) (test_registry true now)) now.

(** The random bytes of the preimage are an argument. *)
Definition makeEscrowInfo (raw : list Z) : call SvcState (EscrowInfo * PreimageEntry) :=
  await (fun s => let '(entry, m) := ps_create (ss_preimages s) raw (ss_now s) in (s <| ss_preimages := m |>, Settled (Ok entry)))
    (fun entry s =>
      ret (mkEscrowInfo (htlc (pe_hash entry)) ["oracle_pub"] "customer_pub" None (nadd (nfloor_div (ss_now s) 1000) (num 3600)) None None None, entry) s).

Definition makeFakeToken (amountSats : number) : string :=
  getEncodedToken "https://mint.example.com" [mkProof "test" amountSats "s" "C" VUndef VUndef].

Record ProcessingFixture := mkProcessing { fx_query : Query; fx_entry : PreimageEntry; fx_providerPub : string; fx_escrowInfo : EscrowInfo }.

(** create, offer, select, begin: the outcomes of the last three are ignored. *)
Definition drive (deps : ServiceDeps) (svc : DomainServices) (raw : list Z) (description providerPub : string) (payment_lock : number)
    (oracleIds : list string) (quorum : option QuorumConfig) : call SvcState ProcessingFixture :=
  await (makeEscrowInfo raw) (fun '(escrowInfo, entry) s =>
    let options := mkCreateQueryOptions None None None (Some (mkPaymentLockInfo payment_lock None)) (Some oracleIds) (Some escrowInfo) None quorum in
    match doCreateQuery None (mkQueryInput description None None None None) (Some options) svc s with
    | (s, Throw e) => fail e s
    | (s, Ok query) =>
        let s := (doRecordOffer (q_id query) (mkOfferInfo providerPub None "evt_1" (ss_now s)) s).1 in
        await (doSelectProvider deps (q_id query) providerPub (Some (makeFakeToken payment_lock)))
          (fun _ s => let s := (doBeginWork (q_id query) s).1 in ret (mkProcessing query entry providerPub escrowInfo) s) s
    end).

Definition driveToProcessing (deps : ServiceDeps) (svc : DomainServices) (raw : list Z) (providerPubkey : option string)
    (bountyAmount : option number) (oracleIds : option (list string)) (quorum : option QuorumConfig) : call SvcState ProcessingFixture :=
  drive deps svc raw "Protocol test" (opt_default "provider_pub" providerPubkey) (opt_default (num 100) bountyAmount)
    (opt_default ["test-oracle"] oracleIds) quorum.

Definition driveQuorumToProcessing (deps : ServiceDeps) (svc : DomainServices) (raw : list Z) (oracleIds : list string) (minApprovals : number)
    : call SvcState ProcessingFixture :=
  drive deps svc raw "Quorum protocol test" "provider_pub" (num 100) oracleIds (Some (mkQuorumConfig minApprovals)).
End fixtures.

(** ** Liveness of the escrow flow *)
Section honest.
Context `{N : Noble} `{!NobleLaws} `{U : UrlApi} `{L : CashuLib} `{J : JSON}.
Context (deps : ServiceDeps) (p : EscrowProvider).

(** The query as created, with its offer, once selected, and in progress. *)
Definition created_query (svc : DomainServices) (now : Z) (description : string) (amount : number) (ids : list string) (quorum : option QuorumConfig) (hash : string) : Query :=
  {| q_id := svc_newQueryId svc; q_schema := Some DEFAULT_QUERY_SCHEMA; q_status := awaiting_offers; q_description := description;
     q_location_hint := None; q_challenge_nonce := None; q_verification_requirements := []; q_created_at := num now;
     q_expires_at := nadd (num now) DEFAULT_TTL_MS; q_customer_meta := None; q_payment_lock := Some (mkPaymentLockInfo amount None);
     q_oracle_ids := Some ids; q_assigned_oracle_id := None; q_submitted_at := None; q_result := None; q_verification := None;
     q_submission_meta := None; q_payment_status := escrow_locked;
     q_escrow := Some (mkEscrowInfo (htlc hash) ["oracle_pub"] "customer_pub" None (num (now / 1000 + 3600)) None None None);
     q_offers := Some []; q_nostr_event_id := None; q_blossom_keys := None; q_schema_requirement := None; q_quorum := quorum; q_attestations := None |}.

Lemma create_honest svc now description amount ids quorum hash s :
  is_blank description = false -> svc_now svc = num now ->
  doCreateQuery None (mkQueryInput description None None None None)
    (Some (mkCreateQueryOptions None None None (Some (mkPaymentLockInfo amount None)) (Some ids)
      (Some (mkEscrowInfo (htlc hash) ["oracle_pub"] "customer_pub" None (nadd (nfloor_div (num now) 1000) (num 3600)) None None None)) None quorum)) svc s =
  (store_set s (svc_newQueryId svc) (created_query svc now description amount ids quorum hash), Ok (created_query svc now description amount ids quorum hash)).
Proof.
  intros Hd Hnow. unfold doCreateQuery, createQueryAggregate, validateQueryInput. cbn [in_description in_schema]. rewrite Hd.
  destruct (str_truthy description) eqn:Et; [|by destruct description]. cbn [negb orb co_escrow escrow_locktime_error].
  rewrite Hnow, nfloor_div_num, nadd_num. cbn [mbind option_bind cq_escrow escrow_locktime_error esc_locktime].
  assert (Hv : (if num_truthy (num (now / 1000 + 3600)) then validateEscrowLocktime (num (now / 1000 + 3600)) (nfloor_div (num now) 1000) MIN_ESCROW_LOCKTIME_SECS else None) = None).
  { destruct (num_truthy _); [|done]. unfold validateEscrowLocktime. rewrite nfloor_div_num, nsub_num. replace (now / 1000 + 3600 - now / 1000)%Z with 3600%Z by lia. done. }
  rewrite Hv. done.
Qed.
Lemma store_get_set s id q : store_get (store_set s id q) id = Some q.
Proof. apply jm_get_set_eq. Qed.

Definition honest_port (token pk hash : string) (amount : number) (verified : option number) : Prop :=
  d_escrowProvider deps = Some p /\
  (exists err, ep_verify p token amount = Ok (mkEscrowAmount true verified err)) /\
  exists msg, ep_verifyLock p token hash pk = Ok (mkEscrowLock true msg).

Lemma select_honest q e s id pk token hash amount verified :
  store_get s id = Some q -> q_escrow q = Some e -> q_status q = awaiting_offers -> q_payment_lock q = Some (mkPaymentLockInfo amount None) ->
  esc_type e = htlc hash -> esc_escrow_ref e = None -> esc_escrow_token e = None ->
  token <> "" -> hash <> "" -> num_truthy amount = true -> honest_port token pk hash amount verified ->
  exists q', selectProvider q pk (mkSelectionUpdates (Some (Some token)) (Some verified) None None) = TOk q' /\
  run_call (doSelectProvider deps id pk (Some token)) s = (store_set s id q', Ok (mkHtlcOutcome true (Some "Provider selected"))).
Proof.
  intros Hg He Hst Hlock Htype Href Htok Ht Hh Ha (Hp & (err & Hv) & (msg & Hl)).
  assert (Hsel : forall u, exists q', selectProvider q pk u = TOk q') by (intros u; unfold selectProvider; rewrite He, Hst; by eexists).
  destruct (Hsel no_updates) as [q0 Hq0]. destruct (Hsel (mkSelectionUpdates (Some (Some token)) (Some verified) None None)) as [q' Hq'].
  exists q'. split; [done|].
  assert (Hthash : truthy (htlc_hash_of q) = Some hash) by (unfold htlc_hash_of; rewrite He; cbn; rewrite Htype; by apply truthy_Some).
  assert (Htref : truthy (escrow_ref_of q (Some token)) = Some token).
  { unfold escrow_ref_of. rewrite He. cbn. rewrite Href, Htok. cbn [nullish]. by apply truthy_Some. }
  unfold doSelectProvider, run_call. rewrite Hg, Hq0, Htref, Hthash, Hlock, Hp. cbn [fmap option_fmap option_map lock_amount_sats truthy_num].
  rewrite Ha. cbn [andb orb negb].
  match goal with |- context [await ?c ?k s] => change (run_call (await c k) s = (store_set s id q', Ok (mkHtlcOutcome true (Some "Provider selected")))) end.
  rewrite run_call_await. unfold run_call at 1, verifyEscrowAmount. rewrite Hv. cbn [mbind res_bind run_alone ea_valid ea_amountSats ea_error negb].
  unfold select_lock_check. rewrite Htref, Hthash, Hp. rewrite run_call_await. unfold run_call at 1, verifyEscrowLock. rewrite Hl.
  cbn [run_alone el_ok negb]. unfold select_commit, run_call. change (fmap Some (Some token)) with (Some (Some token)). by rewrite Hq'.
Qed.
Lemma transition_set id t msg s q q' : store_get s id = Some q -> t q = TOk q' -> (with_transition id t msg s).1 = store_set s id q'.
Proof. intros Hg Ht. unfold with_transition. by rewrite Hg, Ht. Qed.

(** The provider holds the query: selected, working, the payment locked to it. *)
Definition working (s : SvcState) (id pk hash : string) (ids : list string) (quorum : option QuorumConfig) : Prop :=
  exists q e, store_get s id = Some q /\ q_status q = processing /\ q_escrow q = Some e /\ esc_type e = htlc hash /\
    esc_provider_pubkey e = Some pk /\ q_oracle_ids q = Some ids /\ q_quorum q = quorum.

Lemma drive_honest svc now raw description pk amount ids quorum verified s :
  is_blank description = false -> is_blank pk = false -> svc_now svc = num now -> ss_now s = num now ->
  num_truthy amount = true -> makeFakeToken amount <> "" -> bytesToHex (sha256 raw) <> "" ->
  honest_port (makeFakeToken amount) pk (bytesToHex (sha256 raw)) amount verified ->
  exists s' fx, run_call (drive deps svc raw description pk amount ids quorum) s = (s', Ok fx) /\
    working s' (svc_newQueryId svc) pk (bytesToHex (sha256 raw)) ids quorum /\
    jm_get (bytesToHex (sha256 raw)) (ss_preimages s') = Some (mkPreimageEntry (bytesToHex (sha256 raw)) (bytesToHex raw) (num now)).
Proof.
  intros Hd Hpk Hsvc Hnow Ha Ht Hh Hport. set (hash := bytesToHex (sha256 raw)) in *. set (id := svc_newQueryId svc).
  set (entry := mkPreimageEntry hash (bytesToHex raw) (num now)). set (s1 := s <| ss_preimages := jm_set hash entry (ss_preimages s) |>).
  set (q0 := created_query svc now description amount ids quorum hash). set (offer := mkOfferInfo pk None "evt_1" (num now)).
  set (q1 := q0 <| q_offers := Some [offer] |>).
  assert (Hinfo : run_call (makeEscrowInfo raw) s = (s1, Ok (mkEscrowInfo (htlc hash) ["oracle_pub"] "customer_pub" None
    (nadd (nfloor_div (num now) 1000) (num 3600)) None None None, entry))).
  { unfold makeEscrowInfo. rewrite run_call_await. unfold run_call at 1, ps_create, createPreimage. rewrite Hnow. cbn [run_alone].
    unfold run_call, ret. cbn [run_alone pe_hash]. change (ss_now (s <| ss_preimages := _ |>)) with (ss_now s). by rewrite Hnow. }
  unfold drive. rewrite run_call_await, Hinfo. unfold run_call. rewrite create_honest by done. fold q0 id. change (q_id q0) with id.
  set (s2 := store_set s1 id q0). change (ss_now s2) with (ss_now s). rewrite Hnow. fold offer.
  assert (Hoff : (doRecordOffer id offer s2).1 = store_set s2 id q1).
  { apply (transition_set _ _ _ _ q0); [apply store_get_set|]. unfold addOffer, validateOfferInfo. cbn [q_escrow q0 created_query q_status off_provider_pubkey offer off_event_id].
    rewrite Hpk. destruct (str_truthy pk) eqn:Et; [done|by destruct pk]. }
  rewrite Hoff. set (s3 := store_set s2 id q1).
  destruct (select_honest q1 (mkEscrowInfo (htlc hash) ["oracle_pub"] "customer_pub" None (num (now / 1000 + 3600)) None None None) s3 id pk
    (makeFakeToken amount) hash amount verified) as (q2 & Hsel & Hrun); try done; [apply store_get_set|].
  assert (Hq2 : q_escrow q2 = Some (apply_updates (mkEscrowInfo (htlc hash) ["oracle_pub"] "customer_pub" None (num (now / 1000 + 3600)) None None None) pk
    (mkSelectionUpdates (Some (Some (makeFakeToken amount))) (Some verified) None None)) /\ q_status q2 = provider_selected /\ q_oracle_ids q2 = Some ids /\ q_quorum q2 = quorum)
    by (unfold selectProvider in Hsel; cbn [q_escrow q1 q0 created_query] in Hsel; by injection Hsel as <-).
  destruct Hq2 as (He2 & Hst2 & Hids2 & Hquo2).
  match goal with |- context [await ?c ?k s3] => change (let '(s', t) := await c k s3 in run_alone t s') with (run_call (await c k) s3) end.
  rewrite run_call_await, Hrun. unfold run_call.
  assert (Hbegin : (doBeginWork id (store_set s3 id q2)).1 = store_set (store_set s3 id q2) id (q2 <| q_status := processing |>)).
  { apply (transition_set _ _ _ _ q2); [apply store_get_set|]. unfold beginWork. by rewrite He2, Hst2. }
  rewrite Hbegin. do 2 eexists. split; [reflexivity|]. split.
  - exists (q2 <| q_status := processing |>). eexists. split_and!; [apply store_get_set|done|exact He2|done|done|done|done].
  - apply jm_get_set_eq.
Qed.
Lemma reveal_stored hash entry s :
  d_preimageStore deps = true -> hash <> "" -> pe_preimage entry <> "" -> jm_get hash (ss_preimages s) = Some entry ->
  run_call (tryRevealPreimage (d_preimageStore deps) (Some hash) true) s =
  (s <| ss_preimages := ps_delete (ss_preimages s) hash |>, Ok (Some (pe_preimage entry))).
Proof.
  intros Hs Hh Hp Hg. assert (Ht : forall x, x <> "" -> truthy (Some x) = Some x) by (intros x Hx; by apply truthy_Some).
  unfold tryRevealPreimage, run_call. rewrite (Ht hash Hh), Hs. cbn [negb orb].
  match goal with |- context [await ?c ?k s] => change (let '(s', t) := await c k s in run_alone t s') with (run_call (await c k) s) end.
  rewrite run_call_await. unfold run_call at 1, ps_getPreimage. rewrite Hg. cbn [run_alone fmap option_fmap option_map].
  rewrite (Ht _ Hp), run_call_await. done.
Qed.

(** The verification of the submission of [pk] for query [id] passes: of the query the
    store holds, with the result recorded in it. *)
Definition submission_verifies (s : SvcState) (id : string) (result : QueryResult) (pk : string) (bk : option BlossomKeyMap) (oid : option string) : Prop :=
  forall q recorded, store_get s id = Some q -> recordResult q (normalize deps result) pk bk (ss_now s) = TOk recorded ->
    exists v, verifyWithQuorum recorded (normalize deps result) (d_oracleResolver deps) (d_multiOracleResolver deps) bk oid = Ok v /\ qv_passed v = true.

Lemma submit_honest s id pk hash ids quorum entry result bk oid :
  d_preimageStore deps = true -> pk <> "" -> hash <> "" -> pe_preimage entry <> "" ->
  working s id pk hash ids quorum -> jm_get hash (ss_preimages s) = Some entry ->
  submission_verifies s id result pk bk oid ->
  exists s' o q, run_call (doSubmitEscrowResult deps id result pk oid bk) s = (s', Ok o) /\ eo_ok o = true /\
    eo_preimage o = Some (pe_preimage entry) /\ store_get s' id = Some q /\ q_status q = approved /\ q_payment_status q = released /\
    jm_get hash (ss_preimages s') = None.
Proof.
  intros Hstore Hpk Hh Hp (q & e & Hg & Hst & He & Htype & Hprov & Hids & Hquo) Hentry Hver.
  assert (Hrec : exists vq, recordResult q (normalize deps result) pk bk (ss_now s) = TOk vq).
  { unfold recordResult. rewrite He, Hst, Hprov. cbn [isValidTransition negb]. rewrite (proj2 (truthy_Some (Some pk) pk)) by done.
    rewrite bool_decide_true by done. cbn [negb]. by eexists. }
  destruct Hrec as (vq & Hrec). destruct (Hver q vq Hg Hrec) as (v & Hv & Hpass).
  unfold doSubmitEscrowResult, run_call. rewrite Hg. unfold isEscrowQuery, is_escrow. rewrite He. cbn [negb]. rewrite Hrec.
  match goal with |- context [await ?c ?k ?st] => change (let '(s', t) := await c k st in run_alone t s') with (run_call (await c k) st) end.
  rewrite run_call_await. unfold run_call at 1, verifyAndFinalize. rewrite Hv. cbn [mbind res_bind run_alone].
  set (u := finalize vq v). unfold settle_escrow, run_call. rewrite He. cbn [fmap option_fmap option_map]. rewrite Htype, Hpass.
  match goal with |- context [await ?c ?k ?st] => change (let '(s', t) := await c k st in run_alone t s') with (run_call (await c k) st) end.
  rewrite run_call_await, (reveal_stored hash entry) by done. rewrite (proj2 (truthy_Some (Some (pe_preimage entry)) (pe_preimage entry))) by done.
  do 2 eexists. exists u. split; [reflexivity|]. split_and!; try done; [apply jm_get_set_eq| | |].
  - unfold u, finalize. cbn. by rewrite Hpass.
  - unfold u, finalize. cbn. by rewrite Hpass.
  - etransitivity; [apply (jm_get_delete hash hash (ss_preimages s))|by rewrite bool_decide_true].
Qed.

(** C12: an honest escrow settles.  Through the service's own handlers, run one after
    another, a query is created with the hash of a fresh preimage, offered, selected
    with a token the escrow port accepts, worked on and submitted by the selected
    provider; when the verification of the query then stored, with the submitted result
    recorded in it, passes (by a single oracle or a quorum), the submission succeeds, the stored query is approved with its payment released, the revealed
    preimage is the one committed to, and it is gone from the store. *)
Theorem honest_escrow_settles svc now raw description pk amount ids quorum verified result bk oid s :
  is_blank description = false -> is_blank pk = false -> svc_now svc = num now -> ss_now s = num now ->
  num_truthy amount = true -> makeFakeToken amount <> "" ->
  Forall is_byte raw -> raw <> [] -> bytesToHex (sha256 raw) <> "" -> d_preimageStore deps = true ->
  honest_port (makeFakeToken amount) pk (bytesToHex (sha256 raw)) amount verified ->
  (forall s1 fx, run_call (drive deps svc raw description pk amount ids quorum) s = (s1, Ok fx) ->
     submission_verifies s1 (svc_newQueryId svc) result pk bk oid) ->
  exists s' o q,
    run_call (await (drive deps svc raw description pk amount ids quorum) (fun _ => doSubmitEscrowResult deps (svc_newQueryId svc) result pk oid bk)) s = (s', Ok o) /\
    eo_ok o = true /\ eo_preimage o = Some (bytesToHex raw) /\ verifyPreimageHash (bytesToHex raw) (bytesToHex (sha256 raw)) = Ok true /\
    store_get s' (svc_newQueryId svc) = Some q /\ q_status q = approved /\ q_payment_status q = released /\
    jm_get (bytesToHex (sha256 raw)) (ss_preimages s') = None.
Proof.
  intros Hd Hpk Hsvc Hnow Ha Ht Hraw Hne Hh Hstore Hport Hver.
  destruct (drive_honest svc now raw description pk amount ids quorum verified s) as (s1 & fx & Hrun & Hwork & Hentry); try done.
  pose proof (hex_decode raw Hraw) as Hdec.
  assert (Hpre : bytesToHex raw <> "") by (intros E; rewrite E in Hdec; by cbn in Hdec).
  assert (Hpk' : pk <> "") by (by intros ->).
  destruct (submit_honest s1 (svc_newQueryId svc) pk (bytesToHex (sha256 raw)) ids quorum
    (mkPreimageEntry (bytesToHex (sha256 raw)) (bytesToHex raw) (num now)) result bk oid Hstore Hpk' Hh Hpre Hwork Hentry (Hver s1 fx Hrun))
    as (s' & o & q & Hsub & Hok & Hpreimage & Hget & Hst & Hpay & Hgone).
  exists s', o, q. rewrite run_call_await, Hrun. split_and!; try done. unfold verifyPreimageHash. rewrite Hdec.
  destruct raw; [done|]. by rewrite bool_decide_true.
Qed.
End honest.

(** ** Witness: the fixtures of the tests, with the mock port and a passing oracle *)
Definition fixture_lib : CashuLib := sample_cashu (mkDecoded "https://mint.example.com" [mkProof "test" (num 100) "s" "C" VUndef VUndef]).
Definition fixture_json : JSON := {| JSON_parse := fun _ => None; JSON_stringify := fun _ => "" |}.
(** An oracle that looks at the query. *)
Definition careful_oracle : Oracle :=
  makeMockOracle "test-oracle" (Some (fun q _ => (q_id q === "q1") && (q_status q === verifying) && is_escrow q)) (num 1000000).
Definition fixture : ServiceDeps * SvcState :=
  makeServiceWithPreimage (L := fixture_lib) (J := fixture_json) (Some careful_oracle) None (num 1000000).

Lemma honest_escrow_settles_witness :
  exists s' o q,
    run_call (await (driveToProcessing (N := toy_noble) (U := sample_urls) (L := fixture_lib) fixture.1 sample_services [1; 2]%Z None None None None)
      (fun _ => doSubmitEscrowResult fixture.1 "q1" sample_result "provider_pub" None None)) fixture.2 = (s', Ok o) /\
    eo_ok o = true /\ eo_preimage o = Some "0102" /\
    verifyPreimageHash (N := toy_noble) "0102" (bytesToHex (Noble := toy_noble) (sha256 (Noble := toy_noble) [1; 2]%Z)) = Ok true /\
    store_get s' "q1" = Some q /\ q_status q = approved /\ q_payment_status q = released /\
    jm_get (bytesToHex (Noble := toy_noble) (sha256 (Noble := toy_noble) [1; 2]%Z)) (ss_preimages s') = None.
Proof.
  apply (honest_escrow_settles (N := toy_noble) (U := sample_urls) (L := fixture_lib) (H := toy_noble_laws) fixture.1
    (createMockEscrowProvider (L := fixture_lib) (J := fixture_json))
    sample_services 1000000 [1; 2]%Z "Protocol test" "provider_pub" (num 100) ["test-oracle"] None (Some (num 100)) sample_result None None fixture.2);
    try reflexivity; try discriminate.
  - repeat constructor; vm_compute; discriminate.
  - split; [reflexivity|]. split; eexists; vm_compute; reflexivity.
  - intros s1 fx Hrun q recorded Hq Hr. vm_compute in Hrun. injection Hrun as <- _. vm_compute in Hq. injection Hq as <-.
    vm_compute in Hr. injection Hr as <-. eexists. split; vm_compute; reflexivity.
Defined.
