(* ===== verification/Startup.v ===== *)
(** * Construction and start-up

    How the pieces are put together when a process starts: the memoized wallet of
    [createCashuClient] ([adapters/cashu.ts]), [createProvider] ([provider.ts]), the
    oracle service from the environment ([adapters/nostr/oracle-service.ts]) and the
    peer process ([adapters/oracle-service/server-entry.ts]). *)

From S2P Require Import Prelude JsNum JsMap JsString JsValue EventLoop PreimageStore Nostr Identity CashuTypes RedeemSwap CashuClient Provider.
From S2P Require Import QueryTypes Config Sidecar FrostCli FrostSigner FrostSignerSpec FrostServer Samples.

Section client.
Context `{L : CashuLib} `{J : JSON}.

(** ** The wallet of a Cashu client

    [walletPromise]: [None] is [null]; a promise is what it settles with, and
    everyone who awaits it gets that. *)
Definition WalletCell := option (res Wallet).

(** [customRequest] decides how the mint is reached. *)
Inductive MintHandle := MintAt (url : string) | MintThrough (url : string).
Definition mint_handle (mintUrl : string) (customRequest : bool) : MintHandle :=
  if customRequest then MintThrough mintUrl else MintAt mintUrl.

Record CashuClientOptions := mkClientOptions { co_mintUrl : string; co_wallet : option Wallet; co_customRequest : bool }.

(** [load h] is [new Wallet(h, { unit: "sat" })] followed by [loadMint()], as it
    would end if it were started now. *)
Definition getWallet (options : CashuClientOptions) (mintUrl : string) (load : MintHandle -> res Wallet) (cell : WalletCell)
    : WalletCell * res Wallet :=
  match co_wallet options with
  | Some wallet => (cell, Ok wallet)
  | None =>
      match cell with
      | Some promise => (cell, promise)
      | None => let promise := load (mint_handle mintUrl (co_customRequest options)) in (Some promise, promise)
      end
  end.

(** The methods of the client, with what the mint would answer at the time of each
    call. *)
Inductive client_op :=
| OpBind (p : BindProviderParams) (nowSeconds : number)
| OpVerify (p : VerifyProviderPaymentLockParams) (nowSeconds : number)
| OpRedeem (p : RedeemHtlcParams).

Inductive client_answer :=
| Bound (r : res CashuToken)
| Verified (r : res VerifyProviderPaymentLockResult)
| Redeemed (r : res (list CashuProof * number)).

(** The checks [bindProvider] makes before it asks for the wallet. *)
Definition check_bind_params (p : BindProviderParams) (nowSeconds : number) : res unit :=
  _ ← validateHashHex (bp_hashHex p);
  _ ← validateLocktime (bp_locktimeSeconds p) nowSeconds;
  _ ← client_guard (negb (isFinite (bp_amountSats p)) || negb (isInteger (bp_amountSats p)) || (bp_amountSats p ≤ₙ num 0))
        "amountSats must be a positive integer";
  _ ← client_guard (negb (Nat.eqb (length (bp_customerSecretKey p)) 32)) "customerSecretKey must be a 32-byte Uint8Array";
  _ ← client_guard (match bp_fundingProofs p with [] => true | _ => false end) "fundingProofs must be a non-empty array";
  for_each (fun _ v => client_guard (negb (isValidProofShape v)) "fundingProofs contains a malformed proof") 0 (bp_fundingProofs p).

Definition client_call (options : CashuClientOptions) (mintUrl : string) (load : MintHandle -> res Wallet) (op : client_op)
    (cell : WalletCell) : WalletCell * client_answer :=
  match op with
  | OpBind p now =>
      match check_bind_params p now with
      | Throw e => (cell, Bound (Throw e))
      | Ok _ => let '(cell', w) := getWallet options mintUrl load cell in (cell', Bound (bindProvider w mintUrl p now))
      end
  | OpVerify p now =>
      let '(cell', w) := getWallet options mintUrl load cell in (cell', Verified (verifyProviderPaymentLock w mintUrl p now))
  | OpRedeem p =>
      let '(cell', w) := getWallet options mintUrl load cell in (cell', Redeemed (redeemHtlc w p))
  end.

(** Calls in order, each with the mint as it is then. *)
Fixpoint client_calls (options : CashuClientOptions) (mintUrl : string) (calls : list ((MintHandle -> res Wallet) * client_op))
    (cell : WalletCell) : WalletCell * list client_answer :=
  match calls with
  | [] => (cell, [])
  | (load, op) :: calls' =>
      let '(cell1, a) := client_call options mintUrl load op cell in
      let '(cell2, l) := client_calls options mintUrl calls' cell1 in (cell2, a :: l)
  end.

(** [createCashuClient(options)] and the calls made on the client. *)
Definition client_session (options : CashuClientOptions) (calls : list ((MintHandle -> res Wallet) * client_op))
    : res (list client_answer) :=
  mintUrl ← createCashuClient (co_mintUrl options); Ok (client_calls options mintUrl calls None).2.

(** The answer of a call that gets wallet [w]. *)
Definition answer_with (mintUrl : string) (w : res Wallet) (op : client_op) : client_answer :=
  match op with
  | OpBind p now => Bound (bindProvider w mintUrl p now)
  | OpVerify p now => Verified (verifyProviderPaymentLock w mintUrl p now)
  | OpRedeem p => Redeemed (redeemHtlc w p)
  end.

(** Arguments that fail the checks are refused whatever the wallet is. *)
Lemma bind_refused p now e w mintUrl : check_bind_params p now = Throw e -> bindProvider w mintUrl p now = Throw e.
Proof.
  unfold check_bind_params, bindProvider. intros H.
  repeat match type of H with
  | mbind _ ?r = _ => let E := fresh "E" in destruct r eqn:E; cbn [mbind res_bind] in H |- *; [|congruence]
  end. by rewrite H.
Qed.

Lemma call_on_promise options mintUrl load op promise :
  co_wallet options = None -> client_call options mintUrl load op (Some promise) = (Some promise, answer_with mintUrl promise op).
Proof. intros Hw. unfold client_call, answer_with, getWallet. rewrite Hw. destruct op as [p now|p now|p]; [|done|done].
  destruct (check_bind_params p now) as [[]|e] eqn:E; [done|]. by rewrite (bind_refused _ _ _ _ _ E).
Qed.

Lemma calls_on_promise options mintUrl calls promise :
  co_wallet options = None -> client_calls options mintUrl calls (Some promise) = (Some promise, answer_with mintUrl promise <$> calls.*2).
Proof.
  intros Hw. induction calls as [|[load op] calls IH]; [done|]. cbn [client_calls]. by rewrite (call_on_promise _ _ _ _ _ Hw), IH.
Qed.

(** The mint is loaded once per client: whatever happens to the mint later, every
    call after the first that needed the wallet is answered with the outcome of
    that load.  In particular a load that failed is never repeated. *)
Theorem wallet_loaded_once options mintUrl load op calls :
  co_wallet options = None -> (match op with OpBind p now => check_bind_params p now = Ok tt | _ => True end) ->
  (client_calls options mintUrl ((load, op) :: calls) None).2 =
  answer_with mintUrl (load (mint_handle mintUrl (co_customRequest options))) <$> op :: calls.*2.
Proof.
  intros Hw Hop. cbn [client_calls].
  assert (Hc : client_call options mintUrl load op None =
    (Some (load (mint_handle mintUrl (co_customRequest options))), answer_with mintUrl (load (mint_handle mintUrl (co_customRequest options))) op)).
  { unfold client_call, answer_with, getWallet. rewrite Hw. destruct op; cbn; [by rewrite Hop|done|done]. }
  by rewrite Hc, (calls_on_promise _ _ _ _ Hw).
Qed.

(** An injected wallet is never replaced and no mint is loaded. *)
Lemma injected_wallet_used options mintUrl calls w :
  co_wallet options = Some w -> client_calls options mintUrl calls None = (None, answer_with mintUrl (Ok w) <$> calls.*2).
Proof.
  intros Hw. induction calls as [|[load op] calls IH]; [done|]. cbn [client_calls].
  assert (Hc : client_call options mintUrl load op None = (None, answer_with mintUrl (Ok w) op)).
  { unfold client_call, answer_with, getWallet. rewrite Hw. destruct op as [p now|p now|p]; [|done|done].
    destruct (check_bind_params p now) as [[]|e] eqn:E; [done|]. by rewrite (bind_refused _ _ _ _ _ E). }
  by rewrite Hc, IH.
Qed.
End client.

(** A mint that is down for the first call keeps the client unusable after it is
    back. *)
Definition mint_down : exn := mkExn "Error" "mint unreachable".

Example failed_load_is_permanent `{L : CashuLib} `{J : JSON} up p q now :
  client_session (mkClientOptions "https://mint" None false)
    [((fun _ => Throw mint_down), OpVerify p now); (up, OpVerify p now); (up, OpRedeem q)] =
  Ok [Verified (Throw mint_down); Verified (Throw mint_down); Redeemed (Throw mint_down)].
Proof. reflexivity. Qed.

(** Peels the binds of a computation that succeeded. *)
Ltac bind_inv H :=
  repeat match type of H with
  | mbind _ _ = Ok _ => let x := fresh "x" in let Hx := fresh "Hx" in apply bind_Ok in H as (x & Hx & H)
  end.

(** ** [createProvider] *)
Section provider.
Context `{N : NostrLib} `{H : Noble}.

Definition DEFAULT_SELECTION_TIMEOUT_MS : number := num 60000.
Definition DEFAULT_HASH_TIMEOUT_MS : number := num 10000.
Definition DEFAULT_PREIMAGE_TIMEOUT_MS : number := num (5 * 60000).

(** [v ?? d] *)
Definition nullish_value (v d : jsval) : jsval := if missing v then d else v.

(** What the closures of a provider capture. *)
Record ProviderHandle := mkProviderHandle {
  ph_oracles : list jsval;
  ph_relays : list jsval;
  ph_mint : jsval;
  ph_identity : Keypair;
  ph_selectionTimeoutMs : jsval;
  ph_hashTimeoutMs : jsval;
  ph_preimageTimeoutMs : jsval;
  ph_proofGenerators : jsval;
  ph_schemaOptions : jsval;
  ph_oracleClients : jsval;
  ph_stateStore : jsval;
}.

(** A validated key is a string, which the default below never replaces. *)
Definition createProvider (options : jsval) : res ProviderHandle :=
  _ ← validateProviderOptions options;
  secretKey ← normalizeSecretKey (opt_default "" (as_string (prop "privKey" options)));
  Ok (mkProviderHandle (elements (prop "oracles" options)) (elements (prop "relays" options)) (prop "mint" options)
        (mkKeypair secretKey (getPublicKey secretKey))
        (nullish_value (prop "selectionTimeoutMs" options) (VNum DEFAULT_SELECTION_TIMEOUT_MS))
        (nullish_value (prop "hashTimeoutMs" options) (VNum DEFAULT_HASH_TIMEOUT_MS))
        (nullish_value (prop "preimageTimeoutMs" options) (VNum DEFAULT_PREIMAGE_TIMEOUT_MS))
        (nullish_value (prop "proofGenerators" options) (VArr [])) (prop "schemaOptions" options)
        (nullish_value (prop "oracleClients" options) (VObj [])) (prop "stateStore" options)).

(** [ph_pubkey] of the returned object. *)
Definition ph_pubkey (h : ProviderHandle) : string := kp_publicKey (ph_identity h).

Lemma require_ok ok m v : reject_if (negb ok) (provider_error m) tt = Ok v -> ok = true.
Proof. by destruct ok. Qed.

Lemma each_ok check l : each check l = Ok tt -> Forall (fun v => check v = Ok tt) l.
Proof.
  induction l as [|v l IH]; [constructor|]. cbn. destruct (check v) as [[]|e] eqn:E; [|done]. cbn. intros Hl.
  constructor; [done|by apply IH].
Qed.

(** What the validation of the options establishes. *)
Lemma options_validated o u :
  validateProviderOptions o = Ok u ->
  nonempty_array (prop "oracles" o) = true /\ Forall (fun v => nonempty_string v = true) (elements (prop "oracles" o)) /\
  nonempty_array (prop "relays" o) = true /\ nonempty_string (prop "mint" o) = true /\ nonempty_string (prop "privKey" o) = true /\
  Forall (fun g => is_fun (prop "canHandle" g) = true /\ is_fun (prop "produce" g) = true)
    (elements (nullish_value (prop "proofGenerators" o) (VArr []))).
Proof.
  unfold validateProviderOptions. cbv zeta. intros Hv. bind_inv Hv. repeat match goal with
  | Hx : reject_if (negb _) _ _ = Ok _ |- _ => apply require_ok in Hx
  end.
  split_and!; try done.
  - match goal with Hx : each _ (elements (prop "oracles" o)) = Ok ?u |- _ => destruct u; apply each_ok in Hx; eapply Forall_impl; [exact Hx|] end.
    intros v. apply require_ok.
  - clear -Hv. destruct u. unfold nullish_value. destruct (prop "proofGenerators" o) as [| | | | |l| |]; cbn [is_undef missing] in *; try done.
    cbn [negb reject_if mbind res_bind elements] in *. apply each_ok in Hv. eapply Forall_impl; [exact Hv|]. cbn beta. intros g Hg. bind_inv Hg.
    apply require_ok, andb_true_iff in Hg. exact Hg.
Qed.

(** A provider that could be constructed has an oracle to trust, a relay and a
    mint, each oracle a non-empty string, and the identity of a well-formed key; the
    generators it resolves are objects with both methods. *)
Theorem provider_well_configured options h :
  createProvider options = Ok h ->
  ph_oracles h <> [] /\ Forall (fun v => nonempty_string v = true) (ph_oracles h) /\ ph_relays h <> [] /\
  nonempty_string (ph_mint h) = true /\
  (exists key sk, prop "privKey" options = VStr key /\ normalizeSecretKey key = Ok sk /\ ph_identity h = mkKeypair sk (getPublicKey sk)) /\
  Forall (fun g => is_fun (prop "canHandle" g) = true /\ is_fun (prop "produce" g) = true) (elements (ph_proofGenerators h)).
Proof.
  unfold createProvider. intros Hc. bind_inv Hc. injection Hc as <-.
  match goal with Hv : validateProviderOptions _ = Ok _ |- _ => apply options_validated in Hv as (H1 & H2 & H3 & H4 & H5 & H6) end.
  cbn [ph_oracles ph_relays ph_mint ph_identity ph_proofGenerators]. split_and!; try done.
  - by destruct (prop "oracles" options) as [| | | | |[]| |].
  - by destruct (prop "relays" options) as [| | | | |[]| |].
  - destruct (prop "privKey" options) as [| | | |key| | |] eqn:E; try done. eauto.
Qed.
End provider.

(** ** The oracle service from the environment *)
Section oracle_env.
Context `{N : NostrLib} `{H : Noble}.

(** [createOracleNostrServiceFromEnv]: the identity and the relays of the service it
    constructs. *)
Definition createOracleNostrServiceFromEnv (config : OracleNostrRuntimeConfig) : res (option (NostrIdentity * list string)) :=
  match truthy (trim <$> on_secretKeyHex config) with
  | None => Ok None
  | Some secretKeyHex =>
      identity ← restoreIdentity secretKeyHex;
      match on_relayUrls config with
      | [] => Ok None
      | relayUrls => Ok (Some (identity, relayUrls))
      end
  end.

(** Over the environment of the process: a service starts exactly when a key is
    set, is well formed, and some relay is listed; a malformed key throws even
    without relays, and with a good key and no relay there is silently no service. *)
Theorem oracle_service_starts readEnv identity relays :
  createOracleNostrServiceFromEnv (oracleNostr_config readEnv) = Ok (Some (identity, relays)) <->
  exists key, trimmed readEnv "ORACLE_NOSTR_SECRET_KEY" = Some key /\ restoreIdentity key = Ok identity /\
    relays = readStringListEnv readEnv ["NOSTR_RELAYS"] /\ relays <> [].
Proof.
  unfold createOracleNostrServiceFromEnv, oracleNostr_config. cbn [on_secretKeyHex on_relayUrls].
  assert (Ht : truthy (trim <$> trimmed readEnv "ORACLE_NOSTR_SECRET_KEY") = trimmed readEnv "ORACLE_NOSTR_SECRET_KEY").
  { unfold trimmed. destruct (truthy (trim <$> readEnv "ORACLE_NOSTR_SECRET_KEY")) as [k|] eqn:E; [|done].
    apply truthy_Some in E as [E Hk]. destruct (readEnv "ORACLE_NOSTR_SECRET_KEY") as [v|]; [|done]. injection E as <-.
    apply truthy_Some. split; [|done]. change (Some (trim (trim v)) = Some (trim v)). by rewrite trim_idem. }
  rewrite Ht. destruct (trimmed readEnv "ORACLE_NOSTR_SECRET_KEY") as [key|]; [|split; [done|by intros (k & ? & _)]].
  destruct (restoreIdentity key) as [i|e] eqn:Er; cbn [mbind res_bind].
  - destruct (readStringListEnv readEnv ["NOSTR_RELAYS"]) as [|r l] eqn:El.
    + split; [done|]. by intros (k & _ & _ & -> & ?).
    + split; [intros [= <- <-]; eauto|]. intros (k & E & Hk & -> & _). injection E as <-. rewrite Er in Hk. by injection Hk as ->.
  - split; [done|]. intros (k & E & Hk & _). congruence.
Qed.
End oracle_env.

(** ** The peer process: [server-entry.ts] *)

(** [Number(env) || d] *)
Definition env_number (value : option string) (d : number) : number :=
  let n := match value with Some s => js_Number s | None => NaN end in if num_truthy n then n else d.

Record OracleProcess := mkOracleProcess { op_options : OracleAppOptions; op_port : number }.

(** [load] is [loadFrostNodeConfig] on a file that holds a configuration of its
    declared type; a failure is logged and the process goes on without it. *)
Definition server_entry (readEnv : EnvReader) (load : string -> res FrostNodeConfig) : OracleProcess :=
  let oracleId := opt_default "remote-oracle" (readEnv "ORACLE_ID") in
  let apiKey := trim <$> readEnv "ORACLE_API_KEY" in
  let port := env_number (readEnv "ORACLE_PORT") (num 4000) in
  let feePpm := env_number (readEnv "ORACLE_FEE_PPM") (num 0) in
  let frostNodeConfig := match truthy (trim <$> readEnv "FROST_CONFIG_PATH") with
                         | Some path => res_option (load path)
                         | None => None
                         end in
  mkOracleProcess (mkOracleAppOptions (Some oracleId) apiKey (Some feePpm) (toThresholdOracleConfig <$> frostNodeConfig) frostNodeConfig) port.

Section entry.
Context `{J : JSON} `{N : Noble} `{L : CashuLib} {E : Type}.
Context (spawn : list string -> E -> E * ProcOutcome) (randomUUID : E -> E * string)
  (verifyJson : jsval -> jsval -> jsval -> call E VerificationDetail) (executor : SidecarExecutor).
Variables (readEnv : EnvReader) (load : string -> res FrostNodeConfig).
Local Notation served := (buildOracleApp spawn randomUUID verifyJson executor (op_options (server_entry readEnv load))).

(** The key of the environment decides who may use the peer.  With a key, a request
    without it is refused on every route but [/health] and [/info]; without one, or
    with one that is only white space, the credentials of a request are not looked
    at and every route is open. *)
Theorem entry_guarded_by_key a x req s :
  match trimmed readEnv "ORACLE_API_KEY" with
  | Some secret =>
      a <> Some ("Bearer " +:+ secret) -> x <> Some secret -> req <> GetHealth -> req <> GetInfo ->
      served a x req s = ret (http_error 401 (VStr "Unauthorized")) s
  | None => served a x req s = served None None req s
  end.
Proof.
  unfold trimmed. destruct (truthy (trim <$> readEnv "ORACLE_API_KEY")) as [secret|] eqn:Ek.
  - intros Ha Hx H1 H2. apply truthy_Some in Ek as [Ek Hs].
    apply (server_requires_key _ _ _ _ _ secret); [|done..]. exact Ek.
  - unfold buildOracleApp. cbn [oa_apiKey op_options server_entry].
    destruct (guarded_route _ _ _ _ _ req) as [h|]; [|done]. unfold buildAuthMiddleware. by rewrite Ek.
Qed.

(** A configuration that does not load leaves a server without a signer: it starts
    and serves the routes that need none. *)
Lemma entry_without_config e :
  load (opt_default "" (trimmed readEnv "FROST_CONFIG_PATH")) = Throw e ->
  oa_frostNodeConfig (op_options (server_entry readEnv load)) = None /\ oa_frostConfig (op_options (server_entry readEnv load)) = None.
Proof.
  cbn [op_options server_entry oa_frostNodeConfig oa_frostConfig]. unfold trimmed.
  destruct (truthy (trim <$> readEnv "FROST_CONFIG_PATH")) as [path|]; [|done]. cbn. by intros ->.
Qed.
End entry.
