(* ===== verification/TestSupport.v ===== *)
(** * The quick start and the support code of the tests

    [examples/quick-start/mod.ts] over a relay; [e2e/helpers/regtest.ts]: probes of the
    services, pacing and retries towards a mint; [testing/helpers.ts] and [testing/attachments.ts] of the
    SDK. *)

From S2P Require Import Prelude JsNum JsMap JsString JsValue JsonCodec EventLoop SchemaUri QueryTypes Nostr NostrEvents RelayClient.
From S2P Require Import PreimageStore C2pa CashuTypes MemoryRelay Runtime Samples.

(** The environment variables. *)
Definition Env := gmap string string.

(** ** The quick start *)
Record QuickStartResult := mkQuickStart {
  qs_queryId : string;
  qs_eventId : string;
  qs_acceptedBy : list string;
  qs_echoed : QueryRequestPayload;
}.

Definition quick_start_error (message : string) : exn := mkExn "QuickStartError" message.

Section quick_start.
Context `{N : NostrLib} `{J : JSON} {E : Type} (rc : RelayClient E) (date_now : E -> number).

Definition quick_query_id (identity : Keypair) : string := "quick-start-" +:+ slice0 12 (kp_publicKey identity).

Definition quick_notice (identity oracle : Keypair) (now : number) : QueryRequestPayload :=
  mkQueryRequest (quick_query_id identity) ProofSchema_TlsnV1 (kp_publicKey identity) (kp_publicKey oracle)
    (num 21) (nadd now (num 60000)).

Definition quick_event (identity oracle : Keypair) (now : number) : Event :=
  buildQueryRequestEvent identity (quick_notice identity oracle now) None now.

Definition quick_filter (identity : Keypair) : Filter := mkFilter [KIND_QUERY_REQUEST] (Some [kp_publicKey identity]) [].

(** The handler of the subscription. *)
Definition match_echo (queryId : string) (incoming : Event) : option QueryRequestPayload :=
  match parseQueryRequestEvent incoming with
  | Some parsed => if qr_query_id parsed === queryId then Some parsed else None
  | None => None
  end.

Definition failure_list (failures : list (string * string)) : string :=
  String.concat ", " ((fun f => f.1 +:+ ": " +:+ f.2) <$> failures).

Definition runQuickStart (identity oracle : Keypair) (timeoutMs : option number) : call E QuickStartResult := fun e =>
  let timeout := opt_default (num 10000) timeoutMs in
  let queryId := quick_query_id identity in
  let event := quick_event identity oracle (date_now e) in
  let '(e1, subscription) := subscribe rc (quick_filter identity) e in
  await (publish rc event) (fun publishResult =>
    match pr_successes publishResult with
    | [] => fail (quick_start_error ("no relay accepted the Request Notice: " +:+ failure_list (pr_failures publishResult)))
    | acceptedBy =>
        await (wait_result rc subscription (match_echo queryId) timeout) (fun echoed =>
          match echoed with
          | Some p => ret (mkQuickStart queryId (ev_id event) acceptedBy p)
          | None => fail (quick_start_error ("relay did not echo the Request Notice within " +:+ number_to_string timeout +:+ "ms"))
          end)
    end) e1.
End quick_start.

(** The in-memory relay as a transport: by the time of a deadline its microtasks
    have run. *)
Definition drained (r : MemoryRelay) : MemoryRelay := relay_run (replicate (length (mr_microtasks r)) RelayTick) r.
Definition delivered_to (id : nat) (r : MemoryRelay) : list Event :=
  snd <$> List.filter (fun d => Nat.eqb (sb_id d.1) id) (mr_delivered r).
Definition memory_client : RelayClient MemoryRelay :=
  mkRelay (fun event r => (relay_publish event r, Ok (mkPublishResult ["mock://in-memory-relay"] []))) relay_subscribe
    (fun sub r => relay_close_sub (sub_ref sub) r) (fun sub _ r => (drained r, delivered_to (sub_ref sub) (drained r))).

Section over_memory.
Context `{N : NostrLib} `{J : JSON} `{!JSONLaws J} `{!NostrLaws N}.

Lemma notice_passes_filter identity oracle now :
  kp_publicKey identity = getPublicKey (kp_secretKey identity) -> matchesFilter (quick_filter identity) (quick_event identity oracle now) = true.
Proof.
  intros Hk. unfold matchesFilter, quick_event, buildQueryRequestEvent. rewrite ev_kind_signed, ev_pubkey_signed. cbn [fl_kinds fl_authors fl_tags quick_filter].
  rewrite !bool_decide_true; [done| |]; apply list_elem_of_singleton; [by rewrite Hk|done].
Qed.

(** One subscription, one matching publication, one delivery. *)
Lemma memory_echo f event t (r1 := (relay_subscribe f createInMemoryRelayClient).1) (r2 := relay_publish event r1) :
  matchesFilter f event = true ->
  rc_events memory_client (mkSub 1 f) t r2 = (drained r2, [event]) /\ mr_subscriptions (relay_close_sub 1 (drained r2)) = [].
Proof.
  intros Hm. subst r2 r1. cbn [rc_events memory_client sub_ref].
  assert (Hr : relay_publish event (relay_subscribe f createInMemoryRelayClient).1 = mkMemoryRelay [mkSubRecord 1 f] 2 [(mkSubRecord 1 f, event)] []).
  { unfold relay_publish. cbn. by rewrite Hm. }
  by rewrite Hr.
Qed.

(** Over the in-memory relay the quick start reads its own notice back, unchanged,
    and leaves no subscription behind. *)
Theorem quick_start_reads_back identity oracle timeoutMs now :
  json_ok (VObj (set_field "version" (VNum (num QUERY_REQUEST_VERSION)) (request_fields (quick_notice identity oracle now)))) ->
  isFinite (nadd now (num 60000)) = true -> kp_publicKey identity = getPublicKey (kp_secretKey identity) ->
  let '(r, result) := run_call (runQuickStart memory_client (fun _ => now) identity oracle timeoutMs) createInMemoryRelayClient in
  result = Ok (mkQuickStart (quick_query_id identity) (ev_id (quick_event identity oracle now)) ["mock://in-memory-relay"]
                 (quick_notice identity oracle now)) /\
  mr_subscriptions r = [].
Proof.
  intros Hok Hf Hk. unfold runQuickStart, run_call.
  destruct (memory_echo (quick_filter identity) (quick_event identity oracle now) (opt_default (num 10000) timeoutMs)) as [He Hs];
    [by apply notice_passes_filter|].
  assert (Hsub : subscribe memory_client (quick_filter identity) createInMemoryRelayClient =
    ((relay_subscribe (quick_filter identity) createInMemoryRelayClient).1, mkSub 1 (quick_filter identity))) by done.
  rewrite Hsub. unfold await, publish. cbn [rc_publish memory_client fst snd tbind run_alone pr_successes].
  unfold wait_result. rewrite He. cbn [fmap list_fmap app wait_run fold_left wait_step].
  assert (Hp : match_echo (quick_query_id identity) (quick_event identity oracle now) = Some (quick_notice identity oracle now)).
  { unfold match_echo, quick_event. rewrite request_notice_roundtrip by done. by rewrite bool_decide_true. }
  unfold wait_run. cbn [fold_left wait_step]. rewrite Hp. cbn. split; [done|exact Hs].
Qed.
End over_memory.

(** ** Pacing and retries towards a mint: [regtest.ts] *)
Section retry.
Context {E T : Type} (fn : call E T) (setTimeout : Z -> call E unit).

(** [2000 * 2 ** attempt] *)
Definition backoff (attempt : nat) : Z := (2000 * 2 ^ Z.of_nat attempt)%Z.

Definition rate_limited (err : exn) : bool := includes "Rate limit" (exn_message err).

(** The loop from attempt [attempt], with [left] retries to go. *)
Fixpoint retry_loop (attempt left : nat) : call E T :=
  try_catch fn (fun err =>
    match left with
    | O => fail err
    | S left' => if rate_limited err then await (setTimeout (backoff attempt)) (fun _ => retry_loop (S attempt) left') else fail err
    end).

Definition retryOnRateLimit (maxRetries : option nat) : call E T := retry_loop 0 (opt_default 3%nat maxRetries).
End retry.

(** A mint that answers from a list, and the waits of the caller. *)
Record Scripted (T : Type) := mkScripted { sc_answers : list (res T); sc_waits : list Z }.
Arguments mkScripted {T}. Arguments sc_answers {T}. Arguments sc_waits {T}.

Definition scripted_fn {T} : call (Scripted T) T := fun s =>
  match sc_answers s with
  | [] => fail (mkExn "Error" "no answer") s
  | r :: rest => (mkScripted rest (sc_waits s), Await (fun s' => (s', Settled r)))
  end.
Definition scripted_wait {T} (ms : Z) : call (Scripted T) unit := fun s =>
  (mkScripted (sc_answers s) (sc_waits s ++ [ms]), Settled (Ok tt)).

(** How many retries the answers ask for, out of [left]. *)
Fixpoint retries {T} (answers : list (res T)) (left : nat) : nat :=
  match answers, left with
  | Throw err :: answers', S left' => if rate_limited err then S (retries answers' left') else 0
  | _, _ => 0
  end%nat.

Lemma retry_loop_run {T} (answers : list (res T)) waits attempt left :
  (left < length answers)%nat ->
  let k := retries answers left in
  exists r, answers !! k = Some r /\
  run_call (retry_loop scripted_fn scripted_wait attempt left) (mkScripted answers waits) =
  (mkScripted (drop (S k) answers) (waits ++ ((fun i => backoff (attempt + i)) <$> seq 0 k)), r).
Proof.
  revert answers waits attempt. induction left as [|left IH]; intros answers waits attempt Hl; cbv zeta;
    destruct answers as [|[v|err] answers]; cbn [length] in Hl; try lia.
  - exists (Ok v). split; [done|]. cbn [retry_loop]. rewrite run_call_try. cbn. by rewrite drop_0, app_nil_r.
  - exists (Throw err). split; [done|]. cbn [retry_loop]. rewrite run_call_try. cbn. by rewrite drop_0, app_nil_r.
  - exists (Ok v). split; [done|]. cbn [retry_loop]. rewrite run_call_try. cbn. by rewrite drop_0, app_nil_r.
  - cbn [retries retry_loop]. rewrite run_call_try. unfold run_call at 1. cbn [scripted_fn sc_answers sc_waits run_alone fst snd].
    destruct (rate_limited err).
    + rewrite run_call_await. unfold run_call at 1. cbn [scripted_wait sc_answers sc_waits run_alone fst snd].
      destruct (IH answers (waits ++ [backoff attempt]) (S attempt)) as (r & Hr & Hrun); [lia|]. exists r. split; [exact Hr|].
      rewrite Hrun. cbn [drop seq fmap list_fmap]. rewrite <- app_assoc, <- seq_shift, <- list_fmap_compose. cbn [app].
      rewrite Nat.add_0_r. do 4 f_equal. apply list_fmap_ext. intros i x _. cbn. f_equal. lia.
    + exists (Throw err). split; [done|]. cbn. by rewrite drop_0, app_nil_r.
Qed.

(** Retrying is bounded: the caller gets the first answer that is not a rate-limit
    error, or the last one allowed; the operation runs once more than it waits, at
    most [maxRetries + 1] times; and the waits are 2, 4, 8, ... seconds. *)
Theorem retry_bounded {T} (answers : list (res T)) maxRetries :
  (maxRetries < length answers)%nat ->
  exists k r, (k <= maxRetries)%nat /\ answers !! k = Some r /\
  (forall i, (i < k)%nat -> exists err, answers !! i = Some (Throw err) /\ rate_limited err = true) /\
  (k < maxRetries -> forall err, r = Throw err -> rate_limited err = false)%nat /\
  run_call (retryOnRateLimit scripted_fn scripted_wait (Some maxRetries)) (mkScripted answers []) =
  (mkScripted (drop (S k) answers) (backoff <$> seq 0 k), r).
Proof.
  intros Hl. destruct (retry_loop_run answers [] 0 maxRetries Hl) as (r & Hr & Hrun). cbv zeta in *.
  exists (retries answers maxRetries), r. split_and!; [|done| | |exact Hrun]; clear Hrun.
  - clear. revert maxRetries. induction answers as [|[v|err] l IH]; intros [|n]; cbn; try lia. destruct (rate_limited err); [|lia]. specialize (IH n). lia.
  - clear. revert maxRetries. induction answers as [|[v|err] l IH]; intros [|n] i Hi; cbn in Hi; try lia.
    destruct (rate_limited err) eqn:E; [|lia]. destruct i as [|i]; [by exists err|]. apply (IH n). lia.
  - clear Hl. revert maxRetries r Hr. induction answers as [|[v|err'] l IH]; intros [|n] r Hr Hk err ->; cbn in *; try done; try lia.
    destruct (rate_limited err') eqn:E; [|injection Hr as ->; done]. apply (IH n (Throw err)); [exact Hr|lia|done].
Qed.

Section mint.
Context {E P : Type}.

(** Ports: the clock, the variable [lastMintOpTime], timers, and the wallet with the
    command line of the paying node. *)
Record MintPorts := mkMintPorts {
  mp_now : E -> Z;
  mp_last : E -> Z;
  mp_setLast : Z -> E -> E;
  mp_setTimeout : Z -> call E unit;
  mp_createMintQuote : Z -> call E (string * string);
  mp_payInvoice : string -> call E bool;
  mp_mintProofs : Z -> string -> call E (list P);
}.

Definition MINT_OP_INTERVAL_MS : Z := 500.

(** [lastMintOpTime = Date.now()] *)
Definition stamp_mint_op (m : MintPorts) : call E unit := fun e => (mp_setLast m (mp_now m e) e, Settled (Ok tt)).

Definition throttleMintOp (m : MintPorts) : call E unit := fun e =>
  let elapsed := (mp_now m e - mp_last m e)%Z in
  (if (elapsed <? MINT_OP_INTERVAL_MS)%Z then await (mp_setTimeout m (MINT_OP_INTERVAL_MS - elapsed)%Z) (fun _ => stamp_mint_op m)
   else stamp_mint_op m) e.

Definition mint_via_invoice (m : MintPorts) (amountSats : Z) : call E (list P) :=
  await (mp_createMintQuote m amountSats) (fun mintQuote =>
    await (mp_payInvoice m mintQuote.1) (fun paid =>
      if negb paid then fail (mkExn "Error" "Failed to pay Lightning invoice via lnd-user")
      else await (mp_setTimeout m 2000%Z) (fun _ => await (mp_mintProofs m amountSats mintQuote.2) ret))).

Definition throttledMintProofs (m : MintPorts) (amountSats : Z) : call E (list P) :=
  await (throttleMintOp m) (fun _ => await (retryOnRateLimit (mint_via_invoice m amountSats) (mp_setTimeout m) None) ret).

(** Run one after another, operations start at least the interval apart: after the
    throttle the recorded time is the current one and the interval since the
    recorded time before has passed, when a timer never fires early. *)
Theorem throttle_spaces m e :
  (forall t e, mp_last m (mp_setLast m t e) = t /\ mp_now m (mp_setLast m t e) = mp_now m e) ->
  (forall ms e, let '(e', r) := run_call (mp_setTimeout m ms) e in
     r = Ok tt /\ (mp_now m e + ms <= mp_now m e')%Z /\ mp_last m e' = mp_last m e) ->
  let '(e', r) := run_call (throttleMintOp m) e in
  r = Ok tt /\ mp_last m e' = mp_now m e' /\ (mp_last m e + MINT_OP_INTERVAL_MS <= mp_last m e')%Z.
Proof.
  intros Hset Htimer. set (el := (mp_now m e - mp_last m e)%Z).
  change (run_call (throttleMintOp m) e) with (run_call (if (el <? MINT_OP_INTERVAL_MS)%Z
    then await (mp_setTimeout m (MINT_OP_INTERVAL_MS - el)%Z) (fun _ => stamp_mint_op m) else stamp_mint_op m) e).
  destruct (Z.ltb_spec el MINT_OP_INTERVAL_MS) as [Hlt|Hge].
  - rewrite run_call_await. specialize (Htimer (MINT_OP_INTERVAL_MS - el)%Z e).
    destruct (run_call (mp_setTimeout m (MINT_OP_INTERVAL_MS - el)%Z) e) as [e1 r1]. destruct Htimer as (-> & Hn & Hl).
    cbn. destruct (Hset (mp_now m e1) e1) as [-> ->]. split_and!; [done|done|]. unfold el in *. lia.
  - cbn. destruct (Hset (mp_now m e) e) as [-> ->]. split_and!; [done|done|]. unfold el in *. lia.
Qed.

(** A quote whose invoice is not paid is never minted. *)
Lemma unpaid_not_minted m amount quote invoice e e1 e2 :
  run_call (mp_createMintQuote m amount) e = (e1, Ok (invoice, quote)) -> run_call (mp_payInvoice m invoice) e1 = (e2, Ok false) ->
  run_call (mint_via_invoice m amount) e = (e2, Throw (mkExn "Error" "Failed to pay Lightning invoice via lnd-user")).
Proof. intros H1 H2. unfold mint_via_invoice. rewrite run_call_await, H1, run_call_await. cbn [fst]. by rewrite H2. Qed.
End mint.

(** ** Probes of the regtest services: [regtest.ts] *)

(** [Promise.all] of two outstanding promises: control goes back to the loop until
    both have settled; [order] says whose segment runs next while both wait. *)
Definition tmap {S A B} (f : A -> B) : task S A -> task S B :=
  fix go t :=
    match t with
    | Settled (Ok a) => Settled (Ok (f a))
    | Settled (Throw e) => Settled (Throw e)
    | Await k => Await (fun s => let '(s', t') := k s in (s', go t'))
    end.

Fixpoint all_both {S A B} (t1 : task S A) : task S B -> list bool -> task S (A * B) :=
  fix other (t2 : task S B) (order : list bool) : task S (A * B) :=
    match t1, t2 with
    | Settled (Ok a), _ => tmap (pair a) t2
    | Settled (Throw e), _ | _, Settled (Throw e) => Settled (Throw e)
    | Await _, Settled (Ok b) => tmap (fun a => (a, b)) t1
    | Await k1, Await k2 =>
        match order with
        | true :: order' => Await (fun s => let '(s', t2') := k2 s in (s', other t2' order'))
        | _ => Await (fun s => let '(s', t1') := k1 s in (s', all_both t1' t2 (tail order)))
        end
    end.

Definition promise_all2 {S A B} (c1 : call S A) (c2 : call S B) (order : list bool) : call S (A * B) := fun s =>
  let '(s1, t1) := c1 s in let '(s2, t2) := c2 s1 in (s2, all_both t1 t2 order).

(** [settles t r]: whatever the others do between its segments, [t] settles with
    [r]. *)
Fixpoint settles {S A} (t : task S A) (r : res A) : Prop :=
  match t with Settled r' => r' = r | Await k => forall s, settles (k s).2 r end.
Definition answers {S A} (c : call S A) (r : res A) : Prop := forall s, settles (c s).2 r.

Section settling.
Context {S : Type}.

Lemma settles_tmap {A B} (f : A -> B) (t : task S A) a : settles t (Ok a) -> settles (tmap f t) (Ok (f a)).
Proof.
  induction t as [[b|e]|k IH] using task_induction; intros H; cbn in *; [by injection H as ->|done|].
  intros s. specialize (IH s). specialize (H s). destruct (k s) as [s' t']. by apply IH.
Qed.

Lemma settles_all {A B} (t1 : task S A) (t2 : task S B) order a b :
  settles t1 (Ok a) -> settles t2 (Ok b) -> settles (all_both t1 t2 order) (Ok (a, b)).
Proof.
  revert t2 order. induction t1 as [[a'|e]|k1 IH1] using task_induction; intros t2 order H1; [|done|].
  { injection H1 as ->. intros H2. destruct t2; by apply settles_tmap. }
  revert order. induction t2 as [[b'|e]|k2 IH2] using task_induction; intros order H2; [|done|].
  { injection H2 as ->. by apply (settles_tmap (fun x => (x, b))). }
  destruct order as [|[] order]; cbn [all_both settles]; intros s.
  - specialize (H1 s). specialize (IH1 s). destruct (k1 s) as [s' t1']. by apply IH1.
  - specialize (H2 s). specialize (IH2 s). destruct (k2 s) as [s' t2']. by apply IH2.
  - specialize (H1 s). specialize (IH1 s). destruct (k1 s) as [s' t1']. by apply IH1.
Qed.

Lemma settles_bind {A B} (t : task S A) (k : A -> call S B) (r : res A) r' :
  settles t r -> match r with Ok a => answers (k a) r' | Throw e => r' = Throw e end -> settles (tbind t k) r'.
Proof.
  induction t as [[a|e]|f IH] using task_induction; intros H Hk; cbn in *.
  - subst r. exact Hk.
  - by subst r.
  - intros s. specialize (H s). specialize (IH s). destruct (f s) as [s' t']. by apply IH.
Qed.

Lemma answers_await {A B} (c : call S A) (k : A -> call S B) (r : res A) r' :
  answers c r -> match r with Ok a => answers (k a) r' | Throw e => r' = Throw e end -> answers (await c k) r'.
Proof. intros H Hk s. unfold await. specialize (H s). destruct (c s) as [s' t]. by apply (settles_bind _ _ r). Qed.

Lemma answers_try {A} (c : call S A) (h : exn -> call S A) (r : res A) r' :
  answers c r -> match r with Ok a => r' = Ok a | Throw e => answers (h e) r' end -> answers (try_catch c h) r'.
Proof.
  intros H Hh s. unfold try_catch. specialize (H s). destruct (c s) as [s' t]. cbn [snd] in H. clear s. revert s' H.
  induction t as [[a|e]|f IH] using task_induction; intros s' H; cbn in *.
  - subst r. by subst r'.
  - subst r. apply Hh.
  - intros s. specialize (H s). specialize (IH s). destruct (f s) as [s2 t2]. by apply IH.
Qed.

Lemma answers_all {A B} (c1 : call S A) (c2 : call S B) order a b :
  answers c1 (Ok a) -> answers c2 (Ok b) -> answers (promise_all2 c1 c2 order) (Ok (a, b)).
Proof.
  intros H1 H2 s. unfold promise_all2. specialize (H1 s). destruct (c1 s) as [s1 t1]. specialize (H2 s1).
  destruct (c2 s1) as [s2 t2]. by apply settles_all.
Qed.
End settling.

Section probes.
Context `{U : UrlApi} `{N : NostrLib} `{H : Noble} (url_port : UrlParts -> string) {E W : Type}.

(** Ports: [fetch] (the answer's [ok]) with the cancellation of its body, a child
    process run to its exit code, a TCP connection that is closed at once, the
    console, the environment, and the wallet library. *)
Record RegtestPorts := mkRegtestPorts {
  rp_fetch : string -> number -> call E bool;
  rp_cancel : call E unit;
  rp_spawn : res Command -> call E Z;
  rp_connect : string -> number -> call E unit;
  rp_warn : string -> E -> E;
  rp_env : E -> Env;
  rp_Wallet : string -> string -> W;
  rp_loadMint : W -> call E unit;
}.

(** The handler of [catch { return false; }]. *)
Definition unreachable : exn -> call E bool := fun _ => ret false.

Definition isCashuMintReachable (p : RegtestPorts) (mintUrl : string) : call E bool :=
  try_catch (await (rp_fetch p (mintUrl +:+ "/v1/info") (num 3000)) (fun ok => await (rp_cancel p) (fun _ => ret ok))) unreachable.

Definition lnd_user_command (args : list string) : res Command :=
  spawn_command (["docker"; "compose"; "exec"; "-T"; "lnd-user"; "lncli"; "--network"; "regtest"; "--rpcserver"; "lnd-user:10009"] ++ args)
    (Some (mkSpawnOptions (Some "pipe") (Some "pipe") None None None)).

Definition isLndUserReachable (p : RegtestPorts) : call E bool :=
  try_catch (await (rp_spawn p (lnd_user_command ["getinfo"])) (fun exitCode => ret (Z.eqb exitCode 0))) unreachable.

Definition payInvoiceViaLndUser (p : RegtestPorts) (bolt11 : string) : call E bool :=
  try_catch (await (rp_spawn p (lnd_user_command ["payinvoice"; "--force"; bolt11])) (fun exitCode => ret (Z.eqb exitCode 0))) unreachable.

Definition createWallet (p : RegtestPorts) (mintUrl : string) : call E W :=
  let wallet := rp_Wallet p mintUrl "sat" in await (rp_loadMint p wallet) (fun _ => ret wallet).

(** [generateKeypair()]: the secret key in hex, and the public key. *)
Definition regtest_keypair (sk : SecretKey) : string * string := (bytesToHex sk, getPublicKey sk).

Definition relay_port (parsed : UrlParts) : number :=
  if str_truthy (url_port parsed) then js_Number (url_port parsed) else if url_protocol parsed === "wss:" then num 443 else num 80.

Definition isRelayReachable (p : RegtestPorts) (wsUrl : string) : call E bool :=
  match URL_parse wsUrl with
  | None => ret false
  | Some parsed => try_catch (await (rp_connect p (url_hostname parsed) (relay_port parsed)) (fun _ => ret true)) unreachable
  end.

(** The warnings of [checkInfraReady]. *)
Definition infra_warnings (mintUrl : string) (mintReachable lndReachable : bool) : list string :=
  (if mintReachable then [] else
     ["[e2e] Cashu mint not reachable at " +:+ mintUrl +:+ " – tests will be ignored.";
      "  Run: docker compose up -d && ./scripts/init-regtest.sh && docker compose restart cashu-mint"]) ++
  (if lndReachable then [] else ["[e2e] lnd-user not reachable – tests will be ignored."]).

Definition not_ready_error : exn := mkExn "Error" "Regtest infrastructure is required but not ready".

Definition checkInfraReady (p : RegtestPorts) (mintUrl : string) (order : list bool) : call E bool := fun e =>
  let requireInfra := bool_decide (rp_env p e !! "ANCHR_E2E_REQUIRE_INFRA" = Some "1") in
  await (promise_all2 (isCashuMintReachable p mintUrl) (isLndUserReachable p) order) (fun '(mintReachable, lndReachable) e1 =>
    (foldl (fun e m => rp_warn p m e) e1 (infra_warnings mintUrl mintReachable lndReachable),
     Settled (if requireInfra && (negb mintReachable || negb lndReachable) then Throw not_ready_error
              else Ok (mintReachable && lndReachable)))) e.

(** What a probe reports of an answer. *)
Definition probe_ok (r : res Z) : bool := match r with Ok code => Z.eqb code 0 | Throw _ => false end.
Definition mint_ok (answer : res bool) (cancel : res unit) : bool :=
  match answer, cancel with Ok ok, Ok _ => ok | _, _ => false end.

Lemma mint_probe p mintUrl answer cancel :
  answers (rp_fetch p (mintUrl +:+ "/v1/info") (num 3000)) answer -> answers (rp_cancel p) cancel ->
  answers (isCashuMintReachable p mintUrl) (Ok (mint_ok answer cancel)).
Proof.
  intros Hf Hc. set (r := match answer with Ok ok => match cancel with Ok _ => Ok ok | Throw e => Throw e end | Throw e => Throw e end).
  apply (answers_try _ _ r); [|by destruct answer, cancel].
  apply (answers_await _ _ answer); [done|]. destruct answer as [ok|]; [|done]. apply (answers_await _ _ cancel); [done|]. by destruct cancel.
Qed.

Lemma lnd_probe p args exit :
  answers (rp_spawn p (lnd_user_command args)) exit ->
  answers (try_catch (await (rp_spawn p (lnd_user_command args)) (fun exitCode => ret (Z.eqb exitCode 0))) unreachable) (Ok (probe_ok exit)).
Proof.
  intros Hs. apply (answers_try _ _ (match exit with Ok c => Ok (Z.eqb c 0) | Throw e => Throw e end)); [|by destruct exit].
  apply (answers_await _ _ exit); [done|]. by destruct exit.
Qed.

(** The tests run exactly when the mint answers well and the paying node's command
    exits with zero, whatever the order in which the two probes progress and
    whatever runs between: no failure of a probe escapes.  The check throws exactly
    when the infrastructure is required and one of the two is missing. *)
Theorem infra_ready_exact p mintUrl order answer cancel exit e :
  answers (rp_fetch p (mintUrl +:+ "/v1/info") (num 3000)) answer -> answers (rp_cancel p) cancel ->
  answers (rp_spawn p (lnd_user_command ["getinfo"])) exit ->
  let ready := mint_ok answer cancel && probe_ok exit in
  let required := bool_decide (rp_env p e !! "ANCHR_E2E_REQUIRE_INFRA" = Some "1") in
  settles (checkInfraReady p mintUrl order e).2 (if required && negb ready then Throw not_ready_error else Ok ready).
Proof.
  intros Hf Hc Hs. cbv zeta. unfold checkInfraReady. set (required := bool_decide _).
  eapply (answers_await _ _ (Ok (_, _))); [apply answers_all; [by apply mint_probe|by apply lnd_probe]|].
  intros e1. cbn [snd settles]. by rewrite <- negb_andb.
Qed.

(** An invoice counts as paid only when the node's command exits with zero. *)
Lemma invoice_paid p bolt11 exit :
  answers (rp_spawn p (lnd_user_command ["payinvoice"; "--force"; bolt11])) exit ->
  answers (payInvoiceViaLndUser p bolt11) (Ok (probe_ok exit)).
Proof. apply lnd_probe. Qed.

(** A relay is probed at the port its URL names, or at the scheme's own. *)
Lemma relay_probe p wsUrl parsed r :
  URL_parse wsUrl = Some parsed -> answers (rp_connect p (url_hostname parsed) (relay_port parsed)) r ->
  answers (isRelayReachable p wsUrl) (Ok (match r with Ok _ => true | Throw _ => false end)).
Proof.
  intros Hu Hc. unfold isRelayReachable. rewrite Hu. apply (answers_try _ _ (match r with Ok _ => Ok true | Throw e => Throw e end)); [|by destruct r].
  apply (answers_await _ _ r); [done|]. by destruct r.
Qed.
End probes.

(** A mint that is slow and a node that is down, with the infrastructure required. *)
Example infra_required :
  let slow {A} (r : res A) : call (list string) A := fun w => (w, Await (fun w' => (w', Settled r))) in
  let p := mkRegtestPorts (fun _ _ => slow (Ok true)) (slow (Ok tt)) (fun _ => slow (Throw (mkExn "NotFound" "docker"))) (fun _ _ => ret tt)
    (fun m w => w ++ [m]) (fun _ => {[ "ANCHR_E2E_REQUIRE_INFRA" := "1" ]}) pair (fun _ => ret tt) in
  run_call (checkInfraReady p "http://mint" [true; false; true]) [] =
  (["[e2e] lnd-user not reachable – tests will be ignored."], Throw not_ready_error).
Proof. reflexivity. Qed.

(** ** Environment overrides: [testing/helpers.ts] *)
(** [Deno.env.delete] or [Deno.env.set]. *)
Definition put_env_var (key : string) (value : option string) (env : Env) : Env :=
  match value with None => delete key env | Some v => <[key := v]> env end.

(** The loop that saves and overrides. *)
Fixpoint apply_overrides (overrides : list (string * option string)) (env : Env) (saved : jsmap string (option string))
    : jsmap string (option string) * Env :=
  match overrides with
  | [] => (saved, env)
  | (key, value) :: rest => apply_overrides rest (put_env_var key value env) (jm_set key (env !! key) saved)
  end.

Definition restore_env (saved : jsmap string (option string)) (env : Env) : Env :=
  foldl (fun e p => put_env_var p.1 p.2 e) env saved.

(** What [fn] does: throw at once, return, or return a promise, with the environment
    it leaves (when the promise settles, in the last case). *)
Inductive fn_outcome := FnThrows (e : exn) | FnReturns | FnPromise (settled : res unit).

(** [withEnv(overrides, fn)], to the point where what it returns has settled. *)
Definition withEnv (overrides : list (string * option string)) (fn : Env -> Env * fn_outcome) (env : Env) : Env * res unit :=
  let '(saved, env1) := apply_overrides overrides env [] in
  match fn env1 with
  | (env2, FnThrows e) => (env2, Throw e)
  | (env2, FnReturns) => (restore_env saved env2, Ok tt)
  | (env2, FnPromise r) => (restore_env saved env2, r)
  end.

Lemma put_env_lookup key value env k : put_env_var key value env !! k = if bool_decide (key = k) then value else env !! k.
Proof.
  case_bool_decide as E; [subst k|]; destruct value; cbn;
    [apply lookup_insert_eq|apply lookup_delete_eq|by apply lookup_insert_ne|by apply lookup_delete_ne].
Qed.

Lemma restore_lookup saved env k :
  jm_wf saved -> restore_env saved env !! k = match jm_get k saved with Some v => v | None => env !! k end.
Proof.
  revert env. induction saved as [|[k' v] saved IH]; intros env Hn; [done|]. cbn in Hn. apply NoDup_cons in Hn as [Hk Hn].
  change (restore_env saved (put_env_var k' v env) !! k = match jm_get k ((k', v) :: saved) with Some v => v | None => env !! k end).
  rewrite (IH _ Hn), put_env_lookup. cbn [jm_get]. rewrite (bool_decide_ext (k' = k) (k = k')) by naive_solver.
  case_bool_decide as E; [|done]. subst k'. destruct (jm_get k saved) as [w|] eqn:Ew; [|done]. exfalso. apply Hk.
  apply list_elem_of_fmap. exists (k, w). split; [done|]. by apply jm_get_Some_in.
Qed.

(** Distinct names: each is saved with the value it had before the call. *)
Lemma overrides_saved overrides env saved :
  NoDup overrides.*1 -> jm_wf saved ->
  jm_wf (apply_overrides overrides env saved).1 /\
  (forall k, jm_get k (apply_overrides overrides env saved).1 =
     if bool_decide (k ∈ overrides.*1) then Some (env !! k) else jm_get k saved) /\
  (forall k, (apply_overrides overrides env saved).2 !! k = match jm_get k overrides with Some v => v | None => env !! k end).
Proof.
  revert env saved. induction overrides as [|[key value] rest IH]; intros env saved Hn Hw; [done|].
  cbn in Hn. apply NoDup_cons in Hn as [Hk Hn]. cbn [apply_overrides].
  destruct (IH (put_env_var key value env) (jm_set key (env !! key) saved) Hn (jm_wf_set _ _ _ Hw)) as (H1 & H2 & H3).
  split_and!; [done| |]; intros k.
  - rewrite H2, jm_get_set, put_env_lookup. cbn [fmap list_fmap].
    destruct (decide (k = key)) as [->|Hne].
    + rewrite (bool_decide_false (key ∈ rest.*1)), !bool_decide_true by (done || by left). done.
    + rewrite (bool_decide_false (k = key)), (bool_decide_false (key = k)) by congruence.
      by rewrite (bool_decide_ext (k ∈ key :: rest.*1) (k ∈ rest.*1)) by (rewrite elem_of_cons; naive_solver).
  - rewrite H3, put_env_lookup. cbn [jm_get]. destruct (decide (k = key)) as [->|Hne].
    + rewrite !bool_decide_true by done. by rewrite (proj2 (jm_get_None key rest)).
    + by rewrite (bool_decide_false (k = key)), (bool_decide_false (key = k)) by congruence.
Qed.

(** [fn] runs with the overrides in place, and unless it throws at once the
    overridden variables are back to what they were when the call settles, whatever
    [fn] did to them and even if its promise rejects; other variables are as [fn]
    left them. *)
Theorem with_env_restores overrides fn env k :
  NoDup overrides.*1 ->
  let env1 := (apply_overrides overrides env []).2 in
  (forall e, (fn env1).2 <> FnThrows e) ->
  env1 !! k = (match jm_get k overrides with Some v => v | None => env !! k end) /\
  (withEnv overrides fn env).1 !! k = if bool_decide (k ∈ overrides.*1) then env !! k else (fn env1).1 !! k.
Proof.
  cbv zeta. intros Hn Hf. destruct (overrides_saved overrides env [] Hn (NoDup_nil_2)) as (Hw & Hs & He). split; [apply He|].
  unfold withEnv. destruct (apply_overrides overrides env []) as [saved env1]. cbn [fst snd] in *.
  assert (Hr : restore_env saved (fn env1).1 !! k = if bool_decide (k ∈ overrides.*1) then env !! k else (fn env1).1 !! k).
  { rewrite (restore_lookup _ _ _ Hw), Hs. by case_bool_decide. }
  destruct (fn env1) as [env2 [e| |r]]; cbn [fst snd] in *; [by destruct (Hf e)|done|done].
Qed.

(** When [fn] throws at once the overrides stay. *)
Example with_env_leaks :
  withEnv [("MODE", Some "test")] (fun env => (env, FnThrows (mkExn "Error" "assertion"))) ∅ =
  ({[ "MODE" := "test" ]}, Throw (mkExn "Error" "assertion")).
Proof. reflexivity. Qed.

(** ** Attachments in results: [testing/attachments.ts] *)
Section attachments.
Context `{U : UrlApi}.

(** [path.split("/").filter(Boolean).pop() ?? value] *)
Definition test_last_segment (path value : string) : string :=
  opt_default value (last (List.filter str_truthy (js_split 47 path))).

Definition test_inferAttachmentId (value : string) : string :=
  match URL_parse value with
  | Some url => test_last_segment (url_pathname url) value
  | None => test_last_segment value value
  end.

(** [s || d] *)
Definition or_else (s d : string) : string := if str_truthy s then s else d.

(** An entry is a reference or a bare string; the storage kind of a reference is
    never empty. *)
Definition test_normalizeAttachmentRef (ref : AttachmentRef + string) : AttachmentRef :=
  match ref with
  | inr uri => mkAttachmentRef (test_inferAttachmentId uri) uri "application/octet-stream" storage_external None None None None
  | inl r =>
      mkAttachmentRef (or_else (att_id r) (test_inferAttachmentId (att_uri r))) (att_uri r)
        (or_else (att_mime_type r) "application/octet-stream") (att_storage_kind r) (att_filename r) (att_size_bytes r)
        (att_blossom_hash r) (att_blossom_servers r)
  end.

(** The attachments of [normalizeQueryResult(result)]; an empty list is returned as
    it is. *)
Definition normalizeQueryResult (attachments : list (AttachmentRef + string)) : list AttachmentRef :=
  match attachments with [] => [] | _ => test_normalizeAttachmentRef <$> attachments end.

Lemma or_else_idem s d : or_else (or_else s d) d = or_else s d.
Proof. unfold or_else. destruct (str_truthy s) eqn:E; [by rewrite E|]. by destruct (str_truthy d). Qed.

Lemma last_segment_truthy path value : value <> "" -> str_truthy (test_last_segment path value) = true.
Proof.
  intros Hv. unfold test_last_segment. destruct (last _) as [x|] eqn:E.
  - apply last_Some_elem_of, list_elem_of_In, filter_In in E as [_ E]. exact E.
  - unfold str_truthy. cbn. by rewrite bool_decide_false.
Qed.

(** Normalising twice is normalising once, and every normalised attachment has an
    identifier, unless its reference is empty. *)
Theorem normalize_attachments_stable attachments :
  normalizeQueryResult (inl <$> normalizeQueryResult attachments) = normalizeQueryResult attachments /\
  Forall (fun a => att_uri a <> "" -> str_truthy (att_id a) = true) (normalizeQueryResult attachments).
Proof.
  assert (Hm : forall l, normalizeQueryResult l = test_normalizeAttachmentRef <$> l) by (by intros []). rewrite !Hm. split.
  - rewrite <- list_fmap_compose, <- list_fmap_compose. apply list_fmap_ext. intros i ref _. unfold compose.
    destruct ref as [r|uri]; cbn; [by rewrite !or_else_idem|]. f_equal. unfold or_else. by destruct (str_truthy _).
  - apply Forall_fmap, Forall_forall. intros ref _ Hu. unfold compose in *.
    assert (Hi : forall v, v <> "" -> str_truthy (test_inferAttachmentId v) = true).
    { intros v Hv. unfold test_inferAttachmentId. case_match; by apply last_segment_truthy. }
    destruct ref as [r|uri]; cbn in *; [|by apply Hi]. unfold or_else. destruct (str_truthy (att_id r)) eqn:E; [done|by apply Hi].
Qed.
End attachments.
