(* ===== verification/BuildScripts.v ===== *)
(** * The bundle build of the SDK package

    [packages/sdk/scripts/build-bundle.ts] and [fix-dts-imports.ts]: which module a
    workspace import is bundled from, and how the import specifiers of the emitted
    declaration files are rewritten.  The bundler, the paths of [node:path] and the
    file system are the host's. *)

From S2P Require Import Prelude JsNum JsMap JsString JsValue C2pa Proofmode Regex LintScan.

(** ** [build-bundle.ts] *)
Definition bundle_aliases : jsmap string string :=
  [("@anchr/protocol", "../protocol/src/mod.ts"); ("@anchr/protocol/events", "../protocol/src/events.ts");
   ("@anchr/protocol/nostr", "../protocol/src/nostr.ts"); ("@anchr/protocol/schema", "../protocol/src/schema.ts");
   ("@anchr/protocol/types", "../protocol/src/types.ts")].

Definition ENTRYPOINTS : list string := ["src/index.ts"; "src/customer.ts"; "src/provider.ts"; "src/oracle.ts"].

Record BuildConfig := mkBuildConfig { bd_entrypoints : list string; bd_outdir : string; bd_target : string; bd_plugin : string -> option string }.
Record BuildResult := mkBuildResult { br_success : bool; br_logs : list string }.

Section bundle.
Context (resolve : string -> string -> string) (packageDir : string) (bun_build : BuildConfig -> BuildResult).

(** The callback of [onResolve], behind its filter; [None] leaves the
    path to the bundler. *)
Definition resolve_workspace (path : string) : option string :=
  if test (rx "^@anchr\/") path then resolve packageDir <$> jm_get path bundle_aliases else None.

Definition build_config : BuildConfig :=
  mkBuildConfig (resolve packageDir <$> ENTRYPOINTS) (resolve packageDir "dist") "node" resolve_workspace.

(** The text on standard error and the exit code. *)
Definition build_bundle : list string * Z :=
  let result := bun_build build_config in
  if negb (br_success result) then ((fun log => log +:+ String.String (Ascii.ascii_of_nat 10) "") <$> br_logs result, 1%Z) else ([], 0%Z).
End bundle.

(** ** [fix-dts-imports.ts] *)
Definition dts_aliases : jsmap string string :=
  [("@anchr/protocol", "protocol/src/mod.js"); ("@anchr/protocol/events", "protocol/src/events.js");
   ("@anchr/protocol/nostr", "protocol/src/nostr.js"); ("@anchr/protocol/schema", "protocol/src/schema.js");
   ("@anchr/protocol/types", "protocol/src/types.js")].

(** [s.replaceAll(pat, rep)] for texts: [skip] characters of a match are still to be
    passed over.  The pattern is not empty and the replacement has no [$]. *)
Fixpoint replace_from (pat rep : list Ascii.ascii) (skip : nat) (l : list Ascii.ascii) : list Ascii.ascii :=
  match l with
  | [] => []
  | c :: l' =>
      match skip with
      | S k => replace_from pat rep k l'
      | O => if bool_decide (take (length pat) l = pat) then rep ++ replace_from pat rep (length pat - 1) l'
             else c :: replace_from pat rep 0 l'
      end
  end.
Definition replace_text (pat rep s : string) : string := of_chars (replace_from (chars pat) (chars rep) 0 (chars s)).

Inductive tree := File (name : string) | Dir (name : string) (entries : list tree) | Other (name : string).

Section dts.
Context (join relative : string -> string -> string) (dirname : string -> string) (distDir : string).

(** [dtsFiles(dir)] over the tree below [dir]. *)
Fixpoint dts_entry (dir : string) (t : tree) : list string :=
  match t with
  | Dir name entries => flat_map (dts_entry (join dir name)) entries
  | File name => if endsWith ".d.ts" name then [join dir name] else []
  | Other _ => []
  end.
Definition dtsFiles (dir : string) (entries : list tree) : list string := flat_map (dts_entry dir) entries.

Definition relativeSpecifier (fromFile distTarget : string) : string :=
  let specifier := replace_text "\" "/" (relative (dirname fromFile) (join distDir distTarget)) in
  if negb (startsWith "." specifier) then "./" +:+ specifier else specifier.

(** The two quotes. *)
Definition quoted_spec (q s : string) : string := q +:+ s +:+ q.

Definition rewrite_alias (path : string) (rewritten : string) (entry : string * string) : string :=
  let specifier := relativeSpecifier path entry.2 in
  replace_text (quoted_spec "'" entry.1) (quoted_spec "'" specifier) (replace_text (quoted_spec dquote entry.1) (quoted_spec dquote specifier) rewritten).

Definition rewriteWorkspaceAliases (path source : string) : string := fold_left (rewrite_alias path) dts_aliases source.

(** The global pattern of [source.replaceAll], with its replacement [$1.js$2]: a
    relative specifier after [from] or [import] that begins with [./]. *)
Definition TS_IMPORT : regex :=
  rx ("((?:from|import)\s*\(?\s*[" +:+ dquote +:+ "']\.\/[^" +:+ dquote +:+ "']+)\.ts([" +:+ dquote +:+ "'])").
Definition js_specifiers (source : string) : string := replaceAll TS_IMPORT (fun m => capture 1 m +:+ ".js" +:+ capture 2 m) source.

Definition fix_source (path source : string) : string := rewriteWorkspaceAliases path (js_specifiers source).

(** The loop over the files: each is read, and written when its text changed. *)
Fixpoint fix_files (paths : list string) (files : gmap string string) : gmap string string * res unit :=
  match paths with
  | [] => (files, Ok tt)
  | path :: paths' =>
      match files !! path with
      | None => (files, Throw (mkExn "Error" ("ENOENT: no such file or directory, open '" +:+ path +:+ "'")))
      | Some source =>
          let rewritten := fix_source path source in
          fix_files paths' (if rewritten !== source then <[path := rewritten]> files else files)
      end
  end.
Definition fix_dts (entries : list tree) (files : gmap string string) : gmap string string * res unit :=
  fix_files (dtsFiles distDir entries) files.
End dts.

(** ** A declaration file as literals between other text *)
Definition quote_char (double : bool) : Ascii.ascii := Ascii.ascii_of_nat (if double then 34 else 39).
Definition plain (l : list Ascii.ascii) : Prop := forall d, quote_char d ∉ l.

Lemma plain_decided l : bool_decide (quote_char true ∉ l /\ quote_char false ∉ l) = true -> plain l.
Proof. intros [H1 H2]%bool_decide_eq_true []; done. Qed.

(** A literal with the text before it. *)
Record literal := mkLiteral { li_before : list Ascii.ascii; li_double : bool; li_text : list Ascii.ascii }.

Fixpoint render (ls : list literal) (tail : list Ascii.ascii) : list Ascii.ascii :=
  match ls with
  | [] => tail
  | x :: ls' => li_before x ++ quote_char (li_double x) :: li_text x ++ quote_char (li_double x) :: render ls' tail
  end.

(** No quotes inside literals or between them, and no name of [keys] standing bare
    between two literals. *)
Definition literal_ok (keys : list (list Ascii.ascii)) (x : literal) : Prop :=
  plain (li_before x) /\ plain (li_text x) /\ li_before x ∉ keys.

Definition replace_literal (double : bool) (a r : list Ascii.ascii) (x : literal) : literal :=
  if bool_decide (li_double x = double) && bool_decide (li_text x = a) then mkLiteral (li_before x) double r else x.

Lemma replace_literal_eq d a r b : replace_literal d a r (mkLiteral b d a) = mkLiteral b d r.
Proof. unfold replace_literal. cbn [li_double li_text li_before]. by rewrite !bool_decide_true. Qed.
Lemma replace_literal_quote d d' a r b t : d' <> d -> replace_literal d a r (mkLiteral b d' t) = mkLiteral b d' t.
Proof. intros Hd. unfold replace_literal. cbn [li_double]. by rewrite bool_decide_false. Qed.
Lemma replace_literal_text d a r x : li_text x <> a -> replace_literal d a r x = x.
Proof. intros Ht. unfold replace_literal. by rewrite (bool_decide_false (li_text x = a)), andb_false_r. Qed.

Section replace.
Context (double : bool) (a r : list Ascii.ascii).
Notation q := (quote_char double).
Notation pat := (q :: a ++ [q]).
Notation rep := (q :: r ++ [q]).

Lemma replace_skip l1 l2 : replace_from pat rep (length l1) (l1 ++ l2) = replace_from pat rep 0 l2.
Proof. induction l1 as [|c l1 IH]; [done|exact IH]. Qed.

Lemma replace_match l : replace_from pat rep 0 (pat ++ l) = rep ++ replace_from pat rep 0 l.
Proof.
  cbn [app replace_from]. rewrite bool_decide_true.
  - f_equal. cbn [length]. replace (S (length (a ++ [q])) - 1)%nat with (length (a ++ [q])) by lia. f_equal. apply replace_skip.
  - cbn [length take]. by rewrite take_app_length.
Qed.

Lemma replace_other c l : c <> q -> replace_from pat rep 0 (c :: l) = c :: replace_from pat rep 0 l.
Proof. intros Hc. cbn [replace_from]. rewrite bool_decide_false; [done|]. cbn [length take]. congruence. Qed.

Lemma replace_through t l : q ∉ t -> replace_from pat rep 0 (t ++ l) = t ++ replace_from pat rep 0 l.
Proof.
  induction t as [|c t IH]; [done|]. intros [Hc Ht]%not_elem_of_cons. cbn [app]. rewrite replace_other by congruence. by rewrite IH.
Qed.

(** A name between quotes ends where the next quote is. *)
Lemma next_quote x d y : plain x -> plain a -> take (S (length a)) (x ++ quote_char d :: y) = a ++ [q] -> x = a /\ quote_char d = q.
Proof.
  revert x. induction a as [|a0 a' IH]; intros [|x0 x] Hx Ha Heq; cbn in Heq.
  - injection Heq as ->. by split.
  - injection Heq as ->. destruct (Hx double). by left.
  - injection Heq as <- _. destruct (Ha d). by left.
  - injection Heq as -> Heq. apply IH in Heq as [-> ->]; [done|..]; intros d' Hd'; [apply (Hx d')|apply (Ha d')]; by right.
Qed.

Lemma no_quote_left x : plain x -> take (S (length a)) x <> a ++ [q].
Proof.
  intros Hx Heq. apply (Hx double). apply (f_equal (fun l => q ∈ l)) in Heq. assert (Hq : q ∈ take (S (length a)) x).
  { rewrite Heq. apply elem_of_app. right. by apply list_elem_of_singleton. }
  rewrite <- (take_drop (S (length a)) x). apply elem_of_app. by left.
Qed.

(** A quote that closes a literal does not start a match. *)
Lemma replace_closing keys ls tail :
  a ∈ keys -> plain a -> Forall (literal_ok keys) ls -> plain tail ->
  replace_from pat rep 0 (q :: render ls tail) = q :: replace_from pat rep 0 (render ls tail).
Proof.
  intros Hk Ha Hls Ht. cbn [replace_from]. rewrite bool_decide_false; [done|]. cbn [length take]. rewrite length_app. cbn [length].
  rewrite Nat.add_1_r. intros [= Heq]. destruct ls as [|x ls]; cbn [render] in Heq; [by apply no_quote_left in Heq|].
  apply Forall_cons in Hls as [(H1 & H2 & H3) _]. apply next_quote in Heq as [Heq _]; [|done..]. by rewrite Heq in H3.
Qed.

Lemma replace_render keys ls tail :
  a ∈ keys -> plain a -> Forall (literal_ok keys) ls -> plain tail ->
  replace_from pat rep 0 (render ls tail) = render (replace_literal double a r <$> ls) tail.
Proof.
  intros Hk Ha Hls Ht. induction ls as [|x ls IH].
  - cbn. rewrite <- (app_nil_r tail) at 1. rewrite replace_through by apply Ht. by rewrite app_nil_r.
  - pose proof Hls as [(H1 & H2 & H3) Hls']%Forall_cons. specialize (IH Hls'). cbn [render fmap list_fmap].
    rewrite replace_through by apply H1. destruct (decide (li_double x = double)) as [Hd|Hd].
    + rewrite Hd. destruct (decide (li_text x = a)) as [Hl|Hl].
      * assert (Hx : replace_literal double a r x = mkLiteral (li_before x) double r).
        { unfold replace_literal. by rewrite !bool_decide_true. }
        rewrite Hx, Hl. cbn [li_before li_double li_text]. f_equal.
        assert (Hpat : q :: a ++ q :: render ls tail = pat ++ render ls tail) by (cbn; by rewrite <- app_assoc).
        rewrite Hpat, replace_match, IH. cbn [app]. by rewrite <- app_assoc.
      * assert (Hx : replace_literal double a r x = x).
        { unfold replace_literal. by rewrite (bool_decide_false (li_text x = a)), andb_false_r. }
        rewrite Hx, Hd. f_equal.
        assert (Hno : take (length pat) (q :: li_text x ++ q :: render ls tail) <> pat).
        { cbn [length take]. rewrite length_app. cbn [length]. rewrite Nat.add_1_r. intros [= Heq].
          by apply next_quote in Heq as [Heq _]. }
        cbn [replace_from]. rewrite bool_decide_false by exact Hno.
        rewrite replace_through by apply H2. rewrite (replace_closing keys) by done. by rewrite IH.
    + assert (Hq : quote_char (li_double x) <> q) by (by destruct (li_double x), double).
      assert (Hx : replace_literal double a r x = x).
      { unfold replace_literal. by rewrite (bool_decide_false (li_double x = double)). }
      rewrite Hx. f_equal. rewrite replace_other by done. rewrite replace_through by apply H2. rewrite replace_other by done. by rewrite IH.
Qed.
End replace.

(** ** What the rewriting does *)
Section rewriting.
Context (join relative : string -> string -> string) (dirname : string -> string) (distDir path : string).
Notation specifier := (relativeSpecifier join relative dirname distDir path).

(** A literal that names a workspace module becomes the path of its declaration. *)
Definition rewrite_literal (aliases : jsmap string string) (x : literal) : literal :=
  match jm_get (of_chars (li_text x)) aliases with
  | Some target => mkLiteral (li_before x) (li_double x) (chars (specifier target))
  | None => x
  end.

Definition file_ok (keys : list (list Ascii.ascii)) (ls : list literal) (tail : list Ascii.ascii) : Prop :=
  Forall (literal_ok keys) ls /\ plain tail.

Lemma replace_literals_ok keys double a r ls tail : plain r -> file_ok keys ls tail -> file_ok keys (replace_literal double a r <$> ls) tail.
Proof.
  intros Hr [Hls Ht]. split; [|done]. apply Forall_fmap. eapply Forall_impl; [exact Hls|]. intros x (H1 & H2 & H3). unfold compose, replace_literal.
  destruct (_ && _); by split_and!.
Qed.

Lemma replace_quoted double a r keys ls tail :
  chars a ∈ keys -> plain (chars a) -> file_ok keys ls tail ->
  replace_text (quoted_spec (of_chars [quote_char double]) a) (quoted_spec (of_chars [quote_char double]) r) (of_chars (render ls tail)) =
  of_chars (render (replace_literal double (chars a) (chars r) <$> ls) tail).
Proof.
  intros Hk Ha [Hls Ht]. unfold replace_text, quoted_spec. rewrite !chars_app, !chars_of_chars. cbn [app].
  by rewrite (replace_render _ _ _ keys).
Qed.

(** One entry of the table, under both quotes. *)
Lemma rewrite_alias_render a target keys ls tail :
  chars a ∈ keys -> plain (chars a) -> plain (chars (specifier target)) -> file_ok keys ls tail ->
  exists ls', rewrite_alias join relative dirname distDir path (of_chars (render ls tail)) (a, target) = of_chars (render ls' tail) /\
    file_ok keys ls' tail /\
    ls' = (fun x => if bool_decide (li_text x = chars a) then mkLiteral (li_before x) (li_double x) (chars (specifier target)) else x) <$> ls.
Proof.
  intros Hk Ha Hs Hok. eexists. split_and!; [| |reflexivity].
  - unfold rewrite_alias. cbn [fst snd]. change dquote with (of_chars [quote_char true]). change "'" with (of_chars [quote_char false]).
    rewrite (replace_quoted true _ _ keys) by done.
    rewrite (replace_quoted false _ _ keys) by (try done; by apply replace_literals_ok).
    f_equal. f_equal. rewrite <- list_fmap_compose. apply list_fmap_ext. intros i x _. unfold compose.
    destruct x as [before d text]. cbn [li_double li_text li_before].
    destruct (decide (text = chars a)) as [->|Hne].
    + rewrite bool_decide_true by done. destruct d; [by rewrite replace_literal_eq, replace_literal_quote|].
      by rewrite replace_literal_quote, replace_literal_eq.
    + rewrite bool_decide_false by done. rewrite (replace_literal_text true), (replace_literal_text false) by exact Hne. done.
  - destruct Hok as [Hls Ht]. split; [|done]. apply Forall_fmap. eapply Forall_impl; [exact Hls|]. intros x (H1 & H2 & H3). unfold compose.
    case_bool_decide; by split_and!.
Qed.
Lemma rewrite_aliases_render aliases keys ls tail :
  (forall k v, (k, v) ∈ aliases -> chars k ∈ keys /\ plain (chars k) /\ plain (chars (specifier v)) /\ specifier v ∉ aliases.*1) ->
  file_ok keys ls tail ->
  fold_left (rewrite_alias join relative dirname distDir path) aliases (of_chars (render ls tail)) =
  of_chars (render (rewrite_literal aliases <$> ls) tail).
Proof.
  revert ls. induction aliases as [|[a target] aliases IH]; intros ls Hal Hok; cbn [fold_left].
  - f_equal. f_equal. by rewrite list_fmap_id.
  - destruct (Hal a target) as (Hk & Ha & Hs & Hn); [by left|].
    destruct (rewrite_alias_render a target keys ls tail Hk Ha Hs Hok) as (ls' & -> & Hok' & Hls').
    rewrite IH; [|intros k v Hin; destruct (Hal k v) as (H1 & H2 & H3 & H4); [by right|]; split_and!; try done;
      intros Hin'; apply H4; by right|done].
    f_equal. f_equal. rewrite Hls', <- list_fmap_compose. apply list_fmap_ext. intros i x _. unfold compose, rewrite_literal. cbn [jm_get].
    destruct (decide (li_text x = chars a)) as [Ht|Ht].
    + rewrite (bool_decide_true (li_text x = chars a)) by done. cbn [li_text li_before li_double]. rewrite of_chars_chars, Ht, of_chars_chars.
      rewrite (bool_decide_true (a = a)) by done. destruct (jm_get (specifier target) aliases) as [v|] eqn:Ev; [|done].
      exfalso. apply Hn. right. apply list_elem_of_fmap. exists (specifier target, v). split; [done|by apply jm_get_Some_in].
    + rewrite (bool_decide_false (li_text x = chars a)) by done.
      rewrite (bool_decide_false (of_chars (li_text x) = a)); [done|]. intros <-. by rewrite chars_of_chars in Ht.
Qed.

Lemma aliases_plain : Forall (fun p : string * string => plain (chars p.1)) dts_aliases.
Proof. repeat constructor; by apply plain_decided. Qed.

Lemma aliases_absolute : Forall (fun p : string * string => startsWith "." p.1 = false) dts_aliases.
Proof. by repeat constructor. Qed.

Lemma specifier_relative target : startsWith "." (specifier target) = true.
Proof.
  unfold relativeSpecifier. destruct (startsWith "." (replace_text _ _ _)) eqn:E; cbn [negb]; [exact E|].
  by destruct (replace_text _ _ _).
Qed.

(** Rewriting a declaration file is exact: of a text that consists of quoted
    literals with other text between them, exactly the literals that name a
    workspace module change, each to the relative path of that module's
    declaration, and everything else is as it was. *)
Theorem workspace_imports_rewritten ls tail :
  Forall (fun p => plain (chars (specifier p.2))) dts_aliases ->
  file_ok (chars <$> dts_aliases.*1) ls tail ->
  rewriteWorkspaceAliases join relative dirname distDir path (of_chars (render ls tail)) =
  of_chars (render (rewrite_literal dts_aliases <$> ls) tail).
Proof.
  intros Hs Hok. apply (rewrite_aliases_render _ (chars <$> dts_aliases.*1)); [|done]. intros k v Hin. split_and!.
  - apply list_elem_of_fmap. exists k. split; [done|]. apply list_elem_of_fmap. by exists (k, v).
  - by apply (proj1 (Forall_forall _ _) aliases_plain) in Hin.
  - by apply (proj1 (Forall_forall _ _) Hs) in Hin.
  - intros Hk. pose proof (specifier_relative v) as Hd. apply list_elem_of_fmap in Hk as ([k' v'] & Hk & Hin'). rewrite Hk in Hd.
    apply (proj1 (Forall_forall _ _) aliases_absolute) in Hin'. cbn in *. congruence.
Qed.
End rewriting.

(** The two scripts agree on the workspace modules: the declarations of each alias
    are emitted for the module it is bundled from. *)
Theorem alias_tables_agree alias :
  (fun target => slice 3 target) <$> jm_get alias bundle_aliases =
  (fun target => slice0 (String.length target - 3) target +:+ ".ts") <$> jm_get alias dts_aliases.
Proof. unfold bundle_aliases, dts_aliases. cbn [jm_get]. by repeat case_bool_decide. Qed.

(** Only specifiers that begin with [./] are given the extension of the emitted
    file; one that goes up a directory keeps [.ts]. *)
Example parent_specifier_kept :
  js_specifiers "import type { A } from './a.ts'; import type { B } from '../b.ts'; type C = import('./c.ts').C;" =
  "import type { A } from './a.js'; import type { B } from '../b.ts'; type C = import('./c.js').C;".
Proof. vm_compute. reflexivity. Qed.

(** A quote shared by two readings is outside what the theorem covers: the text
    between two literals is taken for one. *)
Example bare_alias_captured :
  rewriteWorkspaceAliases (fun a b => a +:+ "/" +:+ b) (fun _ b => b) (fun p => p) "dist" "f" "'a'@anchr/protocol'b'" <> "'a'@anchr/protocol'b'".
Proof. vm_compute. discriminate. Qed.

Lemma workspace_imports_rewritten_witness :
  rewriteWorkspaceAliases (fun a b => a +:+ "/" +:+ b) (fun _ b => b) (fun p => p) "dist" "dist/customer.d.ts"
    "import type { Event } from '@anchr/protocol/nostr'; export * from './other.js';" =
  "import type { Event } from './dist/protocol/src/nostr.js'; export * from './other.js';".
Proof.
  pose (ls := [mkLiteral (chars "import type { Event } from ") false (chars "@anchr/protocol/nostr");
               mkLiteral (chars "; export * from ") false (chars "./other.js")]).
  pose proof (workspace_imports_rewritten (fun a b => a +:+ "/" +:+ b) (fun _ b => b) (fun p => p) "dist" "dist/customer.d.ts" ls (chars ";")) as Hw.
  refine (Hw _ _); clear Hw.
  - repeat constructor; by apply plain_decided.
  - split; [|by apply plain_decided]. repeat constructor; try (by apply plain_decided); apply (bool_decide_unpack _); vm_compute; exact I.
Defined.
